(* ===== verification/_CoqProject ===== *)
-Q . S2P
Prelude.v
Sha256.v
Text.v
Base64.v
Psbt.v
Btcd.v
Cbor.v
P256.v
GoTime.v
Json.v
WebAuthn.v
Program.v
Deployment.v
Cosigner.v
Vtxo.v
Monotonic.v
Tenant.v
Renewal.v
Board.v
Savings.v
Delegation.v
Store.v
Journal.v
TenantLedger.v
SavingsLedger.v
BoardLedger.v
Enrollment.v
VtxoLedger.v
RenewalLedger.v
DelegationLedger.v
Session.v
VtxoSelect.v
VtxoScript.v
VtxoVerify.v
Handler.v
Service.v
VtxoTree.v
SavingsKeys.v
SavingsFamily.v
SavingsTransition.v
VtxoRely.v
VtxoService.v
VtxoRequests.v
VtxoExpiry.v
RenewalContract.v
BatchTree.v
BoardVerify.v
BatchVerify.v
DelegationPlan.v
DelegationKeys.v
