(* ===== verification/Prelude.v ===== *)
(** * Guardian: the policy ledger of the Arkade vault runtime

    The program is a signing service.  It holds one key share of every vault and
    signs only what its policy ledger allows: a payment within the rolling
    allowance, a renewal or delegation batch that was reserved, a boarding deposit
    attempt, a Savings recovery towards one destination.  The ledger
    ([src/internal/policy]) is a SQLite database next to a small file that holds a
    monotonic sequence number; every row carries an HMAC.  This library models the
    ledger, the spending policy it enforces ([src/internal/program]), the passkey
    checks, the payment requests that call it and the verification of everything
    that is signed ([src/internal/application]), and proves that what is signed is
    what the ledger, the policy and the owner allow.

    ** How the program is put together

    - [policy/ledger.go] owns the database, the integrity key, the clock and the
      monotonic file.  Every method takes the ledger mutex, runs one SQLite
      transaction and, when it records an outflow, advances the monotonic file
      before the COMMIT.
    - Payments ([vtxo.go], [vtxo_ledger.go]), renewals ([spending_renewal.go]) and
      delegations ([spending_delegation.go]) share one allowance: the accounting
      in [ledger.go] adds up the charges of all three, and a payment invalidates an
      armed delegation of the same coins.
    - Boarding deposits ([vault_board*.go]) and Savings recoveries
      ([ledger_savings*.go]) have their own append-only journals; all journals
      count into the same economic sequence ([sequence_base.go], [monotonic.go]).
    - Vault records, passkeys, envelopes, recovery maps, backups and invitations
      are in the tenant tables ([tenant.go], [envelope.go], [vaultmap.go],
      [invite.go], [pending.go], [enrollment_session.go], [recovery_backup.go]);
      [vault_create.go] fills them in one transaction.
    - A payment request ([application/vtxo.go], [vtxo_abort.go]) reads the vault's
      contract and its record, rebuilds the taproot tree, checks the assertion and
      the transactions, and calls the ledger several times.  Nothing is held
      between two calls: other requests may change the ledger there.

    ** Files

    - [Prelude]: bytes, fixed-width integers and their little- and big-endian
      encodings, Go's [(value, error)] as [result], loops over slices, length-
      prefixed fields, [sort.SliceStable], keyed rows, tactics and the hint
      database [guardian].
    - [Sha256], [Text], [Base64], [GoTime], [Json]: what the code uses of Go's
      standard library, executable: SHA-256 and HMAC; hexadecimal, decimal, case
      and white space; base64; [time.Time] formatting and parsing; UTF-8,
      [encoding/json] printing, parsing and struct decoding, with round-trip
      theorems.
    - [Cbor], [P256], [WebAuthn]: [src/internal/webauthn], passkey assertions and
      attestations: the CBOR subset, point decompression and DER signatures,
      [Validate] and [ValidateCreate].
    - [Session]: [application/session_challenge.go] and the authentication half of
      [application/session.go]: passkey challenge tickets and
      [authenticatePasskeySession].
    - [Program]: [program/*.go], the policy constants, pins, validators, canonical
      JSON and digests.
    - [Deployment]: [deployment/identity.go], the constants of both networks.
    - [Btcd]: what the code calls of btcd's script package, as a class.
    - [Psbt], [VtxoVerify]: [application/psbtguard.go], [vtxo_verify.go] and
      [vtxo_pending_proof.go]: PSBTs, the exact-shape verification of a payment
      bundle and of its recovery proof, signing every input.
    - [VtxoSelect]: the coin selection and fee search of [application/vtxo.go].
    - [VtxoScript], [VtxoTree]: [policy/vtxo_script.go] and
      [application/vtxo_tree.go]: the taproot trees of a vault and of its boarding
      address, and the separation of the boarding keys.
    - [SavingsKeys], [SavingsFamily]: [vault/savings/*.go]: the context digest of a
      Savings contract, the extended keys derived from it, its wallet policies and
      its receive, change, pending and quarantine trees.
    - [SavingsTransition]: [application/ledger_savings_transition.go]: the checks of
      a submitted recovery transition and the Guardian's signature.
    - [BatchTree]: the transaction trees of a batch ([vault_board_finalize.go],
      [spending_renewal_final.go]): canonical form, graph checks, the vault's
      output, the batch output.
    - [BoardVerify]: [vault_board_verify.go] and [vault_board_finalize.go]: what is
      checked before a boarding deposit is signed.
    - [RenewalContract]: [spending_renewal_context.go] and [renewal_contract.go]: the
      enrollment contract that every batch signature is for.
    - [BatchVerify]: [spending_renewal_verify.go], [spending_renewal_final.go] and
      [spending_bitcoin*.go]: registrations, deletions and finals of batches,
      Bitcoin payment plans, and the capability that signs them.
    - [DelegationPlan], [DelegationKeys]: [spending_delegation_request.go],
      [_verify.go], [_plan.go] and [_keys.go]: the renewals that an owner delegates,
      and every signature the Guardian gives for them, MuSig2 included.
    - [Handler]: requests as programs of ledger calls, queries and pure steps; runs
      against an environment that moves between calls; a pool of concurrent
      requests under a scheduler; rely-guarantee rules.
    - [Service]: the service state, the vault lookup, the contract pack and the
      error mapping of [application/service.go] and [contract_pack.go].
    - [VtxoService]: the six payment requests of [application/vtxo.go] and
      [vtxo_abort.go], with the expiry of reservations and the promotion of
      submitted payments.
    - [VtxoRely]: what every request keeps of a payment (its terms, its
      authorization, its coins), shown method by method, and the rules to reason
      about a program under that interference.
    - [VtxoRequests], [VtxoExpiry]: the theorems about the requests.
    - [Cosigner]: [policy/cosigner.go] and [application/key_provider.go]: HKDF
      derivation of the cosigner keys and the signing capabilities.
    - [Vtxo], [Tenant], [Renewal], [Delegation], [Board], [Savings], [Monotonic]:
      the records of each component, their canonical encodings and MACs, the
      validators and pure transition functions, and the sequence file.
    - [Store]: the tables, the [Ledger] object, the state-and-error monad [M],
      transactions with rollback, the economic sequence, the authenticator
      counters.
    - [Journal]: loading and authenticating the renewal and delegation journals and
      the allowance accounting over all three outflows ([ledger.go]).
    - [VtxoLedger], [RenewalLedger], [DelegationLedger], [TenantLedger],
      [SavingsLedger], [BoardLedger], [Enrollment]: the database methods of each
      component, one definition per method, and the theorems about them.

    A definition has the name of the Go function it translates; a record field
    [xx_Field] is the Go field [Field].

    ** What the theorems show

    - Spending limits: a reservation is recorded only within the allowance of the
      last 24 hours, for payments, renewals and delegations alike; the accounting
      equals a sum of charges; failures reserve nothing.
    - State machines as step relations with reachability: payments, renewals,
      delegations, boarding attempts and Savings recoveries.  The database methods
      refine them ([*_refines], [vtxo_lifecycle]); exclusivity, single outcome and
      phase order are proved on the abstract machines and hold for every run of
      calls with any failures of COMMIT and of the sequence file.  For renewals and
      delegations this needs that the rows that are written read back (valid UTF-8,
      and within the sizes of the reader), which the code does not enforce:
      [RenewalLedger] has two accepted rows after which its journal is unreadable.
    - Atomicity and compare-and-swap: commit of a signature, scheduling of a
      delegation set, vault creation, envelopes, backups.
    - Monotonicity: passkey counters strictly increase, or stay 0 for an
      authenticator that counts nothing; the sequence file never decreases.
    - Binding: equal MACs or digests mean equal records, or a collision of
      HMAC-SHA-256 (stated as an explicit alternative, never assumed away).
    - Passkeys: [Validate] accepts exactly the assertions that certify the expected
      challenge, origin and user verification; the CBOR decoder inverts the
      canonical encoding and terminates; a challenge ticket authenticates once.
    - Payments: coin selection is sound, takes the first balanced solution and
      terminates; the transactions of an accepted bundle are determined by the
      reservation; the signing capability adds exactly one valid signature per
      input; keys of different contexts are separated.
    - An authorization rests on the phone's signatures of the packets and on the
      direct key's signature of the reservation's digest; the passkey proves that
      the user is present ([authorization_sound]).
    - Payment requests, with any other requests between their ledger calls: a
      response of a reservation, authorization, finalization or abort says what the
      ledger holds ([reservation_sound], [authorization_sound],
      [finalization_sound], [abort_sound]); every schedule of a pool of concurrent
      requests keeps the terms, authorization and coins of every payment
      ([concurrent_payments_kept]); an expired reservation is released by the next
      view ([expired_reservation_released]).
    - Savings contracts: the wallet policy and the scripts are renderings of one
      list of leaves, and no single party moves the coins at once
      ([savings_descriptor_exact], [recovery_family_exact]); the context digest
      determines the contract ([context_digest_binding]); the Guardian signs an
      accepted transition between the enrolled addresses, within both fee caps,
      and nothing else ([savings_transition_sound], [guardian_signature_exact]).
    - Taproot trees: every leaf of a vault needs two parties or a delay; the keys
      of a boarding tree are pairwise distinct.
    - Batches: an accepted graph is a tree with one root ([renewal_graph_tree]), and
      its walk ends ([renewal_walk_terminates]); a coin is forfeited only against a
      batch that pays for it ([batch_final_sound], [board_final_sound]); a
      registration spends the planned coin for the planned receivers
      ([board_register_sound]); a Bitcoin payment is signed only inside the owner's
      plan ([bitcoin_payment_signed]); the contract behind all of them is the
      enrolled one, compiled from the keys of the enrollment and the pins
      ([delegation_contract_sound]).
    - Delegations: a journal that loads holds only complete sets
      ([delegation_sets_complete]), scheduled all at once
      ([delegation_schedule_atomic]); an accepted request returns the coin to the
      vault ([delegation_request_sound]); the key acts only as the owner signed
      ([delegation_signed]); a tree is signed only for the transcript that the
      journal committed ([tree_signature_committed]), and never for a second one
      ([nonce_single_transcript]).
    - Round trips, canonical forms, exact bounds and error behaviour of records,
      rows, policies and the sequence file.

    ** Conventions, bounds and fuel

    - Strings and byte slices are lists of bytes; a slice whose nil-ness is visible
      (it goes through JSON) is an [option].  Integers are [Z]; conversions that
      truncate are written out ([wrap64], [le32] keeps the low 32 bits), and rows
      scanned into [uint32] are range-checked.
    - Pointers that the code never passes as nil are plain records.
    - One call of a ledger method is one atomic step, because the code holds the
      mutex throughout; the clock is read once per call, although a method may call
      it twice.  [l_commit_ok] and [l_faults] say what COMMIT and the file system
      do in this call; theorems quantify over them.
    - A request is a term of [Handler.Prog].  Between two calls the environment may
      move the state by any relation the theorem names; [V] is then any property of
      the states a request can meet.  A lookup that would make the Go code panic
      (no resolver configured) is an error value.
    - A failed transaction restores the tables and nothing else: the sequence file
      may have advanced.
    - Where the Go code checks a list in map order or in row order, the model
      fixes one order; only which of several errors is reported depends on it.
    - Error values are compared by message template only.
    - Fuel: JSON values and strings use the length of the input, the UTF-8 decoder
      and [trim_space] too, decimal printing 64 digits, all with lemmas that the
      fuel is enough; the JSON nesting limit is Go's own 10000.

    ** Parameters

    - [Wire]: btcd's transaction parser, for conflict evidence.
    - [EcdsaVerify]: [ecdsa.Verify] of Go's standard library, with an executable
      instance in [P256].
    - [Btc] with [PsbtLaws]: btcd's PSBT codec, tapscript hashes and signatures,
      and the Ark script library; [Secp]: btcec's scalars and keys; [ArkFee]: the
      Operator's fee program interpreter; [ArkScript]: the closures of the Ark
      script library; [Addresses]: Ark and on-chain address encodings;
      [ContractPacks]: the embedded contract packs; [Hd]: hdkeychain's extended
      keys; [Txscript]: the script builder and taproot assembly; [Transitions]: the
      other PSBT fields and wire serializations; [ArkTree], [ArkIntent],
      [PsbtFields], [BatchLib]: the tree, intent and PSBT-field libraries of the
      batches; [MuSig]: AES-GCM and btcec's MuSig2 with its HKDF reader.  Each has
      an executable toy instance.
    - The Ark server, seen through [ArkResolver] ([Service]): the answers of one
      request are arguments of the request.
    - [Unicode]: the case tables of Go's [unicode] package, for texts that are not
      ASCII.

    ** Not modelled

    - Schema creation, migration and inspection ([schema*.go], the queries on
      [sqlite_master]): DDL; the CHECK, key and foreign-key constraints are
      conditions of the insertions.
    - Opening the database, the first write of the sequence base and
      [SetIntegrityKey].
    - The rest of the application layer ([src/internal/application]): enrolment
      requests, the requests of batches, delegations, boarding and Savings and
      their exchange with the Ark server (what these requests sign or record is
      modelled, the order in which they do it is not); HTTP, configuration and
      process start-up. *)
From Stdlib Require Import Strings.Byte.
From stdpp Require Import base tactics list gmap strings.
From stdpp Require Export base tactics list gmap strings sorting.
From Stdlib Require Export ZArith Lia Permutation.

#[global] Open Scope Z_scope.

(** ** Bytes

    A Go [string] and a Go [[]byte] are both immutable-or-copied byte
    sequences in the modelled code ([[]byte(s)] and [string(b)] only convert
    the static type), so both are lists of bytes here. *)
Abbreviation byte := Corelib.Init.Byte.byte.
Abbreviation bytes := (list Corelib.Init.Byte.byte).

Definition u8 (b : byte) : Z := Z.of_N (Byte.to_N b).

(** The Go conversion [byte(z)]: truncation to 8 bits. *)
Definition byte_of_Z (z : Z) : byte :=
  match Byte.of_N (Z.to_N (z mod 256)) with
  | Some b => b
  | None => Byte.x00
  end.

(** A Go string literal. *)
Definition str (s : string) : bytes := String.list_byte_of_string s.

(** Go's [==] and [!=] on comparable values. *)
Declare Scope go_scope.
Delimit Scope go_scope with go.
Notation "a == b" := (bool_decide (a = b)) (at level 70, no associativity) : go_scope.
Notation "a != b" := (negb (bool_decide (a = b))) (at level 70, no associativity) : go_scope.
#[global] Open Scope go_scope.

(** [len(b)] as a mathematical integer. *)
Definition blen (b : bytes) : Z := Z.of_nat (length b).

Arguments str : simpl never.
Arguments u8 : simpl never.
Arguments byte_of_Z : simpl never.

#[global] Instance byte_eq_dec : EqDecision byte := Byte.byte_eq_dec.
#[global] Program Instance byte_countable : Countable byte :=
  inj_countable Byte.to_N Byte.of_N _.
Next Obligation. intros b. apply Byte.of_to_N. Qed.

Lemma u8_range b : 0 <= u8 b < 256.
Proof.
  unfold u8. pose proof (Byte.to_N_bounded b). lia.
Qed.

Lemma u8_byte_of_Z z : u8 (byte_of_Z z) = z mod 256.
Proof.
  unfold u8, byte_of_Z.
  pose proof (Z.mod_pos_bound z 256 ltac:(lia)).
  destruct (Byte.of_N (Z.to_N (z mod 256))) as [b|] eqn:E.
  - apply Byte.to_of_N in E. rewrite E. lia.
  - apply Byte.of_N_None_iff in E. lia.
Qed.

Lemma byte_of_Z_u8 b : byte_of_Z (u8 b) = b.
Proof.
  unfold byte_of_Z. pose proof (u8_range b).
  rewrite Z.mod_small by lia. unfold u8. rewrite N2Z.id, Byte.of_to_N. done.
Qed.

#[global] Instance u8_inj : Inj (=) (=) u8.
Proof. intros a b E. rewrite <-(byte_of_Z_u8 a), <-(byte_of_Z_u8 b). by f_equal. Qed.

(** Go's [<] on strings: bytewise lexicographic order. *)
Fixpoint bytes_ltb (a b : bytes) : bool :=
  match a, b with
  | [], [] => false
  | [], _ :: _ => true
  | _ :: _, [] => false
  | x :: a, y :: b => if u8 x =? u8 y then bytes_ltb a b else u8 x <? u8 y
  end.

Definition bytes_leb (a b : bytes) : bool := negb (bytes_ltb b a).

Lemma bytes_ltb_irrefl a : bytes_ltb a a = false.
Proof. induction a as [|x a IH]; simpl; [done|]. by rewrite Z.eqb_refl. Qed.

Lemma bytes_ltb_trans a b c :
  bytes_ltb a b = true -> bytes_ltb b c = true -> bytes_ltb a c = true.
Proof.
  revert b c. induction a as [|x a IH]; intros [|y b] [|z c]; simpl; try done.
  destruct (Z.eqb_spec (u8 x) (u8 y)) as [E1|], (Z.eqb_spec (u8 y) (u8 z)) as [E2|];
    intros; destruct (Z.eqb_spec (u8 x) (u8 z)); try lia; eauto.
Qed.

Lemma bytes_ltb_total a b : bytes_ltb a b = false -> bytes_ltb b a = false -> a = b.
Proof.
  revert b. induction a as [|x a IH]; intros [|y b]; simpl; try done.
  rewrite (Z.eqb_sym (u8 y)). destruct (Z.eqb_spec (u8 x) (u8 y)) as [E|]; [|lia].
  intros. apply (inj u8) in E. f_equal; eauto.
Qed.

(** A check computed over a finite range of integers holds on all of it. *)
Lemma forallb_seqZ (f : Z -> bool) lo n x :
  forallb f (seqZ lo n) = true -> lo <= x < lo + n -> f x = true.
Proof.
  rewrite forallb_forall. intros Hf Hx. apply Hf.
  apply list_elem_of_In, elem_of_seqZ. lia.
Qed.

(** ** Machine integers *)
Definition max_int64 : Z := 9223372036854775807.
Definition max_uint64 : Z := 18446744073709551615.
Definition max_uint32 : Z := 4294967295.

Definition is_int64 (z : Z) : Prop := - 9223372036854775808 <= z <= max_int64.
Definition is_uint64 (z : Z) : Prop := 0 <= z <= max_uint64.
Definition is_uint32 (z : Z) : Prop := 0 <= z <= max_uint32.

(** [uint64(z)] of an [int64], and the wrap of any [uint64] arithmetic. *)
Definition wrap64 (z : Z) : Z := z mod 18446744073709551616.
Definition wrap32 (z : Z) : Z := z mod 4294967296.
(** Two's-complement wrap of [int64] arithmetic. *)
Definition wrap_int64 (z : Z) : Z :=
  (z + 9223372036854775808) mod 18446744073709551616 - 9223372036854775808.

Lemma wrap64_inj a b : is_int64 a -> is_int64 b -> wrap64 a = wrap64 b -> a = b.
Proof.
  unfold is_int64, max_int64, wrap64. intros Ha Hb E.
  pose proof (Z.div_mod a 18446744073709551616) as Da. pose proof (Z.div_mod b 18446744073709551616) as Db.
  rewrite E in Da. nia.
Qed.

(** ** encoding/binary: fixed-width little- and big-endian integers *)
Fixpoint le_bytes (n : nat) (z : Z) : bytes :=
  match n with
  | O => []
  | S k => byte_of_Z z :: le_bytes k (Z.shiftr z 8)
  end.

Fixpoint be_bytes (n : nat) (z : Z) : bytes :=
  match n with
  | O => []
  | S k => byte_of_Z (Z.shiftr z (8 * Z.of_nat k)) :: be_bytes k z
  end.

Fixpoint le_value (b : bytes) : Z :=
  match b with
  | [] => 0
  | x :: b => u8 x + 256 * le_value b
  end.

(** [binary.LittleEndian.AppendUint16/32/64], as the bytes appended. *)
Definition le16 (z : Z) : bytes := le_bytes 2 z.
Definition le32 (z : Z) : bytes := le_bytes 4 z.
Definition le64 (z : Z) : bytes := le_bytes 8 z.
Definition be32 (z : Z) : bytes := be_bytes 4 z.
Definition be64 (z : Z) : bytes := be_bytes 8 z.

Lemma le_bytes_length n z : length (le_bytes n z) = n.
Proof. revert z. induction n; intros; simpl; auto. Qed.

Lemma be_bytes_length n z : length (be_bytes n z) = n.
Proof. induction n; simpl; auto. Qed.

Lemma le_value_le_bytes n z : le_value (le_bytes n z) = z mod 256 ^ Z.of_nat n.
Proof.
  revert z. induction n as [|n IH]; intros z; simpl; [by rewrite Z.mod_1_r|].
  rewrite IH, u8_byte_of_Z, Z.shiftr_div_pow2 by lia.
  replace (2 ^ 8) with 256 by done.
  rewrite Nat2Z.inj_succ, Z.pow_succ_r by lia.
  rewrite Z.rem_mul_r by lia. lia.
Qed.

Lemma le_bytes_inj n z1 z2 :
  0 <= z1 < 256 ^ Z.of_nat n -> 0 <= z2 < 256 ^ Z.of_nat n ->
  le_bytes n z1 = le_bytes n z2 -> z1 = z2.
Proof.
  intros ?? E. apply (f_equal le_value) in E.
  rewrite !le_value_le_bytes, !Z.mod_small in E by done. done.
Qed.

Lemma le32_inj z1 z2 : is_uint32 z1 -> is_uint32 z2 -> le32 z1 = le32 z2 -> z1 = z2.
Proof.
  unfold is_uint32, max_uint32. intros ??.
  apply (le_bytes_inj 4); change (256 ^ Z.of_nat 4) with 4294967296; lia.
Qed.

Lemma le64_inj z1 z2 : is_uint64 z1 -> is_uint64 z2 -> le64 z1 = le64 z2 -> z1 = z2.
Proof.
  unfold is_uint64, max_uint64. intros ??.
  apply (le_bytes_inj 8); change (256 ^ Z.of_nat 8) with 18446744073709551616; lia.
Qed.

Lemma le32_length z : length (le32 z) = 4%nat.
Proof. apply le_bytes_length. Qed.
Lemma le64_length z : length (le64 z) = 8%nat.
Proof. apply le_bytes_length. Qed.

(** Big-endian is little-endian reversed. *)
Lemma le_bytes_snoc n z : le_bytes (S n) z = le_bytes n z ++ [byte_of_Z (Z.shiftr z (8 * Z.of_nat n))].
Proof.
  revert z. induction n as [|n IH]; intros z; [simpl; by rewrite Z.shiftr_0_r|].
  change (le_bytes (S (S n)) z) with (byte_of_Z z :: le_bytes (S n) (Z.shiftr z 8)).
  rewrite IH. simpl. do 4 f_equal. rewrite Z.shiftr_shiftr by lia. f_equal. lia.
Qed.

Lemma be_bytes_rev n z : be_bytes n z = rev (le_bytes n z).
Proof. induction n as [|n IH]; [done|]. rewrite le_bytes_snoc, rev_app_distr, <-IH. done. Qed.

Lemma be64_inj z1 z2 : is_uint64 z1 -> is_uint64 z2 -> be64 z1 = be64 z2 -> z1 = z2.
Proof.
  intros ?? E. apply le64_inj; [done..|]. unfold be64, le64 in *. rewrite !be_bytes_rev in E.
  apply (f_equal (@rev _)) in E. by rewrite !rev_involutive in E.
Qed.

Lemma be32_inj z1 z2 : is_uint32 z1 -> is_uint32 z2 -> be32 z1 = be32 z2 -> z1 = z2.
Proof.
  intros ?? E. apply le32_inj; [done..|]. unfold be32, le32 in *. rewrite !be_bytes_rev in E.
  apply (f_equal (@rev _)) in E. by rewrite !rev_involutive in E.
Qed.

(** A fixed-width prefix can be split off an equality of encodings. *)
Lemma app_inv_length {A} (a b r s : list A) :
  length a = length b -> a ++ r = b ++ s -> a = b /\ r = s.
Proof. intros L E. by apply app_inj_1. Qed.

Lemma le32_app_inv z1 z2 r s :
  is_uint32 z1 -> is_uint32 z2 -> le32 z1 ++ r = le32 z2 ++ s -> z1 = z2 /\ r = s.
Proof.
  intros ?? E. apply app_inv_length in E as [E ->]; [|by rewrite !le32_length].
  apply le32_inj in E; auto.
Qed.

Lemma le64_app_inv z1 z2 r s :
  is_uint64 z1 -> is_uint64 z2 -> le64 z1 ++ r = le64 z2 ++ s -> z1 = z2 /\ r = s.
Proof.
  intros ?? E. apply app_inv_length in E as [E ->]; [|by rewrite !le64_length].
  apply le64_inj in E; auto.
Qed.

(** ** Go errors

    The sentinel errors the callers compare against are constructors; the
    others carry the format string of [fmt.Errorf], and [ErrWrap] is the
    ["ctx: %w"] form. *)
Inductive error :=
  | ErrNoRows                     (* sql.ErrNoRows *)
  | ErrPeriodAllowanceExceeded
  | ErrVtxoOperationActive
  | ErrConstraint (what : string) (* SQLite constraint violation *)
  | ErrIO (what : string)         (* failed COMMIT or file-system call *)
  | ErrMsg (msg : string)
  | ErrWrap (ctx : string) (e : error).

#[global] Instance error_eq_dec : EqDecision error.
Proof. solve_decision. Defined.

(** ** Fallible computations: Go's [(A, error)] *)
Inductive result (A : Type) :=
  | Ok (a : A)
  | Err (e : error).
Arguments Ok {A} a.
Arguments Err {A} e.

#[global] Instance result_ret : MRet result := @Ok.
#[global] Instance result_bind : MBind result := fun A B f m =>
  match m with
  | Ok a => f a
  | Err e => Err e
  end.
#[global] Instance result_fmap : FMap result := fun A B f m =>
  match m with
  | Ok a => Ok (f a)
  | Err e => Err e
  end.

#[global] Instance result_eq_dec `{EqDecision A} : EqDecision (result A).
Proof. solve_decision. Defined.

(** [if cond { return err }] *)
Definition fail_if (c : bool) (e : error) : result unit :=
  if c then Err e else Ok tt.

(** [if err := m; err != nil { return fmt.Errorf("ctx: %w", err) }] *)
Definition wrap_err {A} (ctx : string) (m : result A) : result A :=
  match m with
  | Ok a => Ok a
  | Err e => Err (ErrWrap ctx e)
  end.

Definition is_ok {A} (m : result A) : bool :=
  match m with Ok _ => true | Err _ => false end.

(** [if m != nil { return e }]: replace whatever error by [e]. *)
Definition or_err {A} (e : error) (m : result A) : result A :=
  match m with Ok a => Ok a | Err _ => Err e end.

Lemma Ok_inj {A} (a b : A) : Ok a = Ok b -> a = b.
Proof. by intros [= ->]. Qed.

Lemma bind_Ok {A B} (m : result A) (f : A -> result B) b :
  (m ≫= f) = Ok b <-> exists a, m = Ok a /\ f a = Ok b.
Proof. destruct m; naive_solver. Qed.

Lemma bind_Err {A B} (m : result A) (f : A -> result B) e :
  (x ← m; f x) = Err e -> m = Err e \/ exists x, m = Ok x /\ f x = Err e.
Proof. destruct m; simpl; [by right; eexists|]. intros [= ->]. by left. Qed.

Lemma fail_if_Ok c e u : fail_if c e = Ok u <-> c = false.
Proof. destruct u, c; naive_solver. Qed.

Lemma wrap_err_Ok {A} ctx (m : result A) a : wrap_err ctx m = Ok a <-> m = Ok a.
Proof. destruct m; naive_solver. Qed.

Lemma or_err_Ok {A} e (m : result A) a : or_err e m = Ok a <-> m = Ok a.
Proof. destruct m; naive_solver. Qed.

Lemma is_ok_true {A} (m : result A) : is_ok m = true <-> exists a, m = Ok a.
Proof. destruct m; naive_solver. Qed.

(** A Go loop that runs [f] on every element and stops at the first error. *)
Fixpoint each {A} (f : A -> result unit) (l : list A) : result unit :=
  match l with
  | [] => Ok tt
  | x :: l => _ ← f x; each f l
  end.

Lemma each_Ok {A} (f : A -> result unit) l u :
  each f l = Ok u <-> Forall (fun x => f x = Ok tt) l.
Proof.
  destruct u. induction l as [|x l IH]; simpl; [by split|].
  rewrite bind_Ok, Forall_cons, <-IH.
  split; [intros ([] & ? & ?) | intros [? ?]; exists tt]; auto.
Qed.

(** A loop that collects the results. *)
Fixpoint collect {A B} (f : A -> result B) (l : list A) : result (list B) :=
  match l with
  | [] => Ok []
  | x :: l => y ← f x; ys ← collect f l; Ok (y :: ys)
  end.

Lemma collect_Ok {A B} (f : A -> result B) l ys :
  collect f l = Ok ys <-> Forall2 (fun x y => f x = Ok y) l ys.
Proof.
  revert ys. induction l as [|x l IH]; intros ys; simpl.
  - split; [intros [= <-]; constructor | by inversion 1].
  - rewrite bind_Ok. split.
    + intros (y & Hy & H). apply bind_Ok in H as (zs & Hz & [= <-]).
      constructor; [done | by apply IH].
    + intros (y & zs & Hy & Hz & ->)%Forall2_cons_inv_l. exists y. split; [done|].
      apply IH in Hz. by rewrite Hz.
Qed.

Lemma collect_elem {A B} (f : A -> result B) l ys x :
  collect f l = Ok ys -> x ∈ l -> exists y, y ∈ ys /\ f x = Ok y.
Proof.
  rewrite collect_Ok. intros H Hx. induction H as [|a b l ys Hab H IH]; [by apply elem_of_nil in Hx|].
  apply elem_of_cons in Hx as [->|Hx]; [exists b; split; [left|done]|].
  destruct (IH Hx) as (y & ? & ?). exists y. split; [by right|done].
Qed.

Lemma collect_elem_inv {A B} (f : A -> result B) l ys y :
  collect f l = Ok ys -> y ∈ ys -> exists x, x ∈ l /\ f x = Ok y.
Proof.
  rewrite collect_Ok. intros H Hy. induction H as [|a b l ys Hab H IH]; [by apply elem_of_nil in Hy|].
  apply elem_of_cons in Hy as [->|Hy]; [exists a; split; [left|done]|].
  destruct (IH Hy) as (x & ? & ?). exists x. split; [by right|done].
Qed.

Lemma existsb_none {A} (f : A -> bool) l x : existsb f l = false -> x ∈ l -> f x = false.
Proof.
  intros H Hx. destruct (f x) eqn:E; [|done].
  assert (existsb f l = true); [|congruence]. apply existsb_exists. exists x. by rewrite <-list_elem_of_In.
Qed.

(** A loop with an accumulator. *)
Fixpoint fold_res {A B} (f : B -> A -> result B) (acc : B) (l : list A) : result B :=
  match l with
  | [] => Ok acc
  | x :: l => acc ← f acc x; fold_res f acc l
  end.

Lemma fold_res_app {A B} (f : B -> A -> result B) acc l1 l2 :
  fold_res f acc (l1 ++ l2) = (acc ← fold_res f acc l1; fold_res f acc l2).
Proof.
  revert acc. induction l1 as [|x l1 IH]; intros acc; [done|]. simpl.
  destruct (f acc x); [apply IH|done].
Qed.

Lemma fold_res_Err {A B} (P : error -> Prop) (f : B -> A -> result B) l acc :
  (forall b a e, f b a = Err e -> P e) -> forall e, fold_res f acc l = Err e -> P e.
Proof.
  intros Hf e. revert acc. induction l as [|x l IH]; intros acc; simpl; [done|].
  intros [E|(? & _ & E)]%bind_Err; [by eapply Hf|by eapply IH].
Qed.

Lemma fold_res_ind {A B} (P : B -> Prop) (f : B -> A -> result B) l acc out :
  (forall a x a', P a -> x ∈ l -> f a x = Ok a' -> P a') -> P acc -> fold_res f acc l = Ok out -> P out.
Proof.
  revert acc. induction l as [|x l IH]; intros acc Hf Ha; simpl.
  - intros E. by apply Ok_inj in E as <-.
  - rewrite bind_Ok. intros (a & Hx & H). eapply IH; [|by eapply Hf, Hx; [|left]|done].
    intros a1 y a2 ? ?. apply Hf; [done|by right].
Qed.

(** Sums over lists. *)
Definition sumZ {A} (f : A -> Z) (l : list A) : Z := foldr (fun x n => f x + n) 0 l.

Lemma sumZ_app {A} (f : A -> Z) l1 l2 : sumZ f (l1 ++ l2) = sumZ f l1 + sumZ f l2.
Proof. induction l1 as [|x l1 IH]; simpl; lia. Qed.

Lemma sumZ_nonneg {A} (f : A -> Z) l : Forall (fun x => 0 <= f x) l -> 0 <= sumZ f l.
Proof. induction 1; simpl; lia. Qed.

Lemma sumZ_elem {A} (f : A -> Z) l x : Forall (fun x => 0 <= f x) l -> x ∈ l -> f x <= sumZ f l.
Proof.
  intros Hp Hx. induction Hp as [|y l Hy Hp IH]; [by apply elem_of_nil in Hx|].
  apply elem_of_cons in Hx as [->|Hx]; simpl; [apply sumZ_nonneg in Hp; lia|]. specialize (IH Hx). lia.
Qed.

#[global] Instance sumZ_perm {A} (f : A -> Z) : Proper (Permutation ==> eq) (sumZ f).
Proof. induction 1; simpl; lia. Qed.

(** The sum over a map after one entry is replaced. *)
Lemma sumZ_insert {A} (f : bytes * A -> Z) (m : gmap bytes A) k x y :
  m !! k = Some x ->
  sumZ f (map_to_list (<[k := y]> m)) = sumZ f (map_to_list m) - f (k, x) + f (k, y).
Proof.
  intros Hk. rewrite <-(insert_delete_id m k x Hk) at 2. rewrite <-insert_delete_eq.
  rewrite !map_to_list_insert by apply lookup_delete_eq. cbn. lia.
Qed.

(** A loop that adds a charge for each element. *)
Lemma fold_res_sum {A} (f : Z -> A -> result Z) (charge : A -> Z) l acc out :
  (forall t x t', f t x = Ok t' -> t' = t + charge x) ->
  fold_res f acc l = Ok out -> out = acc + sumZ charge l.
Proof.
  intros Hf. revert acc. induction l as [|x l IH]; intros acc; simpl.
  - intros E. apply Ok_inj in E. lia.
  - rewrite bind_Ok. intros (t & Ht & H). apply Hf in Ht. apply IH in H. lia.
Qed.

(** ** Length-prefixed fields: [appendCredentialField] (ledger.go) *)
Definition enc_field (f : bytes) : bytes := le32 (blen f) ++ f.

Definition appendCredentialField (dst field : bytes) : result bytes :=
  if max_uint32 <? blen field then Err (ErrMsg "policy field too large")
  else Ok (dst ++ le32 (blen field) ++ field).

(** The [for _, field := range fields] loops around it. *)
Definition appendCredentialFields (dst : bytes) (fields : list bytes) : result bytes :=
  fold_res appendCredentialField dst fields.

Definition field_ok (f : bytes) : Prop := blen f <= max_uint32.

Lemma blen_nonneg b : 0 <= blen b.
Proof. unfold blen. lia. Qed.

Lemma appendCredentialField_Ok dst f out :
  appendCredentialField dst f = Ok out <-> field_ok f /\ out = dst ++ enc_field f.
Proof.
  unfold appendCredentialField, field_ok, enc_field.
  destruct (Z.ltb_spec max_uint32 (blen f)); split; intros; destruct_and?; simplify_eq; auto; lia.
Qed.

Lemma appendCredentialFields_Ok dst fs out :
  appendCredentialFields dst fs = Ok out <->
  Forall field_ok fs /\ out = dst ++ concat (map enc_field fs).
Proof.
  unfold appendCredentialFields. revert dst.
  induction fs as [|f fs IH]; intros dst; simpl.
  - rewrite app_nil_r. split; [intros [= ->] | intros [_ ->]]; auto.
  - rewrite bind_Ok, Forall_cons. split.
    + intros (d & Hd & H). apply appendCredentialField_Ok in Hd as [? ->].
      apply IH in H as [? ->]. by rewrite <-app_assoc.
    + intros [[Hf Hfs] ->]. exists (dst ++ enc_field f).
      rewrite appendCredentialField_Ok. split; [auto|].
      apply IH. by rewrite <-app_assoc.
Qed.

Lemma enc_field_app_inv f g r s :
  field_ok f -> field_ok g -> enc_field f ++ r = enc_field g ++ s -> f = g /\ r = s.
Proof.
  unfold enc_field, field_ok. intros ?? E. rewrite <-!app_assoc in E.
  pose proof (blen_nonneg f). pose proof (blen_nonneg g).
  apply le32_app_inv in E as [L E]; [|unfold is_uint32; lia..].
  apply app_inv_length in E; [done|]. unfold blen in L. lia.
Qed.

(** Sequences of length-prefixed fields decode uniquely. *)
Lemma enc_fields_app_inv fs gs r s :
  length fs = length gs -> Forall field_ok fs -> Forall field_ok gs ->
  concat (map enc_field fs) ++ r = concat (map enc_field gs) ++ s -> fs = gs /\ r = s.
Proof.
  revert gs. induction fs as [|f fs IH]; intros [|g gs] L Hf Hg E; try discriminate; [done|].
  apply Forall_cons in Hf as [? ?]. apply Forall_cons in Hg as [? ?].
  simpl in E. rewrite <-!app_assoc in E.
  apply enc_field_app_inv in E as [-> E]; [|done..].
  apply IH in E as [-> ->]; auto.
Qed.

Lemma enc_fields_inj fs gs :
  length fs = length gs -> Forall field_ok fs -> Forall field_ok gs ->
  concat (map enc_field fs) = concat (map enc_field gs) -> fs = gs.
Proof.
  intros L Hf Hg E. eapply (enc_fields_app_inv fs gs [] []); [done..|]. by rewrite E.
Qed.

(** ** Proof automation *)

Lemma orb_false_split a b : a || b = false <-> a = false /\ b = false.
Proof. destruct a, b; naive_solver. Qed.
Lemma andb_true_split a b : a && b = true <-> a = true /\ b = true.
Proof. destruct a, b; naive_solver. Qed.

(** [inv_ok] opens every successful monadic computation among the
    hypotheses: binds, guards and wrapped errors. *)
Ltac inv_ok1 :=
  match goal with
  | H : (_ ≫= _) = Ok _ |- _ =>
      let a := fresh "r" in let E := fresh "E" in
      apply bind_Ok in H as (a & E & H); lazymatch type of a with unit => destruct a | _ => idtac end
  | H : fail_if _ _ = Ok _ |- _ => apply fail_if_Ok in H
  | H : wrap_err _ _ = Ok _ |- _ => apply wrap_err_Ok in H
  | H : or_err _ _ = Ok _ |- _ => apply or_err_Ok in H
  | H : Ok _ = Ok _ |- _ => apply Ok_inj in H; subst
  | H : Err _ = Ok _ |- _ => discriminate H
  | H : Ok _ = Err _ |- _ => discriminate H
  | H : mret _ = Ok _ |- _ => unfold mret, result_ret in H
  end.
Ltac inv_ok := repeat inv_ok1.

(** [bool_hyps] turns the boolean conditions of the code into propositions. *)
Ltac bool_hyps1 :=
  match goal with
  | H : _ || _ = false |- _ => apply orb_false_split in H as [? ?]
  | H : _ && _ = true |- _ => apply andb_true_split in H as [? ?]
  | H : negb _ = false |- _ => apply negb_false_iff in H
  | H : negb _ = true |- _ => apply negb_true_iff in H
  | H : (_ <? _) = false |- _ => apply Z.ltb_ge in H
  | H : (_ <? _) = true |- _ => apply Z.ltb_lt in H
  | H : (_ <=? _) = false |- _ => apply Z.leb_gt in H
  | H : (_ <=? _) = true |- _ => apply Z.leb_le in H
  | H : (_ =? _) = false |- _ => apply Z.eqb_neq in H
  | H : (_ =? _) = true |- _ => apply Z.eqb_eq in H
  | H : bool_decide _ = true |- _ => apply bool_decide_eq_true_1 in H
  | H : bool_decide _ = false |- _ => apply bool_decide_eq_false_1 in H
  end.
Ltac bool_hyps := repeat bool_hyps1.

(** ** [sort.SliceStable] *)
Section StableSort.
Context {A : Type} (less : A -> A -> bool).

Fixpoint insert_stable (x : A) (l : list A) : list A :=
  match l with
  | [] => [x]
  | y :: l => if less y x then y :: insert_stable x l else x :: y :: l
  end.

Definition slice_stable (l : list A) : list A := foldr insert_stable [] l.

Lemma insert_stable_perm x l : insert_stable x l ≡ₚ x :: l.
Proof.
  induction l as [|y l IH]; simpl; [done|]. destruct (less y x); [|done].
  rewrite IH. apply Permutation_swap.
Qed.

Lemma slice_stable_perm l : slice_stable l ≡ₚ l.
Proof. induction l as [|x l IH]; simpl; [done|]. by rewrite insert_stable_perm, IH. Qed.

(** An element that nothing is after stays last. *)
Lemma slice_stable_snoc l x :
  Forall (fun y => less x y = false) l -> slice_stable (l ++ [x]) = slice_stable l ++ [x].
Proof.
  induction 1 as [|y l Hy Hl IH]; [done|]. cbn [app slice_stable foldr]. unfold slice_stable in IH. rewrite IH. clear IH.
  induction (foldr insert_stable [] l) as [|z l' IHl]; simpl; [by rewrite Hy|].
  destruct (less z y); simpl; [by rewrite IHl|done].
Qed.

(** The order of the output: no later element is less than an earlier one. *)
Definition not_after (x y : A) : Prop := less y x = false.

Hypothesis less_asym : forall x y, less x y = true -> less y x = false.
Hypothesis not_after_trans : forall x y z, not_after x y -> not_after y z -> not_after x z.

Lemma slice_stable_sorted l : StronglySorted not_after (slice_stable l).
Proof.
  induction l as [|x l IH]; simpl; [constructor|].
  induction IH as [|y l' Hs IHl Hy]; simpl; [repeat constructor|].
  destruct (less y x) eqn:E.
  - constructor; [done|]. rewrite insert_stable_perm. constructor; [|done].
    by apply less_asym.
  - constructor; [by constructor|]. constructor; [done|].
    eapply Forall_impl; [exact Hy|]. intros z Hz. by apply (not_after_trans _ y).
Qed.
End StableSort.

(** ** Lemmas on keyed rows *)
Section Keyed.
Context {A : Type} (key : A -> bytes).

Lemma find_snoc_new k x rows :
  List.find (fun r => key r == k) rows = None -> key x = k -> List.find (fun r => key r == k) (rows ++ [x]) = Some x.
Proof.
  intros H Hk. induction rows as [|r rows IH]; cbn in *.
  - by rewrite bool_decide_eq_true_2.
  - destruct (bool_decide _); [done|auto].
Qed.

Lemma find_snoc_other k x rows :
  key x <> k -> List.find (fun r => key r == k) (rows ++ [x]) = List.find (fun r => key r == k) rows.
Proof.
  intros Hk. induction rows as [|r rows IH]; cbn; [by rewrite bool_decide_eq_false_2|]. by rewrite IH.
Qed.

Lemma find_update k k' x rows :
  key x = k' ->
  List.find (fun r => key r == k) (map (fun r => if key r == k' then x else r) rows)
  = if bool_decide (k = k') && existsb (fun r => key r == k') rows then Some x
    else List.find (fun r => key r == k) rows.
Proof.
  intros Hk. induction rows as [|r rows IH]; cbn; [by rewrite andb_false_r|].
  destruct (bool_decide_reflect (key r = k')) as [E|E].
  - cbn [orb]. rewrite andb_true_r. rewrite Hk. destruct (bool_decide_reflect (k = k')) as [->|Hne].
    + by rewrite bool_decide_eq_true_2.
    + rewrite bool_decide_eq_false_2 by congruence. rewrite IH, E, bool_decide_eq_false_2 by congruence. done.
  - cbn [orb]. destruct (bool_decide_reflect (key r = k)) as [Er|Er].
    + destruct (bool_decide_reflect (k = k')); [congruence|done].
    + exact IH.
Qed.

Lemma existsb_find_none k rows :
  existsb (fun r => key r == k) rows = false -> List.find (fun r => key r == k) rows = None.
Proof.
  induction rows as [|r rows IH]; cbn; [done|]. destruct (bool_decide _); [done|auto].
Qed.

Lemma find_existsb k x rows :
  List.find (fun r => key r == k) rows = Some x -> existsb (fun r => key r == k) rows = true.
Proof.
  induction rows as [|r rows IH]; cbn; [done|]. destruct (bool_decide _); [done|auto].
Qed.
(** [INSERT ... ON CONFLICT DO UPDATE] *)
Lemma find_upsert_key row rows k :
  List.find (fun r => key r == k)
    (if existsb (fun r => key r == key row) rows then map (fun r => if key r == key row then row else r) rows
     else rows ++ [row])
  = if bool_decide (k = key row) then Some row else List.find (fun r => key r == k) rows.
Proof.
  destruct (existsb _ rows) eqn:Ex.
  - rewrite find_update by done. by rewrite Ex, andb_true_r.
  - destruct (bool_decide_reflect (k = key row)) as [->|Hne].
    + apply find_snoc_new; [|done]. by apply existsb_find_none.
    + by apply find_snoc_other.
Qed.
End Keyed.

Create HintDb guardian.
#[export] Hint Resolve u8_range blen_nonneg le_bytes_length be_bytes_length : guardian.
