(* ===== verification/Sha256.v ===== *)
(** * SHA-256 and HMAC-SHA-256

    The parts of Go's [crypto/sha256] and [crypto/hmac] the ledger calls:
    [sha256.Sum256] and [hmac.New(sha256.New, key)]/[Write]/[Sum].  Both are
    executable, so every MAC and digest of the development is the one the
    service computes; the published FIPS 180-4 and RFC 4231 vectors check the
    definitions.  The tagged hash of [internal/policy/vtxo.go] is built on
    them. *)
From Stdlib Require Import Strings.Byte.
From S2P Require Import Prelude.

(** ** 32-bit words *)
Definition w32 (z : Z) : Z := Z.land z 4294967295.
Definition rotr (n x : Z) : Z := Z.lor (Z.shiftr x n) (w32 (Z.shiftl x (32 - n))).

Definition sha_ch (x y z : Z) : Z := Z.lxor (Z.land x y) (Z.land (Z.lxor x 4294967295) z).
Definition sha_maj (x y z : Z) : Z :=
  Z.lxor (Z.lxor (Z.land x y) (Z.land x z)) (Z.land y z).
Definition sha_S0 (x : Z) : Z := Z.lxor (Z.lxor (rotr 2 x) (rotr 13 x)) (rotr 22 x).
Definition sha_S1 (x : Z) : Z := Z.lxor (Z.lxor (rotr 6 x) (rotr 11 x)) (rotr 25 x).
Definition sha_s0 (x : Z) : Z := Z.lxor (Z.lxor (rotr 7 x) (rotr 18 x)) (Z.shiftr x 3).
Definition sha_s1 (x : Z) : Z := Z.lxor (Z.lxor (rotr 17 x) (rotr 19 x)) (Z.shiftr x 10).

(** ** Constants

    The initial state and the round constants are the first 32 fractional
    bits of the square and cube roots of the first primes; they are computed
    once, when the definition is made. *)
Definition primes64 : list Z :=
  [2; 3; 5; 7; 11; 13; 17; 19; 23; 29; 31; 37; 41; 43; 47; 53; 59; 61; 67; 71; 73; 79; 83;
   89; 97; 101; 103; 107; 109; 113; 127; 131; 137; 139; 149; 151; 157; 163; 167; 173; 179;
   181; 191; 193; 197; 199; 211; 223; 227; 229; 233; 239; 241; 251; 257; 263; 269; 271; 277;
   281; 283; 293; 307; 311].

(** Integer cube root by bisection: the largest [r] in [lo, lo + 2^n) with
    [r^3 <= x]. *)
Fixpoint cbrt_bits (n : nat) (lo x : Z) : Z :=
  match n with
  | O => lo
  | S n => let mid := lo + 2 ^ Z.of_nat n in
           if mid * mid * mid <=? x then cbrt_bits n mid x else cbrt_bits n lo x
  end.

Definition sha_K : list Z :=
  Eval vm_compute in map (fun p => w32 (cbrt_bits 36 0 (p * 2 ^ 96))) primes64.
Definition sha_H0 : list Z :=
  Eval vm_compute in map (fun p => w32 (Z.sqrt (p * 2 ^ 64))) (take 8 primes64).

(** ** Compression *)
Fixpoint be_words (b : bytes) : list Z :=
  match b with
  | a :: b :: c :: d :: r =>
      (u8 a * 16777216 + u8 b * 65536 + u8 c * 256 + u8 d) :: be_words r
  | _ => []
  end.

(** The message schedule, from a sliding window of the last 16 words. *)
Fixpoint schedule (n : nat) (w : list Z) : list Z :=
  match n, w with
  | S n, w0 :: rest =>
      let next := w32 (sha_s1 (nth 14 w 0) + nth 9 w 0 + sha_s0 (nth 1 w 0) + w0) in
      w0 :: schedule n (rest ++ [next])
  | _, _ => []
  end.

Fixpoint rounds (ks ws : list Z) (a b c d e f g h : Z) : list Z :=
  match ks, ws with
  | k :: ks, w :: ws =>
      let t1 := w32 (h + sha_S1 e + sha_ch e f g + k + w) in
      let t2 := w32 (sha_S0 a + sha_maj a b c) in
      rounds ks ws (w32 (t1 + t2)) a b c (w32 (d + t1)) e f g
  | _, _ => [a; b; c; d; e; f; g; h]
  end.

Definition compress (st : list Z) (block : bytes) : list Z :=
  match st with
  | [a; b; c; d; e; f; g; h] =>
      zip_with (fun x y => w32 (x + y)) st
        (rounds sha_K (schedule 64 (be_words block)) a b c d e f g h)
  | _ => st
  end.

Fixpoint sha_blocks (n : nat) (st : list Z) (m : bytes) : list Z :=
  match n with
  | O => st
  | S n => sha_blocks n (compress st (take 64 m)) (drop 64 m)
  end.

Definition sha_pad (m : bytes) : bytes :=
  m ++ [Byte.x80] ++ replicate (Z.to_nat ((55 - blen m) mod 64)) Byte.x00
    ++ be64 (8 * blen m).

(** [sha256.Sum256] *)
Definition sha256 (m : bytes) : bytes :=
  let p := sha_pad m in
  concat (map be32 (sha_blocks (length p / 64) sha_H0 p)).

Definition sha256_Size : Z := 32.

(** ** HMAC *)
Definition xor_pad (c : Z) (k : bytes) : bytes :=
  map (fun b => byte_of_Z (Z.lxor c (u8 b))) k.

Definition hmac_key (key : bytes) : bytes :=
  let k := if blen key <=? 64 then key else sha256 key in
  k ++ replicate (64 - length k)%nat Byte.x00.

Definition hmac_sha256 (key msg : bytes) : bytes :=
  let k := hmac_key key in
  sha256 (xor_pad 0x5c k ++ sha256 (xor_pad 0x36 k ++ msg)).

(** [hmac.Equal] / [subtle.ConstantTimeCompare]: equality of byte strings. *)
Definition hmac_Equal (a b : bytes) : bool := bool_decide (a = b).

(** ** [taggedSHA256] of [internal/policy/vtxo.go] *)
Definition taggedSHA256 (tag : string) (msg : bytes) : bytes :=
  let th := sha256 (str tag) in
  sha256 (th ++ th ++ msg).

(** ** Published vectors *)
Example sha256_abc :
  map u8 (sha256 (str "abc")) =
  [186; 120; 22; 191; 143; 1; 207; 234; 65; 65; 64; 222; 93; 174; 34; 35;
   176; 3; 97; 163; 150; 23; 122; 156; 180; 16; 255; 97; 242; 0; 21; 173].
Proof. vm_compute. reflexivity. Qed.

Example sha256_two_blocks :
  map u8 (sha256 (str "abcdbcdecdefdefgefghfghighijhijkijkljklmklmnlmnomnopnopq")) =
  [36; 141; 106; 97; 210; 6; 56; 184; 229; 192; 38; 147; 12; 62; 96; 57;
   163; 60; 228; 89; 100; 255; 33; 103; 246; 236; 237; 212; 25; 219; 6; 193].
Proof. vm_compute. reflexivity. Qed.

Example hmac_rfc4231_1 :
  map u8 (hmac_sha256 (replicate 20 Byte.x0b) (str "Hi There")) =
  [176; 52; 76; 97; 216; 219; 56; 83; 92; 168; 175; 206; 175; 11; 241; 43;
   136; 29; 194; 0; 201; 131; 61; 167; 38; 233; 55; 108; 46; 50; 207; 247].
Proof. vm_compute. reflexivity. Qed.

(** ** Output length *)
Lemma rounds_length ks ws a b c d e f g h :
  length (rounds ks ws a b c d e f g h) = 8%nat.
Proof. revert ws a b c d e f g h. induction ks; intros [|]; intros; simpl; auto. Qed.

Lemma compress_length st block : length (compress st block) = length st.
Proof.
  unfold compress. do 9 (destruct st as [|? st]; try done).
  rewrite length_zip_with, rounds_length. done.
Qed.

Lemma sha_blocks_length n st m : length (sha_blocks n st m) = length st.
Proof. revert st m. induction n as [|n IH]; intros; simpl; [done|]. by rewrite IH, compress_length. Qed.

Lemma concat_be32_length ws : length (concat (map be32 ws)) = (4 * length ws)%nat.
Proof.
  induction ws as [|w ws IH]; [done|].
  rewrite map_cons, concat_cons, length_app, IH, length_cons. unfold be32.
  rewrite be_bytes_length. lia.
Qed.

Lemma sha256_length m : length (sha256 m) = 32%nat.
Proof. unfold sha256. by rewrite concat_be32_length, sha_blocks_length. Qed.

Lemma hmac_sha256_length key m : length (hmac_sha256 key m) = 32%nat.
Proof. apply sha256_length. Qed.

Lemma blen_hmac key m : blen (hmac_sha256 key m) = 32.
Proof. unfold blen. by rewrite hmac_sha256_length. Qed.

Lemma blen_taggedSHA256 tag m : blen (taggedSHA256 tag m) = 32.
Proof. unfold blen, taggedSHA256. by rewrite sha256_length. Qed.

Arguments sha256 : simpl never.
Arguments hmac_sha256 : simpl never.
Arguments taggedSHA256 : simpl never.

(** ** Collisions

    No theorem of the development assumes that SHA-256 is collision-free.
    Authentication theorems are stated by reduction: whatever would break
    them exhibits one of these concrete collisions. *)
Definition hmac_collision (key a b : bytes) : Prop :=
  a <> b /\ hmac_sha256 key a = hmac_sha256 key b.

Definition tagged_collision (tag : string) (a b : bytes) : Prop :=
  a <> b /\ taggedSHA256 tag a = taggedSHA256 tag b.

Lemma tagged_eq_cases tag a b :
  taggedSHA256 tag a = taggedSHA256 tag b -> a = b \/ tagged_collision tag a b.
Proof. intros E. destruct (decide (a = b)); [by left|right]. by split. Qed.

Lemma hmac_eq_cases key a b :
  hmac_sha256 key a = hmac_sha256 key b -> a = b \/ hmac_collision key a b.
Proof. intros E. destruct (decide (a = b)); [by left|right]. by split. Qed.

#[export] Hint Resolve sha256_length hmac_sha256_length blen_hmac blen_taggedSHA256 : guardian.
