(* ===== verification/Text.v ===== *)
(** * Text encodings of the Go standard library

    [encoding/hex], the decimal conversions of [strconv] and [fmt], the
    ASCII part of [strings], and the lower-case hexadecimal digit test
    [unhex] of [internal/policy/monotonic.go], with the round trips the ledger
    relies on. *)
From Stdlib Require Import Strings.Byte.
From S2P Require Import Prelude.

(** ** Hexadecimal *)
Definition hex_digit (n : Z) : byte :=
  if n <? 10 then byte_of_Z (48 + n) else byte_of_Z (87 + n).

(** [hex.EncodeToString] *)
Fixpoint hex_encode (b : bytes) : bytes :=
  match b with
  | [] => []
  | x :: b => hex_digit (u8 x / 16) :: hex_digit (u8 x mod 16) :: hex_encode b
  end.

(** The reverse table of [encoding/hex]: both cases are accepted. *)
Definition from_hex_char (c : byte) : option Z :=
  let n := u8 c in
  if (48 <=? n) && (n <=? 57) then Some (n - 48)
  else if (97 <=? n) && (n <=? 102) then Some (n - 87)
  else if (65 <=? n) && (n <=? 70) then Some (n - 55)
  else None.

(** [hex.DecodeString] *)
Fixpoint hex_decode (s : bytes) : option bytes :=
  match s with
  | [] => Some []
  | [_] => None
  | a :: b :: s =>
      match from_hex_char a, from_hex_char b, hex_decode s with
      | Some h, Some l, Some r => Some (byte_of_Z (h * 16 + l) :: r)
      | _, _, _ => None
      end
  end.

(** [strings.ToLower] on the ASCII range; other bytes are left alone, which
    no caller can observe: each one goes on to reject non-hexadecimal input. *)
Definition to_lower_byte (c : byte) : byte :=
  if (65 <=? u8 c) && (u8 c <=? 90) then byte_of_Z (u8 c + 32) else c.
Definition to_lower (s : bytes) : bytes := map to_lower_byte s.

(** [canonicalRenewalHex] (spending_renewal.go): lower-case hexadecimal of
    exactly [n] bytes. *)
Definition canonicalRenewalHex (value : bytes) (n : Z) : bool :=
  match hex_decode value with
  | Some raw => (blen raw =? n) && bool_decide (hex_encode raw = value)
  | None => false
  end.

(** [unhex] (monotonic.go): lower case only, [-1] otherwise. *)
Definition unhex (c : byte) : Z :=
  let n := u8 c in
  if (48 <=? n) && (n <=? 57) then n - 48
  else if (97 <=? n) && (n <=? 102) then n - 97 + 10
  else -1.

Lemma u8_hex_digit n :
  0 <= n < 16 -> u8 (hex_digit n) = if n <? 10 then 48 + n else 87 + n.
Proof.
  intros. unfold hex_digit. destruct (Z.ltb_spec n 10);
    rewrite u8_byte_of_Z, Z.mod_small; lia.
Qed.

Lemma from_hex_digit n : 0 <= n < 16 -> from_hex_char (hex_digit n) = Some n.
Proof.
  intros. unfold from_hex_char. rewrite u8_hex_digit by done.
  destruct (Z.ltb_spec n 10);
    repeat (case_match; bool_hyps; try lia; try (f_equal; lia)).
Qed.

Lemma unhex_hex_digit n : 0 <= n < 16 -> unhex (hex_digit n) = n.
Proof.
  intros. unfold unhex. rewrite u8_hex_digit by done.
  destruct (Z.ltb_spec n 10); repeat (case_match; bool_hyps; try lia).
Qed.

Lemma hex_pair_value x : byte_of_Z (u8 x / 16 * 16 + u8 x mod 16) = x.
Proof.
  rewrite (Z.mul_comm (u8 x / 16)), <-Z.div_mod by lia. apply byte_of_Z_u8.
Qed.

Lemma u8_nibbles x : 0 <= u8 x / 16 < 16 /\ 0 <= u8 x mod 16 < 16.
Proof. pose proof (u8_range x). Z.div_mod_to_equations. lia. Qed.

Lemma hex_decode_encode b : hex_decode (hex_encode b) = Some b.
Proof.
  induction b as [|x b IH]; [done|]. cbn [hex_encode hex_decode].
  destruct (u8_nibbles x).
  rewrite !from_hex_digit, IH by done. by rewrite hex_pair_value.
Qed.

#[global] Instance hex_encode_inj : Inj (=) (=) hex_encode.
Proof.
  intros a b E. apply (f_equal hex_decode) in E.
  rewrite !hex_decode_encode in E. by injection E.
Qed.

Lemma hex_digit_from_lower c n :
  from_hex_char c = Some n -> to_lower_byte c = c -> hex_digit n = c /\ 0 <= n < 16.
Proof.
  destruct c; intros H E; vm_compute in H; try discriminate H; vm_compute in E;
    try discriminate E; injection H as <-; (split; [reflexivity|lia]).
Qed.

(** Lower-case hexadecimal text is the encoding of what it decodes to. *)
Lemma hex_decode_lower s raw : hex_decode s = Some raw -> to_lower s = s -> hex_encode raw = s.
Proof.
  revert raw. induction s as [s IH] using (induction_ltof1 _ (@length byte)). unfold ltof in IH.
  destruct s as [|a [|b s]]; intros raw; cbn [hex_decode]; [by intros [= <-]|done|].
  destruct (from_hex_char a) as [h|] eqn:Ea; [|done].
  destruct (from_hex_char b) as [l|] eqn:Eb; [|done].
  destruct (hex_decode s) as [r|] eqn:Es; [|done]. intros [= <-] [= La Lb Ls].
  destruct (hex_digit_from_lower _ _ Ea La) as [Da ?], (hex_digit_from_lower _ _ Eb Lb) as [Db ?].
  cbn [hex_encode]. rewrite u8_byte_of_Z, Z.mod_small by lia.
  rewrite Z.div_add_l, Z.div_small, Z.add_0_r, Da by lia.
  rewrite Z.add_comm, Z.mod_add, Z.mod_small, Db by lia.
  f_equal. f_equal. apply IH; [simpl; lia|done|done].
Qed.

Lemma hex_encode_length b : length (hex_encode b) = (2 * length b)%nat.
Proof. induction b as [|x b IH]; simpl; [done|]. lia. Qed.

(** The canonical hexadecimal test accepts exactly the encodings. *)
Lemma canonicalRenewalHex_spec v n :
  canonicalRenewalHex v n = true <-> exists raw, blen raw = n /\ v = hex_encode raw.
Proof.
  unfold canonicalRenewalHex. split.
  - destruct (hex_decode v) as [raw|]; [|done]. intros. bool_hyps. eauto.
  - intros (raw & <- & ->). rewrite hex_decode_encode, Z.eqb_refl.
    by rewrite bool_decide_eq_true_2.
Qed.

(** ** Decimal *)
Definition dec_digit (n : Z) : byte := byte_of_Z (48 + n).

(** Decimal digits of a non-negative integer, most significant first.  The
    fuel of 20 digits covers every [uint64]. *)
Fixpoint dec_digits (fuel : nat) (z : Z) (acc : bytes) : bytes :=
  match fuel with
  | O => acc
  | S fuel => if z <? 10 then dec_digit z :: acc
              else dec_digits fuel (z / 10) (dec_digit (z mod 10) :: acc)
  end.

(** [strconv.FormatUint(z, 10)], the [%d] of an unsigned integer. *)
Definition format_uint (z : Z) : bytes := dec_digits 20 z [].

(** [strconv.FormatInt(z, 10)] *)
Definition format_int (z : Z) : bytes :=
  if z <? 0 then str "-" ++ format_uint (- z) else format_uint z.

Definition is_digit (c : byte) : bool := (48 <=? u8 c) && (u8 c <=? 57).

(** The value of a digit string, with an accumulator. *)
Fixpoint dec_value (s : bytes) (acc : Z) : option Z :=
  match s with
  | [] => Some acc
  | c :: s => if is_digit c then dec_value s (10 * acc + (u8 c - 48)) else None
  end.

(** [strconv.ParseUint(s, 10, 64)]: digits only, at least one, in range. *)
Definition parse_uint (s : bytes) : option Z :=
  match s with
  | [] => None
  | _ => match dec_value s 0 with
         | Some z => if z <=? max_uint64 then Some z else None
         | None => None
         end
  end.

(** The longest prefix of digits, and the rest. *)
Fixpoint digit_run (s : bytes) : bytes * bytes :=
  match s with
  | c :: r => if is_digit c then let '(a, b) := digit_run r in (c :: a, b) else ([], s)
  | [] => ([], [])
  end.

Lemma u8_dec_digit n : 0 <= n < 10 -> u8 (dec_digit n) = 48 + n.
Proof. intros. unfold dec_digit. rewrite u8_byte_of_Z, Z.mod_small; lia. Qed.

Lemma is_digit_dec_digit n : 0 <= n < 10 -> is_digit (dec_digit n) = true.
Proof. intros. unfold is_digit. rewrite u8_dec_digit by done. lia. Qed.

Lemma dec_value_app a b acc :
  dec_value (a ++ b) acc = (dec_value a acc ≫= dec_value b).
Proof. revert acc. induction a as [|c a IH]; intros acc; simpl; [done|]. by case_match. Qed.

Lemma dec_digits_acc fuel z acc : dec_digits fuel z acc = dec_digits fuel z [] ++ acc.
Proof.
  revert z acc. induction fuel as [|fuel IH]; intros z acc; simpl; [done|].
  case_match; [done|]. rewrite IH, (IH _ [_]), <-app_assoc. done.
Qed.

Lemma dec_digits_value fuel z :
  0 <= z < 10 ^ Z.of_nat fuel -> dec_value (dec_digits fuel z []) 0 = Some z.
Proof.
  revert z. induction fuel as [|fuel IH]; intros z Hz; simpl.
  { simpl in Hz. f_equal. lia. }
  rewrite Nat2Z.inj_succ, Z.pow_succ_r in Hz by lia.
  destruct (Z.ltb_spec z 10); simpl.
  - rewrite is_digit_dec_digit, u8_dec_digit by lia. f_equal. lia.
  - rewrite dec_digits_acc, dec_value_app, IH by (Z.div_mod_to_equations; lia). simpl.
    rewrite is_digit_dec_digit, u8_dec_digit by (Z.div_mod_to_equations; lia).
    f_equal. Z.div_mod_to_equations; lia.
Qed.

Lemma dec_digits_nonempty fuel z acc : (0 < fuel)%nat -> dec_digits fuel z acc <> [].
Proof.
  revert z acc. induction fuel as [|fuel IH]; intros z acc Hf; [lia|]. simpl.
  case_match; [done|]. destruct fuel; [done|]. apply IH. lia.
Qed.

Lemma parse_format_uint z : is_uint64 z -> parse_uint (format_uint z) = Some z.
Proof.
  unfold is_uint64, max_uint64, parse_uint, format_uint. intros Hz.
  pose proof (dec_digits_nonempty 20 z [] ltac:(lia)).
  rewrite dec_digits_value by (change (10 ^ Z.of_nat 20) with 100000000000000000000; lia).
  destruct (dec_digits 20 z []); [done|]. unfold max_uint64. case_match; [done|bool_hyps; lia].
Qed.

Lemma format_uint_inj a b :
  is_uint64 a -> is_uint64 b -> format_uint a = format_uint b -> a = b.
Proof.
  intros Ha Hb E. apply (f_equal parse_uint) in E.
  rewrite !parse_format_uint in E by done. by injection E.
Qed.

Lemma dec_digits_all_digits fuel z acc :
  0 <= z -> forallb is_digit acc = true -> forallb is_digit (dec_digits fuel z acc) = true.
Proof.
  revert z acc. induction fuel as [|fuel IH]; intros z acc Hz Hacc; simpl; [done|].
  destruct (Z.ltb_spec z 10); simpl.
  - by rewrite is_digit_dec_digit, Hacc by lia.
  - apply IH; [Z.div_mod_to_equations; lia|]. simpl.
    rewrite is_digit_dec_digit, Hacc by (Z.div_mod_to_equations; lia). done.
Qed.

Lemma digit_run_app a s :
  forallb is_digit a = true -> match s with c :: _ => is_digit c = false | [] => True end ->
  digit_run (a ++ s) = (a, s).
Proof.
  induction a as [|c a IH]; simpl.
  - intros _. destruct s as [|c s]; simpl; [done|]. by intros ->.
  - intros [-> Ha]%andb_true_split Hs. by rewrite IH.
Qed.

(** Only zero prints with a leading zero. *)
Lemma dec_digits_head fuel z :
  0 < z < 10 ^ Z.of_nat fuel ->
  exists c r, dec_digits fuel z [] = c :: r /\ 49 <= u8 c <= 57.
Proof.
  revert z. induction fuel as [|fuel IH]; intros z Hz; [simpl in Hz; lia|].
  rewrite Nat2Z.inj_succ, Z.pow_succ_r in Hz by lia. simpl.
  destruct (Z.ltb_spec z 10).
  - exists (dec_digit z), []. rewrite u8_dec_digit by lia. split; [done|lia].
  - destruct (IH (z / 10)) as (c & r & E & Hc); [Z.div_mod_to_equations; lia|].
    rewrite dec_digits_acc, E. eauto.
Qed.

Lemma format_uint_digits z : 0 <= z -> forallb is_digit (format_uint z) = true.
Proof. intros. by apply dec_digits_all_digits. Qed.

(** ** Prefixes and splitting *)

(** [strings.HasPrefix] *)
Fixpoint has_prefix (s p : bytes) {struct p} : bool :=
  match p, s with
  | [], _ => true
  | x :: p, y :: s => bool_decide (x = y) && has_prefix s p
  | _ :: _, [] => false
  end.

(** [strings.TrimPrefix] *)
Definition trim_prefix (s p : bytes) : bytes :=
  if has_prefix s p then drop (length p) s else s.

(** [strings.Split(s, sep)] for a one-byte separator. *)
Fixpoint split_on (sep : byte) (s : bytes) : list bytes :=
  match s with
  | [] => [[]]
  | c :: s =>
      if bool_decide (c = sep) then [] :: split_on sep s
      else match split_on sep s with
           | l :: ls => (c :: l) :: ls
           | [] => [[c]]
           end
  end.

Lemma has_prefix_spec s p : has_prefix s p = true <-> exists r, s = p ++ r.
Proof.
  revert s. induction p as [|x p IH]; intros s; simpl.
  { split; [eauto|]. intros _. by destruct s. }
  destruct s as [|y s]; simpl.
  { split; [done|]. by intros [? ?]. }
  rewrite andb_true_split, bool_decide_eq_true, IH. split.
  - intros [-> [r ->]]. by exists r.
  - intros [r [= -> ->]]. eauto.
Qed.

Lemma has_prefix_app p r : has_prefix (p ++ r) p = true.
Proof. apply has_prefix_spec. eauto. Qed.

Lemma trim_prefix_app p r : trim_prefix (p ++ r) p = r.
Proof. unfold trim_prefix. by rewrite has_prefix_app, drop_app_length. Qed.

Lemma split_on_app sep a b :
  sep ∉ a -> split_on sep (a ++ sep :: b) = a :: split_on sep b.
Proof.
  induction a as [|x a IH]; intros Hn; simpl.
  - by rewrite bool_decide_eq_true_2.
  - rewrite not_elem_of_cons in Hn. destruct Hn as [Hx Ha].
    rewrite bool_decide_eq_false_2 by done. by rewrite IH.
Qed.

(** [strings.HasSuffix] *)
Definition has_suffix (s p : bytes) : bool := has_prefix (rev s) (rev p).

(** The UTF-8 encodings of the runes [unicode.IsSpace] accepts. *)
Definition space_runes : list bytes :=
  [[Byte.x09]; [Byte.x0a]; [Byte.x0b]; [Byte.x0c]; [Byte.x0d]; [Byte.x20];
   [Byte.xc2; Byte.x85]; [Byte.xc2; Byte.xa0]; [Byte.xe1; Byte.x9a; Byte.x80];
   [Byte.xe2; Byte.x80; Byte.x80]; [Byte.xe2; Byte.x80; Byte.x81]; [Byte.xe2; Byte.x80; Byte.x82];
   [Byte.xe2; Byte.x80; Byte.x83]; [Byte.xe2; Byte.x80; Byte.x84]; [Byte.xe2; Byte.x80; Byte.x85];
   [Byte.xe2; Byte.x80; Byte.x86]; [Byte.xe2; Byte.x80; Byte.x87]; [Byte.xe2; Byte.x80; Byte.x88];
   [Byte.xe2; Byte.x80; Byte.x89]; [Byte.xe2; Byte.x80; Byte.x8a]; [Byte.xe2; Byte.x80; Byte.xa8];
   [Byte.xe2; Byte.x80; Byte.xa9]; [Byte.xe2; Byte.x80; Byte.xaf]; [Byte.xe2; Byte.x81; Byte.x9f];
   [Byte.xe3; Byte.x80; Byte.x80]].

(** [strings.TrimSpace(s) == s] on valid UTF-8: no space rune at either end. *)
Definition space_trimmed (s : bytes) : bool :=
  negb (existsb (has_prefix s) space_runes) && negb (existsb (has_suffix s) space_runes).

(** [strings.TrimSpace]: space runes are cut from both ends; each cut shortens
    the text, so its length bounds the recursion. *)
Fixpoint trim_left (fuel : nat) (s : bytes) : bytes :=
  match fuel with
  | O => s
  | S fuel => match List.find (has_prefix s) space_runes with
              | Some r => trim_left fuel (drop (length r) s)
              | None => s
              end
  end.

Fixpoint trim_right (fuel : nat) (s : bytes) : bytes :=
  match fuel with
  | O => s
  | S fuel => match List.find (has_suffix s) space_runes with
              | Some r => trim_right fuel (take (length s - length r) s)
              | None => s
              end
  end.

Definition trim_space (s : bytes) : bytes :=
  let s := trim_left (length s) s in trim_right (length s) s.

(** [strings.ToLower]: ASCII letters here; the case tables of the [unicode]
    package, which only other texts consult, are a parameter. *)
Class Unicode := { unicode_ToLower : bytes -> bytes }.

Definition is_ascii (s : bytes) : bool := forallb (fun b => u8 b <? 128) s.

Definition ToLower `{Unicode} (s : bytes) : bytes :=
  if is_ascii s then to_lower s else unicode_ToLower s.

(** ** ASCII texts *)
Definition ascii (s : bytes) : Prop := Forall (fun b => u8 b < 128) s.

Lemma ascii_app a b : ascii a -> ascii b -> ascii (a ++ b).
Proof. by apply Forall_app_2. Qed.

Lemma hex_digit_table : forallb (fun n => u8 (hex_digit n) <? 128) (seqZ 0 16) = true.
Proof. vm_compute. reflexivity. Qed.

Lemma ascii_hex_encode b : ascii (hex_encode b).
Proof.
  induction b as [|x b IH]; [constructor|]. pose proof (u8_range x). cbn [hex_encode].
  repeat constructor; [..|exact IH]; apply Z.ltb_lt, (forallb_seqZ _ 0 16 _ hex_digit_table);
    Z.div_mod_to_equations; lia.
Qed.

Lemma ascii_canonical_hex v n : canonicalRenewalHex v n = true -> ascii v.
Proof. rewrite canonicalRenewalHex_spec. intros (raw & _ & ->). apply ascii_hex_encode. Qed.

Lemma ascii_dec_digits fuel z acc : 0 <= z -> ascii acc -> ascii (dec_digits fuel z acc).
Proof.
  revert z acc. induction fuel as [|fuel IH]; intros z acc Hz Ha; [done|]. cbn [dec_digits].
  destruct (Z.ltb_spec z 10).
  - constructor; [|done]. rewrite u8_dec_digit; lia.
  - apply IH; [Z.div_mod_to_equations; lia|]. constructor; [|done].
    rewrite u8_dec_digit; Z.div_mod_to_equations; lia.
Qed.
#[export] Hint Resolve ascii_app ascii_hex_encode ascii_canonical_hex : guardian.

(** ** Graphic ASCII texts are trimmed *)
Definition graphic (b : byte) : bool := (33 <=? u8 b) && (u8 b <? 127).

Lemma space_runes_not_graphic :
  forallb (fun r => match r, rev r with b :: _, e :: _ => negb (graphic b) && negb (graphic e) | _, _ => false end)
    space_runes = true.
Proof. vm_compute. reflexivity. Qed.

Lemma not_space_end s r :
  forallb graphic s = true -> r ∈ space_runes -> has_prefix s r = false /\ has_suffix s r = false.
Proof.
  intros Hs Hr. pose proof space_runes_not_graphic as Ht. rewrite List.forallb_forall in Ht.
  specialize (Ht r). rewrite list_elem_of_In in Hr. specialize (Ht Hr).
  assert (forall a p t, graphic a = false -> forallb graphic t = true -> has_prefix t (a :: p) = false) as Hp.
  { intros a p [|y t] Ha Hy; [done|]. simpl in *. bool_hyps.
    destruct (bool_decide_reflect (a = y)) as [->|]; [congruence|done]. }
  unfold has_suffix. destruct r as [|b r], (rev _) as [|e r'] eqn:Er; try done. bool_hyps. split; [by apply Hp|].
  apply Hp; [done|]. rewrite List.forallb_forall in *. intros x Hx. apply Hs. by apply List.in_rev.
Qed.

Lemma find_none_intro {A} (f : A -> bool) l : (forall x, x ∈ l -> f x = false) -> List.find f l = None.
Proof.
  intros H. destruct (List.find f l) as [x|] eqn:E; [|done]. apply List.find_some in E as [Hin E].
  apply list_elem_of_In in Hin. by rewrite (H x Hin) in E.
Qed.

Lemma trim_space_graphic s : forallb graphic s = true -> trim_space s = s.
Proof.
  intros Hs. unfold trim_space.
  assert (forall n, trim_left n s = s) as ->.
  { intros [|n]; [done|]. cbn [trim_left]. rewrite find_none_intro; [done|]. intros r Hr. by apply not_space_end. }
  destruct (length s) as [|n]; [done|]. cbn [trim_right].
  rewrite find_none_intro; [done|]. intros r Hr. by apply not_space_end.
Qed.

Lemma hex_digit_shape : forallb (fun n => graphic (hex_digit n) && bool_decide (to_lower_byte (hex_digit n) = hex_digit n))
  (seqZ 0 16) = true.
Proof. vm_compute. reflexivity. Qed.

Lemma hex_encode_shape b : forallb graphic (hex_encode b) = true /\ to_lower (hex_encode b) = hex_encode b.
Proof.
  induction b as [|x b [IH1 IH2]]; [done|]. destruct (u8_nibbles x) as [H1 H2].
  pose proof (forallb_seqZ _ 0 16 _ hex_digit_shape H1) as E1.
  pose proof (forallb_seqZ _ 0 16 _ hex_digit_shape H2) as E2. cbv beta in E1, E2. bool_hyps.
  cbn [hex_encode forallb to_lower map]. rewrite IH1. unfold to_lower in IH2. rewrite IH2.
  split; [|congruence]. rewrite !andb_true_split. done.
Qed.

(** Canonical hexadecimal text is trimmed and in lower case. *)
Lemma normal_hex `{Unicode} b : ToLower (trim_space (hex_encode b)) = hex_encode b.
Proof.
  destruct (hex_encode_shape b) as [Hg Hl]. rewrite trim_space_graphic by done. unfold ToLower.
  assert (is_ascii (hex_encode b) = true) as ->; [|done].
  unfold is_ascii. apply List.forallb_forall. intros x Hx. apply Z.ltb_lt.
  pose proof (ascii_hex_encode b) as Ha. unfold ascii in Ha. rewrite List.Forall_forall in Ha. by apply Ha.
Qed.
