(* ===== verification/Base64.v ===== *)
(** [encoding/base64.StdEncoding], the form in which [encoding/json] stores a
    [[]byte]: padded quanta of four characters.  The decoder skips carriage
    returns and newlines and, as the standard library does outside its strict
    mode, does not look at the unused bits of a padded quantum. *)
From Stdlib Require Import Strings.Byte.
From S2P Require Import Prelude Text.

Definition b64_alphabet : bytes := str "ABCDEFGHIJKLMNOPQRSTUVWXYZabcdefghijklmnopqrstuvwxyz0123456789+/".
Definition b64_pad : byte := Byte.x3d.

Definition b64_char (z : Z) : byte := nth (Z.to_nat z) b64_alphabet Byte.x00.

Definition b64_val (c : byte) : option Z :=
  let z := u8 c in
  if (65 <=? z) && (z <=? 90) then Some (z - 65)
  else if (97 <=? z) && (z <=? 122) then Some (z - 71)
  else if (48 <=? z) && (z <=? 57) then Some (z + 4)
  else if z =? 43 then Some 62
  else if z =? 47 then Some 63
  else None.

Fixpoint base64_encode (s : bytes) : bytes :=
  match s with
  | a :: b :: c :: r =>
      b64_char (u8 a / 4) :: b64_char (u8 a mod 4 * 16 + u8 b / 16)
      :: b64_char (u8 b mod 16 * 4 + u8 c / 64) :: b64_char (u8 c mod 64) :: base64_encode r
  | [a; b] =>
      [b64_char (u8 a / 4); b64_char (u8 a mod 4 * 16 + u8 b / 16); b64_char (u8 b mod 16 * 4); b64_pad]
  | [a] => [b64_char (u8 a / 4); b64_char (u8 a mod 4 * 16); b64_pad; b64_pad]
  | [] => []
  end.

(** The bytes of a quantum, from its four, three or two values. *)
Definition quantum (v0 v1 v2 v3 : Z) : bytes :=
  [byte_of_Z (v0 * 4 + v1 / 16); byte_of_Z (v1 mod 16 * 16 + v2 / 4); byte_of_Z (v2 mod 4 * 64 + v3)].

Fixpoint decode_quanta (s : bytes) : option bytes :=
  match s with
  | [] => Some []
  | a :: b :: c :: d :: r =>
      v0 ← b64_val a;
      v1 ← b64_val b;
      if bool_decide (d = b64_pad) then
        match r with
        | [] => if bool_decide (c = b64_pad) then Some (take 1 (quantum v0 v1 0 0))
                else v2 ← b64_val c; Some (take 2 (quantum v0 v1 v2 0))
        | _ => None
        end
      else
        v2 ← b64_val c;
        v3 ← b64_val d;
        rest ← decode_quanta r;
        Some (quantum v0 v1 v2 v3 ++ rest)
  | _ => None
  end.

Definition base64_decode (s : bytes) : option bytes :=
  decode_quanta (List.filter (fun c => negb ((u8 c =? 10) || (u8 c =? 13))) s).

(** ** Round trip *)
Definition b64_char_good (z : Z) : bool :=
  bool_decide (b64_val (b64_char z) = Some z) && negb (bool_decide (b64_char z = b64_pad))
  && (32 <=? u8 (b64_char z)) && (u8 (b64_char z) <? 128).

Lemma b64_char_table : forallb b64_char_good (seqZ 0 64) = true.
Proof. vm_compute. reflexivity. Qed.

Lemma b64_char_ok z :
  0 <= z < 64 -> b64_val (b64_char z) = Some z /\ b64_char z <> b64_pad /\ 32 <= u8 (b64_char z) < 128.
Proof.
  intros Hz. pose proof (forallb_seqZ b64_char_good 0 64 z b64_char_table ltac:(lia)) as T.
  unfold b64_char_good in T. bool_hyps. split_and!; try done; lia.
Qed.

(** Induction over chunks of three bytes. *)
Lemma chunk3_ind (P : bytes -> Prop) :
  P [] -> (forall a, P [a]) -> (forall a b, P [a; b]) -> (forall a b c r, P r -> P (a :: b :: c :: r)) ->
  forall s, P s.
Proof.
  intros H0 H1 H2 H3 s. induction s as [s IH] using (induction_ltof1 _ (@length byte)). unfold ltof in IH.
  destruct s as [|a [|b [|c r]]]; auto. apply H3, IH. simpl. lia.
Qed.

Lemma base64_chars s : Forall (fun c => 32 <= u8 c < 128) (base64_encode s).
Proof.
  induction s as [|a|a b|a b c r IH] using chunk3_ind; cbn [base64_encode]; [constructor|..];
    repeat (apply Forall_cons; split; [first [apply b64_char_ok; pose proof (u8_range a) | unfold b64_pad; vm_compute]|]).
  all: try (pose proof (u8_range b)); try (pose proof (u8_range c)); try (Z.div_mod_to_equations; lia); try done.
  all: split; congruence.
Qed.

Lemma byte_of_u8 x z : z = u8 x -> byte_of_Z z = x.
Proof. intros ->. apply byte_of_Z_u8. Qed.

Lemma decode_quanta_encode s : decode_quanta (base64_encode s) = Some s.
Proof.
  induction s as [|a|a b|a b c r IH] using chunk3_ind; cbn [base64_encode decode_quanta]; [done|..];
    pose proof (u8_range a);
    try (pose proof (u8_range b)); try (pose proof (u8_range c));
    repeat match goal with
      |- context [b64_val (b64_char ?z)] =>
        let Hz := fresh "Hz" in assert (0 <= z < 64) as Hz by (Z.div_mod_to_equations; lia);
        rewrite (proj1 (b64_char_ok z Hz))
      end; cbn [mbind option_bind].
  - rewrite !bool_decide_eq_true_2 by done. unfold quantum. cbn [take].
    do 2 f_equal. apply byte_of_u8. Z.div_mod_to_equations; lia.
  - rewrite bool_decide_eq_true_2 by done. rewrite bool_decide_eq_false_2 by (apply b64_char_ok; lia).
    unfold quantum. cbn [take]. f_equal. f_equal; [|f_equal]; apply byte_of_u8; Z.div_mod_to_equations; lia.
  - rewrite bool_decide_eq_false_2 by (apply b64_char_ok; lia). rewrite IH. cbn [mbind option_bind].
    unfold quantum. cbn [app].
    f_equal; f_equal; [|f_equal; [|f_equal]]; apply byte_of_u8; Z.div_mod_to_equations; lia.
Qed.

Lemma base64_roundtrip s : base64_decode (base64_encode s) = Some s.
Proof.
  unfold base64_decode.
  assert (List.filter (fun c => negb ((u8 c =? 10) || (u8 c =? 13))) (base64_encode s) = base64_encode s) as ->.
  - induction (base64_chars s) as [|c l Hc _ IH]; [done|]. cbn [List.filter].
    assert (negb ((u8 c =? 10) || (u8 c =? 13)) = true) as -> by lia. by rewrite IH.
  - apply decode_quanta_encode.
Qed.

Lemma base64_ascii s : ascii (base64_encode s).
Proof. eapply Forall_impl; [apply base64_chars|]. simpl. intros c Hc. unfold ascii in *. lia. Qed.

(** ** [encoding/base64.RawURLEncoding]

    The alphabet with [-] and [_], without padding; WebAuthn challenges and
    session tickets travel in this form. *)
Definition url_alphabet : bytes := str "ABCDEFGHIJKLMNOPQRSTUVWXYZabcdefghijklmnopqrstuvwxyz0123456789-_".

Definition url_char (z : Z) : byte := nth (Z.to_nat z) url_alphabet Byte.x00.

Definition url_val (c : byte) : option Z :=
  let z := u8 c in
  if (65 <=? z) && (z <=? 90) then Some (z - 65)
  else if (97 <=? z) && (z <=? 122) then Some (z - 71)
  else if (48 <=? z) && (z <=? 57) then Some (z + 4)
  else if z =? 45 then Some 62
  else if z =? 95 then Some 63
  else None.

Fixpoint rawurl_encode (s : bytes) : bytes :=
  match s with
  | a :: b :: c :: r =>
      url_char (u8 a / 4) :: url_char (u8 a mod 4 * 16 + u8 b / 16)
      :: url_char (u8 b mod 16 * 4 + u8 c / 64) :: url_char (u8 c mod 64) :: rawurl_encode r
  | [a; b] => [url_char (u8 a / 4); url_char (u8 a mod 4 * 16 + u8 b / 16); url_char (u8 b mod 16 * 4)]
  | [a] => [url_char (u8 a / 4); url_char (u8 a mod 4 * 16)]
  | [] => []
  end.

Fixpoint rawurl_quanta (s : bytes) : option bytes :=
  match s with
  | [] => Some []
  | a :: b :: c :: d :: r =>
      v0 ← url_val a; v1 ← url_val b; v2 ← url_val c; v3 ← url_val d;
      rest ← rawurl_quanta r;
      Some (quantum v0 v1 v2 v3 ++ rest)
  | [a; b; c] => v0 ← url_val a; v1 ← url_val b; v2 ← url_val c; Some (take 2 (quantum v0 v1 v2 0))
  | [a; b] => v0 ← url_val a; v1 ← url_val b; Some (take 1 (quantum v0 v1 0 0))
  | [_] => None
  end.

(** As in the standard form, the decoder skips carriage returns and newlines. *)
Definition rawurl_decode (s : bytes) : option bytes :=
  rawurl_quanta (List.filter (fun c => negb ((u8 c =? 10) || (u8 c =? 13))) s).

(** [EncodedLen] *)
Definition rawurl_encoded_len (n : Z) : Z := n / 3 * 4 + (n mod 3 * 8 + 5) / 6.

Definition url_char_good (z : Z) : bool :=
  bool_decide (url_val (url_char z) = Some z) && (32 <? u8 (url_char z)) && (u8 (url_char z) <? 127).

Lemma url_char_table : forallb url_char_good (seqZ 0 64) = true.
Proof. vm_compute. reflexivity. Qed.

Lemma url_char_ok z : 0 <= z < 64 -> url_val (url_char z) = Some z /\ 32 < u8 (url_char z) < 127.
Proof.
  intros Hz. pose proof (forallb_seqZ url_char_good 0 64 z url_char_table ltac:(lia)) as T.
  unfold url_char_good in T. bool_hyps. split_and!; try done; lia.
Qed.

Lemma rawurl_chars s : Forall (fun c => 32 < u8 c < 127) (rawurl_encode s).
Proof.
  induction s as [|a|a b|a b c r IH] using chunk3_ind; cbn [rawurl_encode]; [constructor|..];
    repeat (apply Forall_cons; split; [apply url_char_ok; pose proof (u8_range a)|]);
    try (pose proof (u8_range b)); try (pose proof (u8_range c)); try (Z.div_mod_to_equations; lia); done.
Qed.

Lemma rawurl_quanta_encode s : rawurl_quanta (rawurl_encode s) = Some s.
Proof.
  induction s as [|a|a b|a b c r IH] using chunk3_ind; cbn [rawurl_encode rawurl_quanta]; [done|..];
    pose proof (u8_range a);
    try (pose proof (u8_range b)); try (pose proof (u8_range c));
    repeat match goal with
      |- context [url_val (url_char ?z)] =>
        let Hz := fresh "Hz" in assert (0 <= z < 64) as Hz by (Z.div_mod_to_equations; lia);
        rewrite (proj1 (url_char_ok z Hz))
      end; cbn [mbind option_bind]; unfold quantum; cbn [take].
  - do 2 f_equal. apply byte_of_u8. Z.div_mod_to_equations; lia.
  - f_equal. f_equal; [|f_equal]; apply byte_of_u8; Z.div_mod_to_equations; lia.
  - rewrite IH. cbn [mbind option_bind app].
    f_equal; f_equal; [|f_equal; [|f_equal]]; apply byte_of_u8; Z.div_mod_to_equations; lia.
Qed.

Lemma rawurl_roundtrip s : rawurl_decode (rawurl_encode s) = Some s.
Proof.
  unfold rawurl_decode.
  assert (List.filter (fun c => negb ((u8 c =? 10) || (u8 c =? 13))) (rawurl_encode s) = rawurl_encode s) as ->.
  - induction (rawurl_chars s) as [|c l Hc _ IH]; [done|]. cbn [List.filter].
    assert (negb ((u8 c =? 10) || (u8 c =? 13)) = true) as -> by lia. by rewrite IH.
  - apply rawurl_quanta_encode.
Qed.

Lemma rawurl_length s : blen (rawurl_encode s) = rawurl_encoded_len (blen s).
Proof.
  unfold rawurl_encoded_len, blen.
  induction s as [|a|a b|a b c r IH] using chunk3_ind; [done..|].
  cbn [rawurl_encode length]. rewrite !Nat2Z.inj_succ, IH.
  replace (Z.succ (Z.succ (Z.succ (Z.of_nat (length r))))) with (Z.of_nat (length r) + 1 * 3) by lia.
  rewrite Z.div_add, Z_mod_plus_full by lia. lia.
Qed.

(** Encoding is monotone in length, so a bound on the text bounds the data. *)
Lemma rawurl_encoded_len_mono a b : 0 <= a <= b -> rawurl_encoded_len a <= rawurl_encoded_len b.
Proof. unfold rawurl_encoded_len. intros. Z.div_mod_to_equations. lia. Qed.
