(* ===== verification/Psbt.v ===== *)
(** * Transactions, PSBTs and signatures ([src/internal/application/psbtguard.go])

    The Bitcoin data that the service inspects, the libraries it calls as the
    class [Btc], and [psbtguard.go]: parsing and cloning a packet, checking a
    Schnorr signature on one input, and [signExactArkStageWithSighash], which
    adds the vault's signature to every input.  [sign_stage_spec] says that a
    signed packet is the submitted one plus exactly these signatures. *)
From Stdlib Require Import Strings.Byte.
From S2P Require Import Prelude Sha256 Text.

(** ** Data of btcd *)

(** An outpoint; the hash is kept as its [String()]. *)
Record OutPoint := { op_Hash : bytes; op_Index : Z }.
#[global] Instance OutPoint_eq_dec : EqDecision OutPoint.
Proof. solve_decision. Defined.

(** [wire.TxIn] of an unsigned transaction, which has no signature script. *)
Record TxIn := { ti_PreviousOutPoint : OutPoint; ti_Sequence : Z (* uint32 *) }.
Record TxOut := { to_Value : Z (* int64 *); to_PkScript : bytes }.
Record UnsignedTx := { ut_Version : Z; ut_LockTime : Z; ut_TxIn : list TxIn; ut_TxOut : list TxOut }.

Record TaprootTapLeafScript := { tl_ControlBlock : bytes; tl_Script : bytes; tl_LeafVersion : Z }.
Record TaprootScriptSpendSig := {
  ts_XOnlyPubKey : bytes; ts_LeafHash : bytes; ts_Signature : bytes; ts_SigHash : Z;
}.

(** [psbt.PInput]: the fields the service reads, and the others as they are. *)
Record PInput := {
  pi_WitnessUtxo : option TxOut;
  pi_SighashType : Z;
  pi_TaprootLeafScript : list (option TaprootTapLeafScript);
  pi_TaprootScriptSpendSig : list (option TaprootScriptSpendSig);
  pi_Others : bytes;
}.

Record Unknown := { un_Key : bytes; un_Value : bytes }.

(** [psbt.Packet]; only the number of [Outputs] is read. *)
Record Packet := {
  pk_UnsignedTx : UnsignedTx;
  pk_Inputs : list PInput;
  pk_Outputs : list bytes;
  pk_Unknowns : list (option Unknown);
}.

#[global] Instance TxIn_eq_dec : EqDecision TxIn.
Proof. solve_decision. Defined.
#[global] Instance TxOut_eq_dec : EqDecision TxOut.
Proof. solve_decision. Defined.
#[global] Instance UnsignedTx_eq_dec : EqDecision UnsignedTx.
Proof. solve_decision. Defined.
#[global] Instance TapLeaf_eq_dec : EqDecision TaprootTapLeafScript.
Proof. solve_decision. Defined.
#[global] Instance SpendSig_eq_dec : EqDecision TaprootScriptSpendSig.
Proof. solve_decision. Defined.
#[global] Instance PInput_eq_dec : EqDecision PInput.
Proof. solve_decision. Defined.
#[global] Instance Unknown_eq_dec : EqDecision Unknown.
Proof. solve_decision. Defined.
#[global] Instance Packet_eq_dec : EqDecision Packet.
Proof. solve_decision. Defined.

(** A [*btcec.PublicKey] is its 33-byte compressed serialization;
    [schnorr.SerializePubKey] drops the byte of the parity. *)
Definition PubKey : Type := bytes.
Definition SerializePubKey (pub : PubKey) : bytes := drop 1 pub.

(** [arklib.RelativeLocktime]. *)
Inductive LocktimeType := LocktimeTypeSecond | LocktimeTypeBlock.
Record RelativeLocktime := { rl_Type : LocktimeType; rl_Value : Z (* uint32 *) }.

(** Leaf closures of [arkscript]: the two that the service builds, and the
    others. *)
Inductive Closure :=
  | MultisigClosure (PubKeys : list (option PubKey))
  | CSVMultisigClosure (PubKeys : list (option PubKey)) (Locktime : RelativeLocktime)
  | OtherClosure (script : bytes).

(** A taproot tree: its output key, and the control block of a leaf hash. *)
Record TaprootTree := { tt_TapKey : PubKey; tt_ControlBlock : bytes -> option bytes }.

Definition SigHashDefault : Z := 0.
Definition SigHashAll : Z := 1.
Definition BaseLeafVersion : Z := 192.
Definition MaxTxInSequenceNum : Z := 4294967295.
Definition OP_RETURN : Z := 106.

(** ** The libraries *)
Class Btc := {
  (** [psbt.NewFromRawBytes] of the base64 form, and [B64Encode]. *)
  psbt_NewFromRawBytes : bytes -> option Packet;
  psbt_B64Encode : Packet -> option bytes;
  (** [tx.TxHash().String()]. *)
  tx_TxHash : UnsignedTx -> bytes;
  (** [txscript.NewBaseTapLeaf(script).TapHash()]. *)
  tap_leaf_hash : bytes -> bytes;
  (** [ParseControlBlock(control)] and its [RootHash(leaf)]. *)
  control_RootHash : bytes -> bytes -> option bytes;
  (** [ComputeTaprootOutputKey(UnspendableKey(), root)]. *)
  unspendable_output_key : bytes -> PubKey;
  (** [arkscript.P2TRScript], [DecodeClosure] and [TapTree]. *)
  P2TRScript : PubKey -> option bytes;
  DecodeClosure : bytes -> option Closure;
  script_TapTree : list Closure -> option TaprootTree;
  ANCHOR_PKSCRIPT : bytes;
  (** [CalcTapscriptSignaturehash] of an input, given the spent outputs. *)
  tapscript_sighash : Z -> UnsignedTx -> list (OutPoint * TxOut) -> nat -> bytes -> option bytes;
  (** [RawTxInTapscriptSignature] with a private key. *)
  tapscript_sign : bytes -> Z -> UnsignedTx -> list (OutPoint * TxOut) -> nat -> TxOut -> bytes -> option bytes;
  priv_PubKey : bytes -> PubKey;
  (** [schnorr.ParseSignature], [ParsePubKey] and [Verify]. *)
  schnorr_Verify : bytes -> bytes -> bytes -> bool;
  (** [intent.Verify(raw, message, skipped)]. *)
  intent_Verify : bytes -> bytes -> list PubKey -> bool;
}.

(** What [psbt] documents of its two functions: parsing an encoding gives the
    packet back. *)
Class PsbtLaws `{Btc} := psbt_roundtrip : forall p s, psbt_B64Encode p = Some s -> psbt_NewFromRawBytes s = Some p.

(** ** psbtguard.go *)
Section Guard.
Context `{Btc}.

Definition set_sigs (sigs : list (option TaprootScriptSpendSig)) (i : PInput) : PInput := {|
  pi_WitnessUtxo := pi_WitnessUtxo i; pi_SighashType := pi_SighashType i;
  pi_TaprootLeafScript := pi_TaprootLeafScript i; pi_TaprootScriptSpendSig := sigs; pi_Others := pi_Others i |}.

Definition set_inputs (inputs : list PInput) (p : Packet) : Packet := {|
  pk_UnsignedTx := pk_UnsignedTx p; pk_Inputs := inputs; pk_Outputs := pk_Outputs p; pk_Unknowns := pk_Unknowns p |}.

Definition parsePSBT (raw : bytes) : result Packet :=
  if raw == [] then Err (ErrMsg "psbt required")
  else match psbt_NewFromRawBytes raw with
  | None => Err (ErrMsg "psbt: %w")
  | Some ptx =>
      if negb (Nat.eqb (length (pk_Inputs ptx)) (length (ut_TxIn (pk_UnsignedTx ptx))))
      then Err (ErrMsg "psbt input count") else Ok ptx
  end.

Definition b64Encode (p : Packet) : result bytes :=
  match psbt_B64Encode p with Some s => Ok s | None => Err (ErrMsg "psbt encode") end.

Definition clonePacket (p : Packet) : result Packet :=
  encoded ← b64Encode p;
  match psbt_NewFromRawBytes encoded with Some q => Ok q | None => Err (ErrMsg "psbt") end.

(** The spent outputs, in the order of the inputs; a later entry replaces an
    earlier one for the same outpoint. *)
Definition multiWitnessFetcher (ptx : Packet) : list (OutPoint * TxOut) :=
  omap (fun ip : TxIn * PInput => pair (ti_PreviousOutPoint (fst ip)) <$> pi_WitnessUtxo (snd ip))
    (zip (ut_TxIn (pk_UnsignedTx ptx)) (pk_Inputs ptx)).

Definition verifySchnorrOnInputWithSighash (ptx : Packet) (idx : nat) (sig wantXOnly leafScript : bytes)
    (sigHash : Z) : result unit :=
  match pk_Inputs ptx !! idx, ut_TxIn (pk_UnsignedTx ptx) !! idx with
  | Some input, Some _ =>
      if negb (blen sig =? 64) then Err (ErrMsg "signature length")
      else match pi_WitnessUtxo input with
      | None => Err (ErrMsg "witness utxo required")
      | Some _ =>
          match tapscript_sighash sigHash (pk_UnsignedTx ptx) (multiWitnessFetcher ptx) idx leafScript with
          | None => Err (ErrMsg "sighash")
          | Some digest => fail_if (negb (schnorr_Verify sig digest wantXOnly)) (ErrMsg "invalid")
          end
      end
  | _, _ => Err (ErrMsg "input index")
  end.

Definition signTapLeafAtWithSighash (ptx : Packet) (idx : nat) (priv leafScript : bytes) (sigHash : Z)
  : result TaprootScriptSpendSig :=
  match pk_Inputs ptx !! idx, ut_TxIn (pk_UnsignedTx ptx) !! idx with
  | Some input, Some _ =>
      match pi_WitnessUtxo input with
      | None => Err (ErrMsg "witness utxo required")
      | Some prev =>
          match tapscript_sign priv sigHash (pk_UnsignedTx ptx) (multiWitnessFetcher ptx) idx prev leafScript with
          | None => Err (ErrMsg "sign")
          | Some sig =>
              let sig := if blen sig =? 65 then take 64 sig else sig in
              Ok {| ts_XOnlyPubKey := SerializePubKey (priv_PubKey priv); ts_LeafHash := tap_leaf_hash leafScript;
                    ts_Signature := sig; ts_SigHash := sigHash |}
          end
      end
  | _, _ => Err (ErrMsg "input index")
  end.

(** The checks on one input of the packet to sign. *)
Definition require_leaf (input : PInput) (expectedLeaf : bytes) (wantSigHash : Z) : result unit :=
  match pi_TaprootLeafScript input with
  | [Some leaf] =>
      _ ← fail_if (tl_Script leaf != expectedLeaf) (ErrMsg "unexpected tapleaf");
      fail_if (negb (pi_SighashType input =? wantSigHash)) (ErrMsg "unexpected input sighash")
  | _ => Err (ErrMsg "exactly one tapleaf required")
  end.

(** The loop: [i] is the index of the first of [inputs], the inputs of [work];
    [outs] are the inputs of [out] that are left.  It returns the signed ones. *)
Fixpoint sign_inputs (submitted work : Packet) (priv expectedXOnly expectedLeaf : bytes) (wantSigHash : Z)
    (i : nat) (inputs outs : list PInput) : result (list PInput) :=
  match inputs, outs with
  | input :: inputs, out :: outs =>
      _ ← require_leaf input expectedLeaf wantSigHash;
      added ← signTapLeafAtWithSighash work i priv expectedLeaf wantSigHash;
      _ ← or_err (ErrMsg "vtxo vault signature invalid")
            (verifySchnorrOnInputWithSighash submitted i (ts_Signature added) expectedXOnly expectedLeaf wantSigHash);
      rest ← sign_inputs submitted work priv expectedXOnly expectedLeaf wantSigHash (S i) inputs outs;
      Ok (set_sigs (pi_TaprootScriptSpendSig out ++ [Some added]) out :: rest)
  | [], outs => Ok outs
  | _ :: _, [] => Err (ErrMsg "index out of range")
  end.

(** [ctx] is [ctx.Err()]. *)
Definition signExactArkStageWithSighash (ctx : result unit) (stored priv expectedXOnly expectedLeaf : bytes)
    (wantSigHash : Z) : result bytes :=
  _ ← ctx;
  _ ← fail_if (negb (blen expectedXOnly =? 32)) (ErrMsg "expected signer x-only key");
  _ ← fail_if (SerializePubKey (priv_PubKey priv) != expectedXOnly) (ErrMsg "signer key mismatch");
  submitted ← parsePSBT stored;
  _ ← fail_if (Nat.eqb (length (ut_TxIn (pk_UnsignedTx submitted))) 0) (ErrMsg "psbt input required");
  work ← clonePacket submitted;
  out ← clonePacket submitted;
  _ ← fail_if (blen expectedLeaf =? 0) (ErrMsg "expected leaf required");
  signed ← sign_inputs submitted work priv expectedXOnly expectedLeaf wantSigHash 0 (pk_Inputs work) (pk_Inputs out);
  _ ← fail_if (Nat.eqb (length (pk_Inputs work)) 0) (ErrMsg "collaborative leaf missing");
  b64Encode (set_inputs signed out).

Definition signExactArkStage (ctx : result unit) (stored priv expectedXOnly expectedLeaf : bytes) : result bytes :=
  signExactArkStageWithSighash ctx stored priv expectedXOnly expectedLeaf SigHashDefault.

(** The checks of one index of [signExactVaultBoardStage]. *)
Definition require_board_input (work : Packet) (seen : list nat) (expectedXOnly expectedLeaf : bytes)
    (wantSigHash : Z) (idx : nat) : result unit :=
  match pk_Inputs work !! idx, ut_TxIn (pk_UnsignedTx work) !! idx with
  | Some input, Some _ =>
      _ ← fail_if (bool_decide (idx ∈ seen)) (ErrMsg "vault-board-v1 duplicate input index");
      _ ← match pi_TaprootLeafScript input with
          | [Some leaf] =>
              fail_if ((tl_Script leaf != expectedLeaf) || negb (pi_SighashType input =? wantSigHash))
                (ErrMsg "vault-board-v1 collaborative leaf")
          | _ => Err (ErrMsg "vault-board-v1 collaborative leaf")
          end;
      fail_if (existsb (fun s => match s with Some s => ts_XOnlyPubKey s == expectedXOnly | None => false end)
                 (pi_TaprootScriptSpendSig input)) (ErrMsg "vault-board-v1 signature already present")
  | _, _ => Err (ErrMsg "vault-board-v1 input index")
  end.

Fixpoint sign_board_inputs (submitted work : Packet) (priv expectedXOnly expectedLeaf : bytes) (wantSigHash : Z)
    (seen indexes : list nat) (outs : list PInput) : result (list PInput) :=
  match indexes with
  | [] => Ok outs
  | idx :: indexes =>
      _ ← require_board_input work seen expectedXOnly expectedLeaf wantSigHash idx;
      added ← signTapLeafAtWithSighash work idx priv expectedLeaf wantSigHash;
      _ ← or_err (ErrMsg "vault-board-v1 signature invalid")
            (verifySchnorrOnInputWithSighash submitted idx (ts_Signature added) expectedXOnly expectedLeaf wantSigHash);
      sign_board_inputs submitted work priv expectedXOnly expectedLeaf wantSigHash (idx :: seen) indexes
        (alter (fun out => set_sigs (pi_TaprootScriptSpendSig out ++ [Some added]) out) idx outs)
  end.

Definition signExactVaultBoardStage (ctx : result unit) (stored priv expectedXOnly expectedLeaf : bytes)
    (inputIndexes : list nat) (wantSigHash : Z) : result bytes :=
  _ ← ctx;
  _ ← fail_if (negb (blen expectedXOnly =? 32) || (SerializePubKey (priv_PubKey priv) != expectedXOnly))
        (ErrMsg "vault-board-v1 signer key mismatch");
  _ ← fail_if ((blen expectedLeaf =? 0) || Nat.eqb (length inputIndexes) 0) (ErrMsg "vault-board-v1 authorization required");
  submitted ← parsePSBT stored;
  work ← clonePacket submitted;
  out ← clonePacket submitted;
  signed ← sign_board_inputs submitted work priv expectedXOnly expectedLeaf wantSigHash [] inputIndexes (pk_Inputs out);
  b64Encode (set_inputs signed out).

(** [requirePresentDefaultTaprootSignature]: the first signature of the signer
    for the leaf decides. *)
Definition requirePresentDefaultTaprootSignature (ptx : Packet) (index : nat) (expectedXOnly leafScript : bytes)
  : result unit :=
  match pk_Inputs ptx !! index with
  | None => Err (ErrMsg "input index")
  | Some input =>
      let matches (s : option TaprootScriptSpendSig) := match s with
        | Some s => (blen (ts_Signature s) =? 64) && (ts_XOnlyPubKey s == expectedXOnly)
                    && (ts_LeafHash s == tap_leaf_hash leafScript) && (ts_SigHash s =? SigHashDefault)
        | None => false end in
      match List.find matches (pi_TaprootScriptSpendSig input) with
      | Some (Some s) => verifySchnorrOnInputWithSighash ptx index (ts_Signature s) expectedXOnly leafScript SigHashDefault
      | _ => Err (ErrMsg "expected signer signature missing")
      end
  end.
End Guard.

(** ** What signing adds *)
Section SignSpec.
Context `{PsbtLaws}.

Lemma parsePSBT_Ok raw p : parsePSBT raw = Ok p ->
  psbt_NewFromRawBytes raw = Some p /\ length (pk_Inputs p) = length (ut_TxIn (pk_UnsignedTx p)).
Proof.
  unfold parsePSBT. case_bool_decide; [done|]. destruct (psbt_NewFromRawBytes raw) as [q|]; [|done].
  destruct (Nat.eqb_spec (length (pk_Inputs q)) (length (ut_TxIn (pk_UnsignedTx q)))); [|done].
  by intros <-%Ok_inj.
Qed.

Lemma clonePacket_Ok p q : clonePacket p = Ok q -> q = p.
Proof.
  unfold clonePacket, b64Encode. intros E. apply bind_Ok in E as (s & Es & E).
  destruct (psbt_B64Encode p) eqn:Ep; [|done]. apply Ok_inj in Es as ->.
  apply psbt_roundtrip in Ep. rewrite Ep in E. by apply Ok_inj in E.
Qed.

(** [out] is [input] with one more signature, by [signer], which verifies on
    input [i] of [p]. *)
Record adds_signature (p : Packet) (signer leaf : bytes) (sigHash : Z) (i : nat) (input out : PInput) : Prop := {
  as_leaf : exists l, pi_TaprootLeafScript input = [Some l] /\ tl_Script l = leaf;
  as_sighash : pi_SighashType input = sigHash;
  as_signature : exists sig, out = set_sigs (pi_TaprootScriptSpendSig input ++ [Some sig]) input /\
    ts_XOnlyPubKey sig = signer /\ ts_LeafHash sig = tap_leaf_hash leaf /\ ts_SigHash sig = sigHash /\
    verifySchnorrOnInputWithSighash p i (ts_Signature sig) signer leaf sigHash = Ok tt;
}.

Lemma require_leaf_Ok input leaf sigHash : require_leaf input leaf sigHash = Ok tt ->
  (exists l, pi_TaprootLeafScript input = [Some l] /\ tl_Script l = leaf) /\ pi_SighashType input = sigHash.
Proof.
  unfold require_leaf. destruct (pi_TaprootLeafScript input) as [|[l|] []]; try discriminate.
  intros E. inv_ok. bool_hyps. eauto.
Qed.

Lemma signTapLeaf_Ok work i priv leaf sigHash sig :
  signTapLeafAtWithSighash work i priv leaf sigHash = Ok sig ->
  ts_XOnlyPubKey sig = SerializePubKey (priv_PubKey priv) /\ ts_LeafHash sig = tap_leaf_hash leaf /\ ts_SigHash sig = sigHash.
Proof. unfold signTapLeafAtWithSighash. intros E. repeat (case_match; try discriminate); by apply Ok_inj in E as <-. Qed.

Lemma sign_inputs_Ok submitted work priv signer leaf sigHash i inputs signed :
  signer = SerializePubKey (priv_PubKey priv) ->
  sign_inputs submitted work priv signer leaf sigHash i inputs inputs = Ok signed ->
  length signed = length inputs /\
  forall k input out, inputs !! k = Some input -> signed !! k = Some out ->
    adds_signature submitted signer leaf sigHash (i + k) input out.
Proof.
  intros ->. revert i signed. induction inputs as [|input inputs IH]; intros i signed E; simpl in E.
  { apply Ok_inj in E as <-. by split. }
  apply bind_Ok in E as ([] & El & E). apply bind_Ok in E as (sig & Es & E). apply bind_Ok in E as ([] & Ev & E).
  apply bind_Ok in E as (rest & Er & E). apply Ok_inj in E as <-.
  apply IH in Er as [Hl Hr]. split; [by simpl; f_equal|]. apply or_err_Ok in Ev.
  apply require_leaf_Ok in El as [? ?]. apply signTapLeaf_Ok in Es as (Ex & ? & ?).
  intros [|k] input' out Hi Ho; simpl in *; simplify_eq.
  - rewrite Nat.add_0_r. constructor; [done|done|]. exists sig. by rewrite Ex.
  - rewrite <- Nat.add_succ_comm. by apply Hr.
Qed.

Lemma sign_stage_spec ctx stored priv signer leaf sigHash s :
  signExactArkStageWithSighash ctx stored priv signer leaf sigHash = Ok s ->
  exists p inputs, parsePSBT stored = Ok p /\ psbt_B64Encode (set_inputs inputs p) = Some s /\
    signer = SerializePubKey (priv_PubKey priv) /\ length inputs = length (pk_Inputs p) /\
    forall i input out, pk_Inputs p !! i = Some input -> inputs !! i = Some out ->
      adds_signature p signer leaf sigHash i input out.
Proof.
  unfold signExactArkStageWithSighash. intros E.
  apply bind_Ok in E as ([] & _ & E). apply bind_Ok in E as ([] & _ & E). apply bind_Ok in E as ([] & Ek & E).
  apply bind_Ok in E as (p & Ep & E). apply bind_Ok in E as ([] & _ & E).
  apply bind_Ok in E as (work & Ew & E). apply bind_Ok in E as (out & Eo & E). apply bind_Ok in E as ([] & _ & E).
  apply bind_Ok in E as (signed & Es & E). apply bind_Ok in E as ([] & _ & E).
  apply clonePacket_Ok in Ew as ->. apply clonePacket_Ok in Eo as ->.
  apply fail_if_Ok in Ek. bool_hyps. apply sign_inputs_Ok in Es as [Hl Hs]; [|done].
  exists p, signed. unfold b64Encode in E. case_match; [|done]. apply Ok_inj in E as ->.
  repeat (split; [done|]). done.
Qed.

(** *** Signing chosen inputs *)
Lemma require_board_input_Ok work seen signer leaf sigHash idx : require_board_input work seen signer leaf sigHash idx = Ok tt ->
  exists input, pk_Inputs work !! idx = Some input /\ idx ∉ seen /\
    (exists l, pi_TaprootLeafScript input = [Some l] /\ tl_Script l = leaf) /\ pi_SighashType input = sigHash.
Proof.
  unfold require_board_input. destruct (pk_Inputs work !! idx) as [input|]; [|done].
  destruct (ut_TxIn (pk_UnsignedTx work) !! idx); [|done]. intros E.
  apply bind_Ok in E as ([] & Es & E). apply bind_Ok in E as ([] & El & _). apply fail_if_Ok, bool_decide_eq_false in Es.
  exists input. split; [done|]. split; [done|]. destruct (pi_TaprootLeafScript input) as [|[l|] []]; try discriminate.
  apply fail_if_Ok in El. bool_hyps. eauto.
Qed.

(** Input [i] of [p] is signed in [outs]. *)
Definition signed_at (p : Packet) (signer leaf : bytes) (sigHash : Z) (outs : list PInput) (i : nat) : Prop :=
  exists input out, pk_Inputs p !! i = Some input /\ outs !! i = Some out /\ adds_signature p signer leaf sigHash i input out.

Lemma sign_board_inputs_Ok p priv signer leaf sigHash seen indexes outs signed :
  signer = SerializePubKey (priv_PubKey priv) ->
  sign_board_inputs p p priv signer leaf sigHash seen indexes outs = Ok signed ->
  length outs = length (pk_Inputs p) -> (forall i, i ∉ seen -> outs !! i = pk_Inputs p !! i) ->
  (forall i, i ∈ seen -> signed_at p signer leaf sigHash outs i) ->
  length signed = length (pk_Inputs p) /\ NoDup indexes /\ (forall i, i ∈ indexes -> i ∉ seen) /\
  (forall i, i ∉ seen -> i ∉ indexes -> signed !! i = pk_Inputs p !! i) /\
  (forall i, i ∈ seen \/ i ∈ indexes -> signed_at p signer leaf sigHash signed i).
Proof.
  intros ->. revert seen outs. induction indexes as [|idx indexes IH]; intros seen outs E Hl Hsame Hsigned; simpl in E.
  { apply Ok_inj in E as <-. split_and!; [done|constructor|by intros i ?%elem_of_nil|by intros i Hi _; apply Hsame|].
    intros i [Hi|Hi%elem_of_nil]; [by apply Hsigned|done]. }
  apply bind_Ok in E as ([] & Er & E). apply bind_Ok in E as (sig & Es & E). apply bind_Ok in E as ([] & Ev & E).
  apply require_board_input_Ok in Er as (input & Hi & Hn & Hleaf & Hsh). apply or_err_Ok in Ev.
  apply signTapLeaf_Ok in Es as (Ex & Elh & Esh).
  apply IH in E as (Hlen & Hd & Hseen & Hs & Hg).
  - split_and!; [done| | | |].
    + constructor; [|done]. intros Hin. apply (Hseen idx Hin). by left.
    + intros i [->|Hin]%elem_of_cons; [done|]. intros Hs'. apply (Hseen i Hin). by right.
    + intros i Hns [Hne Hni]%not_elem_of_cons. apply Hs; [|done]. by apply not_elem_of_cons.
    + intros i [Hin|[->|Hin]%elem_of_cons]; apply Hg; [left; by right|left; by left|by right].
  - by rewrite length_alter.
  - intros i [Hne Hns]%not_elem_of_cons. rewrite list_lookup_alter_ne by done. by apply Hsame.
  - intros i [->|Hin]%elem_of_cons.
    + exists input, (set_sigs (pi_TaprootScriptSpendSig input ++ [Some sig]) input). split; [done|]. split.
      * by rewrite list_lookup_alter_eq, Hsame, Hi by done.
      * constructor; [done|done|]. exists sig. by rewrite Ex.
    + destruct (Hsigned i Hin) as (inp & out & Hp & Ho & Ha). exists inp, out. split; [done|]. split; [|done].
      rewrite list_lookup_alter_ne; [done|]. by intros ->.
Qed.

(** The result is the packet [raw] with one more signature, by [signer], on each
    of these inputs. *)
Definition inputs_signed (raw signed signer leaf : bytes) (indexes : list nat) (sigHash : Z) : Prop :=
  exists p inputs, parsePSBT raw = Ok p /\ psbt_B64Encode (set_inputs inputs p) = Some signed /\
    length inputs = length (pk_Inputs p) /\ NoDup indexes /\ indexes <> [] /\
    (forall i, i ∉ indexes -> inputs !! i = pk_Inputs p !! i) /\
    (forall i, i ∈ indexes -> signed_at p signer leaf sigHash inputs i).

Lemma sign_board_stage_spec ctx raw priv signer leaf indexes sigHash s :
  signExactVaultBoardStage ctx raw priv signer leaf indexes sigHash = Ok s ->
  signer = SerializePubKey (priv_PubKey priv) /\ inputs_signed raw s signer leaf indexes sigHash.
Proof.
  unfold signExactVaultBoardStage. intros E. apply bind_Ok in E as ([] & _ & E). apply bind_Ok in E as ([] & Ek & E).
  apply bind_Ok in E as ([] & Ei & E). apply bind_Ok in E as (p & Ep & E). apply bind_Ok in E as (work & Ew & E).
  apply bind_Ok in E as (out & Eo & E). apply bind_Ok in E as (signed & Es & E).
  apply clonePacket_Ok in Ew as ->. apply clonePacket_Ok in Eo as ->. apply fail_if_Ok in Ek, Ei. bool_hyps.
  split; [done|]. apply sign_board_inputs_Ok in Es as (Hl & Hd & _ & Hs & Hg); [|done|done|done|by intros i ?%elem_of_nil].
  exists p, signed. unfold b64Encode in E. case_match; [|done]. apply Ok_inj in E as ->.
  split_and!; [done|done|done|done|by intros ->; discriminate| |].
  - intros i Hi. apply Hs; [apply not_elem_of_nil|done].
  - intros i Hi. apply Hg. by right.
Qed.
End SignSpec.

(** ** An example *)

(** A toy library for the examples: scripts hash to themselves, every
    64-byte signature is valid, and packets are encoded by a table of names. *)
Definition toy_user : PubKey := byte_of_Z 2 :: replicate 32 Byte.x01.
Definition toy_cosigner : PubKey := byte_of_Z 2 :: replicate 32 Byte.x02.
Definition toy_operator : PubKey := byte_of_Z 2 :: replicate 32 Byte.x03.
Definition toy_leaf : bytes := str "leaf".
Definition toy_control : bytes := str "ctl".
Definition toy_script : bytes := toy_control ++ toy_leaf.

Definition toy_btc (table : list (bytes * Packet)) : Btc := {|
  psbt_NewFromRawBytes := fun s => snd <$> List.find (fun kv => fst kv == s) table;
  psbt_B64Encode := fun p => fst <$> List.find (fun kv => snd kv == p) table;
  tx_TxHash := fun tx => hex_encode (be_bytes 32 (Z.of_nat (length (ut_TxOut tx))));
  tap_leaf_hash := fun s => s;
  control_RootHash := fun control leaf => Some (control ++ leaf);
  unspendable_output_key := fun root => root;
  P2TRScript := fun key => Some key;
  DecodeClosure := fun s => Some (if s == toy_leaf then MultisigClosure [Some toy_user; Some toy_cosigner; Some toy_operator]
                                  else OtherClosure s);
  script_TapTree := fun _ => Some {| tt_TapKey := toy_script; tt_ControlBlock := fun _ => Some toy_control |};
  ANCHOR_PKSCRIPT := str "anchor";
  tapscript_sighash := fun _ _ _ _ _ => Some [];
  tapscript_sign := fun _ _ _ _ _ _ _ => Some (replicate 64 Byte.x05);
  priv_PubKey := fun _ => toy_cosigner;
  schnorr_Verify := fun _ _ _ => true;
  intent_Verify := fun _ _ _ => true;
|}.

Definition toy_sig (pub : PubKey) (sigHash : Z) : option TaprootScriptSpendSig :=
  Some {| ts_XOnlyPubKey := SerializePubKey pub; ts_LeafHash := toy_leaf; ts_Signature := replicate 64 Byte.x05; ts_SigHash := sigHash |}.

Definition toy_pinput (value : Z) (sigHash : Z) (signers : list PubKey) : PInput := {|
  pi_WitnessUtxo := Some {| to_Value := value; to_PkScript := toy_script |}; pi_SighashType := sigHash;
  pi_TaprootLeafScript := [Some {| tl_ControlBlock := toy_control; tl_Script := toy_leaf; tl_LeafVersion := 192 |}];
  pi_TaprootScriptSpendSig := map (fun pub => toy_sig pub sigHash) signers; pi_Others := [] |}.

(** A table of distinct names satisfies the law of the codec. *)
Lemma toy_laws table : NoDup (map fst table) -> @PsbtLaws (toy_btc table).
Proof.
  intros Hd p s. simpl. intros E. destruct (List.find (fun kv => snd kv == p) table) as [[k q]|] eqn:Ef; [|done].
  injection E as <-. apply find_some in Ef as [Hin Hq]. apply bool_decide_eq_true in Hq. simpl in *. subst q.
  apply list_elem_of_In in Hin. clear -Hd Hin. induction table as [|[k' p'] table IH]; [by apply elem_of_nil in Hin|].
  simpl in *. apply NoDup_cons in Hd as [Hn Hd]. apply elem_of_cons in Hin as [[= <- <-]|Hin].
  - by rewrite bool_decide_eq_true_2.
  - rewrite bool_decide_eq_false_2; [by apply IH|]. intros ->. apply Hn, list_elem_of_fmap. by exists (k, p).
Qed.
