(* ===== verification/Btcd.v ===== *)
(** * More of btcd ([src/internal/application], [src/internal/vault/savings])

    What the Savings and the batch code use of btcd besides [Psbt]: the script
    builder and taproot assembly ([Txscript]), and the fields of a PSBT that
    [Psbt.PInput] leaves unread ([PsbtFields]). *)
From Stdlib Require Import Strings.Byte.
From S2P Require Import Prelude Sha256 Text Psbt.

(** [txscript.ScriptBuilder] and the output key of a taproot tree. *)
Inductive ScriptOp := AddData (data : bytes) | AddOp (op : Z) | AddInt64 (v : Z).

Definition OP_CHECKSIGVERIFY : Z := 173.
Definition OP_CHECKSEQUENCEVERIFY : Z := 178.

(** [txscript.ScriptClass]: the classes that the code names, and the others. *)
Inductive ScriptClass :=
  PubKeyHashTy | ScriptHashTy | WitnessV0PubKeyHashTy | WitnessV0ScriptHashTy | WitnessV1TaprootTy | OtherTy.

Class Txscript := {
  script_Build : list ScriptOp -> option bytes;
  (** The hash of the root that [AssembleTaprootScriptTree] makes of leaf scripts. *)
  taproot_RootHash : list bytes -> bytes;
  ComputeTaprootOutputKey : PubKey -> bytes -> PubKey;
  PayToTaprootScript : PubKey -> option bytes;
  IsPayToTaproot : bytes -> bool;
  GetScriptClass : bytes -> ScriptClass;
  btcutil_Hash160 : bytes -> bytes;
}.

(** A transaction that is looked up for one of its outputs. *)
Record ParentTx := { pt_TxHash : bytes; pt_TxOut : list TxOut }.

Record TaprootBip32Derivation := {
  bd_XOnlyPubKey : bytes; bd_LeafHashes : list bytes; bd_MasterKeyFingerprint : Z; bd_Bip32Path : list Z;
}.

(** The other fields of [psbt.PInput] that the code reads; of the last ones it
    reads the length only. *)
Record InputFields := {
  if_NonWitnessUtxo : option ParentTx;
  if_TaprootInternalKey : bytes;
  if_TaprootMerkleRoot : bytes;
  if_TaprootBip32Derivation : list (option TaprootBip32Derivation);
  if_FinalScriptSig : bytes;
  if_FinalScriptWitness : bytes;
  if_TaprootKeySpendSig : bytes;
  if_PartialSigs : list bytes;
  if_RedeemScript : bytes;
  if_WitnessScript : bytes;
  if_Bip32Derivation : list bytes;
  if_Unknowns : list bytes;
}.

(** [psbt.POutput] *)
Record OutputFields := {
  of_RedeemScript : bytes;
  of_WitnessScript : bytes;
  of_Bip32Derivation : list bytes;
  of_TaprootInternalKey : bytes;
  of_TaprootTapTree : bytes;
  of_TaprootBip32Derivation : list bytes;
  of_Unknowns : list bytes;
}.

Class PsbtFields := {
  input_fields : PInput -> InputFields;
  output_fields : bytes -> OutputFields;
}.

(** ** An example *)
Definition toy_txscript : Txscript := {|
  script_Build := fun ops => Some (concat (map (fun op => match op with AddData d => d | AddOp z | AddInt64 z => [byte_of_Z z] end) ops));
  taproot_RootHash := fun scripts => concat scripts; ComputeTaprootOutputKey := fun internal _ => internal;
  PayToTaprootScript := fun pub => Some pub; IsPayToTaproot := fun _ => true; GetScriptClass := fun _ => WitnessV1TaprootTy;
  btcutil_Hash160 := fun b => take 20 b |}.
