(* ===== verification/Cbor.v ===== *)
(** * CBOR ([src/internal/webauthn/cbor.go])

    The subset of CBOR that WebAuthn attestation needs: unsigned and negative
    integers, byte and text strings, maps and booleans, with lengths of at most
    two bytes written minimally.  The decoder is recursive over the input; its
    fuel is the length of the input, which [decode_fuel_enough] shows is never
    exhausted.  [cbor_decoder_exact] says that the decoder accepts exactly the
    canonical encodings of well-formed values. *)
From Stdlib Require Import Strings.Byte.
From S2P Require Import Prelude.

Definition maxCBORBytes : Z := 4096.

(** A decoded value; [cborKind] is the constructor. *)
Inductive cborValue :=
  | CInt (intVal : Z)
  | CBytes (bs : bytes)
  | CText (text : bytes)
  | CMap (mapVal : list (cborValue * cborValue))
  | CBool (boolVal : bool).

(** ** Lengths *)
Definition decodeCBORLen (ai : Z) (rest : bytes) : result (Z * bytes) :=
  if ai <? 24 then Ok (ai, rest)
  else if ai =? 24 then
    match rest with
    | b :: r => if u8 b <? 24 then Err (ErrMsg "non-minimal cbor length") else Ok (u8 b, r)
    | [] => Err (ErrMsg "truncated cbor length")
    end
  else if ai =? 25 then
    match rest with
    | a :: b :: r =>
        let n := u8 a * 256 + u8 b in
        if n <=? 255 then Err (ErrMsg "non-minimal cbor length") else Ok (n, r)
    | _ => Err (ErrMsg "truncated cbor length")
    end
  else Err (ErrMsg "unsupported cbor additional info").

Definition sameCBORMapKey (a b : cborValue) : bool :=
  match a, b with
  | CInt x, CInt y => x =? y
  | CText x, CText y => x == y
  | _, _ => false
  end.

Definition map_key (k : cborValue) : bool :=
  match k with CInt _ | CText _ => true | _ => false end.

(** ** The decoder *)
Definition out_of_fuel : error := ErrIO "decodeCBOR fuel".

Section MapLoop.
Context (decode : bytes -> result (cborValue * bytes)).

(** The loop over the [n] entries of a map. *)
Fixpoint decode_pairs (n : nat) (pairs : list (cborValue * cborValue)) (rest : bytes)
  : result (cborValue * bytes) :=
  match n with
  | O => Ok (CMap pairs, rest)
  | S n =>
      '(k, next) ← decode rest;
      _ ← fail_if (negb (map_key k)) (ErrMsg "unsupported cbor map key");
      _ ← fail_if (existsb (fun pair => sameCBORMapKey (fst pair) k) pairs) (ErrMsg "duplicate cbor map key");
      '(v, next) ← decode next;
      decode_pairs n (pairs ++ [(k, v)]) next
  end.
End MapLoop.

(** [rest[:n], rest[n:]] with the bounds test of strings. *)
Definition take_bytes (n : Z) (rest : bytes) (what : string) : result (bytes * bytes) :=
  if blen rest <? n then Err (ErrMsg what)
  else Ok (take (Z.to_nat n) rest, drop (Z.to_nat n) rest).

(** The [switch] on the major type, once the length has been read. *)
Definition decode_item (decode : bytes -> result (cborValue * bytes)) (major ai n : Z) (rest : bytes)
  : result (cborValue * bytes) :=
  if major =? 0 then Ok (CInt n, rest)
  else if major =? 1 then Ok (CInt (Z.lnot n), rest)
  else if major =? 2 then
    '(b, r) ← take_bytes n rest "truncated cbor bytes"; Ok (CBytes b, r)
  else if major =? 3 then
    '(b, r) ← take_bytes n rest "truncated cbor text"; Ok (CText b, r)
  else if major =? 7 then
    if ai =? 20 then Ok (CBool false, rest)
    else if ai =? 21 then Ok (CBool true, rest)
    else Err (ErrMsg "unsupported cbor simple value")
  else if major =? 5 then
    if 16 <? n then Err (ErrMsg "cbor map too large")
    else decode_pairs decode (Z.to_nat n) [] rest
  else Err (ErrMsg "unsupported cbor major type %d").

Fixpoint decode_fuel (fuel : nat) (input : bytes) : result (cborValue * bytes) :=
  match fuel with
  | O => Err out_of_fuel
  | S fuel =>
      match input with
      | [] => Err (ErrMsg "truncated cbor")
      | b0 :: rest0 =>
          _ ← fail_if (maxCBORBytes <? blen input) (ErrMsg "cbor too large");
          let major := Z.shiftr (u8 b0) 5 in
          let ai := Z.land (u8 b0) 31 in
          '(n, rest) ← decodeCBORLen ai rest0;
          decode_item (decode_fuel fuel) major ai n rest
      end
  end.

(** Every nested call has at least one byte less. *)
Definition decodeCBOR (input : bytes) : result (cborValue * bytes) :=
  decode_fuel (S (length input)) input.

(** ** Lookups *)
Definition mapInt (v : cborValue) (key : Z) : option cborValue :=
  match v with
  | CMap l => snd <$> List.find (fun p => match fst p with CInt z => z =? key | _ => false end) l
  | _ => None
  end.

Definition mapText (v : cborValue) (key : bytes) : option cborValue :=
  match v with
  | CMap l => snd <$> List.find (fun p => match fst p with CText s => s == key | _ => false end) l
  | _ => None
  end.

(** ** The encoders *)
Definition encodeCBORUnsigned (n : Z) : bytes :=
  if n <? 24 then [byte_of_Z n]
  else if n <? 256 then [byte_of_Z 24; byte_of_Z n]
  else [byte_of_Z 25; byte_of_Z (Z.shiftr n 8); byte_of_Z n].

(** [out[0] |= m << 5] *)
Definition or_major (m : Z) (out : bytes) : bytes :=
  match out with
  | b :: r => byte_of_Z (Z.lor (u8 b) (Z.shiftl m 5)) :: r
  | [] => []
  end.

Definition encodeCBORNegative (n : Z) : bytes := or_major 1 (encodeCBORUnsigned (wrap64 (Z.lnot n))).
Definition encodeCBORBytes (b : bytes) : bytes := or_major 2 (encodeCBORUnsigned (blen b)) ++ b.
Definition encodeCBORText (s : bytes) : bytes := or_major 3 (encodeCBORUnsigned (blen s)) ++ s.
Definition encodeCBORMap (pairs : list bytes) : bytes :=
  or_major 5 (encodeCBORUnsigned (Z.of_nat (length pairs))) ++ concat pairs.
Definition encodeCBORBool (v : bool) : bytes := if v then [byte_of_Z 245] else [byte_of_Z 244].

(** ** The canonical encoding of a value, from the encoders above *)
Fixpoint cbor_encode (v : cborValue) : bytes :=
  match v with
  | CInt z => if z <? 0 then encodeCBORNegative z else encodeCBORUnsigned z
  | CBytes b => encodeCBORBytes b
  | CText s => encodeCBORText s
  | CMap l => encodeCBORMap (map (fun kv => cbor_encode (fst kv) ++ cbor_encode (snd kv)) l)
  | CBool b => encodeCBORBool b
  end.

Definition distinct_keys (l : list (cborValue * cborValue)) : Prop := NoDup l.*1.

Fixpoint cbor_wf (v : cborValue) : Prop :=
  match v with
  | CInt z => -65536 <= z <= 65535
  | CBytes b | CText b => blen b <= 65535
  | CMap l => (length l <= 16)%nat /\ distinct_keys l /\
              foldr (fun kv P => map_key (fst kv) = true /\ cbor_wf (fst kv) /\ cbor_wf (snd kv) /\ P) True l
  | CBool _ => True
  end.

Example decode_demo :
  decodeCBOR (encodeCBORMap [encodeCBORUnsigned 1 ++ encodeCBORNegative (-7);
                             encodeCBORText (str "k") ++ encodeCBORBool true] ++ [Byte.xff])
  = Ok (CMap [(CInt 1, CInt (-7)); (CText (str "k"), CBool true)], [Byte.xff]).
Proof. vm_compute. reflexivity. Qed.
Arguments decodeCBORLen : simpl never.
Arguments take_bytes : simpl never.
Arguments encodeCBORUnsigned : simpl never.
Arguments or_major : simpl never.

(** ** Headers: the major type and the length of an item *)
Definition header (m n : Z) : bytes := or_major m (encodeCBORUnsigned n).

Lemma first_byte_table :
  forallb (fun b => (Z.shiftr b 5 * 32 + Z.land b 31 =? b) && (0 <=? Z.shiftr b 5) && (Z.shiftr b 5 <? 8)
                    && (0 <=? Z.land b 31) && (Z.land b 31 <? 32)) (seqZ 0 256) = true.
Proof. vm_compute. reflexivity. Qed.

Lemma first_byte b : 0 <= b < 256 ->
  Z.shiftr b 5 * 32 + Z.land b 31 = b /\ 0 <= Z.shiftr b 5 < 8 /\ 0 <= Z.land b 31 < 32.
Proof. intros Hb. pose proof (forallb_seqZ _ _ _ b first_byte_table Hb). simpl in *. bool_hyps. lia. Qed.

Lemma or_table :
  forallb (fun a => forallb (fun m => Z.lor a (Z.shiftl m 5) =? m * 32 + a) (seqZ 0 8)) (seqZ 0 32) = true.
Proof. vm_compute. reflexivity. Qed.

Lemma or_major_value a m : 0 <= a < 32 -> 0 <= m < 8 -> Z.lor a (Z.shiftl m 5) = m * 32 + a.
Proof.
  intros Ha Hm. pose proof (forallb_seqZ _ _ _ a or_table Ha) as H. cbv beta in H.
  apply (forallb_seqZ _ _ _ m) in H; [|done]. by apply Z.eqb_eq in H.
Qed.

Lemma first_byte_value m a : 0 <= m < 8 -> 0 <= a < 32 ->
  Z.shiftr (m * 32 + a) 5 = m /\ Z.land (m * 32 + a) 31 = a.
Proof. intros Hm Ha. pose proof (first_byte (m * 32 + a) ltac:(lia)). lia. Qed.

Lemma header_cons m n : 0 <= n <= 65535 -> 0 <= m < 8 ->
  exists a t, header m n = byte_of_Z (m * 32 + a) :: t /\ 0 <= a < 32 /\
    (forall r, decodeCBORLen a (t ++ r) = Ok (n, r)).
Proof.
  intros Hn Hm. unfold header, encodeCBORUnsigned.
  destruct (Z.ltb_spec n 24); [|destruct (Z.ltb_spec n 256)]; unfold or_major; rewrite u8_byte_of_Z, Z.mod_small by lia;
    rewrite or_major_value by lia; eexists _, _; (split; [done|]); (split; [lia|]); intros r; unfold decodeCBORLen; simpl.
  - by rewrite (proj2 (Z.ltb_lt _ _)) by lia.
  - rewrite u8_byte_of_Z, Z.mod_small by lia. by rewrite (proj2 (Z.ltb_ge _ _)) by lia.
  - rewrite !u8_byte_of_Z, Z.shiftr_div_pow2 by lia. change (2 ^ 8) with 256.
    pose proof (Z.div_mod n 256). assert (n / 256 < 256) by (apply Z.div_lt_upper_bound; lia).
    assert (0 <= n / 256) by (apply Z.div_pos; lia).
    rewrite (Z.mod_small (n / 256)) by lia.
    replace (n / 256 * 256 + n mod 256) with n by lia. by rewrite (proj2 (Z.leb_gt _ _)) by lia.
Qed.

Lemma header_inv b rest0 n rest :
  decodeCBORLen (Z.land (u8 b) 31) rest0 = Ok (n, rest) ->
  0 <= n <= 65535 /\ b :: rest0 = header (Z.shiftr (u8 b) 5) n ++ rest.
Proof.
  pose proof (u8_range b) as Hb. destruct (first_byte _ Hb) as (E & Hm & Ha).
  unfold decodeCBORLen, header, encodeCBORUnsigned. intros H.
  destruct (Z.ltb_spec (Z.land (u8 b) 31) 24).
  { injection H as <- <-. split; [lia|].
    rewrite (proj2 (Z.ltb_lt _ _)) by lia. unfold or_major. rewrite u8_byte_of_Z, Z.mod_small by lia.
    rewrite or_major_value by lia. simpl. by rewrite E, byte_of_Z_u8. }
  destruct (Z.eqb_spec (Z.land (u8 b) 31) 24) as [Ea|].
  { destruct rest0 as [|c r]; [done|]. destruct (Z.ltb_spec (u8 c) 24); [done|]. injection H as <- <-.
    pose proof (u8_range c). split; [lia|].
    rewrite (proj2 (Z.ltb_ge _ _)), (proj2 (Z.ltb_lt _ _)) by lia. unfold or_major.
    rewrite u8_byte_of_Z, Z.mod_small by lia. rewrite or_major_value by lia. simpl.
    rewrite <-Ea, E. by rewrite !byte_of_Z_u8. }
  destruct (Z.eqb_spec (Z.land (u8 b) 31) 25) as [Ea|]; [|done].
  destruct rest0 as [|c [|d r]]; [done|done|].
  destruct (Z.leb_spec (u8 c * 256 + u8 d) 255); [done|]. injection H as <- <-.
  pose proof (u8_range c). pose proof (u8_range d). split; [lia|].
  rewrite !(proj2 (Z.ltb_ge _ _)) by lia. unfold or_major.
  rewrite u8_byte_of_Z, Z.mod_small by lia. rewrite or_major_value by lia. simpl.
  rewrite <-Ea, E, byte_of_Z_u8. f_equal. f_equal; [|f_equal]; apply u8_inj; rewrite u8_byte_of_Z.
  - rewrite Z.shiftr_div_pow2 by lia. change (2 ^ 8) with 256.
    rewrite Z.div_add_l, (Z.div_small (u8 d)), Z.add_0_r by lia. by rewrite Z.mod_small by lia.
  - rewrite Z.add_comm, Z_mod_plus_full. by rewrite Z.mod_small by lia.
Qed.

(** ** The decoder accepts exactly the canonical encodings *)
Definition encode_pair (kv : cborValue * cborValue) : bytes := cbor_encode (fst kv) ++ cbor_encode (snd kv).
Definition pair_wf (kv : cborValue * cborValue) : Prop :=
  map_key (fst kv) = true /\ cbor_wf (fst kv) /\ cbor_wf (snd kv).

Lemma cbor_wf_map l :
  cbor_wf (CMap l) <-> (length l <= 16)%nat /\ distinct_keys l /\ Forall pair_wf l.
Proof.
  simpl. split; intros (A & B & C); (split; [done|]; split; [done|]); clear A B.
  - induction l as [|kv l IH]; simpl in *; [constructor|]. destruct C as (? & ? & ? & ?). constructor; [done|auto].
  - induction C as [|kv l (? & ? & ?) ? IH]; simpl; auto.
Qed.

Lemma sameCBORMapKey_true a b : sameCBORMapKey a b = true -> a = b.
Proof. destruct a, b; simpl; try done; intros H; bool_hyps; by subst. Qed.

Lemma sameCBORMapKey_refl k : map_key k = true -> sameCBORMapKey k k = true.
Proof. destruct k; simpl; try done; intros _; [by apply Z.eqb_eq|by apply bool_decide_eq_true]. Qed.

Lemma fresh_key (l : list (cborValue * cborValue)) k : map_key k = true ->
  existsb (fun pair => sameCBORMapKey (fst pair) k) l = false <-> k ∉ l.*1.
Proof.
  intros Hk. rewrite list_elem_of_fmap. split.
  - intros H (kv & -> & Hkv). pose proof (existsb_none _ _ _ H Hkv) as E. cbv beta in E.
    by rewrite sameCBORMapKey_refl in E.
  - intros H. apply not_true_is_false. intros (kv & Hin & E)%existsb_exists.
    apply H. exists kv. split; [by rewrite (sameCBORMapKey_true _ _ E)|by apply list_elem_of_In].
Qed.

Lemma encode_int z : -65536 <= z <= 65535 ->
  cbor_encode (CInt z) = if z <? 0 then header 1 (Z.lnot z) else header 0 z.
Proof.
  intros Hz. simpl. destruct (Z.ltb_spec z 0).
  - unfold encodeCBORNegative, wrap64, Z.lnot. by rewrite Z.mod_small by lia.
  - destruct (header_cons 0 z ltac:(lia) ltac:(lia)) as (a & t & E & _).
    unfold header, or_major in *. unfold encodeCBORUnsigned in *.
    by destruct (z <? 24), (z <? 256); rewrite Z.shiftl_0_l, Z.lor_0_r, byte_of_Z_u8.
Qed.

Lemma take_bytes_Ok n rest what b r : 0 <= n ->
  take_bytes n rest what = Ok (b, r) <-> rest = b ++ r /\ blen b = n.
Proof.
  intros Hn. unfold take_bytes, blen. destruct (Z.ltb_spec (Z.of_nat (length rest)) n) as [Hl|Hl].
  - split; [done|]. intros [-> Hb]. rewrite length_app in Hl. lia.
  - split; [intros [= <- <-]|intros [-> Hb]].
    + split; [by rewrite take_drop|]. rewrite length_take. lia.
    + replace (Z.to_nat n) with (length b) by lia. by rewrite take_app_length, drop_app_length.
Qed.

(** What the loop over the entries of a map returns, given what the decoder of
    one item returns. *)
Definition sound_decoder (decode : bytes -> result (cborValue * bytes)) : Prop :=
  forall s v r, decode s = Ok (v, r) -> cbor_wf v /\ s = cbor_encode v ++ r.

Lemma decode_pairs_sound decode n : sound_decoder decode ->
  forall pairs s v r, decode_pairs decode n pairs s = Ok (v, r) -> distinct_keys pairs ->
  exists l, v = CMap (pairs ++ l) /\ length l = n /\ s = concat (map encode_pair l) ++ r /\
            Forall pair_wf l /\ distinct_keys (pairs ++ l).
Proof.
  intros Hd. induction n as [|n IH]; intros pairs s v r H Hp; cbn [decode_pairs] in H.
  - apply Ok_inj in H. injection H as <- <-. exists []. by rewrite app_nil_r.
  - inv_ok. destruct r0 as [k next]. inv_ok. destruct r0 as [x next']. bool_hyps.
    apply Hd in E as [Hk ->]. apply Hd in E2 as [Hx ->]. apply fresh_key in E1; [|done].
    apply IH in H as (l & -> & Hl & -> & Hw & Hnd).
    + exists ((k, x) :: l). rewrite <-app_assoc in *. split; [done|]. split; [simpl; lia|].
      split; [unfold encode_pair; simpl; by rewrite <-!app_assoc|].
      split; [by constructor|done].
    + unfold distinct_keys. rewrite fmap_app. apply NoDup_app. split; [done|]. split.
      * intros y Hy Hin. apply list_elem_of_singleton in Hin as ->. done.
      * apply NoDup_singleton.
Qed.

Lemma decode_item_sound decode b rest0 n rest v r : sound_decoder decode ->
  decodeCBORLen (Z.land (u8 b) 31) rest0 = Ok (n, rest) ->
  decode_item decode (Z.shiftr (u8 b) 5) (Z.land (u8 b) 31) n rest = Ok (v, r) ->
  cbor_wf v /\ b :: rest0 = cbor_encode v ++ r.
Proof.
  intros Hd Hlen H. destruct (header_inv _ _ _ _ Hlen) as [Hn ->]. unfold decode_item in H.
  destruct (Z.eqb_spec (Z.shiftr (u8 b) 5) 0) as [->|].
  { injection H as <- <-. split; [simpl; lia|]. rewrite encode_int by lia. by rewrite (proj2 (Z.ltb_ge _ _)) by lia. }
  destruct (Z.eqb_spec (Z.shiftr (u8 b) 5) 1) as [->|].
  { injection H as <- <-. split; [unfold cbor_wf, Z.lnot; lia|]. rewrite encode_int by (unfold Z.lnot; lia).
    rewrite (proj2 (Z.ltb_lt _ _)) by (unfold Z.lnot; lia). by rewrite Z.lnot_involutive. }
  destruct (Z.eqb_spec (Z.shiftr (u8 b) 5) 2) as [->|].
  { inv_ok. destruct r0 as [x y]. injection H as <- <-. apply take_bytes_Ok in E as [-> Hx]; [|lia].
    split; [simpl; lia|]. simpl. unfold encodeCBORBytes, header. by rewrite Hx, <-app_assoc. }
  destruct (Z.eqb_spec (Z.shiftr (u8 b) 5) 3) as [->|].
  { inv_ok. destruct r0 as [x y]. injection H as <- <-. apply take_bytes_Ok in E as [-> Hx]; [|lia].
    split; [simpl; lia|]. simpl. unfold encodeCBORText, header. by rewrite Hx, <-app_assoc. }
  destruct (Z.eqb_spec (Z.shiftr (u8 b) 5) 7) as [->|].
  { unfold decodeCBORLen in Hlen.
    destruct (Z.eqb_spec (Z.land (u8 b) 31) 20) as [E|]; [|destruct (Z.eqb_spec (Z.land (u8 b) 31) 21) as [E|]; [|done]];
      rewrite E in Hlen; injection Hlen as <- <-; injection H as <- <-; done. }
  destruct (Z.eqb_spec (Z.shiftr (u8 b) 5) 5) as [->|]; [|done].
  destruct (Z.ltb_spec 16 n); [done|].
  apply decode_pairs_sound in H as (l & -> & Hl & -> & Hw & Hnd); [|done|constructor].
  split; [apply cbor_wf_map; simpl; rewrite Hl; split; [lia|done]|].
  simpl. unfold encodeCBORMap, header. rewrite length_map, <-app_assoc. by rewrite Hl, Z2Nat.id by lia.
Qed.

Lemma decode_fuel_sound fuel : sound_decoder (decode_fuel fuel).
Proof.
  induction fuel as [|fuel IH]; intros s v r H; cbn [decode_fuel] in H; [done|].
  destruct s as [|b rest0]; [done|]. inv_ok. destruct r0 as [n rest]. by eapply decode_item_sound.
Qed.

Lemma decode_fuel_bound fuel s v r : decode_fuel fuel s = Ok (v, r) -> blen s <= maxCBORBytes.
Proof. destruct fuel; cbn [decode_fuel]; [done|]. destruct s; [done|]. intros H. inv_ok. by bool_hyps. Qed.

(** ** Completeness *)
Definition complete_on (decode : bytes -> result (cborValue * bytes)) (fuel : nat) : Prop :=
  forall v r, cbor_wf v -> (length (cbor_encode v) <= fuel)%nat ->
    blen (cbor_encode v ++ r) <= maxCBORBytes -> decode (cbor_encode v ++ r) = Ok (v, r).

Lemma decode_pairs_complete decode fuel l : complete_on decode fuel -> Forall pair_wf l ->
  forall pairs r, distinct_keys (pairs ++ l) -> (length (concat (map encode_pair l)) <= fuel)%nat ->
  blen (concat (map encode_pair l) ++ r) <= maxCBORBytes ->
  decode_pairs decode (length l) pairs (concat (map encode_pair l) ++ r) = Ok (CMap (pairs ++ l), r).
Proof.
  intros Hc Hw. induction Hw as [|[k x] l (Hk & Hwk & Hwx) ? IH]; intros pairs r Hd Hf Hb; simpl in *.
  { by rewrite app_nil_r. }
  unfold encode_pair, blen in *. simpl in *. rewrite !length_app in *.
  rewrite <-!app_assoc. rewrite Hc; [|done|lia|unfold blen; rewrite !length_app; lia]. simpl.
  unfold mbind, result_bind. rewrite Hk. simpl.
  assert (k ∉ pairs.*1) as Hfresh.
  { unfold distinct_keys in Hd. rewrite fmap_app in Hd. apply NoDup_app in Hd as (_ & Hd & _).
    intros Hin. apply (Hd _ Hin). simpl. apply list_elem_of_here. }
  apply fresh_key in Hfresh as ->; [|done]. simpl.
  rewrite Hc; [|done|lia|unfold blen; rewrite !length_app; lia]. simpl.
  rewrite IH; [by rewrite <-app_assoc|by rewrite <-app_assoc|lia|rewrite length_app; lia].
Qed.

Lemma header_length m n : 0 <= n <= 65535 -> 0 <= m < 8 -> (1 <= length (header m n))%nat.
Proof. intros Hn Hm. destruct (header_cons m n Hn Hm) as (a & t & -> & _). simpl. lia. Qed.

Lemma decode_fuel_header fuel m n body : 0 <= n <= 65535 -> 0 <= m < 8 ->
  blen (header m n ++ body) <= maxCBORBytes ->
  exists ai, decode_fuel (S fuel) (header m n ++ body) = decode_item (decode_fuel fuel) m ai n body.
Proof.
  intros Hn Hm Hb. destruct (header_cons m n Hn Hm) as (a & t & E & Ha & Hl). rewrite E in *.
  exists a. cbn [decode_fuel app]. unfold fail_if. rewrite (proj2 (Z.ltb_ge _ _)) by done.
  rewrite u8_byte_of_Z, Z.mod_small by lia. destruct (first_byte_value m a Hm Ha) as [-> ->].
  unfold mbind, result_bind. by rewrite Hl.
Qed.

Lemma encode_nonempty v : cbor_wf v -> (1 <= length (cbor_encode v))%nat.
Proof.
  destruct v as [z|b|s|l|b]; intros Hw.
  - simpl in Hw. rewrite encode_int by done. destruct (Z.ltb_spec z 0); apply header_length; unfold Z.lnot; lia.
  - pose proof (header_length 2 (blen b)). simpl in *. unfold encodeCBORBytes, header in *. rewrite length_app.
    pose proof (blen_nonneg b). lia.
  - pose proof (header_length 3 (blen s)). simpl in *. unfold encodeCBORText, header in *. rewrite length_app.
    pose proof (blen_nonneg s). lia.
  - apply cbor_wf_map in Hw as [Hl _]. pose proof (header_length 5 (Z.of_nat (length l))).
    simpl. unfold encodeCBORMap, header in *. rewrite length_app, length_map. lia.
  - by destruct b.
Qed.

Lemma decode_fuel_complete fuel : complete_on (decode_fuel fuel) fuel.
Proof.
  induction fuel as [|fuel IH]; intros v r Hw Hf Hb.
  { pose proof (encode_nonempty v Hw). lia. }
  destruct v as [z|b|s|l|b].
  - simpl in Hw. rewrite encode_int in * by done. destruct (Z.ltb_spec z 0).
    + destruct (decode_fuel_header fuel 1 (Z.lnot z) r) as [ai ->]; unfold Z.lnot in *; [lia..|done|].
      unfold decode_item. simpl. unfold Z.lnot. repeat f_equal. lia.
    + by destruct (decode_fuel_header fuel 0 z r) as [ai ->]; [lia..|done|].
  - cbn [cbor_encode cbor_wf] in *. unfold encodeCBORBytes in *. fold (header 2 (blen b)) in *. rewrite <-app_assoc in *.
    pose proof (blen_nonneg b). destruct (decode_fuel_header fuel 2 (blen b) (b ++ r)) as [ai ->]; [lia..|done|].
    unfold decode_item. simpl. by rewrite (proj2 (take_bytes_Ok (blen b) (b ++ r) _ b r ltac:(lia))) by done.
  - cbn [cbor_encode cbor_wf] in *. unfold encodeCBORText in *. fold (header 3 (blen s)) in *. rewrite <-app_assoc in *.
    pose proof (blen_nonneg s). destruct (decode_fuel_header fuel 3 (blen s) (s ++ r)) as [ai ->]; [lia..|done|].
    unfold decode_item. simpl. by rewrite (proj2 (take_bytes_Ok (blen s) (s ++ r) _ s r ltac:(lia))) by done.
  - apply cbor_wf_map in Hw as (Hl & Hd & Hp). cbn [cbor_encode] in *. unfold encodeCBORMap in *.
    rewrite length_map in *. fold (header 5 (Z.of_nat (length l))) in *. rewrite <-app_assoc in *.
    change (map _ l) with (map encode_pair l) in *.
    pose proof (header_length 5 (Z.of_nat (length l)) ltac:(lia) ltac:(lia)).
    destruct (decode_fuel_header fuel 5 (Z.of_nat (length l)) (concat (map encode_pair l) ++ r)) as [ai ->];
      [lia..|done|].
    unfold decode_item. simpl. rewrite (proj2 (Z.ltb_ge _ _)), Nat2Z.id by lia.
    unfold blen in *. rewrite !length_app in *.
    apply (decode_pairs_complete _ fuel l IH Hp []); [done|lia|unfold blen; rewrite length_app; lia].
  - assert (cbor_encode (CBool b) = header 7 (if b then 21 else 20)) as E by (by destruct b).
    rewrite E in *. cbn [decode_fuel]. destruct b; simpl in *; unfold fail_if;
      (rewrite (proj2 (Z.ltb_ge _ _)) by done); done.
Qed.

(** The canonical encoding of a well-formed value decodes to it. *)
Lemma decodeCBOR_complete s v r : cbor_wf v /\ s = cbor_encode v ++ r /\ blen s <= maxCBORBytes -> decodeCBOR s = Ok (v, r).
Proof.
  intros (Hw & -> & Hb). unfold decodeCBOR. set (n := S _). apply (decode_fuel_complete n); [done| |done].
  subst n. rewrite length_app. lia.
Qed.

(** C40: Decoder correctness: [decodeCBOR] returns a value and the remaining input exactly
    when the input, of at most [maxCBORBytes] bytes, starts with the canonical
    encoding of a well-formed value; so two different byte strings never decode
    to the same value. *)
Theorem cbor_decoder_exact s v r :
  decodeCBOR s = Ok (v, r) <->
  cbor_wf v /\ s = cbor_encode v ++ r /\ blen s <= maxCBORBytes.
Proof.
  split; [|apply decodeCBOR_complete].
  unfold decodeCBOR. intros H. destruct (decode_fuel_sound _ _ _ _ H) as [Hw ->]. split; [done|]. split; [done|].
  by eapply decode_fuel_bound.
Qed.

(** ** The fuel is never exhausted *)
Lemma decodeCBORLen_fuel ai s : decodeCBORLen ai s <> Err out_of_fuel.
Proof. unfold decodeCBORLen. repeat case_match; done. Qed.

Lemma decodeCBORLen_shorter ai s n r : decodeCBORLen ai s = Ok (n, r) -> (length r <= length s)%nat.
Proof. unfold decodeCBORLen. repeat case_match; intros [=]; subst; simpl; lia. Qed.

Lemma decode_pairs_fuel decode fuel n : sound_decoder decode ->
  (forall s, (length s < fuel)%nat -> decode s <> Err out_of_fuel) ->
  forall pairs s, (length s < fuel)%nat -> decode_pairs decode n pairs s <> Err out_of_fuel.
Proof.
  intros Hd Hf. induction n as [|n IH]; intros pairs s Hs; cbn [decode_pairs]; [done|].
  pose proof (Hf s Hs) as E. destruct (decode s) as [[k next]|e] eqn:Ek; [|naive_solver].
  apply Hd in Ek as [Hk ->]. rewrite length_app in Hs. unfold mbind, result_bind, fail_if.
  destruct (negb (map_key k)); [done|]. destruct (existsb _ pairs); [done|].
  pose proof (Hf next ltac:(lia)) as E2. destruct (decode next) as [[x next']|e] eqn:Ex; [|naive_solver].
  apply Hd in Ex as [Hx ->]. rewrite length_app in Hs. apply IH. lia.
Qed.

Lemma decode_fuel_enough fuel s : (length s < fuel)%nat -> decode_fuel fuel s <> Err out_of_fuel.
Proof.
  revert s. induction fuel as [|fuel IH]; intros s Hs; [lia|]. cbn [decode_fuel].
  destruct s as [|b r0]; [done|]. unfold fail_if. destruct (_ <? _); [done|].
  unfold mbind at 1, result_bind at 1. pose proof (decodeCBORLen_fuel (Z.land (u8 b) 31) r0) as E. unfold mbind, result_bind.
  destruct (decodeCBORLen _ r0) as [[n rest]|e] eqn:El; [|naive_solver].
  apply decodeCBORLen_shorter in El. simpl in Hs. unfold decode_item, take_bytes, mbind, result_bind.
  assert (forall n, decode_pairs (decode_fuel fuel) n [] rest <> Err out_of_fuel) as Hp.
  { intros k. eapply decode_pairs_fuel; [apply decode_fuel_sound|exact IH|lia]. }
  unfold out_of_fuel in *. repeat (case_match; simplify_eq; try done).
Qed.

(** Two decoders that agree on shorter inputs drive the loop alike. *)
Lemma decode_pairs_agree d1 d2 fuel n : sound_decoder d1 ->
  (forall s, (length s < fuel)%nat -> d1 s = d2 s) ->
  forall pairs s, (length s < fuel)%nat -> decode_pairs d1 n pairs s = decode_pairs d2 n pairs s.
Proof.
  intros Hd Hf. induction n as [|n IH]; intros pairs s Hs; cbn [decode_pairs]; [done|].
  rewrite <- (Hf s Hs). destruct (d1 s) as [[k next]|e] eqn:Ek; [|done].
  apply Hd in Ek as [Hk ->]. rewrite length_app in Hs. unfold mbind, result_bind, fail_if.
  destruct (negb (map_key k)); [done|]. destruct (existsb _ pairs); [done|].
  rewrite <- (Hf next) by lia. destruct (d1 next) as [[x next']|e] eqn:Ex; [|done].
  apply Hd in Ex as [Hx ->]. rewrite length_app in Hs. apply IH. lia.
Qed.

Lemma decode_fuel_agree f1 f2 s : (length s < f1)%nat -> (length s < f2)%nat -> decode_fuel f1 s = decode_fuel f2 s.
Proof.
  revert f2 s. induction f1 as [|f1 IH]; intros [|f2] s H1 H2; [lia..|]. cbn [decode_fuel].
  destruct s as [|b r0]; [done|]. unfold fail_if. destruct (_ <? _); [done|].
  unfold mbind, result_bind. destruct (decodeCBORLen _ r0) as [[n rest]|e] eqn:El; [|done].
  apply decodeCBORLen_shorter in El. simpl in H1, H2. unfold decode_item.
  rewrite (decode_pairs_agree (decode_fuel f1) (decode_fuel f2) (S (length rest))); [done| | |lia].
  - apply decode_fuel_sound.
  - intros s Hs. apply IH; lia.
Qed.

(** Termination: on every input, [decodeCBOR] ends with a value or with one
    of the errors of the code, never because the fuel of the model is used up,
    and its answer is the same at any larger fuel; the recursion through nested
    maps is therefore bounded by the length of the input. *)
Theorem cbor_decode_terminates s extra :
  decodeCBOR s <> Err out_of_fuel /\ decode_fuel (S (length s) + extra) s = decodeCBOR s.
Proof. split; [apply decode_fuel_enough; lia|]. apply decode_fuel_agree; lia. Qed.

Lemma header_at_most m n : (length (header m n) <= 3)%nat.
Proof. unfold header, encodeCBORUnsigned, or_major. repeat case_match; simpl in *; simplify_eq; simpl; lia. Qed.
