(* ===== verification/P256.v ===== *)
(** * P-256 keys and signatures ([src/internal/webauthn/p256.go], [der.go])

    The curve of [crypto/elliptic.P256] as arithmetic modulo its prime, the key
    parsers, the DER signature reader (the part of [encoding/asn1] it uses) and
    the normalisation of signatures to their low half.  [EcdsaVerify] is the
    interface to [crypto/ecdsa.Verify] the clients are proved against;
    [p256_verify] is the verification equation of the standard and its
    instance. *)
From Stdlib Require Import Strings.Byte.
From S2P Require Import Prelude Sha256.

(** ** The curve *)
Definition p256_P : Z := 2 ^ 256 - 2 ^ 224 + 2 ^ 192 + 2 ^ 96 - 1.
Definition p256_N : Z := 2 ^ 256 - 2 ^ 224 + 2 ^ 192 - 89188191075325690597107910205041859247.
Definition p256_B : Z := 41058363725152142129326129780047268409114441015993725554835256314039467401291.
Definition p256_G : Z * Z :=
  (48439561293906451759052585252797914202762949526041747995844080717082404635286,
   36134250956749795798585127919587881956611106672985015071877198253568414405109).

(** Big-endian value ([big.Int.SetBytes]); [FillBytes] is [be_bytes]. *)
Definition be_value (b : bytes) : Z := le_value (rev b).

Fixpoint pow_mod (x : Z) (e : positive) (m : Z) : Z :=
  match e with
  | xH => x mod m
  | xO e => let h := pow_mod x e m in (h * h) mod m
  | xI e => let h := pow_mod x e m in (h * h mod m * x) mod m
  end.

(** Inverses by Fermat's little theorem, as [crypto/internal/fips140] takes them. *)
Definition inv_mod (x m : Z) : Z := pow_mod x (Z.to_pos (m - 2)) m.

(** [x^3 - 3x + b] *)
Definition p256_polynomial (x : Z) : Z := (x * x * x - 3 * x + p256_B) mod p256_P.

Definition on_curve (x y : Z) : bool :=
  (0 <=? x) && (x <? p256_P) && (0 <=? y) && (y <? p256_P) && ((y * y) mod p256_P =? p256_polynomial x).

(** Affine points; [None] is the point at infinity. *)
Definition point : Type := option (Z * Z).

Definition point_add (p q : point) : point :=
  match p, q with
  | None, _ => q
  | _, None => p
  | Some (x1, y1), Some (x2, y2) =>
      if (x1 =? x2) && ((y1 + y2) mod p256_P =? 0) then None
      else
        let l := (if x1 =? x2 then (3 * x1 * x1 - 3) * inv_mod (2 * y1) p256_P
                  else (y2 - y1) * inv_mod (x2 - x1) p256_P) mod p256_P in
        let x3 := (l * l - x1 - x2) mod p256_P in
        Some (x3, (l * (x1 - x3) - y1) mod p256_P)
  end.

Fixpoint point_mul (k : positive) (p : point) : point :=
  match k with
  | xH => p
  | xO k => let h := point_mul k p in point_add h h
  | xI k => let h := point_mul k p in point_add (point_add h h) p
  end.

Definition scalar_mul (k : Z) (p : point) : point :=
  match k with Z.pos k => point_mul k p | _ => None end.

(** ** Keys *)
Record PublicKey := { pk_X : Z; pk_Y : Z }.

(** [elliptic.UnmarshalCompressed] on the P-256 curve: the square root of the
    polynomial is its [(p+1)/4]-th power when there is one, and the prefix
    chooses the parity. *)
Definition p256_sqrt (z : Z) : option Z :=
  let y := pow_mod z (Z.to_pos ((p256_P + 1) / 4)) p256_P in
  if (y * y) mod p256_P =? z then Some y else None.

Definition UnmarshalCompressed (b : bytes) : option (Z * Z) :=
  match b with
  | b0 :: xs =>
      let x := be_value xs in
      if negb (blen b =? 33) || negb ((u8 b0 =? 2) || (u8 b0 =? 3)) || (p256_P <=? x) then None
      else y ← p256_sqrt (p256_polynomial x);
           Some (x, if Z.odd y && (u8 b0 =? 3) || negb (Z.odd y) && (u8 b0 =? 2) then y
                    else (- y) mod p256_P)
  | [] => None
  end.

(** [ecdsa.ParseUncompressedPublicKey] *)
Definition ParseUncompressedPublicKey (b : bytes) : option PublicKey :=
  match b with
  | b0 :: r =>
      let x := be_value (take 32 r) in
      let y := be_value (drop 32 r) in
      if (blen b =? 65) && (u8 b0 =? 4) && on_curve x y then Some {| pk_X := x; pk_Y := y |} else None
  | [] => None
  end.

Definition uncompressed (x y : Z) : bytes := byte_of_Z 4 :: be_bytes 32 x ++ be_bytes 32 y.

Definition ParseCompressedP256 (b : bytes) : result PublicKey :=
  if negb (blen b =? 33) then Err (ErrMsg "p256 must be 33-byte compressed")
  else match b with
  | b0 :: _ =>
      if negb (u8 b0 =? 2) && negb (u8 b0 =? 3) then Err (ErrMsg "p256 compressed prefix")
      else match UnmarshalCompressed b with
      | None => Err (ErrMsg "p256 point is off-curve")
      | Some (x, y) =>
          match ParseUncompressedPublicKey (uncompressed x y) with
          | None => Err (ErrMsg "p256 point is off-curve")
          | Some pub => Ok pub
          end
      end
  | [] => Err (ErrMsg "p256 compressed prefix")
  end.

(** ** ECDSA verification *)
Class EcdsaVerify := ecdsa_Verify : PublicKey -> bytes -> Z -> Z -> bool.

(** The equation of FIPS 186-4 for a 32-byte hash. *)
Definition p256_verify (pub : PublicKey) (hash : bytes) (r s : Z) : bool :=
  if (r <=? 0) || (s <=? 0) || (p256_N <=? r) || (p256_N <=? s) then false
  else
    let w := inv_mod s p256_N in
    let u1 := (be_value hash mod p256_N * w) mod p256_N in
    let u2 := (r * w) mod p256_N in
    match point_add (scalar_mul u1 (Some p256_G)) (scalar_mul u2 (Some (pk_X pub, pk_Y pub))) with
    | Some (x, _) => x mod p256_N =? r
    | None => false
    end.

#[global] Instance p256_ecdsa : EcdsaVerify := p256_verify.

(** ** DER ([encoding/asn1], a SEQUENCE of two INTEGERs) *)
Definition der_error : error := ErrMsg "der ecdsa: %w".

(** The [n] octets of a long length. *)
Fixpoint der_length_octets (n : nat) (acc : Z) (s : bytes) : result (Z * bytes) :=
  match n with
  | O => Ok (acc, s)
  | S n =>
      match s with
      | [] => Err (ErrMsg "truncated tag or length")
      | b :: s =>
          if 8388608 <=? acc then Err (ErrMsg "length too large")
          else let acc := acc * 256 + u8 b in
               if acc =? 0 then Err (ErrMsg "superfluous leading zeros in length")
               else der_length_octets n acc s
      end
  end.

(** [parseTagAndLength] for an element whose identifier octet must be [tag]. *)
Definition der_header (tag : Z) (s : bytes) : result (Z * bytes) :=
  match s with
  | [] => Err (ErrMsg "sequence truncated")
  | t :: s =>
      match s with
      | [] => Err (ErrMsg "truncated tag or length")
      | b :: r =>
          '(len, r) ← (if u8 b <? 128 then Ok (u8 b, r)
                       else if u8 b =? 128 then Err (ErrMsg "indefinite length found (not DER)")
                       else '(len, r) ← der_length_octets (Z.to_nat (Z.land (u8 b) 127)) 0 r;
                            if len <? 128 then Err (ErrMsg "non-minimal length") else Ok (len, r));
          if negb (u8 t =? tag) then Err (ErrMsg "tags don't match") else Ok (len, r)
      end
  end.

(** One element: its contents and what follows it. *)
Definition der_element (tag : Z) (s : bytes) : result (bytes * bytes) :=
  '(len, r) ← der_header tag s;
  if blen r <? len then Err (ErrMsg "data truncated")
  else Ok (take (Z.to_nat len) r, drop (Z.to_nat len) r).

(** [parseBigInt]: minimal two's complement. *)
Definition der_int (b : bytes) : result Z :=
  match b with
  | [] => Err (ErrMsg "empty integer")
  | b0 :: r =>
      let minimal := match r with
                     | b1 :: _ => negb ((u8 b0 =? 0) && (u8 b1 <? 128) || (u8 b0 =? 255) && (128 <=? u8 b1))
                     | [] => true
                     end in
      if negb minimal then Err (ErrMsg "integer not minimally-encoded")
      else Ok (if 128 <=? u8 b0 then be_value b - 256 ^ blen b else be_value b)
  end.

(** [asn1.Unmarshal] into [struct { R, S *big.Int }]; bytes after [S] inside
    the sequence are allowed. *)
Definition der_unmarshal (der : bytes) : result (Z * Z * bytes) :=
  '(inner, rest) ← der_element 48 der;
  '(rb, inner) ← der_element 2 inner;
  r ← der_int rb;
  '(sb, _) ← der_element 2 inner;
  s ← der_int sb;
  Ok (r, s, rest).

Definition canonicalScalar (v : Z) : result unit :=
  if v <? 0 then Err (ErrMsg "der ecdsa: negative %s")
  else if v =? 0 then Err (ErrMsg "der ecdsa: zero %s")
  else Ok tt.

Definition half_order : Z := Z.shiftr p256_N 1.

Definition CompactLowS (der : bytes) : result bytes :=
  '(r, s, rest) ← or_err der_error (der_unmarshal der);
  _ ← fail_if (rest != []) (ErrMsg "der ecdsa: trailing bytes");
  _ ← canonicalScalar r;
  _ ← canonicalScalar s;
  _ ← fail_if ((r <=? 0) || (p256_N <=? r)) (ErrMsg "der ecdsa: r out of range");
  _ ← fail_if ((s <=? 0) || (p256_N <=? s)) (ErrMsg "der ecdsa: s out of range");
  let s := if half_order <? s then p256_N - s else s in
  Ok (be_bytes 32 r ++ be_bytes 32 s).

(** ** Verification of a compact signature *)
Definition SignedMessage (authenticatorData clientDataJSON : bytes) : bytes :=
  authenticatorData ++ sha256 clientDataJSON.

Definition Digest (authenticatorData clientDataJSON : bytes) : bytes :=
  sha256 (SignedMessage authenticatorData clientDataJSON).

Section Verification.
Context `{EcdsaVerify}.

(** The checks [VerifyES256] and [VerifyDigestLowS] share, on the decoded
    [r] and [s]. *)
Definition compact_scalars (compact : bytes) : result (Z * Z) :=
  _ ← fail_if (negb (blen compact =? 64)) (ErrMsg "compact signature must be 64 bytes");
  let r := be_value (take 32 compact) in
  let s := be_value (drop 32 compact) in
  _ ← fail_if ((r <=? 0) || (s <=? 0) || (p256_N <=? r) || (p256_N <=? s)) (ErrMsg "compact signature out of range");
  _ ← fail_if (half_order <? s) (ErrMsg "compact signature is not low-S");
  Ok (r, s).

Definition VerifyES256 (pub : option PublicKey) (authenticatorData clientDataJSON compact : bytes) : result unit :=
  match pub with
  | None => Err (ErrMsg "nil p256 public key")
  | Some pub =>
      '(r, s) ← compact_scalars compact;
      fail_if (negb (ecdsa_Verify pub (Digest authenticatorData clientDataJSON) r s)) (ErrMsg "es256 signature invalid")
  end.

Definition VerifyDigestLowS (pub : option PublicKey) (digest compact : bytes) : result unit :=
  match pub with
  | None => Err (ErrMsg "nil p256 public key")
  | Some pub =>
      _ ← fail_if (negb (blen digest =? 32)) (ErrMsg "digest must be 32 bytes");
      '(r, s) ← compact_scalars compact;
      fail_if (negb (ecdsa_Verify pub digest r s)) (ErrMsg "direct p256 signature invalid")
  end.
End Verification.

Lemma pow_mod_range x e m : 0 < m -> 0 <= pow_mod x e m < m.
Proof. intros Hm. destruct e; cbn [pow_mod]; apply Z.mod_pos_bound; lia. Qed.

#[local] Opaque pow_mod.
Arguments pow_mod : simpl never.
Arguments be_bytes : simpl never.
Arguments be_value : simpl never.
Arguments UnmarshalCompressed : simpl never.
Arguments ParseUncompressedPublicKey : simpl never.
Arguments uncompressed : simpl never.
Arguments p256_N : simpl never.
Arguments p256_P : simpl never.
Arguments half_order : simpl never.
Arguments p256_polynomial : simpl never.
Arguments p256_sqrt : simpl never.
Arguments on_curve : simpl never.

(** ** Fixed-width integers *)
Lemma be_value_be_bytes n z : be_value (be_bytes n z) = z mod 256 ^ Z.of_nat n.
Proof. unfold be_value. by rewrite be_bytes_rev, rev_involutive, le_value_le_bytes. Qed.

Lemma le_value_range b : 0 <= le_value b < 256 ^ Z.of_nat (length b).
Proof.
  induction b as [|x b IH]; [done|]. cbn [le_value length]. rewrite Nat2Z.inj_succ, Z.pow_succ_r by lia.
  pose proof (u8_range x). nia.
Qed.

Lemma be_value_range b : 0 <= be_value b < 256 ^ blen b.
Proof. unfold be_value, blen. pose proof (le_value_range (rev b)) as Hr. by rewrite length_rev in Hr. Qed.

Lemma le_bytes_le_value b : le_bytes (length b) (le_value b) = b.
Proof.
  induction b as [|x b IH]; [done|]. cbn [le_value length le_bytes].
  replace (Z.shiftr _ 8) with (le_value b).
  - rewrite IH. f_equal. apply u8_inj. rewrite u8_byte_of_Z, Z.mul_comm, Z_mod_plus_full.
    pose proof (u8_range x). by rewrite Z.mod_small.
  - pose proof (u8_range x). rewrite Z.shiftr_div_pow2 by lia. change (2 ^ 8) with 256.
    rewrite Z.mul_comm, Z.div_add, Z.div_small by lia. lia.
Qed.

Lemma be_bytes_be_value b : be_bytes (length b) (be_value b) = b.
Proof.
  unfold be_value. rewrite be_bytes_rev, <-(length_rev b), le_bytes_le_value. apply rev_involutive.
Qed.

Lemma be_bytes32_value z : 0 <= z < 2 ^ 256 -> be_value (be_bytes 32 z) = z.
Proof. intros Hz. rewrite be_value_be_bytes. apply Z.mod_small. by change (256 ^ Z.of_nat 32) with (2 ^ 256). Qed.

Lemma take_be32 z r : take 32 (be_bytes 32 z ++ r) = be_bytes 32 z.
Proof. apply take_app_length'. by rewrite be_bytes_length. Qed.
Lemma drop_be32 z r : drop 32 (be_bytes 32 z ++ r) = r.
Proof. apply drop_app_length'. by rewrite be_bytes_length. Qed.

(** ** Keys lie on the curve *)
Lemma p256_P_value : p256_P = 115792089210356248762697446949407573530086143415290314195533631308867097853951.
Proof. reflexivity. Qed.
Lemma p256_N_value : p256_N = 115792089210356248762697446949407573529996955224135760342422259061068512044369.
Proof. reflexivity. Qed.
Lemma half_order_value : half_order = 57896044605178124381348723474703786764998477612067880171211129530534256022184.
Proof. reflexivity. Qed.
Lemma pow_256_value : 2 ^ 256 = 115792089237316195423570985008687907853269984665640564039457584007913129639936.
Proof. reflexivity. Qed.

Lemma on_curve_range x y : on_curve x y = true -> 0 <= x < p256_P /\ 0 <= y < p256_P.
Proof. unfold on_curve. intros H. bool_hyps. lia. Qed.

Lemma parse_uncompressed x y pub : 0 <= x < 2 ^ 256 -> 0 <= y < 2 ^ 256 ->
  ParseUncompressedPublicKey (uncompressed x y) = Some pub <-> on_curve x y = true /\ pub = {| pk_X := x; pk_Y := y |}.
Proof.
  intros Hx Hy. unfold ParseUncompressedPublicKey, uncompressed.
  rewrite take_be32, drop_be32, !be_bytes32_value by done.
  replace (blen _ =? 65) with true
    by (symmetry; apply Z.eqb_eq; unfold blen; cbn [length]; by rewrite length_app, !be_bytes_length).
  change (u8 (byte_of_Z 4) =? 4) with true. simpl. destruct (on_curve x y); naive_solver.
Qed.

Lemma p256_sqrt_range z y : p256_sqrt z = Some y -> 0 <= y < p256_P.
Proof.
  unfold p256_sqrt. destruct (_ =? z); [|done]. intros E. apply (f_equal (default 0)) in E. simpl in E. subst y.
  apply pow_mod_range. reflexivity.
Qed.

(** Negation modulo an odd prime flips the parity of a non-zero residue. *)
Lemma neg_parity y : 0 < y < p256_P -> Z.odd ((- y) mod p256_P) = negb (Z.odd y).
Proof.
  intros Hy. replace ((- y) mod p256_P) with (p256_P - y).
  - by rewrite Z.odd_sub.
  - rewrite Z.mod_opp_l_nz, Z.mod_small; rewrite ?Z.mod_small; lia.
Qed.

(** A compressed key parses to the point of the curve with that abscissa and
    the parity of its prefix. *)
Lemma parse_compressed_spec b pub : ParseCompressedP256 b = Ok pub ->
  exists b0 xs, b = b0 :: xs /\ length xs = 32%nat /\ on_curve (pk_X pub) (pk_Y pub) = true /\
    xs = be_bytes 32 (pk_X pub) /\
    (pk_Y pub <> 0 -> b0 = byte_of_Z (if Z.odd (pk_Y pub) then 3 else 2)).
Proof.
  unfold ParseCompressedP256. destruct (Z.eqb_spec (blen b) 33) as [Hl|]; [|done].
  destruct b as [|b0 xs]; [done|]. cbn [negb]. destruct (_ && _) eqn:Hpre; [done|].
  destruct (UnmarshalCompressed (b0 :: xs)) as [[x y]|] eqn:E; [|done].
  destruct (ParseUncompressedPublicKey _) as [p|] eqn:Ep; [|done]. intros [= <-].
  unfold UnmarshalCompressed in E. rewrite (proj2 (Z.eqb_eq _ _) Hl) in E.
  assert (length xs = 32%nat) as Hxs by (unfold blen in Hl; simpl in Hl; lia).
  pose proof (be_value_range xs) as Hr. unfold blen in Hr. rewrite Hxs in Hr.
  change (256 ^ Z.of_nat 32) with (2 ^ 256) in Hr.
  destruct (_ || _) eqn:Hc in E; [done|]. bool_hyps.
  destruct (p256_sqrt _) as [y0|] eqn:Es; [|done]. injection E as <- Ey.
  apply p256_sqrt_range in Es. pose proof (Z.mod_pos_bound (- y0) p256_P ltac:(done)) as Hn.
  assert (0 <= y < p256_P) as Hy by (subst y; case_match; lia).
  rewrite p256_P_value in *.
  apply parse_uncompressed in Ep as [Hon ->]; rewrite ?pow_256_value; [|lia..]. simpl.
  exists b0, xs. split; [done|]. split; [done|]. split; [done|].
  split; [by rewrite <-Hxs, be_bytes_be_value|]. intros Hy0.
  rewrite <-(byte_of_Z_u8 b0). f_equal.
  destruct (Z.eqb_spec (u8 b0) 2) as [E2|], (Z.eqb_spec (u8 b0) 3) as [E3|]; try lia; try done.
  - rewrite E2. rewrite andb_true_r, andb_false_r in Ey. destruct (Z.odd y0) eqn:Ho; simpl in Ey; subst y.
    + rewrite <-p256_P_value, neg_parity, Ho; [done|]. rewrite p256_P_value. destruct (decide (y0 = 0)); [by subst|lia].
    + by rewrite Ho.
  - rewrite E3. rewrite andb_true_r, andb_false_r, orb_false_r in Ey. destruct (Z.odd y0) eqn:Ho; simpl in Ey; subst y.
    + by rewrite Ho.
    + rewrite <-p256_P_value, neg_parity, Ho; [done|]. rewrite p256_P_value.
      destruct (decide (y0 = 0)) as [->|]; [done|lia].
Qed.

(** ** Signatures *)
(** Two's complement without redundant leading zero octets. *)
Fixpoint der_minimal (s : bytes) : bytes :=
  match s with
  | b0 :: r => match r with
               | b1 :: _ => if (u8 b0 =? 0) && (u8 b1 <? 128) then der_minimal r else s
               | [] => s
               end
  | [] => []
  end.

(** [asn1.Marshal] of [struct { R, S *big.Int }] for positive scalars of at
    most 256 bits. *)
Definition der_tlv (tag : Z) (b : bytes) : bytes := byte_of_Z tag :: byte_of_Z (blen b) :: b.
Definition der_marshal (r s : Z) : bytes :=
  der_tlv 48 (der_tlv 2 (der_minimal (be_bytes 33 r)) ++ der_tlv 2 (der_minimal (be_bytes 33 s))).

Lemma der_minimal_spec s b0 r : s = b0 :: r -> u8 b0 < 128 ->
  (length (der_minimal s) <= length s)%nat /\ der_int (der_minimal s) = Ok (be_value s).
Proof.
  revert b0 r. induction s as [|x s IH]; intros b0 r E Hb; [done|]. injection E as -> ->. cbn [der_minimal].
  assert (forall z, be_value (byte_of_Z 0 :: z) = be_value z) as Hz.
  { intros z. unfold be_value. simpl. clear. induction (rev z) as [|y l IHl]; [done|].
    cbn [app le_value]. by rewrite IHl. }
  destruct r as [|b1 r].
  { split; [done|]. unfold der_int. simpl. by rewrite (proj2 (Z.leb_gt _ _)). }
  destruct (Z.eqb_spec (u8 b0) 0) as [E0|E0]; [destruct (Z.ltb_spec (u8 b1) 128) as [H1|H1]|]; cbn [andb].
  - destruct (IH b1 r eq_refl H1) as [Hl ->]. split; [simpl in *; lia|].
    rewrite <-(byte_of_Z_u8 b0), E0. by rewrite Hz.
  - split; [done|]. unfold der_int. rewrite E0. simpl. rewrite (proj2 (Z.ltb_ge _ _)) by done. done.
  - split; [done|]. unfold der_int. rewrite (proj2 (Z.eqb_neq _ _) E0). simpl.
    rewrite (proj2 (Z.eqb_neq (u8 b0) 255)), (proj2 (Z.leb_gt 128 (u8 b0))) by lia. done.
Qed.

Lemma der_minimal_int z : 0 <= z < 2 ^ 256 ->
  (length (der_minimal (be_bytes 33 z)) <= 33)%nat /\ der_int (der_minimal (be_bytes 33 z)) = Ok z.
Proof.
  intros Hz. pose proof (be_bytes_length 33 z) as Hl.
  destruct (der_minimal_spec (be_bytes 33 z) (byte_of_Z (Z.shiftr z (8 * Z.of_nat 32))) (be_bytes 32 z)) as [H1 H2].
  - done.
  - rewrite u8_byte_of_Z, Z.shiftr_div_pow2 by lia. change (8 * Z.of_nat 32) with 256. by rewrite Z.div_small.
  - split; [by rewrite Hl in H1|]. rewrite H2, be_value_be_bytes, Z.mod_small; [done|].
    change (256 ^ Z.of_nat 33) with (256 * 2 ^ 256). lia.
Qed.

Lemma der_element_tlv tag b rest : 0 <= tag < 256 -> blen b < 128 ->
  der_element tag (der_tlv tag b ++ rest) = Ok (b, rest).
Proof.
  intros Ht Hb. pose proof (blen_nonneg b). unfold der_element, der_header, der_tlv. cbn [app].
  rewrite !u8_byte_of_Z, !(Z.mod_small _ 256) by lia. rewrite (proj2 (Z.ltb_lt _ _)) by done.
  unfold mbind, result_bind. rewrite Z.eqb_refl. cbn [negb]. unfold blen in *.
  rewrite (proj2 (Z.ltb_ge _ _)) by (rewrite length_app; lia). rewrite Nat2Z.id.
  by rewrite take_app_length, drop_app_length.
Qed.

Lemma der_unmarshal_marshal r s : 0 <= r < 2 ^ 256 -> 0 <= s < 2 ^ 256 ->
  der_unmarshal (der_marshal r s) = Ok (r, s, []).
Proof.
  intros Hr Hs. destruct (der_minimal_int r Hr) as [Lr Er]. destruct (der_minimal_int s Hs) as [Ls Es].
  unfold der_unmarshal, der_marshal. rewrite <-(app_nil_r (der_tlv 48 _)).
  rewrite der_element_tlv; [|lia|unfold der_tlv, blen; rewrite length_app; cbn [length]; lia].
  unfold mbind, result_bind. rewrite der_element_tlv by (unfold blen; lia). rewrite Er.
  rewrite <-(app_nil_r (der_tlv 2 _)), der_element_tlv by (unfold blen; lia). by rewrite Es.
Qed.

Definition low_s (s : Z) : Z := Z.min s (p256_N - s).
Definition compact_sig (r s : Z) : bytes := be_bytes 32 r ++ be_bytes 32 s.

Lemma low_s_spec s : 0 < s < p256_N ->
  (if half_order <? s then p256_N - s else s) = low_s s /\ 0 < low_s s <= half_order /\ low_s (p256_N - s) = low_s s.
Proof.
  unfold low_s. rewrite p256_N_value, half_order_value. intros Hs. case_match; bool_hyps; lia.
Qed.

Lemma compact_scalars_sig r s : 0 < r < p256_N -> 0 < s <= half_order -> compact_scalars (compact_sig r s) = Ok (r, s).
Proof.
  intros Hr Hs. unfold compact_scalars, compact_sig. rewrite take_be32, drop_be32.
  pose proof p256_N_value. pose proof half_order_value. pose proof pow_256_value.
  rewrite !be_bytes32_value by lia. unfold blen. rewrite length_app, !be_bytes_length. cbn.
  unfold mbind, result_bind. unfold fail_if.
  rewrite !(proj2 (Z.leb_gt _ _)), (proj2 (Z.ltb_ge _ _)) by lia. done.
Qed.

(** What a successful [CompactLowS] returns. *)
Lemma CompactLowS_Ok der c : CompactLowS der = Ok c ->
  exists r s, der_unmarshal der = Ok (r, s, []) /\ 0 < r < p256_N /\ 0 < s < p256_N /\ c = compact_sig r (low_s s).
Proof.
  unfold CompactLowS. intros H. inv_ok. destruct r as [[r s] rest]. inv_ok. bool_hyps. subst.
  exists r, s. split; [done|]. split; [lia|]. split; [lia|].
  destruct (low_s_spec s ltac:(lia)) as [<- _]. done.
Qed.

Lemma CompactLowS_intro der r s : der_unmarshal der = Ok (r, s, []) -> 0 < r < p256_N -> 0 < s < p256_N ->
  CompactLowS der = Ok (compact_sig r (low_s s)).
Proof.
  intros E Hr Hs. unfold CompactLowS, canonicalScalar. rewrite E. unfold or_err, mbind, result_bind, fail_if. simpl.
  rewrite !(proj2 (Z.ltb_ge _ _)), !(proj2 (Z.eqb_neq _ _)), !(proj2 (Z.leb_gt _ _)) by lia. simpl.
  destruct (low_s_spec s Hs) as [-> _]. done.
Qed.

(** [CompactLowS] removes the malleability of ECDSA: the DER encodings of
    [(r, s)] and of its twin [(r, N - s)] become the same 64 bytes, whose second
    half is at most half the order, and [VerifyES256] reads back exactly those
    scalars. *)
Theorem compact_low_s_canonical r s :
  0 < r < p256_N -> 0 < s < p256_N ->
  CompactLowS (der_marshal r s) = Ok (compact_sig r (low_s s)) /\
  CompactLowS (der_marshal r (p256_N - s)) = CompactLowS (der_marshal r s) /\
  compact_scalars (compact_sig r (low_s s)) = Ok (r, low_s s).
Proof.
  intros Hr Hs. pose proof p256_N_value. pose proof pow_256_value.
  destruct (low_s_spec s Hs) as (_ & Hlow & Htwin).
  rewrite (CompactLowS_intro (der_marshal r s) r s) by (try apply der_unmarshal_marshal; lia).
  rewrite (CompactLowS_intro (der_marshal r (p256_N - s)) r (p256_N - s))
    by (try apply der_unmarshal_marshal; lia).
  rewrite Htwin. auto using compact_scalars_sig.
Qed.

Lemma compact_low_s_canonical_witness :
  0 < 1 < p256_N /\ 0 < p256_N - 2 < p256_N /\
  CompactLowS (der_marshal 1 (p256_N - 2)) = Ok (compact_sig 1 2).
Proof.
  assert (0 < 1 < p256_N) as H1 by (rewrite p256_N_value; lia).
  assert (0 < p256_N - 2 < p256_N) as H2 by (rewrite p256_N_value; lia).
  split; [exact H1|]. split; [exact H2|].
  destruct (compact_low_s_canonical 1 (p256_N - 2) H1 H2) as (E & _ & _).
  rewrite E. reflexivity.
Defined.
