(* ===== verification/GoTime.v ===== *)
(** * Time: the parts of Go's [time] package the ledger uses

    A [time.Time] is an instant: nanoseconds since the Unix epoch.  The
    ledger compares instants ([Before], [After], [Add], [Unix]), prints them
    in UTC with [time.RFC3339] / [time.RFC3339Nano], and reads them back with
    [time.Parse(time.RFC3339, s)].  Calendar arithmetic is the proleptic
    Gregorian calendar of [time.Date].

    The two theorems at the end are what the stored timestamps rely on:
    printing then parsing returns the instant cut to the second, and, for the
    four-digit years, the byte order of printed timestamps is the order of
    the instants (SQLite and Go both compare them as text). *)
From Stdlib Require Import Strings.Byte.
From S2P Require Import Prelude Text.

Definition second : Z := 1000000000.
Definition minute : Z := 60 * second.
Definition hour : Z := 60 * minute.
Definition day_secs : Z := 86400.

(** [t.Unix()] *)
Definition unix (t : Z) : Z := t / second.

(** ** Calendar *)
Definition is_leap (y : Z) : bool :=
  (y mod 4 =? 0) && (negb (y mod 100 =? 0) || (y mod 400 =? 0)).

(** Days from 0001-01-01 to January 1st of year [y]. *)
Definition days_before_year (y : Z) : Z :=
  let p := y - 1 in 365 * p + p / 4 - p / 100 + p / 400.

Definition days_before_month (m : Z) (leap : bool) : Z :=
  let l := if leap then 1 else 0 in
  match m with
  | 1 => 0 | 2 => 31 | 3 => 59 + l | 4 => 90 + l | 5 => 120 + l | 6 => 151 + l
  | 7 => 181 + l | 8 => 212 + l | 9 => 243 + l | 10 => 273 + l | 11 => 304 + l | 12 => 334 + l
  | _ => 365 + l
  end.

Definition days_in (m y : Z) : Z :=
  days_before_month (m + 1) (is_leap y) - days_before_month m (is_leap y).

(** Days from 0001-01-01 to 1970-01-01. *)
Definition unix_epoch_days : Z := 719162.

Definition days_from_civil (y m d : Z) : Z :=
  days_before_year y + days_before_month m (is_leap y) + (d - 1) - unix_epoch_days.

(** Year and day of the year of a day count from 0001-01-01: the cycles of
    400, 100, 4 and 1 years in turn. *)
Definition year_yday (d : Z) : Z * Z :=
  let n400 := d / 146097 in
  let d := d mod 146097 in
  let n100 := Z.min 3 (d / 36524) in
  let d := d - n100 * 36524 in
  let n4 := d / 1461 in
  let d := d mod 1461 in
  let n1 := Z.min 3 (d / 365) in
  (400 * n400 + 100 * n100 + 4 * n4 + n1 + 1, d - n1 * 365).

(** Month and day of a day of the year: the last month that starts at or
    before it. *)
Fixpoint month_search (n : nat) (leap : bool) (yday : Z) : Z :=
  match n with
  | O => 1
  | S k => if days_before_month (Z.of_nat n) leap <=? yday then Z.of_nat n
           else month_search k leap yday
  end.

Definition civil_from_days (days : Z) : Z * Z * Z :=
  let '(y, yday) := year_yday (days + unix_epoch_days) in
  let m := month_search 12 (is_leap y) yday in
  (y, m, yday - days_before_month m (is_leap y) + 1).

(** ** Printing *)

(** Zero-padded decimal of at least [w] digits ([appendInt] of [time]). *)
Definition pad_int (w : nat) (z : Z) : bytes :=
  let ds := format_uint (Z.abs z) in
  (if z <? 0 then str "-" else []) ++ replicate (w - length ds)%nat (dec_digit 0) ++ ds.

Definition digits2 (z : Z) : bytes := [dec_digit (z / 10); dec_digit (z mod 10)].

Definition format_secs (s : Z) : bytes :=
  let '(y, m, d) := civil_from_days (s / day_secs) in
  let r := s mod day_secs in
  pad_int 4 y ++ str "-" ++ digits2 m ++ str "-" ++ digits2 d ++ str "T" ++
  digits2 (r / 3600) ++ str ":" ++ digits2 (r / 60 mod 60) ++ str ":" ++ digits2 (r mod 60).

(** [t.UTC().Format(time.RFC3339)] *)
Definition format_rfc3339 (t : Z) : bytes := format_secs (unix t) ++ str "Z".

(** The fraction of [time.RFC3339Nano]: nine digits with trailing zeros
    removed, and nothing when they are all zero. *)
Fixpoint trim_zeros (s : bytes) : bytes :=
  match s with
  | [] => []
  | c :: s => let r := trim_zeros s in
              if bool_decide (r = []) && bool_decide (c = dec_digit 0) then [] else c :: r
  end.

Definition format_nanos (n : Z) : bytes :=
  let ds := trim_zeros (pad_int 9 n) in
  if bool_decide (ds = []) then [] else str "." ++ ds.

(** [t.UTC().Format(time.RFC3339Nano)] *)
Definition format_rfc3339nano (t : Z) : bytes :=
  format_secs (unix t) ++ format_nanos (t mod second) ++ str "Z".

(** ** Parsing: [time.Parse(time.RFC3339, s)] *)
Definition digit_val (c : byte) : option Z := if is_digit c then Some (u8 c - 48) else None.

Definition get2 (s : bytes) : option (Z * bytes) :=
  match s with
  | a :: b :: r => match digit_val a, digit_val b with
                   | Some x, Some y => Some (10 * x + y, r)
                   | _, _ => None
                   end
  | _ => None
  end.

(** [getnum(value, false)]: one or two digits (the hour field). *)
Definition get12 (s : bytes) : option (Z * bytes) :=
  match get2 s with
  | Some r => Some r
  | None => match s with
            | a :: r => match digit_val a with Some x => Some (x, r) | None => None end
            | [] => None
            end
  end.

Definition get4 (s : bytes) : option (Z * bytes) :=
  match get2 s with
  | Some (a, r) => match get2 r with
                   | Some (b, r) => Some (100 * a + b, r)
                   | None => None
                   end
  | None => None
  end.

Definition expect (c : byte) (s : bytes) : option bytes :=
  match s with
  | x :: r => if bool_decide (x = c) then Some r else None
  | [] => None
  end.

(** Nanoseconds of a fraction: the first nine digits. *)
Definition nanos_of (ds : bytes) : Z :=
  let ds := take 9 ds in
  match dec_value ds 0 with
  | Some v => v * 10 ^ (9 - blen ds)
  | None => 0
  end.

(** The optional fraction, introduced by a dot or a comma and a digit. *)
Definition get_fraction (s : bytes) : Z * bytes :=
  match s with
  | c :: r => if (bool_decide (c = Byte.x2e) || bool_decide (c = Byte.x2c)) &&
                 match r with d :: _ => is_digit d | [] => false end
              then let '(ds, r) := digit_run r in (nanos_of ds, r)
              else (0, s)
  | [] => (0, [])
  end.

(** The zone: [Z] or a signed [hh:mm], in seconds east of UTC.  The range
    test is the one of [time]: 24 hours and 60 minutes are accepted. *)
Definition get_zone (s : bytes) : option (Z * bytes) :=
  match s with
  | c :: r =>
      if bool_decide (c = Byte.x5a) then Some (0, r)
      else if bool_decide (c = Byte.x2b) || bool_decide (c = Byte.x2d) then
        match get2 r with
        | Some (hh, r) =>
            match expect Byte.x3a r with
            | Some r => match get2 r with
                        | Some (mm, r) =>
                            if (24 <? hh) || (60 <? mm) then None
                            else let off := (hh * 60 + mm) * 60 in
                                 Some ((if bool_decide (c = Byte.x2d) then - off else off), r)
                        | None => None
                        end
            | None => None
            end
        | None => None
        end
      else None
  | [] => None
  end.

(** The instant and the offset of its zone. *)
Definition parse_zoned (s : bytes) : option (Z * Z) :=
  '(y, s) ← get4 s; s ← expect Byte.x2d s;
  '(mo, s) ← get2 s; s ← expect Byte.x2d s;
  '(d, s) ← get2 s; s ← expect Byte.x54 s;
  '(h, s) ← get12 s; s ← expect Byte.x3a s;
  '(mi, s) ← get2 s; s ← expect Byte.x3a s;
  '(sec, s) ← get2 s;
  let '(ns, s) := get_fraction s in
  '(off, s) ← get_zone s;
  if bool_decide (s = []) && (1 <=? mo) && (mo <=? 12) && (1 <=? d) && (d <=? days_in mo y)
     && (h <? 24) && (mi <? 60) && (sec <? 60)
  then Some ((days_from_civil y mo d * day_secs + h * 3600 + mi * 60 + sec - off) * second + ns, off)
  else None.

Definition parse_rfc3339 (s : bytes) : option Z := fst <$> parse_zoned s.

Example format_epoch : format_rfc3339 0 = str "1970-01-01T00:00:00Z".
Proof. vm_compute. reflexivity. Qed.

Example format_2024 : format_rfc3339nano 1709210096123456000 = str "2024-02-29T12:34:56.123456Z".
Proof. vm_compute. reflexivity. Qed.

Example parse_offset : parse_rfc3339 (str "2024-02-29T13:34:56.5+01:00") = Some 1709210096500000000.
Proof. vm_compute. reflexivity. Qed.
Arguments month_search : simpl never.
Arguments digits2 : simpl never.
Arguments get2 : simpl never.
Arguments get4 : simpl never.
Arguments get12 : simpl never.
Arguments expect : simpl never.
Arguments get_zone : simpl never.
Arguments get_fraction : simpl never.
Arguments days_before_month : simpl never.

(** ** Calendar facts *)
Lemma year_parts a b c e :
  0 <= b <= 3 -> 0 <= c <= 24 -> 0 <= e <= 3 ->
  days_before_year (400 * a + 100 * b + 4 * c + e + 1)
    = 146097 * a + 36524 * b + 1461 * c + 365 * e /\
  is_leap (400 * a + 100 * b + 4 * c + e + 1)
    = (e =? 3) && (negb (c =? 24) || (b =? 3)).
Proof.
  intros Hb Hc He. unfold days_before_year, is_leap.
  split.
  - Z.div_mod_to_equations. lia.
  - apply eq_true_iff_eq. rewrite !andb_true_iff, !orb_true_iff, !negb_true_iff,
      !Z.eqb_neq, !Z.eqb_eq. Z.div_mod_to_equations. lia.
Qed.

Lemma year_yday_spec d y yd :
  year_yday d = (y, yd) ->
  days_before_year y + yd = d /\ 0 <= yd <= 365 /\ (yd = 365 -> is_leap y = true).
Proof.
  unfold year_yday. intros E. injection E as <- <-.
  set (a := d / 146097). set (r := d mod 146097).
  set (b := Z.min 3 (r / 36524)). set (r1 := r - b * 36524).
  set (c := r1 / 1461). set (r2 := r1 mod 1461).
  set (e := Z.min 3 (r2 / 365)).
  assert (d = 146097 * a + r /\ 0 <= r < 146097) as [Hd Hr]
    by (subst a r; Z.div_mod_to_equations; lia). clearbody a r.
  assert (0 <= b <= 3 /\ 0 <= r1 /\ (b < 3 -> r1 < 36524) /\ r1 < 36525) as (Hb & Hr1 & Hr1' & Hr1'')
    by (subst b r1; Z.div_mod_to_equations; lia).
  assert (r = r1 + b * 36524) as Hrb by (subst r1; lia). clearbody b r1.
  assert (r1 = 1461 * c + r2 /\ 0 <= r2 < 1461 /\ 0 <= c <= 24) as (Hc & Hr2 & Hc')
    by (subst c r2; Z.div_mod_to_equations; lia). clearbody c r2.
  assert (0 <= e <= 3 /\ 0 <= r2 - 365 * e <= 365 /\ (r2 - 365 * e = 365 -> e = 3)) as (He & Hyd & He3)
    by (subst e; Z.div_mod_to_equations; lia). clearbody e.
  destruct (year_parts a b c e Hb Hc' He) as [HB HL].
  split_and!; [rewrite HB; lia | lia | lia |].
  intros H365. rewrite HL, andb_true_iff, orb_true_iff, negb_true_iff, Z.eqb_neq, !Z.eqb_eq. lia.
Qed.

Lemma days_before_year_step y :
  days_before_year (y + 1) = days_before_year y + if is_leap y then 366 else 365.
Proof.
  unfold days_before_year, is_leap.
  destruct (Z.eqb_spec (y mod 4) 0), (Z.eqb_spec (y mod 100) 0), (Z.eqb_spec (y mod 400) 0);
    simpl; Z.div_mod_to_equations; lia.
Qed.

(** The month search returns the month that contains the day, for every day
    of the year. *)
Definition month_search_good (leap : bool) (yd : Z) : bool :=
  let m := month_search 12 leap yd in
  (1 <=? m) && (m <=? 12) && (days_before_month m leap <=? yd)
  && (yd <? days_before_month (m + 1) leap).

Lemma month_search_table :
  forallb (month_search_good true) (seqZ 0 366) && forallb (month_search_good false) (seqZ 0 365) = true.
Proof. vm_compute. reflexivity. Qed.

Lemma month_search_spec leap yd :
  0 <= yd <= 365 -> (yd = 365 -> leap = true) ->
  let m := month_search 12 leap yd in
  1 <= m <= 12 /\ days_before_month m leap <= yd < days_before_month (m + 1) leap.
Proof.
  intros Hyd Hl. pose proof month_search_table as T.
  apply andb_true_split in T as [T1 T2].
  assert (month_search_good leap yd = true) as G.
  { destruct leap; [by apply (forallb_seqZ _ _ _ _ T1); lia|].
    assert (yd <> 365) by (intros ->; discriminate (Hl eq_refl)).
    apply (forallb_seqZ _ _ _ _ T2). lia. }
  unfold month_search_good in G. cbv zeta in *. bool_hyps. lia.
Qed.

(** [civil_from_days] inverts [days_from_civil] and returns a valid date. *)
Lemma civil_from_days_spec days y m d :
  civil_from_days days = (y, m, d) ->
  days_from_civil y m d = days /\ 1 <= m <= 12 /\ 1 <= d <= days_in m y.
Proof.
  unfold civil_from_days, days_from_civil, days_in.
  destruct (year_yday (days + unix_epoch_days)) as [y' yd] eqn:E. intros [= <- <- <-].
  apply year_yday_spec in E as (H1 & H2 & H3).
  destruct (month_search_spec (is_leap y') yd H2 H3) as [Hm Hd]. cbv zeta in *. lia.
Qed.

Lemma days_before_year_mono y1 y2 :
  y1 < y2 -> days_before_year y1 + (if is_leap y1 then 366 else 365) <= days_before_year y2.
Proof.
  intros. rewrite <-days_before_year_step.
  unfold days_before_year. Z.div_mod_to_equations. lia.
Qed.

(** The month table, checked for all twelve months. *)
Definition month_table_good (leap : bool) (m : Z) : bool :=
  (0 <=? days_before_month m leap)
  && (days_before_month (m + 1) leap <=? if leap then 366 else 365)
  && (days_before_month (m + 1) leap - days_before_month m leap <=? 31)
  && forallb (fun m2 => (m2 <=? m) || (days_before_month (m + 1) leap <=? days_before_month m2 leap))
       (seqZ 1 12).

Lemma month_table_ok m leap : 1 <= m <= 12 -> month_table_good leap m = true.
Proof.
  intros. apply (forallb_seqZ _ 1 12); [|lia]. destruct leap; vm_compute; reflexivity.
Qed.

Lemma days_before_month_mono m1 m2 leap :
  1 <= m1 <= 12 -> 1 <= m2 <= 12 -> m1 < m2 ->
  days_before_month (m1 + 1) leap <= days_before_month m2 leap.
Proof.
  intros H1 H2 ?. pose proof (month_table_ok m1 leap H1) as T.
  unfold month_table_good in T. apply andb_true_split in T as [_ T].
  apply (forallb_seqZ _ _ _ m2) in T; [|lia].
  cbv beta in T. apply orb_prop in T as [T|T]; bool_hyps; lia.
Qed.

Lemma days_before_month_range m leap :
  1 <= m <= 12 -> 0 <= days_before_month m leap /\
  days_before_month (m + 1) leap <= if leap then 366 else 365.
Proof.
  intros Hm. pose proof (month_table_ok m leap Hm) as T. unfold month_table_good in T.
  bool_hyps. done.
Qed.

Lemma days_in_bound m y : 1 <= m <= 12 -> days_in m y <= 31.
Proof.
  intros Hm. pose proof (month_table_ok m (is_leap y) Hm) as T. unfold month_table_good in T.
  bool_hyps. done.
Qed.

(** ** Printed fields *)
Lemma get2_digits2 z r : 0 <= z < 100 -> get2 (digits2 z ++ r) = Some (z, r).
Proof.
  intros. unfold digits2, get2, digit_val. simpl.
  rewrite !is_digit_dec_digit, !u8_dec_digit by (Z.div_mod_to_equations; lia).
  do 2 f_equal. Z.div_mod_to_equations; lia.
Qed.

(** [appendInt(y, 4)] writes the four digits of a year. *)
Lemma pad_int_year y :
  0 <= y <= 9999 -> pad_int 4 y = digits2 (y / 100) ++ digits2 (y mod 100).
Proof.
  intros Hy. unfold pad_int, format_uint, digits2. rewrite Z.abs_eq by lia.
  assert (y <? 0 = false) as -> by lia. change 20%nat with (S (S (S (S 16)))). cbn [dec_digits].
  assert (y / 100 / 10 = y / 1000 /\ y / 10 / 10 = y / 100 /\ y / 10 / 10 / 10 = y / 1000
    /\ y mod 100 / 10 = (y / 10) mod 10 /\ (y mod 100) mod 10 = y mod 10) as (E1 & E2 & E3 & E4 & E5)
    by (repeat split; Z.div_mod_to_equations; lia).
  rewrite E1, E2, E4, E5.
  destruct (Z.ltb_spec y 10); [|destruct (Z.ltb_spec (y / 10) 10); [|destruct (Z.ltb_spec (y / 100) 10)]].
  - rewrite !(Z.div_small y), (Z.mod_small y 10) by lia. reflexivity.
  - rewrite !(Z.div_small y 100), !(Z.div_small y 1000), (Z.mod_small (y / 10)) by (Z.div_mod_to_equations; lia).
    reflexivity.
  - rewrite !(Z.div_small y 1000), (Z.mod_small (y / 100)) by (Z.div_mod_to_equations; lia). reflexivity.
  - assert (y / 100 / 10 <? 10 = true) as -> by (Z.div_mod_to_equations; lia). rewrite E1. reflexivity.
Qed.

(** The broken-down UTC time of a second count. *)
Definition broken (s : Z) : list Z :=
  let '(y, m, d) := civil_from_days (s / day_secs) in
  let r := s mod day_secs in
  [y / 100; y mod 100; m; d; r / 3600; r / 60 mod 60; r mod 60].

(** Seconds of the years 0000 to 9999. *)
Definition four_digit_year (s : Z) : Prop := -62167219200 <= s < 253402300800.

Lemma broken_spec s :
  four_digit_year s ->
  exists y m d h mi sec,
    civil_from_days (s / day_secs) = (y, m, d) /\
    h = (s mod day_secs) / 3600 /\ mi = (s mod day_secs) / 60 mod 60 /\ sec = (s mod day_secs) mod 60 /\
    0 <= y <= 9999 /\ 1 <= m <= 12 /\ 1 <= d <= days_in m y /\
    0 <= h < 24 /\ 0 <= mi < 60 /\ 0 <= sec < 60 /\
    s = days_from_civil y m d * day_secs + h * 3600 + mi * 60 + sec.
Proof.
  unfold four_digit_year, day_secs. intros Hs.
  destruct (civil_from_days (s / 86400)) as [[y m] d] eqn:E.
  exists y, m, d, ((s mod 86400) / 3600), ((s mod 86400) / 60 mod 60), ((s mod 86400) mod 60).
  pose proof (civil_from_days_spec _ _ _ _ E) as (Hd & Hm & Hdd).
  assert (0 <= y <= 9999).
  { unfold days_from_civil, unix_epoch_days in Hd.
    pose proof (days_before_month_range m (is_leap y) Hm) as [B1 B2].
    assert (-719528 <= s / 86400 <= 2932896) by (Z.div_mod_to_equations; lia).
    unfold days_in in Hdd. split.
    - destruct (Z_lt_le_dec y 0) as [Hy|]; [|done].
      pose proof (days_before_year_mono y 0 Hy) as M.
      change (days_before_year 0) with (-366) in M. destruct (is_leap y); lia.
    - destruct (Z_lt_le_dec 9999 y) as [Hy|]; [|done].
      pose proof (days_before_year_mono 9999 y Hy) as M.
      change (days_before_year 9999) with 3651694 in M. change (is_leap 9999) with false in M. cbv iota in M. lia. }
  split_and!; try done; try lia; rewrite ?Hd; Z.div_mod_to_equations; lia.
Qed.


(** ** Printing and parsing *)
Lemma format_rfc3339_fields t y m d h mi sec :
  civil_from_days (unix t / day_secs) = (y, m, d) ->
  h = (unix t mod day_secs) / 3600 -> mi = (unix t mod day_secs) / 60 mod 60 ->
  sec = (unix t mod day_secs) mod 60 -> 0 <= y <= 9999 ->
  format_rfc3339 t =
    digits2 (y / 100) ++ digits2 (y mod 100) ++ Byte.x2d :: digits2 m ++ Byte.x2d ::
    digits2 d ++ Byte.x54 :: digits2 h ++ Byte.x3a :: digits2 mi ++ Byte.x3a :: digits2 sec ++ [Byte.x5a].
Proof.
  intros E -> -> -> Hy. unfold format_rfc3339, format_secs. rewrite E, pad_int_year by done.
  rewrite <-!app_assoc. reflexivity.
Qed.

Lemma get12_digits2 z r : 0 <= z < 100 -> get12 (digits2 z ++ r) = Some (z, r).
Proof. intros. unfold get12. by rewrite get2_digits2. Qed.

Lemma get4_digits y r :
  0 <= y <= 9999 -> get4 (digits2 (y / 100) ++ digits2 (y mod 100) ++ r) = Some (y, r).
Proof.
  intros. unfold get4. rewrite !get2_digits2 by (Z.div_mod_to_equations; lia).
  do 2 f_equal. Z.div_mod_to_equations; lia.
Qed.

Lemma expect_cons c r : expect c (c :: r) = Some r.
Proof. unfold expect. by rewrite bool_decide_eq_true_2. Qed.

Lemma bind_Some_eq {A B} (x : A) (f : A -> option B) : (Some x ≫= f) = f x.
Proof. done. Qed.

Ltac parse_step := rewrite bind_Some_eq; cbv beta iota.

(** Printing an instant of a four-digit year and parsing the result returns
    the instant, cut to the second. *)
Lemma parse_format_rfc3339 t :
  four_digit_year (unix t) -> parse_rfc3339 (format_rfc3339 t) = Some (unix t * second).
Proof.
  intros Hy. destruct (broken_spec _ Hy) as
    (y & m & d & h & mi & sec & E & Eh & Emi & Es & By & Bm & Bd & Bh & Bmi & Bs & Hsum).
  pose proof (days_in_bound m y Bm).
  rewrite (format_rfc3339_fields t y m d h mi sec) by done.
  unfold parse_rfc3339, parse_zoned. rewrite get4_digits by lia. parse_step.
  do 2 (rewrite expect_cons; parse_step; rewrite get2_digits2 by lia; parse_step).
  rewrite expect_cons; parse_step; rewrite get12_digits2 by lia; parse_step.
  do 2 (rewrite expect_cons; parse_step; rewrite get2_digits2 by lia; parse_step).
  change (get_fraction [Byte.x5a]) with (0, [Byte.x5a]). cbv beta iota.
  change (get_zone [Byte.x5a]) with (Some (0, @nil byte)). parse_step.
  rewrite bool_decide_eq_true_2 by done.
  case_match eqn:C; [simpl; f_equal|exfalso]; lia.
Qed.

(** ** Byte order of printed timestamps *)
Fixpoint lex_ltb (a b : list Z) : bool :=
  match a, b with
  | [], [] => false
  | [], _ :: _ => true
  | _ :: _, [] => false
  | x :: a, y :: b => if x =? y then lex_ltb a b else x <? y
  end.

Lemma bytes_ltb_digits2 x y r s :
  0 <= x < 100 -> 0 <= y < 100 ->
  bytes_ltb (digits2 x ++ r) (digits2 y ++ s) = if x =? y then bytes_ltb r s else x <? y.
Proof.
  intros. unfold digits2. cbn [app bytes_ltb].
  rewrite !u8_dec_digit by (Z.div_mod_to_equations; lia).
  repeat case_match; bool_hyps; try done; try (apply eq_true_iff_eq; rewrite !Z.ltb_lt);
    Z.div_mod_to_equations; lia.
Qed.

Lemma bytes_ltb_cons c r s : bytes_ltb (c :: r) (c :: s) = bytes_ltb r s.
Proof. simpl. by rewrite Z.eqb_refl. Qed.

(** A valid date precedes the first of any later month and year. *)
Lemma days_from_civil_mono y m d y' m' d' :
  1 <= m <= 12 -> 1 <= d <= days_in m y -> 1 <= m' <= 12 -> 1 <= d' ->
  y < y' \/ (y = y' /\ m < m') \/ (y = y' /\ m = m' /\ d < d') ->
  days_from_civil y m d < days_from_civil y' m' d'.
Proof.
  unfold days_from_civil, days_in. intros Hm Hd Hm' Hd' [Hy|[[-> Hlt]|[-> [-> Hlt]]]]; [| |lia].
  - pose proof (days_before_year_mono y y' Hy).
    pose proof (days_before_month_range m (is_leap y) Hm).
    pose proof (days_before_month_range m' (is_leap y') Hm'). lia.
  - pose proof (days_before_month_mono m m' (is_leap y') Hm Hm' Hlt). lia.
Qed.

Lemma broken_lt s1 s2 :
  four_digit_year s1 -> four_digit_year s2 ->
  lex_ltb (broken s1) (broken s2) = true -> s1 < s2.
Proof.
  intros H1 H2.
  destruct (broken_spec _ H1) as
    (y & m & d & h & mi & sec & E & Eh & Em & Es & By & Bm & Bd & Bh & Bmi & Bs & Hsum).
  destruct (broken_spec _ H2) as
    (y' & m' & d' & h' & mi' & sec' & E' & Eh' & Em' & Es' & By' & Bm' & Bd' & Bh' & Bmi' & Bs' & Hsum').
  unfold broken. rewrite E, E', <-Eh, <-Em, <-Es, <-Eh', <-Em', <-Es'. clear E E' Eh Em Es Eh' Em' Es'.
  pose proof (days_from_civil_mono y m d y' m' d' Bm Bd Bm' (proj1 Bd')) as M.
  cbn [lex_ltb]. rewrite Hsum, Hsum'. clear Hsum Hsum'. unfold day_secs.
  repeat case_match; bool_hyps; intros; bool_hyps; try done;
    first [ assert (y < y') by (Z.div_mod_to_equations; lia); lia
          | assert (y = y') by (Z.div_mod_to_equations; lia); subst; lia ].
Qed.

Lemma broken_inj s1 s2 :
  four_digit_year s1 -> four_digit_year s2 -> broken s1 = broken s2 -> s1 = s2.
Proof.
  intros H1 H2.
  destruct (broken_spec _ H1) as
    (y & m & d & h & mi & sec & E & Eh & Em & Es & By & Bm & Bd & Bh & Bmi & Bs & Hsum).
  destruct (broken_spec _ H2) as
    (y' & m' & d' & h' & mi' & sec' & E' & Eh' & Em' & Es' & By' & Bm' & Bd' & Bh' & Bmi' & Bs' & Hsum').
  unfold broken. rewrite E, E', <-Eh, <-Em, <-Es, <-Eh', <-Em', <-Es'. intros [= Ea Eb -> -> -> -> ->].
  assert (y = y') as -> by (Z.div_mod_to_equations; lia). congruence.
Qed.

Lemma lex_ltb_total a b :
  length a = length b -> lex_ltb a b = false -> lex_ltb b a = false -> a = b.
Proof.
  revert b. induction a as [|x a IH]; intros [|y b] L; try discriminate; [done|]. simpl.
  rewrite (Z.eqb_sym y). destruct (Z.eqb_spec x y) as [->|]; [|lia].
  intros. f_equal. apply IH; auto.
Qed.

Lemma broken_order s1 s2 :
  four_digit_year s1 -> four_digit_year s2 -> lex_ltb (broken s1) (broken s2) = (s1 <? s2).
Proof.
  intros H1 H2. destruct (lex_ltb (broken s1) (broken s2)) eqn:E.
  - apply broken_lt in E; [|done..]. lia.
  - destruct (lex_ltb (broken s2) (broken s1)) eqn:E'.
    + apply broken_lt in E'; [|done..]. lia.
    + apply lex_ltb_total in E; [|by unfold broken; repeat case_match|done].
      apply broken_inj in E; [|done..]. lia.
Qed.

(** The byte order of the printed form is the order of the instants, at the
    resolution of a second. *)
Lemma format_rfc3339_order t1 t2 :
  four_digit_year (unix t1) -> four_digit_year (unix t2) ->
  bytes_ltb (format_rfc3339 t1) (format_rfc3339 t2) = (unix t1 <? unix t2).
Proof.
  intros H1 H2. rewrite <-broken_order by done.
  destruct (broken_spec _ H1) as
    (y & m & d & h & mi & sec & E & Eh & Em & Es & By & Bm & Bd & Bh & Bmi & Bs & _).
  destruct (broken_spec _ H2) as
    (y' & m' & d' & h' & mi' & sec' & E' & Eh' & Em' & Es' & By' & Bm' & Bd' & Bh' & Bmi' & Bs' & _).
  pose proof (days_in_bound m y Bm). pose proof (days_in_bound m' y' Bm').
  rewrite (format_rfc3339_fields t1 y m d h mi sec), (format_rfc3339_fields t2 y' m' d' h' mi' sec') by done.
  unfold broken. rewrite E, E', <-Eh, <-Em, <-Es, <-Eh', <-Em', <-Es'. clear E E' Eh Em Es Eh' Em' Es'.
  cbn [lex_ltb].
  repeat (first [rewrite bytes_ltb_cons | rewrite bytes_ltb_digits2 by (Z.div_mod_to_equations; lia)];
          try (case_match; [|done])).
  done.
Qed.

(** ** Formatted times are ASCII *)
Lemma ascii_digits2 z : 0 <= z < 100 -> ascii (digits2 z).
Proof. intros. repeat constructor; rewrite u8_dec_digit; Z.div_mod_to_equations; lia. Qed.

Lemma ascii_pad_int w z : ascii (pad_int w z).
Proof.
  unfold pad_int, format_uint. repeat apply ascii_app.
  - destruct (z <? 0); [by vm_compute; repeat constructor|constructor].
  - apply Forall_replicate. by vm_compute.
  - apply ascii_dec_digits; [lia|constructor].
Qed.

Lemma ascii_format_secs s : ascii (format_secs s).
Proof.
  unfold format_secs. destruct (civil_from_days _) as [[y m] d] eqn:E.
  apply civil_from_days_spec in E as (_ & Hm & Hd). pose proof (days_in_bound m y Hm).
  assert (0 <= s mod day_secs < 86400) as Hr by (apply Z.mod_pos_bound; done).
  revert Hr. generalize (s mod day_secs). intros r Hr.
  pose proof (ascii_pad_int 4 y) as Hy. revert Hy. generalize (pad_int 4 y). intros year Hy.
  repeat apply ascii_app;
    first [exact Hy | apply ascii_digits2; Z.div_mod_to_equations; lia
          | vm_compute; repeat constructor; done].
Qed.

Lemma ascii_format_rfc3339 t : ascii (format_rfc3339 t).
Proof. apply ascii_app; [apply ascii_format_secs|by vm_compute; repeat constructor]. Qed.

Lemma ascii_trim_zeros s : ascii s -> ascii (trim_zeros s).
Proof.
  induction 1 as [|c s Hc Hs IH]; [constructor|]. cbn [trim_zeros]. destruct (_ && _); by constructor.
Qed.

Lemma ascii_format_rfc3339nano t : ascii (format_rfc3339nano t).
Proof.
  apply ascii_app; [apply ascii_format_secs|]. apply ascii_app; [|by vm_compute; repeat constructor].
  unfold format_nanos. destruct (bool_decide _); [constructor|].
  apply ascii_app; [by vm_compute; repeat constructor|]. apply ascii_trim_zeros, ascii_pad_int.
Qed.
#[export] Hint Resolve ascii_format_rfc3339 ascii_format_rfc3339nano : guardian.

(** ** Times with a zone

    A [time.Time] is printed in its own location; [off] is the offset of that
    location in seconds east of UTC. *)
Definition format_zone (off : Z) : bytes :=
  if off =? 0 then str "Z"
  else let zone := Z.abs (Z.quot off 60) in
       str (if Z.quot off 60 <? 0 then "-" else "+") ++ digits2 (zone / 60) ++ str ":" ++ digits2 (zone mod 60).

(** [t.Format(time.RFC3339Nano)] *)
Definition format_zoned (t off : Z) : bytes :=
  format_secs (unix t + off) ++ format_nanos (t mod second) ++ format_zone off.

Lemma dec_digits_length fuel k z : (0 < k)%nat -> 0 <= z < 10 ^ Z.of_nat k ->
  (length (dec_digits fuel z []) <= k)%nat.
Proof.
  revert k z. induction fuel as [|fuel IH]; intros k z Hk Hz; simpl; [lia|].
  destruct (Z.ltb_spec z 10); [simpl; lia|]. rewrite dec_digits_acc, length_app. simpl.
  destruct k as [|[|k]]; [lia|simpl in Hz; lia|].
  assert (10 ^ Z.of_nat (S (S k)) = 10 * 10 ^ Z.of_nat (S k)) as E by (rewrite Nat2Z.inj_succ, Z.pow_succ_r by lia; done).
  pose proof (IH (S k) (z / 10) ltac:(lia) ltac:(Z.div_mod_to_equations; lia)). lia.
Qed.

Lemma dec_value_zeros k acc : dec_value (replicate k (dec_digit 0)) acc = Some (acc * 10 ^ Z.of_nat k).
Proof.
  revert acc. induction k as [|k IH]; intros acc; [simpl; f_equal; lia|]. cbn [replicate dec_value].
  rewrite is_digit_dec_digit, u8_dec_digit, IH by lia. f_equal. rewrite Nat2Z.inj_succ, Z.pow_succ_r by lia. lia.
Qed.

Lemma pad_int_digits w z : (0 < w <= 20)%nat -> 0 <= z < 10 ^ Z.of_nat w ->
  length (pad_int w z) = w /\ forallb is_digit (pad_int w z) = true /\ dec_value (pad_int w z) 0 = Some z.
Proof.
  intros Hw Hz. unfold pad_int, format_uint. rewrite Z.abs_eq, (proj2 (Z.ltb_ge _ _)) by lia. cbn [app].
  pose proof (dec_digits_length 20 w z ltac:(lia) Hz). split; [|split].
  - rewrite length_app, length_replicate. lia.
  - rewrite forallb_app, dec_digits_all_digits, andb_true_r by (done || lia).
    induction (w - _)%nat; simpl; [done|]. by rewrite IHn.
  - rewrite dec_value_app.
    rewrite dec_value_zeros. cbn [mbind option_bind]. rewrite Z.mul_0_l. apply dec_digits_value. split; [lia|]. eapply Z.lt_le_trans; [apply Hz|]. apply Z.pow_le_mono_r; lia.
Qed.

Lemma trim_zeros_spec s : exists k, s = trim_zeros s ++ replicate k (dec_digit 0).
Proof.
  induction s as [|c s (k & IH)]; [by exists O|]. cbn [trim_zeros].
  destruct (bool_decide (trim_zeros s = [])) eqn:E; cbn [andb].
  - destruct (bool_decide (c = dec_digit 0)) eqn:Ec; bool_hyps.
    + exists (S k). rewrite E in IH. subst c. by rewrite IH at 1.
    + exists k. rewrite E in *. by rewrite IH at 1.
  - exists k. by rewrite IH at 1.
Qed.

(** The fraction reads back, whatever follows it. *)
Lemma get_fraction_format n c r : 0 <= n < second ->
  is_digit c = false -> c <> Byte.x2e -> c <> Byte.x2c ->
  get_fraction (format_nanos n ++ c :: r) = (n, c :: r).
Proof.
  intros Hn Hc Hd Hm. unfold format_nanos. unfold second in Hn.
  destruct (pad_int_digits 9 n ltac:(lia) Hn) as (Hl & Hall & Hv).
  destruct (trim_zeros_spec (pad_int 9 n)) as [k E].
  set (ds := trim_zeros (pad_int 9 n)) in *. rewrite E in Hl, Hall, Hv.
  rewrite length_app, length_replicate in Hl. rewrite forallb_app in Hall. apply andb_true_split in Hall as [Hall _].
  rewrite dec_value_app in Hv. destruct (dec_value ds 0) as [v|] eqn:Ev; [|done]. simpl in Hv.
  rewrite dec_value_zeros in Hv. injection Hv as Hv.
  destruct (bool_decide (ds = [])) eqn:Ed; bool_hyps.
  - rewrite Ed in Ev. simpl in Ev. injection Ev as <-. simpl. unfold get_fraction.
    rewrite !bool_decide_eq_false_2 by done. simpl. f_equal. lia.
  - destruct ds as [|d ds]; [done|]. cbn [app]. change (str "." ++ d :: ds) with (Byte.x2e :: d :: ds). cbn [app].
    unfold get_fraction. rewrite bool_decide_eq_true_2 by done. cbn [forallb] in Hall.
    apply andb_true_split in Hall as Hall2. destruct Hall2 as [Hd0 Hds]. rewrite Hd0. cbn [orb andb].
    change (d :: ds ++ c :: r) with ((d :: ds) ++ c :: r). rewrite digit_run_app by (simpl; by rewrite ?Hd0, ?Hds).
    unfold nanos_of. rewrite take_ge by lia. rewrite Ev. f_equal. rewrite <-Hv. do 2 f_equal.
    unfold blen. lia.
Qed.

Lemma format_zone_head off : exists c r, format_zone off = c :: r /\
  is_digit c = false /\ c <> Byte.x2e /\ c <> Byte.x2c.
Proof.
  unfold format_zone. destruct (off =? 0); [by eexists _, _|].
  destruct (_ <? 0); by eexists _, _.
Qed.

Lemma get_zone_format off : off mod 60 = 0 -> -86400 < off < 86400 -> get_zone (format_zone off) = Some (off, []).
Proof.
  intros Hm Hr. unfold format_zone. destruct (Z.eqb_spec off 0) as [->|Hn]; [done|].
  assert (Z.quot off 60 * 60 = off) as Hq by (pose proof (Z.quot_rem off 60); pose proof (Z.rem_mod off 60);
    Z.quot_rem_to_equations; Z.div_mod_to_equations; lia).
  set (q := Z.quot off 60) in *. set (z := Z.abs q).
  assert (0 <= z < 1440) by lia.
  assert (0 <= z / 60 < 24 /\ 0 <= z mod 60 < 60) as [Hh Hmi] by (Z.div_mod_to_equations; lia).
  assert (z / 60 * 60 + z mod 60 = z) as Hz by (pose proof (Z.div_mod z 60); lia).
  assert (forall c, get2 (digits2 (z / 60) ++ c) = Some (z / 60, c)) as G1 by (intros; apply get2_digits2; lia).
  assert (forall c, get2 (digits2 (z mod 60) ++ c) = Some (z mod 60, c)) as G2 by (intros; apply get2_digits2; lia).
  destruct (Z.ltb_spec q 0); unfold get_zone, str;
    change (String.list_byte_of_string ":") with [Byte.x3a];
    [change (String.list_byte_of_string "-") with [Byte.x2d]|change (String.list_byte_of_string "+") with [Byte.x2b]];
    cbn [app]; (rewrite bool_decide_eq_false_2 by done);
    [rewrite orb_true_r|]; cbv beta iota;
    rewrite ?bool_decide_eq_true_2, ?orb_true_l, G1, expect_cons by done;
    rewrite <-(app_nil_r (digits2 (z mod 60))), G2, !(proj2 (Z.ltb_ge _ _)) by lia; do 2 f_equal;
    rewrite ?(bool_decide_eq_false_2 (Byte.x2b = Byte.x2d)), ?bool_decide_eq_true_2 by done; lia.
Qed.

Lemma format_secs_fields s y m d h mi sec r :
  civil_from_days (s / day_secs) = (y, m, d) ->
  h = (s mod day_secs) / 3600 -> mi = (s mod day_secs) / 60 mod 60 -> sec = (s mod day_secs) mod 60 ->
  0 <= y <= 9999 ->
  format_secs s ++ r =
    digits2 (y / 100) ++ digits2 (y mod 100) ++ Byte.x2d :: digits2 m ++ Byte.x2d ::
    digits2 d ++ Byte.x54 :: digits2 h ++ Byte.x3a :: digits2 mi ++ Byte.x3a :: digits2 sec ++ r.
Proof.
  intros E -> -> -> Hy. unfold format_secs. rewrite E, pad_int_year by done. rewrite <-!app_assoc. reflexivity.
Qed.

(** A printed time, with its fraction and zone, reads back unchanged. *)
Lemma parse_format_zoned t off :
  four_digit_year (unix t + off) -> off mod 60 = 0 -> -86400 < off < 86400 ->
  parse_zoned (format_zoned t off) = Some (t, off).
Proof.
  intros Hy Hm Hr. destruct (broken_spec _ Hy) as
    (y & m & d & h & mi & sec & E & Eh & Emi & Es & By & Bm & Bd & Bh & Bmi & Bs & Hsum).
  pose proof (days_in_bound m y Bm).
  unfold format_zoned. rewrite (format_secs_fields _ y m d h mi sec) by done.
  unfold parse_zoned. rewrite get4_digits by lia. parse_step.
  do 2 (rewrite expect_cons; parse_step; rewrite get2_digits2 by lia; parse_step).
  rewrite expect_cons; parse_step; rewrite get12_digits2 by lia; parse_step.
  do 2 (rewrite expect_cons; parse_step; rewrite get2_digits2 by lia; parse_step).
  destruct (format_zone_head off) as (c & r & Ez & Hc). rewrite Ez.
  rewrite get_fraction_format by (try apply Z.mod_pos_bound; done || apply Hc).
  rewrite <-Ez, get_zone_format by done. parse_step.
  rewrite bool_decide_eq_true_2 by done.
  assert ((unix t + off - off) * second + t mod second = t) as Et
    by (unfold unix; pose proof (Z.div_mod t second ltac:(done)); lia).
  case_match eqn:C; [do 2 f_equal|exfalso]; lia.
Qed.

Lemma ascii_format_zone off : -86400 < off < 86400 -> ascii (format_zone off).
Proof.
  intros Hr. unfold format_zone. destruct (off =? 0); [by vm_compute; repeat constructor|].
  repeat apply ascii_app; try (apply ascii_digits2; Z.quot_rem_to_equations; Z.div_mod_to_equations; lia).
  - destruct (_ <? 0); by vm_compute; repeat constructor.
  - by vm_compute; repeat constructor.
Qed.

Lemma ascii_format_zoned t off : -86400 < off < 86400 -> ascii (format_zoned t off).
Proof.
  intros Hr. apply ascii_app; [apply ascii_format_secs|]. apply ascii_app; [|by apply ascii_format_zone].
  unfold format_nanos. destruct (bool_decide _); [constructor|].
  apply ascii_app; [by vm_compute; repeat constructor|]. apply ascii_trim_zeros, ascii_pad_int.
Qed.
