(* ===== verification/Json.v ===== *)
(** * JSON: the parts of Go's [encoding/json] and [unicode/utf8] the ledger uses

    Journal rows are stored as the compact JSON of a Go struct and read back
    with [json.Unmarshal]; a row counts only when [json.Marshal] of what was
    read is the stored text again.  This file models the scanner
    ([json.Valid]), the string codec with Go's HTML-safe escaping and UTF-8
    replacement rules, the field matching of [json.Unmarshal], and proves that
    printing then parsing returns the value. *)
From Stdlib Require Import Strings.Byte.
From S2P Require Import Prelude Text Base64.

(** ** UTF-8 ([unicode/utf8]) *)
Definition in_range (lo hi : Z) (b : byte) : bool := (lo <=? u8 b) && (u8 b <=? hi).
Definition cont (b : byte) : bool := in_range 128 191 b.

(** The first rune of a string as its byte sequence, and the rest; [None]
    where [utf8.DecodeRune] reports [RuneError] of width at most one. *)
Definition utf8_split (s : bytes) : option (bytes * bytes) :=
  match s with
  | [] => None
  | b0 :: s1 =>
      if in_range 0 127 b0 then Some ([b0], s1)
      else if in_range 194 223 b0 then
        match s1 with
        | b1 :: r => if cont b1 then Some ([b0; b1], r) else None
        | _ => None
        end
      else if in_range 224 239 b0 then
        match s1 with
        | b1 :: b2 :: r =>
            if in_range (if u8 b0 =? 224 then 160 else 128) (if u8 b0 =? 237 then 159 else 191) b1
               && cont b2 then Some ([b0; b1; b2], r) else None
        | _ => None
        end
      else if in_range 240 244 b0 then
        match s1 with
        | b1 :: b2 :: b3 :: r =>
            if in_range (if u8 b0 =? 240 then 144 else 128) (if u8 b0 =? 244 then 143 else 191) b1
               && cont b2 && cont b3 then Some ([b0; b1; b2; b3], r) else None
        | _ => None
        end
      else None
  end.

Fixpoint utf8_valid_fuel (fuel : nat) (s : bytes) : bool :=
  match fuel, s with
  | _, [] => true
  | O, _ => false
  | S fuel, _ => match utf8_split s with
                 | Some (_, r) => utf8_valid_fuel fuel r
                 | None => false
                 end
  end.

(** [utf8.ValidString]; a rune has at least one byte, so the length is fuel
    enough. *)
Definition utf8_valid (s : bytes) : bool := utf8_valid_fuel (length s) s.

(** [utf8.AppendRune] *)
Definition utf8_encode (r : Z) : bytes :=
  let c n := byte_of_Z (128 + Z.land (Z.shiftr r n) 63) in
  if (r <? 0) || (1114111 <? r) || ((55296 <=? r) && (r <=? 57343)) then
    [Byte.xef; Byte.xbf; Byte.xbd]
  else if r <=? 127 then [byte_of_Z r]
  else if r <=? 2047 then [byte_of_Z (192 + Z.shiftr r 6); c 0]
  else if r <=? 65535 then [byte_of_Z (224 + Z.shiftr r 12); c 6; c 0]
  else [byte_of_Z (240 + Z.shiftr r 18); c 12; c 6; c 0].

Definition rune_error : bytes := [Byte.xef; Byte.xbf; Byte.xbd].

(** ** Strings *)
Definition quote : byte := Byte.x22.
Definition backslash : byte := Byte.x5c.

(** [appendString] with HTML escaping: one rune. *)
Definition esc_chunk (c : bytes) : bytes :=
  match c with
  | [b] =>
      if bool_decide (b = quote) || bool_decide (b = backslash) then [backslash; b]
      else if u8 b =? 8 then str "\b"
      else if u8 b =? 12 then str "\f"
      else if u8 b =? 10 then str "\n"
      else if u8 b =? 13 then str "\r"
      else if u8 b =? 9 then str "\t"
      else if (u8 b <? 32) || (u8 b =? 60) || (u8 b =? 62) || (u8 b =? 38)
      then str "\u00" ++ [hex_digit (u8 b / 16); hex_digit (u8 b mod 16)]
      else [b]
  | _ => if bool_decide (c = [Byte.xe2; Byte.x80; Byte.xa8]) then str "\u2028"
         else if bool_decide (c = [Byte.xe2; Byte.x80; Byte.xa9]) then str "\u2029"
         else c
  end.

Fixpoint esc_string (fuel : nat) (s : bytes) : bytes :=
  match fuel, s with
  | S fuel, b :: t => match utf8_split s with
                      | Some (c, r) => esc_chunk c ++ esc_string fuel r
                      | None => str "\ufffd" ++ esc_string fuel t
                      end
  | _, _ => []
  end.

Definition json_quote (s : bytes) : bytes := quote :: esc_string (length s) s ++ [quote].

(** [getu4]: four hexadecimal digits of either case. *)
Definition get_u4 (s : bytes) : option (Z * bytes) :=
  match s with
  | a :: b :: c :: d :: r =>
      match from_hex_char a, from_hex_char b, from_hex_char c, from_hex_char d with
      | Some a, Some b, Some c, Some d => Some (a * 4096 + b * 256 + c * 16 + d, r)
      | _, _, _, _ => None
      end
  | _ => None
  end.

Definition is_high_surrogate (r : Z) : bool := (55296 <=? r) && (r <=? 56319).
Definition is_low_surrogate (r : Z) : bool := (56320 <=? r) && (r <=? 57343).

(** A [\u] escape with its possible second half; an unpaired surrogate reads
    as U+FFFD. *)
Definition unescape_u (s : bytes) : option (bytes * bytes) :=
  match get_u4 s with
  | None => None
  | Some (r, rest) =>
      if is_high_surrogate r then
        match rest with
        | e :: u :: rest2 =>
            if bool_decide (e = backslash) && bool_decide (u = Byte.x75) then
              match get_u4 rest2 with
              | Some (r2, rest3) =>
                  if is_low_surrogate r2
                  then Some (utf8_encode (65536 + (r - 55296) * 1024 + (r2 - 56320)), rest3)
                  else Some (rune_error, rest)
              | None => None
              end
            else Some (rune_error, rest)
        | _ => Some (rune_error, rest)
        end
      else Some (utf8_encode r, rest)
  end.

(** One step of [unquote] inside a string: the bytes produced and the rest of
    the input.  [None] is a syntax error. *)
Definition dec_step (s : bytes) : option (bytes * bytes) :=
  match s with
  | [] => None
  | b :: t =>
      if bool_decide (b = backslash) then
        match t with
        | [] => None
        | e :: r =>
            if bool_decide (e = quote) || bool_decide (e = backslash) || bool_decide (e = Byte.x2f)
            then Some ([e], r)
            else if bool_decide (e = Byte.x62) then Some ([Byte.x08], r)
            else if bool_decide (e = Byte.x66) then Some ([Byte.x0c], r)
            else if bool_decide (e = Byte.x6e) then Some ([Byte.x0a], r)
            else if bool_decide (e = Byte.x72) then Some ([Byte.x0d], r)
            else if bool_decide (e = Byte.x74) then Some ([Byte.x09], r)
            else if bool_decide (e = Byte.x75) then unescape_u r
            else None
        end
      else if u8 b <? 32 then None
      else match utf8_split s with
           | Some (c, r) => Some (c, r)
           | None => Some (rune_error, t)
           end
  end.

(** The body of a string literal, after the opening quote. *)
Fixpoint parse_string (fuel : nat) (s : bytes) : option (bytes * bytes) :=
  match fuel, s with
  | S fuel, b :: t =>
      if bool_decide (b = quote) then Some ([], t)
      else match dec_step s with
           | Some (c, r) => match parse_string fuel r with
                            | Some (d, rest) => Some (c ++ d, rest)
                            | None => None
                            end
           | None => None
           end
  | _, _ => None
  end.

(** ** Numbers: the literal is kept as text *)
Definition digits1 (s : bytes) : option (bytes * bytes) :=
  match digit_run s with
  | ([], _) => None
  | r => Some r
  end.

Definition is_byte (n : Z) (b : byte) : bool := u8 b =? n.

Definition parse_int_part (s : bytes) : option (bytes * bytes) :=
  match s with
  | c :: r => if is_byte 48 c then Some ([c], r) else digits1 s
  | [] => None
  end.

(** The optional fraction and exponent. *)
Definition parse_frac (s : bytes) : option (bytes * bytes) :=
  match s with
  | c :: r => if is_byte 46 c then
                match digits1 r with Some (d, r) => Some (c :: d, r) | None => None end
              else Some ([], s)
  | [] => Some ([], s)
  end.

Definition parse_exp (s : bytes) : option (bytes * bytes) :=
  match s with
  | c :: r =>
      if is_byte 101 c || is_byte 69 c then
        match r with
        | g :: r' => if is_byte 43 g || is_byte 45 g then
                       match digits1 r' with Some (d, r) => Some (c :: g :: d, r) | None => None end
                     else match digits1 r with Some (d, r) => Some (c :: d, r) | None => None end
        | [] => None
        end
      else Some ([], s)
  | [] => Some ([], s)
  end.

Definition parse_sign (s : bytes) : bytes * bytes :=
  match s with
  | c :: r => if is_byte 45 c then ([c], r) else ([], s)
  | [] => ([], s)
  end.

Definition parse_number (s : bytes) : option (bytes * bytes) :=
  let '(sign, s) := parse_sign s in
  '(i, s) ← parse_int_part s; '(f, s) ← parse_frac s; '(e, s) ← parse_exp s;
  Some (sign ++ i ++ f ++ e, s).

(** ** Values *)
Inductive json :=
  | JNull
  | JBool (b : bool)
  | JNum (lit : bytes)
  | JStr (s : bytes)
  | JArr (l : list json)
  | JObj (l : list (bytes * json)).

Fixpoint skip_ws (s : bytes) : bytes :=
  match s with
  | c :: r => if is_byte 32 c || is_byte 9 c || is_byte 10 c || is_byte 13 c then skip_ws r else s
  | [] => []
  end.

Definition max_nesting : Z := 10000.

(** The scanner and decoder of a value.  Every call consumes input, so the
    length of the text bounds the recursion. *)
Fixpoint parse_value (fuel : nat) (depth : Z) (s : bytes) {struct fuel} : option (json * bytes) :=
  match fuel with
  | O => None
  | S fuel =>
      match skip_ws s with
      | [] => None
      | c :: t =>
          if is_byte 34 c then
            match parse_string (length t) t with Some (x, r) => Some (JStr x, r) | None => None end
          else if is_byte 123 c then
            if max_nesting <=? depth then None else
            match skip_ws t with
            | d :: r => if is_byte 125 d then Some (JObj [], r) else
                        match parse_members fuel (depth + 1) t with
                        | Some (l, r) => Some (JObj l, r)
                        | None => None
                        end
            | [] => None
            end
          else if is_byte 91 c then
            if max_nesting <=? depth then None else
            match skip_ws t with
            | d :: r => if is_byte 93 d then Some (JArr [], r) else
                        match parse_elements fuel (depth + 1) t with
                        | Some (l, r) => Some (JArr l, r)
                        | None => None
                        end
            | [] => None
            end
          else if has_prefix (c :: t) (str "true") then Some (JBool true, drop 4 (c :: t))
          else if has_prefix (c :: t) (str "false") then Some (JBool false, drop 5 (c :: t))
          else if has_prefix (c :: t) (str "null") then Some (JNull, drop 4 (c :: t))
          else match parse_number (c :: t) with Some (n, r) => Some (JNum n, r) | None => None end
      end
  end
with parse_members (fuel : nat) (depth : Z) (s : bytes) {struct fuel} : option (list (bytes * json) * bytes) :=
  match fuel with
  | O => None
  | S fuel =>
      match skip_ws s with
      | q :: t =>
          if is_byte 34 q then
            match parse_string (length t) t with
            | Some (k, r) =>
                match skip_ws r with
                | col :: r =>
                    if is_byte 58 col then
                      match parse_value fuel depth r with
                      | Some (v, r) =>
                          match skip_ws r with
                          | c :: r => if is_byte 125 c then Some ([(k, v)], r)
                                      else if is_byte 44 c then
                                        match parse_members fuel depth r with
                                        | Some (l, r) => Some ((k, v) :: l, r)
                                        | None => None
                                        end
                                      else None
                          | [] => None
                          end
                      | None => None
                      end
                    else None
                | [] => None
                end
            | None => None
            end
          else None
      | [] => None
      end
  end
with parse_elements (fuel : nat) (depth : Z) (s : bytes) {struct fuel} : option (list json * bytes) :=
  match fuel with
  | O => None
  | S fuel =>
      match parse_value fuel depth s with
      | Some (v, r) =>
          match skip_ws r with
          | c :: r => if is_byte 93 c then Some ([v], r)
                      else if is_byte 44 c then
                        match parse_elements fuel depth r with
                        | Some (l, r) => Some (v :: l, r)
                        | None => None
                        end
                      else None
          | [] => None
          end
      | None => None
      end
  end.

Definition json_parse (s : bytes) : option json :=
  match parse_value (2 + length s) 0 s with
  | Some (v, r) => match skip_ws r with [] => Some v | _ => None end
  | None => None
  end.

(** [json.Valid] *)
Definition json_valid (s : bytes) : bool :=
  match json_parse s with Some _ => true | None => false end.

(** [json.Compact]: the text of a valid value without the white space outside
    its strings. *)
Fixpoint strip_space (in_string escaped : bool) (s : bytes) : bytes :=
  match s with
  | [] => []
  | c :: r =>
      if in_string then
        c :: (if escaped then strip_space true false r
              else if is_byte 92 c then strip_space true true r
              else strip_space (negb (is_byte 34 c)) false r)
      else if is_byte 32 c || is_byte 9 c || is_byte 10 c || is_byte 13 c then strip_space false false r
      else c :: strip_space (is_byte 34 c) false r
  end.

Definition json_compact (s : bytes) : option bytes :=
  if json_valid s then Some (strip_space false false s) else None.

(** Compact printing, as [json.Marshal] does. *)
Section Print.
Variable print : json -> bytes.

Definition print_member (kv : bytes * json) : bytes :=
  json_quote (fst kv) ++ str ":" ++ print (snd kv).

Fixpoint print_list {A} (p : A -> bytes) (l : list A) : bytes :=
  match l with
  | [] => []
  | [x] => p x
  | x :: l => p x ++ str "," ++ print_list p l
  end.
End Print.

Fixpoint json_print (v : json) : bytes :=
  match v with
  | JNull => str "null"
  | JBool true => str "true"
  | JBool false => str "false"
  | JNum n => n
  | JStr s => json_quote s
  | JArr l => str "[" ++ print_list json_print l ++ str "]"
  | JObj l => str "{" ++ print_list (print_member json_print) l ++ str "}"
  end.

(** ** [json.Unmarshal] into a struct *)

(** [foldName]: upper case, with the two non-ASCII runes that fold to ASCII. *)
Definition upper_byte (a : byte) : byte := if in_range 97 122 a then byte_of_Z (u8 a - 32) else a.

Fixpoint fold_name (s : bytes) : bytes :=
  match s with
  | [] => []
  | a :: r =>
      match r with
      | b :: r1 =>
          if is_byte 197 a && is_byte 191 b then Byte.x53 :: fold_name r1
          else match r1 with
               | c :: r2 => if is_byte 226 a && is_byte 132 b && is_byte 170 c
                            then Byte.x4b :: fold_name r2
                            else upper_byte a :: fold_name r
               | [] => upper_byte a :: fold_name r
               end
      | [] => [upper_byte a]
      end
  end.

(** A struct field: its JSON name and the effect of a value on the struct;
    [None] is an [UnmarshalTypeError]. *)
Definition field (T : Type) : Type := bytes * (json -> T -> option T).

Definition find_field {T} (fs : list (field T)) (key : bytes) : option (json -> T -> option T) :=
  match List.find (fun f => bool_decide (fst f = key)) fs with
  | Some f => Some (snd f)
  | None => match List.find (fun f => bool_decide (fold_name (fst f) = fold_name key)) fs with
            | Some f => Some (snd f)
            | None => None
            end
  end.

Fixpoint set_members {T} (fs : list (field T)) (l : list (bytes * json)) (x : T) : option T :=
  match l with
  | [] => Some x
  | (k, v) :: l =>
      match find_field fs k with
      | Some set => match set v x with Some x => set_members fs l x | None => None end
      | None => set_members fs l x
      end
  end.

Definition set_struct {T} (fs : list (field T)) (v : json) (x : T) : option T :=
  match v with
  | JObj l => set_members fs l x
  | JNull => Some x
  | _ => None
  end.

Definition json_unmarshal {T} (fs : list (field T)) (zero : T) (s : bytes) : option T :=
  match json_parse s with
  | Some v => set_struct fs v zero
  | None => None
  end.

(** Scalars: strings and integers of a given range; [null] leaves the field. *)
Definition set_string {T} (put : bytes -> T -> T) (v : json) (x : T) : option T :=
  match v with
  | JStr s => Some (put s x)
  | JNull => Some x
  | _ => None
  end.

(** [strconv.ParseInt(lit, 10, 64)] on a JSON number literal. *)
Definition parse_int_lit (lit : bytes) : option Z :=
  match lit with
  | c :: r => if is_byte 45 c then
                match r with [] => None | _ => Z.opp <$> dec_value r 0 end
              else dec_value lit 0
  | [] => None
  end.

Definition set_int {T} (lo hi : Z) (put : Z -> T -> T) (v : json) (x : T) : option T :=
  match v with
  | JNum lit => match parse_int_lit lit with
                | Some z => if (lo <=? z) && (z <=? hi) then Some (put z x) else None
                | None => None
                end
  | JNull => Some x
  | _ => None
  end.

Definition set_int64 {T} := @set_int T (-9223372036854775808) max_int64.
Definition set_uint32 {T} := @set_int T 0 max_uint32.
Definition set_uint64 {T} := @set_int T 0 max_uint64.

Definition jint (z : Z) : json := JNum (format_int z).

(** JSON text with the double quotes written as single quotes. *)
Definition jtext (s : string) : bytes :=
  map (fun b => if bool_decide (b = Byte.x27) then quote else b) (str s).

Example json_demo :
  json_print (JObj [(str "a", JStr (jtext "x<'\")); (str "b", jint (-12));
                    (str "c", JArr [JNull; JBool true])])
  = jtext "{'a':'x\u003c\'\\','b':-12,'c':[null,true]}".
Proof. vm_compute. reflexivity. Qed.

Example json_demo_parse :
  json_parse (jtext " {'a' : '\u0041\ud83d\ude00', 'b': [1.5e3, -0, {}]} ")
  = Some (JObj [(str "a", JStr [Byte.x41; Byte.xf0; Byte.x9f; Byte.x98; Byte.x80]);
                (str "b", JArr [JNum (str "1.5e3"); JNum (str "-0"); JObj []])]).
Proof. vm_compute. reflexivity. Qed.

(** ** Runes *)
Lemma utf8_split_spec s c r :
  utf8_split s = Some (c, r) ->
  s = c ++ r /\ (0 < length c)%nat /\ forall r', utf8_split (c ++ r') = Some (c, r').
Proof.
  unfold utf8_split. intros E.
  repeat (case_match; try discriminate); simplify_eq/=; (split; [done|]); (split; [lia|]);
    intros r'; repeat (match goal with H : _ = true |- _ => rewrite H | H : _ = false |- _ => rewrite H end);
    reflexivity.
Qed.

(** Decoding an escaped rune gives the rune back and stops right after it. *)
Lemma dec_step_esc_ascii b r :
  in_range 0 127 b = true -> dec_step (esc_chunk [b] ++ r) = Some ([b], r).
Proof. destruct b; intros H; try discriminate H; reflexivity. Qed.

Lemma esc_ascii_head b : exists x y, esc_chunk [b] = x :: y /\ bool_decide (x = quote) = false.
Proof. destruct b; do 2 eexists; split; reflexivity. Qed.

Lemma high_byte_plain b : in_range 0 127 b = false ->
  bool_decide (b = quote) = false /\ bool_decide (b = backslash) = false /\ (u8 b <? 32) = false.
Proof. destruct b; intros H; try discriminate H; repeat split; reflexivity. Qed.

Lemma utf8_split_multi s c r :
  utf8_split s = Some (c, r) ->
  (exists b, c = [b] /\ in_range 0 127 b = true) \/
  (exists b0 b1 t, c = b0 :: b1 :: t /\ in_range 0 127 b0 = false).
Proof.
  unfold utf8_split. intros E.
  repeat (case_match; try discriminate); simplify_eq/=; [left|right..]; eauto 6.
Qed.

Lemma dec_step_esc s c r r' :
  utf8_split s = Some (c, r) ->
  dec_step (esc_chunk c ++ r') = Some (c, r') /\
  exists x y, esc_chunk c = x :: y /\ bool_decide (x = quote) = false.
Proof.
  intros E. destruct (utf8_split_multi _ _ _ E) as [(b & -> & Hb)|(b0 & b1 & t & -> & Hb)].
  - split; [by apply dec_step_esc_ascii|]. apply esc_ascii_head.
  - apply utf8_split_spec in E as (_ & _ & Hloc).
    unfold esc_chunk. case_match; [|case_match].
    + bool_hyps. simplify_eq. split; [reflexivity|]. do 2 eexists. split; reflexivity.
    + bool_hyps. simplify_eq. split; [reflexivity|]. do 2 eexists. split; reflexivity.
    + destruct (high_byte_plain b0 Hb) as (Hq & Hs & Hc).
      split; [|eauto]. cbn [app dec_step]. rewrite Hs, Hc.
      change (b0 :: b1 :: t ++ r') with ((b0 :: b1 :: t) ++ r'). by rewrite Hloc.
Qed.

Lemma parse_string_esc n s fuel rest :
  utf8_valid_fuel n s = true -> (length (esc_string n s) < fuel)%nat ->
  parse_string fuel (esc_string n s ++ quote :: rest) = Some (s, rest).
Proof.
  revert s fuel. induction n as [|n IH]; intros s fuel Hv Hf.
  { destruct s; [|done]. destruct fuel; [simpl in Hf; lia|]. reflexivity. }
  destruct s as [|b s]; [destruct fuel; [simpl in Hf; lia|]; reflexivity|].
  cbn [utf8_valid_fuel esc_string] in *.
  destruct (utf8_split (b :: s)) as [[c r]|] eqn:E; [|done].
  destruct (dec_step_esc _ _ _ (esc_string n r ++ quote :: rest) E) as [Hd (x & y & Ex & Hx)].
  apply utf8_split_spec in E as (-> & Hc & _).
  rewrite length_app, Ex in Hf. simpl in Hf. destruct fuel as [|fuel]; [lia|].
  rewrite <-app_assoc. rewrite Ex. cbn [app parse_string]. rewrite Hx.
  rewrite app_comm_cons, <-Ex, Hd, IH; [done..|lia].
Qed.

(** A quoted valid string reads back. *)
Lemma parse_string_quote s fuel rest :
  utf8_valid s = true -> (length (json_quote s) <= S fuel)%nat ->
  parse_string fuel (esc_string (length s) s ++ quote :: rest) = Some (s, rest).
Proof.
  unfold json_quote. cbn [length]. rewrite length_app. simpl. intros.
  apply parse_string_esc; [done|lia].
Qed.

(** ** Numbers *)
Definition num_end (rest : bytes) : Prop :=
  match rest with
  | [] => True
  | c :: _ => is_digit c = false /\ is_byte 46 c = false /\ is_byte 101 c = false /\ is_byte 69 c = false
  end.

Definition num_head (lit : bytes) : Prop :=
  match lit with c :: _ => is_byte 45 c || is_digit c = true | [] => False end.

(** A number literal that the scanner reads back whole. *)
Definition num_ok (lit : bytes) : Prop :=
  num_head lit /\ forall rest, num_end rest -> parse_number (lit ++ rest) = Some (lit, rest).

Lemma parse_frac_end rest : num_end rest -> parse_frac rest = Some ([], rest).
Proof. destruct rest; [done|]. simpl. by intros (_ & -> & _). Qed.

Lemma parse_exp_end rest : num_end rest -> parse_exp rest = Some ([], rest).
Proof. destruct rest; [done|]. simpl. by intros (_ & _ & -> & ->). Qed.

Lemma digits1_app a rest :
  a <> [] -> forallb is_digit a = true -> num_end rest -> digits1 (a ++ rest) = Some (a, rest).
Proof.
  intros Ha Hd Hr. unfold digits1. rewrite digit_run_app; [|done|].
  - by destruct a.
  - destruct rest; [done|]. by destruct Hr.
Qed.

Lemma parse_int_part_uint z rest :
  is_uint64 z -> num_end rest ->
  parse_int_part (format_uint z ++ rest) = Some (format_uint z, rest) /\
  exists c r, format_uint z = c :: r /\ is_digit c = true.
Proof.
  unfold is_uint64, max_uint64. intros Hz Hr.
  destruct (Z.eq_dec z 0) as [->|].
  { split; [reflexivity|]. do 2 eexists. split; reflexivity. }
  destruct (dec_digits_head 20 z) as (c & r & E & Hc).
  { change (10 ^ Z.of_nat 20) with 100000000000000000000. lia. }
  pose proof (format_uint_digits z ltac:(lia)) as Hd. unfold format_uint in *. rewrite E in *.
  split.
  - cbn [app parse_int_part]. unfold is_byte. rewrite (proj2 (Z.eqb_neq (u8 c) 48)) by lia.
    change (c :: r ++ rest) with ((c :: r) ++ rest). by apply digits1_app.
  - exists c, r. split; [done|]. unfold is_digit. lia.
Qed.

Lemma digit_not_minus c : is_digit c = true -> is_byte 45 c = false.
Proof. unfold is_digit, is_byte. intros. bool_hyps. lia. Qed.

Lemma num_ok_uint z : is_uint64 z -> num_ok (format_uint z).
Proof.
  intros Hz. destruct (parse_int_part_uint z [] Hz I) as [_ (c & r & E & Hc)].
  split; [unfold num_head; rewrite E; by rewrite Hc, orb_true_r|].
  intros rest Hr. unfold parse_number.
  replace (parse_sign (format_uint z ++ rest)) with (@nil byte, format_uint z ++ rest).
  2: { rewrite E. cbn [app parse_sign]. by rewrite digit_not_minus. }
  cbv iota beta. destruct (parse_int_part_uint z rest Hz Hr) as [-> _].
  simpl. rewrite parse_frac_end by done. simpl. rewrite parse_exp_end by done. simpl. by rewrite app_nil_r.
Qed.

Lemma num_ok_int z : is_int64 z -> num_ok (format_int z).
Proof.
  unfold is_int64, max_int64. intros Hz. unfold format_int.
  destruct (Z.ltb_spec z 0); [|apply num_ok_uint; unfold is_uint64, max_uint64; lia].
  split; [done|]. intros rest Hr. unfold parse_number.
  change (parse_sign ((str "-" ++ format_uint (- z)) ++ rest)) with (str "-", format_uint (- z) ++ rest).
  cbv iota beta.
  destruct (parse_int_part_uint (- z) rest) as [-> _]; [unfold is_uint64, max_uint64; lia|done|].
  simpl. rewrite parse_frac_end by done. simpl. rewrite parse_exp_end by done. simpl. by rewrite app_nil_r.
Qed.

(** ** Values: parsing inverts printing *)
Fixpoint json_wf (v : json) : Prop :=
  match v with
  | JNull | JBool _ => True
  | JNum n => num_ok n
  | JStr s => utf8_valid s = true
  | JArr l => foldr (fun v P => json_wf v /\ P) True l
  | JObj l => foldr (fun kv P => utf8_valid (fst kv) = true /\ json_wf (snd kv) /\ P) True l
  end.

(** Nesting depth, bounded by the 10000 levels of the scanner. *)
Fixpoint json_height (v : json) : Z :=
  match v with
  | JArr l => 1 + foldr (fun v h => Z.max (json_height v) h) 0 l
  | JObj l => 1 + foldr (fun kv h => Z.max (json_height (snd kv)) h) 0 l
  | _ => 0
  end.

Lemma json_height_nonneg v : 0 <= json_height v.
Proof.
  destruct v as [| | | |l|l]; simpl; try lia.
  - induction l; simpl; lia.
  - induction l; simpl; lia.
Qed.

(** The first byte of a printed value is never white space or a closing
    bracket. *)
Definition value_head (c : byte) : bool :=
  negb (is_byte 32 c || is_byte 9 c || is_byte 10 c || is_byte 13 c || is_byte 93 c || is_byte 125 c).

Lemma json_print_head v : json_wf v -> exists c t, json_print v = c :: t /\ value_head c = true.
Proof.
  destruct v as [|[]|n| | |]; simpl; try (do 2 eexists; split; reflexivity).
  intros [Hh _]. destruct n as [|c n]; [done|]. exists c, n. split; [done|]. simpl in Hh.
  unfold value_head, is_byte, is_digit in *. destruct c; first [reflexivity | discriminate Hh].
Qed.

Lemma skip_ws_head c t : value_head c = true -> skip_ws (c :: t) = c :: t.
Proof.
  unfold value_head. intros H. apply negb_true_iff in H. cbn [skip_ws].
  repeat (apply orb_false_split in H as [H ?]).
  repeat match goal with E : is_byte _ c = false |- _ => rewrite E; clear E end.
  reflexivity.
Qed.

Definition rt_value (fuel : nat) : Prop := forall v depth rest,
  json_wf v -> num_end rest -> depth + json_height v <= max_nesting ->
  (length (json_print v) < fuel)%nat ->
  parse_value fuel depth (json_print v ++ rest) = Some (v, rest).

Definition rt_elements (fuel : nat) : Prop := forall l depth rest,
  l <> [] -> foldr (fun v P => json_wf v /\ P) True l ->
  depth + foldr (fun v h => Z.max (json_height v) h) 0 l <= max_nesting ->
  (S (length (print_list json_print l)) < fuel)%nat ->
  parse_elements fuel depth (print_list json_print l ++ Byte.x5d :: rest) = Some (l, rest).

Definition rt_members (fuel : nat) : Prop := forall l depth rest,
  l <> [] -> foldr (fun kv P => utf8_valid (fst kv) = true /\ json_wf (snd kv) /\ P) True l ->
  depth + foldr (fun kv h => Z.max (json_height (snd kv)) h) 0 l <= max_nesting ->
  (S (length (print_list (print_member json_print) l)) < fuel)%nat ->
  parse_members fuel depth (print_list (print_member json_print) l ++ Byte.x7d :: rest) = Some (l, rest).

Lemma rt_elements_step fuel : rt_value fuel -> rt_elements fuel -> rt_elements (S fuel).
Proof.
  intros IHv IHe [|v l] depth rest Hne Hwf Hd Hf; [done|]. destruct Hwf as [Hv Hl].
  cbn [foldr] in Hd. cbn [parse_elements].
  destruct l as [|w l].
  - cbn [print_list] in *. rewrite IHv; [|done|done|lia|lia]. reflexivity.
  - change (print_list json_print (v :: w :: l))
      with (json_print v ++ str "," ++ print_list json_print (w :: l)) in *.
    rewrite !length_app in Hf. change (length (str ",")) with 1%nat in Hf.
    rewrite <-!app_assoc. rewrite IHv; [|done|done|lia|lia].
    change (str "," ++ print_list json_print (w :: l) ++ Byte.x5d :: rest)
      with (Byte.x2c :: print_list json_print (w :: l) ++ Byte.x5d :: rest).
    cbn [skip_ws]. change (is_byte 32 Byte.x2c || is_byte 9 Byte.x2c || is_byte 10 Byte.x2c
      || is_byte 13 Byte.x2c) with false. cbv iota.
    change (is_byte 93 Byte.x2c) with false. change (is_byte 44 Byte.x2c) with true. cbv iota.
    rewrite IHe; [done|done|done|lia|lia].
Qed.

Lemma rt_members_step fuel : rt_value fuel -> rt_members fuel -> rt_members (S fuel).
Proof.
  intros IHv IHe [|[k v] l] depth rest Hne Hwf Hd Hf; [done|].
  destruct Hwf as (Hk & Hv & Hl). cbn [fst snd] in Hk, Hv.
  cbn [foldr snd] in Hd.
  assert (forall tail, num_end tail -> (length (json_print v) < fuel)%nat ->
    parse_members (S fuel) depth (print_member json_print (k, v) ++ tail) =
    match skip_ws tail with
    | c :: r => if is_byte 125 c then Some ([(k, v)], r)
                else if is_byte 44 c then
                  match parse_members fuel depth r with
                  | Some (l, r) => Some ((k, v) :: l, r)
                  | None => None
                  end
                else None
    | [] => None
    end) as Hstep.
  { intros tail Ht Hlen. unfold print_member, json_quote. cbn [fst snd app].
    rewrite <-!app_assoc. cbn [parse_members skip_ws].
    change (is_byte 32 quote || is_byte 9 quote || is_byte 10 quote || is_byte 13 quote) with false.
    cbv iota. change (is_byte 34 quote) with true. cbv iota.
    change ([quote] ++ str ":" ++ json_print v ++ tail) with (quote :: Byte.x3a :: json_print v ++ tail).
    rewrite parse_string_esc; [|done|rewrite length_app; simpl; lia].
    cbn [skip_ws].
    change (is_byte 32 Byte.x3a || is_byte 9 Byte.x3a || is_byte 10 Byte.x3a || is_byte 13 Byte.x3a)
      with false. cbv iota. change (is_byte 58 Byte.x3a) with true. cbv iota.
    rewrite IHv; [reflexivity|done|done|lia|lia]. }
  assert (length (print_member json_print (k, v)) = (length (json_quote k) + 1 + length (json_print v))%nat)
    as Hml by (unfold print_member; rewrite !length_app; simpl; lia).
  destruct l as [|kv l].
  - cbn [print_list] in *. rewrite Hstep; [reflexivity|done|lia].
  - change (print_list (print_member json_print) ((k, v) :: kv :: l))
      with (print_member json_print (k, v) ++ str "," ++ print_list (print_member json_print) (kv :: l)) in *.
    rewrite !length_app in Hf. change (length (str ",")) with 1%nat in Hf.
    rewrite <-!app_assoc. rewrite Hstep; [|done|lia].
    change (str "," ++ print_list (print_member json_print) (kv :: l) ++ Byte.x7d :: rest)
      with (Byte.x2c :: print_list (print_member json_print) (kv :: l) ++ Byte.x7d :: rest).
    cbn [skip_ws]. change (is_byte 32 Byte.x2c || is_byte 9 Byte.x2c || is_byte 10 Byte.x2c
      || is_byte 13 Byte.x2c) with false. cbv iota.
    change (is_byte 125 Byte.x2c) with false. change (is_byte 44 Byte.x2c) with true. cbv iota.
    rewrite IHe; [done|done|done|lia|lia].
Qed.

Lemma print_member_head kv : exists t, print_member json_print kv = quote :: t.
Proof. unfold print_member, json_quote. eexists. reflexivity. Qed.

Lemma print_list_head {A} (p : A -> bytes) x l : exists t, print_list p (x :: l) = p x ++ t.
Proof. destruct l; simpl; [exists []; by rewrite app_nil_r | eauto]. Qed.

Lemma number_not_literal c t :
  is_byte 45 c || is_digit c = true ->
  is_byte 34 c = false /\ is_byte 123 c = false /\ is_byte 91 c = false /\
  has_prefix (c :: t) (str "true") = false /\ has_prefix (c :: t) (str "false") = false /\
  has_prefix (c :: t) (str "null") = false.
Proof. destruct c; intros H; try discriminate H; repeat split; reflexivity. Qed.

Lemma rt_value_step fuel : rt_elements fuel -> rt_members fuel -> rt_value (S fuel).
Proof.
  intros IHe IHm v depth rest Hwf Hr Hd Hf.
  destruct v as [|[]|n|s|l|l]; [reflexivity|reflexivity|reflexivity|..].
  - destruct (json_print_head (JNum n) Hwf) as (c & t & E & Hc).
    destruct Hwf as [Hh Hp]. cbn [json_print] in E. rewrite E in *. cbn [json_print]. clear E n.
    destruct (number_not_literal c (t ++ rest) Hh) as (E1 & E2 & E3 & E4 & E5 & E6).
    cbn [app]. cbn [parse_value]. rewrite (skip_ws_head _ _ Hc). rewrite E1, E2, E3, E4, E5, E6.
    change (c :: t ++ rest) with ((c :: t) ++ rest). by rewrite Hp.
  - cbn [json_print] in *. unfold json_quote. cbn [app]. rewrite <-app_assoc.
    cbn [parse_value skip_ws].
    change (is_byte 32 quote || is_byte 9 quote || is_byte 10 quote || is_byte 13 quote) with false.
    cbv iota. change (is_byte 34 quote) with true. cbv iota.
    change ([quote] ++ rest) with (quote :: rest).
    rewrite parse_string_esc; [reflexivity|done|rewrite length_app; simpl; lia].
  - cbn [json_print json_height json_wf] in *.
    change (str "[" ++ print_list json_print l ++ str "]")
      with (Byte.x5b :: print_list json_print l ++ [Byte.x5d]) in *.
    cbn [app length] in *. rewrite length_app in Hf. simpl in Hf. rewrite <-app_assoc.
    change ([Byte.x5d] ++ rest) with (Byte.x5d :: rest).
    cbn [parse_value skip_ws].
    change (is_byte 32 Byte.x5b || is_byte 9 Byte.x5b || is_byte 10 Byte.x5b || is_byte 13 Byte.x5b)
      with false. cbv iota.
    change (is_byte 34 Byte.x5b) with false. change (is_byte 123 Byte.x5b) with false.
    change (is_byte 91 Byte.x5b) with true. cbv iota.
    assert (0 <= foldr (fun v h => Z.max (json_height v) h) 0 l) by (clear; induction l; simpl; lia).
    rewrite (proj2 (Z.leb_gt _ _)) by lia.
    destruct l as [|v l]; [reflexivity|].
    destruct (json_print_head v (proj1 Hwf)) as (c & t & E & Hc).
    destruct (print_list_head json_print v l) as [t' E'].
    rewrite E', E. cbn [app]. rewrite (skip_ws_head _ _ Hc).
    assert (is_byte 93 c = false) as -> by (unfold value_head in Hc; apply negb_true_iff in Hc;
      repeat (apply orb_false_split in Hc as [Hc ?]); done).
    change (c :: (t ++ t') ++ Byte.x5d :: rest) with ((c :: t ++ t') ++ Byte.x5d :: rest).
    replace (c :: t ++ t') with (print_list json_print (v :: l)) by (rewrite E', E; done).
    rewrite IHe; [done|done|done|lia|lia].
  - cbn [json_print json_height json_wf] in *.
    change (str "{" ++ print_list (print_member json_print) l ++ str "}")
      with (Byte.x7b :: print_list (print_member json_print) l ++ [Byte.x7d]) in *.
    cbn [app length] in *. rewrite length_app in Hf. simpl in Hf. rewrite <-app_assoc.
    change ([Byte.x7d] ++ rest) with (Byte.x7d :: rest).
    cbn [parse_value skip_ws].
    change (is_byte 32 Byte.x7b || is_byte 9 Byte.x7b || is_byte 10 Byte.x7b || is_byte 13 Byte.x7b)
      with false. cbv iota.
    change (is_byte 34 Byte.x7b) with false. change (is_byte 123 Byte.x7b) with true. cbv iota.
    assert (0 <= foldr (fun kv h => Z.max (json_height (snd kv)) h) 0 l) by (clear; induction l; simpl; lia).
    rewrite (proj2 (Z.leb_gt _ _)) by lia.
    destruct l as [|kv l]; [reflexivity|].
    destruct (print_member_head kv) as [t E].
    destruct (print_list_head (print_member json_print) kv l) as [t' E'].
    rewrite E', E. cbn [app]. rewrite skip_ws_head by done.
    change (is_byte 125 quote) with false. cbv iota.
    change (quote :: (t ++ t') ++ Byte.x7d :: rest) with ((quote :: t ++ t') ++ Byte.x7d :: rest).
    replace (quote :: t ++ t') with (print_list (print_member json_print) (kv :: l)) by (rewrite E', E; done).
    rewrite IHm; [done|done|done|lia|lia].
Qed.

Lemma rt_all fuel : rt_value fuel /\ rt_elements fuel /\ rt_members fuel.
Proof.
  induction fuel as [|fuel (IHv & IHe & IHm)].
  - split_and!; intros ????; lia.
  - auto using rt_value_step, rt_elements_step, rt_members_step.
Qed.

(** Parsing the compact text of a well-formed value returns the value. *)
Lemma json_parse_print v :
  json_wf v -> json_height v <= max_nesting -> json_parse (json_print v) = Some v.
Proof.
  intros Hwf Hh. unfold json_parse.
  pose proof (proj1 (rt_all (2 + length (json_print v))) v 0 [] Hwf I ltac:(lia) ltac:(lia)) as E.
  rewrite app_nil_r in E. by rewrite E.
Qed.

(** Integer fields read back. *)
Lemma parse_int_lit_format z : is_int64 z -> parse_int_lit (format_int z) = Some z.
Proof.
  unfold is_int64, max_int64, format_int. intros Hz.
  destruct (Z.ltb_spec z 0).
  - change (str "-" ++ format_uint (- z)) with (Byte.x2d :: format_uint (- z)).
    unfold parse_int_lit. change (is_byte 45 Byte.x2d) with true. cbv iota.
    pose proof (dec_digits_nonempty 20 (- z) [] ltac:(lia)).
    unfold format_uint. rewrite dec_digits_value.
    + destruct (dec_digits 20 (- z) []); [done|]. simpl. f_equal. lia.
    + change (10 ^ Z.of_nat 20) with 100000000000000000000. lia.
  - destruct (parse_int_part_uint z []) as [_ (c & r & E & Hc)]; [unfold is_uint64, max_uint64; lia|done|].
    unfold parse_int_lit. rewrite E. rewrite digit_not_minus by done. rewrite <-E. unfold format_uint.
    apply dec_digits_value. change (10 ^ Z.of_nat 20) with 100000000000000000000. lia.
Qed.

Lemma set_int_jint {T} lo hi (put : Z -> T -> T) z x :
  is_int64 z -> lo <= z <= hi -> set_int lo hi put (jint z) x = Some (put z x).
Proof.
  intros Hz Hr. unfold set_int, jint. rewrite parse_int_lit_format by done.
  rewrite (proj2 (Z.leb_le lo z)), (proj2 (Z.leb_le z hi)) by lia. done.
Qed.

Lemma set_members_hit {T} (fs : list (field T)) k set v l x x' :
  find_field fs k = Some set -> set v x = Some x' ->
  set_members fs ((k, v) :: l) x = set_members fs l x'.
Proof. intros E1 E2. simpl. by rewrite E1, E2. Qed.

(** ** Flat structs

    The journal records are structs of strings, integers and lists of strings.
    A schema lists the fields in declaration order with their JSON names and
    [omitempty] flags; a value of the struct is the list of its field values.
    [marshal_struct] and [unmarshal_struct] are [json.Marshal] and
    [json.Unmarshal] on such a struct. *)
Inductive kind := KStr | KInt (lo hi : Z) | KStrs | KBytes.
Inductive scalar := SStr (s : bytes) | SInt (z : Z) | SStrs (l : option (list bytes)) | SBytes (b : option bytes).
Record jfield := { jf_name : bytes; jf_kind : kind; jf_omit : bool }.

Definition k_int64 : kind := KInt (-9223372036854775808) max_int64.
Definition k_uint32 : kind := KInt 0 max_uint32.
Definition k_uint64 : kind := KInt 0 max_uint64.

Definition zero_scalar (k : kind) : scalar :=
  match k with KStr => SStr [] | KInt _ _ => SInt 0 | KStrs => SStrs None | KBytes => SBytes None end.

(** Is the value one that [omitempty] leaves out? *)
Definition empty_scalar (v : scalar) : bool :=
  match v with
  | SStr s => bool_decide (s = [])
  | SInt z => z =? 0
  | SStrs None | SStrs (Some []) | SBytes None | SBytes (Some []) => true
  | SStrs _ | SBytes _ => false
  end.

Definition scalar_json (v : scalar) : json :=
  match v with
  | SStr s => JStr s
  | SInt z => jint z
  | SStrs None => JNull
  | SStrs (Some l) => JArr (map JStr l)
  | SBytes None => JNull
  | SBytes (Some b) => JStr (base64_encode b)
  end.

Fixpoint struct_members (schema : list jfield) (vals : list scalar) : list (bytes * json) :=
  match schema, vals with
  | f :: schema, v :: vals =>
      if jf_omit f && empty_scalar v then struct_members schema vals
      else (jf_name f, scalar_json v) :: struct_members schema vals
  | _, _ => []
  end.

Definition marshal_struct (schema : list jfield) (vals : list scalar) : bytes :=
  json_print (JObj (struct_members schema vals)).

(** The elements of a [[]string]; a [null] element is the empty string. *)
Fixpoint json_strings (l : list json) : option (list bytes) :=
  match l with
  | [] => Some []
  | v :: l =>
      match v, json_strings l with
      | JStr s, Some r => Some (s :: r)
      | JNull, Some r => Some ([] :: r)
      | _, _ => None
      end
  end.

(** The elements of a [[]byte] written as a JSON array: numbers from 0 to 255;
    a [null] element leaves what the slice held there, or zero. *)
Fixpoint json_bytes (old : bytes) (l : list json) : option bytes :=
  match l with
  | [] => Some []
  | v :: l =>
      b ← match v with
          | JNull => Some (default Byte.x00 (head old))
          | JNum lit => z ← parse_int_lit lit; if (0 <=? z) && (z <=? 255) then Some (byte_of_Z z) else None
          | _ => None
          end;
      r ← json_bytes (tail old) l;
      Some (b :: r)
  end.

(** Store one JSON value into a field that holds [old]. *)
Definition set_scalar (k : kind) (v : json) (old : scalar) : option scalar :=
  match k, v with
  | KStrs, JNull => Some (SStrs None)
  | KBytes, JNull => Some (SBytes None)
  | _, JNull => Some old
  | KStr, JStr s => Some (SStr s)
  | KInt lo hi, JNum lit =>
      match parse_int_lit lit with
      | Some z => if (lo <=? z) && (z <=? hi) then Some (SInt z) else None
      | None => None
      end
  | KStrs, JArr l => match json_strings l with Some r => Some (SStrs (Some r)) | None => None end
  | KBytes, JStr s => match base64_decode s with Some b => Some (SBytes (Some b)) | None => None end
  | KBytes, JArr l =>
      match json_bytes (match old with SBytes (Some b) => b | _ => [] end) l with
      | Some b => Some (SBytes (Some b))
      | None => None
      end
  | _, _ => None
  end.

(** The field a member name selects: an exact match, else the first match up to case. *)
Fixpoint index_where (p : jfield -> bool) (schema : list jfield) : option nat :=
  match schema with
  | [] => None
  | f :: schema => if p f then Some O else S <$> index_where p schema
  end.

Definition field_index (schema : list jfield) (key : bytes) : option nat :=
  match index_where (fun f => bool_decide (jf_name f = key)) schema with
  | Some i => Some i
  | None => index_where (fun f => bool_decide (fold_name (jf_name f) = fold_name key)) schema
  end.

Fixpoint decode_members (schema : list jfield) (l : list (bytes * json)) (vals : list scalar)
  : option (list scalar) :=
  match l with
  | [] => Some vals
  | (k, v) :: l =>
      match field_index schema k with
      | None => decode_members schema l vals
      | Some i =>
          match schema !! i, vals !! i with
          | Some f, Some old =>
              match set_scalar (jf_kind f) v old with
              | Some new => decode_members schema l (<[i := new]> vals)
              | None => None
              end
          | _, _ => None
          end
      end
  end.

Definition zero_struct (schema : list jfield) : list scalar := map (fun f => zero_scalar (jf_kind f)) schema.

Definition unmarshal_struct (schema : list jfield) (s : bytes) : option (list scalar) :=
  match json_parse s with
  | Some (JObj l) => decode_members schema l (zero_struct schema)
  | Some JNull => Some (zero_struct schema)
  | _ => None
  end.

(** Typed access to the decoded values. *)
Definition get_str (v : scalar) : bytes := match v with SStr s => s | _ => [] end.
Definition get_int (v : scalar) : Z := match v with SInt z => z | _ => 0 end.
Definition get_strs (v : scalar) : option (list bytes) := match v with SStrs l => l | _ => None end.
Definition get_bytes (v : scalar) : option bytes := match v with SBytes b => b | _ => None end.

(** A value that a field of the given kind can hold and JSON can carry. *)
Definition scalar_fits (k : kind) (v : scalar) : Prop :=
  match k, v with
  | KStr, SStr s => utf8_valid s = true
  | KInt lo hi, SInt z => lo <= z <= hi /\ -9223372036854775808 <= z <= max_uint64
  | KStrs, SStrs l => Forall (fun s => utf8_valid s = true) (default [] l)
  | KBytes, SBytes _ => True
  | _, _ => False
  end.

(** [omitempty] drops an empty, non-nil list, so such a value does not survive. *)
Definition field_fits (f : jfield) (v : scalar) : Prop :=
  scalar_fits (jf_kind f) v /\ (jf_omit f = true -> v <> SStrs (Some []) /\ v <> SBytes (Some [])).

(** Decidable well-formedness of a schema: distinct, printable names. *)
Definition schema_ok (schema : list jfield) : bool :=
  forallb (fun i => match schema !! i with
                    | Some f => bool_decide (field_index schema (jf_name f) = Some i) && utf8_valid (jf_name f)
                    | None => false
                    end) (seq 0 (length schema)).

Lemma parse_int_lit_wide z :
  -9223372036854775808 <= z <= max_uint64 -> parse_int_lit (format_int z) = Some z /\ num_ok (format_int z).
Proof.
  intros Hz. destruct (decide (z <= max_int64)).
  - assert (is_int64 z) by (unfold is_int64; lia). auto using parse_int_lit_format, num_ok_int.
  - unfold max_uint64, max_int64 in *.
    assert (is_uint64 z) as Hu by (unfold is_uint64, max_uint64; lia).
    unfold format_int. rewrite (proj2 (Z.ltb_ge _ _)) by lia. split; [|by apply num_ok_uint].
    destruct (parse_int_part_uint z [] Hu I) as [_ (c & r & E & Hc)].
    unfold parse_int_lit. rewrite E. rewrite digit_not_minus by done. rewrite <-E. unfold format_uint.
    apply dec_digits_value. change (10 ^ Z.of_nat 20) with 100000000000000000000. lia.
Qed.

Lemma json_strings_map l : json_strings (map JStr l) = Some l.
Proof. induction l as [|s l IH]; simpl; [done|]. by rewrite IH. Qed.

Lemma set_scalar_json k v old : scalar_fits k v -> set_scalar k (scalar_json v) old = Some v.
Proof.
  destruct k as [|lo hi| |], v as [s|z|[l|]|[b|]]; simpl; try done.
  - intros [Hr Hw]. unfold jint. destruct (parse_int_lit_wide z Hw) as [-> _].
    by rewrite (proj2 (Z.leb_le lo z)), (proj2 (Z.leb_le z hi)) by lia.
  - intros _. by rewrite json_strings_map.
  - intros _. by rewrite base64_roundtrip.
Qed.

Lemma empty_scalar_zero f v :
  field_fits f v -> jf_omit f = true -> empty_scalar v = true -> v = zero_scalar (jf_kind f).
Proof.
  intros [Hf Hn] Ho He. destruct (Hn Ho). unfold scalar_fits in Hf.
  destruct (jf_kind f), v as [s|z|[[|]|]|[[|]|]]; simpl in *; try done; bool_hyps; by subst.
Qed.

(** ** ASCII texts are valid UTF-8 *)
Lemma utf8_ascii_fuel s : ascii s -> utf8_valid_fuel (length s) s = true.
Proof.
  induction s as [|b s IH]; [done|]. intros H. apply Forall_cons in H as [Hb Hs].
  cbn [length utf8_valid_fuel utf8_split]. unfold in_range. pose proof (u8_range b).
  assert ((0 <=? u8 b) && (u8 b <=? 127) = true) as -> by lia. by apply IH.
Qed.

Lemma utf8_ascii s : ascii s -> utf8_valid s = true.
Proof. apply utf8_ascii_fuel. Qed.

Lemma scalar_json_wf k v : scalar_fits k v -> json_wf (scalar_json v) /\ json_height (scalar_json v) <= 1.
Proof.
  destruct k, v as [s|z|[l|]|[b|]]; simpl; try done.
  - intros [_ Hw]. split; [by apply parse_int_lit_wide|lia].
  - intros Hl. induction Hl as [|s l Hs Hl [IH1 IH2]]; simpl; [done|]. split; [done|lia].
  - intros _. split; [apply utf8_ascii, base64_ascii|done].
Qed.

Lemma decode_struct schema all pre vals todo :
  schema_ok all = true -> all = pre ++ schema -> length todo = length pre ->
  Forall2 field_fits schema vals ->
  decode_members all (struct_members schema vals) (todo ++ zero_struct schema) = Some (todo ++ vals).
Proof.
  intros Hok. revert pre vals todo.
  induction schema as [|f schema IH]; intros pre vals todo Hall Hl HF.
  { apply Forall2_nil_inv_l in HF as ->. done. }
  apply Forall2_cons_inv_l in HF as (v & vals' & Hf & HF & ->).
  assert (all = (pre ++ [f]) ++ schema) as Hall' by (by rewrite Hall, <-app_assoc).
  cbn [struct_members]. destruct (jf_omit f && empty_scalar v) eqn:Eo.
  - apply andb_true_split in Eo as [Eo Ee]. pose proof (empty_scalar_zero f v Hf Eo Ee) as ->.
    cbn [zero_struct map].
    replace (todo ++ zero_scalar (jf_kind f) :: map (fun f => zero_scalar (jf_kind f)) schema)
      with ((todo ++ [zero_scalar (jf_kind f)]) ++ zero_struct schema) by (by rewrite <-app_assoc).
    rewrite (IH (pre ++ [f])); [by rewrite <-app_assoc|done|rewrite !length_app; simpl; lia|done].
  - cbn [decode_members].
    assert (all !! length pre = Some f) as Hget by (by rewrite Hall, list_lookup_middle).
    assert (field_index all (jf_name f) = Some (length pre)) as ->.
    { unfold schema_ok in Hok. rewrite forallb_forall in Hok.
      specialize (Hok (length pre)). rewrite Hget in Hok.
      assert (In (length pre) (seq 0 (length all))) as Hin.
      { apply in_seq. rewrite Hall, length_app. simpl. lia. }
      specialize (Hok Hin). bool_hyps. done. }
    rewrite Hget. rewrite <-Hl. cbn [zero_struct map].
    rewrite list_lookup_middle by done.
    rewrite set_scalar_json by (apply Hf).
    rewrite insert_app_r_alt, Nat.sub_diag by lia. cbn [list_insert insert].
    replace (todo ++ v :: map (fun f => zero_scalar (jf_kind f)) schema)
      with ((todo ++ [v]) ++ zero_struct schema) by (by rewrite <-app_assoc).
    rewrite (IH (pre ++ [f])); [by rewrite <-app_assoc|done|rewrite !length_app; simpl; lia|done].
Qed.

Lemma struct_members_wf all schema vals :
  schema_ok all = true -> (exists pre, all = pre ++ schema) -> Forall2 field_fits schema vals ->
  json_wf (JObj (struct_members schema vals)) /\ json_height (JObj (struct_members schema vals)) <= 2.
Proof.
  intros Hok. revert vals. induction schema as [|f schema IH]; intros vals [pre Hall] HF.
  { apply Forall2_nil_inv_l in HF as ->. done. }
  apply Forall2_cons_inv_l in HF as (v & vals' & Hf & HF & ->). cbn [struct_members].
  destruct (IH vals') as [W H]; [exists (pre ++ [f]); by rewrite Hall, <-app_assoc|done|].
  destruct (jf_omit f && empty_scalar v); [done|].
  destruct (scalar_json_wf _ _ (proj1 Hf)) as [Wv Hv].
  assert (utf8_valid (jf_name f) = true).
  { unfold schema_ok in Hok. rewrite forallb_forall in Hok. specialize (Hok (length pre)).
    rewrite Hall, list_lookup_middle in Hok by done.
    assert (In (length pre) (seq 0 (length (pre ++ f :: schema)))) as Hin.
    { apply in_seq. rewrite length_app. simpl. lia. }
    specialize (Hok Hin). bool_hyps. done. }
  cbn [json_wf foldr json_height fst snd] in *. split; [done|lia].
Qed.

(** Unmarshalling what was marshalled gives the struct back. *)
Lemma unmarshal_marshal schema vals :
  schema_ok schema = true -> Forall2 field_fits schema vals ->
  unmarshal_struct schema (marshal_struct schema vals) = Some vals.
Proof.
  intros Hok HF. destruct (struct_members_wf schema schema vals Hok) as [W H]; [by exists []|done|].
  unfold unmarshal_struct, marshal_struct.
  rewrite json_parse_print; [|done|unfold max_nesting; lia].
  apply (decode_struct schema schema [] vals []); done.
Qed.

#[export] Hint Resolve utf8_ascii : guardian.

(** ** Marshalled ASCII structs are plain text

    ASCII without NUL: the characters are the bytes. *)
Definition plain (s : bytes) : Prop := Forall (fun b => 0 < u8 b < 128) s.

Definition plainb (s : bytes) : bool := forallb (fun b => (0 <? u8 b) && (u8 b <? 128)) s.

Lemma plainb_plain s : plainb s = true -> plain s.
Proof.
  unfold plainb, plain. rewrite forallb_forall. intros H. apply Forall_forall. intros b Hb.
  apply list_elem_of_In, H in Hb. lia.
Qed.

Lemma plain_app a b : plain a -> plain b -> plain (a ++ b).
Proof. by apply Forall_app_2. Qed.

Lemma esc_chunk_table : forallb (fun n => plainb (esc_chunk [byte_of_Z n])) (seqZ 0 128) = true.
Proof. vm_compute. reflexivity. Qed.

Lemma plain_esc_chunk b : u8 b < 128 -> plain (esc_chunk [b]).
Proof.
  intros Hb. pose proof (u8_range b). rewrite <-(byte_of_Z_u8 b).
  apply plainb_plain, (forallb_seqZ _ 0 128 _ esc_chunk_table). lia.
Qed.

Lemma plain_esc_string n s : ascii s -> plain (esc_string n s).
Proof.
  revert s. induction n as [|n IH]; intros s H; [constructor|]. destruct s as [|b s]; [constructor|].
  apply Forall_cons in H as [Hb Hs]. pose proof (u8_range b). cbn [esc_string utf8_split]. unfold in_range.
  assert ((0 <=? u8 b) && (u8 b <=? 127) = true) as -> by lia.
  apply plain_app; [by apply plain_esc_chunk|by apply IH].
Qed.

Lemma plain_json_quote s : ascii s -> plain (json_quote s).
Proof.
  intros H. unfold json_quote. constructor; [by vm_compute|].
  apply plain_app; [by apply plain_esc_string|]. by apply plainb_plain.
Qed.

(** A member list of string fields. *)
Lemma plain_print_members l :
  Forall (fun kv => ascii (fst kv) /\ exists s, snd kv = JStr s /\ ascii s) l ->
  plain (print_list (print_member json_print) l).
Proof.
  intros H. induction H as [|[k v] l [Hk (s & Ev & Hs)] H IH]; [constructor|]. cbn [fst snd] in *. subst v.
  assert (plain (print_member json_print (k, JStr s))) as Hm.
  { unfold print_member. cbn [fst snd json_print]. apply plain_app; [by apply plain_json_quote|].
    apply plain_app; [by apply plainb_plain|by apply plain_json_quote]. }
  cbn [print_list]. destruct l as [|kv l]; [exact Hm|].
  apply plain_app; [exact Hm|apply plain_app; [by apply plainb_plain|exact IH]].
Qed.

Lemma plain_marshal_struct schema vals :
  Forall (fun f => ascii (jf_name f)) schema -> Forall (fun v => exists s, v = SStr s /\ ascii s) vals ->
  plain (marshal_struct schema vals).
Proof.
  intros Hf Hv. unfold marshal_struct. cbn [json_print].
  apply plain_app; [by apply plainb_plain|]. apply plain_app; [|by apply plainb_plain]. apply plain_print_members.
  revert vals Hv. induction Hf as [|f schema Hn Hf IH]; intros vals Hv; [constructor|].
  destruct Hv as [|v vals (s & -> & Hs) Hv]; [constructor|]. cbn [struct_members].
  destruct (jf_omit f && _); [by apply IH|]. constructor; [|by apply IH]. cbn. eauto.
Qed.
