(* ===== verification/WebAuthn.v ===== *)
(** * WebAuthn ceremonies ([src/internal/webauthn/assert.go], [create.go])

    The relying-party checks of an assertion ([Validate]) and of a credential
    creation ([ValidateCreate]), the attestation object and the COSE key inside
    the authenticator data, and the encoders of the same formats.
    [webauthn_validate_exact] lists what an accepted assertion certifies;
    [attested_credential_roundtrip] says that the extractor recovers the
    credential the encoder wrote. *)
From Stdlib Require Import Strings.Byte.
From S2P Require Import Prelude Sha256 Text Base64 Json Cbor P256.

Definition flagUP : Z := 1.
Definition flagUV : Z := 4.
Definition flagAT : Z := 64.
Definition flagED : Z := 128.
Definition maxClientDataJSON : Z := 4096.

Record Assertion := {
  a_CredentialID : bytes;
  a_ClientDataJSON : bytes;
  a_AuthenticatorData : bytes;
  a_DERSignature : bytes;
}.

(** [CrossOrigin] is a [*bool]. *)
Record ClientData := {
  cd_Type : bytes;
  cd_Challenge : bytes;
  cd_Origin : bytes;
  cd_CrossOrigin : option bool;
}.

Record Expected := {
  e_CredentialID : bytes;
  e_WebAuthnP256 : bytes;
  e_Challenge : bytes;
  e_Origin : bytes;
  e_RPID : bytes;
}.

Record Verified := {
  v_Assertion : Assertion;
  v_CompactSig : bytes;
  v_ClientData : ClientData;
  v_SignCount : Z;
}.

(** ** Client data *)
Definition zero_client_data : ClientData :=
  {| cd_Type := []; cd_Challenge := []; cd_Origin := []; cd_CrossOrigin := None |}.

Definition set_bool_ptr {T} (put : option bool -> T -> T) (v : json) (x : T) : option T :=
  match v with
  | JBool b => Some (put (Some b) x)
  | JNull => Some (put None x)
  | _ => None
  end.

Definition client_data_fields : list (field ClientData) :=
  [(str "type", set_string (fun s c => {| cd_Type := s; cd_Challenge := cd_Challenge c;
      cd_Origin := cd_Origin c; cd_CrossOrigin := cd_CrossOrigin c |}));
   (str "challenge", set_string (fun s c => {| cd_Type := cd_Type c; cd_Challenge := s;
      cd_Origin := cd_Origin c; cd_CrossOrigin := cd_CrossOrigin c |}));
   (str "origin", set_string (fun s c => {| cd_Type := cd_Type c; cd_Challenge := cd_Challenge c;
      cd_Origin := s; cd_CrossOrigin := cd_CrossOrigin c |}));
   (str "crossOrigin", set_bool_ptr (fun b c => {| cd_Type := cd_Type c; cd_Challenge := cd_Challenge c;
      cd_Origin := cd_Origin c; cd_CrossOrigin := b |}))].

Definition unmarshal_client_data (s : bytes) : result ClientData :=
  match json_unmarshal client_data_fields zero_client_data s with
  | Some cd => Ok cd
  | None => Err (ErrMsg "clientDataJSON: %w")
  end.

Definition decodeChallenge (s : bytes) : result bytes :=
  match rawurl_decode s with
  | Some raw => Ok raw
  | None => Err (ErrMsg "challenge encoding: %w")
  end.

Definition EncodeChallenge (raw : bytes) : bytes := rawurl_encode raw.

Definition ChallengeFromClientDataJSON (clientDataJSON : bytes) : result bytes :=
  cd ← unmarshal_client_data clientDataJSON;
  raw ← decodeChallenge (cd_Challenge cd);
  _ ← fail_if (negb (blen raw =? 32)) (ErrMsg "challenge must be 32 bytes");
  Ok raw.

(** The flags byte of the authenticator data, and the test of one flag. *)
Definition auth_flags (auth : bytes) : Z := u8 (nth 32 auth Byte.x00).
Definition has_flag (auth : bytes) (flag : Z) : bool := negb (Z.land (auth_flags auth) flag =? 0).

Definition SignCount (authData : bytes) : Z :=
  if blen authData <? 37 then 0
  else Z.lor (Z.lor (Z.lor (Z.shiftl (u8 (nth 33 authData Byte.x00)) 24) (Z.shiftl (u8 (nth 34 authData Byte.x00)) 16))
                    (Z.shiftl (u8 (nth 35 authData Byte.x00)) 8))
             (u8 (nth 36 authData Byte.x00)).

(** ** Assertions *)
Section Assertions.
Context `{EcdsaVerify}.

Definition Validate (a : Assertion) (exp : Expected) : result Verified :=
  _ ← fail_if (a_CredentialID a != e_CredentialID exp) (ErrMsg "unknown credential");
  _ ← fail_if (negb (blen (e_WebAuthnP256 exp) =? 33)) (ErrMsg "registered webauthn p256 key must be 33-byte compressed");
  _ ← fail_if (negb (blen (e_Challenge exp) =? 32)) (ErrMsg "challenge must be 32-byte arkade sighash");
  _ ← fail_if (blen (a_AuthenticatorData a) <? 37) (ErrMsg "authenticatorData too short");
  _ ← fail_if ((blen (a_ClientDataJSON a) =? 0) || (maxClientDataJSON <? blen (a_ClientDataJSON a)))
              (ErrMsg "clientDataJSON too large");
  cd ← unmarshal_client_data (a_ClientDataJSON a);
  _ ← fail_if (cd_Type cd != str "webauthn.get") (ErrMsg "clientDataJSON type %q");
  _ ← fail_if (cd_Origin cd != e_Origin exp) (ErrMsg "origin %q");
  _ ← fail_if (cd_CrossOrigin cd != Some false) (ErrMsg "crossOrigin must be false");
  gotChallenge ← decodeChallenge (cd_Challenge cd);
  _ ← fail_if (gotChallenge != e_Challenge exp) (ErrMsg "challenge mismatch");
  _ ← fail_if (take 32 (a_AuthenticatorData a) != sha256 (e_RPID exp)) (ErrMsg "rpIdHash mismatch");
  _ ← fail_if (negb (has_flag (a_AuthenticatorData a) flagUP)) (ErrMsg "user presence required");
  _ ← fail_if (negb (has_flag (a_AuthenticatorData a) flagUV)) (ErrMsg "user verification required");
  compact ← CompactLowS (a_DERSignature a);
  pub ← ParseCompressedP256 (e_WebAuthnP256 exp);
  _ ← VerifyES256 (Some pub) (a_AuthenticatorData a) (a_ClientDataJSON a) compact;
  Ok {| v_Assertion := a; v_CompactSig := compact; v_ClientData := cd;
        v_SignCount := SignCount (a_AuthenticatorData a) |}.
End Assertions.

(** ** Leaked PRF results *)
(** A Go map decoded from an object: the last member of a name counts. *)
Definition json_member (key : bytes) (l : list (bytes * json)) : option json :=
  snd <$> List.find (fun kv => fst kv == key) (rev l).

Definition ContainsPRFField (raw : bytes) : bool :=
  match json_parse raw with
  | Some (JObj obj) =>
      match json_member (str "prf") obj with
      | Some _ => true
      | None =>
          match json_member (str "clientExtensionResults") obj with
          | Some (JObj extObj) => match json_member (str "prf") extObj with Some _ => true | None => false end
          | _ => false
          end
      end
  | _ => false
  end.

(** ** Credential creation *)
Definition coseKtyEC2 : Z := 2.
Definition coseAlgES256 : Z := -7.
Definition coseCrvP256 : Z := 1.

Record CreateResult := { cres_CredentialID : bytes; cres_WebAuthnP256 : bytes }.

Definition compressedP256XY (x y : bytes) : result bytes :=
  _ ← fail_if (negb (blen x =? 32) || negb (blen y =? 32)) (ErrMsg "p256 coordinates");
  match ParseUncompressedPublicKey (byte_of_Z 4 :: x ++ y) with
  | None => Err (ErrMsg "p256 point is off-curve")
  | Some _ =>
      let out := byte_of_Z (if Z.land (u8 (List.last y Byte.x00)) 1 =? 1 then 3 else 2) :: x in
      _ ← ParseCompressedP256 out;
      Ok out
  end.

(** [v.mapInt(key)] with the kind test on what it finds. *)
Definition map_int_is (v : cborValue) (key want : Z) (what : string) : result unit :=
  match mapInt v key with
  | Some (CInt z) => fail_if (negb (z =? want)) (ErrMsg what)
  | _ => Err (ErrMsg what)
  end.

Definition map_coordinate (v : cborValue) (key : Z) (what : string) : result bytes :=
  match mapInt v key with
  | Some (CBytes b) => if blen b =? 32 then Ok b else Err (ErrMsg what)
  | _ => Err (ErrMsg what)
  end.

Definition parseCOSEES256 (raw : bytes) : result (bytes * bytes) :=
  '(val, rest) ← wrap_err "cose key: %w" (decodeCBOR raw);
  _ ← map_int_is val 1 coseKtyEC2 "cose kty must be EC2";
  _ ← map_int_is val 3 coseAlgES256 "cose alg must be ES256";
  _ ← map_int_is val (-1) coseCrvP256 "cose curve must be P-256";
  x ← map_coordinate val (-2) "cose x must be 32 bytes";
  y ← map_coordinate val (-3) "cose y must be 32 bytes";
  compressed ← compressedP256XY x y;
  Ok (compressed, rest).

(** The optional extensions after the key. *)
Definition check_extensions (flagged : bool) (rest : bytes) : result unit :=
  if flagged then
    _ ← fail_if (blen rest =? 0) (ErrMsg "authenticator extensions required");
    '(ext, rest) ← wrap_err "authenticator extensions: %w" (decodeCBOR rest);
    _ ← fail_if (match ext with CMap (_ :: _) => false | _ => true end)
                (ErrMsg "authenticator extensions must be a non-empty map");
    fail_if (negb (blen rest =? 0)) (ErrMsg "trailing authenticator extension data")
  else fail_if (negb (blen rest =? 0)) (ErrMsg "unexpected trailing authenticator data").

Definition attested_header : Z := 37 + 16 + 2.

Definition extractAttestedCredential (auth : bytes) : result CreateResult :=
  _ ← fail_if (blen auth <? attested_header) (ErrMsg "attested credential data truncated");
  let credLen := u8 (nth 53 auth Byte.x00) * 256 + u8 (nth 54 auth Byte.x00) in
  _ ← fail_if ((credLen =? 0) || (blen auth <=? attested_header + credLen)) (ErrMsg "attested credential id truncated");
  let credID := take (Z.to_nat credLen) (drop (Z.to_nat attested_header) auth) in
  '(compressed, rest) ← parseCOSEES256 (drop (Z.to_nat (attested_header + credLen)) auth);
  _ ← check_extensions (has_flag auth flagED) rest;
  Ok {| cres_CredentialID := credID; cres_WebAuthnP256 := compressed |}.

Definition ValidateCreate (clientDataJSON authenticatorData challenge origin rpID : bytes) : result CreateResult :=
  _ ← fail_if (negb (blen challenge =? 32)) (ErrMsg "challenge must be 32 bytes");
  _ ← fail_if (blen authenticatorData <? 37) (ErrMsg "authenticatorData too short");
  _ ← fail_if ((blen clientDataJSON =? 0) || (maxClientDataJSON <? blen clientDataJSON)) (ErrMsg "clientDataJSON too large");
  cd ← unmarshal_client_data clientDataJSON;
  _ ← fail_if (cd_Type cd != str "webauthn.create") (ErrMsg "clientDataJSON type %q");
  _ ← fail_if (cd_Origin cd != origin) (ErrMsg "origin");
  _ ← fail_if (cd_CrossOrigin cd != Some false) (ErrMsg "crossOrigin must be false");
  gotChallenge ← decodeChallenge (cd_Challenge cd);
  _ ← fail_if (gotChallenge != challenge) (ErrMsg "challenge mismatch");
  _ ← fail_if (take 32 authenticatorData != sha256 rpID) (ErrMsg "rpIdHash mismatch");
  _ ← fail_if (negb (has_flag authenticatorData flagUP)) (ErrMsg "user presence required");
  _ ← fail_if (negb (has_flag authenticatorData flagUV)) (ErrMsg "user verification required");
  _ ← fail_if (negb (has_flag authenticatorData flagAT)) (ErrMsg "attested credential data required");
  extractAttestedCredential authenticatorData.

Definition ParseAttestationObject (raw : bytes) : result bytes :=
  '(val, rest) ← wrap_err "attestationObject: %w" (decodeCBOR raw);
  _ ← fail_if (negb (blen rest =? 0)) (ErrMsg "attestationObject trailing data");
  match mapText val (str "fmt") with
  | Some (CText f) =>
      _ ← fail_if (f != str "none") (ErrMsg "unsupported attestation format %q");
      match mapText val (str "authData") with
      | Some (CBytes auth) =>
          if blen auth <? 37 then Err (ErrMsg "attestationObject authData required") else Ok auth
      | _ => Err (ErrMsg "attestationObject authData required")
      end
  | _ => Err (ErrMsg "attestationObject fmt required")
  end.

(** ** Encoders *)
Definition EncodeCOSEES256 (compressed : bytes) : result bytes :=
  pub ← ParseCompressedP256 compressed;
  let x := be_bytes 32 (pk_X pub) in
  let y := be_bytes 32 (pk_Y pub) in
  Ok (encodeCBORMap
        [encodeCBORUnsigned 1 ++ encodeCBORUnsigned coseKtyEC2;
         encodeCBORUnsigned 3 ++ encodeCBORNegative coseAlgES256;
         encodeCBORNegative (-1) ++ encodeCBORUnsigned coseCrvP256;
         encodeCBORNegative (-2) ++ encodeCBORBytes x;
         encodeCBORNegative (-3) ++ encodeCBORBytes y]).

Definition EncodeNoneAttestationObject (authData : bytes) : bytes :=
  encodeCBORMap
    [encodeCBORText (str "fmt") ++ encodeCBORText (str "none");
     encodeCBORText (str "authData") ++ encodeCBORBytes authData;
     encodeCBORText (str "attStmt") ++ encodeCBORMap []].

Definition attestedAuthenticatorData (rpID credID compressedP256 extensions : bytes) : result bytes :=
  cose ← EncodeCOSEES256 compressedP256;
  _ ← fail_if ((blen credID =? 0) || (1024 <? blen credID)) (ErrMsg "credential id required");
  let flags := Z.lor (Z.lor (Z.lor flagUP flagUV) flagAT) (if 0 <? blen extensions then flagED else 0) in
  Ok (sha256 rpID ++ [byte_of_Z flags] ++ replicate 4 Byte.x00 ++ replicate 16 Byte.x00
      ++ be_bytes 2 (blen credID) ++ credID ++ cose ++ extensions).

Definition AttestedAuthenticatorData (rpID credID compressedP256 : bytes) : result bytes :=
  attestedAuthenticatorData rpID credID compressedP256 [].

Definition prf_extensions : bytes :=
  encodeCBORMap
    [encodeCBORText (str "hmac-secret") ++ encodeCBORBool true;
     encodeCBORText (str "prf") ++ encodeCBORMap [encodeCBORText (str "enabled") ++ encodeCBORBool true]].

Definition AttestedAuthenticatorDataPRF (rpID credID compressedP256 : bytes) : result bytes :=
  attestedAuthenticatorData rpID credID compressedP256 prf_extensions.

Arguments sha256 : simpl never.
Arguments CompactLowS : simpl never.
Arguments ParseCompressedP256 : simpl never.
Arguments decodeCBOR : simpl never.

(** ** What an accepted assertion certifies *)
Section Accepted.
Context `{EcdsaVerify}.

(** The relying party's conditions on an assertion [a] for the expectation
    [exp], with the parsed client data, the registered point and the scalars of
    the signature. *)
Record certifies (a : Assertion) (exp : Expected) (cd : ClientData) (pub : PublicKey) (r s : Z) : Prop := {
  ce_credential : a_CredentialID a = e_CredentialID exp;
  ce_challenge_size : blen (e_Challenge exp) = 32;
  ce_auth_size : 37 <= blen (a_AuthenticatorData a);
  ce_client_size : 0 < blen (a_ClientDataJSON a) <= maxClientDataJSON;
  ce_client : unmarshal_client_data (a_ClientDataJSON a) = Ok cd;
  ce_type : cd_Type cd = str "webauthn.get";
  ce_origin : cd_Origin cd = e_Origin exp;
  ce_same_origin : cd_CrossOrigin cd = Some false;
  ce_challenge : rawurl_decode (cd_Challenge cd) = Some (e_Challenge exp);
  ce_rp : take 32 (a_AuthenticatorData a) = sha256 (e_RPID exp);
  ce_presence : has_flag (a_AuthenticatorData a) flagUP = true;
  ce_verification : has_flag (a_AuthenticatorData a) flagUV = true;
  ce_key : ParseCompressedP256 (e_WebAuthnP256 exp) = Ok pub;
  ce_der : der_unmarshal (a_DERSignature a) = Ok (r, s, []);
  ce_r : 0 < r < p256_N;
  ce_s : 0 < s < p256_N;
  ce_signature : ecdsa_Verify pub (Digest (a_AuthenticatorData a) (a_ClientDataJSON a)) r (low_s s) = true;
}.

Definition verified (a : Assertion) (cd : ClientData) (r s : Z) : Verified :=
  {| v_Assertion := a; v_CompactSig := compact_sig r (low_s s); v_ClientData := cd;
     v_SignCount := SignCount (a_AuthenticatorData a) |}.

Lemma decodeChallenge_Ok s raw : decodeChallenge s = Ok raw <-> rawurl_decode s = Some raw.
Proof. unfold decodeChallenge. destruct (rawurl_decode s); naive_solver. Qed.

Lemma parse_compressed_length b pub : ParseCompressedP256 b = Ok pub -> blen b = 33.
Proof.
  intros (b0 & xs & -> & Hl & _)%parse_compressed_spec. unfold blen. simpl. by rewrite Hl.
Qed.

Lemma validate_Ok a exp v :
  Validate a exp = Ok v <->
  exists cd pub r s, certifies a exp cd pub r s /\ v = verified a cd r s.
Proof.
  unfold Validate. split.
  - intros H0. inv_ok. bool_hyps.
    match goal with E : CompactLowS _ = Ok _ |- _ => apply CompactLowS_Ok in E as (rr & ss & Hder & Hr & Hs & ->) end.
    match goal with E : VerifyES256 _ _ _ _ = Ok _ |- _ => unfold VerifyES256 in E end.
    rewrite compact_scalars_sig in * by (done || by destruct (low_s_spec ss Hs) as (_ & ? & _)).
    rewrite decodeChallenge_Ok in *. inv_ok. bool_hyps. subst.
    pose proof (blen_nonneg (a_ClientDataJSON a)).
    eexists _, _, rr, ss. split; [|done]. constructor; try done; lia.
  - intros (cd & pub & r & s & C & ->). destruct C.
    pose proof (blen_nonneg (a_ClientDataJSON a)).
    rewrite bool_decide_eq_true_2, ce_challenge_size0, (parse_compressed_length _ _ ce_key0) by done.
    unfold fail_if. rewrite !(proj2 (Z.ltb_ge _ _)), (proj2 (Z.eqb_neq _ _)) by lia. simpl.
    rewrite ce_client0. simpl.
    rewrite ce_type0, ce_origin0, ce_same_origin0, !bool_decide_eq_true_2 by done. simpl.
    rewrite (proj2 (decodeChallenge_Ok _ _) ce_challenge0). simpl.
    rewrite !bool_decide_eq_true_2 by done. simpl. rewrite ce_presence0, ce_verification0. simpl.
    rewrite (CompactLowS_intro _ r s) by done. simpl. rewrite ce_key0. simpl.
    destruct (low_s_spec s ce_s0) as (_ & Hlow & _).
    rewrite compact_scalars_sig by done. unfold mbind, result_bind, fail_if. by rewrite ce_signature0.
Qed.
(** C36: [Validate] accepts exactly the assertions that certify, for the
    expected credential, challenge, origin and relying party, the presence and
    verification of the user under a signature of the registered key over the
    authenticator data and the client data; what it returns is the assertion
    with its counter and the signature in low form. *)
Theorem webauthn_validate_exact a exp v :
  Validate a exp = Ok v <->
  exists cd pub r s, certifies a exp cd pub r s /\ v = verified a cd r s.
Proof. apply validate_Ok. Qed.
End Accepted.

(** ** The credential inside the authenticator data *)
Definition cose_key (pub : PublicKey) : cborValue :=
  CMap [(CInt 1, CInt coseKtyEC2); (CInt 3, CInt coseAlgES256); (CInt (-1), CInt coseCrvP256);
        (CInt (-2), CBytes (be_bytes 32 (pk_X pub))); (CInt (-3), CBytes (be_bytes 32 (pk_Y pub)))].

Lemma cose_key_wf pub : cbor_wf (cose_key pub).
Proof.
  apply cbor_wf_map. split; [simpl; lia|]. split.
  - unfold distinct_keys. simpl. repeat (apply NoDup_cons; split; [set_solver|]). apply NoDup_nil_2.
  - repeat apply Forall_cons_2; try apply Forall_nil_2; unfold pair_wf; simpl; unfold blen;
      rewrite ?be_bytes_length; unfold coseKtyEC2, coseAlgES256, coseCrvP256; lia.
Qed.

Lemma EncodeCOSEES256_key k pub : ParseCompressedP256 k = Ok pub ->
  EncodeCOSEES256 k = Ok (cbor_encode (cose_key pub)).
Proof. intros E. unfold EncodeCOSEES256. rewrite E. reflexivity. Qed.

Lemma cose_key_length pub : length (cbor_encode (cose_key pub)) = 77%nat.
Proof. reflexivity. Qed.

(** Recompressing the coordinates of a parsed key gives the key back. *)
Lemma recompress k pub : ParseCompressedP256 k = Ok pub -> pk_Y pub <> 0 ->
  compressedP256XY (be_bytes 32 (pk_X pub)) (be_bytes 32 (pk_Y pub)) = Ok k.
Proof.
  intros Hk Hy. destruct (parse_compressed_spec k pub Hk) as (b0 & xs & -> & Hl & Hon & Hxs & Hpre).
  destruct (on_curve_range _ _ Hon) as [Hx HY]. pose proof p256_P_value. pose proof pow_256_value.
  unfold compressedP256XY, blen. rewrite !be_bytes_length. change (Z.of_nat 32 =? 32) with true.
  cbn [negb orb fail_if mbind result_bind].
  pose proof (proj2 (parse_uncompressed (pk_X pub) (pk_Y pub) pub ltac:(lia) ltac:(lia))) as Ep.
  unfold uncompressed in Ep. rewrite Ep by (destruct pub; done).
  replace (if Z.land _ 1 =? 1 then 3 else 2) with (if Z.odd (pk_Y pub) then 3 else 2).
  - rewrite <-Hpre, <-Hxs by done. by rewrite Hk.
  - rewrite be_bytes_rev. cbn [le_bytes rev]. rewrite last_last, u8_byte_of_Z.
    rewrite (Z.land_ones _ 1), Z.pow_1_r, <-Znumtheory.Zmod_div_mod, Zmod_odd by (done || lia || by exists 128).
    by destruct (Z.odd (pk_Y pub)).
Qed.

Lemma parse_cose_key k pub ext : ParseCompressedP256 k = Ok pub -> pk_Y pub <> 0 -> blen ext <= 4000 ->
  parseCOSEES256 (cbor_encode (cose_key pub) ++ ext) = Ok (k, ext).
Proof.
  intros Hk Hy Hext. unfold parseCOSEES256.
  rewrite (decodeCBOR_complete _ (cose_key pub) ext).
  - cbn [wrap_err mbind result_bind]. unfold map_int_is, map_coordinate. cbn.
    unfold blen. rewrite !be_bytes_length. change (Z.of_nat 32 =? 32) with true. unfold mbind, result_bind.
    by rewrite (recompress k).
  - split; [apply cose_key_wf|]. split; [done|]. unfold blen, maxCBORBytes in *.
    rewrite length_app, cose_key_length. lia.
Qed.

(** The extensions an authenticator may append: none, or one non-empty map. *)
Definition extensions_ok (ext : bytes) : Prop :=
  blen ext <= 1024 /\ (ext = [] \/ exists l, l <> [] /\ cbor_wf (CMap l) /\ ext = cbor_encode (CMap l)).

Lemma prf_extensions_ok : extensions_ok prf_extensions.
Proof.
  split; [vm_compute; discriminate|]. right.
  exists [(CText (str "hmac-secret"), CBool true); (CText (str "prf"), CMap [(CText (str "enabled"), CBool true)])].
  split; [done|]. split; [|reflexivity]. apply cbor_wf_map. split; [simpl; lia|]. split.
  - unfold distinct_keys. repeat (apply NoDup_cons; split; [set_solver|]). apply NoDup_nil_2.
  - repeat apply Forall_cons_2; try apply Forall_nil_2; unfold pair_wf; simpl.
    + repeat split; try done.
    + split; [done|]. split; [vm_compute; discriminate|]. split; [lia|]. split; [|done].
      unfold distinct_keys. repeat (apply NoDup_cons; split; [set_solver|]). apply NoDup_nil_2.
Qed.

Lemma check_extensions_ok ext : extensions_ok ext -> check_extensions (0 <? blen ext) ext = Ok tt.
Proof.
  intros [Hl [->|(l & Hne & Hw & ->)]]; [done|]. unfold check_extensions.
  pose proof (encode_nonempty _ Hw) as Hn. unfold blen in *. rewrite (proj2 (Z.ltb_lt _ _)) by lia.
  unfold fail_if. rewrite (proj2 (Z.eqb_neq _ _)) by lia. cbn [mbind result_bind].
  rewrite (decodeCBOR_complete _ (CMap l) []).
  - cbn. by destruct l.
  - rewrite app_nil_r. split; [done|]. split; [done|]. unfold blen, maxCBORBytes. lia.
Qed.

Lemma attested_flags (extended : bool) :
  let flags := Z.lor (Z.lor (Z.lor flagUP flagUV) flagAT) (if extended then flagED else 0) in
  forall sum r, length sum = 32%nat ->
  let auth := sum ++ byte_of_Z flags :: r in
  has_flag auth flagUP = true /\ has_flag auth flagUV = true /\ has_flag auth flagAT = true /\
  has_flag auth flagED = extended.
Proof.
  intros flags sum r Hs auth.
  assert (auth_flags auth = flags) as E.
  { unfold auth_flags, auth. rewrite app_nth2 by lia. rewrite Hs, Nat.sub_diag. simpl. rewrite u8_byte_of_Z.
    subst flags. by destruct extended. }
  unfold has_flag. rewrite E. subst flags. by destruct extended.
Qed.

Lemma attested_layout rpID credID k pub ext auth :
  ParseCompressedP256 k = Ok pub -> attestedAuthenticatorData rpID credID k ext = Ok auth ->
  1 <= blen credID <= 1024 /\
  exists mid, length mid = 20%nat /\
  auth = sha256 rpID ++
         byte_of_Z (Z.lor (Z.lor (Z.lor flagUP flagUV) flagAT) (if 0 <? blen ext then flagED else 0)) :: mid ++
         byte_of_Z (blen credID / 256) :: byte_of_Z (blen credID) ::
         credID ++ cbor_encode (cose_key pub) ++ ext.
Proof.
  intros Hk H. unfold attestedAuthenticatorData in H. rewrite (EncodeCOSEES256_key k pub Hk) in H.
  inv_ok. bool_hyps. pose proof (blen_nonneg credID). split; [lia|].
  exists (replicate 4 Byte.x00 ++ replicate 16 Byte.x00). split; [done|].
  change (be_bytes 2 (blen credID)) with [byte_of_Z (Z.shiftr (blen credID) 8); byte_of_Z (Z.shiftr (blen credID) 0)].
  rewrite Z.shiftr_0_r, Z.shiftr_div_pow2 by lia. done.
Qed.

Lemma extract_layout sum flags mid credID k pub ext :
  ParseCompressedP256 k = Ok pub -> pk_Y pub <> 0 -> extensions_ok ext ->
  length sum = 32%nat -> length mid = 20%nat -> 1 <= blen credID <= 1024 ->
  let auth := sum ++ flags :: mid ++ byte_of_Z (blen credID / 256) :: byte_of_Z (blen credID) ::
              credID ++ cbor_encode (cose_key pub) ++ ext in
  has_flag auth flagED = (0 <? blen ext) ->
  extractAttestedCredential auth = Ok {| cres_CredentialID := credID; cres_WebAuthnP256 := k |}.
Proof.
  intros Hk Hy Hext Hs Hm Hc auth Hed. unfold extractAttestedCredential.
  assert (exists pre, length pre = 53%nat /\
    auth = pre ++ byte_of_Z (blen credID / 256) :: byte_of_Z (blen credID) ::
           credID ++ cbor_encode (cose_key pub) ++ ext) as (pre & Hpre & E).
  { exists (sum ++ flags :: mid). split; [rewrite length_app; simpl; lia|]. unfold auth. by rewrite <-app_assoc. }
  assert (blen auth = 55 + blen credID + 77 + blen ext) as Hlen.
  { rewrite E. unfold blen. rewrite !length_app. cbn [length]. rewrite !length_app, cose_key_length. lia. }
  pose proof (blen_nonneg ext). unfold attested_header, fail_if.
  rewrite (proj2 (Z.ltb_ge _ _)) by lia. cbn [mbind result_bind].
  assert (u8 (nth 53 auth Byte.x00) * 256 + u8 (nth 54 auth Byte.x00) = blen credID) as ->.
  { rewrite E, !app_nth2 by lia. rewrite Hpre. cbn [nth Nat.sub]. rewrite !u8_byte_of_Z.
    rewrite (Z.mod_small (_ / _)) by (Z.div_mod_to_equations; lia). pose proof (Z.div_mod (blen credID) 256). lia. }
  rewrite (proj2 (Z.eqb_neq _ _)), (proj2 (Z.leb_gt _ _)) by lia. cbn [orb mbind result_bind].
  assert (drop (Z.to_nat (37 + 16 + 2)) auth = credID ++ cbor_encode (cose_key pub) ++ ext) as Hd.
  { rewrite E, drop_app_ge by (rewrite Hpre; lia). by rewrite Hpre. }
  assert (drop (Z.to_nat (37 + 16 + 2 + blen credID)) auth = cbor_encode (cose_key pub) ++ ext) as ->.
  { replace (Z.to_nat (37 + 16 + 2 + blen credID)) with (Z.to_nat (37 + 16 + 2) + length credID)%nat by (unfold blen; lia).
    by rewrite <-drop_drop, Hd, drop_app_length. }
  rewrite Hd. unfold blen. rewrite Nat2Z.id, take_app_length. fold (blen ext).
  unfold mbind, result_bind. rewrite (parse_cose_key k pub ext) by (done || destruct Hext; lia).
  by rewrite Hed, (check_extensions_ok ext Hext).
Qed.

(** Attestation round trip: for a registered key that parses, a credential
    id of 1 to 1024 bytes and any admissible extensions, the authenticator data
    the encoder builds survives the attestation object, and the creation
    ceremony over it, with client data for the same challenge and origin,
    returns exactly that credential id and that compressed key. *)
Theorem attested_credential_roundtrip rpID credID k pub ext auth clientData challenge origin :
  ParseCompressedP256 k = Ok pub -> pk_Y pub <> 0 -> extensions_ok ext ->
  attestedAuthenticatorData rpID credID k ext = Ok auth ->
  blen challenge = 32 -> 0 < blen clientData <= maxClientDataJSON ->
  unmarshal_client_data clientData =
    Ok {| cd_Type := str "webauthn.create"; cd_Challenge := EncodeChallenge challenge;
          cd_Origin := origin; cd_CrossOrigin := Some false |} ->
  ParseAttestationObject (EncodeNoneAttestationObject auth) = Ok auth /\
  ValidateCreate clientData auth challenge origin rpID
  = Ok {| cres_CredentialID := credID; cres_WebAuthnP256 := k |}.
Proof.
  intros Hk Hy Hext Ha Hch Hcd Ecd.
  destruct (attested_layout _ _ _ _ _ _ Hk Ha) as (Hc & mid & Hm & E).
  pose proof (sha256_length rpID) as Hs.
  pose proof (attested_flags (0 <? blen ext) (sha256 rpID)
    (mid ++ byte_of_Z (blen credID / 256) :: byte_of_Z (blen credID) :: credID ++ cbor_encode (cose_key pub) ++ ext) Hs) as F.
  cbv zeta in F. rewrite <-E in F. destruct F as (Fup & Fuv & Fat & Fed).
  assert (blen auth = 132 + blen credID + blen ext) as Hlen.
  { rewrite E. unfold blen. rewrite length_app. cbn [length]. rewrite length_app. cbn [length].
    rewrite !length_app, cose_key_length. lia. }
  destruct Hext as [Hel Hext']. pose proof (blen_nonneg ext). split.
  - unfold ParseAttestationObject.
    rewrite (decodeCBOR_complete _
      (CMap [(CText (str "fmt"), CText (str "none")); (CText (str "authData"), CBytes auth); (CText (str "attStmt"), CMap [])]) []).
    + set (obj := CMap _). cbn [wrap_err mbind result_bind].
      assert (mapText obj (str "fmt") = Some (CText (str "none"))) as -> by reflexivity.
      assert (mapText obj (str "authData") = Some (CBytes auth)) as -> by reflexivity.
      rewrite bool_decide_eq_true_2 by done. cbn. by rewrite (proj2 (Z.ltb_ge _ _)) by lia.
    + split; [|split; [by rewrite app_nil_r|]].
      * apply cbor_wf_map. split; [simpl; lia|]. split.
        -- unfold distinct_keys. simpl. repeat (apply NoDup_cons; split; [set_solver|]). apply NoDup_nil_2.
        -- repeat apply Forall_cons_2; try apply Forall_nil_2; unfold pair_wf; simpl; repeat split; try done; try lia; apply NoDup_nil_2.
      * unfold EncodeNoneAttestationObject, encodeCBORMap, encodeCBORBytes, maxCBORBytes, blen in *.
        pose proof (header_at_most 2 (Z.of_nat (length auth))) as Hh. unfold header in Hh.
        simpl. rewrite ?length_app. simpl. rewrite ?length_app. simpl. lia.
  - unfold ValidateCreate. rewrite Hch. unfold fail_if.
    rewrite !(proj2 (Z.ltb_ge _ _)), (proj2 (Z.eqb_neq _ _)) by lia. simpl. rewrite Ecd. simpl.
    rewrite (bool_decide_eq_true_2 (origin = origin)) by done. cbn [negb mbind result_bind].
    rewrite (proj2 (decodeChallenge_Ok _ challenge)) by apply rawurl_roundtrip. cbn [mbind result_bind].
    rewrite (bool_decide_eq_true_2 (challenge = challenge)), Fup, Fuv, Fat by done. cbn [negb mbind result_bind].
    rewrite bool_decide_eq_true_2 by (rewrite E; by apply take_app_length'). cbn [negb mbind result_bind].
    rewrite E. apply extract_layout; try done. by rewrite <-E.
Qed.

(** The base point as a registered key. *)
Definition demo_key : bytes := byte_of_Z 3 :: be_bytes 32 (fst p256_G).
Definition demo_pub : PublicKey := {| pk_X := fst p256_G; pk_Y := snd p256_G |}.

Lemma demo_key_parses : ParseCompressedP256 demo_key = Ok demo_pub.
Proof. vm_compute. reflexivity. Qed.

Definition demo_create_client_data : bytes :=
  jtext "{'type':'webauthn.create','challenge':'" ++ EncodeChallenge (replicate 32 Byte.x07)
  ++ jtext "','origin':'https://vault.example','crossOrigin':false}".

Lemma demo_auth_data :
  exists auth, attestedAuthenticatorData (str "vault.example") (str "cred") demo_key prf_extensions = Ok auth.
Proof.
  unfold attestedAuthenticatorData. rewrite (EncodeCOSEES256_key _ _ demo_key_parses). cbn. by eexists.
Qed.

Lemma attested_credential_roundtrip_witness :
  exists auth,
    ParseAttestationObject (EncodeNoneAttestationObject auth) = Ok auth /\
    ValidateCreate demo_create_client_data auth (replicate 32 Byte.x07) (str "https://vault.example") (str "vault.example")
    = Ok {| cres_CredentialID := str "cred"; cres_WebAuthnP256 := demo_key |}.
Proof.
  destruct demo_auth_data as [auth Ha]. exists auth.
  refine (attested_credential_roundtrip (str "vault.example") (str "cred") demo_key demo_pub prf_extensions auth
            demo_create_client_data (replicate 32 Byte.x07) (str "https://vault.example")
            demo_key_parses _ prf_extensions_ok Ha _ _ _).
  - vm_compute. discriminate.
  - reflexivity.
  - vm_compute. split; [reflexivity|discriminate].
  - vm_compute. reflexivity.
Defined.
