(* ===== verification/Program.v ===== *)
(** Named-program data ([internal/program]): the release pins of each product
    network, the protection tiers, and the user-selected spending policy with
    its canonical JSON encoding and digest. *)
From S2P Require Import Prelude Sha256 Text Json.

(** ** Constants ([program.go], [pins.go]) *)
Definition TxRecipientCapSats : Z := 50000.
Definition PeriodAllowanceSats : Z := 100000.
Definition AbsoluteFeeCeiling : Z := 5000.
Definition FeerateCeilingSatPerV : Z := 10.
Definition DustSats : Z := 330.

Definition PolicyVersion : bytes := str "vault-spending-policy-v1".
(** The relative locks of the recovery claims, in blocks. *)
Definition HardwareRecoveryCSVBlocks : Z := 6.
Definition PhoneRecoveryCSVBlocks : Z := 144.
Definition RecoveryCSVBlocks : Z := 288.

Definition NetworkMainnet : bytes := str "mainnet".
Definition NetworkMutinynet : bytes := str "mutinynet".

(** The mode of new vault cosigners ([policy/cosigner.go]). *)
Definition CosignerModeHKDFSHA256V1 : bytes := str "hkdf-sha256-v1".

Definition VaultPolicyV1 : bytes := str "vault-policy-v1".
Definition VaultPolicyV1Schema : bytes := str "arkade-vault/vtxo-policy-v1".
Definition VaultBoardV1 : bytes := str "vault-board-v1".
Definition VaultBoardV1Schema : bytes := str "arkade-vault/board-v1".

Definition VaultPolicyV1ExitDelay : Z := 4608.
Definition VaultPolicyV1ExitDelayUnit : bytes := str "seconds".
Definition VaultPolicyV1ArkdMinExitDelay : Z := 2048.
Definition VaultPolicyV1BIP68SecondsMod : Z := 512.
Definition VaultBoardV1ExitDelay : Z := 604672.
Definition VaultBoardV1ExitDelayUnit : bytes := str "seconds".
Definition VaultPolicyV1PinnedDelegate : bytes :=
  str "032903b15efe236d9609da10e536fb32cdf1d144778797bbf32a9b94e86601be6a".
Definition VaultPolicyV1DelegateOrigin : bytes := str "https://delegator.mutinynet.arkade.sh".

Definition MainnetVaultPolicyV1ExitDelay : Z := 605184.
Definition MainnetVaultPolicyV1ArkdMinDelay : Z := 605184.
Definition MainnetVaultBoardV1ExitDelay : Z := 7776256.
Definition MainnetVaultPolicyV1PinnedDelegate : bytes :=
  str "026d7d45360014bce9a8ad30a10c28dd1571a22a2e90c9682268404d37b5b114a6".
Definition MainnetVaultPolicyV1DelegateOrigin : bytes := str "https://delegate.arkade.money".
Definition MainnetAbsoluteFeeCeiling : Z := 20000.
Definition MainnetFeerateCeilingSatPerV : Z := 25.

(** ** Network pins ([pins.go]) *)
Record NetworkPins := {
  np_Network : bytes;
  np_PolicyExitDelay : Z;
  np_BoardExitDelay : Z;
  np_ArkdMinExitDelay : Z;
  np_DelegatePub : bytes;
  np_DelegateOrigin : bytes;
  np_AbsoluteFeeCeiling : Z;
  np_FeerateCeilingSatPerV : Z;
}.

Definition PinsFor (network : bytes) : result NetworkPins :=
  if network == NetworkMutinynet then
    Ok {| np_Network := NetworkMutinynet;
          np_PolicyExitDelay := VaultPolicyV1ExitDelay;
          np_BoardExitDelay := VaultBoardV1ExitDelay;
          np_ArkdMinExitDelay := VaultPolicyV1ArkdMinExitDelay;
          np_DelegatePub := VaultPolicyV1PinnedDelegate;
          np_DelegateOrigin := VaultPolicyV1DelegateOrigin;
          np_AbsoluteFeeCeiling := AbsoluteFeeCeiling;
          np_FeerateCeilingSatPerV := FeerateCeilingSatPerV |}
  else if network == NetworkMainnet then
    Ok {| np_Network := NetworkMainnet;
          np_PolicyExitDelay := MainnetVaultPolicyV1ExitDelay;
          np_BoardExitDelay := MainnetVaultBoardV1ExitDelay;
          np_ArkdMinExitDelay := MainnetVaultPolicyV1ArkdMinDelay;
          np_DelegatePub := MainnetVaultPolicyV1PinnedDelegate;
          np_DelegateOrigin := MainnetVaultPolicyV1DelegateOrigin;
          np_AbsoluteFeeCeiling := MainnetAbsoluteFeeCeiling;
          np_FeerateCeilingSatPerV := MainnetFeerateCeilingSatPerV |}
  else Err (ErrMsg "unsupported network %q").

Definition ValidateVaultPolicyV1ExitDelayFor (network : bytes) (delay : Z) (unit : bytes)
  : result Datatypes.unit :=
  pins ← PinsFor network;
  _ ← fail_if (unit != VaultPolicyV1ExitDelayUnit)
        (ErrMsg "vault-policy-v1 exit delay unit must be %s");
  _ ← fail_if (negb (delay mod VaultPolicyV1BIP68SecondsMod =? 0))
        (ErrMsg "vault-policy-v1 exit delay must be a BIP68 seconds multiple of %d");
  _ ← fail_if (delay <? np_ArkdMinExitDelay pins)
        (ErrMsg "vault-policy-v1 exit delay %d is below arkd minimum %d");
  fail_if (negb (delay =? np_PolicyExitDelay pins))
    (ErrMsg "vault-policy-v1 exit delay is frozen at %d seconds").

Definition ValidateVaultBoardV1ExitDelayFor (network : bytes) (delay : Z) (unit : bytes)
  : result Datatypes.unit :=
  pins ← PinsFor network;
  _ ← fail_if (unit != VaultBoardV1ExitDelayUnit)
        (ErrMsg "vault-board-v1 exit delay unit must be %s");
  _ ← fail_if (negb (delay mod VaultPolicyV1BIP68SecondsMod =? 0))
        (ErrMsg "vault-board-v1 exit delay must be a BIP68 seconds multiple of %d");
  fail_if (negb (delay =? np_BoardExitDelay pins))
    (ErrMsg "vault-board-v1 exit delay is frozen at %d seconds").

(** The Mutinynet-only forms of [program.go]. *)
Definition ValidateVaultBoardV1ExitDelay (delay : Z) (unit : bytes) : result Datatypes.unit :=
  _ ← fail_if (unit != VaultBoardV1ExitDelayUnit)
        (ErrMsg "vault-board-v1 exit delay unit must be %s");
  _ ← fail_if (negb (delay mod VaultPolicyV1BIP68SecondsMod =? 0))
        (ErrMsg "vault-board-v1 exit delay must be a BIP68 seconds multiple of %d");
  fail_if (negb (delay =? VaultBoardV1ExitDelay))
    (ErrMsg "vault-board-v1 exit delay is frozen at %d seconds").

Definition ValidateVaultPolicyV1ExitDelay (delay : Z) (unit : bytes) : result Datatypes.unit :=
  _ ← fail_if (unit != VaultPolicyV1ExitDelayUnit)
        (ErrMsg "vault-policy-v1 exit delay unit must be %s");
  _ ← fail_if (negb (delay mod VaultPolicyV1BIP68SecondsMod =? 0))
        (ErrMsg "vault-policy-v1 exit delay must be a BIP68 seconds multiple of %d");
  _ ← fail_if (delay <? VaultPolicyV1ArkdMinExitDelay)
        (ErrMsg "vault-policy-v1 exit delay %d is below arkd minimum %d");
  fail_if (negb (delay =? VaultPolicyV1ExitDelay))
    (ErrMsg "vault-policy-v1 exit delay is frozen at %d seconds").

(** ** Protection tiers ([protection_tier.go]) *)
Definition ProtectionTierLight : bytes := str "light".
Definition SpendingOnlyTemplate : bytes := str "vaulted-spending-v1".
Definition ProtectionTierStandard : bytes := str "standard".
Definition ProtectionTierAdvanced : bytes := str "advanced".

Definition ValidateProtectionTier (tier : bytes) : result unit :=
  if (tier == ProtectionTierLight) || (tier == ProtectionTierStandard)
     || (tier == ProtectionTierAdvanced)
  then Ok tt
  else Err (ErrMsg "unsupported protection tier %q").

Definition ValidateProtectionTierRecovery (tier : bytes) (hasRecovery : bool) : result unit :=
  _ ← ValidateProtectionTier tier;
  if ((tier == ProtectionTierLight) || (tier == ProtectionTierStandard)) && hasRecovery
  then Err (ErrMsg "%s protection must not include a recovery key")
  else if (tier == ProtectionTierAdvanced) && negb hasRecovery
  then Err (ErrMsg "advanced protection requires a recovery key")
  else Ok tt.

(** ** Spending policy ([spending_policy.go]) *)
Definition SpendingPolicyProgram : bytes := VaultPolicyV1.
Definition SpendingPolicyPeriod : bytes := str "rolling-24h".
Definition MinTxRecipientCapSats : Z := DustSats.
Definition MaxTxRecipientCapSats : Z := 100000000.
Definition MinPeriodAllowanceSats : Z := DustSats.
Definition MaxPeriodAllowanceSats : Z := 1000000000.
Definition MinAbsoluteFeeCapSats : Z := 0.
Definition MaxAbsoluteFeeCapSats : Z := 100000.
Definition MinFeerateCapSatPerV : Z := 1.
Definition MaxFeerateCapSatPerV : Z := 100.

Record SpendingPolicy := {
  sp_Program : bytes;
  sp_Schema : bytes;
  sp_Period : bytes;
  sp_PeriodAllowanceSats : Z;
  sp_TxRecipientCapSats : Z;
  sp_AbsoluteFeeCapSats : Z;
  sp_FeerateCapSatPerV : Z;
}.

#[global] Instance SpendingPolicy_eq_dec : EqDecision SpendingPolicy.
Proof. solve_decision. Defined.

Definition zero_SpendingPolicy : SpendingPolicy := Build_SpendingPolicy [] [] [] 0 0 0 0.

Record SpendingPolicyBounds := { spb_Min : Z; spb_Max : Z }.

Record SpendingPolicyPreset := {
  spp_ID : bytes;
  spp_Label : bytes;
  spp_Policy : SpendingPolicy;
}.

Record SpendingPolicyCapabilities := {
  spc_Program : bytes;
  spc_Schema : bytes;
  spc_Period : bytes;
  spc_Bounds_PeriodAllowanceSats : SpendingPolicyBounds;
  spc_Bounds_TxRecipientCapSats : SpendingPolicyBounds;
  spc_Bounds_AbsoluteFeeCapSats : SpendingPolicyBounds;
  spc_Bounds_FeerateCapSatPerV : SpendingPolicyBounds;
  spc_Presets : list SpendingPolicyPreset;
}.

Definition DefaultSpendingPolicyFor (network : bytes) : result SpendingPolicy :=
  pins ← PinsFor network;
  Ok {| sp_Program := SpendingPolicyProgram; sp_Schema := PolicyVersion;
        sp_Period := SpendingPolicyPeriod;
        sp_PeriodAllowanceSats := PeriodAllowanceSats;
        sp_TxRecipientCapSats := TxRecipientCapSats;
        sp_AbsoluteFeeCapSats := np_AbsoluteFeeCeiling pins;
        sp_FeerateCapSatPerV := np_FeerateCeilingSatPerV pins |}.

(** The [panic] branch is never taken ([DefaultSpendingPolicy_no_panic]). *)
Definition DefaultSpendingPolicy : SpendingPolicy :=
  match DefaultSpendingPolicyFor NetworkMutinynet with
  | Ok p => p
  | Err _ => zero_SpendingPolicy
  end.

Definition validatePolicyBound (name : string) (value min max : Z) : result unit :=
  fail_if ((value <? min) || (max <? value)) (ErrWrap name (ErrMsg "must be between %d and %d")).

Definition ValidateSpendingPolicyFor (network : bytes) (p : SpendingPolicy) : result unit :=
  pins ← PinsFor network;
  _ ← fail_if (sp_Program p != SpendingPolicyProgram)
        (ErrMsg "spending policy program must be %s");
  _ ← fail_if (sp_Schema p != PolicyVersion) (ErrMsg "spending policy schema must be %s");
  _ ← fail_if (sp_Period p != SpendingPolicyPeriod) (ErrMsg "spending policy period must be %s");
  _ ← validatePolicyBound "tx recipient cap" (sp_TxRecipientCapSats p)
        MinTxRecipientCapSats MaxTxRecipientCapSats;
  _ ← validatePolicyBound "period allowance" (sp_PeriodAllowanceSats p)
        MinPeriodAllowanceSats MaxPeriodAllowanceSats;
  _ ← fail_if (sp_PeriodAllowanceSats p <? sp_TxRecipientCapSats p)
        (ErrMsg "period allowance must be at least the transaction recipient cap");
  _ ← validatePolicyBound "absolute fee cap" (sp_AbsoluteFeeCapSats p)
        MinAbsoluteFeeCapSats MaxAbsoluteFeeCapSats;
  _ ← fail_if (negb (sp_AbsoluteFeeCapSats p =? np_AbsoluteFeeCeiling pins))
        (ErrMsg "absolute fee cap must match the release value %d");
  _ ← validatePolicyBound "feerate cap" (sp_FeerateCapSatPerV p)
        MinFeerateCapSatPerV MaxFeerateCapSatPerV;
  fail_if (negb (sp_FeerateCapSatPerV p =? np_FeerateCeilingSatPerV pins))
    (ErrMsg "feerate cap must match the release value %d").

Definition ValidateSpendingPolicy (p : SpendingPolicy) : result unit :=
  ValidateSpendingPolicyFor NetworkMutinynet p.

(** [json.Marshal] of the struct, in field order, with the names of the tags. *)
Definition spending_policy_json (p : SpendingPolicy) : json := JObj
  [(str "program", JStr (sp_Program p)); (str "schema", JStr (sp_Schema p));
   (str "period", JStr (sp_Period p));
   (str "periodAllowanceSats", jint (sp_PeriodAllowanceSats p));
   (str "txRecipientCapSats", jint (sp_TxRecipientCapSats p));
   (str "absoluteFeeCapSats", jint (sp_AbsoluteFeeCapSats p));
   (str "feerateCapSatPerV", jint (sp_FeerateCapSatPerV p))].

Definition CanonicalSpendingPolicyJSONFor (network : bytes) (p : SpendingPolicy) : result bytes :=
  _ ← ValidateSpendingPolicyFor network p;
  Ok (json_print (spending_policy_json p)).

Definition CanonicalSpendingPolicyJSON (p : SpendingPolicy) : result bytes :=
  CanonicalSpendingPolicyJSONFor NetworkMutinynet p.

Definition SpendingPolicyDigestFor (network : bytes) (p : SpendingPolicy) : result bytes :=
  raw ← CanonicalSpendingPolicyJSONFor network p;
  Ok (sha256 raw).

Definition SpendingPolicyDigestHexFor (network : bytes) (p : SpendingPolicy) : result bytes :=
  digest ← SpendingPolicyDigestFor network p;
  Ok (hex_encode digest).

Definition SpendingPolicyFromValues (txCap allowance feeCap feerate : Z) : SpendingPolicy :=
  {| sp_Program := sp_Program DefaultSpendingPolicy;
     sp_Schema := sp_Schema DefaultSpendingPolicy;
     sp_Period := sp_Period DefaultSpendingPolicy;
     sp_PeriodAllowanceSats := allowance;
     sp_TxRecipientCapSats := txCap;
     sp_AbsoluteFeeCapSats := feeCap;
     sp_FeerateCapSatPerV := feerate |}.

Definition CurrentSpendingPolicyCapabilitiesFor (network : bytes)
  : result SpendingPolicyCapabilities :=
  pins ← PinsFor network;
  everyday ← DefaultSpendingPolicyFor network;
  Ok {| spc_Program := SpendingPolicyProgram;
        spc_Schema := PolicyVersion;
        spc_Period := SpendingPolicyPeriod;
        spc_Bounds_PeriodAllowanceSats :=
          {| spb_Min := MinPeriodAllowanceSats; spb_Max := MaxPeriodAllowanceSats |};
        spc_Bounds_TxRecipientCapSats :=
          {| spb_Min := MinTxRecipientCapSats; spb_Max := MaxTxRecipientCapSats |};
        spc_Bounds_AbsoluteFeeCapSats :=
          {| spb_Min := np_AbsoluteFeeCeiling pins; spb_Max := np_AbsoluteFeeCeiling pins |};
        spc_Bounds_FeerateCapSatPerV :=
          {| spb_Min := np_FeerateCeilingSatPerV pins; spb_Max := np_FeerateCeilingSatPerV pins |};
        spc_Presets :=
          [{| spp_ID := str "lower-exposure"; spp_Label := str "Lower exposure";
              spp_Policy := SpendingPolicyFromValues 25000 50000
                (np_AbsoluteFeeCeiling pins) (np_FeerateCeilingSatPerV pins) |};
           {| spp_ID := str "everyday"; spp_Label := str "Everyday"; spp_Policy := everyday |}] |}.

(** [json.Unmarshal] into a [SpendingPolicy]: the struct tags of the fields. *)
Definition spending_policy_fields : list (field SpendingPolicy) :=
  [(str "program", set_string (fun v p => Build_SpendingPolicy v (sp_Schema p) (sp_Period p)
      (sp_PeriodAllowanceSats p) (sp_TxRecipientCapSats p) (sp_AbsoluteFeeCapSats p) (sp_FeerateCapSatPerV p)));
   (str "schema", set_string (fun v p => Build_SpendingPolicy (sp_Program p) v (sp_Period p)
      (sp_PeriodAllowanceSats p) (sp_TxRecipientCapSats p) (sp_AbsoluteFeeCapSats p) (sp_FeerateCapSatPerV p)));
   (str "period", set_string (fun v p => Build_SpendingPolicy (sp_Program p) (sp_Schema p) v
      (sp_PeriodAllowanceSats p) (sp_TxRecipientCapSats p) (sp_AbsoluteFeeCapSats p) (sp_FeerateCapSatPerV p)));
   (str "periodAllowanceSats", set_int64 (fun v p => Build_SpendingPolicy (sp_Program p) (sp_Schema p)
      (sp_Period p) v (sp_TxRecipientCapSats p) (sp_AbsoluteFeeCapSats p) (sp_FeerateCapSatPerV p)));
   (str "txRecipientCapSats", set_int64 (fun v p => Build_SpendingPolicy (sp_Program p) (sp_Schema p)
      (sp_Period p) (sp_PeriodAllowanceSats p) v (sp_AbsoluteFeeCapSats p) (sp_FeerateCapSatPerV p)));
   (str "absoluteFeeCapSats", set_int64 (fun v p => Build_SpendingPolicy (sp_Program p) (sp_Schema p)
      (sp_Period p) (sp_PeriodAllowanceSats p) (sp_TxRecipientCapSats p) v (sp_FeerateCapSatPerV p)));
   (str "feerateCapSatPerV", set_int64 (fun v p => Build_SpendingPolicy (sp_Program p) (sp_Schema p)
      (sp_Period p) (sp_PeriodAllowanceSats p) (sp_TxRecipientCapSats p) (sp_AbsoluteFeeCapSats p) v))].

(** ** What a valid policy is *)

(** The two networks of the release, with the fee ceilings of each. *)
Definition fee_ceilings (network : bytes) : option (Z * Z) :=
  if network == NetworkMutinynet then Some (5000, 10)
  else if network == NetworkMainnet then Some (20000, 25) else None.

Definition policy_in_bounds (network : bytes) (p : SpendingPolicy) : Prop :=
  sp_Program p = VaultPolicyV1 /\ sp_Schema p = PolicyVersion /\ sp_Period p = SpendingPolicyPeriod /\
  330 <= sp_TxRecipientCapSats p <= 100000000 /\
  sp_TxRecipientCapSats p <= sp_PeriodAllowanceSats p <= 1000000000 /\
  fee_ceilings network = Some (sp_AbsoluteFeeCapSats p, sp_FeerateCapSatPerV p).

Lemma PinsFor_ceilings network :
  match PinsFor network with
  | Ok pins => fee_ceilings network = Some (np_AbsoluteFeeCeiling pins, np_FeerateCeilingSatPerV pins)
               /\ 0 <= np_AbsoluteFeeCeiling pins <= 100000
               /\ 1 <= np_FeerateCeilingSatPerV pins <= 100
  | Err _ => fee_ceilings network = None
  end.
Proof.
  unfold PinsFor, fee_ceilings.
  repeat case_bool_decide; cbn; unfold AbsoluteFeeCeiling, FeerateCeilingSatPerV,
    MainnetAbsoluteFeeCeiling, MainnetFeerateCeilingSatPerV; auto with lia.
Qed.

Lemma validatePolicyBound_Ok name v lo hi u :
  validatePolicyBound name v lo hi = Ok u <-> lo <= v <= hi.
Proof.
  unfold validatePolicyBound. rewrite fail_if_Ok, orb_false_split, !Z.ltb_ge. done.
Qed.

(** The validator accepts exactly the policies inside the release bounds. *)
Lemma ValidateSpendingPolicyFor_Ok network p :
  ValidateSpendingPolicyFor network p = Ok tt <-> policy_in_bounds network p.
Proof.
  unfold ValidateSpendingPolicyFor, policy_in_bounds.
  pose proof (PinsFor_ceilings network) as H.
  destruct (PinsFor network) as [pins|e]; simpl.
  - destruct H as (-> & ? & ?).
    unfold MinTxRecipientCapSats, MaxTxRecipientCapSats, MinPeriodAllowanceSats,
      MaxPeriodAllowanceSats, MinAbsoluteFeeCapSats, MaxAbsoluteFeeCapSats, MinFeerateCapSatPerV,
      MaxFeerateCapSatPerV, DustSats. split.
    + intros E. inv_ok.
      repeat match goal with H : validatePolicyBound _ _ _ _ = _ |- _ =>
        apply validatePolicyBound_Ok in H end.
      bool_hyps. subst. split_and!; try done; try lia. repeat f_equal; lia.
    + intros (E1 & E2 & E3 & ? & ? & [= E4 E5]).
      assert (forall {A} (x : A) k, (Ok x ≫= k) = (k x : result unit)) as Hb by done.
      rewrite E1, E2, E3. rewrite !bool_decide_eq_true_2 by done. cbn [negb fail_if]. rewrite !Hb.
      rewrite (proj2 (validatePolicyBound_Ok _ _ _ _ tt)) by lia.
      rewrite Hb, (proj2 (validatePolicyBound_Ok _ _ _ _ tt)) by lia.
      rewrite Hb, (proj2 (Z.ltb_ge _ _)) by lia. cbn [fail_if].
      rewrite Hb, (proj2 (validatePolicyBound_Ok _ _ _ _ tt)) by lia.
      rewrite Hb, E4, Z.eqb_refl. cbn [negb fail_if].
      rewrite Hb, (proj2 (validatePolicyBound_Ok _ _ _ _ tt)) by lia.
      rewrite Hb, E5, Z.eqb_refl. done.
  - rewrite H. split; [done|]. by intros (_ & _ & _ & _ & _ & [=]).
Qed.

Lemma DefaultSpendingPolicy_no_panic :
  exists p, DefaultSpendingPolicyFor NetworkMutinynet = Ok p /\ DefaultSpendingPolicy = p.
Proof. eexists. split; reflexivity. Qed.

(** ** The canonical encoding *)
Lemma policy_in_bounds_wf network p :
  policy_in_bounds network p -> json_wf (spending_policy_json p).
Proof.
  intros (E1 & E2 & E3 & ? & ? & Hf).
  pose proof (PinsFor_ceilings network) as Hc. destruct (PinsFor network); [|congruence].
  destruct Hc as (Hc & ? & ?). rewrite Hc in Hf. injection Hf as ? ?.
  cbn. rewrite E1, E2, E3.
  repeat split; try done; apply num_ok_int; unfold is_int64, max_int64; lia.
Qed.

Lemma spending_policy_unmarshal_print network p :
  policy_in_bounds network p ->
  json_unmarshal spending_policy_fields zero_SpendingPolicy (json_print (spending_policy_json p)) = Some p.
Proof.
  intros Hp. unfold json_unmarshal.
  rewrite json_parse_print; [|by eapply policy_in_bounds_wf|done].
  destruct Hp as (_ & _ & _ & ? & ? & Hf).
  pose proof (PinsFor_ceilings network) as Hc. destruct (PinsFor network); [|congruence].
  destruct Hc as (Hc & ? & ?). rewrite Hc in Hf. injection Hf as ? ?.
  unfold spending_policy_json, set_struct.
  repeat (erewrite set_members_hit;
    [|reflexivity
     |first [apply set_int_jint; unfold is_int64, max_int64; lia | reflexivity]]).
  by destruct p.
Qed.

(** marshalling any policy that passes the validator and unmarshalling the
    bytes gives the policy back: the committed JSON loses nothing. *)
Theorem canonical_policy_roundtrip network p raw :
  CanonicalSpendingPolicyJSONFor network p = Ok raw ->
  policy_in_bounds network p /\ json_unmarshal spending_policy_fields zero_SpendingPolicy raw = Some p.
Proof.
  unfold CanonicalSpendingPolicyJSONFor. intros H. inv_ok.
  apply ValidateSpendingPolicyFor_Ok in E. split; [done|].
  by eapply spending_policy_unmarshal_print.
Qed.

Lemma canonical_policy_roundtrip_witness :
  exists raw, CanonicalSpendingPolicyJSONFor NetworkMainnet
                (SpendingPolicyFromValues 25000 50000 20000 25) = Ok raw /\
  json_unmarshal spending_policy_fields zero_SpendingPolicy raw
    = Some (SpendingPolicyFromValues 25000 50000 20000 25).
Proof.
  eexists. split; [vm_compute; reflexivity|].
  apply (canonical_policy_roundtrip NetworkMainnet). vm_compute. reflexivity.
Defined.

(** a network accepts a policy exactly when its program, schema and period
    are the release's, its caps lie in the release bounds with the recipient
    cap under the allowance, and its fee caps are the network's ceilings; any
    other network name is refused. *)
Theorem validate_policy_exact network p :
  (ValidateSpendingPolicyFor network p = Ok tt <-> policy_in_bounds network p) /\
  (fee_ceilings network = None ->
   ValidateSpendingPolicyFor network p = Err (ErrMsg "unsupported network %q")).
Proof.
  split; [apply ValidateSpendingPolicyFor_Ok|].
  unfold fee_ceilings, ValidateSpendingPolicyFor, PinsFor.
  repeat case_bool_decide; done.
Qed.

Lemma validate_policy_exact_witness :
  ValidateSpendingPolicyFor (str "signet") DefaultSpendingPolicy = Err (ErrMsg "unsupported network %q").
Proof. apply (proj2 (validate_policy_exact (str "signet") DefaultSpendingPolicy)). reflexivity. Defined.

(** the policy digest binds every policy field and is independent of the
    network that computed it, up to an explicit SHA-256 collision. *)
Theorem policy_digest_binding network1 network2 p q d :
  SpendingPolicyDigestFor network1 p = Ok d ->
  SpendingPolicyDigestFor network2 q = Ok d ->
  p = q \/ exists a b, a <> b /\ sha256 a = sha256 b.
Proof.
  unfold SpendingPolicyDigestFor, CanonicalSpendingPolicyJSONFor. intros Hp Hq. inv_ok.
  repeat match goal with H : ValidateSpendingPolicyFor _ _ = Ok _ |- _ =>
    apply ValidateSpendingPolicyFor_Ok, spending_policy_unmarshal_print in H end.
  destruct (decide (json_print (spending_policy_json p) = json_print (spending_policy_json q))) as [Ej|Ej];
    [left; congruence | right; do 2 eexists; split; [exact Ej | congruence]].
Qed.

Lemma policy_digest_binding_witness :
  DefaultSpendingPolicy = DefaultSpendingPolicy \/ exists a b, a <> b /\ sha256 a = sha256 b.
Proof.
  apply (policy_digest_binding NetworkMutinynet NetworkMutinynet DefaultSpendingPolicy DefaultSpendingPolicy
    (sha256 (json_print (spending_policy_json DefaultSpendingPolicy)))); vm_compute; reflexivity.
Defined.

(** Every preset offered to a network is one the network accepts. *)
Lemma presets_valid network caps :
  CurrentSpendingPolicyCapabilitiesFor network = Ok caps ->
  Forall (fun pre => policy_in_bounds network (spp_Policy pre)) (spc_Presets caps).
Proof.
  unfold CurrentSpendingPolicyCapabilitiesFor, DefaultSpendingPolicyFor. intros H. inv_ok.
  pose proof (PinsFor_ceilings network) as Hc. assert (r1 = r) as -> by congruence.
  rewrite E in Hc. destruct Hc as (Hc & _ & _).
  repeat (apply Forall_cons; split); [..|by apply Forall_nil];
    unfold policy_in_bounds; simpl; unfold TxRecipientCapSats, PeriodAllowanceSats;
    split_and!; try done; lia.
Qed.
