(* ===== verification/Deployment.v ===== *)
(** * Network deployments ([src/internal/deployment/identity.go])

    The frozen identity of each product network: Operator, forfeit and
    checkpoint keys, origins, chain checkpoint, and the expiry of a batch. *)
From Stdlib Require Import Strings.Byte.
From S2P Require Import Prelude Sha256 Text Program.

Definition MainnetSignerIdentity : bytes := str "urn:vaulted:mainnet-signer:v1".
Definition BitcoinGenesisHash : bytes := str "000000000019d6689c085ae165831e934ff763ae46a2a6c172b3f1b60a8ce26f".
Definition MainnetWalletOrigin : bytes := str "https://app.getvaulted.xyz".
Definition MainnetWalletRPID : bytes := str "app.getvaulted.xyz".
Definition MainnetRCOrigin : bytes := str "https://rc.getvaulted.xyz".
Definition MainnetRCRPID : bytes := str "rc.getvaulted.xyz".
Definition MainnetArkadeCosignerPubHex : bytes := str "0239c196415da47b26456a101daaa12ba9e445bfe153197f1e2b750bf40e52092e".
Definition MainnetArkadeCosignerVersion : bytes := str "v0.0.7".
Definition MainnetArkIndexerOrigin : bytes := str "https://arkade.computer".
Definition MainnetEsploraOrigin : bytes := str "https://mempool.space/api".
Definition MainnetVtxoTreeExpirySeconds : Z := 2592256.
Definition MainnetOperatorSignerPubHex : bytes := str "038202bebddeb1f7442803897a85eaf3ce9254d07df0172fc3725ab5f0d097779c".
Definition MainnetCheckpointForfeitPubHex : bytes := str "03b43a8363118c084a04d4f6a50ebfa58e81957f8cceceb2aee0ab64c9fd2d9977".
Definition MainnetCheckpointTapscriptHex : bytes :=
  str "039e0440b27520b43a8363118c084a04d4f6a50ebfa58e81957f8cceceb2aee0ab64c9fd2d9977ac".
Definition MainnetCheckpointDelaySeconds : Z := 605184.

Definition MutinynetCheckpoint1 : bytes := str "000002855893a0a9b24eaffc5efc770558a326fee4fc10c9da22fc19cd2954f9".
Definition MutinynetArkadeCosignerOrigin : bytes := str "https://emulator.mutinynet.arkade.sh".
Definition MutinynetArkadeCosignerPubHex : bytes := str "03f823b9b2febc81f4af967e77aed2f541cbd3397c6d8f5a72e32eb7b471af889a".
Definition MutinynetArkadeCosignerVersion : bytes := str "v0.0.7-rc.1".
Definition MutinynetArkIndexerOrigin : bytes := str "https://mutinynet.arkade.sh".
Definition MutinynetEsploraOrigin : bytes := str "https://mempool.mutinynet.arkade.sh/api".
Definition MutinynetVtxoTreeExpirySeconds : Z := 604672.
Definition MutinynetOperatorSignerPubHex : bytes := str "03301078808e4f7bc0dadfe29e34b1df8eaf0108ef06b1722274075ebc107a127a".
Definition MutinynetCheckpointForfeitPubHex : bytes := str "02dfcaec558c7e78cf3e38b898ba8a43cfb5727266bae32c5c5b3aeb32c558aa0b".
Definition MutinynetCheckpointTapscriptHex : bytes :=
  str "03080040b27520dfcaec558c7e78cf3e38b898ba8a43cfb5727266bae32c5c5b3aeb32c558aa0bac".
Definition MutinynetCheckpointDelaySeconds : Z := 4096.

Record Identity := {
  id_Network : bytes;
  id_OperatorGetInfoNetwork : bytes;
  id_OperatorOrigin : bytes;
  id_EsploraOrigin : bytes;
  id_EmulatorOrigin : bytes;
  id_EmulatorPubHex : bytes;
  id_EmulatorVersion : bytes;
  id_OperatorSignerPubHex : bytes;
  id_CheckpointForfeitPubHex : bytes;
  id_CheckpointTapscriptHex : bytes;
  id_CheckpointDelaySeconds : Z;   (* uint32 *)
  id_CheckpointHeight : Z;
  id_CheckpointHash : bytes;
  id_VtxoTreeExpirySeconds : Z;    (* uint32 *)
}.

Definition IdentityFor (network : bytes) : result Identity :=
  if network == NetworkMutinynet then
    Ok {| id_Network := NetworkMutinynet; id_OperatorGetInfoNetwork := NetworkMutinynet;
          id_OperatorOrigin := MutinynetArkIndexerOrigin; id_EsploraOrigin := MutinynetEsploraOrigin;
          id_EmulatorOrigin := MutinynetArkadeCosignerOrigin; id_EmulatorPubHex := MutinynetArkadeCosignerPubHex;
          id_EmulatorVersion := MutinynetArkadeCosignerVersion; id_OperatorSignerPubHex := MutinynetOperatorSignerPubHex;
          id_CheckpointForfeitPubHex := MutinynetCheckpointForfeitPubHex;
          id_CheckpointTapscriptHex := MutinynetCheckpointTapscriptHex;
          id_CheckpointDelaySeconds := MutinynetCheckpointDelaySeconds; id_CheckpointHeight := 1;
          id_CheckpointHash := MutinynetCheckpoint1; id_VtxoTreeExpirySeconds := MutinynetVtxoTreeExpirySeconds |}
  else if network == NetworkMainnet then
    Ok {| id_Network := NetworkMainnet; id_OperatorGetInfoNetwork := str "bitcoin";
          id_OperatorOrigin := MainnetArkIndexerOrigin; id_EsploraOrigin := MainnetEsploraOrigin;
          id_EmulatorOrigin := []; id_EmulatorPubHex := MainnetArkadeCosignerPubHex;
          id_EmulatorVersion := MainnetArkadeCosignerVersion; id_OperatorSignerPubHex := MainnetOperatorSignerPubHex;
          id_CheckpointForfeitPubHex := MainnetCheckpointForfeitPubHex;
          id_CheckpointTapscriptHex := MainnetCheckpointTapscriptHex;
          id_CheckpointDelaySeconds := MainnetCheckpointDelaySeconds; id_CheckpointHeight := 0;
          id_CheckpointHash := BitcoinGenesisHash; id_VtxoTreeExpirySeconds := MainnetVtxoTreeExpirySeconds |}
  else Err (ErrMsg "unsupported network %q").

Definition AllowedMainnetWallet (origin rpID : bytes) : bool :=
  ((origin == MainnetWalletOrigin) && (rpID == MainnetWalletRPID))
  || ((origin == MainnetRCOrigin) && (rpID == MainnetRCRPID)).

(** Every identity is one of two, and its keys are 33-byte hexadecimal. *)
Lemma IdentityFor_Ok network id : IdentityFor network = Ok id ->
  (network = NetworkMutinynet \/ network = NetworkMainnet) /\ id_Network id = network /\
  blen (id_OperatorSignerPubHex id) = 66 /\ blen (id_CheckpointForfeitPubHex id) = 66 /\
  0 < id_VtxoTreeExpirySeconds id <= max_uint32.
Proof.
  unfold IdentityFor. repeat case_bool_decide; [..|done]; intros <-%Ok_inj; subst; (split; [auto|]); split_and!; by vm_compute.
Qed.
