(* ===== verification/Cosigner.v ===== *)
(** * Cosigner keys ([src/internal/policy/cosigner.go], [application/key_provider.go])

    One master scalar gives every vault its own keys: the Savings cosigner, the
    cosigner of payments ([DeriveVtxoVaultCosignerScalar]) and the cosigner of
    boarding deposits, each by HKDF with a salt of its own and an info string
    that spells out the context.  [key_provider.go] keeps the master behind
    capabilities that sign named stages only.

    [cosigner_keys_separated] says that different contexts get different HKDF
    outputs unless HMAC-SHA-256 collides; [vtxo_signing_exact] says what the
    payment capability adds to the packets it is given. *)
From Stdlib Require Import Strings.Byte.
From S2P Require Import Prelude Sha256 Text Program Psbt.

(** A [*btcec.PrivateKey] is its 32-byte serialization.  The scalar arithmetic
    of secp256k1 and its key parser are btcec's. *)
Class Secp := {
  scalar_overflow : bytes -> bool;     (* ModNScalar.SetByteSlice *)
  scalar_IsZero : bytes -> bool;
  scalar_Negate : bytes -> bytes;
  btcec_ParsePubKey : bytes -> option PubKey;
}.

Definition vaultCosignerHKDFSalt : bytes := str "arkade-2fa-vault/vault-cosigner/hkdf-sha256-v1".
Definition vaultCosignerHKDFInfo : bytes := str "vault-cosigner/v1".
Definition CosignerModeVtxoHKDFSHA256V1 : bytes := str "vtxo-hkdf-sha256-v1".
Definition vtxoVaultCosignerHKDFSalt : bytes := str "arkade-2fa-vault/vtxo-vault-cosigner/hkdf-sha256-v1".
Definition vtxoVaultCosignerHKDFInfo : bytes := str "vtxo-vault-cosigner/v1".
Definition CosignerModeVaultBoardHKDFSHA256V1 : bytes := str "vault-board-v1-hkdf-sha256-v1".
Definition vaultBoardCosignerHKDFSalt : bytes := str "arkade-vault/vault-board-v1-cosigner/hkdf-sha256-v1".
Definition vaultBoardCosignerHKDFInfo : bytes := str "vault-board-cosigner/v1".

Definition nul : bytes := [Byte.x00].

(** ** Info strings *)
Definition vaultCosignerInfo (vaultID : bytes) (counter : Z) : bytes :=
  vaultCosignerHKDFInfo ++ nul ++ vaultID ++ nul ++ [byte_of_Z counter].

Definition vtxoVaultCosignerInfo (vaultID policyVersion network advertisedServerPub : bytes) (counter : Z) : bytes :=
  vtxoVaultCosignerHKDFInfo ++ nul ++ vaultID ++ nul ++ policyVersion ++ nul ++ network ++ nul
  ++ advertisedServerPub ++ nul ++ [byte_of_Z counter].

Definition vaultBoardCosignerInfo (vaultID network operatorPub : bytes) (counter : Z) : bytes :=
  concat (map (fun field => field ++ nul) [vaultBoardCosignerHKDFInfo; vaultID; VaultBoardV1; network; operatorPub])
  ++ [byte_of_Z counter].

Section Derivation.
Context `{Btc} `{Secp}.

Definition scalarInRange (raw : bytes) : bool :=
  if negb (blen raw =? 32) then false else negb (scalar_overflow raw) && negb (scalar_IsZero raw).

Definition evenYPrivateKey (priv : bytes) : bytes :=
  if take 1 (priv_PubKey priv) == [byte_of_Z 3] then scalar_Negate priv else priv.

(** One-block HKDF expansion. *)
Definition hkdf_expand (prk info : bytes) : bytes := hmac_sha256 prk (info ++ [byte_of_Z 1]).

(** The loop over the counters [counter ..]; [rounds] of them remain. *)
Fixpoint hkdf_loop (prk : bytes) (info : Z -> bytes) (none : error) (rounds : nat) (counter : Z) : result bytes :=
  match rounds with
  | O => Err none
  | S rounds =>
      let okm := hkdf_expand prk (info counter) in
      if scalarInRange okm then Ok okm else hkdf_loop prk info none rounds (counter + 1)
  end.

Definition deriveHKDFVaultCosigner (master vaultID : bytes) : result bytes :=
  let prk := hmac_sha256 vaultCosignerHKDFSalt master in
  hkdf_loop prk (vaultCosignerInfo vaultID) (ErrMsg "hkdf-sha256-v1 produced no valid secp256k1 scalar") 256 0.

Definition DeriveVaultCosignerScalar (master vaultID mode : bytes) : result bytes :=
  _ ← fail_if (vaultID == []) (ErrMsg "vault id required");
  _ ← fail_if (mode != CosignerModeHKDFSHA256V1) (ErrMsg "unknown cosigner mode");
  deriveHKDFVaultCosigner master vaultID.

Definition deriveVtxoHKDFVaultCosigner (master vaultID policyVersion network advertisedServerPub : bytes) : result bytes :=
  let prk := hmac_sha256 vtxoVaultCosignerHKDFSalt master in
  priv ← hkdf_loop prk (vtxoVaultCosignerInfo vaultID policyVersion network advertisedServerPub)
           (ErrMsg "vtxo-hkdf-sha256-v1 produced no valid secp256k1 scalar") 256 0;
  Ok (evenYPrivateKey priv).

(** 33 bytes that start with 2 or 3, and parse. *)
Definition compressed_pub (pub : bytes) : bool :=
  (blen pub =? 33) && ((take 1 pub == [byte_of_Z 2]) || (take 1 pub == [byte_of_Z 3]))
  && match btcec_ParsePubKey pub with Some _ => true | None => false end.

Definition DeriveVtxoVaultCosignerScalar (master vaultID policyVersion network advertisedServerPub : bytes) : result bytes :=
  _ ← fail_if (vaultID == []) (ErrMsg "vault id required");
  _ ← fail_if (policyVersion == []) (ErrMsg "policy version required");
  _ ← fail_if ((network != NetworkMutinynet) && (network != NetworkMainnet)) (ErrMsg "unsupported network");
  _ ← fail_if (negb (compressed_pub advertisedServerPub)) (ErrMsg "advertised server pub must be 33-byte compressed secp256k1");
  deriveVtxoHKDFVaultCosigner master vaultID policyVersion network advertisedServerPub.

Definition DeriveVaultBoardCosignerScalar (master vaultID network operatorPub : bytes) : result bytes :=
  _ ← fail_if (vaultID == []) (ErrMsg "vault id required");
  _ ← or_err (ErrMsg "vault-board-v1 is not enabled for this network") (PinsFor network);
  _ ← fail_if (negb (compressed_pub operatorPub)) (ErrMsg "Operator pub must be compressed secp256k1");
  let prk := hmac_sha256 vaultBoardCosignerHKDFSalt master in
  priv ← hkdf_loop prk (vaultBoardCosignerInfo vaultID network operatorPub)
           (ErrMsg "vault-board-v1 HKDF produced no valid secp256k1 scalar") 256 0;
  Ok (evenYPrivateKey priv).

(** [VerifyVaultCosignerPub] on the fields of the record that it reads. *)
Definition VerifyVaultCosignerPub (master vaultID cosignerMode vaultCosignerBase : bytes) : result unit :=
  derived ← DeriveVaultCosignerScalar master vaultID cosignerMode;
  fail_if (negb (hmac_Equal (priv_PubKey derived) vaultCosignerBase))
    (ErrMsg "stored vault cosigner pubkey does not match %s derivation").

(** ** The file-backed keys: [None] once they are wiped. *)
Definition fileBackedVaultKeys : Type := option bytes.

Definition withMaster {A} (k : fileBackedVaultKeys) (fn : bytes -> result A) : result A :=
  match k with None => Err (ErrMsg "VaultCosigner IKM required") | Some master => fn master end.

Definition wipe (k : fileBackedVaultKeys) : fileBackedVaultKeys := None.

Definition vaultCosignerPublic (k : fileBackedVaultKeys) (vaultID : bytes) : result PubKey :=
  _ ← fail_if (vaultID == []) (ErrMsg "tenant vault id required");
  withMaster k (fun master =>
    child ← DeriveVaultCosignerScalar master vaultID CosignerModeHKDFSHA256V1;
    Ok (priv_PubKey child)).

Record vtxoKeyContext := {
  kc_vaultID : bytes;
  kc_network : bytes;
  kc_operatorPub : bytes;
  kc_expectedXOnly : bytes;
}.

Definition newVtxoKeyContext (vaultID network operatorPub : bytes) : result vtxoKeyContext :=
  _ ← fail_if ((vaultID == []) || (network == []) || negb (blen operatorPub =? 33)) (ErrMsg "vault-policy-v1 key context required");
  Ok {| kc_vaultID := vaultID; kc_network := network; kc_operatorPub := operatorPub; kc_expectedXOnly := [] |}.

Definition with_expected (x : bytes) (k : vtxoKeyContext) : vtxoKeyContext :=
  {| kc_vaultID := kc_vaultID k; kc_network := kc_network k; kc_operatorPub := kc_operatorPub k; kc_expectedXOnly := x |}.

Definition validateVtxoKeyContext (req : vtxoKeyContext) (requireExpected : bool) : result unit :=
  _ ← fail_if ((kc_vaultID req == []) || (kc_network req == []) || negb (blen (kc_operatorPub req) =? 33))
        (ErrMsg "vault-policy-v1 key context required");
  fail_if (requireExpected && negb (blen (kc_expectedXOnly req) =? 32)) (ErrMsg "vault-policy-v1 expected signer required").

Definition deriveVtxoKey (master : bytes) (req : vtxoKeyContext) : result bytes :=
  _ ← or_err (ErrMsg "vault-policy-v1 key context required") (validateVtxoKeyContext req false);
  DeriveVtxoVaultCosignerScalar master (kc_vaultID req) VaultPolicyV1 (kc_network req) (kc_operatorPub req).

Definition vtxoVaultCosignerPublic (k : fileBackedVaultKeys) (req : vtxoKeyContext) : result PubKey :=
  withMaster k (fun master => priv ← deriveVtxoKey master req; Ok (priv_PubKey priv)).

Record vtxoTransactionAuthorization := {
  ta_key : vtxoKeyContext;
  ta_unsignedArk : bytes;
  ta_pendingProof : bytes;
  ta_spendLeaf : bytes;
}.

Definition newVtxoTransactionAuthorization (key : vtxoKeyContext) (unsignedArk pendingProof spendLeaf expectedXOnly : bytes)
  : result vtxoTransactionAuthorization :=
  _ ← fail_if ((unsignedArk == []) || (pendingProof == []) || (blen spendLeaf =? 0) || negb (blen expectedXOnly =? 32))
        (ErrMsg "vault-policy-v1 transaction authorization required");
  Ok {| ta_key := with_expected expectedXOnly key; ta_unsignedArk := unsignedArk; ta_pendingProof := pendingProof;
        ta_spendLeaf := spendLeaf |}.

(** The key of a context, checked against the expected signer. *)
Definition expected_key (master : bytes) (key : vtxoKeyContext) : result bytes :=
  priv ← deriveVtxoKey master key;
  _ ← fail_if (SerializePubKey (priv_PubKey priv) != kc_expectedXOnly key) (ErrMsg "vault-policy-v1 signer key mismatch");
  Ok priv.

(** [ctx i] is [ctx.Err()] when stage [i] is signed. *)
Definition authorizeVtxoTransaction (k : fileBackedVaultKeys) (ctx : nat -> result unit) (req : vtxoTransactionAuthorization)
  : result (bytes * bytes) :=
  _ ← fail_if ((ta_unsignedArk req == []) || (ta_pendingProof req == []) || (blen (ta_spendLeaf req) =? 0)
               || negb (is_ok (validateVtxoKeyContext (ta_key req) true)))
        (ErrMsg "invalid vault-policy-v1 transaction authorization");
  withMaster k (fun master =>
    priv ← expected_key master (ta_key req);
    ark ← signExactArkStage (ctx 0%nat) (ta_unsignedArk req) priv (kc_expectedXOnly (ta_key req)) (ta_spendLeaf req);
    proof ← signExactArkStageWithSighash (ctx 1%nat) (ta_pendingProof req) priv (kc_expectedXOnly (ta_key req)) (ta_spendLeaf req) SigHashAll;
    Ok (ark, proof)).

Record vtxoCheckpointAuthorization := {
  ca_key : vtxoKeyContext;
  ca_checkpoints : list bytes;
  ca_spendLeaf : bytes;
}.

Definition newVtxoCheckpointAuthorization (key : vtxoKeyContext) (checkpoints : list bytes) (spendLeaf expectedXOnly : bytes)
  : result vtxoCheckpointAuthorization :=
  _ ← fail_if (Nat.eqb (length checkpoints) 0 || (blen spendLeaf =? 0) || negb (blen expectedXOnly =? 32))
        (ErrMsg "vault-policy-v1 checkpoint authorization required");
  _ ← fail_if (existsb (fun c => c == []) checkpoints) (ErrMsg "vault-policy-v1 checkpoint PSBT required");
  Ok {| ca_key := with_expected expectedXOnly key; ca_checkpoints := checkpoints; ca_spendLeaf := spendLeaf |}.

Definition authorizeVtxoCheckpoints (k : fileBackedVaultKeys) (ctx : nat -> result unit) (req : vtxoCheckpointAuthorization)
  : result (list bytes) :=
  _ ← fail_if (Nat.eqb (length (ca_checkpoints req)) 0 || (blen (ca_spendLeaf req) =? 0)
               || negb (is_ok (validateVtxoKeyContext (ca_key req) true)))
        (ErrMsg "invalid vault-policy-v1 checkpoint authorization");
  withMaster k (fun master =>
    priv ← expected_key master (ca_key req);
    collect (fun ic : nat * bytes =>
        signExactArkStage (ctx (fst ic)) (snd ic) priv (kc_expectedXOnly (ca_key req)) (ca_spendLeaf req))
      (zip (seq 0 (length (ca_checkpoints req))) (ca_checkpoints req))).

(** *** Boarding deposits *)
Record vaultBoardKeyContext := {
  bc_vaultID : bytes;
  bc_network : bytes;
  bc_operatorPub : bytes;
  bc_expectedXOnly : bytes;
}.

Definition newVaultBoardKeyContext (vaultID network operatorPub : bytes) : result vaultBoardKeyContext :=
  _ ← fail_if ((vaultID == []) || negb (blen operatorPub =? 33)) (ErrMsg "vault-board-v1 key context required");
  _ ← or_err (ErrMsg "vault-board-v1 key context required") (PinsFor network);
  _ ← fail_if (bool_decide (btcec_ParsePubKey operatorPub = None)) (ErrMsg "vault-board-v1 Operator key");
  Ok {| bc_vaultID := vaultID; bc_network := network; bc_operatorPub := operatorPub; bc_expectedXOnly := [] |}.

Definition deriveVaultBoardKey (master : bytes) (req : vaultBoardKeyContext) : result bytes :=
  _ ← fail_if ((bc_vaultID req == []) || negb (blen (bc_operatorPub req) =? 33)) (ErrMsg "vault-board-v1 key context required");
  _ ← or_err (ErrMsg "vault-board-v1 key context required") (PinsFor (bc_network req));
  DeriveVaultBoardCosignerScalar master (bc_vaultID req) (bc_network req) (bc_operatorPub req).

Definition vaultBoardCosignerPublic (k : fileBackedVaultKeys) (req : vaultBoardKeyContext) : result PubKey :=
  withMaster k (fun master => priv ← deriveVaultBoardKey master req; Ok (priv_PubKey priv)).

(** [vaultBoardSignaturePhase] is a string type. *)
Definition vaultBoardPhaseRegister : bytes := str "register".
Definition vaultBoardPhaseDelete : bytes := str "delete".
Definition vaultBoardPhaseFinalize : bytes := str "finalize".

Definition sighash (p : bytes) : result Z :=
  if (p == vaultBoardPhaseRegister) || (p == vaultBoardPhaseDelete) then Ok SigHashAll
  else if p == vaultBoardPhaseFinalize then Ok SigHashDefault
  else Err (ErrMsg "vault-board-v1 signature phase").

Record vaultBoardAuthorization := {
  ba_key : vaultBoardKeyContext;
  ba_psbt : bytes;
  ba_leaf : bytes;
  ba_inputIndexes : list Z;
  ba_phase : bytes;
}.

Definition newVaultBoardAuthorization (key : vaultBoardKeyContext) (encoded leaf expectedXOnly : bytes)
    (inputIndexes : list Z) (phase : bytes) : result vaultBoardAuthorization :=
  _ ← fail_if ((encoded == []) || (blen leaf =? 0) || negb (blen expectedXOnly =? 32) || Nat.eqb (length inputIndexes) 0)
        (ErrMsg "vault-board-v1 authorization required");
  _ ← sighash phase;
  _ ← fold_res (fun (seen : list Z) idx =>
        _ ← fail_if (idx <? 0) (ErrMsg "vault-board-v1 input index");
        _ ← fail_if (bool_decide (idx ∈ seen)) (ErrMsg "vault-board-v1 duplicate input index");
        Ok (idx :: seen)) [] inputIndexes;
  Ok {| ba_key := {| bc_vaultID := bc_vaultID key; bc_network := bc_network key; bc_operatorPub := bc_operatorPub key;
                     bc_expectedXOnly := expectedXOnly |};
        ba_psbt := encoded; ba_leaf := leaf; ba_inputIndexes := inputIndexes; ba_phase := phase |}.

(** The signer refuses a negative index like one that is out of range. *)
Definition authorizeVaultBoard (k : fileBackedVaultKeys) (ctx : result unit) (req : vaultBoardAuthorization) : result bytes :=
  _ ← fail_if ((ba_psbt req == []) || (blen (ba_leaf req) =? 0) || Nat.eqb (length (ba_inputIndexes req)) 0
               || negb (blen (bc_expectedXOnly (ba_key req)) =? 32)) (ErrMsg "invalid vault-board-v1 authorization");
  withMaster k (fun master =>
    priv ← deriveVaultBoardKey master (ba_key req);
    _ ← fail_if (SerializePubKey (priv_PubKey priv) != bc_expectedXOnly (ba_key req)) (ErrMsg "vault-board-v1 signer key mismatch");
    sigHash ← sighash (ba_phase req);
    _ ← fail_if (existsb (fun idx => idx <? 0) (ba_inputIndexes req)) (ErrMsg "vault-board-v1 input index");
    signExactVaultBoardStage ctx (ba_psbt req) priv (bc_expectedXOnly (ba_key req)) (ba_leaf req)
      (map Z.to_nat (ba_inputIndexes req)) sigHash).
End Derivation.

(** ** The derivation contexts are separated *)
Lemma nets_distinct (x y t : bytes) n1 n2 : (n1 = NetworkMutinynet \/ n1 = NetworkMainnet) ->
  (n2 = NetworkMutinynet \/ n2 = NetworkMainnet) -> x ++ n1 ++ t = y ++ n2 ++ t -> n1 = n2 /\ x = y.
Proof.
  intros H1 H2 E. rewrite !app_assoc in E. apply app_inv_tail in E.
  assert (n1 = n2) as ->; [|split; [done|by apply app_inv_tail in E]].
  apply (f_equal (@rev _)) in E. rewrite !rev_app_distr in E.
  destruct H1 as [-> | ->], H2 as [-> | ->]; try done; exfalso; revert E; generalize (rev x), (rev y);
    intros l1 l2; vm_compute; discriminate.
Qed.

Lemma vtxo_info_inj v1 v2 p n1 n2 op1 op2 c1 c2 :
  (n1 = NetworkMutinynet \/ n1 = NetworkMainnet) -> (n2 = NetworkMutinynet \/ n2 = NetworkMainnet) ->
  length op1 = length op2 ->
  vtxoVaultCosignerInfo v1 p n1 op1 c1 = vtxoVaultCosignerInfo v2 p n2 op2 c2 -> v1 = v2 /\ n1 = n2 /\ op1 = op2.
Proof.
  intros H1 H2 Hl E. unfold vtxoVaultCosignerInfo in E. do 2 apply app_inv_head in E.
  rewrite !(app_assoc op1), !(app_assoc op2) in E.
  assert (forall v n op (c : bytes), v ++ nul ++ p ++ nul ++ n ++ nul ++ (op ++ nul) ++ c =
            (v ++ nul ++ p ++ nul ++ n ++ nul) ++ op ++ nul ++ c) as Ea by (intros; by rewrite !app_assoc).
  rewrite !Ea in E.
  apply app_inj_2 in E as [E Et]; [|rewrite !length_app; simpl; lia].
  apply app_inv_length in Et as [-> _]; [|done].
  assert (forall v n, v ++ nul ++ p ++ nul ++ n ++ nul = (v ++ nul ++ p ++ nul) ++ n ++ nul) as Eb by (intros; by rewrite !app_assoc).
  rewrite !Eb in E. apply nets_distinct in E as [-> E]; [|done..]. by apply app_inv_tail in E.
Qed.

Section Separation.
Context `{Btc} `{Secp}.

(** [okm] is the HKDF output that the derivation settled on. *)
Definition hkdf_output (prk : bytes) (info : Z -> bytes) (okm : bytes) : Prop :=
  exists counter, 0 <= counter < 256 /\ okm = hkdf_expand prk (info counter) /\ scalarInRange okm = true.

Lemma hkdf_loop_Ok prk info none rounds counter okm : 0 <= counter -> counter + Z.of_nat rounds <= 256 ->
  hkdf_loop prk info none rounds counter = Ok okm -> hkdf_output prk info okm.
Proof.
  revert counter. induction rounds as [|rounds IH]; intros counter Hc Hr E; cbn [hkdf_loop] in E; [done|].
  destruct (scalarInRange (hkdf_expand prk (info counter))) eqn:Es; [|apply IH in E; [done|lia..]].
  apply Ok_inj in E as <-. exists counter. split; [lia|]. done.
Qed.

Lemma compressed_pub_length pub : compressed_pub pub = true -> length pub = 33%nat.
Proof. unfold compressed_pub. intros E. bool_hyps. unfold blen in *. lia. Qed.

Lemma DeriveVtxo_Ok master v n op k :
  DeriveVtxoVaultCosignerScalar master v VaultPolicyV1 n op = Ok k ->
  (n = NetworkMutinynet \/ n = NetworkMainnet) /\ length op = 33%nat /\
  exists okm, hkdf_output (hmac_sha256 vtxoVaultCosignerHKDFSalt master) (vtxoVaultCosignerInfo v VaultPolicyV1 n op) okm /\
    k = evenYPrivateKey okm.
Proof.
  unfold DeriveVtxoVaultCosignerScalar, deriveVtxoHKDFVaultCosigner. intros E.
  apply bind_Ok in E as ([] & _ & E). apply bind_Ok in E as ([] & _ & E). apply bind_Ok in E as ([] & En & E).
  apply bind_Ok in E as ([] & Ep & E). apply bind_Ok in E as (okm & El & E). apply Ok_inj in E as <-.
  apply fail_if_Ok, andb_false_iff in En. apply fail_if_Ok, negb_false_iff, compressed_pub_length in Ep.
  split; [|split; [done|]].
  - destruct En as [En|En]; apply negb_false_iff, bool_decide_eq_true in En; auto.
  - exists okm. split; [|done]. by apply hkdf_loop_Ok in El.
Qed.

(** Payment cosigner keys are separated: the keys of two contexts (vault,
    network, Operator) are the even-Y forms of HKDF outputs in the scalar range,
    and these outputs can only be equal when the contexts are the same, or
    HMAC-SHA-256 collides under the extracted key on the encodings of the two
    contexts. *)
Theorem cosigner_keys_separated master v1 n1 op1 k1 v2 n2 op2 k2 :
  DeriveVtxoVaultCosignerScalar master v1 VaultPolicyV1 n1 op1 = Ok k1 ->
  DeriveVtxoVaultCosignerScalar master v2 VaultPolicyV1 n2 op2 = Ok k2 ->
  exists okm1 okm2, k1 = evenYPrivateKey okm1 /\ k2 = evenYPrivateKey okm2 /\
    scalarInRange okm1 = true /\ scalarInRange okm2 = true /\
    (okm1 = okm2 -> (v1 = v2 /\ n1 = n2 /\ op1 = op2) \/
       exists c1 c2, 0 <= c1 < 256 /\ 0 <= c2 < 256 /\ hmac_collision (hmac_sha256 vtxoVaultCosignerHKDFSalt master)
         (vtxoVaultCosignerInfo v1 VaultPolicyV1 n1 op1 c1 ++ [byte_of_Z 1])
         (vtxoVaultCosignerInfo v2 VaultPolicyV1 n2 op2 c2 ++ [byte_of_Z 1])).
Proof.
  intros E1 E2. apply DeriveVtxo_Ok in E1 as (Hn1 & Hl1 & okm1 & (c1 & Hc1 & Eo1 & Hr1) & ->).
  apply DeriveVtxo_Ok in E2 as (Hn2 & Hl2 & okm2 & (c2 & Hc2 & Eo2 & Hr2) & ->).
  exists okm1, okm2. repeat (split; [done|]). intros E. rewrite Eo1, Eo2 in E. unfold hkdf_expand in E.
  apply hmac_eq_cases in E as [E|Hc]; [left|right; by exists c1, c2]. apply app_inv_tail in E.
  apply vtxo_info_inj in E; [done..|lia].
Qed.
End Separation.

(** ** What the payment capability signs *)
Section Signing.
Context `{PsbtLaws} `{Secp}.

(** [signed] is the packet [raw] with one more signature, by [signer], on every
    input. *)
Definition stage_signed (raw signed signer leaf : bytes) (sigHash : Z) : Prop :=
  exists p inputs, parsePSBT raw = Ok p /\ psbt_B64Encode (set_inputs inputs p) = Some signed /\
    length inputs = length (pk_Inputs p) /\
    forall i input out, pk_Inputs p !! i = Some input -> inputs !! i = Some out ->
      adds_signature p signer leaf sigHash i input out.

Lemma sign_stage_signed ctx raw priv signer leaf sigHash s :
  signExactArkStageWithSighash ctx raw priv signer leaf sigHash = Ok s -> stage_signed raw s signer leaf sigHash.
Proof.
  intros E. apply sign_stage_spec in E as (p & inputs & Hp & He & _ & Hl & Ha). by exists p, inputs.
Qed.

Lemma expected_key_Ok master key priv : expected_key master key = Ok priv ->
  deriveVtxoKey master key = Ok priv /\ kc_expectedXOnly key = SerializePubKey (priv_PubKey priv).
Proof.
  unfold expected_key. intros E. apply bind_Ok in E as (p & Ep & E). apply bind_Ok in E as ([] & Ek & E).
  apply Ok_inj in E as ->. apply fail_if_Ok in Ek. bool_hyps. by rewrite Ep.
Qed.

(** C33: The payment capability signs only what it is given: with the key of
    the vault, network and Operator of the request, which must be the expected
    one, it adds one valid signature to every input of the two packets, over the
    spend leaf, SIGHASH_DEFAULT on the Ark transaction and SIGHASH_ALL on the
    proof, and changes nothing else; once the keys are wiped it signs nothing. *)
Theorem vtxo_signing_exact k ctx req ark proof :
  authorizeVtxoTransaction k ctx req = Ok (ark, proof) ->
  (exists master priv, k = Some master /\ deriveVtxoKey master (ta_key req) = Ok priv /\
     kc_expectedXOnly (ta_key req) = SerializePubKey (priv_PubKey priv)) /\
  stage_signed (ta_unsignedArk req) ark (kc_expectedXOnly (ta_key req)) (ta_spendLeaf req) SigHashDefault /\
  stage_signed (ta_pendingProof req) proof (kc_expectedXOnly (ta_key req)) (ta_spendLeaf req) SigHashAll /\
  forall ctx' req', is_ok (authorizeVtxoTransaction (wipe k) ctx' req') = false.
Proof.
  unfold authorizeVtxoTransaction. intros E. apply bind_Ok in E as ([] & _ & E).
  destruct k as [master|]; [|done]. cbn [withMaster] in E.
  apply bind_Ok in E as (priv & Ek & E). apply bind_Ok in E as (a & Ea & E). apply bind_Ok in E as (q & Eq & E).
  apply Ok_inj, pair_equal_spec in E as [<- <-]. apply expected_key_Ok in Ek as [Ek Ex].
  split; [by exists master, priv|]. split; [by eapply sign_stage_signed|]. split; [by eapply sign_stage_signed|].
  intros ctx' req'. unfold fail_if. by destruct (_ || _ || _ || _).
Qed.
End Signing.

(** *** The checked-in vectors and an example *)

(** Scalar arithmetic that never overflows, enough to run the derivation. *)
Definition toy_secp : Secp := {|
  scalar_overflow := fun _ => false; scalar_IsZero := fun _ => false; scalar_Negate := fun k => k;
  btcec_ParsePubKey := fun b => if blen b =? 33 then Some b else None;
|}.

(** [policy/testdata/hkdf-sha256-v1.json]. *)
Example hkdf_vectors :
  let derive v := hex_encode <$> @DeriveVaultCosignerScalar toy_secp (replicate 32 Byte.x21) (str v) CosignerModeHKDFSHA256V1 in
  derive "tenant-example" = Ok (str "4a460cd92c28b3c9aeb55bd4c9c55c9e87efe46c5698a6aea296b3f4fd9bca20") /\
  derive "tenant-other" = Ok (str "39a9544342c1a50ef282d5380a85742c43a3791f60f35947203262dc81e8fade") /\
  derive "550e8400-e29b-41d4-a716-446655440000" = Ok (str "704693291118764f7d3c8946db4606a4684a473e2864923e179d8af95022b172").
Proof. split_and!; vm_compute; reflexivity. Qed.

Definition toy_master : bytes := replicate 32 Byte.x21.
Definition toy_key : vtxoKeyContext := {|
  kc_vaultID := str "vault-1"; kc_network := NetworkMutinynet; kc_operatorPub := toy_operator;
  kc_expectedXOnly := SerializePubKey toy_cosigner |}.

Notation toy_derive vault :=
  (@DeriveVtxoVaultCosignerScalar (toy_btc []) toy_secp toy_master vault VaultPolicyV1 NetworkMutinynet toy_operator).

Lemma toy_derives : exists k1 k2, toy_derive (str "vault-1") = Ok k1 /\ toy_derive (str "vault-2") = Ok k2.
Proof.
  assert (is_ok (toy_derive (str "vault-1")) && is_ok (toy_derive (str "vault-2")) = true) as E by (vm_compute; reflexivity).
  apply andb_prop in E as [E1 E2]. revert E1 E2. generalize (toy_derive (str "vault-1")), (toy_derive (str "vault-2")).
  intros [k1|] [k2|]; try discriminate. by exists k1, k2.
Qed.

Lemma cosigner_keys_separated_witness : exists k1 k2 okm1 okm2,
  k1 = @evenYPrivateKey (toy_btc []) toy_secp okm1 /\ k2 = @evenYPrivateKey (toy_btc []) toy_secp okm2 /\
  (okm1 = okm2 -> str "vault-1" = str "vault-2" \/
     exists c1 c2, 0 <= c1 < 256 /\ 0 <= c2 < 256 /\ hmac_collision (hmac_sha256 vtxoVaultCosignerHKDFSalt toy_master)
       (vtxoVaultCosignerInfo (str "vault-1") VaultPolicyV1 NetworkMutinynet toy_operator c1 ++ [byte_of_Z 1])
       (vtxoVaultCosignerInfo (str "vault-2") VaultPolicyV1 NetworkMutinynet toy_operator c2 ++ [byte_of_Z 1])).
Proof.
  destruct toy_derives as (k1 & k2 & E1 & E2).
  destruct (cosigner_keys_separated _ _ _ _ _ _ _ _ _ E1 E2) as (okm1 & okm2 & H1 & H2 & _ & _ & H3).
  exists k1, k2, okm1, okm2. split; [exact H1|]. split; [exact H2|]. intros E.
  destruct (H3 E) as [(Hv & _)|Hc]; [left; exact Hv|right; exact Hc].
Defined.

(** A payment of one input, with the signatures of [signers]. *)
Definition toy_stage (sigHash : Z) (signers : list PubKey) : Packet := {|
  pk_UnsignedTx := {| ut_Version := 3; ut_LockTime := 0;
    ut_TxIn := [{| ti_PreviousOutPoint := {| op_Hash := hex_encode (be_bytes 32 2); op_Index := 0 |}; ti_Sequence := 4294967295 |}];
    ut_TxOut := [{| to_Value := 20430; to_PkScript := toy_script |}] |};
  pk_Inputs := [toy_pinput 20430 sigHash signers]; pk_Outputs := [[]]; pk_Unknowns := [] |}.

Definition toy_stages : list (bytes * Packet) :=
  [(str "ark", toy_stage SigHashDefault [toy_user]); (str "ark-signed", toy_stage SigHashDefault [toy_user; toy_cosigner]);
   (str "proof", toy_stage SigHashAll [toy_user]); (str "proof-signed", toy_stage SigHashAll [toy_user; toy_cosigner])].

Definition toy_authorization : vtxoTransactionAuthorization :=
  {| ta_key := toy_key; ta_unsignedArk := str "ark"; ta_pendingProof := str "proof"; ta_spendLeaf := toy_leaf |}.

Lemma vtxo_signing_exact_witness :
  let btc := toy_btc toy_stages in
  stage_signed (str "ark") (str "ark-signed") (SerializePubKey toy_cosigner) toy_leaf SigHashDefault /\
  stage_signed (str "proof") (str "proof-signed") (SerializePubKey toy_cosigner) toy_leaf SigHashAll.
Proof.
  intros btc. assert (@PsbtLaws btc) as laws by (apply toy_laws; repeat (constructor; [set_solver|]); constructor).
  assert (@authorizeVtxoTransaction btc toy_secp (Some toy_master) (fun _ => Ok tt) toy_authorization =
          Ok (str "ark-signed", str "proof-signed")) as E by (vm_compute; reflexivity).
  destruct (vtxo_signing_exact _ _ _ _ _ E) as (_ & Ha & Hp & _). exact (conj Ha Hp).
Defined.
