(* ===== verification/Vtxo.v ===== *)
(** Spending (VTXO) operations ([internal/policy/vtxo.go]): the persisted
    records, their canonical encodings and row MACs, the canonical order of
    bundle inputs, the digests the phone signs, and the lifecycle states. *)
From Stdlib Require Import Strings.Byte.
From S2P Require Import Prelude Sha256 Text Program.

(** ** Constants *)
Definition vtxoPurposeSpend : bytes := str "spend".
Definition vtxoStateReserved : bytes := str "reserved".
Definition vtxoStateSigned : bytes := str "signed".
Definition vtxoStateSubmitted : bytes := str "submitted".
Definition vtxoStateFinalized : bytes := str "finalized".
Definition vtxoStateAborted : bytes := str "aborted".
Definition vtxoStateUnresolved : bytes := str "unresolved".
Definition VtxoFeePolicyDigestTag : string := "arkade-vault/arkade-intent-fee-policy/v1".
Definition MaxVtxoOperationInputs : Z := 50.
Definition vtxoOperationCanonicalVer : Z := 2.
Definition vtxoOperationInputKind : bytes := str "input".
Definition vtxoOperationMACDomain : bytes := str "arkade-2fa-vault/vtxo-operation/v1".
Definition vtxoBundleDigestTag : string := "arkade-2fa-vault/vtxo-bundle/v1".
Definition vtxoReserveDigestTag : string := "arkade-vault/vtxo-reserve/v1".
Definition vtxoAbortDigestTag : string := "arkade-vault/vtxo-abort/v1".

(** ** Records *)
Record VtxoOperation := {
  vo_OperationID : bytes;
  vo_VaultID : bytes;
  vo_Purpose : bytes;
  vo_BundleDigest : bytes;
  vo_State : bytes;
  vo_AmountSats : Z;
  vo_FeeSats : Z;
  vo_FeePolicyDigest : bytes;
  vo_DestScript : bytes;
  vo_ChangeScript : bytes;
  vo_ChangeSats : Z;
  vo_ChangeVout : option Z;
  vo_UnsignedPSBT : bytes;
  vo_AuthorizedPSBT : bytes;
  vo_PendingProofDigest : bytes;
  vo_AuthorizedPendingProof : bytes;
  vo_CheckpointPSBTs : bytes;
  vo_CheckpointRequestPSBTs : bytes;
  vo_CheckpointTapscript : bytes;
  vo_ArkTxid : bytes;
  vo_ExpiresAt : bytes;
  vo_CreatedAt : bytes;
  vo_LastDestScript : bytes;
  vo_IntegrityMAC : bytes;
}.

Record VtxoOperationInput := {
  vi_OperationID : bytes;
  vi_Txid : bytes;
  vi_Vout : Z;          (* Go int *)
  vi_ValueSats : Z;     (* int64 *)
  vi_Script : bytes;
  vi_IntegrityMAC : bytes;
}.

Record VtxoBundleInput := {
  bi_Txid : bytes;
  bi_Vout : Z;          (* uint32 *)
  bi_ValueSats : Z;     (* uint64 *)
}.

#[global] Instance VtxoOperation_eq_dec : EqDecision VtxoOperation.
Proof. solve_decision. Defined.
#[global] Instance VtxoOperationInput_eq_dec : EqDecision VtxoOperationInput.
Proof. solve_decision. Defined.
#[global] Instance VtxoBundleInput_eq_dec : EqDecision VtxoBundleInput.
Proof. solve_decision. Defined.

(** Field assignments. *)
Definition vo_set_MAC (mac : bytes) (r : VtxoOperation) : VtxoOperation :=
  Build_VtxoOperation (vo_OperationID r) (vo_VaultID r) (vo_Purpose r) (vo_BundleDigest r)
    (vo_State r) (vo_AmountSats r) (vo_FeeSats r) (vo_FeePolicyDigest r) (vo_DestScript r)
    (vo_ChangeScript r) (vo_ChangeSats r) (vo_ChangeVout r) (vo_UnsignedPSBT r)
    (vo_AuthorizedPSBT r) (vo_PendingProofDigest r) (vo_AuthorizedPendingProof r)
    (vo_CheckpointPSBTs r) (vo_CheckpointRequestPSBTs r) (vo_CheckpointTapscript r)
    (vo_ArkTxid r) (vo_ExpiresAt r) (vo_CreatedAt r) (vo_LastDestScript r) mac.

Definition vo_set_State (state : bytes) (r : VtxoOperation) : VtxoOperation :=
  Build_VtxoOperation (vo_OperationID r) (vo_VaultID r) (vo_Purpose r) (vo_BundleDigest r)
    state (vo_AmountSats r) (vo_FeeSats r) (vo_FeePolicyDigest r) (vo_DestScript r)
    (vo_ChangeScript r) (vo_ChangeSats r) (vo_ChangeVout r) (vo_UnsignedPSBT r)
    (vo_AuthorizedPSBT r) (vo_PendingProofDigest r) (vo_AuthorizedPendingProof r)
    (vo_CheckpointPSBTs r) (vo_CheckpointRequestPSBTs r) (vo_CheckpointTapscript r)
    (vo_ArkTxid r) (vo_ExpiresAt r) (vo_CreatedAt r) (vo_LastDestScript r) (vo_IntegrityMAC r).

Definition vi_set_MAC (mac : bytes) (r : VtxoOperationInput) : VtxoOperationInput :=
  Build_VtxoOperationInput (vi_OperationID r) (vi_Txid r) (vi_Vout r) (vi_ValueSats r) (vi_Script r) mac.

Definition vi_set_OperationID (id : bytes) (r : VtxoOperationInput) : VtxoOperationInput :=
  Build_VtxoOperationInput id (vi_Txid r) (vi_Vout r) (vi_ValueSats r) (vi_Script r) (vi_IntegrityMAC r).

(** ** Lifecycle states *)
Definition requireVtxoState (state : bytes) : result unit :=
  if (state == vtxoStateReserved) || (state == vtxoStateSigned) || (state == vtxoStateSubmitted)
     || (state == vtxoStateFinalized) || (state == vtxoStateAborted) || (state == vtxoStateUnresolved)
  then Ok tt else Err (ErrMsg "unknown vtxo operation state").

Definition vtxoStateCountsTowardAllowance (state : bytes) : bool :=
  (state == vtxoStateReserved) || (state == vtxoStateSigned) || (state == vtxoStateSubmitted)
  || (state == vtxoStateFinalized) || (state == vtxoStateUnresolved).

Definition vtxoStateAwaitingSettlement (state : bytes) : bool :=
  (state == vtxoStateSigned) || (state == vtxoStateSubmitted).

Definition vtxoStateBlocksNewOperation (state : bytes) : bool :=
  (state == vtxoStateReserved) || (state == vtxoStateSigned) || (state == vtxoStateSubmitted)
  || (state == vtxoStateUnresolved).

Definition vtxoStateLocksInputs (state : bytes) : bool :=
  (state == vtxoStateReserved) || (state == vtxoStateSigned) || (state == vtxoStateSubmitted)
  || (state == vtxoStateFinalized).

(** ** Canonical encodings *)

(** An optional [uint32]: a presence byte, then the value when present. *)
Definition enc_opt_u32 (v : option Z) : bytes :=
  match v with
  | None => [Byte.x00]
  | Some n => Byte.x01 :: le32 n
  end.

(** The two shape conditions of a change output, shared by the encoder of the
    row and the bundle digest. *)
Definition change_shape (changeSats : Z) (changeVout : option Z) (changeScript : bytes) : result unit :=
  if changeSats =? 0 then
    fail_if (match changeVout with Some _ => true | None => false end || negb (blen changeScript =? 0))
      (ErrMsg "invalid no-change shape")
  else
    fail_if ((changeSats <? DustSats)
             || match changeVout with None => true | Some v => negb (v =? 1) end
             || (blen changeScript =? 0))
      (ErrMsg "invalid change shape").

Definition canonicalVtxoOperation (rec : VtxoOperation) : result bytes :=
  _ ← fail_if ((vo_OperationID rec == []) || (vo_VaultID rec == []))
        (ErrMsg "vtxo operation identity required");
  _ ← fail_if (vo_Purpose rec != vtxoPurposeSpend) (ErrMsg "vtxo purpose must be spend");
  _ ← requireVtxoState (vo_State rec);
  _ ← fail_if (negb (blen (vo_BundleDigest rec) =? 32)) (ErrMsg "bundle digest must be 32 bytes");
  _ ← fail_if ((vo_AmountSats rec <? 0) || (vo_FeeSats rec <? 0) || (vo_ChangeSats rec <? 0))
        (ErrMsg "negative vtxo outflow");
  _ ← fail_if (negb (blen (vo_FeePolicyDigest rec) =? sha256_Size))
        (ErrMsg "fee policy digest must be 32 bytes");
  _ ← fail_if (xorb (blen (vo_PendingProofDigest rec) =? 0) (vo_AuthorizedPendingProof rec == []))
        (ErrMsg "pending proof persistence must be all-or-nothing");
  _ ← fail_if (negb (blen (vo_PendingProofDigest rec) =? 0)
               && negb (blen (vo_PendingProofDigest rec) =? sha256_Size))
        (ErrMsg "pending proof digest must be 32 bytes");
  _ ← change_shape (vo_ChangeSats rec) (vo_ChangeVout rec) (vo_ChangeScript rec);
  out ← appendCredentialField [] vtxoOperationMACDomain;
  out ← appendCredentialFields (out ++ le32 vtxoOperationCanonicalVer)
    [vo_OperationID rec; vo_VaultID rec; vo_Purpose rec;
     vo_BundleDigest rec; vo_State rec; vo_FeePolicyDigest rec; vo_DestScript rec; vo_ChangeScript rec;
     vo_UnsignedPSBT rec; vo_AuthorizedPSBT rec;
     vo_PendingProofDigest rec; vo_AuthorizedPendingProof rec;
     vo_CheckpointPSBTs rec; vo_CheckpointRequestPSBTs rec; vo_CheckpointTapscript rec;
     vo_ArkTxid rec; vo_ExpiresAt rec; vo_CreatedAt rec; vo_LastDestScript rec];
  Ok (out ++ le64 (vo_AmountSats rec) ++ le64 (vo_FeeSats rec) ++ le64 (vo_ChangeSats rec)
      ++ enc_opt_u32 (vo_ChangeVout rec)).

(** [uint32(rec.Vout)] keeps the low 32 bits of the Go [int]; [le32] does. *)
Definition canonicalVtxoOperationInput (rec : VtxoOperationInput) : result bytes :=
  _ ← fail_if (vi_OperationID rec == []) (ErrMsg "vtxo operation id required");
  _ ← fail_if (negb (blen (vi_Txid rec) =? 32)) (ErrMsg "vtxo input txid must be 32 bytes");
  _ ← fail_if (vi_Vout rec <? 0) (ErrMsg "vtxo input vout");
  _ ← fail_if (vi_ValueSats rec <? 0) (ErrMsg "negative vtxo input value");
  out ← appendCredentialField [] vtxoOperationMACDomain;
  out ← appendCredentialField (out ++ le32 vtxoOperationCanonicalVer) vtxoOperationInputKind;
  out ← appendCredentialField out (vi_OperationID rec);
  out ← appendCredentialField out (vi_Txid rec);
  appendCredentialField (out ++ le32 (wrap32 (vi_Vout rec)) ++ le64 (vi_ValueSats rec)) (vi_Script rec).

Definition vtxoOperationMAC (rec : VtxoOperation) (integrityKey : bytes) : result bytes :=
  _ ← fail_if (negb (blen integrityKey =? sha256_Size))
        (ErrMsg "vtxo operation integrity key must be 32 bytes");
  payload ← canonicalVtxoOperation rec;
  Ok (hmac_sha256 integrityKey payload).

Definition vtxoOperationInputMAC (rec : VtxoOperationInput) (integrityKey : bytes) : result bytes :=
  _ ← fail_if (negb (blen integrityKey =? sha256_Size))
        (ErrMsg "vtxo operation integrity key must be 32 bytes");
  payload ← canonicalVtxoOperationInput rec;
  Ok (hmac_sha256 integrityKey payload).

Definition SealVtxoOperation (rec : VtxoOperation) (integrityKey : bytes) : result VtxoOperation :=
  mac ← vtxoOperationMAC rec integrityKey;
  Ok (vo_set_MAC mac rec).

Definition VerifyVtxoOperation (rec : VtxoOperation) (integrityKey : bytes) : result unit :=
  _ ← fail_if (negb (blen (vo_IntegrityMAC rec) =? sha256_Size))
        (ErrMsg "vtxo operation integrity MAC missing or malformed");
  want ← vtxoOperationMAC rec integrityKey;
  fail_if (negb (hmac_Equal (vo_IntegrityMAC rec) want)) (ErrMsg "vtxo operation integrity MAC mismatch").

Definition SealVtxoOperationInput (rec : VtxoOperationInput) (integrityKey : bytes)
  : result VtxoOperationInput :=
  mac ← vtxoOperationInputMAC rec integrityKey;
  Ok (vi_set_MAC mac rec).

Definition VerifyVtxoOperationInput (rec : VtxoOperationInput) (integrityKey : bytes) : result unit :=
  _ ← fail_if (negb (blen (vi_IntegrityMAC rec) =? sha256_Size))
        (ErrMsg "vtxo operation input integrity MAC missing or malformed");
  want ← vtxoOperationInputMAC rec integrityKey;
  fail_if (negb (hmac_Equal (vi_IntegrityMAC rec) want))
    (ErrMsg "vtxo operation input integrity MAC mismatch").

(** ** Canonical order of bundle inputs *)
Definition canonicalVtxoTxid (txid : bytes) : result (bytes * bytes) :=
  let bad := ErrMsg "vtxo input txid must be 32 bytes or 64 hex chars" in
  if blen txid =? 32 then Ok (hex_encode txid, txid)
  else if blen txid =? 64 then
    match hex_decode (to_lower txid) with
    | Some raw => if blen raw =? 32 then Ok (hex_encode raw, raw) else Err bad
    | None => Err bad
    end
  else Err bad.

Record keyed := { k_in : VtxoBundleInput; k_hex : bytes }.

(** [canon + ":" + fmt.Sprintf("%d", in.Vout)] *)
Definition outpoint_key (canon : bytes) (vout : Z) : bytes :=
  canon ++ str ":" ++ format_uint vout.

(** The loop that normalises each input and remembers the outpoints seen. *)
Fixpoint key_inputs (seen : list bytes) (inputs : list VtxoBundleInput) : result (list keyed) :=
  match inputs with
  | [] => Ok []
  | i :: inputs =>
      cr ← canonicalVtxoTxid (bi_Txid i);
      let '(canon, raw) := cr in
      let key := outpoint_key canon (bi_Vout i) in
      if bool_decide (key ∈ seen) then Err (ErrMsg "duplicate vtxo outpoint") else
      ordered ← key_inputs (key :: seen) inputs;
      Ok ({| k_in := Build_VtxoBundleInput raw (bi_Vout i) (bi_ValueSats i); k_hex := canon |} :: ordered)
  end.

(** The comparison passed to [sort.SliceStable]. *)
Definition keyed_less (a b : keyed) : bool :=
  if k_hex a != k_hex b then bytes_ltb (k_hex a) (k_hex b)
  else bi_Vout (k_in a) <? bi_Vout (k_in b).

Definition CanonicalVtxoBundleInputs (inputs : list VtxoBundleInput) : result (list VtxoBundleInput) :=
  _ ← fail_if (65535 <? Z.of_nat (length inputs)) (ErrMsg "too many vtxo inputs");
  ordered ← key_inputs [] inputs;
  Ok (map k_in (slice_stable keyed_less ordered)).

(** ** Digests *)
Definition enc_bundle_input (i : VtxoBundleInput) : bytes :=
  bi_Txid i ++ le32 (bi_Vout i) ++ le64 (bi_ValueSats i).

Definition bundle_payload (purpose vaultID destScript changeScript : bytes)
    (amountSats feeSats changeSats : Z) (changeVout : option Z) (feePolicyDigest : bytes)
    (ordered : list VtxoBundleInput) (createdAt : bytes) : result bytes :=
  payload ← appendCredentialField [] purpose;
  payload ← appendCredentialField payload vaultID;
  payload ← appendCredentialField payload destScript;
  payload ← appendCredentialField (payload ++ le64 amountSats) changeScript;
  payload ← appendCredentialField
    (payload ++ le64 feeSats ++ le64 changeSats ++ enc_opt_u32 changeVout) feePolicyDigest;
  appendCredentialField
    (payload ++ le16 (Z.of_nat (length ordered)) ++ concat (map enc_bundle_input ordered)) createdAt.

Definition ComputeVtxoBundleDigest (purpose vaultID destScript changeScript : bytes)
    (amountSats feeSats changeSats : Z) (changeVout : option Z) (feePolicyDigest : bytes)
    (inputs : list VtxoBundleInput) (createdAt : bytes) : result bytes :=
  _ ← fail_if (purpose != vtxoPurposeSpend) (ErrMsg "vtxo purpose must be spend");
  _ ← fail_if (vaultID == []) (ErrMsg "vault id required");
  _ ← fail_if (negb (blen feePolicyDigest =? sha256_Size)) (ErrMsg "fee policy digest must be 32 bytes");
  _ ← change_shape changeSats changeVout changeScript;
  ordered ← CanonicalVtxoBundleInputs inputs;
  _ ← fail_if ((Z.of_nat (length ordered) =? 0) || (MaxVtxoOperationInputs <? Z.of_nat (length ordered)))
        (ErrMsg "vtxo input count must be 1..%d");
  payload ← bundle_payload purpose vaultID destScript changeScript amountSats feeSats changeSats
              changeVout feePolicyDigest ordered createdAt;
  Ok (taggedSHA256 vtxoBundleDigestTag payload).

(** No size check here: [uint32(len(program))] truncates. *)
Definition ComputeIntentFeePolicyDigest (offchainInput offchainOutput onchainInput onchainOutput : bytes)
  : bytes :=
  taggedSHA256 VtxoFeePolicyDigestTag
    (concat (map (fun program => le32 (blen program) ++ program)
      [offchainInput; offchainOutput; onchainInput; onchainOutput])).

Definition operation_raw (operationID : bytes) : result bytes :=
  let bad := ErrMsg "operation id must be 16 bytes encoded as lowercase hex" in
  match hex_decode operationID with
  | Some raw => if negb (blen raw =? 16) || (operationID != to_lower operationID) then Err bad else Ok raw
  | None => Err bad
  end.

Definition ComputeVtxoReserveDigest (operationID vaultID purpose destScript : bytes) (amountSats : Z)
  : result bytes :=
  operationRaw ← operation_raw operationID;
  _ ← fail_if (vaultID == []) (ErrMsg "vault id required");
  _ ← fail_if (purpose != vtxoPurposeSpend) (ErrMsg "vtxo purpose must be spend");
  _ ← fail_if (blen destScript =? 0) (ErrMsg "destination script required");
  _ ← fail_if (amountSats =? 0) (ErrMsg "amount required");
  payload ← appendCredentialFields (le32 1) [operationRaw; vaultID; purpose; destScript];
  Ok (taggedSHA256 vtxoReserveDigestTag (payload ++ le64 amountSats)).

Definition ComputeVtxoAbortDigest (operationID vaultID purpose : bytes) : result bytes :=
  operationRaw ← operation_raw operationID;
  _ ← fail_if (vaultID == []) (ErrMsg "vault id required");
  _ ← fail_if (purpose != vtxoPurposeSpend) (ErrMsg "vtxo purpose must be spend");
  payload ← appendCredentialFields (le32 1) [operationRaw; vaultID; purpose];
  Ok (taggedSHA256 vtxoAbortDigestTag payload).

(** ** Row MACs *)

(** The ranges the Go types give the integer fields. *)
Definition vo_typed (r : VtxoOperation) : Prop :=
  is_int64 (vo_AmountSats r) /\ is_int64 (vo_FeeSats r) /\ is_int64 (vo_ChangeSats r).
Definition vi_typed (r : VtxoOperationInput) : Prop := is_int64 (vi_Vout r) /\ is_int64 (vi_ValueSats r).
Definition bi_typed (i : VtxoBundleInput) : Prop := is_uint32 (bi_Vout i) /\ is_uint64 (bi_ValueSats i).

(** The variable-length fields of an operation row, in encoding order. *)
Definition vo_fields (r : VtxoOperation) : list bytes :=
  [vo_OperationID r; vo_VaultID r; vo_Purpose r;
   vo_BundleDigest r; vo_State r; vo_FeePolicyDigest r; vo_DestScript r; vo_ChangeScript r;
   vo_UnsignedPSBT r; vo_AuthorizedPSBT r;
   vo_PendingProofDigest r; vo_AuthorizedPendingProof r;
   vo_CheckpointPSBTs r; vo_CheckpointRequestPSBTs r; vo_CheckpointTapscript r;
   vo_ArkTxid r; vo_ExpiresAt r; vo_CreatedAt r; vo_LastDestScript r].

Definition vo_encoding (r : VtxoOperation) : bytes :=
  enc_field vtxoOperationMACDomain ++ le32 vtxoOperationCanonicalVer
  ++ concat (map enc_field (vo_fields r))
  ++ le64 (vo_AmountSats r) ++ le64 (vo_FeeSats r) ++ le64 (vo_ChangeSats r)
  ++ enc_opt_u32 (vo_ChangeVout r).

Definition vi_encoding (r : VtxoOperationInput) : bytes :=
  enc_field vtxoOperationMACDomain ++ le32 vtxoOperationCanonicalVer
  ++ enc_field vtxoOperationInputKind ++ enc_field (vi_OperationID r) ++ enc_field (vi_Txid r)
  ++ le32 (wrap32 (vi_Vout r)) ++ le64 (vi_ValueSats r) ++ enc_field (vi_Script r).

(** What the encoder accepts. *)
Record vo_valid (r : VtxoOperation) : Prop := {
  vv_fields : Forall field_ok (vo_fields r);
  vv_id : vo_OperationID r <> [];
  vv_vault : vo_VaultID r <> [];
  vv_purpose : vo_Purpose r = vtxoPurposeSpend;
  vv_state : requireVtxoState (vo_State r) = Ok tt;
  vv_amount : 0 <= vo_AmountSats r;
  vv_fee : 0 <= vo_FeeSats r;
  vv_change : 0 <= vo_ChangeSats r;
  vv_vout : vo_ChangeVout r = None \/ vo_ChangeVout r = Some 1;
}.

Lemma change_shape_vout sats vout script u :
  change_shape sats vout script = Ok u -> vout = None \/ vout = Some 1.
Proof.
  unfold change_shape. destruct (sats =? 0); rewrite fail_if_Ok; intros; bool_hyps.
  - destruct vout; [done|auto].
  - destruct vout; [right|by left]. bool_hyps. by subst.
Qed.

Lemma canonicalVtxoOperation_Ok r out :
  canonicalVtxoOperation r = Ok out -> out = vo_encoding r /\ vo_valid r.
Proof.
  unfold canonicalVtxoOperation, vo_encoding. intros H. inv_ok.
  repeat match goal with
  | H : appendCredentialField _ _ = Ok _ |- _ => apply appendCredentialField_Ok in H as [? ->]
  | H : appendCredentialFields _ _ = Ok _ |- _ => apply appendCredentialFields_Ok in H as [? ->]
  end.
  bool_hyps. split; [by rewrite <-!app_assoc|].
  constructor; eauto using change_shape_vout.
Qed.

Lemma canonicalVtxoOperationInput_Ok r out :
  canonicalVtxoOperationInput r = Ok out ->
  out = vi_encoding r /\ vi_OperationID r <> [] /\ blen (vi_Txid r) = 32 /\
  field_ok (vi_OperationID r) /\ field_ok (vi_Txid r) /\ field_ok (vi_Script r) /\
  0 <= vi_Vout r /\ 0 <= vi_ValueSats r.
Proof.
  unfold canonicalVtxoOperationInput, vi_encoding. intros H. inv_ok.
  repeat match goal with
  | H : appendCredentialField _ _ = Ok _ |- _ => apply appendCredentialField_Ok in H as [? ->]
  end.
  bool_hyps. split_and!; auto. by rewrite <-!app_assoc.
Qed.

Lemma enc_opt_u32_inj a b :
  (a = None \/ a = Some 1) -> (b = None \/ b = Some 1) -> enc_opt_u32 a = enc_opt_u32 b -> a = b.
Proof. intros [->| ->] [->| ->]; vm_compute; congruence. Qed.

Lemma int64_uint64 z : is_int64 z -> 0 <= z -> is_uint64 z.
Proof. unfold is_int64, is_uint64, max_int64, max_uint64. lia. Qed.
#[export] Hint Resolve int64_uint64 : guardian.

Lemma vo_encoding_inj r1 r2 :
  vo_typed r1 -> vo_typed r2 -> vo_valid r1 -> vo_valid r2 ->
  vo_encoding r1 = vo_encoding r2 -> vo_set_MAC [] r1 = vo_set_MAC [] r2.
Proof.
  intros (?&?&?) (?&?&?) [] [] E. unfold vo_encoding in E.
  apply app_inv_head in E. apply app_inv_head in E.
  apply enc_fields_app_inv in E as [Ef E]; [|done..].
  do 3 (apply le64_app_inv in E as [? E]; [|auto with guardian..]).
  apply enc_opt_u32_inj in E; [|done..].
  unfold vo_fields in Ef. injection Ef as. destruct r1, r2; simpl in *; unfold vo_set_MAC; simpl. subst. reflexivity.
Qed.

Lemma vi_encoding_inj r1 r2 :
  vi_typed r1 -> vi_typed r2 ->
  blen (vi_Txid r1) = 32 -> blen (vi_Txid r2) = 32 ->
  field_ok (vi_OperationID r1) -> field_ok (vi_OperationID r2) ->
  field_ok (vi_Script r1) -> field_ok (vi_Script r2) ->
  0 <= vi_ValueSats r1 -> 0 <= vi_ValueSats r2 ->
  vi_encoding r1 = vi_encoding r2 ->
  vi_OperationID r1 = vi_OperationID r2 /\ vi_Txid r1 = vi_Txid r2 /\
  wrap32 (vi_Vout r1) = wrap32 (vi_Vout r2) /\ vi_ValueSats r1 = vi_ValueSats r2 /\
  vi_Script r1 = vi_Script r2.
Proof.
  intros [] [] T1 T2 ?????? E. unfold vi_encoding in E.
  assert (forall z, is_uint32 (wrap32 z)) by (intros z; unfold is_uint32, max_uint32, wrap32;
    pose proof (Z.mod_pos_bound z 4294967296); lia).
  do 3 apply app_inv_head in E.
  apply enc_field_app_inv in E as [? E]; [|done..].
  apply enc_field_app_inv in E as [? E]; [|unfold field_ok, max_uint32; lia..].
  apply le32_app_inv in E as [? E]; [|done..].
  apply le64_app_inv in E as [? E]; [|auto with guardian..].
  rewrite <-(app_nil_r (enc_field (vi_Script r1))), <-(app_nil_r (enc_field (vi_Script r2))) in E.
  apply enc_field_app_inv in E as [? _]; auto.
Qed.

Lemma Verify_op_payload r key :
  VerifyVtxoOperation r key = Ok tt ->
  vo_valid r /\ vo_IntegrityMAC r = hmac_sha256 key (vo_encoding r) /\ blen key = 32.
Proof.
  unfold VerifyVtxoOperation, vtxoOperationMAC. intros H. inv_ok.
  apply canonicalVtxoOperation_Ok in E2 as [-> Hv]. unfold hmac_Equal in H. bool_hyps. auto.
Qed.

Lemma Verify_input_payload r key :
  VerifyVtxoOperationInput r key = Ok tt ->
  exists p, canonicalVtxoOperationInput r = Ok p /\ vi_IntegrityMAC r = hmac_sha256 key p.
Proof.
  unfold VerifyVtxoOperationInput, vtxoOperationInputMAC. intros H. inv_ok.
  unfold hmac_Equal in H. bool_hyps. eauto.
Qed.

(** The MAC field does not enter the encoding, so sealing then verifying succeeds. *)
Lemma Seal_Verify_op r key r' :
  SealVtxoOperation r key = Ok r' -> VerifyVtxoOperation r' key = Ok tt /\ r' = vo_set_MAC (vo_IntegrityMAC r') r.
Proof.
  unfold SealVtxoOperation. intros H. inv_ok. split; [|done].
  unfold VerifyVtxoOperation. change (vtxoOperationMAC (vo_set_MAC r0 r) key) with (vtxoOperationMAC r key).
  rewrite E. change (vo_IntegrityMAC (vo_set_MAC r0 r)) with r0.
  unfold vtxoOperationMAC in E. inv_ok. rewrite blen_hmac. unfold hmac_Equal.
  cbn. by rewrite bool_decide_eq_true_2.
Qed.

Lemma Seal_Verify_input r key r' :
  SealVtxoOperationInput r key = Ok r' ->
  VerifyVtxoOperationInput r' key = Ok tt /\ r' = vi_set_MAC (vi_IntegrityMAC r') r.
Proof.
  unfold SealVtxoOperationInput. intros H. inv_ok. split; [|done].
  unfold VerifyVtxoOperationInput.
  change (vtxoOperationInputMAC (vi_set_MAC r0 r) key) with (vtxoOperationInputMAC r key).
  rewrite E. change (vi_IntegrityMAC (vi_set_MAC r0 r)) with r0.
  unfold vtxoOperationInputMAC in E. inv_ok. rewrite blen_hmac. unfold hmac_Equal.
  cbn. by rewrite bool_decide_eq_true_2.
Qed.

(** The payload of an operation is never the payload of an input: the third
    field of one is the purpose (5 bytes), of the other the txid (32 bytes). *)
Lemma op_input_payload_disjoint r i :
  vo_valid r -> blen (vi_Txid i) = 32 -> field_ok (vi_OperationID i) -> vo_encoding r <> vi_encoding i.
Proof.
  intros Hv Ht Hi E. pose proof (vv_fields _ Hv) as F. unfold vo_encoding, vi_encoding in E.
  do 2 apply app_inv_head in E. unfold vo_fields in *. cbn [map concat] in E.
  repeat (apply Forall_cons in F as [? F]). rewrite <-!app_assoc in E.
  apply enc_field_app_inv in E as [_ E]; [|done|vm_compute; congruence].
  apply enc_field_app_inv in E as [_ E]; [|done..].
  apply enc_field_app_inv in E as [E _]; [|done|unfold field_ok, max_uint32; lia].
  rewrite (vv_purpose _ Hv) in E. rewrite <-E in Ht. discriminate Ht.
Qed.

(** ** Canonical input order *)
Definition kkey (k : keyed) : bytes := outpoint_key (k_hex k) (bi_Vout (k_in k)).

(** One iteration of the loop: the normalised form of one input. *)
Definition normalises (i : VtxoBundleInput) (k : keyed) : Prop :=
  canonicalVtxoTxid (bi_Txid i) = Ok (k_hex k, bi_Txid (k_in k)) /\
  bi_Vout (k_in k) = bi_Vout i /\ bi_ValueSats (k_in k) = bi_ValueSats i.

Lemma canonicalVtxoTxid_Ok t h raw :
  canonicalVtxoTxid t = Ok (h, raw) -> h = hex_encode raw /\ blen raw = 32.
Proof.
  unfold canonicalVtxoTxid. intros E. repeat case_match; simplify_eq; bool_hyps; auto.
Qed.

Lemma canonicalVtxoTxid_id raw :
  blen raw = 32 -> canonicalVtxoTxid raw = Ok (hex_encode raw, raw).
Proof. unfold canonicalVtxoTxid. by intros ->. Qed.

Lemma key_inputs_Ok seen l ks :
  key_inputs seen l = Ok ks <->
  Forall2 normalises l ks /\ NoDup (map kkey ks) /\ Forall (fun k => kkey k ∉ seen) ks.
Proof.
  revert seen ks. induction l as [|i l IH]; intros seen ks; simpl.
  { split; [intros [= <-]; split_and!; constructor | intros (H & _); by inversion H]. }
  rewrite bind_Ok. split.
  - intros ([canon raw] & Hc & H). case_bool_decide as Hs; [done|].
    apply bind_Ok in H as (ks' & Hk & H). apply Ok_inj in H. subst ks.
    apply IH in Hk as (HF & HN & Hd).
    split_and!; [by constructor| |constructor; [done|]].
    + simpl. constructor; [|done]. rewrite list_elem_of_fmap. intros (k & Ek & Hin).
      rewrite Forall_forall in Hd. apply (Hd k Hin). rewrite <-Ek. set_solver.
    + eapply Forall_impl; [exact Hd|]. set_solver.
  - intros (HF & HN & Hd). destruct ks as [|k ks]; [by inversion HF|].
    apply Forall2_cons in HF as [(Hc & Ev & Es) HF]. apply NoDup_cons in HN as [Hk HN].
    apply Forall_cons in Hd as [Hd Hds]. rewrite Ev in Hd || idtac.
    eexists. split; [exact Hc|]. cbn. unfold kkey in Hd. rewrite Ev in Hd.
    rewrite bool_decide_eq_false_2 by done.
    assert (key_inputs (outpoint_key (k_hex k) (bi_Vout i) :: seen) l = Ok ks) as ->.
    { apply IH. split_and!; [done..|]. apply Forall_forall. intros k' Hin.
      rewrite Forall_forall in Hds. intros [E|?]%elem_of_cons; [|by eapply Hds].
      apply Hk. apply list_elem_of_fmap. exists k'. unfold kkey at 2. split; [|done].
      unfold kkey. rewrite Ev. symmetry. exact E. }
    cbn. destruct k as [[] ?]; simpl in *. by subst.
Qed.

Lemma bytes_ltb_asym a b : bytes_ltb a b = true -> bytes_ltb b a = false.
Proof.
  intros H. destruct (bytes_ltb b a) eqn:E; [|done].
  pose proof (bytes_ltb_trans _ _ _ H E) as C. by rewrite bytes_ltb_irrefl in C.
Qed.

Lemma keyed_less_asym a b : keyed_less a b = true -> keyed_less b a = false.
Proof.
  unfold keyed_less. repeat case_bool_decide; simpl; try congruence.
  - rewrite Z.ltb_lt, Z.ltb_ge. lia.
  - apply bytes_ltb_asym.
Qed.

(** The order in one proposition: by txid, then by output index. *)
Definition key_le (a b : keyed) : Prop :=
  bytes_ltb (k_hex a) (k_hex b) = true \/
  k_hex a = k_hex b /\ bi_Vout (k_in a) <= bi_Vout (k_in b).

Lemma not_after_key_le a b : not_after keyed_less a b <-> key_le a b.
Proof.
  unfold not_after, keyed_less, key_le. case_bool_decide as E; simpl.
  - rewrite Z.ltb_ge, E. rewrite bytes_ltb_irrefl. naive_solver.
  - split.
    + intros H. left. destruct (bytes_ltb (k_hex a) (k_hex b)) eqn:E2; [done|].
      by destruct E; apply bytes_ltb_total.
    + intros [H|[H _]]; [by apply bytes_ltb_asym | congruence].
Qed.

Lemma key_le_trans a b c : key_le a b -> key_le b c -> key_le a c.
Proof.
  unfold key_le. intros [H1|[E1 ?]] [H2|[E2 ?]].
  - left. by eapply bytes_ltb_trans.
  - left. by rewrite <-E2.
  - left. by rewrite E1.
  - right. split; [congruence|lia].
Qed.

Lemma sorted_keys ks : StronglySorted key_le (slice_stable keyed_less ks).
Proof.
  pose proof (slice_stable_sorted keyed_less keyed_less_asym) as H.
  specialize (H ltac:(intros x y z; rewrite !not_after_key_le; apply key_le_trans) ks).
  induction H as [|x l ? IH Hx]; constructor; [done|].
  eapply Forall_impl; [exact Hx|]. intros y. apply not_after_key_le.
Qed.

Lemma key_le_antisym a b : key_le a b -> key_le b a -> kkey a = kkey b.
Proof.
  unfold key_le, kkey. intros [H1|[E1 ?]] [H2|[E2 ?]].
  - pose proof (bytes_ltb_asym _ _ H1). congruence.
  - rewrite E2, bytes_ltb_irrefl in H1. done.
  - rewrite E1, bytes_ltb_irrefl in H2. done.
  - f_equal; [done|lia].
Qed.

Lemma NoDup_key_inj ks x y :
  NoDup (map kkey ks) -> x ∈ ks -> y ∈ ks -> kkey x = kkey y -> x = y.
Proof.
  intros HN Hx Hy E. apply list_elem_of_lookup in Hx as [i Hi], Hy as [j Hj].
  assert (i = j) as ->; [|congruence].
  eapply NoDup_lookup; [exact HN| |].
  - rewrite list_lookup_fmap, Hi. reflexivity.
  - rewrite list_lookup_fmap, Hj, E. reflexivity.
Qed.

(** Sorting forgets the order of arrival. *)
Lemma slice_stable_perm_eq ks1 ks2 :
  ks1 ≡ₚ ks2 -> NoDup (map kkey ks1) ->
  slice_stable keyed_less ks1 = slice_stable keyed_less ks2.
Proof.
  intros HP HN. eapply (StronglySorted_unique_strong key_le); [|apply sorted_keys..|].
  - intros x y Hx Hy H1 H2. rewrite slice_stable_perm in Hx, Hy.
    apply (NoDup_key_inj ks1); [done|done|by rewrite HP|by apply key_le_antisym].
  - by rewrite !slice_stable_perm.
Qed.

Lemma key_inputs_perm l1 l2 ks1 :
  l1 ≡ₚ l2 -> key_inputs [] l1 = Ok ks1 ->
  exists ks2, key_inputs [] l2 = Ok ks2 /\ ks1 ≡ₚ ks2.
Proof.
  intros HP H. apply key_inputs_Ok in H as (HF & HN & _).
  destruct (Permutation_Forall2 HP HF) as (ks2 & HP2 & HF2).
  exists ks2. split; [|done]. apply key_inputs_Ok. split_and!; [done|by rewrite <-HP2|].
  apply Forall_forall. set_solver.
Qed.

Lemma CanonicalVtxoBundleInputs_perm l1 l2 out :
  l1 ≡ₚ l2 -> CanonicalVtxoBundleInputs l1 = Ok out -> CanonicalVtxoBundleInputs l2 = Ok out.
Proof.
  unfold CanonicalVtxoBundleInputs. intros HP H. inv_ok.
  destruct (key_inputs_perm _ _ _ HP E0) as (ks2 & E2 & HP2).
  rewrite <-(Permutation_length HP), E. simpl. rewrite E2. simpl.
  apply key_inputs_Ok in E0 as (_ & HN & _). do 2 f_equal. symmetry. by apply slice_stable_perm_eq.
Qed.

(** The strict order of the canonical inputs: by txid, then by output index. *)
Definition outpoint_lt (a b : VtxoBundleInput) : Prop :=
  bytes_ltb (hex_encode (bi_Txid a)) (hex_encode (bi_Txid b)) = true \/
  bi_Txid a = bi_Txid b /\ bi_Vout a < bi_Vout b.

Lemma hex_encode_inj a b : hex_encode a = hex_encode b -> a = b.
Proof.
  intros E. apply (f_equal hex_decode) in E. rewrite !hex_decode_encode in E. congruence.
Qed.

Lemma strictly_sorted ks :
  StronglySorted key_le ks -> NoDup (map kkey ks) ->
  Forall (fun k => k_hex k = hex_encode (bi_Txid (k_in k))) ks ->
  StronglySorted outpoint_lt (map k_in ks).
Proof.
  intros Hs. induction Hs as [|x l Hs IH Hx]; intros HN HF; simpl; constructor.
  - apply Forall_cons in HF as [_ HF]. apply NoDup_cons in HN as [_ HN]. auto.
  - apply Forall_cons in HF as [Hh HF]. apply NoDup_cons in HN as [Hn _].
    apply Forall_fmap, Forall_forall. intros y Hy. rewrite Forall_forall in Hx, HF.
    pose proof (HF y Hy) as Ey. unfold outpoint_lt. cbn. rewrite <-Hh, <-Ey.
    destruct (Hx y Hy) as [H|[H1 H2]]; [by left|right].
    split; [apply hex_encode_inj; congruence|].
    assert (bi_Vout (k_in x) <> bi_Vout (k_in y)); [|lia].
    intros Ev. apply Hn. apply list_elem_of_fmap. exists y. split; [|done].
    unfold kkey. by rewrite H1, Ev.
Qed.

Lemma normalises_hex i k : normalises i k -> k_hex k = hex_encode (bi_Txid (k_in k)) /\ blen (bi_Txid (k_in k)) = 32.
Proof. intros (H & _). by apply canonicalVtxoTxid_Ok in H. Qed.

Lemma normalises_all l ks :
  Forall2 normalises l ks ->
  Forall (fun k => k_hex k = hex_encode (bi_Txid (k_in k)) /\ blen (bi_Txid (k_in k)) = 32) ks.
Proof. induction 1; constructor; eauto using normalises_hex. Qed.

(** ** Digests bind their arguments *)
Record BundleArgs := {
  ba_purpose : bytes; ba_vaultID : bytes; ba_destScript : bytes; ba_changeScript : bytes;
  ba_amountSats : Z; ba_feeSats : Z; ba_changeSats : Z; ba_changeVout : option Z;
  ba_feePolicyDigest : bytes; ba_inputs : list VtxoBundleInput; ba_createdAt : bytes;
}.

Definition bundle_digest (a : BundleArgs) : result bytes :=
  ComputeVtxoBundleDigest (ba_purpose a) (ba_vaultID a) (ba_destScript a) (ba_changeScript a)
    (ba_amountSats a) (ba_feeSats a) (ba_changeSats a) (ba_changeVout a) (ba_feePolicyDigest a)
    (ba_inputs a) (ba_createdAt a).

Definition ba_typed (a : BundleArgs) : Prop :=
  is_uint64 (ba_amountSats a) /\ is_uint64 (ba_feeSats a) /\ is_uint64 (ba_changeSats a) /\
  Forall bi_typed (ba_inputs a).

Definition ba_set_inputs (l : list VtxoBundleInput) (a : BundleArgs) : BundleArgs :=
  Build_BundleArgs (ba_purpose a) (ba_vaultID a) (ba_destScript a) (ba_changeScript a)
    (ba_amountSats a) (ba_feeSats a) (ba_changeSats a) (ba_changeVout a) (ba_feePolicyDigest a)
    l (ba_createdAt a).

Definition ba_encoding (a : BundleArgs) (ordered : list VtxoBundleInput) : bytes :=
  enc_field (ba_purpose a) ++ enc_field (ba_vaultID a) ++ enc_field (ba_destScript a)
  ++ le64 (ba_amountSats a) ++ enc_field (ba_changeScript a)
  ++ le64 (ba_feeSats a) ++ le64 (ba_changeSats a) ++ enc_opt_u32 (ba_changeVout a)
  ++ enc_field (ba_feePolicyDigest a)
  ++ le16 (Z.of_nat (length ordered)) ++ concat (map enc_bundle_input ordered)
  ++ enc_field (ba_createdAt a).

Definition bundle_ok (i : VtxoBundleInput) : Prop := blen (bi_Txid i) = 32 /\ bi_typed i.

Lemma canonical_inputs_ok l out :
  CanonicalVtxoBundleInputs l = Ok out -> Forall bi_typed l -> Forall bundle_ok out.
Proof.
  unfold CanonicalVtxoBundleInputs. intros H HT. inv_ok.
  apply key_inputs_Ok in E0 as (HF & _ & _).
  apply Forall_fmap. rewrite slice_stable_perm. clear E.
  induction HF as [|i k l ks Hn HF IH]; [constructor|].
  apply Forall_cons in HT as [[? ?] HT]. constructor; [|by auto].
  destruct (normalises_hex _ _ Hn) as [_ Hb]. destruct Hn as (_ & Ev & Es).
  split; [done|]. split; cbn; congruence.
Qed.

Lemma enc_bundle_input_app_inv a b r s :
  bundle_ok a -> bundle_ok b -> enc_bundle_input a ++ r = enc_bundle_input b ++ s -> a = b /\ r = s.
Proof.
  intros (Ta & Va & Sa) (Tb & Vb & Sb) E. unfold enc_bundle_input in E. rewrite <-!app_assoc in E.
  apply app_inv_length in E as [? E]; [|unfold blen in *; lia].
  apply le32_app_inv in E as [? E]; [|done..].
  apply le64_app_inv in E as [? E]; [|done..].
  destruct a, b; simpl in *; subst; auto.
Qed.

Lemma enc_bundle_inputs_app_inv l1 l2 r s :
  length l1 = length l2 -> Forall bundle_ok l1 -> Forall bundle_ok l2 ->
  concat (map enc_bundle_input l1) ++ r = concat (map enc_bundle_input l2) ++ s -> l1 = l2 /\ r = s.
Proof.
  revert l2. induction l1 as [|a l1 IH]; intros [|b l2] L H1 H2 E; try discriminate; [done|].
  apply Forall_cons in H1 as [? ?]. apply Forall_cons in H2 as [? ?].
  simpl in E. rewrite <-!app_assoc in E.
  apply enc_bundle_input_app_inv in E as [-> E]; [|done..].
  apply IH in E as [-> ->]; auto.
Qed.

Lemma enc_opt_u32_app_inv a b r s :
  (a = None \/ a = Some 1) -> (b = None \/ b = Some 1) ->
  enc_opt_u32 a ++ r = enc_opt_u32 b ++ s -> a = b /\ r = s.
Proof. intros [->| ->] [->| ->] E; try discriminate E; apply app_inv_head in E; auto. Qed.

Record ba_accepts (a : BundleArgs) (ordered : list VtxoBundleInput) : Prop := {
  bav_ordered : CanonicalVtxoBundleInputs (ba_inputs a) = Ok ordered;
  bav_count : 0 < Z.of_nat (length ordered) <= 50;
  bav_vout : ba_changeVout a = None \/ ba_changeVout a = Some 1;
  bav_fields : Forall field_ok [ba_purpose a; ba_vaultID a; ba_destScript a; ba_changeScript a;
                                ba_feePolicyDigest a; ba_createdAt a];
}.

Lemma bundle_digest_Ok a d :
  bundle_digest a = Ok d ->
  exists ordered, ba_accepts a ordered /\ d = taggedSHA256 vtxoBundleDigestTag (ba_encoding a ordered).
Proof.
  unfold bundle_digest, ComputeVtxoBundleDigest, bundle_payload. intros H. inv_ok.
  repeat match goal with
  | H : appendCredentialField _ _ = Ok _ |- _ => apply appendCredentialField_Ok in H as [? ->]
  end.
  bool_hyps. unfold MaxVtxoOperationInputs in *.
  eexists. split.
  - constructor; [eassumption|lia|eauto using change_shape_vout|repeat (apply Forall_cons; split); by try apply Forall_nil].
  - unfold ba_encoding. rewrite <-!app_assoc. reflexivity.
Qed.

Lemma ba_encoding_inj a b oa ob :
  ba_typed a -> ba_typed b -> ba_accepts a oa -> ba_accepts b ob ->
  ba_encoding a oa = ba_encoding b ob -> ba_set_inputs [] a = ba_set_inputs [] b /\ oa = ob.
Proof.
  intros (?&?&?&Ta) (?&?&?&Tb) [Ca ?? Fa] [Cb ?? Fb] E. unfold ba_encoding in E.
  repeat (apply Forall_cons in Fa as [? Fa]). repeat (apply Forall_cons in Fb as [? Fb]).
  do 3 (apply enc_field_app_inv in E as [? E]; [|done..]).
  apply le64_app_inv in E as [? E]; [|done..].
  apply enc_field_app_inv in E as [? E]; [|done..].
  do 2 (apply le64_app_inv in E as [? E]; [|done..]).
  apply enc_opt_u32_app_inv in E as [? E]; [|done..].
  apply enc_field_app_inv in E as [? E]; [|done..].
  apply app_inv_length in E as [El E]; [|done].
  apply (le_bytes_inj 2) in El; [|change (256 ^ Z.of_nat 2) with 65536; lia..].
  apply enc_bundle_inputs_app_inv in E as [-> E]; [|lia|eapply canonical_inputs_ok; eassumption..].
  rewrite <-(app_nil_r (enc_field (ba_createdAt a))), <-(app_nil_r (enc_field (ba_createdAt b))) in E.
  apply enc_field_app_inv in E as [? _]; [|done..].
  split; [|done]. destruct a, b; unfold ba_set_inputs; simpl in *; subst; done.
Qed.

(** Lower-case hex operation ids decode injectively. *)
Lemma operation_raw_canonical id raw :
  operation_raw id = Ok raw -> blen raw = 16 /\ hex_decode id = Some raw /\ to_lower id = id.
Proof.
  unfold operation_raw. destruct (hex_decode id); [|done]. intros H.
  case_match; [done|]. bool_hyps. apply Ok_inj in H. subst. auto.
Qed.

(** ** Concrete rows, for the examples *)
Definition demo_key : bytes := repeat Byte.x07 32.
Definition demo_txid : bytes := repeat Byte.x11 32.
Definition demo_op : VtxoOperation := {|
  vo_OperationID := str "000102030405060708090a0b0c0d0e0f"; vo_VaultID := str "vault-1";
  vo_Purpose := vtxoPurposeSpend; vo_BundleDigest := repeat Byte.x22 32;
  vo_State := vtxoStateReserved; vo_AmountSats := 20000; vo_FeeSats := 100;
  vo_FeePolicyDigest := repeat Byte.x33 32; vo_DestScript := str "dest";
  vo_ChangeScript := str "change"; vo_ChangeSats := 330; vo_ChangeVout := Some 1;
  vo_UnsignedPSBT := str "psbt"; vo_AuthorizedPSBT := []; vo_PendingProofDigest := [];
  vo_AuthorizedPendingProof := []; vo_CheckpointPSBTs := []; vo_CheckpointRequestPSBTs := [];
  vo_CheckpointTapscript := []; vo_ArkTxid := []; vo_ExpiresAt := str "2026-01-01T00:10:00Z";
  vo_CreatedAt := str "2026-01-01T00:00:00Z"; vo_LastDestScript := []; vo_IntegrityMAC := [] |}.
Definition demo_input : VtxoOperationInput := {|
  vi_OperationID := vo_OperationID demo_op; vi_Txid := demo_txid; vi_Vout := 0;
  vi_ValueSats := 20430; vi_Script := str "script"; vi_IntegrityMAC := [] |}.
Definition demo_sealed : VtxoOperation :=
  vo_set_MAC (hmac_sha256 demo_key (vo_encoding demo_op)) demo_op.
Definition demo_args : BundleArgs := {|
  ba_purpose := vtxoPurposeSpend; ba_vaultID := str "vault-1"; ba_destScript := str "dest";
  ba_changeScript := []; ba_amountSats := 1000; ba_feeSats := 10; ba_changeSats := 0;
  ba_changeVout := None; ba_feePolicyDigest := repeat Byte.x33 32;
  ba_inputs := [Build_VtxoBundleInput (repeat Byte.x55 32) 1 700;
                Build_VtxoBundleInput demo_txid 0 310];
  ba_createdAt := str "2026-01-01T00:00:00Z" |}.

(** ** Claims *)

(** a row the ledger seals verifies under the same key, and a stored row
    that carries the same MAC and verifies has every field of the sealed row,
    unless the two encodings are an HMAC collision under the ledger's key. *)
Theorem vtxo_operation_mac_binds rec key sealed stored :
  vo_typed rec -> vo_typed stored ->
  SealVtxoOperation rec key = Ok sealed ->
  vo_IntegrityMAC stored = vo_IntegrityMAC sealed ->
  VerifyVtxoOperation sealed key = Ok tt /\
  (VerifyVtxoOperation stored key = Ok tt ->
   stored = sealed \/ hmac_collision key (vo_encoding stored) (vo_encoding sealed)).
Proof.
  intros Tr Ts Hs Em. destruct (Seal_Verify_op _ _ _ Hs) as [Hv Er]. split; [done|].
  intros Hw. apply Verify_op_payload in Hv as (Vs & Ms & _), Hw as (Vw & Mw & _).
  rewrite Ms, Mw in Em. apply hmac_eq_cases in Em as [E|C]; [left|by right].
  assert (vo_typed sealed) by (rewrite Er; exact Tr).
  apply vo_encoding_inj in E; [|done..].
  assert (vo_IntegrityMAC stored = vo_IntegrityMAC sealed) as Em'.
  { rewrite Ms, Mw. unfold vo_encoding, vo_fields. destruct stored, sealed. unfold vo_set_MAC in E.
    simpl in E. injection E as. subst. reflexivity. }
  destruct stored, sealed. unfold vo_set_MAC in E. simpl in E, Em'. injection E as. subst. reflexivity.
Qed.

Lemma vtxo_operation_mac_binds_witness :
  SealVtxoOperation demo_op demo_key = Ok demo_sealed /\ VerifyVtxoOperation demo_sealed demo_key = Ok tt.
Proof.
  assert (SealVtxoOperation demo_op demo_key = Ok demo_sealed) as H by (vm_compute; reflexivity).
  split; [exact H|].
  apply (vtxo_operation_mac_binds demo_op demo_key demo_sealed demo_sealed);
    [vm_compute; intuition congruence | vm_compute; intuition congruence | exact H | reflexivity].
Defined.

(** the same for an input row whose output index fits 32 bits; and no
    operation row and input row share a payload, so the common MAC domain of
    the two tables cannot be used to move a MAC from one table to the other. *)
Theorem vtxo_input_mac_binds rec key sealed stored :
  vi_typed rec -> vi_typed stored -> vi_Vout rec <= max_uint32 -> vi_Vout stored <= max_uint32 ->
  SealVtxoOperationInput rec key = Ok sealed ->
  vi_IntegrityMAC stored = vi_IntegrityMAC sealed ->
  VerifyVtxoOperationInput sealed key = Ok tt /\
  (VerifyVtxoOperationInput stored key = Ok tt ->
   stored = sealed \/ hmac_collision key (vi_encoding stored) (vi_encoding sealed)) /\
  (forall op, VerifyVtxoOperation op key = Ok tt -> vo_IntegrityMAC op = vi_IntegrityMAC sealed ->
   hmac_collision key (vo_encoding op) (vi_encoding sealed)).
Proof.
  intros Tr Ts Vr Vs Hs Em. destruct (Seal_Verify_input _ _ _ Hs) as [Hv Er]. split; [done|].
  apply Verify_input_payload in Hv as (p & Hp & Ms).
  apply canonicalVtxoOperationInput_Ok in Hp as (-> & ? & ? & ? & ? & ? & ? & ?).
  assert (vi_typed sealed /\ vi_Vout sealed <= max_uint32) as [? ?] by (rewrite Er; done).
  split.
  - intros Hw. apply Verify_input_payload in Hw as (p & Hp & Mw).
    apply canonicalVtxoOperationInput_Ok in Hp as (-> & ? & ? & ? & ? & ? & ? & ?).
    pose proof Em as Em'. rewrite Ms, Mw in Em. apply hmac_eq_cases in Em as [E|C]; [left|by right].
    apply vi_encoding_inj in E as (? & ? & Ev & ? & ?); [|done..].
    unfold wrap32, max_uint32 in *. rewrite !Z.mod_small in Ev by lia.
    destruct stored, sealed; simpl in *. subst. reflexivity.
  - intros op Ho Mo. apply Verify_op_payload in Ho as (Vo & Eo & _).
    split; [by apply op_input_payload_disjoint|]. congruence.
Qed.

Lemma vtxo_input_mac_binds_witness :
  exists sealed, SealVtxoOperationInput demo_input demo_key = Ok sealed /\
  VerifyVtxoOperationInput sealed demo_key = Ok tt.
Proof.
  exists (vi_set_MAC (hmac_sha256 demo_key (vi_encoding demo_input)) demo_input).
  assert (SealVtxoOperationInput demo_input demo_key =
    Ok (vi_set_MAC (hmac_sha256 demo_key (vi_encoding demo_input)) demo_input)) as H
    by (vm_compute; reflexivity).
  split; [exact H|].
  eapply (vtxo_input_mac_binds demo_input demo_key); [..|exact H|reflexivity];
    vm_compute; intuition congruence.
Defined.

(** The encoder keeps 32 bits of the Go [int]: a stored output index moved by
    2^32 still verifies. *)
Lemma vtxo_input_vout_not_bound :
  exists sealed stored,
    SealVtxoOperationInput demo_input demo_key = Ok sealed /\
    vi_Vout stored = vi_Vout sealed + 4294967296 /\
    VerifyVtxoOperationInput stored demo_key = Ok tt.
Proof.
  set (mac := hmac_sha256 demo_key (vi_encoding demo_input)).
  exists (vi_set_MAC mac demo_input), (Build_VtxoOperationInput (vi_OperationID demo_input)
    demo_txid 4294967296 20430 (vi_Script demo_input) mac).
  split_and!; vm_compute; reflexivity.
Qed.

(** canonicalisation returns the caller's inputs, each with its txid
    normalised to 32 bytes, strictly increasing by txid then output index, so
    without a repeated outpoint; and the result does not depend on the order
    the caller listed them in. *)
Theorem canonical_inputs_sorted inputs out :
  CanonicalVtxoBundleInputs inputs = Ok out ->
  StronglySorted outpoint_lt out /\
  (exists ks, Forall2 normalises inputs ks /\ out ≡ₚ map k_in ks) /\
  Forall (fun i => blen (bi_Txid i) = 32) out /\
  (forall inputs', inputs ≡ₚ inputs' -> CanonicalVtxoBundleInputs inputs' = Ok out).
Proof.
  intros H. split_and!; [| | |intros ? HP; by eapply CanonicalVtxoBundleInputs_perm];
    unfold CanonicalVtxoBundleInputs in H; inv_ok; apply key_inputs_Ok in E0 as (HF & HN & _).
  - apply strictly_sorted; [apply sorted_keys| |]; rewrite slice_stable_perm; [done|].
    eapply Forall_impl; [by eapply normalises_all|]. by intros ? [].
  - eexists. split; [exact HF|]. by rewrite slice_stable_perm.
  - apply Forall_fmap. rewrite slice_stable_perm.
    eapply Forall_impl; [by eapply normalises_all|]. by intros ? [].
Qed.

Lemma canonical_inputs_sorted_witness :
  StronglySorted outpoint_lt (rev (ba_inputs demo_args)).
Proof.
  apply (canonical_inputs_sorted (ba_inputs demo_args)). vm_compute. reflexivity.
Defined.

(** the digest the phone approves binds every argument of the bundle and
    its canonical input list, up to a SHA-256 collision in the bundle domain;
    and any two orders of the same inputs have the same digest. *)
Theorem bundle_digest_binds a b d :
  ba_typed a -> ba_typed b -> bundle_digest a = Ok d ->
  (bundle_digest b = Ok d ->
   (ba_set_inputs [] a = ba_set_inputs [] b /\
    CanonicalVtxoBundleInputs (ba_inputs a) = CanonicalVtxoBundleInputs (ba_inputs b)) \/
   exists oa ob, ba_accepts a oa /\ ba_accepts b ob /\
     tagged_collision vtxoBundleDigestTag (ba_encoding a oa) (ba_encoding b ob)) /\
  (forall inputs, ba_inputs a ≡ₚ inputs -> bundle_digest (ba_set_inputs inputs a) = Ok d).
Proof.
  intros Ta Tb Ha. split.
  - intros Hb. apply bundle_digest_Ok in Ha as (oa & Aa & ->), Hb as (ob & Ab & E).
    apply tagged_eq_cases in E as [E|C]; [left|right; by exists oa, ob].
    apply ba_encoding_inj in E as [E ->]; [|done..]. split; [done|].
    by rewrite (bav_ordered _ _ Aa), (bav_ordered _ _ Ab).
  - intros inputs HP. unfold bundle_digest, ComputeVtxoBundleDigest in *.
    destruct a; unfold ba_set_inputs; simpl in *.
    repeat match goal with |- context [?m ≫= _] =>
      match type of Ha with context [m ≫= _] => destruct m; [|done]; simpl in * end end.
    apply bind_Ok in Ha as (o & Ho & Ha).
    by rewrite (CanonicalVtxoBundleInputs_perm _ _ _ HP Ho).
Qed.

Lemma bundle_digest_binds_witness :
  exists d, bundle_digest demo_args = Ok d /\
    bundle_digest (ba_set_inputs (rev (ba_inputs demo_args)) demo_args) = Ok d.
Proof.
  eexists. split; [vm_compute; reflexivity|].
  apply (bundle_digest_binds demo_args demo_args);
    [ repeat constructor; vm_compute; congruence .. | vm_compute; reflexivity | apply Permutation_swap ].
Defined.

(** The messages of the two digests, given the raw operation id. *)
Definition reserve_message (raw v p s : bytes) (a : Z) : bytes := le32 1 ++ concat (map enc_field [raw; v; p; s]) ++ le64 a.
Definition abort_message (raw v p : bytes) : bytes := le32 1 ++ concat (map enc_field [raw; v; p]).

(** the reserve and abort digests bind the operation id, the vault, the
    purpose and, for a reservation, the destination and amount; a digest
    approved for one call cannot be replayed for another, up to a SHA-256
    collision in the digest's own domain. *)
Theorem reserve_abort_digest_binds id1 id2 v1 v2 p1 p2 s1 s2 a1 a2 d :
  is_uint64 a1 -> is_uint64 a2 ->
  (ComputeVtxoReserveDigest id1 v1 p1 s1 a1 = Ok d ->
   ComputeVtxoReserveDigest id2 v2 p2 s2 a2 = Ok d ->
   (id1 = id2 /\ v1 = v2 /\ p1 = p2 /\ s1 = s2 /\ a1 = a2) \/
   exists r1 r2, operation_raw id1 = Ok r1 /\ operation_raw id2 = Ok r2 /\
     tagged_collision vtxoReserveDigestTag (reserve_message r1 v1 p1 s1 a1) (reserve_message r2 v2 p2 s2 a2)) /\
  (ComputeVtxoAbortDigest id1 v1 p1 = Ok d ->
   ComputeVtxoAbortDigest id2 v2 p2 = Ok d ->
   (id1 = id2 /\ v1 = v2 /\ p1 = p2) \/
   exists r1 r2, operation_raw id1 = Ok r1 /\ operation_raw id2 = Ok r2 /\
     tagged_collision vtxoAbortDigestTag (abort_message r1 v1 p1) (abort_message r2 v2 p2)).
Proof.
  assert (forall i j raw, operation_raw i = Ok raw -> operation_raw j = Ok raw -> i = j) as Hid.
  { intros i j raw Hi Hj. apply operation_raw_canonical in Hi as (_ & Hi & Li), Hj as (_ & Hj & Lj).
    rewrite <-(hex_decode_lower _ _ Hi Li). by apply hex_decode_lower. }
  intros T1 T2. unfold ComputeVtxoReserveDigest, ComputeVtxoAbortDigest. split; intros H1 H2; inv_ok;
    repeat match goal with
    | H : appendCredentialFields _ _ = Ok _ |- _ => apply appendCredentialFields_Ok in H as [? ->]
    | H : taggedSHA256 _ _ = taggedSHA256 _ _ |- _ =>
        rewrite <-?app_assoc in H; apply tagged_eq_cases in H as [H|H];
          [left|right; eexists _, _; split; [eassumption|split; [eassumption|exact H]]]
    end.
  - rewrite <-?app_assoc in H1. apply app_inv_head in H1.
    apply enc_fields_app_inv in H1 as [Ef H1]; [|done..].
    apply le64_inj in H1; [|done..]. injection Ef as -> -> -> ->. eauto 10.
  - apply app_inv_head in H1.
    apply enc_fields_inj in H1; [|done..]. injection H1 as -> -> ->. eauto 10.
Qed.

Lemma reserve_abort_digest_binds_witness :
  is_uint64 5 /\ (forall d, ComputeVtxoAbortDigest (vo_OperationID demo_op) (str "v") vtxoPurposeSpend = Ok d ->
    str "v" = str "v" \/ exists r1 r2, operation_raw (vo_OperationID demo_op) = Ok r1 /\ operation_raw (vo_OperationID demo_op) = Ok r2 /\
      tagged_collision vtxoAbortDigestTag (abort_message r1 (str "v") vtxoPurposeSpend) (abort_message r2 (str "v") vtxoPurposeSpend)).
Proof.
  assert (is_uint64 5) as T by (vm_compute; intuition congruence).
  split; [exact T|]. intros d H.
  destruct (proj2 (reserve_abort_digest_binds (vo_OperationID demo_op) (vo_OperationID demo_op) (str "v")
    (str "v") vtxoPurposeSpend vtxoPurposeSpend [] [] 5 5 d T T) H H) as [(_ & E & _)|C]; [left|right]; assumption.
Defined.
