(* ===== verification/Monotonic.v ===== *)
(** The external policy sequence ([internal/policy/monotonic.go]): a small
    authenticated file kept outside the database.  The file is an [option] of
    its bytes; a write goes to a temporary name and is renamed into place, so a
    failing write leaves either the old or the new contents. *)
From Stdlib Require Import Strings.Byte.
From S2P Require Import Prelude Sha256 Text.

Definition monotonicFileVersion : bytes := str "arkade-vault-policy-sequence/v2".
Definition monotonicMACDomain : bytes := str "arkade-vault/policy-sequence/v2".
Definition newline : byte := Byte.x0a.

Record Monotonic := { m_path : bytes; m_key : bytes }.

(** The file at [m_path]: absent, or its contents. *)
Definition seq_file : Type := option bytes.

(** What the file system does to one call of [Observe]. *)
Inductive fs_fault :=
  | FsOk
  | FsReadFails          (* os.ReadFile fails with another error than not-exist *)
  | FsBeforeRename       (* open, write, sync, close or rename fails *)
  | FsAfterRename.       (* the directory cannot be opened or synced *)

#[global] Instance fs_fault_eq_dec : EqDecision fs_fault.
Proof. solve_decision. Defined.

Definition OpenMonotonic (path integrityKey : bytes) : result Monotonic :=
  _ ← fail_if (path == []) (ErrMsg "monotonic path required");
  _ ← fail_if (negb (blen integrityKey =? sha256_Size)) (ErrMsg "integrity key required");
  Ok {| m_path := path; m_key := integrityKey |}.

Definition mac (m : Monotonic) (count : Z) : bytes :=
  hmac_sha256 (m_key m) (monotonicMACDomain ++ be64 count).

(** The loop of [parseHexMAC] over the 32 pairs of characters. *)
Fixpoint hex_pairs (s : bytes) : result bytes :=
  match s with
  | c :: d :: s =>
      let a := unhex c in
      let b := unhex d in
      if (a <? 0) || (b <? 0) then Err (ErrMsg "monotonic counter MAC") else
      out ← hex_pairs s;
      Ok (byte_of_Z (Z.lor (Z.shiftl a 4) b) :: out)
  | _ => Ok []
  end.

Definition parseHexMAC (s : bytes) : result bytes :=
  _ ← fail_if (negb (blen s =? 64)) (ErrMsg "monotonic counter MAC");
  hex_pairs s.

(** The body of the loop over [lines[1:]], on [(count, mac)]. *)
Definition parse_line (acc : Z * bytes) (line : bytes) : result (Z * bytes) :=
  let '(count, got) := acc in
  count ← (if has_prefix line (str "count=") then
             match parse_uint (trim_prefix line (str "count=")) with
             | Some n => Ok n
             | None => Err (ErrMsg "monotonic counter")
             end
           else Ok count);
  got ← (if has_prefix line (str "mac=") then parseHexMAC (trim_prefix line (str "mac=")) else Ok got);
  Ok (count, got).

Definition parseMonotonic (raw : bytes) : result (Z * bytes) :=
  let lines := split_on newline raw in
  _ ← fail_if ((Z.of_nat (length lines) <? 3) || (default [] (head lines) != monotonicFileVersion))
        (ErrMsg "monotonic counter version");
  cm ← fold_res parse_line (0, []) (tail lines);
  let '(count, got) := cm in
  _ ← fail_if (negb (blen got =? sha256_Size)) (ErrMsg "monotonic counter MAC missing");
  Ok (count, got).

(** [(count, exists, error)]: [Ok None] when the file does not exist. *)
Definition read (m : Monotonic) (file : seq_file) (fault : fs_fault) : result (option Z) :=
  match fault, file with
  | FsReadFails, _ => Err (ErrIO "read")
  | _, None => Ok None
  | _, Some raw =>
      cm ← parseMonotonic raw;
      let '(count, got) := cm in
      _ ← fail_if (negb (hmac_Equal got (mac m count))) (ErrMsg "monotonic counter MAC mismatch");
      Ok (Some count)
  end.

(** The bytes written: version, count and MAC lines. *)
Definition sequence_body (m : Monotonic) (count : Z) : bytes :=
  monotonicFileVersion ++ [newline] ++ str "count=" ++ format_uint count ++ [newline]
  ++ str "mac=" ++ hex_encode (mac m count) ++ [newline].

Definition write (m : Monotonic) (count : Z) (file : seq_file) (fault : fs_fault) : seq_file * result unit :=
  match fault with
  | FsOk | FsReadFails => (Some (sequence_body m count), Ok tt)
  | FsBeforeRename => (file, Err (ErrIO "write"))
  | FsAfterRename => (Some (sequence_body m count), Err (ErrIO "sync"))
  end.

Definition Observe (m : Monotonic) (dbCount : Z) (file : seq_file) (fault : fs_fault)
  : seq_file * result unit :=
  match read m file fault with
  | Err e => (file, Err e)
  | Ok None =>
      if negb (dbCount =? 0) then
        (file, Err (ErrMsg "policy sequence is missing for a non-empty policy ledger"))
      else write m 0 file fault
  | Ok (Some fileCount) =>
      if dbCount <? fileCount then (file, Err (ErrMsg "policy ledger is behind the external sequence"))
      else if dbCount =? fileCount then (file, Ok tt)
      else write m dbCount file fault
  end.

(** ** The file reads back what was written *)
Lemma hex_pair_lor x : byte_of_Z (Z.lor (Z.shiftl (u8 x / 16) 4) (u8 x mod 16)) = x.
Proof. destruct x; reflexivity. Qed.

Lemma hex_pairs_encode b : hex_pairs (hex_encode b) = Ok b.
Proof.
  induction b as [|x b IH]; cbn [hex_encode hex_pairs]; [done|].
  destruct (u8_nibbles x) as [? ?]. rewrite !unhex_hex_digit by done.
  rewrite (proj2 (Z.ltb_ge _ _)), (proj2 (Z.ltb_ge (u8 x mod 16) _)) by lia. cbn. rewrite IH. cbn.
  by rewrite hex_pair_lor.
Qed.

Lemma newline_hex b : newline ∉ hex_encode b.
Proof.
  induction b as [|x b IH]; cbn [hex_encode]; [set_solver|].
  assert (forall n, 0 <= n < 16 -> newline <> hex_digit n) as Hd.
  { intros n Hn E. apply (f_equal u8) in E. rewrite u8_hex_digit in E by done.
    change (u8 newline) with 10 in E. case_match; bool_hyps; lia. }
  destruct (u8_nibbles x) as [? ?].
  rewrite !not_elem_of_cons. auto.
Qed.

Lemma newline_dec z : 0 <= z -> newline ∉ format_uint z.
Proof.
  intros Hz Hin. pose proof (format_uint_digits z Hz) as Hd.
  rewrite forallb_forall in Hd. apply list_elem_of_In in Hin. by apply Hd in Hin.
Qed.

Lemma newline_app a b : newline ∉ a -> newline ∉ b -> newline ∉ a ++ b.
Proof. rewrite elem_of_app. tauto. Qed.

Lemma sequence_lines m count :
  0 <= count ->
  split_on newline (sequence_body m count) =
  [monotonicFileVersion; str "count=" ++ format_uint count; str "mac=" ++ hex_encode (mac m count); []].
Proof.
  intros Hc. unfold sequence_body. cbn [app].
  rewrite split_on_app by (vm_compute; set_solver).
  rewrite (app_assoc (str "count=")), split_on_app
    by (apply newline_app; [vm_compute; set_solver | by apply newline_dec]).
  rewrite (app_assoc (str "mac=")), split_on_app
    by (apply newline_app; [vm_compute; set_solver | apply newline_hex]).
  done.
Qed.

Lemma parse_sequence_lines m count :
  is_uint64 count ->
  fold_res parse_line (0, []) [str "count=" ++ format_uint count; str "mac=" ++ hex_encode (mac m count); []]
  = Ok (count, mac m count).
Proof.
  intros Hc.
  assert (parse_line (0, []) (str "count=" ++ format_uint count) = Ok (count, [])) as H1.
  { unfold parse_line. rewrite has_prefix_app, trim_prefix_app, parse_format_uint by done. done. }
  assert (parse_line (count, []) (str "mac=" ++ hex_encode (mac m count)) = Ok (count, mac m count)) as H2.
  { unfold parse_line. change (has_prefix (str "mac=" ++ hex_encode (mac m count)) (str "count=")) with false.
    rewrite has_prefix_app, trim_prefix_app. unfold parseHexMAC, blen.
    rewrite hex_encode_length. unfold mac. rewrite hmac_sha256_length, hex_pairs_encode. done. }
  cbn [fold_res]. rewrite H1. cbn [mbind result_bind]. rewrite H2. done.
Qed.

Lemma parse_sequence m count :
  is_uint64 count -> parseMonotonic (sequence_body m count) = Ok (count, mac m count).
Proof.
  intros Hc. unfold parseMonotonic. rewrite sequence_lines by (destruct Hc; lia).
  cbv zeta. match goal with |- context [fail_if ?c ?e] => change (fail_if c e) with (Ok tt) end.
  cbn [mbind result_bind tail]. rewrite parse_sequence_lines by done.
  cbn [mbind result_bind]. unfold mac. by rewrite blen_hmac.
Qed.

Lemma read_sequence m count fault :
  is_uint64 count -> fault <> FsReadFails ->
  read m (Some (sequence_body m count)) fault = Ok (Some count).
Proof.
  intros Hc Hf. unfold read. rewrite parse_sequence by done. unfold hmac_Equal.
  cbn [mbind result_bind]. rewrite bool_decide_eq_true_2 by done. by destruct fault.
Qed.

Lemma read_Ok_fault m file fault c :
  read m file fault = Ok (Some c) -> read m file FsOk = Ok (Some c).
Proof. by destruct fault, file. Qed.

Lemma fault_read m file fault :
  fault <> FsReadFails -> read m file fault = read m file FsOk.
Proof. by destruct fault, file. Qed.

Lemma write_cases m n file fault :
  write m n file fault = (Some (sequence_body m n), Ok tt) \/
  write m n file fault = (Some (sequence_body m n), Err (ErrIO "sync")) \/
  write m n file fault = (file, Err (ErrIO "write")).
Proof. destruct fault; auto. Qed.

(** A successful [Observe] leaves the file reading exactly the observed count. *)
Lemma Observe_Ok m n file fault file' :
  is_uint64 n -> Observe m n file fault = (file', Ok tt) ->
  read m file' FsOk = Ok (Some n) /\ fault <> FsReadFails /\
  (forall c, read m file FsOk = Ok (Some c) -> c <= n) /\
  (read m file FsOk = Ok None -> n = 0).
Proof.
  intros Hn H. unfold Observe in H.
  destruct (decide (fault = FsReadFails)) as [->|Hf]; [by destruct file|].
  rewrite fault_read in H by done.
  destruct (read m file FsOk) as [[c|]|e] eqn:E; [| |done].
  - destruct (Z.ltb_spec n c); [done|]. destruct (Z.eqb_spec n c) as [->|].
    + injection H as <-. split_and!; [done|done|intros ? [= <-]; lia|done].
    + destruct (write_cases m n file fault) as [W|[W|W]]; rewrite W in H; try discriminate H.
      apply pair_equal_spec in H as [<- _].
      split_and!; [by apply read_sequence|done|intros ? [= <-]; lia|done].
  - destruct (Z.eqb_spec n 0) as [->|]; [|done]. cbn [negb] in H.
    destruct (write_cases m 0 file fault) as [W|[W|W]]; rewrite W in H; try discriminate H.
    apply pair_equal_spec in H as [<- _].
    split_and!; [by apply read_sequence|done|done|done].
Qed.

(** C37: whatever the file system does to a call of [Observe], the sequence a
    later read returns never decreases and moves only to the observed count; a
    database behind the sequence is refused and the file kept. *)
Theorem observe_never_decreases m n c file fault file' r :
  is_uint64 n -> read m file FsOk = Ok (Some c) -> Observe m n file fault = (file', r) ->
  (exists c', read m file' FsOk = Ok (Some c') /\ c <= c' /\ (c' = c \/ c' = n) /\ (r = Ok tt -> c' = n)) /\
  (n < c -> file' = file /\ r <> Ok tt).
Proof.
  intros Hn Hc H. unfold Observe in H.
  destruct (decide (fault = FsReadFails)) as [->|Hf].
  { destruct file; [|done]. injection H as <- <-. split; [|done].
    exists c. split_and!; auto; lia || done. }
  rewrite fault_read, Hc in H by done.
  destruct (Z.ltb_spec n c).
  { injection H as <- <-. split; [|done]. exists c. split_and!; auto; lia || done. }
  split; [|lia].
  destruct (Z.eqb_spec n c) as [->|].
  { injection H as <- <-. exists c. split_and!; auto; lia. }
  destruct (write_cases m n file fault) as [W|[W|W]]; rewrite W in H;
    apply pair_equal_spec in H as [<- <-];
    [exists n | exists n | exists c]; split_and!; auto; try lia; try done; by apply read_sequence.
Qed.

Definition demo_monotonic : Monotonic := {| m_path := str "seq"; m_key := repeat Byte.x09 32 |}.

Lemma observe_never_decreases_witness :
  fst (Observe demo_monotonic 3 (Some (sequence_body demo_monotonic 5)) FsOk)
    = Some (sequence_body demo_monotonic 5) /\
  snd (Observe demo_monotonic 3 (Some (sequence_body demo_monotonic 5)) FsOk) <> Ok tt.
Proof.
  apply (observe_never_decreases demo_monotonic 3 5 (Some (sequence_body demo_monotonic 5)) FsOk);
    [vm_compute; intuition congruence | vm_compute; reflexivity | reflexivity | lia].
Defined.

(** the file written for a count reads back as that count, and a file
    edited to another count under the same MAC line is refused, unless the two
    counts give an HMAC collision. *)
Theorem sequence_file_roundtrip m c raw c' :
  is_uint64 c -> is_uint64 c' ->
  read m (Some (sequence_body m c)) FsOk = Ok (Some c) /\
  (parseMonotonic raw = Ok (c', mac m c) -> read m (Some raw) FsOk = Ok (Some c') ->
   c' = c \/ hmac_collision (m_key m) (monotonicMACDomain ++ be64 c) (monotonicMACDomain ++ be64 c')).
Proof.
  intros Hc Hc'. split; [by apply read_sequence|].
  unfold read. intros Hp. rewrite Hp. cbn [mbind result_bind]. intros H. inv_ok.
  unfold hmac_Equal in E. bool_hyps. apply hmac_eq_cases in E as [E|C]; [left|by right].
  apply app_inv_head, be64_inj in E; auto.
Qed.

Lemma sequence_file_roundtrip_witness :
  read demo_monotonic (Some (sequence_body demo_monotonic 7)) FsOk = Ok (Some 7).
Proof.
  apply (sequence_file_roundtrip demo_monotonic 7 [] 7); vm_compute; intuition congruence.
Defined.
