(* ===== verification/Tenant.v ===== *)
(** Tenants ([internal/policy/tenant.go], [envelope.go], [vaultmap.go],
    [signcount.go], [invite.go], [pending.go]): the vault descriptor and its
    passkey, the recovery envelope, the enrollment records, their MACs and the
    pure checks on them.  The tables and transactions are in [TenantLedger]. *)
From Stdlib Require Import Strings.Byte.
From S2P Require Import Prelude Sha256 Text GoTime Program.

Definition vaultRecordMACDomain : bytes := str "arkade-vault/vault-record/v2".
Definition vaultCredentialMACDomain : bytes := str "arkade-vault/vault-credential/v1".
Definition signCountMACDomain : bytes := str "arkade-2fa-vault/webauthn-sign-count/v1".
Definition vaultMapMACDomain : bytes := str "arkade-2fa-vault/vault-map/v1".

(** ** Records *)
Record VaultRecord := {
  vr_VaultID : bytes;
  vr_TemplateVersion : bytes;
  vr_PolicyVersion : bytes;
  vr_ProtectionTier : bytes;
  vr_Network : bytes;
  vr_RPID : bytes;
  vr_Origin : bytes;
  vr_PhoneBIP340 : bytes;
  vr_PhoneDirectP256 : bytes;
  vr_ExternalOwnerWallet : bytes;
  vr_RecoveryKey : bytes;
  vr_VaultCosignerBase : bytes;
  vr_ArkadeCosignerBase : bytes;
  vr_ArkadeCosignerOrigin : bytes;
  vr_ArkadeCosignerVersion : bytes;
  vr_CosignerMode : bytes;
  vr_SavingsAddress : bytes;
  vr_SavingsScript : bytes;
  vr_RecipientDustSats : Z;
  vr_TxRecipientCapSats : Z;
  vr_PeriodAllowanceSats : Z;
  vr_AbsoluteFeeCapSats : Z;
  vr_FeerateCapSatPerV : Z;
  vr_IntegrityMAC : bytes;
}.

Record VaultCredential := {
  vc_CredentialID : bytes;
  vc_VaultID : bytes;
  vc_WebAuthnP256 : bytes;
  vc_UserHandle : bytes;
  vc_Resident : bool;
  vc_IntegrityMAC : bytes;
}.

(** The application's view of a vault and its passkey (ledger.go). *)
Record Credential := {
  cr_ID : bytes;
  cr_WebAuthnP256 : bytes;
  cr_PhoneDirectP256 : bytes;
  cr_PhoneBIP340 : bytes;
  cr_ExternalOwnerWallet : bytes;
  cr_RPID : bytes;
  cr_Origin : bytes;
  cr_RecoveryKey : bytes;
  cr_VaultCosignerBase : bytes;
  cr_ArkadeCosignerBase : bytes;
  cr_ArkadeCosignerOrigin : bytes;
  cr_ArkadeCosignerVersion : bytes;
  cr_TemplateVersion : bytes;
  cr_PolicyVersion : bytes;
  cr_ProtectionTier : bytes;
  cr_Network : bytes;
  cr_VaultID : bytes;
  cr_SavingsAddress : bytes;
  cr_SavingsScript : bytes;
  cr_RecipientDustSats : Z;
  cr_TxRecipientCapSats : Z;
  cr_PeriodAllowanceSats : Z;
  cr_AbsoluteFeeCapSats : Z;
  cr_FeerateCapSatPerV : Z;
  cr_IntegrityMAC : bytes;
}.

Record CredentialEnvelope := {
  ce_Version : Z;        (* uint32 *)
  ce_Binding : bytes;
  ce_Nonce : bytes;
  ce_Ciphertext : bytes;
  ce_DirectSig : bytes;
  ce_PhoneSig : bytes;
  ce_IntegrityMAC : bytes;
}.

Record VaultMap := { vm_VaultID : bytes; vm_KitHash : bytes; vm_Payload : bytes }.

#[global] Instance VaultRecord_eq_dec : EqDecision VaultRecord.
Proof. solve_decision. Defined.
#[global] Instance VaultCredential_eq_dec : EqDecision VaultCredential.
Proof. solve_decision. Defined.
#[global] Instance CredentialEnvelope_eq_dec : EqDecision CredentialEnvelope.
Proof. solve_decision. Defined.

Definition vr_set_MAC (mac : bytes) (v : VaultRecord) : VaultRecord :=
  Build_VaultRecord (vr_VaultID v) (vr_TemplateVersion v) (vr_PolicyVersion v) (vr_ProtectionTier v)
    (vr_Network v) (vr_RPID v) (vr_Origin v) (vr_PhoneBIP340 v) (vr_PhoneDirectP256 v)
    (vr_ExternalOwnerWallet v) (vr_RecoveryKey v) (vr_VaultCosignerBase v) (vr_ArkadeCosignerBase v)
    (vr_ArkadeCosignerOrigin v) (vr_ArkadeCosignerVersion v) (vr_CosignerMode v) (vr_SavingsAddress v)
    (vr_SavingsScript v) (vr_RecipientDustSats v) (vr_TxRecipientCapSats v) (vr_PeriodAllowanceSats v)
    (vr_AbsoluteFeeCapSats v) (vr_FeerateCapSatPerV v) mac.

Definition vc_set_MAC (mac : bytes) (c : VaultCredential) : VaultCredential :=
  Build_VaultCredential (vc_CredentialID c) (vc_VaultID c) (vc_WebAuthnP256 c) (vc_UserHandle c)
    (vc_Resident c) mac.

Definition ce_set_MAC (mac : bytes) (e : CredentialEnvelope) : CredentialEnvelope :=
  Build_CredentialEnvelope (ce_Version e) (ce_Binding e) (ce_Nonce e) (ce_Ciphertext e)
    (ce_DirectSig e) (ce_PhoneSig e) mac.

Definition vaultRecordFromCredential (c : Credential) : VaultRecord := {|
  vr_VaultID := cr_VaultID c; vr_TemplateVersion := cr_TemplateVersion c;
  vr_PolicyVersion := cr_PolicyVersion c; vr_ProtectionTier := cr_ProtectionTier c;
  vr_Network := cr_Network c; vr_RPID := cr_RPID c; vr_Origin := cr_Origin c;
  vr_PhoneBIP340 := cr_PhoneBIP340 c; vr_PhoneDirectP256 := cr_PhoneDirectP256 c;
  vr_ExternalOwnerWallet := cr_ExternalOwnerWallet c; vr_RecoveryKey := cr_RecoveryKey c;
  vr_VaultCosignerBase := cr_VaultCosignerBase c; vr_ArkadeCosignerBase := cr_ArkadeCosignerBase c;
  vr_ArkadeCosignerOrigin := cr_ArkadeCosignerOrigin c;
  vr_ArkadeCosignerVersion := cr_ArkadeCosignerVersion c;
  vr_CosignerMode := CosignerModeHKDFSHA256V1;
  vr_SavingsAddress := cr_SavingsAddress c; vr_SavingsScript := cr_SavingsScript c;
  vr_RecipientDustSats := cr_RecipientDustSats c; vr_TxRecipientCapSats := cr_TxRecipientCapSats c;
  vr_PeriodAllowanceSats := cr_PeriodAllowanceSats c; vr_AbsoluteFeeCapSats := cr_AbsoluteFeeCapSats c;
  vr_FeerateCapSatPerV := cr_FeerateCapSatPerV c; vr_IntegrityMAC := [] |}.

Definition toCredential (v : VaultRecord) (cred : VaultCredential) : Credential := {|
  cr_ID := vc_CredentialID cred; cr_WebAuthnP256 := vc_WebAuthnP256 cred;
  cr_PhoneDirectP256 := vr_PhoneDirectP256 v; cr_RPID := vr_RPID v; cr_Origin := vr_Origin v;
  cr_PhoneBIP340 := vr_PhoneBIP340 v; cr_ExternalOwnerWallet := vr_ExternalOwnerWallet v;
  cr_RecoveryKey := vr_RecoveryKey v; cr_VaultCosignerBase := vr_VaultCosignerBase v;
  cr_ArkadeCosignerBase := vr_ArkadeCosignerBase v; cr_ArkadeCosignerOrigin := vr_ArkadeCosignerOrigin v;
  cr_ArkadeCosignerVersion := vr_ArkadeCosignerVersion v; cr_TemplateVersion := vr_TemplateVersion v;
  cr_PolicyVersion := vr_PolicyVersion v; cr_ProtectionTier := vr_ProtectionTier v;
  cr_Network := vr_Network v; cr_VaultID := vr_VaultID v; cr_SavingsAddress := vr_SavingsAddress v;
  cr_SavingsScript := vr_SavingsScript v; cr_RecipientDustSats := vr_RecipientDustSats v;
  cr_TxRecipientCapSats := vr_TxRecipientCapSats v; cr_PeriodAllowanceSats := vr_PeriodAllowanceSats v;
  cr_AbsoluteFeeCapSats := vr_AbsoluteFeeCapSats v; cr_FeerateCapSatPerV := vr_FeerateCapSatPerV v;
  cr_IntegrityMAC := [] |}.

(** ** Vault and credential MACs *)
Definition vr_fields1 (v : VaultRecord) : list bytes :=
  [vr_VaultID v; vr_TemplateVersion v; vr_PolicyVersion v; vr_ProtectionTier v;
   vr_CosignerMode v; vr_Network v; vr_RPID v; vr_Origin v;
   vr_PhoneBIP340 v; vr_PhoneDirectP256 v; vr_ExternalOwnerWallet v; vr_RecoveryKey v;
   vr_VaultCosignerBase v; vr_ArkadeCosignerBase v;
   vr_ArkadeCosignerOrigin v; vr_ArkadeCosignerVersion v].
Definition vr_fields2 (v : VaultRecord) : list bytes := [vr_SavingsAddress v; vr_SavingsScript v].

(** [uint64(x)] of a negative [int64] wraps; the other values are themselves. *)
Definition vaultRecordMAC (v : VaultRecord) (key : bytes) : result bytes :=
  _ ← fail_if (negb (blen key =? sha256_Size)) (ErrMsg "credential integrity key must be 32 bytes");
  out ← appendCredentialField [] vaultRecordMACDomain;
  out ← appendCredentialFields (out ++ le32 1) (vr_fields1 v);
  out ← appendCredentialFields
    (out ++ le64 (wrap64 (vr_RecipientDustSats v)) ++ le64 (wrap64 (vr_TxRecipientCapSats v))
     ++ le64 (wrap64 (vr_PeriodAllowanceSats v)) ++ le64 (wrap64 (vr_AbsoluteFeeCapSats v))
     ++ le64 (wrap64 (vr_FeerateCapSatPerV v))) (vr_fields2 v);
  Ok (hmac_sha256 key out).

Definition vaultCredentialMAC (c : VaultCredential) (key : bytes) : result bytes :=
  _ ← fail_if (negb (blen key =? sha256_Size)) (ErrMsg "credential integrity key must be 32 bytes");
  out ← appendCredentialField [] vaultCredentialMACDomain;
  out ← appendCredentialFields out [vc_CredentialID c; vc_VaultID c; vc_WebAuthnP256 c; vc_UserHandle c];
  Ok (hmac_sha256 key (out ++ [if vc_Resident c then Byte.x01 else Byte.x00])).

Definition sealVaultRecord (v : VaultRecord) (key : bytes) : result VaultRecord :=
  m ← vaultRecordMAC v key; Ok (vr_set_MAC m v).

Definition sealVaultCredential (c : VaultCredential) (key : bytes) : result VaultCredential :=
  m ← vaultCredentialMAC c key; Ok (vc_set_MAC m c).

Definition verifyVaultRecord (v : VaultRecord) (key : bytes) : result unit :=
  _ ← fail_if (negb (blen (vr_IntegrityMAC v) =? sha256_Size))
        (ErrMsg "vault integrity MAC missing or malformed");
  want ← vaultRecordMAC v key;
  fail_if (negb (hmac_Equal (vr_IntegrityMAC v) want)) (ErrMsg "vault integrity MAC mismatch").

Definition verifyVaultCredential (c : VaultCredential) (key : bytes) : result unit :=
  _ ← fail_if (negb (blen (vc_IntegrityMAC c) =? sha256_Size))
        (ErrMsg "vault credential integrity MAC missing or malformed");
  want ← vaultCredentialMAC c key;
  fail_if (negb (hmac_Equal (vc_IntegrityMAC c) want)) (ErrMsg "vault credential integrity MAC mismatch").

(** ** Canonical equality: every field but the MAC, first difference reported *)
Definition differ (c : bool) (what : string) : result unit := fail_if (negb c) (ErrMsg what).

Definition VaultRecordsCanonicallyEqual (got want : VaultRecord) : result unit :=
  _ ← differ (vr_VaultID got == vr_VaultID want) "vault_id";
  _ ← differ (vr_TemplateVersion got == vr_TemplateVersion want) "template_version";
  _ ← differ (vr_PolicyVersion got == vr_PolicyVersion want) "policy_version";
  _ ← differ (vr_ProtectionTier got == vr_ProtectionTier want) "protection_tier";
  _ ← differ (vr_Network got == vr_Network want) "network";
  _ ← differ (vr_RPID got == vr_RPID want) "rp_id";
  _ ← differ (vr_Origin got == vr_Origin want) "origin";
  _ ← differ (vr_PhoneBIP340 got == vr_PhoneBIP340 want) "phone_bip340";
  _ ← differ (vr_PhoneDirectP256 got == vr_PhoneDirectP256 want) "phone_direct_p256";
  _ ← differ (vr_ExternalOwnerWallet got == vr_ExternalOwnerWallet want) "external_owner_wallet";
  _ ← differ (vr_RecoveryKey got == vr_RecoveryKey want) "recovery_key";
  _ ← differ (vr_VaultCosignerBase got == vr_VaultCosignerBase want) "vault_cosigner_base";
  _ ← differ (vr_ArkadeCosignerBase got == vr_ArkadeCosignerBase want) "arkade_cosigner_base";
  _ ← differ (vr_ArkadeCosignerOrigin got == vr_ArkadeCosignerOrigin want) "arkade_cosigner_origin";
  _ ← differ (vr_ArkadeCosignerVersion got == vr_ArkadeCosignerVersion want) "arkade_cosigner_version";
  _ ← differ (vr_CosignerMode got == vr_CosignerMode want) "cosigner_mode";
  _ ← differ (vr_SavingsAddress got == vr_SavingsAddress want) "savings_address";
  _ ← differ (vr_SavingsScript got == vr_SavingsScript want) "savings_script";
  _ ← differ (vr_RecipientDustSats got =? vr_RecipientDustSats want) "recipient_dust_sats";
  _ ← differ (vr_TxRecipientCapSats got =? vr_TxRecipientCapSats want) "tx_recipient_cap_sats";
  _ ← differ (vr_PeriodAllowanceSats got =? vr_PeriodAllowanceSats want) "period_allowance_sats";
  _ ← differ (vr_AbsoluteFeeCapSats got =? vr_AbsoluteFeeCapSats want) "absolute_fee_cap_sats";
  differ (vr_FeerateCapSatPerV got =? vr_FeerateCapSatPerV want) "feerate_cap_sat_vb".

Definition VaultCredentialsCanonicallyEqual (got want : VaultCredential) : result unit :=
  _ ← differ (vc_CredentialID got == vc_CredentialID want) "credential_id";
  _ ← differ (vc_VaultID got == vc_VaultID want) "vault_id";
  _ ← differ (vc_WebAuthnP256 got == vc_WebAuthnP256 want) "webauthn_p256";
  _ ← differ (vc_UserHandle got == vc_UserHandle want) "user_handle";
  differ (eqb (vc_Resident got) (vc_Resident want)) "resident".

(** ** Recovery envelope ([envelope.go]) *)
Definition CredentialEnvelopeVersion : Z := 2.
Definition vaultEnvelopeDomain : bytes := str "arkade-vault/vault-envelope/v2".
Definition vaultEnvelopeMACSalt : bytes := str "arkade-vault/vault-envelope-mac/v2".
Definition credentialEnvelopeNonce : Z := 12.
Definition credentialEnvelopeCipher : Z := 48.
Definition credentialEnvelopeBinding : Z := 16384.
Definition credentialEnvelopeSig : Z := 64.

Definition DeriveVaultEnvelopeMACKey (integrityKey vaultID : bytes) : result bytes :=
  _ ← fail_if (negb (blen integrityKey =? sha256_Size))
        (ErrMsg "credential integrity key must be 32 bytes");
  _ ← fail_if (vaultID == []) (ErrMsg "vault id required");
  Ok (hmac_sha256 vaultEnvelopeMACSalt (integrityKey ++ [Byte.x00] ++ vaultID)).

Definition validateCredentialEnvelope (e : CredentialEnvelope) : result unit :=
  _ ← fail_if (negb (ce_Version e =? CredentialEnvelopeVersion))
        (ErrMsg "credential envelope version must be %d");
  _ ← fail_if ((blen (ce_Binding e) =? 0) || (credentialEnvelopeBinding <? blen (ce_Binding e)))
        (ErrMsg "credential envelope binding must be 1..%d bytes");
  _ ← fail_if (negb (blen (ce_Nonce e) =? credentialEnvelopeNonce))
        (ErrMsg "credential envelope nonce must be %d bytes");
  _ ← fail_if (negb (blen (ce_Ciphertext e) =? credentialEnvelopeCipher))
        (ErrMsg "credential envelope ciphertext must be %d bytes");
  _ ← fail_if (negb (blen (ce_DirectSig e) =? credentialEnvelopeSig))
        (ErrMsg "credential envelope direct signature must be %d bytes");
  _ ← fail_if (negb (blen (ce_PhoneSig e) =? credentialEnvelopeSig))
        (ErrMsg "credential envelope phone signature must be %d bytes");
  fail_if (negb (blen (ce_IntegrityMAC e) =? 0) && negb (blen (ce_IntegrityMAC e) =? sha256_Size))
    (ErrMsg "credential envelope integrity MAC must be 32 bytes").

(** [uint32(len(x))] without a size check, as written. *)
Definition vaultEnvelopeMAC (e : CredentialEnvelope) (vaultID credentialID integrityKey : bytes)
  : result bytes :=
  key ← DeriveVaultEnvelopeMACKey integrityKey vaultID;
  _ ← validateCredentialEnvelope e;
  Ok (hmac_sha256 key
        (enc_field vaultEnvelopeDomain ++ le32 (ce_Version e) ++ enc_field vaultID
         ++ enc_field credentialID ++ enc_field (ce_Binding e) ++ enc_field (ce_Nonce e)
         ++ enc_field (ce_Ciphertext e) ++ enc_field (ce_DirectSig e) ++ enc_field (ce_PhoneSig e))).

Definition SealVaultEnvelope (e : CredentialEnvelope) (vaultID credentialID integrityKey : bytes)
  : result CredentialEnvelope :=
  m ← vaultEnvelopeMAC e vaultID credentialID integrityKey; Ok (ce_set_MAC m e).

Definition VerifyVaultEnvelope (e : CredentialEnvelope) (vaultID credentialID integrityKey : bytes)
  : result unit :=
  _ ← fail_if (negb (blen (ce_IntegrityMAC e) =? sha256_Size))
        (ErrMsg "credential envelope integrity MAC missing or malformed");
  want ← vaultEnvelopeMAC e vaultID credentialID integrityKey;
  fail_if (negb (hmac_Equal (ce_IntegrityMAC e) want))
    (ErrMsg "credential envelope integrity MAC mismatch").

Definition envelopesEqual (a b : CredentialEnvelope) : bool :=
  (ce_Version a =? ce_Version b) && (ce_Binding a == ce_Binding b)
  && (ce_Nonce a == ce_Nonce b) && (ce_Ciphertext a == ce_Ciphertext b)
  && (ce_DirectSig a == ce_DirectSig b) && (ce_PhoneSig a == ce_PhoneSig b)
  && (ce_IntegrityMAC a == ce_IntegrityMAC b).

(** ** Authenticator counter and vault map MACs *)
Definition signCountMAC (vaultID credentialID : bytes) (count : Z) (key : bytes) : bytes :=
  hmac_sha256 key (signCountMACDomain ++ vaultID ++ credentialID ++ be32 count).

Definition verifySignCountMAC (vaultID credentialID : bytes) (count : Z) (mac key : bytes) : result unit :=
  fail_if (negb (hmac_Equal mac (signCountMAC vaultID credentialID count key)))
    (ErrMsg "webauthn sign count MAC mismatch").

Definition vaultMapMAC (rec : VaultMap) (key : bytes) : bytes :=
  hmac_sha256 key (vaultMapMACDomain ++ vm_VaultID rec ++ vm_KitHash rec ++ vm_Payload rec).

(** ** Invitations and pending enrollments *)
Record Invite := {
  inv_TokenHash : bytes;
  inv_ExpiresAt : bytes;
  inv_ConsumedVaultID : bytes;   (* empty when unused *)
  inv_CreatedAt : bytes;
}.

Record PendingEnrollment := {
  pe_Handle : bytes;
  pe_VaultID : bytes;
  pe_TokenHash : bytes;
  pe_Challenge : bytes;
  pe_ProtectionTier : bytes;
  pe_PolicyDigest : bytes;
  pe_ExpiresAt : bytes;
  pe_CreatedAt : bytes;
}.

#[global] Instance Invite_eq_dec : EqDecision Invite.
Proof. solve_decision. Defined.
#[global] Instance PendingEnrollment_eq_dec : EqDecision PendingEnrollment.
Proof. solve_decision. Defined.

Definition Usable (inv : option Invite) (now : Z) : bool :=
  match inv with
  | None => false
  | Some inv =>
      if inv_ConsumedVaultID inv != [] then false
      else if inv_ExpiresAt inv == [] then false
      else bytes_leb (format_rfc3339 now) (inv_ExpiresAt inv)
  end.

Definition validatePendingEnrollment (p : PendingEnrollment) : result unit :=
  _ ← fail_if ((pe_Handle p == []) || (pe_VaultID p == []))
        (ErrMsg "pending enrollment handle and vault id required");
  _ ← fail_if (negb (blen (pe_TokenHash p) =? sha256_Size))
        (ErrMsg "pending enrollment token_hash must be 32 bytes");
  _ ← fail_if (blen (pe_Challenge p) =? 0) (ErrMsg "pending enrollment challenge required");
  _ ← wrap_err "pending enrollment" (ValidateProtectionTier (pe_ProtectionTier p));
  _ ← fail_if (negb (blen (pe_PolicyDigest p) =? sha256_Size))
        (ErrMsg "pending enrollment policy_digest must be 32 bytes");
  fail_if ((pe_ExpiresAt p == []) || (pe_CreatedAt p == []))
    (ErrMsg "pending enrollment timestamps required").

(** ** What the MACs bind *)
Definition vr_typed (v : VaultRecord) : Prop :=
  is_int64 (vr_RecipientDustSats v) /\ is_int64 (vr_TxRecipientCapSats v) /\
  is_int64 (vr_PeriodAllowanceSats v) /\ is_int64 (vr_AbsoluteFeeCapSats v) /\
  is_int64 (vr_FeerateCapSatPerV v).

Definition vr_encoding (v : VaultRecord) : bytes :=
  enc_field vaultRecordMACDomain ++ le32 1 ++ concat (map enc_field (vr_fields1 v))
  ++ le64 (wrap64 (vr_RecipientDustSats v)) ++ le64 (wrap64 (vr_TxRecipientCapSats v))
  ++ le64 (wrap64 (vr_PeriodAllowanceSats v)) ++ le64 (wrap64 (vr_AbsoluteFeeCapSats v))
  ++ le64 (wrap64 (vr_FeerateCapSatPerV v)) ++ concat (map enc_field (vr_fields2 v)).

Definition vc_fields (c : VaultCredential) : list bytes :=
  [vc_CredentialID c; vc_VaultID c; vc_WebAuthnP256 c; vc_UserHandle c].
Definition vc_encoding (c : VaultCredential) : bytes :=
  enc_field vaultCredentialMACDomain ++ concat (map enc_field (vc_fields c))
  ++ [if vc_Resident c then Byte.x01 else Byte.x00].

Lemma wrap64_uint64 z : is_uint64 (wrap64 z).
Proof.
  unfold is_uint64, max_uint64, wrap64. pose proof (Z.mod_pos_bound z 18446744073709551616). lia.
Qed.

#[export] Hint Resolve wrap64_uint64 : guardian.

Lemma vaultRecordMAC_Ok v key m :
  vaultRecordMAC v key = Ok m ->
  m = hmac_sha256 key (vr_encoding v) /\ Forall field_ok (vr_fields1 v) /\ Forall field_ok (vr_fields2 v).
Proof.
  unfold vaultRecordMAC, vr_encoding. intros H. inv_ok.
  repeat match goal with
  | H : appendCredentialField _ _ = Ok _ |- _ => apply appendCredentialField_Ok in H as [? ->]
  | H : appendCredentialFields _ _ = Ok _ |- _ => apply appendCredentialFields_Ok in H as [? ->]
  end.
  split; [|done]. by rewrite <-!app_assoc.
Qed.

Lemma vr_encoding_inj a b :
  vr_typed a -> vr_typed b ->
  Forall field_ok (vr_fields1 a) -> Forall field_ok (vr_fields1 b) ->
  Forall field_ok (vr_fields2 a) -> Forall field_ok (vr_fields2 b) ->
  vr_encoding a = vr_encoding b -> vr_set_MAC [] a = vr_set_MAC [] b.
Proof.
  intros (?&?&?&?&?) (?&?&?&?&?) ???? E. unfold vr_encoding in E.
  do 2 apply app_inv_head in E.
  apply enc_fields_app_inv in E as [F1 E]; [|done..].
  do 5 (apply le64_app_inv in E as [?%wrap64_inj E]; [|auto with guardian..]); try done.
  apply enc_fields_inj in E; [|done..].
  unfold vr_fields1 in F1. unfold vr_fields2 in E. injection F1 as. injection E as.
  destruct a, b; simpl in *; unfold vr_set_MAC; simpl. subst. reflexivity.
Qed.

Lemma canonically_equal_refl v w :
  vr_set_MAC [] v = vr_set_MAC [] w -> VaultRecordsCanonicallyEqual v w = Ok tt.
Proof.
  destruct v, w. unfold vr_set_MAC. simpl. intros E. injection E as. subst.
  unfold VaultRecordsCanonicallyEqual, differ. simpl.
  rewrite !bool_decide_eq_true_2, !Z.eqb_refl by done. reflexivity.
Qed.

Lemma canonically_equal_sound v w :
  VaultRecordsCanonicallyEqual v w = Ok tt -> vr_set_MAC [] v = vr_set_MAC [] w.
Proof.
  unfold VaultRecordsCanonicallyEqual, differ. intros H. inv_ok. bool_hyps.
  destruct v, w; simpl in *. unfold vr_set_MAC; simpl. subst. reflexivity.
Qed.

(** the descriptor comparison reports no difference exactly when the two
    records agree on every field but the MAC, and two stored records that
    verify with the same MAC compare equal, up to an HMAC collision: no
    persisted field of a vault escapes its MAC. *)
Theorem vault_record_mac_binds v w key :
  vr_typed v -> vr_typed w ->
  verifyVaultRecord v key = Ok tt -> verifyVaultRecord w key = Ok tt ->
  vr_IntegrityMAC v = vr_IntegrityMAC w ->
  VaultRecordsCanonicallyEqual v w = Ok tt \/ hmac_collision key (vr_encoding v) (vr_encoding w).
Proof.
  intros Tv Tw Hv Hw Em. unfold verifyVaultRecord, hmac_Equal in *. inv_ok. bool_hyps.
  repeat match goal with
  | H : vaultRecordMAC _ _ = Ok _ |- _ => apply vaultRecordMAC_Ok in H as (-> & ? & ?) end.
  assert (hmac_sha256 key (vr_encoding v) = hmac_sha256 key (vr_encoding w)) as Eh by congruence.
  apply hmac_eq_cases in Eh as [Eh|C]; [left|by right].
  by apply canonically_equal_refl, vr_encoding_inj.
Qed.

Definition demo_vault : VaultRecord := {|
  vr_VaultID := str "vault-1"; vr_TemplateVersion := str "t"; vr_PolicyVersion := PolicyVersion;
  vr_ProtectionTier := ProtectionTierStandard; vr_Network := NetworkMutinynet; vr_RPID := str "rp";
  vr_Origin := str "https://rp"; vr_PhoneBIP340 := str "p"; vr_PhoneDirectP256 := str "d";
  vr_ExternalOwnerWallet := str "x"; vr_RecoveryKey := []; vr_VaultCosignerBase := str "c";
  vr_ArkadeCosignerBase := str "a"; vr_ArkadeCosignerOrigin := str "o"; vr_ArkadeCosignerVersion := str "1";
  vr_CosignerMode := CosignerModeHKDFSHA256V1; vr_SavingsAddress := str "addr";
  vr_SavingsScript := str "script"; vr_RecipientDustSats := 330; vr_TxRecipientCapSats := 50000;
  vr_PeriodAllowanceSats := 100000; vr_AbsoluteFeeCapSats := 5000; vr_FeerateCapSatPerV := 10;
  vr_IntegrityMAC := [] |}.
Definition demo_vault_key : bytes := repeat Byte.x07 32.
Definition demo_sealed_vault : VaultRecord :=
  vr_set_MAC (hmac_sha256 demo_vault_key (vr_encoding demo_vault)) demo_vault.

Lemma vault_record_mac_binds_witness :
  VaultRecordsCanonicallyEqual demo_sealed_vault demo_sealed_vault = Ok tt \/
  hmac_collision demo_vault_key (vr_encoding demo_sealed_vault) (vr_encoding demo_sealed_vault).
Proof.
  apply (vault_record_mac_binds demo_sealed_vault demo_sealed_vault demo_vault_key);
    [vm_compute; intuition congruence .. | vm_compute; reflexivity | vm_compute; reflexivity | reflexivity].
Defined.

Lemma validate_envelope_fields e :
  validateCredentialEnvelope e = Ok tt ->
  is_uint32 (ce_Version e) /\ field_ok (ce_Binding e) /\ field_ok (ce_Nonce e) /\
  field_ok (ce_Ciphertext e) /\ field_ok (ce_DirectSig e) /\ field_ok (ce_PhoneSig e).
Proof.
  unfold validateCredentialEnvelope, CredentialEnvelopeVersion, credentialEnvelopeBinding,
    credentialEnvelopeNonce, credentialEnvelopeCipher, credentialEnvelopeSig, field_ok, is_uint32, max_uint32.
  intros H. inv_ok. bool_hyps. lia.
Qed.

Lemma ce_ext e f :
  ce_Version e = ce_Version f -> ce_Binding e = ce_Binding f -> ce_Nonce e = ce_Nonce f ->
  ce_Ciphertext e = ce_Ciphertext f -> ce_DirectSig e = ce_DirectSig f -> ce_PhoneSig e = ce_PhoneSig f ->
  ce_IntegrityMAC e = ce_IntegrityMAC f -> e = f.
Proof. destruct e, f; simpl. by intros -> -> -> -> -> -> ->. Qed.

(** an envelope MAC is bound to its tenant, its passkey and every
    envelope field: the same MAC verifying for another vault, another
    credential or other contents is an HMAC collision. *)
Theorem envelope_mac_binds e f v w c d key :
  field_ok v -> field_ok w -> field_ok c -> field_ok d ->
  VerifyVaultEnvelope e v c key = Ok tt -> VerifyVaultEnvelope f w d key = Ok tt ->
  ce_IntegrityMAC e = ce_IntegrityMAC f ->
  (v = w /\ c = d /\ e = f) \/
  exists k1 k2 a b, (k1, a) <> (k2, b) /\ hmac_sha256 k1 a = hmac_sha256 k2 b.
Proof.
  intros Fv Fw Fc Fd He Hf Em. unfold VerifyVaultEnvelope, vaultEnvelopeMAC, hmac_Equal in *.
  inv_ok. bool_hyps.
  repeat match goal with
  | H : validateCredentialEnvelope _ = Ok _ |- _ => apply validate_envelope_fields in H as (?&?&?&?&?&?) end.
  match goal with H1 : ce_IntegrityMAC e = hmac_sha256 ?k1 ?a, H2 : ce_IntegrityMAC f = hmac_sha256 ?k2 ?b |- _ =>
    assert (hmac_sha256 k1 a = hmac_sha256 k2 b) as Eh by congruence;
    destruct (decide (a = b)) as [Eq|Ne]; [left|right; exists k1, k2, a, b; split; congruence] end.
  apply app_inv_head in Eq. apply le32_app_inv in Eq as [? Eq]; [|done..].
  do 6 (apply enc_field_app_inv in Eq as [? Eq]; [|done..]).
  rewrite <-(app_nil_r (enc_field (ce_PhoneSig e))), <-(app_nil_r (enc_field (ce_PhoneSig f))) in Eq.
  apply enc_field_app_inv in Eq as [? _]; [|done..].
  split_and!; [done..|]. by apply ce_ext.
Qed.

Definition demo_envelope : CredentialEnvelope :=
  let e := Build_CredentialEnvelope 2 (str "binding") (repeat Byte.x01 12) (repeat Byte.x02 48)
             (repeat Byte.x03 64) (repeat Byte.x04 64) [] in
  match SealVaultEnvelope e (str "v") (str "c") demo_vault_key with Ok e => e | Err _ => e end.

Lemma envelope_mac_binds_witness :
  VerifyVaultEnvelope demo_envelope (str "v") (str "c") demo_vault_key = Ok tt /\
  ((str "v" = str "v" /\ str "c" = str "c" /\ demo_envelope = demo_envelope) \/
   exists k1 k2 a b, (k1, a) <> (k2, b) /\ hmac_sha256 k1 a = hmac_sha256 k2 b).
Proof.
  assert (VerifyVaultEnvelope demo_envelope (str "v") (str "c") demo_vault_key = Ok tt) as H
    by (vm_compute; reflexivity).
  split; [exact H|].
  apply (envelope_mac_binds demo_envelope demo_envelope (str "v") (str "v") (str "c") (str "c") demo_vault_key);
    [vm_compute; congruence .. | exact H | exact H | reflexivity].
Defined.

(** The counter MAC concatenates the vault id and the credential id without a
    length, so the pair is not bound: moving a byte between them keeps the MAC. *)
Lemma sign_count_mac_not_delimited v b c n key :
  signCountMAC (v ++ [b]) c n key = signCountMAC v (b :: c) n key.
Proof. unfold signCountMAC. by rewrite <-!app_assoc. Qed.

(** The same for the vault map: its id, kit hash and payload are joined bare. *)
Lemma vault_map_mac_not_delimited v b h p key :
  vaultMapMAC (Build_VaultMap (v ++ [b]) h p) key = vaultMapMAC (Build_VaultMap v (b :: h) p) key.
Proof. unfold vaultMapMAC. simpl. by rewrite <-!app_assoc. Qed.
