(* ===== verification/Renewal.v ===== *)
(** The Bitcoin payment batch journal ([internal/policy/spending_renewal.go],
    [bitcoin_conflict.go], [bitcoin_ended_batch.go]): its records, their JSON
    rows and MACs, and the transition rules of its phases.  The transactions
    are in [RenewalLedger]. *)
From Stdlib Require Import Strings.Byte.
From S2P Require Import Prelude Sha256 Text GoTime Json.

(** ** Records *)
Record SpendingRenewalOperation := {
  ro_OperationID : bytes;
  ro_VaultID : bytes;
  ro_InputTxid : bytes;
  ro_InputVout : Z;        (* uint32 *)
  ro_FeeSats : Z;          (* int64 *)
  ro_PlanDigest : bytes;
  ro_Plan : bytes;
  ro_ExpiresAt : bytes;
  ro_CreatedAt : bytes;
  ro_Kind : bytes;
  ro_AmountSats : Z;       (* int64 *)
}.

Record SpendingRenewalEvent := {
  re_OperationID : bytes;
  re_Phase : bytes;
  re_RequestDigest : bytes;
  re_Outcome : bytes;
  re_OperatorRef : bytes;
  re_Evidence : bytes;
  re_CreatedAt : bytes;
}.

Record SpendingRenewalSnapshot := {
  rs_Operation : SpendingRenewalOperation;
  rs_Events : gmap bytes SpendingRenewalEvent;
}.

#[global] Instance SpendingRenewalOperation_eq_dec : EqDecision SpendingRenewalOperation.
Proof. solve_decision. Defined.
#[global] Instance SpendingRenewalEvent_eq_dec : EqDecision SpendingRenewalEvent.
Proof. solve_decision. Defined.

Definition ro_set_CreatedAt (t : bytes) (r : SpendingRenewalOperation) : SpendingRenewalOperation :=
  Build_SpendingRenewalOperation (ro_OperationID r) (ro_VaultID r) (ro_InputTxid r) (ro_InputVout r)
    (ro_FeeSats r) (ro_PlanDigest r) (ro_Plan r) (ro_ExpiresAt r) t (ro_Kind r) (ro_AmountSats r).

Definition re_set_CreatedAt (t : bytes) (e : SpendingRenewalEvent) : SpendingRenewalEvent :=
  Build_SpendingRenewalEvent (re_OperationID e) (re_Phase e) (re_RequestDigest e) (re_Outcome e)
    (re_OperatorRef e) (re_Evidence e) t.

Definition zero_renewal_event : SpendingRenewalEvent := Build_SpendingRenewalEvent [] [] [] [] [] [] [].

(** Go's [events[phase]]: the zero event when the key is absent. *)
Definition revent (s : SpendingRenewalSnapshot) (phase : string) : SpendingRenewalEvent :=
  default zero_renewal_event (rs_Events s !! str phase).

Definition has_event (s : SpendingRenewalSnapshot) (phase : string) : bool :=
  match rs_Events s !! str phase with Some _ => true | None => false end.

(** ** JSON rows *)
Definition jf (name : string) (k : kind) (omit : bool) : jfield := Build_jfield (str name) k omit.

Definition renewal_operation_schema : list jfield :=
  [jf "operationId" KStr false; jf "vaultId" KStr false; jf "inputTxid" KStr false;
   jf "inputVout" k_uint32 false; jf "feeSats" k_int64 false; jf "planDigest" KStr false;
   jf "plan" KStr false; jf "expiresAt" KStr false; jf "createdAt" KStr false;
   jf "kind" KStr true; jf "amountSats" k_int64 true].

Definition ro_values (r : SpendingRenewalOperation) : list scalar :=
  [SStr (ro_OperationID r); SStr (ro_VaultID r); SStr (ro_InputTxid r); SInt (ro_InputVout r);
   SInt (ro_FeeSats r); SStr (ro_PlanDigest r); SStr (ro_Plan r); SStr (ro_ExpiresAt r);
   SStr (ro_CreatedAt r); SStr (ro_Kind r); SInt (ro_AmountSats r)].

Definition ro_of_values (l : list scalar) : option SpendingRenewalOperation :=
  match l with
  | [a; b; c; d; e; f; g; h; i; j; k] =>
      Some (Build_SpendingRenewalOperation (get_str a) (get_str b) (get_str c) (get_int d) (get_int e)
              (get_str f) (get_str g) (get_str h) (get_str i) (get_str j) (get_int k))
  | _ => None
  end.

Definition renewal_event_schema : list jfield :=
  [jf "operationId" KStr false; jf "phase" KStr false; jf "requestDigest" KStr false;
   jf "outcome" KStr true; jf "operatorRef" KStr true; jf "evidence" KStr true;
   jf "createdAt" KStr false].

Definition re_values (e : SpendingRenewalEvent) : list scalar :=
  [SStr (re_OperationID e); SStr (re_Phase e); SStr (re_RequestDigest e); SStr (re_Outcome e);
   SStr (re_OperatorRef e); SStr (re_Evidence e); SStr (re_CreatedAt e)].

Definition re_of_values (l : list scalar) : option SpendingRenewalEvent :=
  match l with
  | [a; b; c; d; e; f; g] =>
      Some (Build_SpendingRenewalEvent (get_str a) (get_str b) (get_str c) (get_str d) (get_str e)
              (get_str f) (get_str g))
  | _ => None
  end.

Definition marshal_renewal (r : SpendingRenewalOperation) : bytes :=
  marshal_struct renewal_operation_schema (ro_values r).
Definition unmarshal_renewal (s : bytes) : option SpendingRenewalOperation :=
  unmarshal_struct renewal_operation_schema s ≫= ro_of_values.
Definition marshal_renewal_event (e : SpendingRenewalEvent) : bytes :=
  marshal_struct renewal_event_schema (re_values e).
Definition unmarshal_renewal_event (s : bytes) : option SpendingRenewalEvent :=
  unmarshal_struct renewal_event_schema s ≫= re_of_values.

(** ** Validation *)
Definition SpendingBitcoinBatchKind : bytes := str "spending-bitcoin-v1".
Definition isBitcoinBatch (kind : bytes) : bool := kind == SpendingBitcoinBatchKind.

(** From spending_delegation.go. *)
Definition delegationSetVaultProgram : bytes := str "vault-policy-v1".
Definition ValidDelegationVaultID (programID vaultID : bytes) : bool :=
  (programID == delegationSetVaultProgram) && (vaultID != []) && utf8_valid vaultID && space_trimmed vaultID.

Definition validateSpendingRenewalOperation (r : SpendingRenewalOperation) : result unit :=
  _ ← fail_if (negb (isBitcoinBatch (ro_Kind r)) || (ro_AmountSats r <? 330)
               || (21000000 * 100000000 <? ro_AmountSats r))
        (ErrMsg "invalid batch operation kind or amount");
  _ ← fail_if (negb (canonicalRenewalHex (ro_OperationID r) 16)
               || (negb (ValidDelegationVaultID delegationSetVaultProgram (ro_VaultID r))
                   || (256 <? blen (ro_VaultID r)))
               || negb (canonicalRenewalHex (ro_InputTxid r) 32)
               || negb (canonicalRenewalHex (ro_PlanDigest r) 32)
               || (ro_FeeSats r <? 0) || (5000 <? ro_FeeSats r)
               || (blen (ro_Plan r) =? 0) || (8192 <? blen (ro_Plan r)) || negb (json_valid (ro_Plan r)))
        (ErrMsg "invalid Light renewal reservation");
  match parse_rfc3339 (ro_ExpiresAt r), parse_rfc3339 (ro_CreatedAt r) with
  | Some expiry, Some created =>
      fail_if (negb (created <? expiry) || (created + 10 * minute <? expiry))
        (ErrMsg "invalid Light renewal times")
  | _, _ => Err (ErrMsg "invalid Light renewal times")
  end.

(** [phase] is one of the listed case labels. *)
Definition phase_in (phase : bytes) (labels : list string) : bool :=
  existsb (fun l => phase == str l) labels.

Definition validateSpendingRenewalEvent (e : SpendingRenewalEvent) : result unit :=
  _ ← fail_if (negb (canonicalRenewalHex (re_OperationID e) 16)
               || negb (canonicalRenewalHex (re_RequestDigest e) 32)
               || (900000 <? blen (re_Evidence e)) || (256 <? blen (re_OperatorRef e)))
        (ErrMsg "invalid Light renewal phase");
  _ ← (match parse_rfc3339 (re_CreatedAt e) with Some _ => Ok tt | None => Err (ErrMsg "parsing time") end);
  let p := re_Phase e in
  if phase_in p ["register_authorized"; "final_authorized"; "delete_authorized"] then
    fail_if ((re_Evidence e == []) || negb (json_valid (re_Evidence e)) || (re_Outcome e != [])
             || (re_OperatorRef e != []))
      (ErrMsg "Light renewal authorization evidence required")
  else if phase_in p ["register_dispatched"; "final_dispatched"; "delete_dispatched"] then
    fail_if ((re_Evidence e != []) || (re_Outcome e != []) || (re_OperatorRef e != []))
      (ErrMsg "invalid Light renewal dispatch")
  else if phase_in p ["register_result"] then
    fail_if ((re_Evidence e != [])
             || negb ((re_Outcome e == str "registered") && (re_OperatorRef e != [])
                      || (re_Outcome e == str "rejected") && (re_OperatorRef e == [])))
      (ErrMsg "invalid Light renewal registration result")
  else if phase_in p ["final_result"] then
    fail_if ((re_Outcome e != str "submitted") || (re_OperatorRef e != []) || (re_Evidence e != []))
      (ErrMsg "invalid Light renewal final result")
  else if phase_in p ["delete_result"] then
    fail_if ((re_Outcome e != str "released") || (re_OperatorRef e != []) || (re_Evidence e != []))
      (ErrMsg "invalid Light renewal deletion result")
  else if phase_in p ["confirmed"] then
    fail_if ((re_Outcome e != str "confirmed") || negb (canonicalRenewalHex (re_OperatorRef e) 32)
             || (re_Evidence e == []) || negb (json_valid (re_Evidence e)))
      (ErrMsg "invalid Light renewal confirmation")
  else if phase_in p ["released"] then
    fail_if ((re_Outcome e != []) || (re_OperatorRef e != []) || (re_Evidence e == [])
             || negb (json_valid (re_Evidence e)))
      (ErrMsg "Light renewal release evidence required")
  else if phase_in p ["cancelled"] then
    fail_if ((re_Outcome e != []) || (re_OperatorRef e != []) || (re_Evidence e != []))
      (ErrMsg "invalid Light renewal release")
  else Err (ErrMsg "unsupported Light renewal phase").

Definition renewalMAC (key domain payload : bytes) : bytes :=
  hmac_sha256 key ((domain ++ str ":") ++ payload).

Definition renewal_operation_domain : bytes := str "vaulted-light/renewal-operation/v1".
Definition renewal_event_domain : bytes := str "vaulted-light/renewal-event/v1".

Definition renewalTerminal (s : SpendingRenewalSnapshot) : bool :=
  has_event s "confirmed" || has_event s "released" || has_event s "cancelled"
  || (re_Outcome (revent s "register_result") == str "rejected").

(** ** Release evidence ([bitcoin_conflict.go], [bitcoin_ended_batch.go]) *)
Record BitcoinConflictEvidence := {
  bce_Kind : bytes;
  bce_CommitmentTxid : bytes;
  bce_FundingTxid : bytes;
  bce_FundingVout : Z;
  bce_ConflictingTxid : bytes;
  bce_ConflictingVin : Z;
  bce_BlockHash : bytes;
  bce_BlockHeight : Z;
  bce_TipHash : bytes;
  bce_TipHeight : Z;
  bce_RawTransaction : bytes;
}.

Definition bitcoin_conflict_schema : list jfield :=
  [jf "kind" KStr false; jf "commitmentTxid" KStr false; jf "fundingTxid" KStr false;
   jf "fundingVout" k_uint32 false; jf "conflictingTxid" KStr false; jf "conflictingVin" k_uint32 false;
   jf "blockHash" KStr false; jf "blockHeight" k_int64 false; jf "tipHash" KStr false;
   jf "tipHeight" k_int64 false; jf "rawTransaction" KStr false].

Definition bce_values (p : BitcoinConflictEvidence) : list scalar :=
  [SStr (bce_Kind p); SStr (bce_CommitmentTxid p); SStr (bce_FundingTxid p); SInt (bce_FundingVout p);
   SStr (bce_ConflictingTxid p); SInt (bce_ConflictingVin p); SStr (bce_BlockHash p);
   SInt (bce_BlockHeight p); SStr (bce_TipHash p); SInt (bce_TipHeight p); SStr (bce_RawTransaction p)].

Definition bce_of_values (l : list scalar) : option BitcoinConflictEvidence :=
  match l with
  | [a; b; c; d; e; f; g; h; i; j; k] =>
      Some (Build_BitcoinConflictEvidence (get_str a) (get_str b) (get_str c) (get_int d) (get_str e)
              (get_int f) (get_str g) (get_int h) (get_str i) (get_int j) (get_str k))
  | _ => None
  end.

Definition BitcoinConflictKind : bytes := str "bitcoin-commitment-conflict-v1".
Definition BitcoinConflictConfirmations : Z := 6.

Definition conflict_Validate (p : BitcoinConflictEvidence) : result unit :=
  fail_if ((bce_Kind p != BitcoinConflictKind) || negb (canonicalRenewalHex (bce_CommitmentTxid p) 32)
           || negb (canonicalRenewalHex (bce_FundingTxid p) 32)
           || negb (canonicalRenewalHex (bce_ConflictingTxid p) 32)
           || (bce_CommitmentTxid p == bce_ConflictingTxid p)
           || negb (canonicalRenewalHex (bce_BlockHash p) 32)
           || negb (canonicalRenewalHex (bce_TipHash p) 32) || (bce_BlockHeight p <=? 0)
           || (bce_TipHeight p <? bce_BlockHeight p) || (9007199254740991 <? bce_TipHeight p)
           || (bce_TipHeight p - bce_BlockHeight p <? BitcoinConflictConfirmations - 1)
           || (blen (bce_RawTransaction p) =? 0) || (524288 <? blen (bce_RawTransaction p))
           || negb (canonicalRenewalHex (bce_RawTransaction p) (blen (bce_RawTransaction p) / 2)))
    (ErrMsg "confirmed Bitcoin conflict evidence required").

Definition validateBitcoinConflictRelease (s : SpendingRenewalSnapshot) (e : SpendingRenewalEvent)
  : result unit :=
  _ ← fail_if (negb (isBitcoinBatch (ro_Kind (rs_Operation s)))
               || (re_Phase (revent s "final_dispatched") == [])
               || (re_RequestDigest e != re_RequestDigest (revent s "final_dispatched")))
        (ErrMsg "Bitcoin conflict does not bind the dispatched payment");
  match unmarshal_struct bitcoin_conflict_schema (re_Evidence e) ≫= bce_of_values with
  | None => Err (ErrMsg "json")
  | Some p =>
      _ ← fail_if (marshal_struct bitcoin_conflict_schema (bce_values p) != re_Evidence e)
            (ErrMsg "Bitcoin conflict evidence changed");
      conflict_Validate p
  end.

Record BitcoinEndedBatchEvidence := {
  ebe_Kind : bytes;
  ebe_CommitmentTxid : bytes;
  ebe_BatchEndedAt : Z;
  ebe_FinalDispatchedAt : bytes;
  ebe_InputTxid : bytes;
  ebe_InputVout : Z;
  ebe_InputValueSats : Z;        (* uint64 *)
  ebe_InputExpiresAt : Z;
  ebe_InputCommitmentTxids : option (list bytes);
}.

Definition ended_batch_schema : list jfield :=
  [jf "kind" KStr false; jf "commitmentTxid" KStr false; jf "batchEndedAt" k_int64 false;
   jf "finalDispatchedAt" KStr false; jf "inputTxid" KStr false; jf "inputVout" k_uint32 false;
   jf "inputValueSats" k_uint64 false; jf "inputExpiresAt" k_int64 false;
   jf "inputCommitmentTxids" KStrs false].

Definition ebe_values (p : BitcoinEndedBatchEvidence) : list scalar :=
  [SStr (ebe_Kind p); SStr (ebe_CommitmentTxid p); SInt (ebe_BatchEndedAt p);
   SStr (ebe_FinalDispatchedAt p); SStr (ebe_InputTxid p); SInt (ebe_InputVout p);
   SInt (ebe_InputValueSats p); SInt (ebe_InputExpiresAt p); SStrs (ebe_InputCommitmentTxids p)].

Definition ebe_of_values (l : list scalar) : option BitcoinEndedBatchEvidence :=
  match l with
  | [a; b; c; d; e; f; g; h; i] =>
      Some (Build_BitcoinEndedBatchEvidence (get_str a) (get_str b) (get_int c) (get_str d) (get_str e)
              (get_int f) (get_int g) (get_int h) (get_strs i))
  | _ => None
  end.

Definition BitcoinEndedBatchKind : bytes := str "operator-ended-before-dispatch-v1".

Definition ended_Validate (p : BitcoinEndedBatchEvidence) : result unit :=
  let txids := default [] (ebe_InputCommitmentTxids p) in
  match parse_rfc3339 (ebe_FinalDispatchedAt p) with
  | None => Err (ErrMsg "ended Operator batch release evidence required")
  | Some dispatchedAt =>
      _ ← fail_if ((ebe_Kind p != BitcoinEndedBatchKind)
                   || negb (canonicalRenewalHex (ebe_CommitmentTxid p) 32)
                   || negb (canonicalRenewalHex (ebe_InputTxid p) 32)
                   || (ebe_BatchEndedAt p <=? 0) || (unix dispatchedAt <=? ebe_BatchEndedAt p)
                   || (ebe_InputValueSats p <? 330) || (21000000 * 100000000 <? ebe_InputValueSats p)
                   || (ebe_InputExpiresAt p <=? unix dispatchedAt)
                   || (Z.of_nat (length txids) =? 0) || (128 <? Z.of_nat (length txids)))
            (ErrMsg "ended Operator batch release evidence required");
      each (fun txid => fail_if (negb (canonicalRenewalHex txid 32))
                          (ErrMsg "ended Operator batch input commitment changed")) txids
  end.

(** The anonymous structs with a single field. *)
Definition change_schema : list jfield := [jf "changeSats" k_int64 false].
Definition kind_schema : list jfield := [jf "kind" KStr false].

Definition bitcoinPlanChange (raw : bytes) : result Z :=
  match unmarshal_struct change_schema raw with
  | Some [v] => if get_int v <? 0 then Err (ErrMsg "ended Operator batch plan changed") else Ok (get_int v)
  | _ => Err (ErrMsg "ended Operator batch plan changed")
  end.

Definition validateBitcoinEndedBatchRelease (s : SpendingRenewalSnapshot) (e : SpendingRenewalEvent)
  : result unit :=
  _ ← fail_if (negb (isBitcoinBatch (ro_Kind (rs_Operation s)))
               || (re_Phase (revent s "final_dispatched") == [])
               || (re_Phase (revent s "final_result") != [])
               || (re_RequestDigest e != re_RequestDigest (revent s "final_dispatched")))
        (ErrMsg "ended Operator batch does not bind the dispatched payment");
  match unmarshal_struct ended_batch_schema (re_Evidence e) ≫= ebe_of_values with
  | None => Err (ErrMsg "json")
  | Some p =>
      change ← bitcoinPlanChange (ro_Plan (rs_Operation s));
      _ ← fail_if ((marshal_struct ended_batch_schema (ebe_values p) != re_Evidence e)
                   || (ebe_FinalDispatchedAt p != re_CreatedAt (revent s "final_dispatched"))
                   || (ebe_InputTxid p != ro_InputTxid (rs_Operation s))
                   || negb (ebe_InputVout p =? ro_InputVout (rs_Operation s))
                   || negb (ebe_InputValueSats p =?
                            wrap64 (ro_AmountSats (rs_Operation s) + ro_FeeSats (rs_Operation s) + change)))
            (ErrMsg "ended Operator batch release evidence changed");
      ended_Validate p
  end.

Definition validateBitcoinDispatchedRelease (s : SpendingRenewalSnapshot) (e : SpendingRenewalEvent)
  : result unit :=
  match unmarshal_struct kind_schema (re_Evidence e) with
  | Some [k] =>
      if get_str k == BitcoinConflictKind then validateBitcoinConflictRelease s e
      else if get_str k == BitcoinEndedBatchKind then validateBitcoinEndedBatchRelease s e
      else Err (ErrMsg "unsupported Bitcoin release evidence")
  | _ => Err (ErrMsg "Bitcoin release evidence required")
  end.

(** ** Transitions *)
Definition zero_time : Z := -62135596800 * second.
Definition renewal_expiry (s : SpendingRenewalSnapshot) : Z :=
  default zero_time (parse_rfc3339 (ro_ExpiresAt (rs_Operation s))).

Definition require_phase (s : SpendingRenewalSnapshot) (phase : string) : result unit :=
  fail_if (negb (has_event s phase)) (ErrWrap phase (ErrMsg "Light renewal requires")).

Definition validateRenewalTransition (s : SpendingRenewalSnapshot) (e : SpendingRenewalEvent) (now : Z)
  : result unit :=
  _ ← fail_if (renewalTerminal s) (ErrMsg "Light renewal already terminal");
  let expiry := renewal_expiry s in
  let p := re_Phase e in
  if phase_in p ["register_authorized"] then
    fail_if (negb (bool_decide (rs_Events s = ∅)) || negb (now <? expiry))
      (ErrMsg "Light renewal registration expired or started")
  else if phase_in p ["register_dispatched"] then
    _ ← require_phase s "register_authorized";
    fail_if (negb (now <? expiry)
             || (re_RequestDigest e != re_RequestDigest (revent s "register_authorized")))
      (ErrMsg "Light renewal dispatch changed or expired")
  else if phase_in p ["register_result"] then
    _ ← require_phase s "register_dispatched";
    fail_if ((re_RequestDigest e != re_RequestDigest (revent s "register_dispatched"))
             || (re_Phase (revent s "delete_authorized") != [])
             || (re_Phase (revent s "final_authorized") != []))
      (ErrMsg "Light renewal registration result changed or superseded")
  else if phase_in p ["final_authorized"] then
    fail_if ((re_Outcome (revent s "register_result") != str "registered")
             || (re_Phase (revent s "delete_authorized") != []) || negb (now <? expiry))
      (ErrMsg "Light renewal finalization unavailable")
  else if phase_in p ["final_dispatched"; "final_result"] then
    _ ← fail_if ((p == str "final_dispatched")
                 && (negb (now <? expiry) || (re_Phase (revent s "delete_authorized") != [])))
          (ErrMsg "Light renewal final dispatch expired");
    let prior := if p == str "final_result" then "final_dispatched"%string else "final_authorized"%string in
    _ ← require_phase s prior;
    fail_if (re_RequestDigest e != re_RequestDigest (revent s prior))
      (ErrMsg "Light renewal final request changed")
  else if phase_in p ["confirmed"] then
    _ ← require_phase s "final_dispatched";
    fail_if (re_RequestDigest e != re_RequestDigest (revent s "final_dispatched"))
      (ErrMsg "Light renewal confirmation changed")
  else if phase_in p ["delete_authorized"] then
    _ ← require_phase s "register_dispatched";
    _ ← fail_if ((re_Phase (revent s "final_authorized") != [])
                 && ((now <? expiry + 15 * second) || (re_Phase (revent s "final_dispatched") != [])))
          (ErrMsg "Light renewal has a forfeit authorization");
    fail_if (now <? expiry + 15 * second) (ErrMsg "Bitcoin payment cancellation must wait for expiry")
  else if phase_in p ["delete_dispatched"; "delete_result"] then
    let prior := if p == str "delete_result" then "delete_dispatched"%string else "delete_authorized"%string in
    _ ← require_phase s prior;
    fail_if (re_RequestDigest e != re_RequestDigest (revent s prior)) (ErrMsg "Light renewal deletion changed")
  else if phase_in p ["released"] then
    if re_Phase (revent s "final_dispatched") != [] then validateBitcoinDispatchedRelease s e
    else
      _ ← fail_if (re_Outcome (revent s "delete_result") != str "released")
            (ErrMsg "Bitcoin payment intent deletion is unconfirmed");
      fail_if ((re_Phase (revent s "register_dispatched") == [])
               || (re_Phase (revent s "final_dispatched") != [])
               || (now <? expiry + 15 * second)
               || (re_RequestDigest e != re_RequestDigest (revent s "register_dispatched")))
        (ErrMsg "Light renewal release not final")
  else if phase_in p ["cancelled"] then
    _ ← fail_if (re_Phase (revent s "register_dispatched") != [])
          (ErrMsg "Light renewal registration may be live");
    fail_if (re_RequestDigest e != ro_PlanDigest (rs_Operation s))
      (ErrMsg "Light renewal cancellation changed")
  else Err (ErrMsg "unsupported Light renewal transition").

(** ** The journal of one operation as a step relation

    [AppendSpendingRenewalEvent] inserts an event whose phase is new, whose
    fields pass [validateSpendingRenewalEvent] and whose transition passes
    [validateRenewalTransition] at the time of the call. *)
Definition add_renewal_event (s : SpendingRenewalSnapshot) (e : SpendingRenewalEvent) : SpendingRenewalSnapshot :=
  Build_SpendingRenewalSnapshot (rs_Operation s) (<[re_Phase e := e]> (rs_Events s)).

Inductive renewal_step (s : SpendingRenewalSnapshot) : SpendingRenewalSnapshot -> Prop :=
  | RenewalStep e now :
      rs_Events s !! re_Phase e = None ->
      re_OperationID e = ro_OperationID (rs_Operation s) ->
      validateSpendingRenewalEvent e = Ok tt ->
      validateRenewalTransition s e now = Ok tt ->
      renewal_step s (add_renewal_event s e).

Inductive renewal_reachable (op : SpendingRenewalOperation) : SpendingRenewalSnapshot -> Prop :=
  | RenewalInit : renewal_reachable op (Build_SpendingRenewalSnapshot op ∅)
  | RenewalNext s s' : renewal_reachable op s -> renewal_step s s' -> renewal_reachable op s'.

Definition revents (s : SpendingRenewalSnapshot) (phase : string) : option SpendingRenewalEvent :=
  rs_Events s !! str phase.

(** [a] is recorded only after [b], for the same request. *)
Definition follows (s : SpendingRenewalSnapshot) (a b : string) : Prop :=
  forall ea, revents s a = Some ea ->
  exists eb, revents s b = Some eb /\ re_RequestDigest eb = re_RequestDigest ea.

Definition renewal_chain : list (string * string) :=
  [("register_dispatched", "register_authorized"); ("register_result", "register_dispatched");
   ("final_dispatched", "final_authorized"); ("final_result", "final_dispatched");
   ("confirmed", "final_dispatched"); ("delete_dispatched", "delete_authorized");
   ("delete_result", "delete_dispatched")]%string.

Record renewal_inv (s : SpendingRenewalSnapshot) : Prop := {
  ri_phase : forall k e, rs_Events s !! k = Some e -> re_Phase e = k /\ validateSpendingRenewalEvent e = Ok tt;
  ri_chain : Forall (fun '(a, b) => follows s a b) renewal_chain;
  ri_final : forall e, revents s "final_authorized" = Some e ->
    exists r, revents s "register_result" = Some r /\ re_Outcome r = str "registered";
  ri_exclusive : revents s "final_dispatched" = None \/ revents s "delete_authorized" = None;
}.

(** Evaluate the tests on literal phases. *)
Ltac eval_phases H :=
  repeat match type of H with
  | context [phase_in (str ?a) ?l] =>
      let b := eval vm_compute in (phase_in (str a) l) in change (phase_in (str a) l) with b in H
  | context [bool_decide (str ?a = str ?b)] =>
      let r := eval vm_compute in (bool_decide (str a = str b)) in
      change (bool_decide (str a = str b)) with r in H
  end; cbv iota zeta in H; cbn [andb orb negb] in H.

Lemma phase_in_1 p l : phase_in p [l] = true <-> p = str l.
Proof. unfold phase_in. simpl. rewrite orb_false_r. by rewrite bool_decide_eq_true. Qed.

Lemma phase_in_2 p l1 l2 : phase_in p [l1; l2] = true <-> p = str l1 \/ p = str l2.
Proof. unfold phase_in. simpl. rewrite orb_false_r, orb_true_iff. by rewrite !bool_decide_eq_true. Qed.

Lemma follows_insert s e a b :
  follows s a b -> rs_Events s !! re_Phase e = None -> str a <> str b ->
  (re_Phase e = str a -> exists eb, revents s b = Some eb /\ re_RequestDigest eb = re_RequestDigest e) ->
  follows (add_renewal_event s e) a b.
Proof.
  unfold follows, revents. intros Hf Hn Hab Hnew ea Ha. cbn [rs_Events add_renewal_event] in *.
  destruct (decide (re_Phase e = str b)) as [Eb|Eb].
  - rewrite lookup_insert_ne in Ha by congruence. apply Hf in Ha as (eb & Hb & _). congruence.
  - rewrite (lookup_insert_ne _ _ (str b)) by done.
    destruct (decide (re_Phase e = str a)) as [Ea|Ea].
    + rewrite Ea, lookup_insert_eq in Ha. injection Ha as <-. auto.
    + rewrite lookup_insert_ne in Ha by done. auto.
Qed.

Lemma require_phase_Ok s phase u :
  require_phase s phase = Ok u -> exists eb, revents s phase = Some eb /\ revent s phase = eb.
Proof.
  unfold require_phase, has_event, revent, revents. rewrite fail_if_Ok.
  destruct (rs_Events s !! str phase); [eauto|done].
Qed.

(** The guards of the successful transitions, phase by phase. *)
Lemma transition_prior s e now a b :
  validateRenewalTransition s e now = Ok tt -> re_Phase e = str a -> In (a, b) renewal_chain ->
  exists eb, revents s b = Some eb /\ re_RequestDigest eb = re_RequestDigest e.
Proof.
  intros H Ep Hin. unfold validateRenewalTransition in H. apply bind_Ok in H as (_ & _ & H).
  rewrite Ep in H. unfold renewal_chain in Hin.
  repeat (destruct Hin as [Hin|Hin]; [injection Hin as <- <-; eval_phases H; inv_ok;
    match goal with R : require_phase _ _ = Ok _ |- _ => apply require_phase_Ok in R as (eb & R & Rv) end;
    exists eb; split; [done|]; rewrite Rv in *; bool_hyps; congruence|]).
  destruct Hin.
Qed.

Lemma transition_final s e now :
  validateRenewalTransition s e now = Ok tt -> re_Phase e = str "final_authorized" ->
  exists r, revents s "register_result" = Some r /\ re_Outcome r = str "registered".
Proof.
  intros H Ep. unfold validateRenewalTransition in H. apply bind_Ok in H as (_ & _ & H).
  rewrite Ep in H. eval_phases H. inv_ok. bool_hyps.
  unfold revent, revents in *. destruct (rs_Events s !! str "register_result"); [eauto|done].
Qed.

Lemma transition_exclusive s e now :
  renewal_inv s -> validateRenewalTransition s e now = Ok tt ->
  (re_Phase e = str "final_dispatched" -> revents s "delete_authorized" = None) /\
  (re_Phase e = str "delete_authorized" -> revents s "final_dispatched" = None).
Proof.
  intros Hi H. unfold validateRenewalTransition in H. apply bind_Ok in H as (_ & _ & H).
  assert (forall k e', revents s k = Some e' -> str k <> [] -> (re_Phase (revent s k) == []) = false) as Hp.
  { intros k e' Hk Hne. unfold revent, revents in *. rewrite Hk. cbn.
    apply bool_decide_eq_false_2. destruct (ri_phase _ Hi _ _ Hk) as [-> _]. done. }
  split; intros Ep; rewrite Ep in H; eval_phases H; inv_ok.
  - destruct (revents s "delete_authorized") as [d|] eqn:Ed; [|done]. exfalso.
    rewrite (Hp "delete_authorized" d) in E by done. cbn in E. rewrite orb_true_r in E. discriminate E.
  - destruct (revents s "final_dispatched") as [f|] eqn:Ed; [|done]. exfalso.
    pose proof (ri_chain _ Hi) as Hc. rewrite Forall_forall in Hc.
    destruct (Hc ("final_dispatched", "final_authorized")%string ltac:(repeat constructor) f Ed) as (a & Ea & _).
    rewrite (Hp "final_authorized" a), (Hp "final_dispatched" f) in E0 by done.
    cbn in E0. rewrite orb_true_r in E0. discriminate E0.
Qed.

Lemma renewal_chain_distinct a b : In (a, b) renewal_chain -> str a <> str b.
Proof.
  unfold renewal_chain. intros H.
  repeat (destruct H as [H|H]; [injection H as <- <-; vm_compute; congruence|]). destruct H.
Qed.

Lemma renewal_inv_step s s' : renewal_inv s -> renewal_step s s' -> renewal_inv s'.
Proof.
  intros Hi [e now Hn Hid Hv Ht]. destruct (transition_exclusive s e now Hi Ht) as [X1 X2].
  constructor.
  - intros k e'. cbn. destruct (decide (re_Phase e = k)) as [<-|Hk].
    + rewrite lookup_insert_eq. by intros [= <-].
    + rewrite lookup_insert_ne by done. apply (ri_phase _ Hi).
  - pose proof (ri_chain _ Hi) as Hc. rewrite Forall_forall in Hc |- *. intros [a b] Hin.
    apply follows_insert; [by apply (Hc (a, b))|done|apply renewal_chain_distinct; by apply list_elem_of_In|].
    intros Ep. eapply transition_prior; eauto. by apply list_elem_of_In.
  - intros e'. unfold revents. cbn [rs_Events add_renewal_event].
    destruct (decide (re_Phase e = str "final_authorized")) as [Ep|Ep].
    + intros _. rewrite lookup_insert_ne by (rewrite Ep; vm_compute; congruence).
      by eapply transition_final.
    + rewrite lookup_insert_ne by done. intros He. destruct (ri_final _ Hi _ He) as (r & Hr & Ho).
      exists r. split; [|done]. rewrite lookup_insert_ne; [done|]. unfold revents in Hr. congruence.
  - unfold revents. cbn [rs_Events add_renewal_event].
    destruct (decide (re_Phase e = str "final_dispatched")) as [E1|E1].
    { right. rewrite lookup_insert_ne by (rewrite E1; vm_compute; congruence). by apply X1. }
    destruct (decide (re_Phase e = str "delete_authorized")) as [E2|E2].
    { left. rewrite lookup_insert_ne by (rewrite E2; vm_compute; congruence). by apply X2. }
    rewrite !lookup_insert_ne by done. apply (ri_exclusive _ Hi).
Qed.

Lemma renewal_inv_init op : renewal_inv (Build_SpendingRenewalSnapshot op ∅).
Proof.
  constructor; unfold revents, follows; cbn; [by intros ??|..]; auto; [|done].
  apply Forall_forall. intros [a b] _ ea. cbn. done.
Qed.

Lemma renewal_reachable_inv op s : renewal_reachable op s -> renewal_inv s.
Proof. induction 1; eauto using renewal_inv_init, renewal_inv_step. Qed.

(** ** Rows read back *)
Definition ro_encodable (r : SpendingRenewalOperation) : Prop :=
  Forall (fun s => utf8_valid s = true)
    [ro_OperationID r; ro_VaultID r; ro_InputTxid r; ro_PlanDigest r; ro_Plan r; ro_ExpiresAt r;
     ro_CreatedAt r; ro_Kind r] /\
  is_uint32 (ro_InputVout r) /\ is_int64 (ro_FeeSats r) /\ is_int64 (ro_AmountSats r).

Definition re_encodable (e : SpendingRenewalEvent) : Prop :=
  Forall (fun s => utf8_valid s = true)
    [re_OperationID e; re_Phase e; re_RequestDigest e; re_Outcome e; re_OperatorRef e; re_Evidence e;
     re_CreatedAt e].

Lemma field_fits_str name omit s : utf8_valid s = true -> field_fits (jf name KStr omit) (SStr s).
Proof. by intros H. Qed.

Lemma field_fits_int name lo hi omit z :
  lo <= z <= hi -> -9223372036854775808 <= z <= max_uint64 -> field_fits (jf name (KInt lo hi) omit) (SInt z).
Proof. by intros H. Qed.

Lemma unmarshal_marshal_renewal r :
  ro_encodable r -> unmarshal_renewal (marshal_renewal r) = Some r.
Proof.
  intros (Hs & Hv & Hf & Ha). unfold unmarshal_renewal, marshal_renewal.
  repeat (apply Forall_cons in Hs as [? Hs]).
  unfold is_uint32, is_int64, max_uint32, max_int64 in *.
  rewrite unmarshal_marshal; [by destruct r|vm_compute; reflexivity|].
  repeat apply Forall2_cons_2; try apply Forall2_nil_2;
    first [by apply field_fits_str | apply field_fits_int; unfold max_uint32, max_int64, max_uint64; lia].
Qed.

Lemma unmarshal_marshal_renewal_event e :
  re_encodable e -> unmarshal_renewal_event (marshal_renewal_event e) = Some e.
Proof.
  intros Hs. unfold unmarshal_renewal_event, marshal_renewal_event.
  repeat (apply Forall_cons in Hs as [? Hs]).
  rewrite unmarshal_marshal; [by destruct e|vm_compute; reflexivity|].
  repeat apply Forall2_cons_2; try apply Forall2_nil_2; by apply field_fits_str.
Qed.

(** ** At most one outcome *)
Definition renewal_outcomes (s : SpendingRenewalSnapshot) : Z :=
  Z.b2z (has_event s "confirmed") + Z.b2z (has_event s "released") + Z.b2z (has_event s "cancelled")
  + Z.b2z (re_Outcome (revent s "register_result") == str "rejected").

Lemma has_event_insert s e k :
  has_event (add_renewal_event s e) k = (re_Phase e == str k) || has_event s k.
Proof.
  unfold has_event. cbn. case_bool_decide as E.
  - by rewrite E, lookup_insert_eq.
  - by rewrite lookup_insert_ne.
Qed.

Lemma revent_insert s e k :
  revent (add_renewal_event s e) k = if re_Phase e == str k then e else revent s k.
Proof.
  unfold revent. cbn. case_bool_decide as E.
  - by rewrite E, lookup_insert_eq.
  - by rewrite lookup_insert_ne.
Qed.

Lemma outcomes_step s s' : renewal_step s s' -> renewal_outcomes s' <= 1.
Proof.
  intros [e now Hn Hid Hv Ht]. unfold validateRenewalTransition in Ht.
  apply bind_Ok in Ht as (? & Ht & _). apply fail_if_Ok in Ht. unfold renewalTerminal in Ht.
  apply orb_false_split in Ht as [Ht H4]. apply orb_false_split in Ht as [Ht H3].
  apply orb_false_split in Ht as [H1 H2].
  unfold renewal_outcomes. rewrite !has_event_insert, revent_insert, H1, H2, H3, !orb_false_r.
  destruct (bool_decide (re_Phase e = str "register_result")) eqn:Er; [|rewrite H4];
    repeat case_bool_decide; cbn; try lia; bool_hyps; exfalso;
    match goal with X : re_Phase e = str ?a, Y : re_Phase e = str ?b |- _ =>
      rewrite X in Y; vm_compute in Y; discriminate Y end.
Qed.

(** ** Claims *)

(** C7: on every journal the ledger can write, a payment whose forfeit was
    dispatched is never also being deleted; each dispatch and result repeats
    the request digest of the phase it answers; and the forfeit is authorised
    only for a registration the operator accepted. *)
Theorem renewal_dispatch_exclusive op s :
  renewal_reachable op s ->
  (revents s "final_dispatched" = None \/ revents s "delete_authorized" = None) /\
  Forall (fun '(a, b) => follows s a b) renewal_chain /\
  (forall e, revents s "final_authorized" = Some e ->
   exists r, revents s "register_result" = Some r /\ re_Outcome r = str "registered").
Proof. intros H. destruct (renewal_reachable_inv _ _ H). auto. Qed.

(** a journal records at most one outcome (confirmed, released, cancelled
    or rejected), and once it has one no further event can be appended. *)
Theorem renewal_one_outcome op s :
  renewal_reachable op s ->
  renewal_outcomes s <= 1 /\
  (renewalTerminal s = true -> forall e now, validateRenewalTransition s e now = Err (ErrMsg "Light renewal already terminal")).
Proof.
  intros H. split.
  - destruct H as [|s s' H Hs]; [by vm_compute|]. by eapply outcomes_step.
  - intros Ht e now. unfold validateRenewalTransition. by rewrite Ht.
Qed.

Definition demo_hex (n : nat) (c : byte) : bytes := hex_encode (repeat c n).
Definition demo_renewal : SpendingRenewalOperation := {|
  ro_OperationID := demo_hex 16 Byte.x01; ro_VaultID := str "vault-1"; ro_InputTxid := demo_hex 32 Byte.x02;
  ro_InputVout := 1; ro_FeeSats := 200; ro_PlanDigest := demo_hex 32 Byte.x03;
  ro_Plan := jtext "{'changeSats':400}"; ro_ExpiresAt := str "2026-01-01T00:05:00Z";
  ro_CreatedAt := str "2026-01-01T00:00:00Z"; ro_Kind := SpendingBitcoinBatchKind; ro_AmountSats := 10000 |}.
Definition demo_renewal_event (phase : string) (outcome ref evidence : bytes) : SpendingRenewalEvent :=
  Build_SpendingRenewalEvent (demo_hex 16 Byte.x01) (str phase) (demo_hex 32 Byte.x04) outcome ref evidence
    (str "2026-01-01T00:01:00Z").
Definition demo_now : Z := default 0 (parse_rfc3339 (str "2026-01-01T00:01:00Z")).
Definition demo_registered : SpendingRenewalSnapshot :=
  add_renewal_event (add_renewal_event (Build_SpendingRenewalSnapshot demo_renewal ∅)
    (demo_renewal_event "register_authorized" [] [] (jtext "{}")))
    (demo_renewal_event "register_dispatched" [] [] []).

Lemma demo_registered_reachable : renewal_reachable demo_renewal demo_registered.
Proof.
  eapply RenewalNext; [eapply RenewalNext; [apply RenewalInit|]|];
    eapply RenewalStep with (now := demo_now); vm_compute; reflexivity.
Qed.

Lemma renewal_dispatch_exclusive_witness : follows demo_registered "register_dispatched" "register_authorized".
Proof.
  destruct (renewal_dispatch_exclusive demo_renewal demo_registered demo_registered_reachable) as (_ & H & _).
  rewrite Forall_forall in H.
  apply (H ("register_dispatched", "register_authorized")%string). repeat constructor.
Defined.

Lemma renewal_one_outcome_witness : renewal_outcomes demo_registered <= 1.
Proof. apply (renewal_one_outcome demo_renewal demo_registered demo_registered_reachable). Defined.

(** the JSON row of an operation and of an event decodes to exactly the
    record that was encoded, for records whose text is valid UTF-8. *)
Theorem renewal_row_roundtrip r e :
  ro_encodable r -> re_encodable e ->
  unmarshal_renewal (marshal_renewal r) = Some r /\
  unmarshal_renewal_event (marshal_renewal_event e) = Some e.
Proof. auto using unmarshal_marshal_renewal, unmarshal_marshal_renewal_event. Qed.

Lemma renewal_row_roundtrip_witness :
  unmarshal_renewal (marshal_renewal demo_renewal) = Some demo_renewal.
Proof.
  apply (renewal_row_roundtrip demo_renewal (demo_renewal_event "cancelled" [] [] []));
    repeat constructor; vm_compute; congruence.
Defined.
