(* ===== verification/Board.v ===== *)
(** Boarding deposits: the records of [internal/policy/vault_board.go] and
    [vault_board_conflict.go], their canonical encodings and MACs, and the
    checks that depend on the records alone.  The transactions are in
    [BoardLedger].

    Bitcoin transactions are parsed by btcd's [wire] package, which is not part
    of the program: [Wire] is its interface, a parameter of everything that
    reads a conflict record. *)
From Stdlib Require Import Strings.Byte.
From S2P Require Import Prelude Sha256 Text Base64 GoTime Json Program Vtxo Renewal.
From S2P Require Export Psbt.

(** ** The transaction parser *)

Record MsgTx := {
  tx_TxHash : bytes;              (* tx.TxHash().String() *)
  tx_TxIn : list OutPoint;        (* the PreviousOutPoint of each input *)
  tx_HasWitness : bool;
}.

(** [tx.Deserialize(r)]: the transaction and what the reader has left. *)
Class Wire := { wire_Deserialize : bytes -> option (MsgTx * bytes) }.

(** ** Constants *)
Definition VaultBoardPhaseRegister : bytes := str "register".
Definition VaultBoardPhaseDelete : bytes := str "delete".
Definition VaultBoardPhaseFinalize : bytes := str "finalize".
Definition VaultBoardAuthSubmitted : bytes := str "submitted".
Definition VaultBoardAuthReleased : bytes := str "released".
Definition VaultBoardAuthRejected : bytes := str "rejected".

Definition vaultBoardEnrollmentMACDomain : bytes := str "arkade-vault/vault-board-v1-enrollment/v1".
Definition vaultBoardOperationMACDomain : bytes := str "arkade-vault/vault-board-v1-operation/v1".
Definition vaultBoardAuthorizationDomain : bytes := str "arkade-vault/vault-board-v1-authorization/v1".
Definition vaultBoardDispatchMACDomain : bytes := str "arkade-vault/vault-board-v1-dispatch/v1".
Definition vaultBoardSubmissionMACDomain : bytes := str "arkade-vault/vault-board-v1-submission/v1".
Definition vaultBoardOperationIDDomain : string := "arkade-vault/vault-board-v1-operation-id/v1".
Definition vaultBoardConflictMACDomain : bytes := str "arkade-vault/vault-board-v1-conflict/v1".
Definition vaultBoardCanonicalVersion : Z := 1.
Definition MaxVaultBoardOperatorRefBytes : Z := 256.
Definition vaultBoardRegisterQuarantine : Z := 30 * second.

Definition VaultBoardRegisterCanSupersede (expireAt now : Z) : bool :=
  let quarantineSeconds := vaultBoardRegisterQuarantine / second in
  let nowUnix := unix now in
  (0 <? expireAt) && (quarantineSeconds <=? nowUnix) && (expireAt <=? nowUnix - quarantineSeconds).

(** ** Records *)
Record VaultBoardEnrollment := {
  vbe_VaultID : bytes; vbe_Program : bytes; vbe_BoardingPub : bytes; vbe_CosignerPub : bytes;
  vbe_OperatorPub : bytes; vbe_ExitDelay : Z; vbe_ExitDelayUnit : bytes; vbe_PkScript : bytes;
  vbe_Address : bytes; vbe_IntegrityMAC : bytes;
}.

Record VaultBoardOperation := {
  vbo_OperationID : bytes; vbo_VaultID : bytes; vbo_Txid : bytes; vbo_Vout : Z; vbo_ValueSats : Z;
  vbo_BoardingScript : bytes; vbo_ReceiverScript : bytes; vbo_SequenceAnchorMTP : Z;
  vbo_CreatedAt : bytes; vbo_IntegrityMAC : bytes;
}.

Record VaultBoardChainState := { vbch_TipMTP : Z; vbch_ConflictChecks : list bytes }.

Record VaultBoardAuthorization := {
  vba_OperationID : bytes; vba_Attempt : Z; vba_Phase : bytes; vba_RequestDigest : bytes;
  vba_TreeSessionPub : bytes; vba_ReceiverSats : Z; vba_FeeSats : Z; vba_ExpireAt : Z;
  vba_CommitmentTxid : bytes; vba_ReceiverTxid : bytes; vba_ReceiverVout : Z;
  vba_CreatedAt : bytes; vba_IntegrityMAC : bytes;
}.

Record VaultBoardSubmission := {
  vbs_OperationID : bytes; vbs_Attempt : Z; vbs_Phase : bytes; vbs_RequestDigest : bytes;
  vbs_Outcome : bytes; vbs_OperatorRef : bytes; vbs_CommitmentTxid : bytes; vbs_ReceiverTxid : bytes;
  vbs_ReceiverVout : Z; vbs_CreatedAt : bytes; vbs_IntegrityMAC : bytes;
}.

Record VaultBoardDispatch := {
  vbd_OperationID : bytes; vbd_Attempt : Z; vbd_Phase : bytes; vbd_RequestDigest : bytes;
  vbd_CreatedAt : bytes; vbd_IntegrityMAC : bytes;
}.

Record VaultBoardRegisterRequest := {
  vbr_RequestDigest : bytes; vbr_TreeSessionPub : bytes; vbr_ReceiverSats : Z; vbr_FeeSats : Z;
  vbr_ExpireAt : Z;
}.

(** [RequestDigest] is kept as a Go slice, which may be nil: the record goes
    through [encoding/json]. *)
Record VaultBoardConflict := {
  vbc_OperationID : bytes; vbc_Attempt : Z; vbc_RequestDigest : option bytes; vbc_CommitmentRaw : bytes;
  vbc_Evidence : BitcoinConflictEvidence; vbc_CreatedAt : bytes; vbc_IntegrityMAC : bytes;
}.

Record VaultBoardAttemptSnapshot := {
  snap_Operation : VaultBoardOperation;
  snap_Register : VaultBoardAuthorization;
  snap_RegisterDispatch : option VaultBoardDispatch;
  snap_RegisterSubmission : option VaultBoardSubmission;
  snap_DeleteAuthorization : option VaultBoardAuthorization;
  snap_DeleteDispatch : option VaultBoardDispatch;
  snap_DeleteSubmission : option VaultBoardSubmission;
  snap_FinalAuthorization : option VaultBoardAuthorization;
  snap_FinalDispatch : option VaultBoardDispatch;
  snap_FinalSubmission : option VaultBoardSubmission;
  snap_Conflicts : list VaultBoardConflict;
}.

(** A Go byte slice whose nil-ness matters only to JSON. *)
Definition slice_bytes (s : option bytes) : bytes := default [] s.

(** Field updates. *)
Definition vbe_set_MAC (m : bytes) (r : VaultBoardEnrollment) : VaultBoardEnrollment :=
  Build_VaultBoardEnrollment (vbe_VaultID r) (vbe_Program r) (vbe_BoardingPub r) (vbe_CosignerPub r)
    (vbe_OperatorPub r) (vbe_ExitDelay r) (vbe_ExitDelayUnit r) (vbe_PkScript r) (vbe_Address r) m.
Definition vbo_set (id created mac : bytes) (r : VaultBoardOperation) : VaultBoardOperation :=
  Build_VaultBoardOperation id (vbo_VaultID r) (vbo_Txid r) (vbo_Vout r) (vbo_ValueSats r)
    (vbo_BoardingScript r) (vbo_ReceiverScript r) (vbo_SequenceAnchorMTP r) created mac.
Definition vba_set (created mac : bytes) (r : VaultBoardAuthorization) : VaultBoardAuthorization :=
  Build_VaultBoardAuthorization (vba_OperationID r) (vba_Attempt r) (vba_Phase r) (vba_RequestDigest r)
    (vba_TreeSessionPub r) (vba_ReceiverSats r) (vba_FeeSats r) (vba_ExpireAt r) (vba_CommitmentTxid r)
    (vba_ReceiverTxid r) (vba_ReceiverVout r) created mac.
Definition vbs_set (created mac : bytes) (r : VaultBoardSubmission) : VaultBoardSubmission :=
  Build_VaultBoardSubmission (vbs_OperationID r) (vbs_Attempt r) (vbs_Phase r) (vbs_RequestDigest r)
    (vbs_Outcome r) (vbs_OperatorRef r) (vbs_CommitmentTxid r) (vbs_ReceiverTxid r) (vbs_ReceiverVout r)
    created mac.
Definition vbd_set (created mac : bytes) (r : VaultBoardDispatch) : VaultBoardDispatch :=
  Build_VaultBoardDispatch (vbd_OperationID r) (vbd_Attempt r) (vbd_Phase r) (vbd_RequestDigest r) created mac.
Definition vbc_set (created mac : bytes) (r : VaultBoardConflict) : VaultBoardConflict :=
  Build_VaultBoardConflict (vbc_OperationID r) (vbc_Attempt r) (vbc_RequestDigest r) (vbc_CommitmentRaw r)
    (vbc_Evidence r) created mac.

#[global] Instance VaultBoardEnrollment_eq_dec : EqDecision VaultBoardEnrollment.
Proof. solve_decision. Defined.
#[global] Instance VaultBoardOperation_eq_dec : EqDecision VaultBoardOperation.
Proof. solve_decision. Defined.
#[global] Instance VaultBoardAuthorization_eq_dec : EqDecision VaultBoardAuthorization.
Proof. solve_decision. Defined.
#[global] Instance VaultBoardSubmission_eq_dec : EqDecision VaultBoardSubmission.
Proof. solve_decision. Defined.
#[global] Instance VaultBoardDispatch_eq_dec : EqDecision VaultBoardDispatch.
Proof. solve_decision. Defined.

(** ** Canonical encodings *)
Definition boardCanonical (domain : bytes) (fields : list bytes) : result bytes :=
  out ← appendCredentialField [] domain;
  appendCredentialFields (out ++ le32 vaultBoardCanonicalVersion) fields.

Definition canonicalVaultBoardEnrollment (rec : VaultBoardEnrollment) : result bytes :=
  _ ← fail_if ((vbe_VaultID rec == []) || (vbe_Program rec != str "vault-board-v1")
               || negb (blen (vbe_BoardingPub rec) =? 33) || negb (blen (vbe_CosignerPub rec) =? 33)
               || negb (blen (vbe_OperatorPub rec) =? 33) || negb (blen (vbe_PkScript rec) =? 34)
               || (vbe_Address rec == []) || (vbe_ExitDelay rec =? 0) || (vbe_ExitDelayUnit rec == []))
        (ErrMsg "invalid vault-board-v1 enrollment");
  out ← boardCanonical vaultBoardEnrollmentMACDomain
    [vbe_VaultID rec; vbe_Program rec; vbe_BoardingPub rec; vbe_CosignerPub rec; vbe_OperatorPub rec;
     vbe_ExitDelayUnit rec; vbe_PkScript rec; vbe_Address rec];
  Ok (out ++ le32 (vbe_ExitDelay rec)).

Definition ComputeVaultBoardOperationID (vaultID txid : bytes) (vout : Z) : result bytes :=
  _ ← fail_if ((vaultID == []) || negb (blen txid =? 32)) (ErrMsg "vault-board-v1 outpoint required");
  payload ← boardCanonical (str vaultBoardOperationIDDomain) [vaultID; txid];
  Ok (hex_encode (taggedSHA256 vaultBoardOperationIDDomain (payload ++ le32 vout))).

Definition canonicalVaultBoardOperation (rec : VaultBoardOperation) : result bytes :=
  _ ← fail_if ((vbo_OperationID rec == []) || (vbo_VaultID rec == []) || negb (blen (vbo_Txid rec) =? 32)
               || (vbo_ValueSats rec <=? 0) || negb (blen (vbo_BoardingScript rec) =? 34)
               || (blen (vbo_ReceiverScript rec) =? 0) || (vbo_SequenceAnchorMTP rec <=? 0)
               || (vbo_CreatedAt rec == []))
        (ErrMsg "invalid vault-board-v1 operation");
  _ ← match ComputeVaultBoardOperationID (vbo_VaultID rec) (vbo_Txid rec) (vbo_Vout rec) with
      | Ok wantID => fail_if (vbo_OperationID rec != wantID) (ErrMsg "vault-board-v1 operation id mismatch")
      | Err _ => Err (ErrMsg "vault-board-v1 operation id mismatch")
      end;
  out ← boardCanonical vaultBoardOperationMACDomain
    [vbo_OperationID rec; vbo_VaultID rec; vbo_Txid rec; vbo_BoardingScript rec; vbo_ReceiverScript rec;
     vbo_CreatedAt rec];
  Ok (out ++ le32 (vbo_Vout rec) ++ le64 (vbo_ValueSats rec) ++ le64 (vbo_SequenceAnchorMTP rec)).

(** [canonicalVtxoTxid] accepts the text and returns it unchanged. *)
Definition canonical_txid_text (txid : bytes) : bool :=
  match canonicalVtxoTxid txid with
  | Ok (canon, _) => txid == canon
  | Err _ => false
  end.

Definition canonicalVaultBoardAuthorization (rec : VaultBoardAuthorization) : result bytes :=
  _ ← fail_if ((vba_OperationID rec == []) || negb (blen (vba_RequestDigest rec) =? sha256_Size)
               || (vba_CreatedAt rec == []))
        (ErrMsg "invalid vault-board-v1 authorization");
  let no_outpoint := negb ((vba_CommitmentTxid rec != []) || (vba_ReceiverTxid rec != [])
                           || negb (vba_ReceiverVout rec =? 0)) in
  _ ← (if vba_Phase rec == VaultBoardPhaseRegister then
         fail_if ((vba_ExpireAt rec <=? 0) || negb (blen (vba_TreeSessionPub rec) =? 33)
                  || (vba_ReceiverSats rec <=? 0) || (vba_FeeSats rec <? 0)
                  || (max_int64 - vba_FeeSats rec <? vba_ReceiverSats rec) || negb no_outpoint)
           (ErrMsg "vault-board-v1 register attempt fields required")
       else if vba_Phase rec == VaultBoardPhaseFinalize then
         fail_if (negb (vba_ExpireAt rec =? 0) || negb (blen (vba_TreeSessionPub rec) =? 0)
                  || negb (vba_ReceiverSats rec =? 0) || negb (vba_FeeSats rec =? 0)
                  || negb (canonical_txid_text (vba_CommitmentTxid rec))
                  || negb (canonical_txid_text (vba_ReceiverTxid rec)))
           (ErrMsg "vault-board-v1 finalize fields")
       else if vba_Phase rec == VaultBoardPhaseDelete then
         fail_if ((vba_ExpireAt rec <=? 0) || negb (blen (vba_TreeSessionPub rec) =? 0)
                  || negb (vba_ReceiverSats rec =? 0) || negb (vba_FeeSats rec =? 0) || negb no_outpoint)
           (ErrMsg "vault-board-v1 delete fields")
       else Err (ErrMsg "invalid vault-board-v1 phase"));
  out ← boardCanonical vaultBoardAuthorizationDomain
    [vba_OperationID rec; vba_Phase rec; vba_RequestDigest rec; vba_TreeSessionPub rec;
     vba_CommitmentTxid rec; vba_ReceiverTxid rec; vba_CreatedAt rec];
  Ok (out ++ le32 (vba_Attempt rec) ++ le64 (wrap64 (vba_ReceiverSats rec)) ++ le64 (wrap64 (vba_FeeSats rec))
      ++ le64 (wrap64 (vba_ExpireAt rec)) ++ le32 (vba_ReceiverVout rec)).

Definition canonicalVaultBoardSubmission (rec : VaultBoardSubmission) : result bytes :=
  _ ← fail_if ((vbs_OperationID rec == []) || negb (blen (vbs_RequestDigest rec) =? sha256_Size)
               || (vbs_CreatedAt rec == []) || (MaxVaultBoardOperatorRefBytes <? blen (vbs_OperatorRef rec)))
        (ErrMsg "invalid vault-board-v1 submission");
  let no_outpoint := negb ((vbs_CommitmentTxid rec != []) || (vbs_ReceiverTxid rec != [])
                           || negb (vbs_ReceiverVout rec =? 0)) in
  _ ← (if vbs_Phase rec == VaultBoardPhaseRegister then
         let validSubmitted := (vbs_Outcome rec == VaultBoardAuthSubmitted) && (vbs_OperatorRef rec != []) in
         let validRejected := (vbs_Outcome rec == VaultBoardAuthRejected) && (vbs_OperatorRef rec == []) in
         fail_if ((negb validSubmitted && negb validRejected) || negb no_outpoint)
           (ErrMsg "vault-board-v1 intent id required")
       else if vbs_Phase rec == VaultBoardPhaseDelete then
         fail_if ((vbs_Outcome rec != VaultBoardAuthReleased) || (vbs_OperatorRef rec != []) || negb no_outpoint)
           (ErrMsg "vault-board-v1 delete result")
       else if vbs_Phase rec == VaultBoardPhaseFinalize then
         fail_if ((vbs_Outcome rec != VaultBoardAuthSubmitted) || (vbs_OperatorRef rec != [])
                  || negb (canonical_txid_text (vbs_CommitmentTxid rec))
                  || negb (canonical_txid_text (vbs_ReceiverTxid rec)))
           (ErrMsg "vault-board-v1 finalize result")
       else Err (ErrMsg "invalid vault-board-v1 phase"));
  out ← boardCanonical vaultBoardSubmissionMACDomain
    [vbs_OperationID rec; vbs_Phase rec; vbs_RequestDigest rec; vbs_Outcome rec; vbs_OperatorRef rec;
     vbs_CommitmentTxid rec; vbs_ReceiverTxid rec; vbs_CreatedAt rec];
  Ok (out ++ le32 (vbs_Attempt rec) ++ le32 (vbs_ReceiverVout rec)).

Definition canonicalVaultBoardDispatch (rec : VaultBoardDispatch) : result bytes :=
  _ ← fail_if ((vbd_OperationID rec == []) || negb (blen (vbd_RequestDigest rec) =? sha256_Size)
               || (vbd_CreatedAt rec == []))
        (ErrMsg "invalid vault-board-v1 dispatch");
  _ ← fail_if (negb ((vbd_Phase rec == VaultBoardPhaseRegister) || (vbd_Phase rec == VaultBoardPhaseDelete)
                     || (vbd_Phase rec == VaultBoardPhaseFinalize)))
        (ErrMsg "invalid vault-board-v1 phase");
  out ← boardCanonical vaultBoardDispatchMACDomain
    [vbd_OperationID rec; vbd_Phase rec; vbd_RequestDigest rec; vbd_CreatedAt rec];
  Ok (out ++ le32 (vbd_Attempt rec)).

(** ** MACs: one pair of functions, generic in the canonicalizer *)
Definition vaultBoardMAC {T} (canonical : T -> result bytes) (rec : T) (key : bytes) : result bytes :=
  _ ← fail_if (negb (blen key =? sha256_Size)) (ErrMsg "vault-board-v1 integrity key");
  payload ← canonical rec;
  Ok (hmac_sha256 key payload).

Definition verifyVaultBoardMAC {T} (canonical : T -> result bytes) (rec : T) (got key : bytes) : result unit :=
  _ ← fail_if (negb (blen got =? sha256_Size)) (ErrMsg "vault-board-v1 %s integrity MAC missing or malformed");
  want ← vaultBoardMAC canonical rec key;
  fail_if (negb (hmac_Equal got want)) (ErrMsg "vault-board-v1 %s integrity MAC mismatch").

Definition SealVaultBoardEnrollment (rec : VaultBoardEnrollment) (key : bytes) : result VaultBoardEnrollment :=
  mac ← vaultBoardMAC canonicalVaultBoardEnrollment rec key; Ok (vbe_set_MAC mac rec).
Definition VerifyVaultBoardEnrollment (rec : VaultBoardEnrollment) (key : bytes) : result unit :=
  verifyVaultBoardMAC canonicalVaultBoardEnrollment rec (vbe_IntegrityMAC rec) key.
Definition SealVaultBoardOperation (rec : VaultBoardOperation) (key : bytes) : result VaultBoardOperation :=
  mac ← vaultBoardMAC canonicalVaultBoardOperation rec key;
  Ok (vbo_set (vbo_OperationID rec) (vbo_CreatedAt rec) mac rec).
Definition VerifyVaultBoardOperation (rec : VaultBoardOperation) (key : bytes) : result unit :=
  verifyVaultBoardMAC canonicalVaultBoardOperation rec (vbo_IntegrityMAC rec) key.
Definition SealVaultBoardAuthorization (rec : VaultBoardAuthorization) (key : bytes)
  : result VaultBoardAuthorization :=
  mac ← vaultBoardMAC canonicalVaultBoardAuthorization rec key; Ok (vba_set (vba_CreatedAt rec) mac rec).
Definition VerifyVaultBoardAuthorization (rec : VaultBoardAuthorization) (key : bytes) : result unit :=
  verifyVaultBoardMAC canonicalVaultBoardAuthorization rec (vba_IntegrityMAC rec) key.
Definition SealVaultBoardDispatch (rec : VaultBoardDispatch) (key : bytes) : result VaultBoardDispatch :=
  mac ← vaultBoardMAC canonicalVaultBoardDispatch rec key; Ok (vbd_set (vbd_CreatedAt rec) mac rec).
Definition VerifyVaultBoardDispatch (rec : VaultBoardDispatch) (key : bytes) : result unit :=
  verifyVaultBoardMAC canonicalVaultBoardDispatch rec (vbd_IntegrityMAC rec) key.
Definition SealVaultBoardSubmission (rec : VaultBoardSubmission) (key : bytes) : result VaultBoardSubmission :=
  mac ← vaultBoardMAC canonicalVaultBoardSubmission rec key; Ok (vbs_set (vbs_CreatedAt rec) mac rec).
Definition VerifyVaultBoardSubmission (rec : VaultBoardSubmission) (key : bytes) : result unit :=
  verifyVaultBoardMAC canonicalVaultBoardSubmission rec (vbs_IntegrityMAC rec) key.

(** ** Comparisons *)
Definition sameVaultBoardOperationFacts (stored proposed : VaultBoardOperation) : bool :=
  (vbo_OperationID stored == vbo_OperationID proposed) && (vbo_VaultID stored == vbo_VaultID proposed)
  && (vbo_Txid stored == vbo_Txid proposed) && (vbo_Vout stored =? vbo_Vout proposed)
  && (vbo_ValueSats stored =? vbo_ValueSats proposed) && (vbo_BoardingScript stored == vbo_BoardingScript proposed)
  && (vbo_ReceiverScript stored == vbo_ReceiverScript proposed)
  && (vbo_SequenceAnchorMTP stored =? vbo_SequenceAnchorMTP proposed).

Definition sameVaultBoardAuthorizationRequest (stored proposed : VaultBoardAuthorization) : bool :=
  (vba_OperationID stored == vba_OperationID proposed) && (vba_Attempt stored =? vba_Attempt proposed)
  && (vba_Phase stored == vba_Phase proposed) && (vba_RequestDigest stored == vba_RequestDigest proposed)
  && (vba_TreeSessionPub stored == vba_TreeSessionPub proposed)
  && (vba_ReceiverSats stored =? vba_ReceiverSats proposed) && (vba_FeeSats stored =? vba_FeeSats proposed)
  && (vba_ExpireAt stored =? vba_ExpireAt proposed) && (vba_CommitmentTxid stored == vba_CommitmentTxid proposed)
  && (vba_ReceiverTxid stored == vba_ReceiverTxid proposed)
  && (vba_ReceiverVout stored =? vba_ReceiverVout proposed).

(** ** Conflict records *)
Section Conflict.
Context `{Wire}.

(** The closure [parse] of [ParseVaultBoardConflictCommitment]. *)
Definition parse_conflict_tx (raw want : bytes) : result MsgTx :=
  _ ← fail_if ((blen raw =? 0) || (524288 <? blen raw)) (ErrMsg "vault-board-v1 conflict transaction size");
  match hex_decode raw with
  | None => Err (ErrMsg "vault-board-v1 conflict transaction encoding")
  | Some b =>
      _ ← fail_if (hex_encode b != raw) (ErrMsg "vault-board-v1 conflict transaction encoding");
      match wire_Deserialize b with
      | Some (tx, rest) =>
          _ ← fail_if (negb (blen rest =? 0) || (tx_TxHash tx != want)) (ErrMsg "vault-board-v1 conflict transaction hash");
          Ok tx
      | None => Err (ErrMsg "vault-board-v1 conflict transaction hash")
      end
  end.

Definition ParseVaultBoardConflictCommitment (rec : VaultBoardConflict) : result MsgTx :=
  let ev := vbc_Evidence rec in
  original ← parse_conflict_tx (vbc_CommitmentRaw rec) (bce_CommitmentTxid ev);
  let n := Z.of_nat (length (tx_TxIn original)) in
  _ ← fail_if ((n =? 0) || (128 <? n) || tx_HasWitness original) (ErrMsg "vault-board-v1 unsigned commitment required");
  conflict ← parse_conflict_tx (bce_RawTransaction ev) (bce_ConflictingTxid ev);
  match tx_TxIn conflict !! Z.to_nat (bce_ConflictingVin ev) with
  | None => Err (ErrMsg "vault-board-v1 conflict input")
  | Some prev =>
      _ ← fail_if ((op_Hash prev != bce_FundingTxid ev) || negb (op_Index prev =? bce_FundingVout ev))
            (ErrMsg "vault-board-v1 conflict outpoint");
      if existsb (fun i => bool_decide (i = prev)) (tx_TxIn original) then Ok original
      else Err (ErrMsg "vault-board-v1 conflict does not spend a commitment input")
  end.

(** *** The JSON payload of a conflict row *)
Definition conflict_json (rec : VaultBoardConflict) : json :=
  JObj [(str "operationId", JStr (vbc_OperationID rec)); (str "attempt", jint (vbc_Attempt rec));
        (str "requestDigest", scalar_json (SBytes (vbc_RequestDigest rec)));
        (str "commitmentRaw", JStr (vbc_CommitmentRaw rec));
        (str "evidence", JObj (struct_members bitcoin_conflict_schema (bce_values (vbc_Evidence rec))));
        (str "createdAt", JStr (vbc_CreatedAt rec))].

Definition marshal_conflict (rec : VaultBoardConflict) : bytes := json_print (conflict_json rec).

Definition set_evidence (v : json) (old : BitcoinConflictEvidence) : option BitcoinConflictEvidence :=
  match v with
  | JNull => Some old
  | JObj l => decode_members bitcoin_conflict_schema l (bce_values old) ≫= bce_of_values
  | _ => None
  end.

(** [null] leaves a string or a number alone. *)
Definition set_bytes_field (v : json) (old : option bytes) : option (option bytes) :=
  get_bytes <$> set_scalar KBytes v (SBytes old).

Definition conflict_fields : list (field VaultBoardConflict) :=
  [(str "operationId", fun v r => (fun s => Build_VaultBoardConflict (get_str s) (vbc_Attempt r) (vbc_RequestDigest r)
      (vbc_CommitmentRaw r) (vbc_Evidence r) (vbc_CreatedAt r) (vbc_IntegrityMAC r))
      <$> set_scalar KStr v (SStr (vbc_OperationID r)));
   (str "attempt", fun v r => (fun s => Build_VaultBoardConflict (vbc_OperationID r) (get_int s) (vbc_RequestDigest r)
      (vbc_CommitmentRaw r) (vbc_Evidence r) (vbc_CreatedAt r) (vbc_IntegrityMAC r))
      <$> set_scalar k_uint32 v (SInt (vbc_Attempt r)));
   (str "requestDigest", fun v r => (fun b => Build_VaultBoardConflict (vbc_OperationID r) (vbc_Attempt r) b
      (vbc_CommitmentRaw r) (vbc_Evidence r) (vbc_CreatedAt r) (vbc_IntegrityMAC r))
      <$> set_bytes_field v (vbc_RequestDigest r));
   (str "commitmentRaw", fun v r => (fun s => Build_VaultBoardConflict (vbc_OperationID r) (vbc_Attempt r)
      (vbc_RequestDigest r) (get_str s) (vbc_Evidence r) (vbc_CreatedAt r) (vbc_IntegrityMAC r))
      <$> set_scalar KStr v (SStr (vbc_CommitmentRaw r)));
   (str "evidence", fun v r => (fun e => Build_VaultBoardConflict (vbc_OperationID r) (vbc_Attempt r)
      (vbc_RequestDigest r) (vbc_CommitmentRaw r) e (vbc_CreatedAt r) (vbc_IntegrityMAC r))
      <$> set_evidence v (vbc_Evidence r));
   (str "createdAt", fun v r => (fun s => Build_VaultBoardConflict (vbc_OperationID r) (vbc_Attempt r)
      (vbc_RequestDigest r) (vbc_CommitmentRaw r) (vbc_Evidence r) (get_str s) (vbc_IntegrityMAC r))
      <$> set_scalar KStr v (SStr (vbc_CreatedAt r)))].

Definition zero_evidence : BitcoinConflictEvidence := Build_BitcoinConflictEvidence [] [] [] 0 [] 0 [] 0 [] 0 [].
Definition zero_conflict : VaultBoardConflict := Build_VaultBoardConflict [] 0 None [] zero_evidence [] [].

Definition unmarshal_conflict (raw : bytes) : option VaultBoardConflict :=
  json_unmarshal conflict_fields zero_conflict raw.

Definition canonicalVaultBoardConflict (rec : VaultBoardConflict) : result bytes :=
  _ ← fail_if (negb (canonicalRenewalHex (vbc_OperationID rec) 32)
               || negb (blen (slice_bytes (vbc_RequestDigest rec)) =? sha256_Size) || (vbc_CreatedAt rec == []))
        (ErrMsg "vault-board-v1 conflict identity");
  _ ← conflict_Validate (vbc_Evidence rec);
  _ ← ParseVaultBoardConflictCommitment rec;
  boardCanonical vaultBoardConflictMACDomain [marshal_conflict rec].

Definition verifyVaultBoardConflict (rec : VaultBoardConflict) (key : bytes) : result unit :=
  verifyVaultBoardMAC canonicalVaultBoardConflict rec (vbc_IntegrityMAC rec) key.

End Conflict.
