(* ===== verification/Savings.v ===== *)
(** The Ledger Savings journal and the recovery-backup record: the pure part of
    [internal/policy/ledger_savings.go], [ledger_savings_replay.go] and
    [recovery_backup.go].  A byte slice that goes through [encoding/json] is an
    [option bytes], because a nil slice is written [null]. *)
From Stdlib Require Import Strings.Byte.
From S2P Require Import Prelude Sha256 Text Base64 GoTime Json Renewal Board.

(** ** Enrollment *)
Record LedgerSavingsEnrollment := {
  lse_VaultID : bytes; lse_ContextJSON : bytes; lse_DescriptorHash : bytes; lse_IntegrityMAC : bytes;
}.
#[global] Instance LedgerSavingsEnrollment_eq_dec : EqDecision LedgerSavingsEnrollment.
Proof. solve_decision. Defined.

Definition lse_set_MAC (m : bytes) (r : LedgerSavingsEnrollment) : LedgerSavingsEnrollment :=
  Build_LedgerSavingsEnrollment (lse_VaultID r) (lse_ContextJSON r) (lse_DescriptorHash r) m.

Definition savings_enrollment_domain : bytes := str "vaulted/ledger-guardian-savings-v1/enrollment".
Definition savings_event_domain : bytes := str "vaulted/ledger-guardian-savings-v1/recovery-event".

(** [uint32(len(field))] keeps the low 32 bits of the length; [le32] does. *)
Definition ledgerSavingsMAC (key domain : bytes) (fields : list bytes) : bytes :=
  hmac_sha256 key (concat (map (fun f => le32 (blen f) ++ f) (domain :: fields))).

Definition identity_schema : list jfield := [jf "vaultId" KStr false].

Definition validateLedgerSavingsEnrollment (rec : LedgerSavingsEnrollment) : result unit :=
  _ ← fail_if ((blen (lse_ContextJSON rec) =? 0) || (8192 <? blen (lse_ContextJSON rec))
               || negb (blen (lse_DescriptorHash rec) =? 64))
        (ErrMsg "Ledger Savings enrollment bounds");
  _ ← fail_if (negb (canonicalRenewalHex (lse_DescriptorHash rec) 32))
        (ErrMsg "Ledger Savings descriptor hash must be canonical");
  match unmarshal_struct identity_schema (lse_ContextJSON rec), json_compact (lse_ContextJSON rec) with
  | Some [vaultId], Some compact =>
      fail_if ((get_str vaultId != lse_VaultID rec) || (compact != lse_ContextJSON rec))
        (ErrMsg "Ledger Savings immutable context identity")
  | _, _ => Err (ErrMsg "json")
  end.

Definition SealLedgerSavingsEnrollment (rec : LedgerSavingsEnrollment) (key : bytes)
  : result LedgerSavingsEnrollment :=
  _ ← fail_if (negb (blen key =? 32)) (ErrMsg "Ledger Savings integrity key required");
  _ ← validateLedgerSavingsEnrollment rec;
  Ok (lse_set_MAC (ledgerSavingsMAC key savings_enrollment_domain
        [lse_VaultID rec; lse_ContextJSON rec; lse_DescriptorHash rec]) rec).

Definition verifyLedgerSavingsEnrollment (rec : LedgerSavingsEnrollment) (key : bytes) : result unit :=
  let want := ledgerSavingsMAC key savings_enrollment_domain
    [lse_VaultID rec; lse_ContextJSON rec; lse_DescriptorHash rec] in
  _ ← fail_if (negb (blen key =? 32) || negb (hmac_Equal (lse_IntegrityMAC rec) want))
        (ErrMsg "Ledger Savings enrollment MAC mismatch");
  validateLedgerSavingsEnrollment rec.

(** ** Recovery sessions *)
Definition sessionPurposeInitiate : bytes := str "initiate".
Definition sessionPurposeClawback : bytes := str "clawback".

Record RecoverySession := {
  rs_VaultID : bytes; rs_Purpose : bytes; rs_InputTxid : bytes; rs_InputVout : Z; rs_DestScript : bytes;
  rs_LastSighash : bytes; rs_Signature : option bytes; rs_CreatedAt : bytes; rs_UpdatedAt : bytes;
  rs_IntegrityMAC : option bytes;
}.
#[global] Instance RecoverySession_eq_dec : EqDecision RecoverySession.
Proof. solve_decision. Defined.

Inductive ReplayAction := ReplaySign | ReplayReplay | ReplayResign.
#[global] Instance ReplayAction_eq_dec : EqDecision ReplayAction.
Proof. solve_decision. Defined.

Definition ErrRecoveryBusy : error := ErrMsg "recovery session already in progress".

Definition requireSessionPurpose (purpose : bytes) : result unit :=
  fail_if ((purpose != sessionPurposeInitiate) && (purpose != sessionPurposeClawback))
    (ErrMsg "purpose must be initiate or clawback").

Definition DecideReplay `{Unicode} (existing : option RecoverySession) (next : RecoverySession)
  : result ReplayAction :=
  _ ← requireSessionPurpose (rs_Purpose next);
  let txid := ToLower (trim_space (rs_InputTxid next)) in
  let dest := ToLower (trim_space (rs_DestScript next)) in
  _ ← fail_if ((rs_VaultID next == []) || (txid == []) || (dest == []))
        (ErrMsg "recovery session dest and outpoint required");
  match existing with
  | None => Ok ReplaySign
  | Some e =>
      _ ← fail_if (rs_DestScript e != dest) (ErrMsg "second dest for this outpoint");
      _ ← fail_if ((rs_InputTxid e != txid) || negb (rs_InputVout e =? rs_InputVout next))
            (ErrMsg "overlapping input set for this outpoint");
      if blen (slice_bytes (rs_Signature e)) =? 0 then
        _ ← fail_if ((rs_LastSighash e == []) || (rs_LastSighash next == [])
                     || (rs_LastSighash e != rs_LastSighash next)) ErrRecoveryBusy;
        Ok ReplayResign
      else if (rs_LastSighash next != []) && (rs_LastSighash e == rs_LastSighash next)
              && (0 <? blen (slice_bytes (rs_Signature e))) then Ok ReplayReplay
      else
        _ ← fail_if (negb (blen (slice_bytes (rs_Signature next)) =? 0)) ErrRecoveryBusy;
        Ok ReplayResign
  end.

Record LedgerSavingsRecovery := {
  lsr_Session : RecoverySession; lsr_CandidatePSBT : bytes; lsr_DirectProof : option bytes;
}.
#[global] Instance LedgerSavingsRecovery_eq_dec : EqDecision LedgerSavingsRecovery.
Proof. solve_decision. Defined.

(** [hex.DecodeString] accepts the value and gives it back. *)
Definition canonical_hex (v : bytes) : bool :=
  match hex_decode v with Some raw => hex_encode raw == v | None => false end.

Definition validateLedgerSavingsRecovery (rec : LedgerSavingsRecovery) : result unit :=
  let s := lsr_Session rec in
  _ ← requireSessionPurpose (rs_Purpose s);
  let proof := blen (slice_bytes (lsr_DirectProof rec)) in
  _ ← fail_if ((rs_VaultID s == []) || negb (blen (rs_InputTxid s) =? 64) || (rs_InputVout s <? 0)
               || (max_uint32 <? rs_InputVout s) || negb (blen (rs_DestScript s) =? 68)
               || negb (blen (rs_LastSighash s) =? 64) || (blen (lsr_CandidatePSBT rec) =? 0)
               || (131072 <? blen (lsr_CandidatePSBT rec)) || (131072 <? blen (slice_bytes (rs_Signature s)))
               || (negb (proof =? 0) && negb (proof =? 64)))
        (ErrMsg "Ledger Savings recovery bounds");
  each (fun v => fail_if (negb (canonical_hex v)) (ErrMsg "Ledger Savings recovery encoding must be canonical"))
    [rs_InputTxid s; rs_DestScript s; rs_LastSighash s].

(** The JSON record of an event: the embedded session's fields come first. *)
Definition recovery_schema : list jfield :=
  [jf "VaultID" KStr false; jf "Purpose" KStr false; jf "InputTxid" KStr false; jf "InputVout" k_int64 false;
   jf "DestScript" KStr false; jf "LastSighash" KStr false; jf "Signature" KBytes false; jf "CreatedAt" KStr false;
   jf "UpdatedAt" KStr false; jf "IntegrityMAC" KBytes false; jf "CandidatePSBT" KStr false;
   jf "DirectProof" KBytes false].

Definition lsr_values (r : LedgerSavingsRecovery) : list scalar :=
  let s := lsr_Session r in
  [SStr (rs_VaultID s); SStr (rs_Purpose s); SStr (rs_InputTxid s); SInt (rs_InputVout s); SStr (rs_DestScript s);
   SStr (rs_LastSighash s); SBytes (rs_Signature s); SStr (rs_CreatedAt s); SStr (rs_UpdatedAt s);
   SBytes (rs_IntegrityMAC s); SStr (lsr_CandidatePSBT r); SBytes (lsr_DirectProof r)].

Definition lsr_of_values (l : list scalar) : option LedgerSavingsRecovery :=
  match l with
  | [a; b; c; d; e; f; g; h; i; j; k; m] =>
      Some (Build_LedgerSavingsRecovery
              (Build_RecoverySession (get_str a) (get_str b) (get_str c) (get_int d) (get_str e) (get_str f)
                 (get_bytes g) (get_str h) (get_str i) (get_bytes j)) (get_str k) (get_bytes m))
  | _ => None
  end.

Definition marshal_recovery (r : LedgerSavingsRecovery) : bytes := marshal_struct recovery_schema (lsr_values r).
Definition unmarshal_recovery (s : bytes) : option LedgerSavingsRecovery :=
  unmarshal_struct recovery_schema s ≫= lsr_of_values.

(** ** Recovery backups *)
Definition MaxRecoveryBackupBytes : Z := 3000000.
Record RecoveryBackup := { rb_Revision : Z; rb_Payload : bytes }.
#[global] Instance RecoveryBackup_eq_dec : EqDecision RecoveryBackup.
Proof. solve_decision. Defined.

Definition backup_json (id : bytes) (rec : RecoveryBackup) : json :=
  JObj [(str "Domain", JStr (str "vaulted/recovery-backup-store/v1")); (str "VaultID", JStr id);
        (str "Backup", JObj [(str "revision", jint (rb_Revision rec)); (str "payload", JStr (rb_Payload rec))])].

Definition recoveryBackupMAC (id : bytes) (rec : RecoveryBackup) (key : bytes) : bytes :=
  hmac_sha256 key (json_print (backup_json id rec)).

(** ** Lemmas *)
Lemma canonical_hex_spec v : canonical_hex v = true -> exists raw, v = hex_encode raw.
Proof.
  unfold canonical_hex. destruct (hex_decode v) as [raw|]; [|done]. intros H. bool_hyps. by exists raw.
Qed.

(** What is stored for an event: valid texts of the right size. *)
Definition recovery_encodable (r : LedgerSavingsRecovery) : Prop :=
  Forall (fun s => utf8_valid s = true)
    [rs_VaultID (lsr_Session r); rs_Purpose (lsr_Session r); rs_InputTxid (lsr_Session r);
     rs_DestScript (lsr_Session r); rs_LastSighash (lsr_Session r); rs_CreatedAt (lsr_Session r);
     rs_UpdatedAt (lsr_Session r); lsr_CandidatePSBT r] /\ is_int64 (rs_InputVout (lsr_Session r)).

Lemma unmarshal_marshal_recovery r :
  recovery_encodable r -> unmarshal_recovery (marshal_recovery r) = Some r.
Proof.
  intros [H Hv]. repeat (apply Forall_cons in H as [? H]).
  unfold unmarshal_recovery, marshal_recovery. rewrite unmarshal_marshal; [|vm_compute; reflexivity|].
  - destruct r as [[] ? ?]. reflexivity.
  - unfold lsr_values, recovery_schema. repeat constructor; try done.
    all: unfold is_int64, max_int64, max_uint64 in *; simpl; lia.
Qed.
