(* ===== verification/Delegation.v ===== *)
(** Presigned renewal delegations ([internal/policy/spending_delegation.go]):
    the records, their JSON rows, the completeness check on renewal sets and
    the rules by which a delegation advances through its phases.  The
    transactions are in [DelegationLedger]. *)
From Stdlib Require Import Strings.Byte.
From S2P Require Import Prelude Sha256 Text GoTime Json Renewal Board.

(** ** Records *)
Record SpendingDelegation := {
  sd_OperationID : bytes;
  sd_VaultID : bytes;
  sd_InputTxid : bytes;
  sd_InputVout : Z;      (* uint32 *)
  sd_ValidAt : Z;        (* int64, Unix seconds *)
  sd_ExpiresAt : Z;      (* int64, Unix seconds *)
  sd_FeeSats : Z;
  sd_PlanDigest : bytes;
  sd_Plan : bytes;
  sd_CreatedAt : bytes;
  sd_Program : bytes;
  sd_DescriptorHash : bytes;
  sd_SetID : bytes;
  sd_SetDigest : bytes;
  sd_SetSize : Z;        (* int *)
  sd_SetIndex : Z;       (* int *)
}.

Record SpendingDelegationEvent := {
  de_OperationID : bytes;
  de_Phase : bytes;
  de_Evidence : bytes;
  de_CreatedAt : bytes;
}.

Record SpendingDelegationSnapshot := {
  ds_Operation : SpendingDelegation;
  ds_Events : gmap bytes SpendingDelegationEvent;
}.

#[global] Instance SpendingDelegation_eq_dec : EqDecision SpendingDelegation.
Proof. solve_decision. Defined.
#[global] Instance SpendingDelegationEvent_eq_dec : EqDecision SpendingDelegationEvent.
Proof. solve_decision. Defined.

Definition sd_set_CreatedAt (t : bytes) (o : SpendingDelegation) : SpendingDelegation :=
  Build_SpendingDelegation (sd_OperationID o) (sd_VaultID o) (sd_InputTxid o) (sd_InputVout o)
    (sd_ValidAt o) (sd_ExpiresAt o) (sd_FeeSats o) (sd_PlanDigest o) (sd_Plan o) t (sd_Program o)
    (sd_DescriptorHash o) (sd_SetID o) (sd_SetDigest o) (sd_SetSize o) (sd_SetIndex o).

Definition de_set_CreatedAt (t : bytes) (e : SpendingDelegationEvent) : SpendingDelegationEvent :=
  Build_SpendingDelegationEvent (de_OperationID e) (de_Phase e) (de_Evidence e) t.

Definition has_devent (s : SpendingDelegationSnapshot) (phase : string) : bool :=
  match ds_Events s !! str phase with Some _ => true | None => false end.

(** ** JSON rows *)
Definition delegation_schema : list jfield :=
  [jf "operationId" KStr false; jf "vaultId" KStr false; jf "inputTxid" KStr false;
   jf "inputVout" k_uint32 false; jf "validAt" k_int64 false; jf "expiresAt" k_int64 false;
   jf "feeSats" k_int64 false; jf "planDigest" KStr false; jf "plan" KStr false;
   jf "createdAt" KStr false; jf "program" KStr true; jf "descriptorHash" KStr true;
   jf "setId" KStr true; jf "setDigest" KStr true; jf "setSize" k_int64 true; jf "setIndex" k_int64 true].

Definition sd_values (o : SpendingDelegation) : list scalar :=
  [SStr (sd_OperationID o); SStr (sd_VaultID o); SStr (sd_InputTxid o); SInt (sd_InputVout o);
   SInt (sd_ValidAt o); SInt (sd_ExpiresAt o); SInt (sd_FeeSats o); SStr (sd_PlanDigest o);
   SStr (sd_Plan o); SStr (sd_CreatedAt o); SStr (sd_Program o); SStr (sd_DescriptorHash o);
   SStr (sd_SetID o); SStr (sd_SetDigest o); SInt (sd_SetSize o); SInt (sd_SetIndex o)].

Definition sd_of_values (l : list scalar) : option SpendingDelegation :=
  match l with
  | [a; b; c; d; e; f; g; h; i; j; k; m; n; o; p; q] =>
      Some (Build_SpendingDelegation (get_str a) (get_str b) (get_str c) (get_int d) (get_int e)
              (get_int f) (get_int g) (get_str h) (get_str i) (get_str j) (get_str k) (get_str m)
              (get_str n) (get_str o) (get_int p) (get_int q))
  | _ => None
  end.

Definition delegation_event_schema : list jfield :=
  [jf "operationId" KStr false; jf "phase" KStr false; jf "evidence" KStr false; jf "createdAt" KStr false].

Definition de_values (e : SpendingDelegationEvent) : list scalar :=
  [SStr (de_OperationID e); SStr (de_Phase e); SStr (de_Evidence e); SStr (de_CreatedAt e)].

Definition de_of_values (l : list scalar) : option SpendingDelegationEvent :=
  match l with
  | [a; b; c; d] => Some (Build_SpendingDelegationEvent (get_str a) (get_str b) (get_str c) (get_str d))
  | _ => None
  end.

Definition marshal_delegation (o : SpendingDelegation) : bytes :=
  marshal_struct delegation_schema (sd_values o).
Definition unmarshal_delegation (s : bytes) : option SpendingDelegation :=
  unmarshal_struct delegation_schema s ≫= sd_of_values.
Definition marshal_delegation_event (e : SpendingDelegationEvent) : bytes :=
  marshal_struct delegation_event_schema (de_values e).
Definition unmarshal_delegation_event (s : bytes) : option SpendingDelegationEvent :=
  unmarshal_struct delegation_event_schema s ≫= de_of_values.

Definition delegation_operation_domain : bytes := str "vaulted-light/delegation-operation/v1".
Definition delegation_event_domain : bytes := str "vaulted-light/delegation-event/v1".

(** ** Phases *)
Definition delegationPhases : list string :=
  ["claimed"; "register_authorized"; "register_dispatched"; "register_result"; "batch_started";
   "tree_prepared"; "nonces_committed"; "tree_signed"; "final_authorized"; "final_dispatched";
   "final_result"; "cleanup_pending"; "cleanup_authorized"; "cleanup_dispatched"; "cleanup_result";
   "confirmed"; "invalidated"; "cancelled"; "expired"; "needs_authorization"; "rejected"]%string.

Definition terminal_phases : list string :=
  ["confirmed"; "invalidated"; "cancelled"; "expired"; "needs_authorization"; "rejected"]%string.

Definition delegationTerminal (s : SpendingDelegationSnapshot) : bool :=
  existsb (has_devent s) terminal_phases.

Definition delegation_State (s : SpendingDelegationSnapshot) : bytes :=
  fold_left (fun state p =>
    if has_devent s p then
      (if has_prefix (str p) (str "cleanup_") then str "cleanup_pending" else str p)
    else state) delegationPhases (str "armed").

Definition validDelegationStreamPhase (phase : bytes) : bool :=
  if (phase == str "stream_signing_started") || (phase == str "stream_finalization") then true
  else
    (fix go (prefixes : list string) : bool :=
       match prefixes with
       | [] => false
       | prefix :: rest =>
           if has_prefix phase (str prefix) then canonicalRenewalHex (trim_prefix phase (str prefix)) 32
           else go rest
       end) ["stream_tree_0_"; "stream_tree_1_"; "stream_nonce_"; "stream_signature_"]%string.

(** ** Validation *)
Definition validateDelegationSetFields (o : SpendingDelegation) : result unit :=
  _ ← fail_if (sd_Program o != delegationSetVaultProgram) (ErrMsg "invalid delegation set program");
  _ ← fail_if (negb (canonicalRenewalHex (sd_DescriptorHash o) 32) || negb (canonicalRenewalHex (sd_SetID o) 16)
               || negb (canonicalRenewalHex (sd_SetDigest o) 32))
        (ErrMsg "invalid delegation set binding");
  fail_if ((sd_SetSize o <? 1) || (50 <? sd_SetSize o) || (sd_SetIndex o <? 0) || (sd_SetSize o <=? sd_SetIndex o))
    (ErrMsg "invalid delegation set position").

Definition validateDelegation (o : SpendingDelegation) : result unit :=
  match parse_rfc3339 (sd_CreatedAt o) with
  | None => Err (ErrMsg "invalid Light delegation")
  | Some created =>
      _ ← fail_if (negb (canonicalRenewalHex (sd_OperationID o) 16)
                   || negb (ValidDelegationVaultID (sd_Program o) (sd_VaultID o))
                   || negb (canonicalRenewalHex (sd_InputTxid o) 32)
                   || negb (canonicalRenewalHex (sd_PlanDigest o) 32)
                   || (sd_FeeSats o <? 0) || (20000 <? sd_FeeSats o)
                   || (sd_ValidAt o <? unix created) || (unix (created + 30 * 24 * hour) <? sd_ValidAt o)
                   || (sd_ExpiresAt o <=? sd_ValidAt o) || (sd_ValidAt o + 86400 <? sd_ExpiresAt o)
                   || (blen (sd_Plan o) =? 0) || (65536 <? blen (sd_Plan o)) || negb (json_valid (sd_Plan o)))
            (ErrMsg "invalid Light delegation");
      validateDelegationSetFields o
  end.

Definition validateDelegationEvent (e : SpendingDelegationEvent) : result unit :=
  _ ← fail_if (negb (canonicalRenewalHex (de_OperationID e) 16) || (4000000 <? blen (de_Evidence e))
               || negb (json_valid (de_Evidence e)))
        (ErrMsg "invalid Light delegation event");
  _ ← (match parse_rfc3339 (de_CreatedAt e) with Some _ => Ok tt | None => Err (ErrMsg "parsing time") end);
  if validDelegationStreamPhase (de_Phase e) then
    fail_if (131072 <? blen (de_Evidence e)) (ErrMsg "Light delegation stream event too large")
  else
    fail_if (negb (phase_in (de_Phase e) delegationPhases)) (ErrMsg "unknown Light delegation phase").

(** ** Renewal sets *)

(** Two members agree on everything a set shares. *)
Definition same_set (o first : SpendingDelegation) : bool :=
  (sd_VaultID o == sd_VaultID first) && (sd_Program o == sd_Program first)
  && (sd_DescriptorHash o == sd_DescriptorHash first) && (sd_SetID o == sd_SetID first)
  && (sd_SetDigest o == sd_SetDigest first).

(** The loop over the members of one set; returns the indices seen. *)
Fixpoint check_members (first : SpendingDelegation) (n : Z) (seen : list Z) (members : list SpendingDelegation)
  : result (list Z) :=
  match members with
  | [] => Ok seen
  | o :: members =>
      _ ← fail_if (negb (same_set o first) || negb (sd_SetSize o =? n)) (ErrMsg "Light delegation set %s metadata");
      _ ← fail_if (bool_decide (sd_SetIndex o ∈ seen)) (ErrMsg "Light delegation set %s index");
      check_members first n (sd_SetIndex o :: seen) members
  end.

Definition check_set (members : list SpendingDelegation) : result unit :=
  match members with
  | [] => Ok tt
  | first :: _ =>
      let n := sd_SetSize first in
      _ ← fail_if ((n <? 1) || (50 <? n) || negb (Z.of_nat (length members) =? n))
            (ErrMsg "Light delegation set %s membership");
      seen ← check_members first n [] members;
      each (fun i => fail_if (negb (bool_decide (i ∈ seen))) (ErrMsg "Light delegation set %s index")) (seqZ 0 n)
  end.

(** [bySet[id] = append(bySet[id], s)] over all operations. *)
Definition group_by_set (ops : list SpendingDelegation) : gmap bytes (list SpendingDelegation) :=
  fold_left (fun m o => <[sd_SetID o := default [] (m !! sd_SetID o) ++ [o]]> m) ops ∅.

Definition validateDelegationSets (all : gmap bytes SpendingDelegationSnapshot) : result unit :=
  each (fun kv => check_set (snd kv))
    (map_to_list (group_by_set (map (fun kv => ds_Operation (snd kv)) (map_to_list all)))).

(** ** Advancing *)
Definition predecessors : list (string * string) :=
  [("register_authorized", "claimed"); ("register_dispatched", "register_authorized");
   ("register_result", "register_dispatched"); ("batch_started", "register_result");
   ("tree_prepared", "batch_started"); ("nonces_committed", "tree_prepared");
   ("tree_signed", "nonces_committed"); ("final_authorized", "tree_signed");
   ("final_dispatched", "final_authorized"); ("final_result", "final_dispatched");
   ("confirmed", "final_authorized"); ("cleanup_authorized", "cleanup_pending");
   ("cleanup_dispatched", "cleanup_authorized"); ("cleanup_result", "cleanup_dispatched")]%string.

Definition predecessor (phase : bytes) : option string :=
  snd <$> List.find (fun kv => phase == str (fst kv)) predecessors.

Definition require_dphase (s : SpendingDelegationSnapshot) (phase : string) : result unit :=
  fail_if (negb (has_devent s phase)) (ErrWrap phase (ErrMsg "Light delegation requires")).

(** The [switch e.Phase] of [AdvanceSpendingDelegation], except for the checks
    of a claim against the rest of the ledger, which follow the window check
    of that case. *)
Definition delegation_switch (s : SpendingDelegationSnapshot) (e : SpendingDelegationEvent) (now : Z)
  : result unit :=
  let p := de_Phase e in
  let n := Z.of_nat (size (ds_Events s)) in
  if phase_in p ["expired"; "cleanup_pending"] then
    _ ← fail_if (has_devent s "final_authorized")
          (ErrMsg "Light delegation final authorization cannot expire");
    _ ← fail_if (negb (VaultBoardRegisterCanSupersede (sd_ExpiresAt (ds_Operation s)) now))
          (ErrMsg "Light delegation expiry quarantine");
    fail_if ((p == str "expired") && has_devent s "register_dispatched" && negb (has_devent s "cleanup_result"))
      (ErrMsg "Light delegation Operator cleanup required")
  else if phase_in p ["cancelled"; "invalidated"; "needs_authorization"] then
    fail_if (negb (n =? 0)
             && negb ((p == str "needs_authorization") && (n =? 1) && has_devent s "claimed"))
      (ErrMsg "Light delegation already owns inputs")
  else if phase_in p ["claimed"] then
    fail_if (negb (n =? 0) || (unix now <? sd_ValidAt (ds_Operation s))
             || (sd_ExpiresAt (ds_Operation s) <=? unix now))
      (ErrMsg "Light delegation outside dispatch window")
  else if phase_in p ["rejected"] then
    _ ← require_dphase s "register_dispatched";
    fail_if (has_devent s "register_result") (ErrMsg "registered delegation cannot be rejected")
  else
    _ ← fail_if ((p == str "final_authorized") && (sd_ExpiresAt (ds_Operation s) <=? unix now))
          (ErrMsg "Light delegation final authorization expired");
    prior ← (if validDelegationStreamPhase p then
               _ ← fail_if (2064 <=? n) (ErrMsg "Light delegation transcript capacity");
               Ok (if has_prefix p (str "stream_signature_") || (p == str "stream_finalization")
                   then "tree_signed"%string
                   else if has_prefix p (str "stream_nonce_") then "tree_prepared"%string
                   else "batch_started"%string)
             else match predecessor p with
                  | Some prior => Ok prior
                  | None => Err (ErrMsg "unknown delegation transition")
                  end);
    require_dphase s prior.

Inductive advance := Replay | Insert.

(** Everything [AdvanceSpendingDelegation] decides from the delegation's own
    snapshot: replay of a recorded phase, insertion of a new one, or refusal. *)
Definition delegation_decide (s : SpendingDelegationSnapshot) (e : SpendingDelegationEvent) (now : Z)
  : result advance :=
  _ ← fail_if (delegationTerminal s && (de_Phase e != delegation_State s)) (ErrMsg "Light delegation terminal");
  _ ← fail_if (has_devent s "cleanup_pending" && negb (has_prefix (de_Phase e) (str "cleanup_"))
               && (de_Phase e != str "expired"))
        (ErrMsg "Light delegation abandoned");
  match ds_Events s !! de_Phase e with
  | Some old =>
      _ ← fail_if (de_set_CreatedAt (de_CreatedAt old) e != old)
            (ErrMsg "Light delegation phase already bound");
      Ok Replay
  | None =>
      _ ← fail_if (delegationTerminal s) (ErrMsg "Light delegation terminal");
      _ ← delegation_switch s e now;
      Ok Insert
  end.

(** ** The journal of one delegation as a step relation *)
Definition add_delegation_event (s : SpendingDelegationSnapshot) (e : SpendingDelegationEvent)
  : SpendingDelegationSnapshot :=
  Build_SpendingDelegationSnapshot (ds_Operation s) (<[de_Phase e := e]> (ds_Events s)).

Inductive delegation_step (s : SpendingDelegationSnapshot) : SpendingDelegationSnapshot -> Prop :=
  | DelegationStep e now :
      delegation_decide s e now = Ok Insert ->
      validateDelegationEvent e = Ok tt ->
      delegation_step s (add_delegation_event s e).

Inductive delegation_reachable (o : SpendingDelegation) : SpendingDelegationSnapshot -> Prop :=
  | DelegationInit : delegation_reachable o (Build_SpendingDelegationSnapshot o ∅)
  | DelegationNext s s' :
      delegation_reachable o s -> delegation_step s s' -> delegation_reachable o s'.

Lemma has_devent_insert s e k :
  has_devent (add_delegation_event s e) k = (de_Phase e == str k) || has_devent s k.
Proof.
  unfold has_devent. cbn. case_bool_decide as E.
  - by rewrite E, lookup_insert_eq.
  - by rewrite lookup_insert_ne.
Qed.

(** What a successful insertion has checked. *)
Lemma decide_insert s e now :
  delegation_decide s e now = Ok Insert ->
  ds_Events s !! de_Phase e = None /\ delegationTerminal s = false /\
  (has_devent s "cleanup_pending" = true ->
   has_prefix (de_Phase e) (str "cleanup_") = true \/ de_Phase e = str "expired") /\
  delegation_switch s e now = Ok tt.
Proof.
  unfold delegation_decide. intros H. inv_ok.
  destruct (ds_Events s !! de_Phase e) eqn:El; inv_ok; [discriminate|]. split_and!; [done|done| |done].
  intros Hc. rewrite Hc in E0. cbn in E0. destruct (has_prefix _ _); [by left|right].
  cbn in E0. bool_hyps. done.
Qed.

Record delegation_inv (s : SpendingDelegationSnapshot) : Prop := {
  di_phase : forall k e, ds_Events s !! k = Some e -> de_Phase e = k;
  di_chain : forall a b, In (a, b) predecessors -> has_devent s a = true -> has_devent s b = true;
  di_final : has_devent s "final_authorized" = true ->
             has_devent s "expired" = false /\ has_devent s "cleanup_pending" = false;
  di_rejected : has_devent s "rejected" = true -> has_devent s "register_result" = false;
}.

Lemma switch_prior s e now a b :
  delegation_switch s e now = Ok tt -> de_Phase e = str a -> In (a, b) predecessors ->
  has_devent s b = true.
Proof.
  intros H Ep Hin. unfold delegation_switch in H. rewrite Ep in H. unfold predecessors in Hin.
  repeat (destruct Hin as [Hin|Hin];
    [injection Hin as <- <-; eval_phases H;
     repeat match type of H with
     | context [validDelegationStreamPhase (str ?p)] =>
         change (validDelegationStreamPhase (str p)) with false in H
     | context [predecessor (str ?p)] =>
         let r := eval vm_compute in (predecessor (str p)) in change (predecessor (str p)) with r in H
     end; cbv iota in H; inv_ok; unfold require_dphase in H; inv_ok; by apply negb_false_iff in H|]).
  destruct Hin.
Qed.

Lemma has_not s e now k :
  delegation_decide s e now = Ok Insert -> de_Phase e = str k -> has_devent s k = false.
Proof.
  intros H Ep. apply decide_insert in H as (Hn & _). unfold has_devent. by rewrite <-Ep, Hn.
Qed.

Lemma not_terminal s k : delegationTerminal s = false -> In k terminal_phases -> has_devent s k = false.
Proof.
  unfold delegationTerminal. intros H Hin. destruct (has_devent s k) eqn:E; [|done].
  assert (existsb (has_devent s) terminal_phases = true); [|congruence].
  apply existsb_exists. eauto.
Qed.

Lemma switch_expiry s e now :
  delegation_switch s e now = Ok tt -> de_Phase e = str "expired" \/ de_Phase e = str "cleanup_pending" ->
  has_devent s "final_authorized" = false.
Proof.
  unfold delegation_switch. intros H [Ep|Ep]; rewrite Ep in H; eval_phases H; by inv_ok.
Qed.

Lemma switch_rejected s e now :
  delegation_switch s e now = Ok tt -> de_Phase e = str "rejected" -> has_devent s "register_result" = false.
Proof.
  unfold delegation_switch. intros H Ep; rewrite Ep in H; eval_phases H; by inv_ok.
Qed.

Lemma delegation_inv_step s s' : delegation_inv s -> delegation_step s s' -> delegation_inv s'.
Proof.
  intros Hi [e now Hd Hv]. pose proof (decide_insert _ _ _ Hd) as (Hn & Ht & Hc & Hs).
  constructor.
  - intros k e'. cbn. destruct (decide (de_Phase e = k)) as [<-|Hk].
    + rewrite lookup_insert_eq. by intros [= <-].
    + rewrite lookup_insert_ne by done. apply (di_phase _ Hi).
  - intros a b Hin. rewrite !has_devent_insert, !orb_true_iff, !bool_decide_eq_true.
    intros [Ea|Ha]; right; [by eapply switch_prior|by eapply di_chain].
  - rewrite !has_devent_insert, !orb_true_iff, !orb_false_split, !bool_decide_eq_true, !bool_decide_eq_false.
    intros [Ef|Hf].
    + assert (has_devent s "cleanup_pending" = false) as ->.
      { destruct (has_devent s "cleanup_pending"); [|done]. destruct (Hc eq_refl) as [H|H]; rewrite Ef in H;
          vm_compute in H; discriminate H. }
      rewrite (not_terminal s "expired") by (done || vm_compute; tauto).
      rewrite Ef. split_and!; try done; vm_compute; congruence.
    + destruct (di_final _ Hi Hf) as [-> ->].
      split_and!; try done; intros Ep; pose proof (switch_expiry _ _ _ Hs) as X;
        rewrite Hf in X; specialize (X ltac:(auto)); discriminate X.
  - rewrite !has_devent_insert, !orb_true_iff, !orb_false_split, !bool_decide_eq_true, !bool_decide_eq_false.
    intros [Er|Hr].
    + split; [rewrite Er; vm_compute; congruence|by eapply switch_rejected].
    + rewrite (not_terminal s "rejected") in Hr by (done || vm_compute; tauto). discriminate Hr.
Qed.

Lemma delegation_reachable_inv o s : delegation_reachable o s -> delegation_inv s.
Proof.
  induction 1; [|eauto using delegation_inv_step].
  constructor; unfold has_devent; cbn; done.
Qed.

(** ** Complete renewal sets *)
Lemma check_members_Ok first n seen members out :
  check_members first n seen members = Ok out ->
  Forall (fun o => same_set o first = true /\ sd_SetSize o = n) members /\
  out ≡ₚ map sd_SetIndex members ++ seen /\ (NoDup seen -> NoDup out).
Proof.
  revert seen. induction members as [|o members IH]; intros seen H; cbn [check_members] in H.
  { inv_ok. split_and!; [constructor|done|done]. }
  inv_ok. bool_hyps. apply IH in H as (HF & HP & HN). split_and!.
  - by constructor.
  - rewrite HP. cbn. by rewrite <-Permutation_middle.
  - intros Hs. apply HN. by constructor.
Qed.

Lemma check_set_Ok members :
  check_set members = Ok tt -> members <> [] ->
  exists first n, In first members /\ 1 <= n <= 50 /\
    Forall (fun o => same_set o first = true /\ sd_SetSize o = n) members /\
    map sd_SetIndex members ≡ₚ seqZ 0 n.
Proof.
  destruct members as [|first rest]; [done|]. intros H _. cbn [check_set] in H. inv_ok. bool_hyps.
  apply check_members_Ok in E0 as (HF & HP & HN). rewrite app_nil_r in HP.
  exists first, (sd_SetSize first). split_and!; [by left|lia|lia|done|].
  apply each_Ok in H. rewrite <-HP. symmetry. apply submseteq_length_Permutation.
  - apply NoDup_submseteq; [apply NoDup_seqZ|]. intros i Hi.
    rewrite Forall_forall in H. specialize (H i Hi). cbn in H. apply fail_if_Ok in H. bool_hyps. done.
  - rewrite HP, length_seqZ, length_map. lia.
Qed.

Definition in_set (id : bytes) (ops : list SpendingDelegation) : list SpendingDelegation :=
  List.filter (fun o => sd_SetID o == id) ops.

Lemma group_by_set_lookup ops id :
  group_by_set ops !! id = match in_set id ops with [] => None | l => Some l end.
Proof.
  induction ops as [|o ops IH] using rev_ind; [done|].
  unfold group_by_set in *. rewrite fold_left_app. cbn [fold_left].
  unfold in_set in *. rewrite List.filter_app. cbn [List.filter].
  case_bool_decide as E.
  - rewrite <-E in IH |- *. rewrite lookup_insert_eq, IH.
    destruct (List.filter _ ops); done.
  - rewrite lookup_insert_ne by done. by rewrite app_nil_r.
Qed.

(** The operations of a loaded ledger. *)
Definition delegation_ops (all : gmap bytes SpendingDelegationSnapshot) : list SpendingDelegation :=
  map (fun kv => ds_Operation (snd kv)) (map_to_list all).

Lemma validateDelegationSets_Ok all id :
  validateDelegationSets all = Ok tt -> in_set id (delegation_ops all) <> [] ->
  check_set (in_set id (delegation_ops all)) = Ok tt.
Proof.
  unfold validateDelegationSets. intros H Hne. apply each_Ok in H. rewrite Forall_forall in H.
  apply (H (id, in_set id (delegation_ops all))). apply elem_of_map_to_list.
  fold (delegation_ops all). rewrite group_by_set_lookup.
  destruct (in_set id (delegation_ops all)); done.
Qed.

(** ** Rows read back *)
Definition sd_encodable (o : SpendingDelegation) : Prop :=
  Forall (fun s => utf8_valid s = true)
    [sd_OperationID o; sd_VaultID o; sd_InputTxid o; sd_PlanDigest o; sd_Plan o; sd_CreatedAt o;
     sd_Program o; sd_DescriptorHash o; sd_SetID o; sd_SetDigest o] /\
  is_uint32 (sd_InputVout o) /\
  Forall is_int64 [sd_ValidAt o; sd_ExpiresAt o; sd_FeeSats o; sd_SetSize o; sd_SetIndex o].

Lemma unmarshal_marshal_delegation o :
  sd_encodable o -> unmarshal_delegation (marshal_delegation o) = Some o.
Proof.
  intros (Hs & Hv & Hi). unfold unmarshal_delegation, marshal_delegation.
  repeat (apply Forall_cons in Hs as [? Hs]). repeat (apply Forall_cons in Hi as [? Hi]).
  unfold is_uint32, is_int64, max_uint32, max_int64 in *.
  rewrite unmarshal_marshal; [by destruct o|vm_compute; reflexivity|].
  repeat apply Forall2_cons_2; try apply Forall2_nil_2;
    first [by apply field_fits_str | apply field_fits_int; unfold max_uint32, max_int64, max_uint64; lia].
Qed.

Lemma unmarshal_marshal_delegation_event e :
  Forall (fun s => utf8_valid s = true) [de_OperationID e; de_Phase e; de_Evidence e; de_CreatedAt e] ->
  unmarshal_delegation_event (marshal_delegation_event e) = Some e.
Proof.
  intros Hs. unfold unmarshal_delegation_event, marshal_delegation_event.
  repeat (apply Forall_cons in Hs as [? Hs]).
  rewrite unmarshal_marshal; [by destruct e|vm_compute; reflexivity|].
  repeat apply Forall2_cons_2; try apply Forall2_nil_2; by apply field_fits_str.
Qed.

(** ** At most one terminal phase *)
Definition terminal_count (s : SpendingDelegationSnapshot) : Z :=
  foldr (fun p n => Z.b2z (has_devent s p) + n) 0 terminal_phases.

Lemma terminal_count_step s s' : delegation_step s s' -> terminal_count s' <= 1.
Proof.
  intros [e now Hd Hv]. apply decide_insert in Hd as (Hn & Ht & _ & _).
  unfold terminal_count, terminal_phases. cbn [foldr]. rewrite !has_devent_insert.
  rewrite !(not_terminal s) by (done || vm_compute; tauto). rewrite !orb_false_r.
  repeat case_bool_decide; cbn; try lia; exfalso;
    match goal with X : de_Phase e = str ?a, Y : de_Phase e = str ?b |- _ =>
      rewrite X in Y; vm_compute in Y; discriminate Y end.
Qed.

(** ** Claims *)

(** The phases of a renewal that goes through, and of its cleanup, in order. *)
Definition renewal_path : list string :=
  ["claimed"; "register_authorized"; "register_dispatched"; "register_result"; "batch_started"; "tree_prepared";
   "nonces_committed"; "tree_signed"; "final_authorized"; "final_dispatched"; "final_result"]%string.
Definition confirmation_path : list string := take 9 renewal_path ++ ["confirmed"%string].
Definition cleanup_path : list string := ["cleanup_pending"; "cleanup_authorized"; "cleanup_dispatched"; "cleanup_result"]%string.

(** A journal that has a phase of the path has all phases before it. *)
Definition path_closed (s : SpendingDelegationSnapshot) (path : list string) : Prop :=
  forall i j a b, (i <= j)%nat -> path !! i = Some b -> path !! j = Some a -> has_devent s a = true -> has_devent s b = true.

Lemma path_closed_steps s path :
  (forall i a b, path !! i = Some b -> path !! S i = Some a -> has_devent s a = true -> has_devent s b = true) -> path_closed s path.
Proof.
  intros Hs i j a b Hij Hb. revert a. induction Hij as [|j Hij IH]; intros a Ha Hd; [congruence|].
  destruct (lookup_lt_is_Some_2 path j) as [c Hc]; [apply lookup_lt_Some in Ha; lia|]. by eapply IH, Hs.
Qed.

Lemma chain_paths s : (forall a b, In (a, b) predecessors -> has_devent s a = true -> has_devent s b = true) ->
  path_closed s renewal_path /\ path_closed s confirmation_path /\ path_closed s cleanup_path.
Proof.
  intros Hc. split_and!; apply path_closed_steps; intros i a b Hb Ha; apply Hc; revert Hb Ha;
    do 12 (destruct i as [|i]; [simpl; intros [=] [=]; subst; simpl; tauto|]); done.
Qed.

(** C30: on every journal a delegation can have, each phase comes after its
    predecessor (a dispatch after its authorisation, a confirmation after the
    final authorisation): a renewal goes through its claim, the registration, the
    batch, the tree, its nonces, its signatures and the final authorisation in this
    order, and a cleanup from pending to its result, without leaving a phase out; once the final authorisation exists the delegation
    neither expires nor is abandoned; and a registered delegation is never
    rejected. *)
Theorem delegation_phase_order o s :
  delegation_reachable o s ->
  (forall a b, In (a, b) predecessors -> has_devent s a = true -> has_devent s b = true) /\
  (has_devent s "final_authorized" = true ->
   has_devent s "expired" = false /\ has_devent s "cleanup_pending" = false) /\
  (has_devent s "rejected" = true -> has_devent s "register_result" = false) /\
  path_closed s renewal_path /\ path_closed s confirmation_path /\ path_closed s cleanup_path.
Proof.
  intros H. destruct (delegation_reachable_inv _ _ H). do 3 (split; [done|]). by apply chain_paths.
Qed.

Definition demo_delegation : SpendingDelegation := {|
  sd_OperationID := demo_hex 16 Byte.x01; sd_VaultID := str "vault-1"; sd_InputTxid := demo_hex 32 Byte.x02;
  sd_InputVout := 0; sd_ValidAt := 1767225700; sd_ExpiresAt := 1767229200; sd_FeeSats := 100;
  sd_PlanDigest := demo_hex 32 Byte.x03; sd_Plan := jtext "{}"; sd_CreatedAt := str "2026-01-01T00:00:00Z";
  sd_Program := delegationSetVaultProgram; sd_DescriptorHash := demo_hex 32 Byte.x05;
  sd_SetID := demo_hex 16 Byte.x06; sd_SetDigest := demo_hex 32 Byte.x07; sd_SetSize := 1; sd_SetIndex := 0 |}.
Definition demo_delegation_event (phase : string) : SpendingDelegationEvent :=
  Build_SpendingDelegationEvent (demo_hex 16 Byte.x01) (str phase) (jtext "{}") (str "2026-01-01T00:02:00Z").
Definition demo_claimed : SpendingDelegationSnapshot :=
  add_delegation_event (add_delegation_event (Build_SpendingDelegationSnapshot demo_delegation ∅)
    (demo_delegation_event "claimed")) (demo_delegation_event "register_authorized").

Lemma demo_claimed_reachable : delegation_reachable demo_delegation demo_claimed.
Proof.
  eapply DelegationNext; [eapply DelegationNext; [apply DelegationInit|]|];
    eapply DelegationStep with (now := 1767225720 * second); vm_compute; reflexivity.
Qed.

Lemma delegation_phase_order_witness : has_devent demo_claimed "claimed" = true.
Proof.
  apply (proj1 (delegation_phase_order demo_delegation demo_claimed demo_claimed_reachable)
    "register_authorized"%string "claimed"%string); [left; reflexivity | vm_compute; reflexivity].
Defined.

(** a delegation records at most one terminal phase, and a delegation that
    has one accepts only an exact replay of the phase it is in. *)
Theorem delegation_one_terminal o s e now :
  delegation_reachable o s ->
  terminal_count s <= 1 /\
  (delegationTerminal s = true -> delegation_decide s e now <> Ok Insert) /\
  (delegationTerminal s = true -> delegation_decide s e now = Ok Replay -> de_Phase e = delegation_State s).
Proof.
  intros H. split_and!.
  - destruct H as [|s s' H Hs]; [by vm_compute|]. by eapply terminal_count_step.
  - intros Ht Hd. apply decide_insert in Hd as (_ & Hd & _). congruence.
  - intros Ht Hd. unfold delegation_decide in Hd. rewrite Ht in Hd. cbn in Hd.
    apply bind_Ok in Hd as (? & Hd & _). apply fail_if_Ok in Hd. bool_hyps. done.
Qed.

Lemma delegation_one_terminal_witness : terminal_count demo_claimed <= 1.
Proof.
  apply (delegation_one_terminal demo_delegation demo_claimed (demo_delegation_event "expired") 0
    demo_claimed_reachable).
Defined.
