(* ===== verification/Store.v ===== *)
(** The ledger store: the SQLite tables, the [Ledger] object that owns them
    ([internal/policy/ledger.go]), the transaction discipline, the economic
    sequence ([sequence_base.go]) and the authenticator counters
    ([signcount.go]).

    A table is the list of its rows in insertion order, with the primary-key,
    foreign-key and CHECK constraints of the schema checked on insertion.  A
    nil [[]byte] argument is bound as NULL; the columns where an empty slice may
    be nil are nullable, or the callers exclude it.  One call of a ledger method is
    one atomic step: the code holds the ledger mutex throughout.  The clock is
    read once per call.  [l_faults] says what the file system does to the
    successive accesses to the sequence file, and [l_commit_ok] whether the
    call's COMMIT succeeds. *)
From Stdlib Require Import Strings.Byte.
From S2P Require Import Prelude Sha256 Text GoTime Vtxo Monotonic Tenant Board Savings.

(** ** Tables *)
Record SignCountRow := {
  sc_vault_id : bytes; sc_credential_id : bytes; sc_sign_count : Z; sc_updated_at : bytes;
  sc_integrity_mac : bytes;
}.
Record VaultMapRow := {
  vmr_vault_id : bytes; vmr_kit_hash : bytes; vmr_payload : bytes; vmr_updated_at : bytes;
  vmr_integrity_mac : bytes;
}.
Record InviteRow := {
  ir_token_hash : bytes; ir_expires_at : bytes; ir_consumed_vault_id : option bytes; ir_created_at : bytes;
}.
Record TenantTables := {
  t_vault : list VaultRecord;
  t_vault_credential : list VaultCredential;
  t_vault_envelope : list (bytes * CredentialEnvelope);
  t_sign_count : list SignCountRow;
  t_vault_map : list VaultMapRow;
  t_invite : list InviteRow;
  t_pending : list PendingEnrollment;
}.

Record VtxoTables := { t_operation : list VtxoOperation; t_input : list VtxoOperationInput }.

(** The renewal and delegation journals store their records as JSON payloads. *)
Record JournalOp := { jo_operation_id : bytes; jo_vault_id : bytes; jo_payload : bytes; jo_mac : bytes }.
Record JournalEvent := { je_operation_id : bytes; je_phase : bytes; je_payload : bytes; je_mac : bytes }.
Record JournalTables := { t_jop : list JournalOp; t_jevent : list JournalEvent }.

(** A conflict row is a JSON payload too; its phase column is always
    ['finalize']. *)
Record ConflictRow := { bcr_operation_id : bytes; bcr_attempt : Z; bcr_payload : bytes; bcr_integrity_mac : bytes }.
Record BoardTables := {
  t_board_enrollment : list VaultBoardEnrollment;
  t_board_operation : list VaultBoardOperation;
  t_board_authorization : list VaultBoardAuthorization;
  t_board_submission : list VaultBoardSubmission;
  t_board_dispatch : list VaultBoardDispatch;
  t_board_conflict : list ConflictRow;
}.

Record SavingsEventRow := { se_event_id : Z; se_vault_id : bytes; se_record : bytes; se_integrity_mac : bytes }.
Record BackupRow := { bk_vault_id : bytes; bk_revision : Z; bk_payload : bytes; bk_integrity_mac : bytes }.
Record SavingsTables := {
  t_savings_enrollment : list LedgerSavingsEnrollment;
  t_savings_event : list SavingsEventRow;
  t_backup : list BackupRow;
}.

Record Db := {
  db_tenant : TenantTables;
  db_vtxo : VtxoTables;
  db_renewal : JournalTables;
  db_delegation : JournalTables;
  db_board : BoardTables;
  db_savings : SavingsTables;
  db_sequence_base : list (Z * bytes);   (* base, integrity_mac *)
}.

Definition set_tenant (t : TenantTables) (d : Db) : Db :=
  Build_Db t (db_vtxo d) (db_renewal d) (db_delegation d) (db_board d) (db_savings d) (db_sequence_base d).
Definition set_vtxo (t : VtxoTables) (d : Db) : Db :=
  Build_Db (db_tenant d) t (db_renewal d) (db_delegation d) (db_board d) (db_savings d) (db_sequence_base d).
Definition set_renewal (t : JournalTables) (d : Db) : Db :=
  Build_Db (db_tenant d) (db_vtxo d) t (db_delegation d) (db_board d) (db_savings d) (db_sequence_base d).
Definition set_delegation (t : JournalTables) (d : Db) : Db :=
  Build_Db (db_tenant d) (db_vtxo d) (db_renewal d) t (db_board d) (db_savings d) (db_sequence_base d).
Definition set_board (t : BoardTables) (d : Db) : Db :=
  Build_Db (db_tenant d) (db_vtxo d) (db_renewal d) (db_delegation d) t (db_savings d) (db_sequence_base d).
Definition set_savings (t : SavingsTables) (d : Db) : Db :=
  Build_Db (db_tenant d) (db_vtxo d) (db_renewal d) (db_delegation d) (db_board d) t (db_sequence_base d).

(** ** The ledger object *)
Record Ledger := {
  l_db : Db;
  l_network : bytes;
  l_now : Z;                        (* l.clock() during this call *)
  l_integrityKey : bytes;
  l_monotonic : option Monotonic;
  l_file : seq_file;                (* the file at l.monotonic.path *)
  l_faults : list fs_fault;         (* for the next accesses to it *)
  l_commit_ok : bool;
}.

Definition set_db (d : Db) (l : Ledger) : Ledger :=
  Build_Ledger d (l_network l) (l_now l) (l_integrityKey l) (l_monotonic l) (l_file l) (l_faults l) (l_commit_ok l).
Definition set_key (k : bytes) (l : Ledger) : Ledger :=
  Build_Ledger (l_db l) (l_network l) (l_now l) k (l_monotonic l) (l_file l) (l_faults l) (l_commit_ok l).
Definition set_monotonic (m : option Monotonic) (l : Ledger) : Ledger :=
  Build_Ledger (l_db l) (l_network l) (l_now l) (l_integrityKey l) m (l_file l) (l_faults l) (l_commit_ok l).
Definition set_file (f : seq_file) (faults : list fs_fault) (l : Ledger) : Ledger :=
  Build_Ledger (l_db l) (l_network l) (l_now l) (l_integrityKey l) (l_monotonic l) f faults (l_commit_ok l).

(** Between two calls the clock moves and the environment of the next call is
    drawn. *)
Definition set_env (now : Z) (faults : list fs_fault) (commit_ok : bool) (l : Ledger) : Ledger :=
  Build_Ledger (l_db l) (l_network l) now (l_integrityKey l) (l_monotonic l) (l_file l) faults commit_ok.

(** ** Stateful computations: a ledger in, a ledger and a Go result out *)
Definition M (A : Type) : Type := Ledger -> Ledger * result A.

#[global] Instance M_ret : MRet M := fun A a l => (l, Ok a).
#[global] Instance M_bind : MBind M := fun A B f m l =>
  match m l with
  | (l', Ok a) => f a l'
  | (l', Err e) => (l', Err e)
  end.

(** A query: reads the ledger, may fail, changes nothing. *)
Definition query {A} (f : Ledger -> result A) : M A := fun l => (l, f l).
Definition lift {A} (r : result A) : M A := fun l => (l, r).
Definition guard_M (c : bool) (e : error) : M unit := lift (fail_if c e).
Definition modify_db (f : Db -> Db) : M unit := fun l => (set_db (f (l_db l)) l, Ok tt).

(** Only the error of a failing computation is wrapped. *)
Definition wrap_M {A} (ctx : string) (m : M A) : M A := fun l =>
  match m l with (l', r) => (l', wrap_err ctx r) end.

(** [BEGIN IMMEDIATE] ... [COMMIT], with the deferred [ROLLBACK]: an error in
    the body or a failing COMMIT restores the tables, and nothing else. *)
Definition transaction {A} (body : M A) : M A := fun l =>
  match body l with
  | (l', Ok a) => if l_commit_ok l' then (l', Ok a) else (set_db (l_db l) l', Err (ErrIO "commit"))
  | (l', Err e) => (set_db (l_db l) l', Err e)
  end.

Lemma bind_inv {A B} (m : M A) (f : A -> M B) l l' r :
  (m ≫= f) l = (l', r) ->
  (exists a l1, m l = (l1, Ok a) /\ f a l1 = (l', r)) \/ (exists e, m l = (l', Err e) /\ r = Err e).
Proof.
  unfold mbind, M_bind. destruct (m l) as [l1 [a|e]]; [eauto|].
  intros [= <- <-]. right. eauto.
Qed.

Lemma bind_Ok_M {A B} (m : M A) (f : A -> M B) l l' b :
  (m ≫= f) l = (l', Ok b) <-> exists a l1, m l = (l1, Ok a) /\ f a l1 = (l', Ok b).
Proof.
  unfold mbind, M_bind. destruct (m l) as [l1 [a|e]]; split.
  - eauto.
  - by intros (? & ? & [= <- <-] & ?).
  - done.
  - by intros (? & ? & ? & ?).
Qed.

Lemma query_Ok {A} (f : Ledger -> result A) l l' a : query f l = (l', Ok a) <-> l' = l /\ f l = Ok a.
Proof. unfold query. split; [by intros [= <- ->] | by intros [-> ->]]. Qed.

Lemma lift_Ok {A} (r : result A) l l' a : lift r l = (l', Ok a) <-> l' = l /\ r = Ok a.
Proof. unfold lift. split; [by intros [= <- ->] | by intros [-> ->]]. Qed.

Lemma guard_M_Ok c e l l' u : guard_M c e l = (l', Ok u) <-> l' = l /\ c = false.
Proof. unfold guard_M. by rewrite lift_Ok, fail_if_Ok. Qed.

Lemma modify_db_Ok f l l' u : modify_db f l = (l', Ok u) <-> l' = set_db (f (l_db l)) l.
Proof. unfold modify_db. destruct u. split; [by intros [= <-] | by intros ->]. Qed.

Lemma wrap_M_Ok {A} ctx (m : M A) l l' a : wrap_M ctx m l = (l', Ok a) <-> m l = (l', Ok a).
Proof. unfold wrap_M. destruct (m l) as [l1 [b|e]]; simpl; [done|]. by split. Qed.

Lemma ret_Ok_M {A} (a b : A) l l' : (mret a : M A) l = (l', Ok b) <-> l' = l /\ b = a.
Proof. unfold mret, M_ret. split; [by intros [= <- <-] | by intros [-> ->]]. Qed.

Lemma transaction_Ok {A} (body : M A) l l' a :
  transaction body l = (l', Ok a) <-> body l = (l', Ok a) /\ l_commit_ok l' = true.
Proof.
  unfold transaction. destruct (body l) as [l1 [b|e]].
  - destruct (l_commit_ok l1) eqn:E; split.
    + by intros [= <- <-].
    + by intros [[= <- <-] ?].
    + done.
    + intros [[= <- <-] ?]. congruence.
  - split; [done | by intros [? ?]].
Qed.

(** A failed transaction leaves every table as it was. *)
Lemma transaction_Err {A} (body : M A) l l' e :
  transaction body l = (l', Err e) -> l_db l' = l_db l.
Proof.
  unfold transaction. destruct (body l) as [l1 [b|e1]]; [destruct (l_commit_ok l1)|];
    intros H; simplify_eq; done.
Qed.

(** [inv_M] opens successful stateful computations. *)
Ltac inv_M1 :=
  match goal with
  | H : (_ ≫= _) _ = (_, Ok _) |- _ =>
      let a := fresh "r" in let l1 := fresh "l" in let E := fresh "E" in
      apply bind_Ok_M in H as (a & l1 & E & H);
      lazymatch type of a with unit => destruct a | _ => idtac end
  | H : query _ _ = (_, Ok _) |- _ => apply query_Ok in H as [-> H]
  | H : lift _ _ = (_, Ok _) |- _ => apply lift_Ok in H as [-> H]
  | H : guard_M _ _ _ = (_, Ok _) |- _ => apply guard_M_Ok in H as [-> H]
  | H : modify_db _ _ = (_, Ok _) |- _ => apply modify_db_Ok in H as ->
  | H : wrap_M _ _ _ = (_, Ok _) |- _ => apply wrap_M_Ok in H
  | H : mret _ _ = (_, Ok _) |- _ => apply ret_Ok_M in H as [-> H]
  | H : transaction _ _ = (_, Ok _) |- _ => apply transaction_Ok in H as [H ?]
  end.
Ltac inv_M := repeat inv_M1.

(** [read_step H x Hx] opens the first step of [H] when it only reads: [x] is
    its value, [Hx] what the read returned. *)
Ltac read_step H x Hx :=
  let lx := fresh "lx" in
  apply bind_Ok_M in H as (x & lx & Hx & H);
  lazymatch type of Hx with
  | query _ _ = _ => apply query_Ok in Hx as [-> Hx]
  | lift _ _ = _ => apply lift_Ok in Hx as [-> Hx]
  | guard_M _ _ _ = _ => apply guard_M_Ok in Hx as [-> Hx]
  end.
(** [write_step H l1 Hx]: the first step returns nothing and leads to [l1]. *)
Ltac write_step H l1 Hx := apply bind_Ok_M in H as ([] & l1 & Hx & H).

(** ** Integrity key *)
Definition integrityKeyCopy (l : Ledger) : result bytes :=
  _ ← fail_if (negb (blen (l_integrityKey l) =? sha256_Size)) (ErrMsg "policy integrity key required");
  Ok (l_integrityKey l).

Definition RequireIntegrityKey (key : bytes) (l : Ledger) : result unit :=
  _ ← fail_if (negb (blen key =? sha256_Size)) (ErrMsg "policy integrity key must be 32 bytes");
  _ ← fail_if (negb (blen (l_integrityKey l) =? sha256_Size)) (ErrMsg "policy integrity key is not initialized");
  fail_if (l_integrityKey l != key) (ErrMsg "policy integrity key mismatch").

Definition NowUTC (l : Ledger) : Z := l_now l.
Definition allowanceWindow : Z := 24 * hour.

Definition addOutflow (amount fee : Z) : result Z :=
  _ ← fail_if ((amount <? 0) || (fee <? 0)) (ErrMsg "negative outflow");
  _ ← fail_if ((0 <? fee) && (max_int64 - fee <? amount)) (ErrMsg "amount+fee overflow");
  Ok (amount + fee).

(** ** The economic sequence *)
Definition policySequenceBaseMAC (network : bytes) (base : Z) (key : bytes) : bytes :=
  hmac_sha256 key (str "arkade-vault/policy-sequence-base/v1" ++ [Byte.x00] ++ network ++ [Byte.x00] ++ le64 base).

(** [Ok None] when the table is empty. *)
Definition readPolicySequenceBase (d : Db) (network key : bytes) : result (option Z) :=
  _ ← fail_if (negb (blen key =? sha256_Size)) (ErrMsg "policy integrity key required");
  match db_sequence_base d with
  | [] => Ok None
  | (base, tag) :: rest =>
      _ ← fail_if (negb (hmac_Equal tag (policySequenceBaseMAC network (wrap64 base) key)))
            (ErrMsg "policy sequence base MAC mismatch");
      _ ← fail_if ((base <? 0) || match rest with [] => false | _ => true end)
            (ErrMsg "invalid policy sequence base");
      Ok (Some base)
  end.

Definition economicOutflowCount (d : Db) : result Z :=
  let n := Z.of_nat (length (t_operation (db_vtxo d))
    + (length (t_board_authorization (db_board d)) + length (t_board_dispatch (db_board d))
       + length (t_board_submission (db_board d)))
    + (length (t_jop (db_renewal d)) + length (t_jevent (db_renewal d)))
    + (length (t_jop (db_delegation d)) + length (t_jevent (db_delegation d)))
    + (length (t_savings_event (db_savings d)) + length (t_board_conflict (db_board d)))) in
  _ ← fail_if (n <? 0) (ErrMsg "economic outflow count");
  Ok n.

Definition currentEconomicSequence (l : Ledger) : result Z :=
  base ← readPolicySequenceBase (l_db l) (l_network l) (l_integrityKey l);
  match base with
  | None => Err (ErrMsg "policy sequence base missing")
  | Some base =>
      count ← economicOutflowCount (l_db l);
      _ ← fail_if (max_uint64 - base <? count) (ErrMsg "economic sequence overflow");
      Ok (base + count)
  end.

(** [l.monotonic.Observe(n)], consuming the next file-system outcome. *)
Definition observe_file (m : Monotonic) (n : Z) : M unit := fun l =>
  let '(f, r) := Observe m n (l_file l) (default FsOk (head (l_faults l))) in
  (set_file f (tail (l_faults l)) l, r).

Definition observeEconomicOutflowsLocked : M unit := fun l =>
  match l_monotonic l with
  | None => (l, Ok tt)
  | Some m => (n ← query currentEconomicSequence; observe_file m n) l
  end.

Definition AttachMonotonic (m : Monotonic) : M unit := fun l =>
  observeEconomicOutflowsLocked (set_monotonic (Some m) l).

(** ** Authenticator counters *)
Definition same_counter (v c : bytes) (r : SignCountRow) : bool :=
  (sc_vault_id r == v) && (sc_credential_id r == c).

(** [WHERE vault_id=? AND credential_id=?] *)
Definition sign_count_row (l : Ledger) (vaultID credentialID : bytes) : option SignCountRow :=
  List.find (same_counter vaultID credentialID) (t_sign_count (db_tenant (l_db l))).

(** Scanning an INTEGER column into a [uint32] fails outside its range. *)
Definition scan_uint32 (z : Z) : result Z :=
  _ ← fail_if ((z <? 0) || (max_uint32 <? z)) (ErrMsg "sql: converting driver.Value type int64 to a uint32");
  Ok z.

Definition set_sign_counts (rows : list SignCountRow) (d : Db) : Db :=
  let t := db_tenant d in
  set_tenant (Build_TenantTables (t_vault t) (t_vault_credential t) (t_vault_envelope t) rows
                (t_vault_map t) (t_invite t) (t_pending t)) d.

(** [INSERT ... ON CONFLICT(vault_id, credential_id) DO UPDATE] *)
Definition upsert_sign_count (row : SignCountRow) (rows : list SignCountRow) : list SignCountRow :=
  let same := same_counter (sc_vault_id row) (sc_credential_id row) in
  if existsb same rows then map (fun r => if same r then row else r) rows else rows ++ [row].

Definition has_vault (d : Db) (vaultID : bytes) : bool :=
  existsb (fun v => vr_VaultID v == vaultID) (t_vault (db_tenant d)).

(** [FROM vault_credential WHERE vault_id=? ORDER BY resident DESC LIMIT 1] *)
Definition enrolled_credential (d : Db) (vaultID : bytes) : option VaultCredential :=
  let rows := List.filter (fun c => vc_VaultID c == vaultID) (t_vault_credential (db_tenant d)) in
  match List.find vc_Resident rows with
  | Some c => Some c
  | None => head rows
  end.

Definition put_sign_count (row : SignCountRow) : M unit :=
  d ← query (fun l => Ok (l_db l));
  _ ← guard_M (negb (has_vault d (sc_vault_id row)) || negb (blen (sc_integrity_mac row) =? 32)
               || (sc_sign_count row <? 0) || (blen (sc_credential_id row) =? 0))
        (ErrConstraint "webauthn_sign_count");
  modify_db (fun d => set_sign_counts (upsert_sign_count row (t_sign_count (db_tenant d))) d).

Definition advanceSignCountLocked (vaultID credentialID : bytes) (incoming : Z) : M unit :=
  row ← query (fun l => Ok (sign_count_row l vaultID credentialID));
  key ← query (fun l => Ok (l_integrityKey l));
  now ← query (fun l => Ok (l_now l));
  let store := put_sign_count
    {| sc_vault_id := vaultID; sc_credential_id := credentialID; sc_sign_count := incoming;
       sc_updated_at := format_rfc3339nano now;
       sc_integrity_mac := signCountMAC vaultID credentialID incoming key |} in
  match row with
  | None => store
  | Some row =>
      stored ← lift (scan_uint32 (sc_sign_count row));
      _ ← lift (verifySignCountMAC vaultID credentialID stored (sc_integrity_mac row) key);
      _ ← guard_M ((incoming =? 0) && (0 <? stored)) (ErrMsg "webauthn sign count went backwards");
      _ ← guard_M ((0 <? incoming) && (incoming <? stored)) (ErrMsg "webauthn sign count went backwards");
      _ ← guard_M ((0 <? incoming) && (incoming =? stored)) (ErrMsg "webauthn sign count went backwards");
      if (incoming =? 0) && (stored =? 0) then mret tt else store
  end.

(** A write outside a transaction commits by itself. *)
Definition AdvanceSignCount (vaultID credentialID : bytes) (incoming : Z) : M unit :=
  _ ← guard_M ((vaultID == []) || (blen credentialID =? 0)) (ErrMsg "sign count identity required");
  key ← query (fun l => Ok (l_integrityKey l));
  _ ← guard_M (negb (blen key =? sha256_Size)) (ErrMsg "sign count ledger required");
  transaction (advanceSignCountLocked vaultID credentialID incoming).

Definition verifySignCountReplayLocked (vaultID credentialID : bytes) (incoming : Z) (l : Ledger)
  : result unit :=
  match sign_count_row l vaultID credentialID with
  | None => Err (ErrMsg "webauthn sign count replay state missing")
  | Some row =>
      stored ← scan_uint32 (sc_sign_count row);
      _ ← verifySignCountMAC vaultID credentialID stored (sc_integrity_mac row) (l_integrityKey l);
      fail_if (negb (incoming =? stored)) (ErrMsg "webauthn sign count replay mismatch")
  end.

(** ** Counters: lemmas *)
Lemma same_counter_true v c r : same_counter v c r = true <-> sc_vault_id r = v /\ sc_credential_id r = c.
Proof. unfold same_counter. by rewrite andb_true_split, !bool_decide_eq_true. Qed.

Lemma same_counter_self r : same_counter (sc_vault_id r) (sc_credential_id r) r = true.
Proof. by apply same_counter_true. Qed.

Lemma find_upsert_same row rows :
  List.find (same_counter (sc_vault_id row) (sc_credential_id row)) (upsert_sign_count row rows) = Some row.
Proof.
  unfold upsert_sign_count. destruct (existsb _ rows) eqn:Ex.
  - induction rows as [|r rows IH]; [done|]. simpl in Ex |- *.
    destruct (same_counter _ _ r) eqn:Es; [by rewrite same_counter_self|]. rewrite Es. by apply IH.
  - induction rows as [|r rows IH]; simpl; [by rewrite same_counter_self|].
    simpl in Ex. apply orb_false_split in Ex as [Es Ex]. rewrite Es. by apply IH.
Qed.

Lemma find_upsert_other row rows v c :
  same_counter v c row = false ->
  List.find (same_counter v c) (upsert_sign_count row rows) = List.find (same_counter v c) rows.
Proof.
  intros Er. unfold upsert_sign_count. destruct (existsb _ rows) eqn:Ex; clear Ex.
  - induction rows as [|r rows IH]; [done|]. simpl. rewrite IH.
    destruct (same_counter (sc_vault_id row) (sc_credential_id row) r) eqn:Es; [|done].
    rewrite Er. apply same_counter_true in Es as [E1 E2].
    assert (same_counter v c r = false) as ->; [|done].
    unfold same_counter in *. by rewrite E1, E2.
  - induction rows as [|r rows IH]; simpl; [by rewrite Er|]. by rewrite IH.
Qed.

Lemma find_upsert row rows v c :
  List.find (same_counter v c) (upsert_sign_count row rows) =
  if same_counter v c row then Some row else List.find (same_counter v c) rows.
Proof.
  destruct (same_counter v c row) eqn:Er; [|by apply find_upsert_other].
  apply same_counter_true in Er as [<- <-]. apply find_upsert_same.
Qed.

(** The counter the ledger holds for a passkey. *)
Definition stored_count (l : Ledger) (v c : bytes) : option Z := sc_sign_count <$> sign_count_row l v c.

Lemma sign_count_row_find l v c :
  sign_count_row l v c = List.find (same_counter v c) (t_sign_count (db_tenant (l_db l))).
Proof. done. Qed.

Lemma put_sign_count_Ok row l l' :
  put_sign_count row l = (l', Ok tt) ->
  (forall v c, sign_count_row l' v c = if same_counter v c row then Some row else sign_count_row l v c) /\
  db_vtxo (l_db l') = db_vtxo (l_db l) /\ l_commit_ok l' = l_commit_ok l /\ l_integrityKey l' = l_integrityKey l.
Proof.
  unfold put_sign_count. intros H. inv_M. simpl. split_and!; [|done..].
  intros v c. rewrite !sign_count_row_find. cbn. apply find_upsert.
Qed.

Lemma put_counter v c n r l l' :
  put_sign_count r l = (l', Ok tt) -> sc_vault_id r = v -> sc_credential_id r = c -> sc_sign_count r = n ->
  stored_count l' v c = Some n /\
  (forall v' c', (v', c') <> (v, c) -> sign_count_row l' v' c' = sign_count_row l v' c') /\
  db_vtxo (l_db l') = db_vtxo (l_db l).
Proof.
  intros Hp <- <- <-. apply put_sign_count_Ok in Hp as (Hr & Hv & _ & Hkey).
  unfold stored_count. split_and!; [|intros v' c' Hne|done]; rewrite Hr.
  - by rewrite same_counter_self.
  - destruct (same_counter v' c' r) eqn:E; [|done]. by apply same_counter_true in E as [<- <-].
Qed.

(** What a successful advance has done. *)
Lemma advanceSignCountLocked_Ok v c n l l' :
  0 <= n -> advanceSignCountLocked v c n l = (l', Ok tt) ->
  (match stored_count l v c with
   | None => stored_count l' v c = Some n
   | Some m => 0 <= m /\ ((m < n /\ stored_count l' v c = Some n) \/ (m = 0 /\ n = 0 /\ l' = l))
   end) /\
  (forall v' c', (v', c') <> (v, c) -> sign_count_row l' v' c' = sign_count_row l v' c') /\
  db_vtxo (l_db l') = db_vtxo (l_db l).
Proof.
  intros Hn H. unfold advanceSignCountLocked in H. apply bind_Ok_M in H as (row & l1 & Hq & H).
  apply query_Ok in Hq as [-> Hq]. apply Ok_inj in Hq. inv_M.
  unfold stored_count at 1. rewrite Hq. destruct row as [row|]; cbn [fmap option_fmap option_map].
  - inv_M. unfold scan_uint32 in E1. inv_ok.
    destruct ((n =? 0) && (sc_sign_count row =? 0)) eqn:Ez.
    + inv_M. bool_hyps. split; [|done]. split; [lia|]. by right.
    + eapply put_counter in H as (H1 & H2 & H3); [|reflexivity..]. split; [|done].
      destruct (Z.eqb_spec n 0), (Z.eqb_spec (sc_sign_count row) 0), (Z.ltb_spec 0 n),
        (Z.ltb_spec n (sc_sign_count row)), (Z.eqb_spec n (sc_sign_count row));
        cbn [andb] in *; try discriminate; bool_hyps; split; try lia; left; split; try lia; done.
  - eapply put_counter in H as (H1 & H2 & H3); [|reflexivity..]. done.
Qed.

(** A counter advance touches the tenant tables only. *)
Lemma advance_frame v c n l l' :
  advanceSignCountLocked v c n l = (l', Ok tt) -> exists t, l' = set_db (set_tenant t (l_db l)) l.
Proof.
  assert (forall row, put_sign_count row l = (l', Ok tt) -> exists t, l' = set_db (set_tenant t (l_db l)) l) as Hput.
  { unfold put_sign_count. intros row H. inv_M. unfold set_sign_counts. eauto. }
  unfold advanceSignCountLocked. intros H. inv_M. destruct r as [row|]; [|eauto].
  inv_M. destruct ((n =? 0) && (r =? 0)); [|eauto]. inv_M. exists (db_tenant (l_db l)).
  by destruct l as [[] ? ? ? ? ? ? ?].
Qed.

(** ** The sequence after an observation *)
Lemma observe_Ok l l' m :
  l_monotonic l = Some m -> observeEconomicOutflowsLocked l = (l', Ok tt) ->
  exists n, currentEconomicSequence l = Ok n /\ l_db l' = l_db l /\
    Observe m n (l_file l) (default FsOk (head (l_faults l))) = (l_file l', Ok tt) /\
    l_monotonic l' = l_monotonic l /\ l_network l' = l_network l /\ l_integrityKey l' = l_integrityKey l.
Proof.
  intros Hm H. unfold observeEconomicOutflowsLocked in H. rewrite Hm in H. inv_M.
  exists r. unfold observe_file in H. destruct (Observe m r _ _) as [f res] eqn:Eo.
  apply pair_equal_spec in H as [<- ->]. done.
Qed.

Lemma observe_frame l l' r :
  observeEconomicOutflowsLocked l = (l', r) ->
  l_db l' = l_db l /\ l_network l' = l_network l /\ l_integrityKey l' = l_integrityKey l /\
  l_monotonic l' = l_monotonic l /\ l_commit_ok l' = l_commit_ok l /\ l_now l' = l_now l.
Proof.
  unfold observeEconomicOutflowsLocked. destruct (l_monotonic l) as [m|] eqn:Hm; [|by intros [= <- <-]].
  unfold mbind, M_bind, query. destruct (currentEconomicSequence l); [|by intros [= <- <-]].
  unfold observe_file. destruct (Observe m a _ _). by intros [= <- <-].
Qed.

Lemma readPolicySequenceBase_nonneg d network key base :
  readPolicySequenceBase d network key = Ok (Some base) -> 0 <= base.
Proof.
  unfold readPolicySequenceBase. intros H. inv_ok.
  destruct (db_sequence_base d) as [|[b t] rest]; [done|]. inv_ok. bool_hyps. congruence.
Qed.

Lemma currentEconomicSequence_uint64 l n : currentEconomicSequence l = Ok n -> is_uint64 n.
Proof.
  unfold currentEconomicSequence. intros H. apply bind_Ok in H as (base & Hb & H).
  destruct base as [base|]; [|done]. apply readPolicySequenceBase_nonneg in Hb.
  unfold economicOutflowCount in H. inv_ok. bool_hyps. unfold is_uint64. lia.
Qed.

(** ** How a computation moves the tables

    [moves R m]: whatever [m] does, the tables after it are related to the
    tables before it by [R].  For a preorder [R] the property is structural. *)
Definition moves (R : relation Db) {A} (m : M A) : Prop := forall l, R (l_db l) (l_db (fst (m l))).

Section Moves.
Context (R : relation Db) `{!PreOrder R}.

Lemma moves_bind {A B} (m : M A) (f : A -> M B) : moves R m -> (forall a, moves R (f a)) -> moves R (m ≫= f).
Proof.
  intros Hm Hf l. unfold mbind, M_bind. specialize (Hm l). destruct (m l) as [l1 [a|e]]; cbn in *; [|done].
  etrans; [exact Hm|apply Hf].
Qed.
Lemma moves_ret {A} (a : A) : moves R (mret a).
Proof. by intros l. Qed.
Lemma moves_query {A} (f : Ledger -> result A) : moves R (query f).
Proof. by intros l. Qed.
Lemma moves_lift {A} (r : result A) : moves R (lift r).
Proof. by intros l. Qed.
Lemma moves_guard c e : moves R (guard_M c e).
Proof. by intros l. Qed.
Lemma moves_wrap {A} ctx (m : M A) : moves R m -> moves R (wrap_M ctx m).
Proof. intros H l. specialize (H l). unfold wrap_M. by destruct (m l). Qed.
Lemma moves_transaction {A} (m : M A) : moves R m -> moves R (transaction m).
Proof.
  intros H l. specialize (H l). unfold transaction. destruct (m l) as [l1 [a|e]]; [destruct (l_commit_ok l1)|]; done.
Qed.
Lemma moves_observe : moves R observeEconomicOutflowsLocked.
Proof.
  intros l. destruct (observeEconomicOutflowsLocked l) as [l' r] eqn:E.
  apply observe_frame in E as (E & _). cbn [fst]. by rewrite E.
Qed.
Lemma moves_if {A} (b : bool) (m1 m2 : M A) : moves R m1 -> moves R m2 -> moves R (if b then m1 else m2).
Proof. by destruct b. Qed.
Lemma moves_option {A B} (o : option B) (f : B -> M A) (m : M A) :
  (forall b, moves R (f b)) -> moves R m -> moves R (match o with Some b => f b | None => m end).
Proof. intros. by destruct o. Qed.

(** A guarded write: the relation has to hold when the guard lets it happen. *)
Lemma moves_guarded (c : Db -> bool) (f : Db -> Db) e :
  (forall d, c d = false -> R d (f d)) ->
  moves R (d ← query (fun l => Ok (l_db l)); _ ← guard_M (c d) e; modify_db f).
Proof.
  intros H l. unfold mbind, M_bind, query, guard_M, lift, fail_if, modify_db. destruct (c (l_db l)) eqn:E; cbn; [done|auto].
Qed.
End Moves.
#[export] Hint Resolve moves_ret moves_query moves_lift moves_guard moves_wrap moves_transaction moves_observe
  moves_if moves_option : guardian.

(** ** Failed calls

    [clean m]: when [m] fails, the tables are what they were.  Computations that
    only read, and transactions, are clean. *)
Definition clean {A} (m : M A) : Prop := forall l l' e, m l = (l', Err e) -> l_db l' = l_db l.

Lemma clean_read {A B} (m : M A) (f : A -> M B) : moves eq m -> (forall a, clean (f a)) -> clean (m ≫= f).
Proof.
  intros Hm Hf l l' e H. specialize (Hm l). unfold mbind, M_bind in H. destruct (m l) as [l1 [a|e1]]; cbn in Hm.
  - rewrite Hm. by eapply Hf.
  - by apply pair_equal_spec in H as [<- _].
Qed.
Lemma clean_then_ret {A B} (m : M A) (g : A -> B) : clean m -> clean (m ≫= fun a => mret (g a)).
Proof.
  intros Hm l l' e H. unfold mbind, M_bind in H. destruct (m l) as [l1 [a|e1]] eqn:E; [done|].
  apply pair_equal_spec in H as [<- _]. by eapply Hm.
Qed.
Lemma clean_transaction {A} (m : M A) : clean (transaction m).
Proof. intros l l' e. apply transaction_Err. Qed.
Lemma clean_moves {A} (m : M A) : moves eq m -> clean m.
Proof. intros Hm l l' e H. specialize (Hm l). by rewrite H in Hm. Qed.
Lemma clean_if {A} (b : bool) (m1 m2 : M A) : clean m1 -> clean m2 -> clean (if b then m1 else m2).
Proof. by destruct b. Qed.
Lemma clean_option {A B} (o : option B) (f : B -> M A) (m : M A) :
  (forall b, clean (f b)) -> clean m -> clean (match o with Some b => f b | None => m end).
Proof. intros. by destruct o. Qed.
#[export] Hint Resolve clean_transaction clean_if clean_option : guardian.

Lemma reads_db {A} (m : M A) l l' r : moves eq m -> m l = (l', r) -> l_db l' = l_db l.
Proof. intros Hm H. specialize (Hm l). by rewrite H in Hm. Qed.

(** What a transaction does, when only its success has to be looked at. *)
Lemma transaction_rel {A} (R : relation Db) `{!Reflexive R} (body : M A) l l' r :
  (forall l1 a, body l = (l1, Ok a) -> R (l_db l) (l_db l1)) -> transaction body l = (l', r) -> R (l_db l) (l_db l').
Proof.
  intros Hb H. destruct r as [a|e].
  - apply transaction_Ok in H as [H _]. by eapply Hb.
  - by rewrite (transaction_Err _ _ _ _ H).
Qed.

Ltac solve_reads :=
  first [apply moves_query; apply _ | apply moves_guard; apply _ | apply moves_lift; apply _
        | apply moves_ret; apply _ | apply moves_observe; apply _].
Ltac solve_clean :=
  repeat first [progress intros | apply clean_transaction | apply clean_then_ret, clean_transaction
               | apply clean_read; [solve_reads|] | apply clean_moves; solve_reads
               | apply clean_if | apply clean_option | by auto with guardian].

(** ** Configuration: no computation changes the key, the network, the sequence
    file's owner or the clock of a call. *)
Definition same_config (l l' : Ledger) : Prop :=
  l_integrityKey l' = l_integrityKey l /\ l_network l' = l_network l /\
  l_monotonic l' = l_monotonic l /\ l_now l' = l_now l.

#[global] Instance same_config_preorder : PreOrder same_config.
Proof. split; unfold same_config; [by intros l|]. intros a b c (? & ? & ? & ?) (? & ? & ? & ?). split_and!; congruence. Qed.

Definition stable {A} (m : M A) : Prop := forall l, same_config l (fst (m l)).

Lemma stable_bind {A B} (m : M A) (f : A -> M B) : stable m -> (forall a, stable (f a)) -> stable (m ≫= f).
Proof.
  intros Hm Hf l. unfold mbind, M_bind. specialize (Hm l). destruct (m l) as [l1 [a|e]]; cbn in *; [|done].
  etrans; [exact Hm|apply Hf].
Qed.
Lemma stable_ret {A} (a : A) : stable (mret a).
Proof. by intros l. Qed.
Lemma stable_query {A} (f : Ledger -> result A) : stable (query f).
Proof. by intros l. Qed.
Lemma stable_lift {A} (r : result A) : stable (lift r).
Proof. by intros l. Qed.
Lemma stable_guard c e : stable (guard_M c e).
Proof. by intros l. Qed.
Lemma stable_modify f : stable (modify_db f).
Proof. by intros l. Qed.
Lemma stable_wrap {A} ctx (m : M A) : stable m -> stable (wrap_M ctx m).
Proof. intros H l. specialize (H l). unfold wrap_M. by destruct (m l). Qed.
Lemma stable_transaction {A} (m : M A) : stable m -> stable (transaction m).
Proof.
  intros H l. specialize (H l). unfold transaction. destruct (m l) as [l1 [a|e]]; [destruct (l_commit_ok l1)|]; done.
Qed.
Lemma stable_observe : stable observeEconomicOutflowsLocked.
Proof.
  intros l. destruct (observeEconomicOutflowsLocked l) as [l' r] eqn:E.
  apply observe_frame in E as (_ & ? & ? & ? & _ & ?). done.
Qed.
Lemma stable_if {A} (b : bool) (m1 m2 : M A) : stable m1 -> stable m2 -> stable (if b then m1 else m2).
Proof. by destruct b. Qed.
Lemma stable_option {A B} (o : option B) (f : B -> M A) (m : M A) :
  (forall b, stable (f b)) -> stable m -> stable (match o with Some b => f b | None => m end).
Proof. intros. by destruct o. Qed.
#[export] Hint Resolve stable_ret stable_query stable_lift stable_guard stable_modify stable_wrap stable_transaction
  stable_observe stable_if stable_option : guardian.

Ltac solve_stable :=
  repeat first [progress intros | apply stable_bind | apply stable_if | apply stable_option | apply stable_transaction
               | apply stable_wrap | by auto with guardian].

Lemma stable_put_sign_count row : stable (put_sign_count row).
Proof. unfold put_sign_count. solve_stable. Qed.
#[export] Hint Resolve stable_put_sign_count : guardian.

Lemma stable_advance v c n : stable (advanceSignCountLocked v c n).
Proof. unfold advanceSignCountLocked. solve_stable. Qed.
#[export] Hint Resolve stable_advance : guardian.

(** ** Claims *)

(** for one passkey, a successful counter advance strictly increases the
    stored counter (or both are zero, for authenticators without a counter),
    stores exactly the presented value, leaves every other counter alone, and
    makes any later presentation of a value not above it fail. *)
Theorem sign_count_strictly_increases v c n l l' :
  0 <= n -> AdvanceSignCount v c n l = (l', Ok tt) ->
  (match stored_count l v c with
   | None => stored_count l' v c = Some n
   | Some m => 0 <= m /\ ((m < n /\ stored_count l' v c = Some n) \/ (m = 0 /\ n = 0 /\ l' = l))
   end) /\
  (forall v' c', (v', c') <> (v, c) -> stored_count l' v' c' = stored_count l v' c') /\
  (forall k l'', 0 < k <= n -> AdvanceSignCount v c k l' <> (l'', Ok tt)).
Proof.
  intros Hn H. unfold AdvanceSignCount in H. inv_M.
  pose proof (advanceSignCountLocked_Ok _ _ _ _ _ Hn H) as (Hs & Ho & _). split_and!; [done| |].
  - intros v' c' Hne. unfold stored_count. by rewrite Ho.
  - intros k l'' Hk H2. unfold AdvanceSignCount in H2. inv_M.
    apply advanceSignCountLocked_Ok in H2 as (Hs2 & _); [|lia].
    assert (stored_count l' v c = Some n) as Hc.
    { destruct (stored_count l v c); [|done]. destruct Hs as [? [[? Hs]|(? & ? & _)]]; [done|lia]. }
    rewrite Hc in Hs2. destruct Hs2 as [? [[? _]|(? & ? & _)]]; lia.
Qed.

Definition demo_db : Db := {|
  db_tenant := Build_TenantTables [demo_sealed_vault] [] [] [] [] [] [];
  db_vtxo := Build_VtxoTables [] []; db_renewal := Build_JournalTables [] [];
  db_delegation := Build_JournalTables [] [];
  db_sequence_base := [(0, policySequenceBaseMAC (str "mutinynet") 0 demo_vault_key)];
  db_board := Build_BoardTables [] [] [] [] [] []; db_savings := Build_SavingsTables [] [] [] |}.
Definition demo_ledger : Ledger := {|
  l_db := demo_db; l_network := str "mutinynet"; l_now := 1767225660 * second;
  l_integrityKey := demo_vault_key; l_monotonic := Some demo_monotonic;
  l_file := Some (sequence_body demo_monotonic 0); l_faults := []; l_commit_ok := true |}.

Lemma sign_count_strictly_increases_witness :
  exists l', AdvanceSignCount (str "vault-1") (str "cred") 5 demo_ledger = (l', Ok tt) /\
    forall l'', AdvanceSignCount (str "vault-1") (str "cred") 5 l' <> (l'', Ok tt).
Proof.
  eexists. split; [vm_compute; reflexivity|]. intros l''.
  eapply (sign_count_strictly_increases (str "vault-1") (str "cred") 5 demo_ledger);
    [lia | vm_compute; reflexivity | lia].
Defined.

(** The ledger of one vault with its enrolled passkey. *)
Definition demo_credential_fields : VaultCredential :=
  Build_VaultCredential (str "cred") (str "vault-1") (repeat Byte.x04 65) (repeat Byte.x05 32) true [].
Definition demo_credential : VaultCredential :=
  vc_set_MAC (hmac_sha256 demo_vault_key (vc_encoding demo_credential_fields)) demo_credential_fields.
Definition demo_enrolled_ledger : Ledger :=
  set_db (set_tenant (Build_TenantTables [demo_sealed_vault] [demo_credential] [] [] [] [] []) demo_db) demo_ledger.
