(* ===== verification/Journal.v ===== *)
(** Reading the journals and accounting the allowance: [loadSpendingRenewals],
    [loadSpendingDelegations], [spentInWindow] and the fences that keep the
    Spending workflows of one vault apart (spending_renewal.go,
    spending_delegation.go, ledger.go, vtxo_ledger.go).

    A Go map is a finite map here; a [range] over it visits the entries in some
    order, which only decides which of several errors is reported.  The same
    holds for the order in which SQLite returns rows without ORDER BY. *)
From Stdlib Require Import Strings.Byte.
From S2P Require Import Prelude Sha256 Text GoTime Json Vtxo Monotonic Tenant Renewal Delegation Store.

(** ** Journals *)
Definition load_renewal_op (key : bytes) (out : gmap bytes SpendingRenewalSnapshot) (row : JournalOp)
  : result (gmap bytes SpendingRenewalSnapshot) :=
  let payload := jo_payload row in
  _ ← fail_if ((16384 <? blen payload)
               || negb (hmac_Equal (jo_mac row) (renewalMAC key renewal_operation_domain payload)))
        (ErrMsg "Light renewal operation integrity");
  match unmarshal_renewal payload with
  | None => Err (ErrMsg "json")
  | Some op =>
      _ ← fail_if ((marshal_renewal op != payload) || (ro_OperationID op != jo_operation_id row)
                   || (ro_VaultID op != jo_vault_id row) || negb (is_ok (validateSpendingRenewalOperation op)))
            (ErrMsg "Light renewal operation binding");
      Ok (<[jo_operation_id row := Build_SpendingRenewalSnapshot op ∅]> out)
  end.

Definition load_renewal_event (key : bytes) (out : gmap bytes SpendingRenewalSnapshot) (row : JournalEvent)
  : result (gmap bytes SpendingRenewalSnapshot) :=
  let payload := je_payload row in
  _ ← fail_if ((1048576 <? blen payload)
               || negb (hmac_Equal (je_mac row) (renewalMAC key renewal_event_domain payload)))
        (ErrMsg "Light renewal event integrity");
  match unmarshal_renewal_event payload with
  | None => Err (ErrMsg "json")
  | Some e =>
      match out !! je_operation_id row with
      | None => Err (ErrMsg "Light renewal event binding")
      | Some s =>
          _ ← fail_if ((marshal_renewal_event e != payload) || (re_OperationID e != je_operation_id row)
                       || (re_Phase e != je_phase row) || negb (is_ok (validateSpendingRenewalEvent e)))
                (ErrMsg "Light renewal event binding");
          Ok (<[je_operation_id row :=
                  Build_SpendingRenewalSnapshot (rs_Operation s) (<[je_phase row := e]> (rs_Events s))]> out)
      end
  end.

Definition loadSpendingRenewals (d : Db) (key : bytes) : result (gmap bytes SpendingRenewalSnapshot) :=
  out ← fold_res (load_renewal_op key) ∅ (t_jop (db_renewal d));
  fold_res (load_renewal_event key) out (t_jevent (db_renewal d)).

Definition load_delegation_op (key : bytes) (all : gmap bytes SpendingDelegationSnapshot) (row : JournalOp)
  : result (gmap bytes SpendingDelegationSnapshot) :=
  let payload := jo_payload row in
  _ ← fail_if ((131072 <? blen payload)
               || negb (hmac_Equal (jo_mac row) (renewalMAC key delegation_operation_domain payload)))
        (ErrMsg "Light delegation integrity");
  match unmarshal_delegation payload with
  | None => Err (ErrMsg "Light delegation integrity")
  | Some o =>
      _ ← fail_if ((marshal_delegation o != payload) || (sd_OperationID o != jo_operation_id row)
                   || (sd_VaultID o != jo_vault_id row) || negb (is_ok (validateDelegation o)))
            (ErrMsg "Light delegation binding");
      Ok (<[jo_operation_id row := Build_SpendingDelegationSnapshot o ∅]> all)
  end.

Definition load_delegation_event (key : bytes) (all : gmap bytes SpendingDelegationSnapshot) (row : JournalEvent)
  : result (gmap bytes SpendingDelegationSnapshot) :=
  let payload := je_payload row in
  _ ← fail_if ((8000000 <? blen payload)
               || negb (hmac_Equal (je_mac row) (renewalMAC key delegation_event_domain payload)))
        (ErrMsg "Light delegation event integrity");
  match unmarshal_delegation_event payload with
  | None => Err (ErrMsg "Light delegation event integrity")
  | Some e =>
      match all !! je_operation_id row with
      | None => Err (ErrMsg "Light delegation event binding")
      | Some s =>
          _ ← fail_if ((marshal_delegation_event e != payload) || (de_OperationID e != je_operation_id row)
                       || (de_Phase e != je_phase row) || negb (is_ok (validateDelegationEvent e)))
                (ErrMsg "Light delegation event binding");
          Ok (<[je_operation_id row :=
                  Build_SpendingDelegationSnapshot (ds_Operation s) (<[je_phase row := e]> (ds_Events s))]> all)
      end
  end.

Definition loadSpendingDelegations (d : Db) (key : bytes) : result (gmap bytes SpendingDelegationSnapshot) :=
  all ← fold_res (load_delegation_op key) ∅ (t_jop (db_delegation d));
  _ ← validateDelegationSets all;
  fold_res (load_delegation_event key) all (t_jevent (db_delegation d)).

Definition GetSpendingRenewal (id : bytes) (l : Ledger) : result (option SpendingRenewalSnapshot) :=
  key ← integrityKeyCopy l;
  all ← loadSpendingRenewals (l_db l) key;
  Ok (all !! id).

(** ** Allowance *)

(** [rows.Next] over [SELECT ... FROM vtxo_operation WHERE vault_id = ?]. *)
Definition vault_operations (d : Db) (vaultID : bytes) : list VtxoOperation :=
  List.filter (fun r => vo_VaultID r == vaultID) (t_operation (db_vtxo d)).

(** The row scanner rejects a change output index outside [uint32]. *)
Definition scanVtxoOperation (r : VtxoOperation) : result VtxoOperation :=
  match vo_ChangeVout r with
  | Some v => if (v <? 0) || (max_uint32 <? v) then Err (ErrMsg "vtxo operation change vout") else Ok r
  | None => Ok r
  end.

(** Scan and authenticate one row. *)
Definition verified (key : bytes) (row : VtxoOperation) : result VtxoOperation :=
  rec ← scanVtxoOperation row;
  _ ← wrap_err "vtxo operation integrity" (VerifyVtxoOperation rec key);
  Ok rec.

Definition spent_row (key : bytes) (now : Z) (total : Z) (row : VtxoOperation) : result Z :=
  rec ← verified key row;
  if negb (vtxoStateCountsTowardAllowance (vo_State rec)) then Ok total else
  match parse_rfc3339 (vo_CreatedAt rec) with
  | None => Err (ErrMsg "vtxo operation created_at")
  | Some created =>
      if negb (vtxoStateAwaitingSettlement (vo_State rec)) && (created + allowanceWindow <? now) then Ok total else
      need ← addOutflow (vo_AmountSats rec) (vo_FeeSats rec);
      _ ← fail_if (max_int64 - need <? total) (ErrMsg "period spent overflow");
      Ok (total + need)
  end.

Definition renewal_allowance_step (vault : bytes) (now : Z) (total : Z) (kv : bytes * SpendingRenewalSnapshot)
  : result Z :=
  let s := snd kv in
  if ro_VaultID (rs_Operation s) != vault then Ok total else
  let charge :=
    _ ← fail_if (max_int64 - ro_FeeSats (rs_Operation s) - ro_AmountSats (rs_Operation s) <? total)
          (ErrMsg "Light renewal allowance overflow");
    Ok (total + (ro_FeeSats (rs_Operation s) + ro_AmountSats (rs_Operation s))) in
  if renewalTerminal s then
    match rs_Events s !! str "confirmed" with
    | None => Ok total
    | Some confirmed =>
        let at_ := default zero_time (parse_rfc3339 (re_CreatedAt confirmed)) in
        if at_ + allowanceWindow <? now then Ok total else charge
    end
  else charge.

Definition spendingRenewalAllowance (l : Ledger) (vault key : bytes) : result Z :=
  all ← loadSpendingRenewals (l_db l) key;
  fold_res (renewal_allowance_step vault (NowUTC l)) 0 (map_to_list all).

Definition delegation_allowance_step (vault : bytes) (now : Z) (total : Z) (kv : bytes * SpendingDelegationSnapshot)
  : result Z :=
  let s := snd kv in
  if (sd_VaultID (ds_Operation s) != vault) || bool_decide (ds_Events s = ∅) then Ok total else
  let charge :=
    _ ← fail_if (max_int64 - sd_FeeSats (ds_Operation s) <? total) (ErrMsg "delegation allowance overflow");
    Ok (total + sd_FeeSats (ds_Operation s)) in
  if delegationTerminal s then
    match ds_Events s !! str "confirmed" with
    | None => Ok total
    | Some e =>
        let at_ := default zero_time (parse_rfc3339 (de_CreatedAt e)) in
        if at_ + allowanceWindow <? now then Ok total else charge
    end
  else charge.

Definition delegationAllowance (l : Ledger) (vault key : bytes) : result Z :=
  all ← loadSpendingDelegations (l_db l) key;
  fold_res (delegation_allowance_step vault (NowUTC l)) 0 (map_to_list all).

Definition spentInWindow (l : Ledger) (vaultID : bytes) : result Z :=
  key ← integrityKeyCopy l;
  total ← fold_res (spent_row key (NowUTC l)) 0 (vault_operations (l_db l) vaultID);
  renewal ← spendingRenewalAllowance l vaultID key;
  total ← addOutflow total renewal;
  delegation ← delegationAllowance l vaultID key;
  addOutflow total delegation.

Definition SpentInPeriod (vaultID period : bytes) (l : Ledger) : result Z :=
  _ ← fail_if (vaultID == []) (ErrMsg "vault id required");
  spentInWindow l vaultID.

(** ** Fences *)
Definition rejectConcurrentVtxoOperationLocked (l : Ledger) (vaultID operationID : bytes) : result unit :=
  key ← integrityKeyCopy l;
  recs ← collect (verified key) (vault_operations (l_db l) vaultID);
  fail_if (existsb (fun rec => (vo_OperationID rec != operationID) && vtxoStateBlocksNewOperation (vo_State rec)) recs)
    ErrVtxoOperationActive.

Definition rejectActiveSpendingRenewal (l : Ledger) (vault : bytes) : result unit :=
  key ← integrityKeyCopy l;
  all ← loadSpendingRenewals (l_db l) key;
  each (fun kv => fail_if ((ro_VaultID (rs_Operation (snd kv)) == vault) && negb (renewalTerminal (snd kv)))
                    ErrVtxoOperationActive) (map_to_list all).

Definition rejectDispatchedDelegation (l : Ledger) (vault : bytes) : result unit :=
  key ← integrityKeyCopy l;
  all ← loadSpendingDelegations (l_db l) key;
  each (fun kv => fail_if ((sd_VaultID (ds_Operation (snd kv)) == vault)
                           && negb (bool_decide (ds_Events (snd kv) = ∅)) && negb (delegationTerminal (snd kv)))
                    ErrVtxoOperationActive) (map_to_list all).

(** The loop over one list inside a transaction. *)
Fixpoint each_M {A} (f : A -> M unit) (l : list A) : M unit :=
  match l with
  | [] => mret tt
  | x :: l => _ ← f x; each_M f l
  end.

Lemma each_M_ind {A} (P : Ledger -> Prop) (f : A -> M unit) xs l l' u :
  (forall x l l', x ∈ xs -> P l -> f x l = (l', Ok tt) -> P l') ->
  P l -> each_M f xs l = (l', Ok u) -> P l'.
Proof.
  revert l. induction xs as [|x xs IH]; intros l Hf Hl; cbn [each_M].
  - intros H. by inv_M.
  - intros H. apply bind_Ok_M in H as ([] & l1 & H1 & H). eapply IH; [|by eapply Hf, H1; [left|]|exact H].
    intros y l2 l3 ?. apply Hf. by right.
Qed.

(** ** Journal rows: the constraints of the two schemas *)

(** SQLite's [length] of a TEXT value: the characters up to the first NUL,
    where the continuation bytes after a lead byte are not counted. *)
Fixpoint text_length_from (in_rune : bool) (s : bytes) : Z :=
  match s with
  | [] => 0
  | c :: s =>
      if u8 c =? 0 then 0
      else if in_rune && (128 <=? u8 c) && (u8 c <=? 191) then text_length_from true s
      else 1 + text_length_from (192 <=? u8 c) s
  end.
Definition text_length (s : bytes) : Z := text_length_from false s.

Definition check_op_row (max : Z) (d : Db) (rows : list JournalOp) (row : JournalOp) : bool :=
  negb (existsb (fun r => jo_operation_id r == jo_operation_id row) rows)
  && has_vault d (jo_vault_id row)
  && (0 <? text_length (jo_payload row)) && (text_length (jo_payload row) <=? max) && (blen (jo_mac row) =? 32).

Definition check_event_row (max : Z) (t : JournalTables) (row : JournalEvent) : bool :=
  negb (existsb (fun r => (je_operation_id r == je_operation_id row) && (je_phase r == je_phase row)) (t_jevent t))
  && existsb (fun r => jo_operation_id r == je_operation_id row) (t_jop t)
  && (0 <? text_length (je_payload row)) && (text_length (je_payload row) <=? max) && (blen (je_mac row) =? 32).

Definition renewal_phases : list string :=
  ["register_authorized"; "register_dispatched"; "register_result"; "final_authorized"; "final_dispatched";
   "final_result"; "confirmed"; "delete_authorized"; "delete_dispatched"; "delete_result"; "released";
   "cancelled"]%string.

Definition insert_renewal_op (row : JournalOp) : M unit :=
  d ← query (fun l => Ok (l_db l));
  _ ← guard_M (negb (check_op_row 16384 d (t_jop (db_renewal d)) row)) (ErrConstraint "light_renewal_operation");
  modify_db (fun d => set_renewal (Build_JournalTables (t_jop (db_renewal d) ++ [row]) (t_jevent (db_renewal d))) d).

Definition insert_renewal_event (row : JournalEvent) : M unit :=
  d ← query (fun l => Ok (l_db l));
  _ ← guard_M (negb (check_event_row 1048576 (db_renewal d) row && phase_in (je_phase row) renewal_phases))
        (ErrConstraint "light_renewal_event");
  modify_db (fun d => set_renewal (Build_JournalTables (t_jop (db_renewal d)) (t_jevent (db_renewal d) ++ [row])) d).

Definition insert_delegation_op (row : JournalOp) : M unit :=
  d ← query (fun l => Ok (l_db l));
  _ ← guard_M (negb (check_op_row 131072 d (t_jop (db_delegation d)) row)) (ErrConstraint "light_delegation_operation");
  modify_db (fun d => set_delegation (Build_JournalTables (t_jop (db_delegation d) ++ [row]) (t_jevent (db_delegation d))) d).

Definition insert_delegation_event_row (row : JournalEvent) : M unit :=
  d ← query (fun l => Ok (l_db l));
  _ ← guard_M (negb (check_event_row 8000000 (db_delegation d) row)) (ErrConstraint "light_delegation_event");
  modify_db (fun d => set_delegation (Build_JournalTables (t_jop (db_delegation d)) (t_jevent (db_delegation d) ++ [row])) d).

Definition insertDelegationEvent (key : bytes) (e : SpendingDelegationEvent) : M unit :=
  _ ← lift (validateDelegationEvent e);
  let payload := marshal_delegation_event e in
  insert_delegation_event_row
    {| je_operation_id := de_OperationID e; je_phase := de_Phase e; je_payload := payload;
       je_mac := renewalMAC key delegation_event_domain payload |}.

(** [light_renewal] and delegation transactions: run the body, observe the
    sequence while the rows can still be rolled back, commit. *)
Definition withSpendingRenewalTx {A} (apply : bytes -> M A) : M A :=
  key ← query integrityKeyCopy;
  transaction (a ← apply key; _ ← observeEconomicOutflowsLocked; mret a).

(** ** What the allowance charges *)

(** An operation row, in the window of [now]. *)
Definition op_charge (now : Z) (r : VtxoOperation) : Z :=
  let in_window := match parse_rfc3339 (vo_CreatedAt r) with
                   | Some created => negb (created + allowanceWindow <? now)
                   | None => false
                   end in
  if vtxoStateCountsTowardAllowance (vo_State r) && (vtxoStateAwaitingSettlement (vo_State r) || in_window)
  then vo_AmountSats r + vo_FeeSats r else 0.

(** A terminal workflow is charged only when it was confirmed, and then for
    one window after the confirmation. *)
Definition confirmation_in_window (now : Z) (confirmed : option bytes) : bool :=
  match confirmed with
  | None => false
  | Some at_ => negb (default zero_time (parse_rfc3339 at_) + allowanceWindow <? now)
  end.

Definition renewal_charge (vault : bytes) (now : Z) (kv : bytes * SpendingRenewalSnapshot) : Z :=
  let s := snd kv in
  if (ro_VaultID (rs_Operation s) == vault)
     && (negb (renewalTerminal s) || confirmation_in_window now (re_CreatedAt <$> rs_Events s !! str "confirmed"))
  then ro_FeeSats (rs_Operation s) + ro_AmountSats (rs_Operation s) else 0.

(** An armed delegation (one without events) is not charged. *)
Definition delegation_charge (vault : bytes) (now : Z) (kv : bytes * SpendingDelegationSnapshot) : Z :=
  let s := snd kv in
  if (sd_VaultID (ds_Operation s) == vault) && negb (bool_decide (ds_Events s = ∅))
     && (negb (delegationTerminal s) || confirmation_in_window now (de_CreatedAt <$> ds_Events s !! str "confirmed"))
  then sd_FeeSats (ds_Operation s) else 0.

Lemma addOutflow_Ok a f n :
  addOutflow a f = Ok n <-> n = a + f /\ 0 <= a /\ 0 <= f /\ (f = 0 \/ a + f <= max_int64).
Proof.
  unfold addOutflow. rewrite bind_Ok. setoid_rewrite fail_if_Ok. split.
  - intros (? & Hn & H). apply bind_Ok in H as ([] & Ho & H). apply fail_if_Ok in Ho. apply Ok_inj in H.
    bool_hyps. destruct (Z.ltb_spec 0 f); cbn in Ho; bool_hyps; lia.
  - intros (-> & ? & ? & Hm). exists tt. split; [by destruct (Z.ltb_spec a 0), (Z.ltb_spec f 0); try lia|].
    rewrite bind_Ok. exists tt. split; [|done]. apply fail_if_Ok.
    destruct (Z.ltb_spec 0 f), (Z.ltb_spec (max_int64 - f) a); try done; lia.
Qed.

Lemma scanVtxoOperation_Ok row rec : scanVtxoOperation row = Ok rec -> rec = row.
Proof.
  unfold scanVtxoOperation. destruct (vo_ChangeVout row) as [v|]; [destruct ((v <? 0) || _); [done|]|];
    intros H; by apply Ok_inj in H.
Qed.

Lemma verified_Ok key row rec : verified key row = Ok rec -> rec = row /\ VerifyVtxoOperation row key = Ok tt.
Proof.
  unfold verified. intros H. apply bind_Ok in H as (r & Hs & H). apply bind_Ok in H as ([] & Hv & H).
  apply wrap_err_Ok in Hv. apply Ok_inj in H as <-. by apply scanVtxoOperation_Ok in Hs as ->.
Qed.

Lemma spent_row_Ok key now t row t' : spent_row key now t row = Ok t' -> t' = t + op_charge now row.
Proof.
  unfold spent_row, op_charge. intros H. apply bind_Ok in H as (rec & Hr & H).
  apply verified_Ok in Hr as [-> _].
  destruct (vtxoStateCountsTowardAllowance (vo_State row)); cbn [negb andb] in *; [|apply Ok_inj in H; lia].
  destruct (parse_rfc3339 (vo_CreatedAt row)) as [created|]; [|done].
  destruct (vtxoStateAwaitingSettlement (vo_State row)), (created + allowanceWindow <? now);
    cbn [negb andb orb] in *; first [apply Ok_inj in H; lia |
      apply bind_Ok in H as (need & Hn & H); apply addOutflow_Ok in Hn as (-> & _);
      apply bind_Ok in H as ([] & _ & H); apply Ok_inj in H; lia].
Qed.

Lemma renewal_allowance_step_Ok vault now t kv t' :
  renewal_allowance_step vault now t kv = Ok t' -> t' = t + renewal_charge vault now kv.
Proof.
  unfold renewal_allowance_step, renewal_charge, confirmation_in_window. destruct kv as [k s]; cbn [snd].
  destruct (bool_decide _); cbn [negb andb]; [|intros H; apply Ok_inj in H; lia].
  destruct (renewalTerminal s); cbn [negb orb].
  - destruct (rs_Events s !! str "confirmed") as [c|]; cbn [fmap option_fmap option_map];
      [|intros H; apply Ok_inj in H; lia].
    destruct (_ + allowanceWindow <? now); cbn [negb]; intros H; [apply Ok_inj in H; lia|].
    apply bind_Ok in H as ([] & _ & H). apply Ok_inj in H. lia.
  - intros H. apply bind_Ok in H as ([] & _ & H). apply Ok_inj in H. lia.
Qed.

Lemma delegation_allowance_step_Ok vault now t kv t' :
  delegation_allowance_step vault now t kv = Ok t' -> t' = t + delegation_charge vault now kv.
Proof.
  unfold delegation_allowance_step, delegation_charge, confirmation_in_window. destruct kv as [k s]; cbn [snd].
  destruct (bool_decide (sd_VaultID _ = _)); cbn [negb andb orb]; [|intros H; apply Ok_inj in H; lia].
  destruct (bool_decide (ds_Events s = ∅)); cbn [negb andb]; [intros H; apply Ok_inj in H; lia|].
  destruct (delegationTerminal s); cbn [negb orb].
  - destruct (ds_Events s !! str "confirmed") as [c|]; cbn [fmap option_fmap option_map];
      [|intros H; apply Ok_inj in H; lia].
    destruct (_ + allowanceWindow <? now); cbn [negb]; intros H; [apply Ok_inj in H; lia|].
    apply bind_Ok in H as ([] & _ & H). apply Ok_inj in H. lia.
  - intros H. apply bind_Ok in H as ([] & _ & H). apply Ok_inj in H. lia.
Qed.

(** The charged total of a vault, as the code computes it. *)
Lemma spentInWindow_Ok l v total :
  spentInWindow l v = Ok total ->
  exists key renewals delegations ops,
    integrityKeyCopy l = Ok key /\
    loadSpendingRenewals (l_db l) key = Ok renewals /\ loadSpendingDelegations (l_db l) key = Ok delegations /\
    fold_res (spent_row key (l_now l)) 0 (vault_operations (l_db l) v) = Ok ops /\
    ops = sumZ (op_charge (l_now l)) (vault_operations (l_db l) v) /\
    total = ops + sumZ (renewal_charge v (l_now l)) (map_to_list renewals)
            + sumZ (delegation_charge v (l_now l)) (map_to_list delegations) /\
    0 <= ops <= total.
Proof.
  unfold spentInWindow, spendingRenewalAllowance, delegationAllowance, NowUTC. intros H.
  apply bind_Ok in H as (key & Hk & H). apply bind_Ok in H as (ops & Ho & H).
  apply bind_Ok in H as (rn & Hr & H). apply bind_Ok in Hr as (renewals & Hl & Hr).
  apply bind_Ok in H as (t & Ht & H). apply bind_Ok in H as (dn & Hd & H).
  apply bind_Ok in Hd as (delegations & Hl2 & Hd).
  apply addOutflow_Ok in Ht as (-> & ? & ? & _). apply addOutflow_Ok in H as (-> & ? & ? & _).
  exists key, renewals, delegations, ops.
  pose proof (fold_res_sum _ _ _ _ _ (spent_row_Ok key (l_now l)) Ho).
  pose proof (fold_res_sum _ _ _ _ _ (renewal_allowance_step_Ok v (l_now l)) Hr).
  pose proof (fold_res_sum _ _ _ _ _ (delegation_allowance_step_Ok v (l_now l)) Hd).
  split_and!; try done; lia.
Qed.

(** Every row that was counted has authenticated. *)
Lemma spent_rows_verified key now l acc out :
  fold_res (spent_row key now) acc l = Ok out -> Forall (fun r => VerifyVtxoOperation r key = Ok tt) l.
Proof.
  revert acc. induction l as [|r l IH]; intros acc H; [constructor|]. simpl in H.
  apply bind_Ok in H as (a & Hr & H). constructor; [|by eapply IH].
  unfold spent_row in Hr. apply bind_Ok in Hr as (rec & Hr & _). by apply verified_Ok in Hr as [_ ?].
Qed.

Lemma op_charge_nonneg key now r : VerifyVtxoOperation r key = Ok tt -> 0 <= op_charge now r.
Proof.
  intros H. apply Verify_op_payload in H as ([] & _). unfold op_charge. destruct (_ && _); lia.
Qed.

(** ** Loaded journals *)

(** Opens one row of a loader. *)
Ltac inv_row H :=
  apply bind_Ok in H as ([] & ?Hmac & H); apply fail_if_Ok in Hmac;
  let m := fresh "rec" in let Em := fresh "Hrec" in
  match type of H with
  | context [match ?x with Some _ => _ | None => _ end] => destruct x as [m|] eqn:Em; [|discriminate H]
  end.

Record delegation_loaded (id : bytes) (s : SpendingDelegationSnapshot) : Prop := {
  dl_id : sd_OperationID (ds_Operation s) = id;
  dl_valid : validateDelegation (ds_Operation s) = Ok tt;
  dl_events : forall p e, ds_Events s !! p = Some e ->
    de_Phase e = p /\ de_OperationID e = id /\ validateDelegationEvent e = Ok tt;
}.

Lemma is_ok_unit (m : result unit) : is_ok m = true -> m = Ok tt.
Proof. destruct m as [[]|]; done. Qed.

Lemma load_delegation_op_Ok key all row all' :
  load_delegation_op key all row = Ok all' ->
  exists o, all' = <[jo_operation_id row := Build_SpendingDelegationSnapshot o ∅]> all /\
    unmarshal_delegation (jo_payload row) = Some o /\
    sd_OperationID o = jo_operation_id row /\ sd_VaultID o = jo_vault_id row /\ validateDelegation o = Ok tt.
Proof.
  unfold load_delegation_op. intros H. inv_row H. apply bind_Ok in H as ([] & Hb & H).
  apply fail_if_Ok in Hb. bool_hyps. apply Ok_inj in H as <-. eexists. split_and!; try done.
  by apply is_ok_unit.
Qed.

Lemma load_delegation_event_Ok key all row all' :
  load_delegation_event key all row = Ok all' ->
  exists s e, all !! je_operation_id row = Some s /\
    all' = <[je_operation_id row :=
             Build_SpendingDelegationSnapshot (ds_Operation s) (<[je_phase row := e]> (ds_Events s))]> all /\
    unmarshal_delegation_event (je_payload row) = Some e /\
    de_OperationID e = je_operation_id row /\ de_Phase e = je_phase row /\ validateDelegationEvent e = Ok tt.
Proof.
  unfold load_delegation_event. intros H. inv_row H.
  destruct (all !! je_operation_id row) as [s|]; [|done].
  apply bind_Ok in H as ([] & Hb & H). apply fail_if_Ok in Hb. bool_hyps. apply Ok_inj in H as <-.
  exists s, rec. split_and!; try done. by apply is_ok_unit.
Qed.

Lemma delegations_loaded d key all :
  loadSpendingDelegations d key = Ok all -> forall id s, all !! id = Some s -> delegation_loaded id s.
Proof.
  unfold loadSpendingDelegations. intros H. apply bind_Ok in H as (all0 & Ho & H).
  apply bind_Ok in H as ([] & _ & He).
  refine (fold_res_ind (fun a => forall id s, a !! id = Some s -> delegation_loaded id s) _ _ _ _ _ _ He).
  - intros a row a' IH _ H. apply load_delegation_event_Ok in H as (s & e & Hs & -> & _ & Hi & Hp & Hv).
    intros id s'. destruct (decide (je_operation_id row = id)) as [<-|Hne].
    + rewrite lookup_insert_eq. intros [= <-]. destruct (IH _ _ Hs) as [H1 H2 H3]. constructor; cbn; [done..|].
      intros p e'. destruct (decide (je_phase row = p)) as [<-|Hp'].
      * rewrite lookup_insert_eq. by intros [= <-].
      * rewrite lookup_insert_ne by done. apply H3.
    + rewrite lookup_insert_ne by done. apply IH.
  - refine (fold_res_ind (fun a => forall id s, a !! id = Some s -> delegation_loaded id s) _ _ _ _ _ _ Ho);
      [|done].
    intros a row a' IH _ H. apply load_delegation_op_Ok in H as (o & -> & _ & Hi & _ & Hv).
    intros id s'. destruct (decide (jo_operation_id row = id)) as [<-|Hne].
    + rewrite lookup_insert_eq. intros [= <-]. by constructor.
    + rewrite lookup_insert_ne by done. apply IH.
Qed.

(** Appending a well-formed event row extends exactly one journal. *)
Lemma load_delegation_event_append d key all s e :
  loadSpendingDelegations d key = Ok all -> all !! de_OperationID e = Some s ->
  validateDelegationEvent e = Ok tt ->
  unmarshal_delegation_event (marshal_delegation_event e) = Some e ->
  blen (marshal_delegation_event e) <= 8000000 ->
  loadSpendingDelegations
    (set_delegation (Build_JournalTables (t_jop (db_delegation d)) (t_jevent (db_delegation d) ++
      [{| je_operation_id := de_OperationID e; je_phase := de_Phase e; je_payload := marshal_delegation_event e;
          je_mac := renewalMAC key delegation_event_domain (marshal_delegation_event e) |}])) d) key
  = Ok (<[de_OperationID e := add_delegation_event s e]> all).
Proof.
  unfold loadSpendingDelegations. intros H Hs Hv Hu Hlen. apply bind_Ok in H as (all0 & Ho & H).
  apply bind_Ok in H as ([] & Hset & He). cbn [db_delegation set_delegation t_jop t_jevent].
  rewrite Ho. cbn [mbind result_bind]. rewrite Hset. cbn [mbind result_bind]. rewrite fold_res_app, He.
  cbn [mbind result_bind fold_res]. unfold load_delegation_event. cbn [je_payload je_mac je_operation_id je_phase].
  assert (8000000 <? blen (marshal_delegation_event e) = false) as -> by (apply Z.ltb_ge; lia).
  unfold hmac_Equal. rewrite bool_decide_eq_true_2 by done. cbn [orb negb fail_if].
  unfold mbind, result_bind. rewrite Hu, Hs, !bool_decide_eq_true_2, Hv by done. reflexivity.
Qed.

(** For plain text the two notions of length agree. *)
Lemma text_length_plain s : plain s -> text_length s = blen s.
Proof.
  unfold text_length, blen. induction s as [|c s IH]; [done|]. intros H. apply Forall_cons in H as [Hc Hs].
  cbn [text_length_from length]. destruct (Z.eqb_spec (u8 c) 0); [lia|]. cbn [andb].
  assert (192 <=? u8 c = false) as -> by lia. rewrite IH by done. lia.
Qed.

Lemma insertDelegationEvent_Ok key e l l' :
  insertDelegationEvent key e l = (l', Ok tt) ->
  validateDelegationEvent e = Ok tt /\ text_length (marshal_delegation_event e) <= 8000000 /\
  l' = set_db (set_delegation (Build_JournalTables (t_jop (db_delegation (l_db l)))
    (t_jevent (db_delegation (l_db l)) ++
      [{| je_operation_id := de_OperationID e; je_phase := de_Phase e; je_payload := marshal_delegation_event e;
          je_mac := renewalMAC key delegation_event_domain (marshal_delegation_event e) |}])) (l_db l)) l.
Proof.
  unfold insertDelegationEvent, insert_delegation_event_row. intros H. inv_M.
  apply negb_false_iff in E1. unfold check_event_row in E1. cbn [je_payload] in E1.
  repeat (apply andb_true_split in E1 as [E1 ?]). bool_hyps. done.
Qed.

Lemma validateDelegation_id o : validateDelegation o = Ok tt -> canonicalRenewalHex (sd_OperationID o) 16 = true.
Proof.
  unfold validateDelegation. destruct (parse_rfc3339 _); [|done]. intros H. inv_ok. bool_hyps. done.
Qed.

(** ** Loaded payment batches *)
Record renewal_loaded (id : bytes) (s : SpendingRenewalSnapshot) : Prop := {
  rl_id : ro_OperationID (rs_Operation s) = id;
  rl_valid : validateSpendingRenewalOperation (rs_Operation s) = Ok tt;
  rl_events : forall p e, rs_Events s !! p = Some e ->
    re_Phase e = p /\ re_OperationID e = id /\ validateSpendingRenewalEvent e = Ok tt;
}.

Lemma load_renewal_op_Ok key all row all' :
  load_renewal_op key all row = Ok all' ->
  exists o, all' = <[jo_operation_id row := Build_SpendingRenewalSnapshot o ∅]> all /\
    unmarshal_renewal (jo_payload row) = Some o /\
    ro_OperationID o = jo_operation_id row /\ ro_VaultID o = jo_vault_id row /\
    validateSpendingRenewalOperation o = Ok tt.
Proof.
  unfold load_renewal_op. intros H. inv_row H. apply bind_Ok in H as ([] & Hb & H).
  apply fail_if_Ok in Hb. bool_hyps. apply Ok_inj in H as <-. eexists. split_and!; try done.
  by apply is_ok_unit.
Qed.

Lemma load_renewal_event_Ok key all row all' :
  load_renewal_event key all row = Ok all' ->
  exists s e, all !! je_operation_id row = Some s /\
    all' = <[je_operation_id row :=
             Build_SpendingRenewalSnapshot (rs_Operation s) (<[je_phase row := e]> (rs_Events s))]> all /\
    unmarshal_renewal_event (je_payload row) = Some e /\
    re_OperationID e = je_operation_id row /\ re_Phase e = je_phase row /\ validateSpendingRenewalEvent e = Ok tt.
Proof.
  unfold load_renewal_event. intros H. inv_row H.
  destruct (all !! je_operation_id row) as [s|]; [|done].
  apply bind_Ok in H as ([] & Hb & H). apply fail_if_Ok in Hb. bool_hyps. apply Ok_inj in H as <-.
  exists s, rec. split_and!; try done. by apply is_ok_unit.
Qed.

Lemma renewals_loaded d key all :
  loadSpendingRenewals d key = Ok all -> forall id s, all !! id = Some s -> renewal_loaded id s.
Proof.
  unfold loadSpendingRenewals. intros H. apply bind_Ok in H as (all0 & Ho & He).
  refine (fold_res_ind (fun a => forall id s, a !! id = Some s -> renewal_loaded id s) _ _ _ _ _ _ He).
  - intros a row a' IH _ H. apply load_renewal_event_Ok in H as (s & e & Hs & -> & _ & Hi & Hp & Hv).
    intros id s'. destruct (decide (je_operation_id row = id)) as [<-|Hne].
    + rewrite lookup_insert_eq. intros [= <-]. destruct (IH _ _ Hs) as [H1 H2 H3]. constructor; cbn; [done..|].
      intros p e'. destruct (decide (je_phase row = p)) as [<-|Hp'].
      * rewrite lookup_insert_eq. by intros [= <-].
      * rewrite lookup_insert_ne by done. apply H3.
    + rewrite lookup_insert_ne by done. apply IH.
  - refine (fold_res_ind (fun a => forall id s, a !! id = Some s -> renewal_loaded id s) _ _ _ _ _ _ Ho); [|done].
    intros a row a' IH _ H. apply load_renewal_op_Ok in H as (o & -> & _ & Hi & _ & Hv).
    intros id s'. destruct (decide (jo_operation_id row = id)) as [<-|Hne].
    + rewrite lookup_insert_eq. intros [= <-]. by constructor.
    + rewrite lookup_insert_ne by done. apply IH.
Qed.

(** Events only touch operations that exist. *)
Lemma renewal_events_frame key rows id s all out :
  all !! id = None -> fold_res (load_renewal_event key) all rows = Ok out ->
  fold_res (load_renewal_event key) (<[id := s]> all) rows = Ok (<[id := s]> out).
Proof.
  revert all. induction rows as [|row rows IH]; intros all Hn H; cbn [fold_res] in *.
  - by apply Ok_inj in H as <-.
  - apply bind_Ok in H as (all1 & H1 & H). pose proof (load_renewal_event_Ok _ _ _ _ H1) as (s0 & e & Hs & -> & _).
    assert (je_operation_id row <> id) as Hne by congruence.
    assert (load_renewal_event key (<[id := s]> all) row = Ok (<[id := s]> (<[je_operation_id row :=
      Build_SpendingRenewalSnapshot (rs_Operation s0) (<[je_phase row := e]> (rs_Events s0))]> all))) as ->.
    { revert H1. unfold load_renewal_event. destruct (fail_if _ _) as [[]|]; [|done]. cbn [mbind result_bind].
      destruct (unmarshal_renewal_event _) as [e'|]; [|done].
      rewrite (lookup_insert_ne all id) by done. rewrite Hs. destruct (fail_if _ _) as [[]|]; [|done].
      cbn [mbind result_bind]. intros H1. apply Ok_inj in H1.
      rewrite insert_insert_ne by done. by rewrite H1. }
    cbn [mbind result_bind]. apply IH; [|done]. by rewrite lookup_insert_ne.
Qed.

Lemma load_renewal_op_append d key all o :
  loadSpendingRenewals d key = Ok all -> ~ (exists row, row ∈ t_jop (db_renewal d) /\ jo_operation_id row = ro_OperationID o) ->
  validateSpendingRenewalOperation o = Ok tt -> unmarshal_renewal (marshal_renewal o) = Some o ->
  blen (marshal_renewal o) <= 16384 ->
  loadSpendingRenewals
    (set_renewal (Build_JournalTables (t_jop (db_renewal d) ++
      [{| jo_operation_id := ro_OperationID o; jo_vault_id := ro_VaultID o; jo_payload := marshal_renewal o;
          jo_mac := renewalMAC key renewal_operation_domain (marshal_renewal o) |}]) (t_jevent (db_renewal d))) d) key
  = Ok (<[ro_OperationID o := Build_SpendingRenewalSnapshot o ∅]> all).
Proof.
  unfold loadSpendingRenewals. intros H Hnew Hv Hu Hlen. apply bind_Ok in H as (all0 & Ho & He).
  cbn [db_renewal set_renewal t_jop t_jevent]. rewrite fold_res_app, Ho. cbn [mbind result_bind fold_res].
  unfold load_renewal_op at 1. cbn [jo_payload jo_mac jo_operation_id jo_vault_id].
  assert (16384 <? blen (marshal_renewal o) = false) as -> by (apply Z.ltb_ge; lia).
  unfold hmac_Equal. rewrite bool_decide_eq_true_2 by done. cbn [orb negb fail_if].
  unfold mbind at 1 2 3, result_bind at 1 2 3. rewrite Hu, !bool_decide_eq_true_2, Hv by done.
  cbn [orb negb fail_if is_ok]. apply renewal_events_frame; [|done].
  assert (forall id, all0 !! id <> None -> exists row, row ∈ t_jop (db_renewal d) /\ jo_operation_id row = id) as Hdom.
  { refine (fold_res_ind (fun a => forall id, a !! id <> None ->
      exists row, row ∈ t_jop (db_renewal d) /\ jo_operation_id row = id) _ _ _ _ _ _ Ho); [|done].
    intros a row a' IH Hrow H. apply load_renewal_op_Ok in H as (o' & -> & _). intros id.
    destruct (decide (jo_operation_id row = id)) as [<-|Hne]; [eauto|]. rewrite lookup_insert_ne by done. apply IH. }
  destruct (all0 !! ro_OperationID o) eqn:E; [|done]. destruct Hnew. apply Hdom. congruence.
Qed.

Lemma load_renewal_event_append d key all s e :
  loadSpendingRenewals d key = Ok all -> all !! re_OperationID e = Some s ->
  validateSpendingRenewalEvent e = Ok tt ->
  unmarshal_renewal_event (marshal_renewal_event e) = Some e ->
  blen (marshal_renewal_event e) <= 1048576 ->
  loadSpendingRenewals
    (set_renewal (Build_JournalTables (t_jop (db_renewal d)) (t_jevent (db_renewal d) ++
      [{| je_operation_id := re_OperationID e; je_phase := re_Phase e; je_payload := marshal_renewal_event e;
          je_mac := renewalMAC key renewal_event_domain (marshal_renewal_event e) |}])) d) key
  = Ok (<[re_OperationID e := add_renewal_event s e]> all).
Proof.
  unfold loadSpendingRenewals. intros H Hs Hv Hu Hlen. apply bind_Ok in H as (all0 & Ho & He).
  cbn [db_renewal set_renewal t_jop t_jevent]. rewrite Ho. cbn [mbind result_bind]. rewrite fold_res_app, He.
  cbn [mbind result_bind fold_res]. unfold load_renewal_event. cbn [je_payload je_mac je_operation_id je_phase].
  assert (1048576 <? blen (marshal_renewal_event e) = false) as -> by (apply Z.ltb_ge; lia).
  unfold hmac_Equal. rewrite bool_decide_eq_true_2 by done. cbn [orb negb fail_if].
  unfold mbind, result_bind. rewrite Hu, Hs, !bool_decide_eq_true_2, Hv by done. reflexivity.
Qed.

(** ** The charged total, in the other direction

    When the charges of the loaded rows fit an int64, the sum is computed,
    whatever the order in which the maps are visited. *)
Lemma renewal_amounts o :
  validateSpendingRenewalOperation o = Ok tt -> 0 <= ro_FeeSats o <= 5000 /\ 330 <= ro_AmountSats o <= 2100000000000000.
Proof. unfold validateSpendingRenewalOperation. intros H. inv_ok. bool_hyps. lia. Qed.

Lemma delegation_fee o : validateDelegation o = Ok tt -> 0 <= sd_FeeSats o <= 20000.
Proof.
  unfold validateDelegation. destruct (parse_rfc3339 _); [|done]. intros H. inv_ok. bool_hyps. lia.
Qed.

Lemma renewal_charge_cases v now kv :
  renewal_charge v now kv = 0 \/
  renewal_charge v now kv = ro_FeeSats (rs_Operation (snd kv)) + ro_AmountSats (rs_Operation (snd kv)).
Proof. unfold renewal_charge. destruct (_ && _); auto. Qed.

Lemma renewal_step_total v now t kv :
  validateSpendingRenewalOperation (rs_Operation (snd kv)) = Ok tt -> t + renewal_charge v now kv <= max_int64 ->
  renewal_allowance_step v now t kv = Ok (t + renewal_charge v now kv).
Proof.
  intros Hv Ht. destruct (renewal_allowance_step v now t kv) as [t'|e] eqn:E.
  - f_equal. by apply renewal_allowance_step_Ok in E.
  - exfalso. revert E. unfold renewal_allowance_step, renewal_charge, confirmation_in_window in *.
    destruct kv as [k s]; cbn [snd] in *. destruct (bool_decide _); cbn [negb andb] in *; [|done].
    destruct (renewalTerminal s); cbn [negb orb] in *.
    + destruct (rs_Events s !! str "confirmed") as [c|]; cbn [fmap option_fmap option_map] in *; [|done].
      destruct (_ + allowanceWindow <? now); cbn [negb] in *; [done|].
      destruct (Z.ltb_spec (max_int64 - ro_FeeSats (rs_Operation s) - ro_AmountSats (rs_Operation s)) t); [lia|done].
    + destruct (Z.ltb_spec (max_int64 - ro_FeeSats (rs_Operation s) - ro_AmountSats (rs_Operation s)) t); [lia|done].
Qed.

Lemma delegation_step_total v now t kv :
  validateDelegation (ds_Operation (snd kv)) = Ok tt -> t + delegation_charge v now kv <= max_int64 ->
  delegation_allowance_step v now t kv = Ok (t + delegation_charge v now kv).
Proof.
  intros Hv Ht. destruct (delegation_allowance_step v now t kv) as [t'|e] eqn:E.
  - f_equal. by apply delegation_allowance_step_Ok in E.
  - exfalso. revert E. unfold delegation_allowance_step, delegation_charge, confirmation_in_window in *.
    destruct kv as [k s]; cbn [snd] in *. destruct (bool_decide (sd_VaultID _ = _)); cbn [negb andb orb] in *; [|done].
    destruct (bool_decide (ds_Events s = ∅)); cbn [negb andb orb] in *; [done|].
    destruct (delegationTerminal s); cbn [negb orb] in *.
    + destruct (ds_Events s !! str "confirmed") as [c|]; cbn [fmap option_fmap option_map] in *; [|done].
      destruct (_ + allowanceWindow <? now); cbn [negb] in *; [done|].
      destruct (Z.ltb_spec (max_int64 - sd_FeeSats (ds_Operation s)) t); [lia|done].
    + destruct (Z.ltb_spec (max_int64 - sd_FeeSats (ds_Operation s)) t); [lia|done].
Qed.

(** A loop of charging steps that all fit. *)
Lemma fold_res_total {A} (f : Z -> A -> result Z) (charge : A -> Z) l acc :
  Forall (fun x => 0 <= charge x /\ forall t, t + charge x <= max_int64 -> f t x = Ok (t + charge x)) l ->
  acc + sumZ charge l <= max_int64 -> fold_res f acc l = Ok (acc + sumZ charge l).
Proof.
  intros HF. revert acc. induction HF as [|x l [Hx Hf] HF IH]; intros acc Ht; cbn in *; [by rewrite Z.add_0_r|].
  fold (sumZ charge l) in Ht |- *. assert (0 <= sumZ charge l) by (apply sumZ_nonneg; eapply Forall_impl; [exact HF|by intros ? []]).
  rewrite Hf by lia. cbn [mbind result_bind]. rewrite IH by lia. f_equal. lia.
Qed.

Lemma renewals_total l v key all :
  loadSpendingRenewals (l_db l) key = Ok all ->
  0 <= sumZ (renewal_charge v (l_now l)) (map_to_list all) /\
  (sumZ (renewal_charge v (l_now l)) (map_to_list all) <= max_int64 ->
   spendingRenewalAllowance l v key = Ok (sumZ (renewal_charge v (l_now l)) (map_to_list all))).
Proof.
  intros Hl.
  assert (Forall (fun kv => 0 <= renewal_charge v (l_now l) kv /\ validateSpendingRenewalOperation (rs_Operation (snd kv)) = Ok tt)
    (map_to_list all)) as HF.
  { apply Forall_forall. intros [id s] Hin. apply elem_of_map_to_list in Hin.
    destruct (renewals_loaded _ _ _ Hl _ _ Hin) as [_ Hv _]. split; [|done].
    apply renewal_amounts in Hv. destruct (renewal_charge_cases v (l_now l) (id, s)) as [->| ->]; cbn; lia. }
  split; [apply sumZ_nonneg; eapply Forall_impl; [exact HF|by intros ? []]|].
  intros Hmax. unfold spendingRenewalAllowance, NowUTC. rewrite Hl. cbn [mbind result_bind].
  rewrite (fold_res_total _ (renewal_charge v (l_now l))); [done| |done].
  eapply Forall_impl; [exact HF|]. intros kv [? Hv]. split; [done|]. intros t. by apply renewal_step_total.
Qed.

Lemma delegations_total l v key all :
  loadSpendingDelegations (l_db l) key = Ok all ->
  0 <= sumZ (delegation_charge v (l_now l)) (map_to_list all) /\
  (sumZ (delegation_charge v (l_now l)) (map_to_list all) <= max_int64 ->
   delegationAllowance l v key = Ok (sumZ (delegation_charge v (l_now l)) (map_to_list all))).
Proof.
  intros Hl.
  assert (Forall (fun kv => 0 <= delegation_charge v (l_now l) kv /\ validateDelegation (ds_Operation (snd kv)) = Ok tt)
    (map_to_list all)) as HF.
  { apply Forall_forall. intros [id s] Hin. apply elem_of_map_to_list in Hin.
    destruct (delegations_loaded _ _ _ Hl _ _ Hin) as [_ Hv _]. split; [|done].
    apply delegation_fee in Hv. unfold delegation_charge. cbn [snd].
    match goal with |- context [if ?c then _ else _] => destruct c end; lia. }
  split; [apply sumZ_nonneg; eapply Forall_impl; [exact HF|by intros ? []]|].
  intros Hmax. unfold delegationAllowance, NowUTC. rewrite Hl. cbn [mbind result_bind].
  rewrite (fold_res_total _ (delegation_charge v (l_now l))); [done| |done].
  eapply Forall_impl; [exact HF|]. intros kv [? Hv]. split; [done|]. intros t. by apply delegation_step_total.
Qed.

Lemma spentInWindow_total l v key ops renewals delegations :
  integrityKeyCopy l = Ok key -> fold_res (spent_row key (l_now l)) 0 (vault_operations (l_db l) v) = Ok ops ->
  loadSpendingRenewals (l_db l) key = Ok renewals -> loadSpendingDelegations (l_db l) key = Ok delegations ->
  0 <= ops -> ops + sumZ (renewal_charge v (l_now l)) (map_to_list renewals)
    + sumZ (delegation_charge v (l_now l)) (map_to_list delegations) <= max_int64 ->
  spentInWindow l v = Ok (ops + sumZ (renewal_charge v (l_now l)) (map_to_list renewals)
    + sumZ (delegation_charge v (l_now l)) (map_to_list delegations)).
Proof.
  intros Hk Ho Hr Hd Hpos Hmax. destruct (renewals_total _ v _ _ Hr) as [Hr0 HrT].
  destruct (delegations_total _ v _ _ Hd) as [Hd0 HdT].
  unfold spentInWindow, NowUTC. rewrite Hk. cbn [mbind result_bind]. rewrite Ho. cbn [mbind result_bind].
  rewrite HrT by lia. cbn [mbind result_bind].
  set (R := sumZ (renewal_charge v (l_now l)) (map_to_list renewals)) in *.
  set (D := sumZ (delegation_charge v (l_now l)) (map_to_list delegations)) in *.
  assert (addOutflow ops R = Ok (ops + R)) as -> by (apply addOutflow_Ok; lia). cbn [mbind result_bind].
  rewrite HdT by lia. cbn [mbind result_bind]. apply addOutflow_Ok. lia.
Qed.

(** ** Claims *)

(** C2: the amount charged against a vault's allowance is exactly the sum over
    its authenticated Spending rows, payment batches and delegations of what
    each one owes; a signed or submitted payment owes its amount and fee
    whatever the clock says, a reserved, finalized or unresolved one for 24
    hours after its creation, a batch or claimed delegation until it ends and
    for 24 hours after a confirmation; and an aborted payment owes nothing. *)
Theorem allowance_accounting l v total :
  spentInWindow l v = Ok total ->
  (exists key renewals delegations,
    integrityKeyCopy l = Ok key /\
    loadSpendingRenewals (l_db l) key = Ok renewals /\ loadSpendingDelegations (l_db l) key = Ok delegations /\
    Forall (fun r => VerifyVtxoOperation r key = Ok tt) (vault_operations (l_db l) v) /\
    total = sumZ (op_charge (l_now l)) (vault_operations (l_db l) v)
            + sumZ (renewal_charge v (l_now l)) (map_to_list renewals)
            + sumZ (delegation_charge v (l_now l)) (map_to_list delegations)) /\
  (forall r, r ∈ vault_operations (l_db l) v -> vtxoStateAwaitingSettlement (vo_State r) = true ->
     vo_AmountSats r + vo_FeeSats r <= total) /\
  (forall r, r ∈ vault_operations (l_db l) v -> vo_State r = vtxoStateAborted -> op_charge (l_now l) r = 0).
Proof.
  intros H. apply spentInWindow_Ok in H as (key & rs & ds & ops & Hk & Hr & Hd & Ho & Es & -> & Hle).
  pose proof (spent_rows_verified _ _ _ _ _ Ho) as Hv. split_and!.
  - exists key, rs, ds. split_and!; try done. lia.
  - intros r Hin Ha.
    assert (op_charge (l_now l) r <= ops) as Hc.
    { rewrite Es. apply sumZ_elem; [|done]. eapply Forall_impl; [exact Hv|].
      intros x Hx. exact (op_charge_nonneg _ _ _ Hx). }
    unfold op_charge in Hc. rewrite Ha in Hc.
    assert (vtxoStateCountsTowardAllowance (vo_State r) = true) as E.
    { unfold vtxoStateAwaitingSettlement, vtxoStateCountsTowardAllowance in *.
      repeat destruct (bool_decide _); done. }
    rewrite E in Hc. cbn in Hc. lia.
  - intros r _ E. unfold op_charge. rewrite E. reflexivity.
Qed.

Definition demo_signed : VtxoOperation := vo_set_State vtxoStateSigned demo_op.
Definition demo_signed_row : VtxoOperation :=
  vo_set_MAC (hmac_sha256 demo_key (vo_encoding demo_signed)) demo_signed.
(** The same ledger, years after the payment was signed. *)
Definition demo_late_ledger : Ledger := {|
  l_db := set_vtxo (Build_VtxoTables [demo_signed_row] []) demo_db; l_network := str "mutinynet";
  l_now := 1897225660 * second; l_integrityKey := demo_vault_key; l_monotonic := Some demo_monotonic;
  l_file := Some (sequence_body demo_monotonic 1); l_faults := []; l_commit_ok := true |}.

Lemma allowance_accounting_witness :
  spentInWindow demo_late_ledger (str "vault-1") = Ok 20100 /\ 20000 + 100 <= 20100.
Proof.
  split; [vm_compute; reflexivity|].
  apply (proj1 (proj2 (allowance_accounting demo_late_ledger (str "vault-1") 20100
    ltac:(vm_compute; reflexivity))) demo_signed_row); [|vm_compute; reflexivity].
  apply list_elem_of_In. left. reflexivity.
Defined.
