(* ===== verification/TenantLedger.v ===== *)
(** The tenant tables: the database methods of [internal/policy/tenant.go],
    [invite.go], [pending.go], [vaultmap.go] and [enrollment_session.go].

    The byte-slice columns of [vault] and [vault_credential] that are NOT NULL
    take any non-nil slice; the records here stand for non-nil slices. *)
From Stdlib Require Import Strings.Byte.
From S2P Require Import Prelude Sha256 Text GoTime Program Tenant Store Journal.

#[local] Arguments hmac_sha256 : simpl never.
#[local] Arguments format_rfc3339 : simpl never.

(** ** Table updates *)
Definition set_vaults (rows : list VaultRecord) (d : Db) : Db :=
  let t := db_tenant d in
  set_tenant (Build_TenantTables rows (t_vault_credential t) (t_vault_envelope t) (t_sign_count t)
                (t_vault_map t) (t_invite t) (t_pending t)) d.
Definition set_credentials (rows : list VaultCredential) (d : Db) : Db :=
  let t := db_tenant d in
  set_tenant (Build_TenantTables (t_vault t) rows (t_vault_envelope t) (t_sign_count t)
                (t_vault_map t) (t_invite t) (t_pending t)) d.
Definition set_envelopes (rows : list (bytes * CredentialEnvelope)) (d : Db) : Db :=
  let t := db_tenant d in
  set_tenant (Build_TenantTables (t_vault t) (t_vault_credential t) rows (t_sign_count t)
                (t_vault_map t) (t_invite t) (t_pending t)) d.
Definition set_maps (rows : list VaultMapRow) (d : Db) : Db :=
  let t := db_tenant d in
  set_tenant (Build_TenantTables (t_vault t) (t_vault_credential t) (t_vault_envelope t) (t_sign_count t)
                rows (t_invite t) (t_pending t)) d.
Definition set_invites (rows : list InviteRow) (d : Db) : Db :=
  let t := db_tenant d in
  set_tenant (Build_TenantTables (t_vault t) (t_vault_credential t) (t_vault_envelope t) (t_sign_count t)
                (t_vault_map t) rows (t_pending t)) d.
Definition set_pendings (rows : list PendingEnrollment) (d : Db) : Db :=
  let t := db_tenant d in
  set_tenant (Build_TenantTables (t_vault t) (t_vault_credential t) (t_vault_envelope t) (t_sign_count t)
                (t_vault_map t) (t_invite t) rows) d.

(** ** Vaults *)
Definition find_vault (d : Db) (vaultID : bytes) : option VaultRecord :=
  List.find (fun v => vr_VaultID v == vaultID) (t_vault (db_tenant d)).

(** [Ok None] when there is no such vault. *)
Definition loadVault (d : Db) (vaultID : bytes) : result (option (VaultRecord * option VaultCredential)) :=
  _ ← fail_if (vaultID == []) (ErrMsg "vault id required");
  match find_vault d vaultID with
  | None => Ok None
  | Some v => Ok (Some (v, enrolled_credential d vaultID))
  end.

Definition LoadVault (vaultID : bytes) (l : Ledger) : result (option (VaultRecord * option VaultCredential)) :=
  loadVault (l_db l) vaultID.

Definition LoadVerifiedVault (vaultID key : bytes) (l : Ledger)
  : result (option (VaultRecord * option VaultCredential)) :=
  found ← LoadVault vaultID l;
  match found with
  | None => Ok None
  | Some (rec, cred) =>
      _ ← verifyVaultRecord rec key;
      _ ← match cred with
          | Some cred => verifyVaultCredential cred key
          | None => Ok tt
          end;
      Ok (Some (rec, cred))
  end.

Definition tier_known (tier : bytes) : bool :=
  (tier == ProtectionTierLight) || (tier == ProtectionTierStandard) || (tier == ProtectionTierAdvanced).

(** The CHECK and key constraints of [vault]; an empty recovery key is NULL. *)
Definition check_vault_row (d : Db) (v : VaultRecord) : bool :=
  negb (has_vault d (vr_VaultID v)) && tier_known (vr_ProtectionTier v)
  && (vr_CosignerMode v == CosignerModeHKDFSHA256V1) && (blen (vr_IntegrityMAC v) =? 32)
  && (if vr_ProtectionTier v == ProtectionTierAdvanced then blen (vr_RecoveryKey v) =? 33
      else blen (vr_RecoveryKey v) =? 0).

Definition insert_vault (v : VaultRecord) : M unit :=
  d ← query (fun l => Ok (l_db l));
  _ ← guard_M (negb (check_vault_row d v)) (ErrConstraint "vault");
  modify_db (fun d => set_vaults (t_vault (db_tenant d) ++ [v]) d).

Definition insert_credential (c : VaultCredential) : M unit :=
  d ← query (fun l => Ok (l_db l));
  _ ← guard_M (existsb (fun r => vc_CredentialID r == vc_CredentialID c) (t_vault_credential (db_tenant d))
               || negb (has_vault d (vc_VaultID c)) || negb (blen (vc_IntegrityMAC c) =? 32))
        (ErrConstraint "vault_credential");
  modify_db (fun d => set_credentials (t_vault_credential (db_tenant d) ++ [c]) d).

(** The CHECK constraints of [vault_envelope]. *)
Definition check_envelope_row (e : CredentialEnvelope) : bool :=
  (ce_Version e =? 2) && (0 <? text_length (ce_Binding e)) && (text_length (ce_Binding e) <=? 16384)
  && (blen (ce_Nonce e) =? 12) && (blen (ce_Ciphertext e) =? 48) && (blen (ce_DirectSig e) =? 64)
  && (blen (ce_PhoneSig e) =? 64) && (blen (ce_IntegrityMAC e) =? 32).

Definition insertVaultEnvelopeTx (vaultID : bytes) (e : CredentialEnvelope) : M unit :=
  d ← query (fun l => Ok (l_db l));
  _ ← guard_M (existsb (fun r => fst r == vaultID) (t_vault_envelope (db_tenant d))
               || negb (has_vault d vaultID) || negb (check_envelope_row e))
        (ErrConstraint "vault_envelope");
  modify_db (fun d => set_envelopes (t_vault_envelope (db_tenant d) ++ [(vaultID, e)]) d).

Definition insertVaultTx (v : VaultRecord) (cred : VaultCredential) (envelope : option CredentialEnvelope) : M unit :=
  _ ← insert_vault v;
  _ ← insert_credential cred;
  match envelope with
  | Some e => insertVaultEnvelopeTx (vr_VaultID v) e
  | None => mret tt
  end.

Definition ListVaultIDs (l : Ledger) : list bytes :=
  slice_stable bytes_ltb (map vr_VaultID (t_vault (db_tenant (l_db l)))).

(** ** Envelopes *)
Definition getVaultEnvelope (d : Db) (vaultID : bytes) : result (option CredentialEnvelope) :=
  match List.find (fun r => fst r == vaultID) (t_vault_envelope (db_tenant d)) with
  | None => Ok None
  | Some (_, e) => _ ← validateCredentialEnvelope e; Ok (Some e)
  end.

Definition GetVaultEnvelope (vaultID : bytes) (l : Ledger) : result (option CredentialEnvelope) :=
  _ ← fail_if (vaultID == []) (ErrMsg "vault id required");
  getVaultEnvelope (l_db l) vaultID.

Definition StoreVaultEnvelopeIfAbsent (vaultID : bytes) (envelope : CredentialEnvelope) : M unit :=
  _ ← guard_M (vaultID == []) (ErrMsg "vault id required");
  _ ← lift (validateCredentialEnvelope envelope);
  _ ← guard_M (negb (blen (ce_IntegrityMAC envelope) =? sha256_Size))
        (ErrMsg "credential envelope integrity MAC must be 32 bytes");
  transaction (
    l ← query (fun l => Ok l);
    match enrolled_credential (l_db l) vaultID with
    | None => lift (Err (ErrMsg "vault credential required"))
    | Some cred =>
        _ ← lift (VerifyVaultEnvelope envelope vaultID (vc_CredentialID cred) (l_integrityKey l));
        existing ← query (fun l => getVaultEnvelope (l_db l) vaultID);
        match existing with
        | Some e => guard_M (negb (envelopesEqual e envelope)) (ErrMsg "credential envelope locked")
        | None => wrap_M "credential envelope locked or failed" (insertVaultEnvelopeTx vaultID envelope)
        end
    end).

(** [UPDATE vault_envelope SET ... WHERE vault_id = ?]; the row exists. *)
Definition update_envelope (vaultID : bytes) (e : CredentialEnvelope) : M unit :=
  _ ← guard_M (negb (check_envelope_row e)) (ErrConstraint "vault_envelope");
  modify_db (fun d => set_envelopes
    (map (fun r => if fst r == vaultID then (vaultID, e) else r) (t_vault_envelope (db_tenant d))) d).

Definition ReplaceVaultEnvelope (vaultID : bytes) (expected replacement : CredentialEnvelope) : M unit :=
  _ ← guard_M (vaultID == []) (ErrMsg "vault id required");
  _ ← lift (validateCredentialEnvelope expected);
  _ ← lift (validateCredentialEnvelope replacement);
  _ ← guard_M (negb (blen (ce_IntegrityMAC expected) =? sha256_Size)
               || negb (blen (ce_IntegrityMAC replacement) =? sha256_Size))
        (ErrMsg "credential envelope integrity MAC must be 32 bytes");
  transaction (
    l ← query (fun l => Ok l);
    match enrolled_credential (l_db l) vaultID with
    | None => lift (Err (ErrMsg "vault credential required"))
    | Some cred =>
        _ ← lift (VerifyVaultEnvelope expected vaultID (vc_CredentialID cred) (l_integrityKey l));
        _ ← lift (VerifyVaultEnvelope replacement vaultID (vc_CredentialID cred) (l_integrityKey l));
        current ← query (fun l => getVaultEnvelope (l_db l) vaultID);
        _ ← guard_M (match current with Some c => negb (envelopesEqual c expected) | None => true end)
              (ErrMsg "credential envelope changed during upgrade");
        rows ← query (fun l => Ok (List.filter (fun r => fst r == vaultID) (t_vault_envelope (db_tenant (l_db l)))));
        _ ← wrap_M "replace credential envelope" (update_envelope vaultID replacement);
        guard_M (negb (Z.of_nat (length rows) =? 1)) (ErrMsg "replace credential envelope affected %d rows")
    end).

(** ** Invitations *)
Definition find_invite (d : Db) (tokenHash : bytes) : option InviteRow :=
  List.find (fun r => ir_token_hash r == tokenHash) (t_invite (db_tenant d)).

Definition getInvite (d : Db) (tokenHash : bytes) : option Invite :=
  match find_invite d tokenHash with
  | None => None
  | Some r => Some {| inv_TokenHash := ir_token_hash r; inv_ExpiresAt := ir_expires_at r;
                      inv_ConsumedVaultID := default [] (ir_consumed_vault_id r); inv_CreatedAt := ir_created_at r |}
  end.

Definition GetInvite (tokenHash : bytes) (l : Ledger) : result (option Invite) :=
  _ ← fail_if (negb (blen tokenHash =? sha256_Size)) (ErrMsg "invite token_hash must be 32 bytes");
  Ok (getInvite (l_db l) tokenHash).

Definition insert_invite (tokenHash expiresAt createdAt : bytes) : M unit :=
  d ← query (fun l => Ok (l_db l));
  _ ← guard_M (match find_invite d tokenHash with Some _ => true | None => false end
               || negb (blen tokenHash =? 32)) (ErrConstraint "invite");
  modify_db (fun d => set_invites (t_invite (db_tenant d) ++ [Build_InviteRow tokenHash expiresAt None createdAt]) d).

Definition PutInvite (tokenHash expiresAt createdAt : bytes) : M unit :=
  _ ← guard_M (negb (blen tokenHash =? sha256_Size)) (ErrMsg "invite token_hash must be 32 bytes");
  _ ← guard_M ((expiresAt == []) || (createdAt == [])) (ErrMsg "invite timestamps required");
  transaction (insert_invite tokenHash expiresAt createdAt).

(** ** Enrollment sessions *)
Definition unconsumed (r : InviteRow) : bool :=
  match ir_consumed_vault_id r with None => true | Some _ => false end.

(** The admission records the sweep removes. *)
Definition stale_invite (cutoff : bytes) (r : InviteRow) : bool :=
  unconsumed r && bytes_ltb (ir_expires_at r) cutoff.

Definition count_where {A} (p : A -> bool) (l : list A) : Z := Z.of_nat (length (List.filter p l)).

Definition recent_invites (now : Z) (rows : list InviteRow) : Z :=
  count_where (fun r => bytes_leb (format_rfc3339 (now - minute)) (ir_created_at r)) rows.
Definition active_invites (now : Z) (rows : list InviteRow) : Z :=
  count_where (fun r => unconsumed r && bytes_leb (format_rfc3339 now) (ir_expires_at r)) rows.

(** The sweep deletes the pending enrollments of the stale invitations before
    the invitations themselves, so the foreign key never refuses it. *)
Definition sweep_stale (cutoff : bytes) : M unit :=
  modify_db (fun d =>
    let stale := List.filter (stale_invite cutoff) (t_invite (db_tenant d)) in
    set_pendings (List.filter (fun p => negb (existsb (fun r => ir_token_hash r == pe_TokenHash p) stale))
                    (t_pending (db_tenant d))) d);;
  modify_db (fun d => set_invites (List.filter (fun r => negb (stale_invite cutoff r)) (t_invite (db_tenant d))) d).

Definition IssueEnrollmentSession (hash : bytes) (now : Z) : M Z :=
  _ ← guard_M (negb (blen hash =? sha256_Size)) (ErrMsg "enrollment token hash must be 32 bytes");
  transaction (
    _ ← sweep_stale (format_rfc3339 (now - 24 * hour));
    rows ← query (fun l => Ok (t_invite (db_tenant (l_db l))));
    _ ← guard_M ((30 <=? recent_invites now rows) || (1000 <=? active_invites now rows))
          (ErrMsg "setup is busy; try again shortly");
    let expires := now + 10 * minute in
    _ ← insert_invite hash (format_rfc3339 expires) (format_rfc3339 now);
    mret expires).

(** ** Pending enrollments *)
Definition GetPendingByHandle (handle : bytes) (l : Ledger) : result (option PendingEnrollment) :=
  _ ← fail_if (handle == []) (ErrMsg "pending enrollment handle required");
  Ok (List.find (fun p => pe_Handle p == handle) (t_pending (db_tenant (l_db l)))).

Definition getPendingByTokenHashTx (d : Db) (tokenHash : bytes) : option PendingEnrollment :=
  List.find (fun p => pe_TokenHash p == tokenHash) (t_pending (db_tenant d)).

(** The constraints of [pending_enrollment] on a row that is to join [rows]. *)
Definition check_pending_row (d : Db) (rows : list PendingEnrollment) (p : PendingEnrollment) : bool :=
  negb (existsb (fun r => (pe_Handle r == pe_Handle p) || (pe_VaultID r == pe_VaultID p)
                          || (pe_TokenHash r == pe_TokenHash p)) rows)
  && (blen (pe_TokenHash p) =? 32) && tier_known (pe_ProtectionTier p) && (blen (pe_PolicyDigest p) =? 32)
  && match find_invite d (pe_TokenHash p) with Some _ => true | None => false end.

Definition replace_pending (existing p : PendingEnrollment) : M unit :=
  d ← query (fun l => Ok (l_db l));
  let selected r := (pe_TokenHash r == pe_TokenHash p) && (pe_Handle r == pe_Handle existing)
                    && (pe_Challenge r == pe_Challenge existing) in
  let others := List.filter (fun r => negb (selected r)) (t_pending (db_tenant d)) in
  _ ← guard_M (negb (check_pending_row d others p)) (ErrConstraint "pending_enrollment");
  _ ← guard_M (negb (count_where selected (t_pending (db_tenant d)) =? 1))
        (ErrMsg "pending enrollment changed concurrently");
  modify_db (fun d => set_pendings (map (fun r => if selected r then p else r) (t_pending (db_tenant d))) d).

Definition insert_pending (p : PendingEnrollment) : M unit :=
  d ← query (fun l => Ok (l_db l));
  _ ← guard_M (negb (check_pending_row d (t_pending (db_tenant d)) p)) (ErrConstraint "pending_enrollment");
  modify_db (fun d => set_pendings (t_pending (db_tenant d) ++ [p]) d).

Definition reservePendingEnrollmentTx (p : PendingEnrollment) : M PendingEnrollment :=
  d ← query (fun l => Ok (l_db l));
  match getInvite d (pe_TokenHash p) with
  | None => lift (Err (ErrMsg "invite not available"))
  | Some inv =>
      _ ← guard_M (inv_ConsumedVaultID inv != []) (ErrMsg "invite not available");
      _ ← guard_M ((inv_ExpiresAt inv != []) && bytes_ltb (inv_ExpiresAt inv) (pe_CreatedAt p)) (ErrMsg "invite expired");
      match getPendingByTokenHashTx d (pe_TokenHash p) with
      | Some existing =>
          if (pe_ExpiresAt existing != []) && bytes_leb (pe_CreatedAt p) (pe_ExpiresAt existing) then
            _ ← guard_M (pe_ProtectionTier existing != pe_ProtectionTier p)
                  (ErrMsg "pending enrollment protection tier changed");
            _ ← guard_M (pe_PolicyDigest existing != pe_PolicyDigest p) (ErrMsg "pending enrollment policy changed");
            mret existing
          else
            _ ← replace_pending existing p;
            mret p
      | None =>
          _ ← wrap_M "pending enrollment" (insert_pending p);
          mret p
      end
  end.

Definition ReservePendingEnrollment (p : PendingEnrollment) : M PendingEnrollment :=
  _ ← lift (validatePendingEnrollment p);
  transaction (reservePendingEnrollmentTx p).

(** [DELETE FROM pending_enrollment WHERE ...] and its row count. *)
Definition consumePendingEnrollmentTx (pending : option PendingEnrollment) (now : Z) : M unit :=
  match pending with
  | None => mret tt
  | Some p =>
      _ ← guard_M ((pe_ExpiresAt p != []) && bytes_ltb (pe_ExpiresAt p) (format_rfc3339 now))
            (ErrMsg "pending enrollment expired");
      let selected r := (pe_Handle r == pe_Handle p) && (pe_TokenHash r == pe_TokenHash p)
        && (pe_VaultID r == pe_VaultID p) && (pe_Challenge r == pe_Challenge p)
        && (pe_ProtectionTier r == pe_ProtectionTier p) && (pe_PolicyDigest r == pe_PolicyDigest p)
        && (pe_ExpiresAt r == pe_ExpiresAt p) in
      rows ← query (fun l => Ok (t_pending (db_tenant (l_db l))));
      _ ← modify_db (fun d => set_pendings (List.filter (fun r => negb (selected r)) (t_pending (db_tenant d))) d);
      guard_M (negb (count_where selected rows =? 1)) (ErrMsg "pending enrollment changed")
  end.

(** ** Vault maps *)
Definition vault_map_row (rec : VaultMap) (now : Z) (key : bytes) : VaultMapRow :=
  {| vmr_vault_id := vm_VaultID rec; vmr_kit_hash := vm_KitHash rec; vmr_payload := vm_Payload rec;
     vmr_updated_at := format_rfc3339nano now; vmr_integrity_mac := vaultMapMAC rec key |}.

Definition upsert_map (row : VaultMapRow) (rows : list VaultMapRow) : list VaultMapRow :=
  let same r := vmr_vault_id r == vmr_vault_id row in
  if existsb same rows then map (fun r => if same r then row else r) rows else rows ++ [row].

Definition put_map_row (row : VaultMapRow) : M unit :=
  d ← query (fun l => Ok (l_db l));
  _ ← guard_M (negb (has_vault d (vmr_vault_id row)) || negb (text_length (vmr_kit_hash row) =? 64)
               || negb ((0 <? text_length (vmr_payload row)) && (text_length (vmr_payload row) <=? 98304))
               || negb (blen (vmr_integrity_mac row) =? 32))
        (ErrConstraint "vault_map");
  modify_db (fun d => set_maps (upsert_map row (t_vault_map (db_tenant d))) d).

Definition normal_map `{Unicode} (rec : VaultMap) : VaultMap :=
  Build_VaultMap (trim_space (vm_VaultID rec)) (ToLower (trim_space (vm_KitHash rec))) (vm_Payload rec).

Definition PutVaultMap `{Unicode} (rec : VaultMap) : M unit :=
  key ← query (fun l => Ok (l_integrityKey l));
  _ ← guard_M (negb (blen key =? sha256_Size)) (ErrMsg "map ledger required");
  let rec := normal_map rec in
  _ ← guard_M ((vm_VaultID rec == []) || negb (blen (vm_KitHash rec) =? 64) || (vm_Payload rec == [])
               || (98304 <? blen (vm_Payload rec))) (ErrMsg "vault map required");
  now ← query (fun l => Ok (l_now l));
  transaction (put_map_row (vault_map_row rec now key)).

Definition GetVaultMap (vaultID : bytes) (l : Ledger) : result (option VaultMap) :=
  _ ← fail_if (negb (blen (l_integrityKey l) =? sha256_Size)) (ErrMsg "map ledger required");
  let vaultID := trim_space vaultID in
  _ ← fail_if (vaultID == []) (ErrMsg "vault id required");
  match List.find (fun r => vmr_vault_id r == vaultID) (t_vault_map (db_tenant (l_db l))) with
  | None => Ok None
  | Some r =>
      let rec := Build_VaultMap (vmr_vault_id r) (vmr_kit_hash r) (vmr_payload r) in
      _ ← fail_if (negb (hmac_Equal (vmr_integrity_mac r) (vaultMapMAC rec (l_integrityKey l))))
            (ErrMsg "vault map MAC mismatch");
      Ok (Some rec)
  end.

Lemma count_where_snoc {A} (p : A -> bool) l x :
  count_where p (l ++ [x]) = count_where p l + (if p x then 1 else 0).
Proof.
  unfold count_where. rewrite List.filter_app, length_app. cbn [List.filter]. destruct (p x); cbn [length]; lia.
Qed.

Lemma envelopesEqual_true a b : envelopesEqual a b = true -> a = b.
Proof. unfold envelopesEqual. intros H. bool_hyps. destruct a, b; cbn in *. by subst. Qed.

(** The envelope on file for a vault. *)
Definition envelope_of (d : Db) (vaultID : bytes) : option CredentialEnvelope :=
  snd <$> List.find (fun r => fst r == vaultID) (t_vault_envelope (db_tenant d)).

Lemma getVaultEnvelope_Ok d v e : getVaultEnvelope d v = Ok e -> envelope_of d v = e.
Proof.
  unfold getVaultEnvelope, envelope_of. destruct (List.find _ _) as [[k x]|]; intros H; inv_ok; done.
Qed.

(** ** Claims *)

(** a recovery envelope is written once and replaced only by
    compare-and-swap.  [StoreVaultEnvelopeIfAbsent] either changes nothing or
    adds the envelope where there was none; [ReplaceVaultEnvelope] succeeds only
    when the envelope on file is exactly the expected one; both accept only an
    envelope authenticated for the vault and its enrolled passkey, and neither
    touches another vault's envelope. *)
Theorem envelope_compare_and_swap v e0 e l l' r :
  (StoreVaultEnvelopeIfAbsent v e l = (l', r) \/ ReplaceVaultEnvelope v e0 e l = (l', r)) ->
  match r with
  | Err _ => l_db l' = l_db l
  | Ok _ =>
      envelope_of (l_db l') v = Some e /\
      (forall v', v' <> v -> envelope_of (l_db l') v' = envelope_of (l_db l) v') /\
      (exists cred, enrolled_credential (l_db l) v = Some cred /\
         VerifyVaultEnvelope e v (vc_CredentialID cred) (l_integrityKey l) = Ok tt) /\
      (envelope_of (l_db l) v = None \/ l_db l' = l_db l \/ envelope_of (l_db l) v = Some e0)
  end.
Proof.
  intros [H|H]; (destruct r as [[]|err]; [|
    unfold StoreVaultEnvelopeIfAbsent, ReplaceVaultEnvelope in H;
    repeat (apply bind_inv in H as [(? & ? & Hs & H)|(? & Hs & ?)];
      [unfold guard_M, lift in Hs; apply pair_equal_spec in Hs as [<- _]
      |unfold guard_M, lift in Hs; apply pair_equal_spec in Hs as [<- _]; done]);
    by apply transaction_Err in H]).
  - unfold StoreVaultEnvelopeIfAbsent in H. read_step H u1 G1. read_step H u2 G2. read_step H u3 G3.
    apply transaction_Ok in H as [H _]. read_step H l0 El. apply Ok_inj in El as <-.
    destruct (enrolled_credential (l_db l) v) as [cred|] eqn:Ec; [|by inv_M].
    read_step H u4 Hv. destruct u4. read_step H cur Hcur. apply getVaultEnvelope_Ok in Hcur. destruct cur as [x|].
    + inv_M. bool_hyps. apply envelopesEqual_true in H as ->. split_and!; eauto.
    + unfold insertVaultEnvelopeTx in H. inv_M. bool_hyps. unfold envelope_of in *. cbn.
      split_and!; [| |by exists cred|].
      * by erewrite (find_snoc_new fst); [|by destruct (List.find _ _)|].
      * intros v' Hne. by rewrite (find_snoc_other fst).
      * by left.
  - unfold ReplaceVaultEnvelope in H. read_step H u1 G1. read_step H u2 G2. read_step H u3 G3. read_step H u4 G4.
    apply transaction_Ok in H as [H _]. read_step H l0 El. apply Ok_inj in El as <-.
    destruct (enrolled_credential (l_db l) v) as [cred|] eqn:Ec; [|by inv_M].
    read_step H u5 Hv0. read_step H u6 Hv. destruct u6. read_step H cur Hcur. apply getVaultEnvelope_Ok in Hcur.
    read_step H u7 Hx. destruct cur as [x|]; [|done]. bool_hyps. apply envelopesEqual_true in Hx as ->.
    unfold update_envelope in H. inv_M. unfold envelope_of in *. cbn.
    destruct (List.find _ _) as [y|] eqn:Ef; [|done].
    split_and!; [| |by exists cred|by right; right].
    + rewrite (find_update fst) by done. by rewrite bool_decide_eq_true_2, (find_existsb fst _ _ _ Ef).
    + intros v' Hne. rewrite (find_update fst) by done. by rewrite bool_decide_eq_false_2.
Qed.

Definition demo_vault_envelope : CredentialEnvelope :=
  match SealVaultEnvelope (ce_set_MAC [] demo_envelope) (str "vault-1") (str "cred") demo_vault_key with
  | Ok e => e
  | Err _ => demo_envelope
  end.

Lemma envelope_compare_and_swap_witness :
  exists l', StoreVaultEnvelopeIfAbsent (str "vault-1") demo_vault_envelope demo_enrolled_ledger = (l', Ok tt) /\
    envelope_of (l_db l') (str "vault-1") = Some demo_vault_envelope.
Proof.
  destruct (StoreVaultEnvelopeIfAbsent (str "vault-1") demo_vault_envelope demo_enrolled_ledger) as [l' [[]|e]] eqn:E.
  - exists l'. split; [reflexivity|].
    exact (proj1 (envelope_compare_and_swap (str "vault-1") demo_vault_envelope demo_vault_envelope
      demo_enrolled_ledger l' (Ok tt) (or_introl E))).
  - exfalso. apply (f_equal (fun p => is_ok (snd p))) in E. vm_compute in E. discriminate E.
Defined.

(** issuing an enrollment token keeps the admission limits: afterwards at
    most 30 tokens were issued in the last minute and at most 1000 unused tokens
    are live.  The new token is recorded once, unused, for ten minutes; consumed
    tokens and their identities are kept; a refused call changes no table. *)
Theorem enrollment_admission_bounded hash now l l' r :
  IssueEnrollmentSession hash now l = (l', r) ->
  match r with
  | Err _ => l_db l' = l_db l
  | Ok expires =>
      let rows := t_invite (db_tenant (l_db l)) in
      let rows' := t_invite (db_tenant (l_db l')) in
      let issued := Build_InviteRow hash (format_rfc3339 expires) None (format_rfc3339 now) in
      expires = now + 10 * minute /\
      recent_invites now rows' <= 30 /\ active_invites now rows' <= 1000 /\
      find_invite (l_db l') hash = Some issued /\
      (forall x, x ∈ rows' -> x = issued \/ x ∈ rows) /\
      (forall x, x ∈ rows -> unconsumed x = false -> x ∈ rows')
  end.
Proof.
  unfold IssueEnrollmentSession. intros H. destruct r as [expires|err].
  - read_step H u1 G1. apply transaction_Ok in H as [H _]. apply bind_Ok_M in H as (u2 & l1 & Hs & H).
    unfold sweep_stale in Hs. inv_M. rename E into Hrows. apply Ok_inj in Hrows as <-. bool_hyps.
    unfold insert_invite in *. inv_M. cbn [l_db set_db db_tenant set_invites set_tenant t_invite set_pendings] in *.
    match goal with H : _ = Ok _ |- _ => apply Ok_inj in H; subst end. bool_hyps. cbn in *.
    set (kept := List.filter _ _) in *.
    cbv zeta. split_and!; [done| | | | |].
    + unfold recent_invites in *. rewrite count_where_snoc.
      match goal with |- context [if ?b then 1 else 0] => destruct b end; lia.
    + unfold active_invites in *. rewrite count_where_snoc.
      match goal with |- context [if ?b then 1 else 0] => destruct b end; lia.
    + unfold find_invite in *. cbn. apply (find_snoc_new ir_token_hash); [|done]. by destruct (List.find _ _).
    + intros x Hx. apply elem_of_app in Hx as [Hx|Hx]; [|apply list_elem_of_singleton in Hx as ->; by left]. right.
      unfold kept in Hx. apply list_elem_of_In, List.filter_In in Hx as [Hx _]. by apply list_elem_of_In.
    + intros x Hx Hu. apply elem_of_app. left. apply list_elem_of_In, List.filter_In.
      split; [by apply list_elem_of_In|]. unfold stale_invite. by rewrite Hu.
  - apply bind_inv in H as [(? & ? & Hs & H)|(? & Hs & ?)]; unfold guard_M, lift in Hs;
      apply pair_equal_spec in Hs as [<- _]; [|done]. by apply transaction_Err in H.
Qed.

Lemma enrollment_admission_bounded_witness :
  exists l' expires, IssueEnrollmentSession (repeat Byte.x09 32) (1767225660 * second) demo_ledger = (l', Ok expires) /\
    active_invites (1767225660 * second) (t_invite (db_tenant (l_db l'))) <= 1000.
Proof.
  destruct (IssueEnrollmentSession (repeat Byte.x09 32) (1767225660 * second) demo_ledger) as [l' [x|e]] eqn:E.
  - exists l', x. split; [reflexivity|].
    exact (proj1 (proj2 (proj2 (enrollment_admission_bounded (repeat Byte.x09 32) (1767225660 * second) demo_ledger l'
      (Ok x) E)))).
  - exfalso. apply (f_equal (fun p => is_ok (snd p))) in E. vm_compute in E. discriminate E.
Defined.

(** ** Vault maps: what was put is what is read *)
Lemma find_upsert_map row rows id :
  List.find (fun r => vmr_vault_id r == id) (upsert_map row rows)
  = if bool_decide (id = vmr_vault_id row) then Some row else List.find (fun r => vmr_vault_id r == id) rows.
Proof. apply (find_upsert_key vmr_vault_id). Qed.

(** a stored recovery map is the one that is read back, under the
    normalised identifier and kit hash, and storing it changes no other vault's
    map; a refused call changes no table. *)
Theorem vault_map_roundtrip `{Unicode} rec id l l' r :
  PutVaultMap rec l = (l', r) ->
  match r with
  | Err _ => l_db l' = l_db l
  | Ok _ => GetVaultMap (vm_VaultID rec) l' = Ok (Some (normal_map rec)) /\
            (trim_space id <> trim_space (vm_VaultID rec) -> GetVaultMap id l' = GetVaultMap id l)
  end.
Proof.
  unfold PutVaultMap. intros E. destruct r as [[]|err].
  - read_step E key Hk. apply Ok_inj in Hk as <-. read_step E u1 G1. read_step E u2 G2. read_step E now Hn.
    apply transaction_Ok in E as [E _]. unfold put_map_row in E. inv_M. clear E0. bool_hyps.
    unfold GetVaultMap. cbn [set_db l_db l_integrityKey set_maps set_tenant db_tenant t_vault_map].
    rewrite !find_upsert_map. unfold vault_map_row. cbn [vmr_vault_id normal_map vm_VaultID].
    rewrite (bool_decide_eq_true_2 (trim_space (vm_VaultID rec) = trim_space (vm_VaultID rec))) by done.
    split.
    + rewrite G1. cbn [negb fail_if mbind result_bind Z.eqb].
      cbn [normal_map vm_VaultID] in *. rewrite bool_decide_eq_false_2 by done. cbn [fail_if mbind result_bind].
      cbn [vmr_vault_id vmr_kit_hash vmr_payload vmr_integrity_mac]. unfold hmac_Equal.
      rewrite bool_decide_eq_true_2; [done|reflexivity].
    + intros Hne. rewrite bool_decide_eq_false_2 by done. done.
  - revert l l' err E. change (clean (PutVaultMap rec)). unfold PutVaultMap. solve_clean.
Qed.

(** A case folding of ASCII text only, for the concrete runs. *)
Definition ascii_unicode : Unicode := {| unicode_ToLower := fun s => s |}.

Definition demo_map : VaultMap :=
  Build_VaultMap (str " vault-1") (concat (repeat (str "Ab") 32)) (str "{}").

Lemma vault_map_roundtrip_witness :
  exists l', @PutVaultMap ascii_unicode demo_map demo_enrolled_ledger = (l', Ok tt) /\
    GetVaultMap (str " vault-1") l'
    = Ok (Some (Build_VaultMap (str "vault-1") (concat (repeat (str "ab") 32)) (str "{}"))).
Proof.
  destruct (@PutVaultMap ascii_unicode demo_map demo_enrolled_ledger) as [l' [[]|e]] eqn:E.
  - exists l'. split; [reflexivity|].
    exact (proj1 (@vault_map_roundtrip ascii_unicode demo_map [] demo_enrolled_ledger l' (Ok tt) E)).
  - exfalso. apply (f_equal (fun p => is_ok (snd p))) in E. vm_compute in E. discriminate E.
Defined.
