(* ===== verification/SavingsLedger.v ===== *)
(** The Ledger Savings journal and the recovery backups in the store: the
    database methods of [internal/policy/ledger_savings.go] and
    [recovery_backup.go].

    The recovery journal is append-only.  Each call authenticates every event,
    decides from the last event of the same outpoint and purpose, and appends at
    most one event.  [recovery_journal] is the abstract contract: which event may
    follow which. *)
From Stdlib Require Import Strings.Byte.
From S2P Require Import Prelude Sha256 Text GoTime Json Renewal Board Savings Tenant Store Journal TenantLedger.

#[local] Arguments hmac_sha256 : simpl never.
#[local] Arguments format_rfc3339nano : simpl never.
#[local] Arguments marshal_recovery : simpl never.
#[local] Arguments unmarshal_recovery : simpl never.

(** ** Table updates *)
Definition set_savings_enrollments (rows : list LedgerSavingsEnrollment) (d : Db) : Db :=
  let t := db_savings d in set_savings (Build_SavingsTables rows (t_savings_event t) (t_backup t)) d.
Definition set_savings_events (rows : list SavingsEventRow) (d : Db) : Db :=
  let t := db_savings d in set_savings (Build_SavingsTables (t_savings_enrollment t) rows (t_backup t)) d.
Definition set_backups (rows : list BackupRow) (d : Db) : Db :=
  let t := db_savings d in set_savings (Build_SavingsTables (t_savings_enrollment t) (t_savings_event t) rows) d.

(** ** Enrollments *)
Definition find_savings (d : Db) (vaultID : bytes) : option LedgerSavingsEnrollment :=
  List.find (fun r => lse_VaultID r == vaultID) (t_savings_enrollment (db_savings d)).

Definition insert_savings_enrollment (rec : LedgerSavingsEnrollment) : M unit :=
  d ← query (fun l => Ok (l_db l));
  _ ← guard_M (negb (has_vault d (lse_VaultID rec))
               || existsb (fun r => lse_VaultID r == lse_VaultID rec) (t_savings_enrollment (db_savings d))
               || negb ((0 <? blen (lse_ContextJSON rec)) && (blen (lse_ContextJSON rec) <=? 8192))
               || negb (text_length (lse_DescriptorHash rec) =? 64)
               || negb (blen (lse_IntegrityMAC rec) =? 32))
        (ErrConstraint "ledger_savings_enrollment");
  modify_db (fun d => set_savings_enrollments (t_savings_enrollment (db_savings d) ++ [rec]) d).

Definition putLedgerSavingsEnrollmentTx (rec : LedgerSavingsEnrollment) : M unit :=
  _ ← lift (validateLedgerSavingsEnrollment rec);
  _ ← guard_M (negb (blen (lse_IntegrityMAC rec) =? 32)) (ErrMsg "Ledger Savings enrollment MAC required");
  insert_savings_enrollment rec.

Definition GetLedgerSavingsEnrollment (vaultID : bytes) (l : Ledger) : result (option LedgerSavingsEnrollment) :=
  match find_savings (l_db l) vaultID with
  | None => Ok None
  | Some rec => _ ← verifyLedgerSavingsEnrollment rec (l_integrityKey l); Ok (Some rec)
  end.

(** ** The recovery journal *)
Definition savings_event_mac (key : bytes) (id : Z) (vaultID raw : bytes) : bytes :=
  ledgerSavingsMAC key savings_event_domain [le64 id; vaultID; raw].

(** One row of the query; [lastID] is the identifier of the row before it. *)
Definition load_savings_event (key : bytes) (lastID : Z) (row : SavingsEventRow) : result LedgerSavingsRecovery :=
  let want := savings_event_mac key (wrap64 (se_event_id row)) (se_vault_id row) (se_record row) in
  _ ← fail_if (negb (hmac_Equal (se_integrity_mac row) want)) (ErrMsg "Ledger Savings recovery event MAC mismatch");
  match unmarshal_recovery (se_record row) with
  | None => Err (ErrMsg "json")
  | Some event =>
      _ ← validateLedgerSavingsRecovery event;
      _ ← fail_if ((rs_VaultID (lsr_Session event) != se_vault_id row) || (se_event_id row <=? lastID))
            (ErrMsg "Ledger Savings recovery event identity mismatch");
      Ok event
  end.

(** [ORDER BY event_id] *)
Definition ordered_events (d : Db) : list SavingsEventRow :=
  slice_stable (fun a b => se_event_id a <? se_event_id b) (t_savings_event (db_savings d)).

Definition same_recovery (next event : LedgerSavingsRecovery) : bool :=
  let s := lsr_Session event in let n := lsr_Session next in
  (rs_VaultID s == rs_VaultID n) && (rs_InputTxid s == rs_InputTxid n)
  && (rs_InputVout s =? rs_InputVout n) && (rs_Purpose s == rs_Purpose n).

(** The loop over the rows: the last event of the recovery, and the last
    identifier. *)
Definition scan_step (key : bytes) (next : LedgerSavingsRecovery)
    (acc : option LedgerSavingsRecovery * Z) (row : SavingsEventRow)
  : result (option LedgerSavingsRecovery * Z) :=
  event ← load_savings_event key (snd acc) row;
  Ok (if same_recovery next event then Some event else fst acc, se_event_id row).

Definition scan_recovery_events (next : LedgerSavingsRecovery) (l : Ledger)
  : result (option LedgerSavingsRecovery * Z) :=
  fold_res (scan_step (l_integrityKey l) next) (None, 0) (ordered_events (l_db l)).

Definition signature_len (rec : LedgerSavingsRecovery) : Z := blen (slice_bytes (rs_Signature (lsr_Session rec))).
Definition sighash_of (rec : LedgerSavingsRecovery) : bytes := rs_LastSighash (lsr_Session rec).

(** The guard on completions and the replay decision. *)
Definition decide_recovery `{Unicode} (existing : option LedgerSavingsRecovery) (next : LedgerSavingsRecovery)
  : result ReplayAction :=
  _ ← fail_if ((0 <? signature_len next)
               && match existing with
                  | None => true
                  | Some e => (lsr_CandidatePSBT next != lsr_CandidatePSBT e)
                              || (slice_bytes (lsr_DirectProof next) != slice_bytes (lsr_DirectProof e))
                  end)
        (ErrMsg "Ledger Savings completion must match the durable candidate");
  DecideReplay (lsr_Session <$> existing) (lsr_Session next).

(** Nothing new to record: the stored event answers the call. *)
Definition recovery_replays (action : ReplayAction) (existing : option LedgerSavingsRecovery)
    (next : LedgerSavingsRecovery) : bool :=
  (action == ReplayReplay)
  || match existing with
     | Some e => (signature_len e =? 0) && (signature_len next =? 0) && (sighash_of e == sighash_of next)
     | None => false
     end.

(** [next] with the timestamps of the event that is stored. *)
Definition stamp_recovery (existing : option LedgerSavingsRecovery) (now : Z) (next : LedgerSavingsRecovery)
  : LedgerSavingsRecovery :=
  let s := lsr_Session next in
  let now := format_rfc3339nano now in
  Build_LedgerSavingsRecovery
    (Build_RecoverySession (rs_VaultID s) (rs_Purpose s) (rs_InputTxid s) (rs_InputVout s) (rs_DestScript s)
       (rs_LastSighash s) (rs_Signature s)
       match existing with Some e => rs_CreatedAt (lsr_Session e) | None => now end now None)
    (lsr_CandidatePSBT next) (lsr_DirectProof next).

Definition recovery_event_row (key : bytes) (id : Z) (next : LedgerSavingsRecovery) : SavingsEventRow :=
  let vaultID := rs_VaultID (lsr_Session next) in
  let raw := marshal_recovery next in
  {| se_event_id := id; se_vault_id := vaultID; se_record := raw;
     se_integrity_mac := savings_event_mac key (wrap64 id) vaultID raw |}.

Definition insert_savings_event (row : SavingsEventRow) : M unit :=
  d ← query (fun l => Ok (l_db l));
  _ ← guard_M (existsb (fun r => se_event_id r =? se_event_id row) (t_savings_event (db_savings d))
               || (se_event_id row <=? 0)
               || negb (existsb (fun r => lse_VaultID r == se_vault_id row) (t_savings_enrollment (db_savings d)))
               || negb ((0 <? blen (se_record row)) && (blen (se_record row) <=? 393216))
               || negb (blen (se_integrity_mac row) =? 32))
        (ErrConstraint "ledger_savings_recovery_event");
  modify_db (fun d => set_savings_events (t_savings_event (db_savings d) ++ [row]) d).

(** Until the insertion the transaction only reads, so that its rollback does
    nothing; the sequence is observed once more after the COMMIT. *)
Definition ApplyLedgerSavingsRecovery `{Unicode} (next : LedgerSavingsRecovery)
  : M (ReplayAction * option LedgerSavingsRecovery) :=
  l ← query (fun l => Ok l);
  _ ← guard_M (negb (blen (l_integrityKey l) =? 32)) (ErrMsg "Ledger Savings integrity key required");
  _ ← lift (validateLedgerSavingsRecovery next);
  _ ← observeEconomicOutflowsLocked;
  found ← query (scan_recovery_events next);
  let '(existing, lastID) := found in
  action ← lift (decide_recovery existing next);
  if recovery_replays action existing next then
    _ ← observeEconomicOutflowsLocked;
    mret (action, existing)
  else
    let stored := stamp_recovery existing (l_now l) next in
    _ ← guard_M (lastID =? max_int64) (ErrMsg "Ledger Savings event ID overflow");
    _ ← transaction (insert_savings_event (recovery_event_row (l_integrityKey l) (lastID + 1) stored));
    _ ← observeEconomicOutflowsLocked;
    mret (action, Some stored).

(** ** Recovery backups *)
Definition readRecoveryBackup (d : Db) (id key : bytes) : result (option RecoveryBackup) :=
  match List.find (fun r => bk_vault_id r == id) (t_backup (db_savings d)) with
  | None => Ok None
  | Some row =>
      _ ← fail_if (bk_revision row <? 0) (ErrMsg "sql: converting driver.Value type int64 to a uint64");
      let rec := Build_RecoveryBackup (bk_revision row) (bk_payload row) in
      _ ← fail_if (negb (hmac_Equal (bk_integrity_mac row) (recoveryBackupMAC id rec key)))
            (ErrMsg "Recovery backup MAC mismatch");
      Ok (Some rec)
  end.

Definition GetRecoveryBackup (id : bytes) (l : Ledger) : result (option RecoveryBackup) :=
  _ ← fail_if (negb (blen (l_integrityKey l) =? 32)) (ErrMsg "backup ledger required");
  readRecoveryBackup (l_db l) id (l_integrityKey l).

(** [INSERT ... ON CONFLICT(vault_id) DO UPDATE] *)
Definition upsert_backup (row : BackupRow) (rows : list BackupRow) : list BackupRow :=
  let same r := bk_vault_id r == bk_vault_id row in
  if existsb same rows then map (fun r => if same r then row else r) rows else rows ++ [row].

Definition put_backup_row (row : BackupRow) : M unit :=
  d ← query (fun l => Ok (l_db l));
  _ ← guard_M (negb (has_vault d (bk_vault_id row)) || (bk_revision row <=? 0)
               || negb ((0 <? text_length (bk_payload row)) && (text_length (bk_payload row) <=? 3000000))
               || negb (blen (bk_integrity_mac row) =? 32))
        (ErrConstraint "recovery_backup");
  modify_db (fun d => set_backups (upsert_backup row (t_backup (db_savings d))) d).

Definition backup_revision (old : option RecoveryBackup) : Z :=
  match old with Some b => rb_Revision b | None => 0 end.

(** The revision check and the write of the next revision. *)
Definition put_next_backup (id : bytes) (expected current : Z) (payload : bytes) : M RecoveryBackup :=
  l ← query (fun l => Ok l);
  _ ← guard_M (negb (current =? expected))
        (ErrMsg "Recovery backup changed on another device; reopen with your passkey");
  let rec := Build_RecoveryBackup (expected + 1) payload in
  _ ← transaction (put_backup_row
        (Build_BackupRow id (rb_Revision rec) payload (recoveryBackupMAC id rec (l_integrityKey l))));
  mret rec.

(** A revision read from the row is below [1<<63], so [expected+1] does not
    wrap. *)
Definition PutRecoveryBackup (id : bytes) (expected : Z) (payload : bytes) : M RecoveryBackup :=
  l ← query (fun l => Ok l);
  _ ← guard_M (negb (blen (l_integrityKey l) =? 32) || (blen id =? 0) || (128 <? blen id) || (blen payload =? 0)
               || (MaxRecoveryBackupBytes <? blen payload) || (2 ^ 53 - 1 <=? expected))
        (ErrMsg "invalid Recovery backup");
  old ← query (fun l => readRecoveryBackup (l_db l) id (l_integrityKey l));
  let current := backup_revision old in
  match old with
  | Some b => if (current =? expected + 1) && (rb_Payload b == payload) then mret b
              else put_next_backup id expected current payload
  | None => put_next_backup id expected current payload
  end.

(** ** The abstract journal *)
(** The authenticated events, in order. *)
Fixpoint load_from (key : bytes) (lastID : Z) (rows : list SavingsEventRow) : result (list LedgerSavingsRecovery) :=
  match rows with
  | [] => Ok []
  | row :: rows =>
      event ← load_savings_event key lastID row;
      events ← load_from key (se_event_id row) rows;
      Ok (event :: events)
  end.
Definition recovery_events (l : Ledger) : result (list LedgerSavingsRecovery) :=
  load_from (l_integrityKey l) 0 (ordered_events (l_db l)).

Definition latest_from (next : LedgerSavingsRecovery) (acc : option LedgerSavingsRecovery)
    (es : list LedgerSavingsRecovery) : option LedgerSavingsRecovery :=
  fold_left (fun acc e => if same_recovery next e then Some e else acc) es acc.
Definition latest (next : LedgerSavingsRecovery) (es : list LedgerSavingsRecovery) : option LedgerSavingsRecovery :=
  latest_from next None es.

Definition dest_of (rec : LedgerSavingsRecovery) : bytes := rs_DestScript (lsr_Session rec).

(** Which event may come after [p], the last one of its recovery: first a
    reservation; a reservation is followed by its completion only, with the
    same sighash, candidate and proof; a completion by the reservation of a
    replacement with another sighash.  The destination never changes. *)
Definition follows (p : option LedgerSavingsRecovery) (e : LedgerSavingsRecovery) : Prop :=
  match p with
  | None => signature_len e = 0 /\ exists t, rs_CreatedAt (lsr_Session e) = format_rfc3339nano t
  | Some p =>
      dest_of e = dest_of p /\ rs_CreatedAt (lsr_Session e) = rs_CreatedAt (lsr_Session p) /\
      if signature_len p =? 0 then
        0 < signature_len e /\ sighash_of e = sighash_of p /\ lsr_CandidatePSBT e = lsr_CandidatePSBT p /\
        slice_bytes (lsr_DirectProof e) = slice_bytes (lsr_DirectProof p)
      else signature_len e = 0 /\ sighash_of e <> sighash_of p
  end.

Inductive recovery_journal : list LedgerSavingsRecovery -> Prop :=
  | rj_nil : recovery_journal []
  | rj_snoc es e : recovery_journal es -> follows (latest e es) e -> recovery_journal (es ++ [e]).

Lemma latest_snoc next es e :
  latest next (es ++ [e]) = if same_recovery next e then Some e else latest next es.
Proof. unfold latest, latest_from. by rewrite fold_left_app. Qed.

Lemma latest_elem next es p : latest next es = Some p -> p ∈ es /\ same_recovery next p = true.
Proof.
  induction es as [|e es IH] using rev_ind; [done|]. rewrite latest_snoc. destruct (same_recovery next e) eqn:E.
  - intros [= <-]. split; [|done]. apply elem_of_app. right. by apply list_elem_of_singleton.
  - intros H. destruct (IH H). split; [|done]. apply elem_of_app. by left.
Qed.

Lemma same_recovery_true a b :
  same_recovery a b = true <->
  rs_VaultID (lsr_Session a) = rs_VaultID (lsr_Session b) /\ rs_InputTxid (lsr_Session a) = rs_InputTxid (lsr_Session b) /\
  rs_InputVout (lsr_Session a) = rs_InputVout (lsr_Session b) /\ rs_Purpose (lsr_Session a) = rs_Purpose (lsr_Session b).
Proof.
  unfold same_recovery. rewrite !andb_true_split, !bool_decide_eq_true, Z.eqb_eq. naive_solver.
Qed.

Lemma same_recovery_refl a : same_recovery a a = true.
Proof. by apply same_recovery_true. Qed.

Lemma same_recovery_ext a b c : same_recovery a b = true -> same_recovery a c = same_recovery b c.
Proof.
  rewrite same_recovery_true. intros (E1 & E2 & E3 & E4). unfold same_recovery. by rewrite E1, E2, E3, E4.
Qed.

Lemma latest_ext a b es : same_recovery a b = true -> latest a es = latest b es.
Proof.
  intros H. induction es as [|e es IH] using rev_ind; [done|]. by rewrite !latest_snoc, IH, (same_recovery_ext a b e).
Qed.

Lemma latest_some next es e : e ∈ es -> same_recovery next e = true -> exists p, latest next es = Some p.
Proof.
  intros He Hs. induction es as [|x es IH] using rev_ind; [by apply elem_of_nil in He|].
  rewrite latest_snoc. destruct (same_recovery next x) eqn:E; [eauto|].
  apply elem_of_app in He as [He|He]; [auto|]. apply list_elem_of_singleton in He as ->. congruence.
Qed.

Lemma recovery_journal_created es :
  recovery_journal es -> Forall (fun e => ascii (rs_CreatedAt (lsr_Session e))) es.
Proof.
  induction 1 as [|es e Hj IH Hf]; [constructor|]. apply Forall_app. split; [done|]. repeat constructor.
  unfold follows in Hf. destruct (latest e es) as [p|] eqn:El.
  - destruct Hf as (_ & -> & _). apply latest_elem in El as [El _]. rewrite Forall_forall in IH. by apply IH.
  - destruct Hf as [_ [t ->]]. auto with guardian.
Qed.

(** All events of one recovery pay the destination of the last one. *)
Lemma recovery_journal_dest es :
  recovery_journal es -> forall e p, e ∈ es -> latest e es = Some p -> dest_of e = dest_of p.
Proof.
  induction 1 as [|es x Hj IH Hf]; intros e p He Hp; [by apply elem_of_nil in He|].
  rewrite latest_snoc in Hp. destruct (same_recovery e x) eqn:Es.
  - injection Hp as <-. apply elem_of_app in He as [He|He]; [|by apply list_elem_of_singleton in He as ->].
    destruct (latest_some e es e He) as [q Hq]; [apply same_recovery_refl|].
    rewrite (IH e q He Hq). rewrite <-(latest_ext e x) in Hf by done. rewrite Hq in Hf. by destruct Hf as [-> _].
  - apply elem_of_app in He as [He|He]; [eauto|].
    apply list_elem_of_singleton in He as ->. by rewrite same_recovery_refl in Es.
Qed.

(** A completion stands right after its reservation among the events of its
    recovery. *)
Lemma recovery_journal_signed es :
  recovery_journal es -> forall pre e post, es = pre ++ e :: post -> 0 < signature_len e ->
  exists p, latest e pre = Some p /\ signature_len p = 0 /\ sighash_of p = sighash_of e /\
    lsr_CandidatePSBT p = lsr_CandidatePSBT e /\ slice_bytes (lsr_DirectProof p) = slice_bytes (lsr_DirectProof e).
Proof.
  induction 1 as [|es x Hj IH Hf]; intros pre e post E Hs; [by destruct pre|].
  destruct post as [|y post _] using rev_ind.
  - apply app_inj_tail in E as [-> ->]. unfold follows in Hf. destruct (latest e pre) as [p|]; [|lia].
    exists p. destruct Hf as (_ & _ & Hf). destruct (Z.eqb_spec (signature_len p) 0); [|lia]. naive_solver.
  - rewrite app_comm_cons, app_assoc in E. apply app_inj_tail in E as [-> ->]. by eapply IH.
Qed.

(** ** Reading the journal *)
Definition last_id (last : Z) (rows : list SavingsEventRow) : Z := fold_left (fun _ r => se_event_id r) rows last.

#[local] Arguments load_savings_event : simpl never.

Lemma load_from_snoc key last rows x :
  load_from key last (rows ++ [x]) =
  (es ← load_from key last rows; e ← load_savings_event key (last_id last rows) x; Ok (es ++ [e])).
Proof.
  revert last. induction rows as [|r rows IH]; intros last; simpl.
  - by destruct (load_savings_event key last x).
  - rewrite IH. destruct (load_savings_event key last r); [|done]. simpl.
    destruct (load_from key (se_event_id r) rows); [|done]. simpl.
    unfold last_id. simpl. by destruct (load_savings_event _ _ x).
Qed.

Lemma load_savings_event_Ok key last row e :
  load_savings_event key last row = Ok e -> last < se_event_id row.
Proof.
  unfold load_savings_event. intros H. apply bind_Ok in H as (u & _ & H).
  destruct (unmarshal_recovery _); [|done]. apply bind_Ok in H as (u2 & _ & H). apply bind_Ok in H as (u3 & H & _).
  apply fail_if_Ok in H. bool_hyps. lia.
Qed.

Lemma load_from_bounds key rows last es :
  load_from key last rows = Ok es ->
  last <= last_id last rows /\ Forall (fun r => se_event_id r <= last_id last rows) rows.
Proof.
  revert last es. induction rows as [|r rows IH]; intros last es; simpl; [intros _; split; [done|constructor]|].
  intros H. apply bind_Ok in H as (e & He & H). apply bind_Ok in H as (es' & Hes & _).
  apply load_savings_event_Ok in He. destruct (IH _ _ Hes) as [H1 H2].
  unfold last_id in *. simpl. split; [lia|]. constructor; [lia|done].
Qed.

Lemma scan_load key next rows last ex es :
  load_from key last rows = Ok es ->
  fold_res (scan_step key next) (ex, last) rows = Ok (latest_from next ex es, last_id last rows).
Proof.
  revert last ex es. induction rows as [|r rows IH]; intros last ex es; simpl.
  - intros E. by apply Ok_inj in E as <-.
  - intros H. apply bind_Ok in H as (e & He & H). apply bind_Ok in H as (es' & Hes & H). apply Ok_inj in H as <-.
    assert (scan_step key next (ex, last) r = Ok (if same_recovery next e then Some e else ex, se_event_id r)) as ->
      by (unfold scan_step; cbn [fst snd]; by rewrite He).
    cbn [mbind result_bind]. by rewrite (IH _ _ _ Hes).
Qed.

Lemma scan_recovery_events_Ok next l es :
  recovery_events l = Ok es ->
  scan_recovery_events next l = Ok (latest next es, last_id 0 (ordered_events (l_db l))).
Proof. apply scan_load. Qed.

(** ** Appending an event *)
Lemma validate_recovery_stamp ex now next :
  validateLedgerSavingsRecovery (stamp_recovery ex now next) = validateLedgerSavingsRecovery next.
Proof. done. Qed.

Lemma validate_recovery_fields next :
  validateLedgerSavingsRecovery next = Ok tt ->
  let s := lsr_Session next in
  (rs_Purpose s = sessionPurposeInitiate \/ rs_Purpose s = sessionPurposeClawback) /\
  0 <= rs_InputVout s <= max_uint32 /\ rs_DestScript s <> [] /\ rs_LastSighash s <> [] /\
  Forall (fun v => exists raw, v = hex_encode raw) [rs_InputTxid s; rs_DestScript s; rs_LastSighash s].
Proof.
  unfold validateLedgerSavingsRecovery, requireSessionPurpose. intros H.
  apply bind_Ok in H as ([] & Hp & H). apply bind_Ok in H as ([] & Hb & H).
  apply fail_if_Ok in Hp, Hb. bool_hyps. cbv zeta. split_and!; try lia.
  - destruct (bool_decide_reflect (rs_Purpose (lsr_Session next) = sessionPurposeInitiate)); [by left|].
    destruct (bool_decide_reflect (rs_Purpose (lsr_Session next) = sessionPurposeClawback)); [by right|done].
  - intros E. rewrite E in *. done.
  - intros E. rewrite E in *. done.
  - apply each_Ok in H. eapply Forall_impl; [exact H|]. intros v Hv. apply fail_if_Ok in Hv. bool_hyps.
    by apply canonical_hex_spec.
Qed.

(** What reaches the ledger in a request: texts decoded from JSON. *)
Definition recovery_texts (next : LedgerSavingsRecovery) : Prop :=
  utf8_valid (rs_VaultID (lsr_Session next)) = true /\ utf8_valid (lsr_CandidatePSBT next) = true.

Lemma stamp_encodable ex now next :
  validateLedgerSavingsRecovery next = Ok tt -> recovery_texts next ->
  (forall e, ex = Some e -> ascii (rs_CreatedAt (lsr_Session e))) -> recovery_encodable (stamp_recovery ex now next).
Proof.
  intros Hv [H1 H2] Hc. apply validate_recovery_fields in Hv as (Hp & Ho & _ & _ & Hx).
  assert (forall b, utf8_valid (hex_encode b) = true) as Hh by (intros; apply utf8_ascii, ascii_hex_encode).
  repeat (apply Forall_cons in Hx as [[? ?] Hx]). unfold recovery_encodable. cbn. split.
  - repeat constructor; try done; try congruence.
    + destruct Hp as [-> | ->]; vm_compute; reflexivity.
    + destruct ex as [e|]; apply utf8_ascii; [by apply Hc|auto with guardian].
    + apply utf8_ascii. auto with guardian.
  - unfold is_int64, max_int64, max_uint32 in *. lia.
Qed.

Lemma load_stored_event key last id ex now next :
  validateLedgerSavingsRecovery next = Ok tt -> recovery_texts next ->
  (forall e, ex = Some e -> ascii (rs_CreatedAt (lsr_Session e))) -> last < id ->
  load_savings_event key last (recovery_event_row key id (stamp_recovery ex now next))
  = Ok (stamp_recovery ex now next).
Proof.
  intros Hv Ht Hc Hid. unfold load_savings_event, recovery_event_row. cbn [se_event_id se_vault_id se_record se_integrity_mac].
  unfold hmac_Equal. rewrite bool_decide_eq_true_2 by done. cbn [negb fail_if mbind result_bind].
  rewrite unmarshal_marshal_recovery by by apply stamp_encodable.
  rewrite validate_recovery_stamp, Hv. cbn [mbind result_bind].
  rewrite bool_decide_eq_true_2 by done. cbn [negb orb]. destruct (Z.leb_spec id last); [lia|done].
Qed.

Lemma ordered_append d row :
  Forall (fun r => se_event_id r < se_event_id row) (ordered_events d) ->
  ordered_events (set_savings_events (t_savings_event (db_savings d) ++ [row]) d) = ordered_events d ++ [row].
Proof.
  intros H. unfold ordered_events in *. apply slice_stable_snoc.
  rewrite slice_stable_perm in H. eapply Forall_impl; [exact H|]. intros r Hr. cbn in *. lia.
Qed.

Lemma insert_savings_event_Ok row l l' :
  insert_savings_event row l = (l', Ok tt) ->
  l' = set_db (set_savings_events (t_savings_event (db_savings (l_db l)) ++ [row]) (l_db l)) l.
Proof. unfold insert_savings_event. intros H. by inv_M. Qed.

Lemma stable_insert_savings_event row : stable (insert_savings_event row).
Proof. unfold insert_savings_event. solve_stable. Qed.

(** ** The decision *)
Lemma decide_recovery_follows `{Unicode} ex next action now :
  validateLedgerSavingsRecovery next = Ok tt -> decide_recovery ex next = Ok action ->
  (forall e, ex = Some e -> same_recovery next e = true) ->
  if recovery_replays action ex next then
    exists e, ex = Some e /\ dest_of e = dest_of next /\ sighash_of e = sighash_of next
  else follows ex (stamp_recovery ex now next) .
Proof.
  intros Hv Hd Hsame. apply validate_recovery_fields in Hv as (_ & _ & Hdest & Hsig & Hx).
  repeat (apply Forall_cons in Hx as [[? ?] Hx]).
  unfold decide_recovery in Hd. apply bind_Ok in Hd as ([] & Hg & Hd). apply fail_if_Ok in Hg.
  unfold DecideReplay in Hd. apply bind_Ok in Hd as ([] & _ & Hd). cbv zeta in Hd.
  apply bind_Ok in Hd as ([] & _ & Hd). unfold recovery_replays, follows, dest_of, sighash_of, signature_len in *.
  destruct ex as [e|]; cbn [fmap option_fmap option_map] in Hd.
  - apply bind_Ok in Hd as ([] & Hdst & Hd). apply bind_Ok in Hd as ([] & _ & Hd). apply fail_if_Ok in Hdst.
    bool_hyps. rewrite H1, normal_hex, <-H1 in Hdst.
    cbn [stamp_recovery lsr_Session rs_Signature rs_LastSighash rs_DestScript rs_CreatedAt lsr_CandidatePSBT lsr_DirectProof].
    pose proof (blen_nonneg (slice_bytes (rs_Signature (lsr_Session next)))).
    destruct (Z.eqb_spec (blen (slice_bytes (rs_Signature (lsr_Session e)))) 0) as [Ee|Ee].
    + apply bind_Ok in Hd as ([] & Hb & Hd). apply fail_if_Ok in Hb. bool_hyps. apply Ok_inj in Hd as <-.
      change (ReplayResign == ReplayReplay) with false. cbn [orb andb].
      destruct (Z.eqb_spec (blen (slice_bytes (rs_Signature (lsr_Session next)))) 0) as [En|En]; cbn [andb].
      * rewrite bool_decide_eq_true_2 by done. eauto.
      * destruct (Z.ltb_spec 0 (blen (slice_bytes (rs_Signature (lsr_Session next))))); [|lia].
        cbn [andb] in Hg. bool_hyps. done.
    + cbn [andb]. rewrite orb_false_r.
      destruct ((rs_LastSighash (lsr_Session next) != []) && _ && _) eqn:Er.
      * apply Ok_inj in Hd as <-. change (ReplayReplay == ReplayReplay) with true. bool_hyps. eauto.
      * apply bind_Ok in Hd as ([] & Hb & Hd). apply fail_if_Ok in Hb. bool_hyps. apply Ok_inj in Hd as <-.
        change (ReplayResign == ReplayReplay) with false. split_and!; try done.
        intros E. rewrite <-E in Er. rewrite (bool_decide_eq_false_2 _ Hsig), bool_decide_eq_true_2 in Er by done.
        pose proof (blen_nonneg (slice_bytes (rs_Signature (lsr_Session e)))).
        destruct (Z.ltb_spec 0 (blen (slice_bytes (rs_Signature (lsr_Session e))))); [done|lia].
  - apply Ok_inj in Hd as <-. change (ReplaySign == ReplayReplay) with false. cbn [orb].
    rewrite andb_true_r in Hg. bool_hyps.
    cbn [stamp_recovery lsr_Session rs_Signature rs_CreatedAt]. pose proof (blen_nonneg (slice_bytes (rs_Signature (lsr_Session next)))).
    split; [lia|eauto].
Qed.

(** ** Claims *)

(** The answer of a call: the last event of the recovery. *)
Definition recovery_answer (next : LedgerSavingsRecovery) (es : list LedgerSavingsRecovery)
    (r : result (ReplayAction * option LedgerSavingsRecovery)) : Prop :=
  match r with
  | Ok (_, stored) => exists e, stored = Some e /\ latest next es = Some e /\
                                dest_of e = dest_of next /\ sighash_of e = sighash_of next
  | Err _ => True
  end.

(** The effect of a call on the journal [es]. *)
Definition recovery_effect (next : LedgerSavingsRecovery) (es : list LedgerSavingsRecovery) (l' : Ledger)
    (r : result (ReplayAction * option LedgerSavingsRecovery)) : Prop :=
  exists es', recovery_events l' = Ok es' /\ recovery_journal es' /\
    (es' = es \/ exists e, es' = es ++ [e] /\ same_recovery next e = true) /\ recovery_answer next es' r.

Lemma recovery_events_same l l1 es :
  l_db l1 = l_db l -> l_integrityKey l1 = l_integrityKey l -> recovery_events l = Ok es -> recovery_events l1 = Ok es.
Proof. intros E1 E2. unfold recovery_events. by rewrite E1, E2. Qed.

Lemma effect_none next es l l' r :
  recovery_events l = Ok es -> recovery_journal es -> l_db l' = l_db l -> l_integrityKey l' = l_integrityKey l ->
  recovery_answer next es r -> recovery_effect next es l' r.
Proof. intros. exists es. split_and!; [by eapply recovery_events_same|done|by left|done]. Qed.

(** The journal after the insertion of the row of [stored]. *)
Lemma insert_event_journal next es now l l1 :
  let stored := stamp_recovery (latest next es) now next in
  recovery_texts next -> recovery_events l = Ok es -> recovery_journal es ->
  validateLedgerSavingsRecovery next = Ok tt -> follows (latest next es) stored ->
  insert_savings_event (recovery_event_row (l_integrityKey l) (last_id 0 (ordered_events (l_db l)) + 1) stored) l
    = (l1, Ok tt) ->
  recovery_events l1 = Ok (es ++ [stored]) /\ recovery_journal (es ++ [stored]) /\ same_recovery next stored = true.
Proof.
  intros stored Ht He Hj Hv Hf Hi. apply insert_savings_event_Ok in Hi as ->.
  assert (same_recovery next stored = true) as Hs by by apply same_recovery_true.
  split_and!; [|constructor; [done|by rewrite <-(latest_ext next stored)]|done].
  unfold recovery_events in *. cbn [set_db l_db l_integrityKey].
  destruct (load_from_bounds _ _ _ _ He) as [_ Hb]. rewrite ordered_append.
  - rewrite load_from_snoc, He. cbn [mbind result_bind]. unfold stored.
    rewrite load_stored_event; [done..| |lia]. intros e El. apply latest_elem in El as [El _].
    apply recovery_journal_created in Hj. rewrite Forall_forall in Hj. by apply Hj.
  - eapply Forall_impl; [exact Hb|]. intros x Hx. cbn in *. lia.
Qed.

(** A step that only reads: it fails with nothing changed, or goes on. *)
Ltac read_or_stop E x Hx :=
  let l1 := fresh "l" in let e := fresh "e" in
  apply bind_inv in E as [(x & l1 & Hx & E)|(e & Hx & ->)]; apply pair_equal_spec in Hx as [<- Hx];
  [|by eapply effect_none].

Lemma savings_journal_effect `{Unicode} next l l' r es :
  recovery_texts next -> recovery_events l = Ok es -> recovery_journal es ->
  ApplyLedgerSavingsRecovery next l = (l', r) -> recovery_effect next es l' r.
Proof.
  intros Ht He Hj E. unfold ApplyLedgerSavingsRecovery in E.
  read_or_stop E l0 Hq. apply Ok_inj in Hq as <-. read_or_stop E u1 Hk. read_or_stop E u2 Hv. destruct u2.
  apply bind_inv in E as [(u2 & l1 & Ho & E)|(e & Ho & ->)]; apply observe_frame in Ho as (Hd1 & _ & Hk1 & _ & _ & Hn1);
    [|by eapply effect_none].
  assert (recovery_events l1 = Ok es) as He1 by by eapply recovery_events_same.
  read_or_stop E found Hq. rewrite (scan_recovery_events_Ok next l1 es He1) in Hq. apply Ok_inj in Hq as <-.
  cbv beta iota in E. read_or_stop E action Hdec.
  apply (decide_recovery_follows _ _ _ (l_now l) Hv) in Hdec; [|intros e El; by apply latest_elem in El as [_ El]].
  destruct (recovery_replays action (latest next es) next).
  - destruct Hdec as (p & Hp & Hd & Hs).
    apply bind_inv in E as [(u3 & l2 & Ho & E)|(e & Ho & ->)]; apply observe_frame in Ho as (Hd2 & _ & Hk2 & _);
      [|by eapply effect_none].
    apply pair_equal_spec in E as [<- <-]. eapply effect_none; [exact He1|done..|]. by exists p.
  - cbv zeta in E. read_or_stop E u3 Hq.
    apply bind_inv in E as [([] & l2 & Hi & E)|(e & Hi & ->)].
    + apply transaction_Ok in Hi as [Hi _]. rewrite <-Hk1 in Hi.
      destruct (insert_event_journal next es (l_now l) l1 l2 Ht He1 Hj Hv Hdec Hi) as (He2 & Hj2 & Hs2).
      apply bind_inv in E as [(u4 & l3 & Ho & E)|(e & Ho & ->)]; apply observe_frame in Ho as (Hd3 & _ & Hk3 & _).
      * apply pair_equal_spec in E as [<- <-]. eexists. split_and!; [by eapply recovery_events_same|done|by eauto|].
        eexists. split_and!; [done| |done|done]. by rewrite latest_snoc, Hs2.
      * eexists. split_and!; [by eapply recovery_events_same|done|by eauto|done].
    + pose proof (transaction_Err _ _ _ _ Hi) as Hd2. eapply effect_none; [exact He1|done|done| |done].
      pose proof (stable_transaction _ (stable_insert_savings_event (recovery_event_row (l_integrityKey l)
        (last_id 0 (ordered_events (l_db l1)) + 1) (stamp_recovery (latest next es) (l_now l) next))) l1) as Hst.
      rewrite Hi in Hst. by destruct Hst.
Qed.

(** the Ledger Savings journal refines its abstract contract.  Whatever a
    call does, including a sequence observation that fails after the COMMIT, the
    stored events stay readable and authenticated, and the journal is the old one
    or the old one with one event that is allowed to follow it.  A successful call
    returns the last event of the recovery, which has the requested destination
    and sighash. *)
Theorem savings_journal_refines `{Unicode} next l l' r es :
  recovery_texts next -> recovery_events l = Ok es -> recovery_journal es ->
  ApplyLedgerSavingsRecovery next l = (l', r) -> recovery_effect next es l' r.
Proof. apply savings_journal_effect. Qed.

(** A ledger with an enrolled Savings contract, and a recovery of one coin. *)
Definition demo_savings_enrollment : LedgerSavingsEnrollment :=
  let rec := Build_LedgerSavingsEnrollment (str "vault-1") (marshal_struct identity_schema [SStr (str "vault-1")])
               (hex_encode (repeat Byte.x11 32)) [] in
  match SealLedgerSavingsEnrollment rec demo_vault_key with Ok r => r | Err _ => rec end.
Definition demo_savings_ledger : Ledger :=
  set_db (set_savings_enrollments [demo_savings_enrollment] demo_db) demo_ledger.
Definition demo_recovery (signature : option bytes) : LedgerSavingsRecovery :=
  Build_LedgerSavingsRecovery
    (Build_RecoverySession (str "vault-1") sessionPurposeInitiate (hex_encode (repeat Byte.xa1 32)) 0
       (hex_encode (repeat Byte.x51 34)) (hex_encode (repeat Byte.x0c 32)) signature [] [] None)
    (str "cHNidP8=") None.

Lemma savings_journal_refines_witness :
  exists l', @ApplyLedgerSavingsRecovery ascii_unicode (demo_recovery None) demo_savings_ledger
      = (l', Ok (ReplaySign, Some (stamp_recovery None (l_now demo_ledger) (demo_recovery None)))) /\
    recovery_effect (demo_recovery None) [] l'
      (Ok (ReplaySign, Some (stamp_recovery None (l_now demo_ledger) (demo_recovery None)))).
Proof.
  destruct (@ApplyLedgerSavingsRecovery ascii_unicode (demo_recovery None) demo_savings_ledger) as [l' r] eqn:E.
  assert (r = Ok (ReplaySign, Some (stamp_recovery None (l_now demo_ledger) (demo_recovery None)))) as ->
    by (apply (f_equal snd) in E; cbn [snd] in E; rewrite <-E; vm_compute; reflexivity).
  exists l'. split; [reflexivity|].
  exact (@savings_journal_refines ascii_unicode (demo_recovery None) demo_savings_ledger l' _ []
    (conj eq_refl eq_refl) eq_refl rj_nil E).
Defined.

(** A run of recovery calls; between calls the clock, the faults of the file
    system and the outcome of COMMIT change. *)
Inductive savings_run `{Unicode} (l0 : Ledger) : Ledger -> Prop :=
  | run_start : savings_run l0 l0
  | run_call next now faults ok l l' r :
      savings_run l0 l -> recovery_texts next ->
      ApplyLedgerSavingsRecovery next (set_env now faults ok l) = (l', r) -> savings_run l0 l'.

Lemma savings_run_journal `{Unicode} l0 l :
  t_savings_event (db_savings (l_db l0)) = [] -> savings_run l0 l ->
  exists es, recovery_events l = Ok es /\ recovery_journal es.
Proof.
  intros H0. induction 1 as [|next now faults ok l l' r Hrun (es & He & Hj) Ht Hcall].
  - exists []. split; [|constructor]. unfold recovery_events, ordered_events. by rewrite H0.
  - destruct (savings_journal_effect next (set_env now faults ok l) l' r es) as (es' & He' & Hj' & _); eauto.
Qed.

(** over every run of recovery calls from an empty journal, with any
    failures, one recovery (vault, outpoint and purpose) is only ever signed
    towards one destination, and a recorded signature completes an earlier
    unsigned reservation with the same sighash, candidate transaction and proof. *)
Theorem savings_single_destination `{Unicode} l0 l :
  t_savings_event (db_savings (l_db l0)) = [] -> savings_run l0 l ->
  exists es, recovery_events l = Ok es /\
    (forall a b, a ∈ es -> b ∈ es -> same_recovery a b = true -> dest_of a = dest_of b) /\
    (forall pre e post, es = pre ++ e :: post -> 0 < signature_len e ->
       exists p, p ∈ pre /\ same_recovery e p = true /\ signature_len p = 0 /\ sighash_of p = sighash_of e /\
         lsr_CandidatePSBT p = lsr_CandidatePSBT e /\
         slice_bytes (lsr_DirectProof p) = slice_bytes (lsr_DirectProof e)).
Proof.
  intros H0 Hrun. destruct (savings_run_journal l0 l H0 Hrun) as (es & He & Hj). exists es. split_and!; [done| |].
  - intros a b Ha Hb Hs. destruct (latest_some a es a Ha (same_recovery_refl a)) as [p Hp].
    rewrite (recovery_journal_dest es Hj a p Ha Hp). symmetry. apply (recovery_journal_dest es Hj b p Hb).
    by rewrite <-(latest_ext a b).
  - intros pre e post E Hs. destruct (recovery_journal_signed es Hj pre e post E Hs) as (p & Hp & Hrest).
    apply latest_elem in Hp as [Hin Hsame]. eauto.
Qed.

Lemma set_env_same l : set_env (l_now l) (l_faults l) (l_commit_ok l) l = l.
Proof. by destruct l. Qed.

Lemma savings_single_destination_witness :
  exists l1 l2 es, @ApplyLedgerSavingsRecovery ascii_unicode (demo_recovery None) demo_savings_ledger = (l1, Ok (ReplaySign,
      Some (stamp_recovery None (l_now demo_ledger) (demo_recovery None)))) /\
    snd (@ApplyLedgerSavingsRecovery ascii_unicode (demo_recovery (Some [Byte.x30])) l1) = Ok l2 /\
    recovery_events (fst (@ApplyLedgerSavingsRecovery ascii_unicode (demo_recovery (Some [Byte.x30])) l1)) = Ok es /\
    forall a b, a ∈ es -> b ∈ es -> same_recovery a b = true -> dest_of a = dest_of b.
Proof.
  destruct (@ApplyLedgerSavingsRecovery ascii_unicode (demo_recovery None) demo_savings_ledger) as [l1 r1] eqn:E1.
  assert (r1 = Ok (ReplaySign, Some (stamp_recovery None (l_now demo_ledger) (demo_recovery None)))) as Hr1
    by (apply (f_equal snd) in E1; cbn [snd] in E1; rewrite <-E1; vm_compute; reflexivity).
  destruct (@ApplyLedgerSavingsRecovery ascii_unicode (demo_recovery (Some [Byte.x30])) l1) as [l2 [p|e]] eqn:E2.
  - assert (@savings_run ascii_unicode demo_savings_ledger l2) as Hrun.
    { refine (@run_call ascii_unicode demo_savings_ledger (demo_recovery (Some [Byte.x30])) (l_now l1) (l_faults l1)
        (l_commit_ok l1) l1 l2 (Ok p) _ (conj eq_refl eq_refl) _); [|rewrite set_env_same; exact E2].
      refine (@run_call ascii_unicode demo_savings_ledger (demo_recovery None) (l_now demo_savings_ledger)
        (l_faults demo_savings_ledger) (l_commit_ok demo_savings_ledger) demo_savings_ledger l1 r1
        (run_start _) (conj eq_refl eq_refl) _). rewrite set_env_same. exact E1. }
    destruct (@savings_single_destination ascii_unicode demo_savings_ledger l2 eq_refl Hrun) as (es & He & Hd & _).
    exists l1, p, es. rewrite Hr1, E2. cbn [fst snd].
    exact (conj eq_refl (conj eq_refl (conj He Hd))).
  - exfalso. assert (l1 = fst (@ApplyLedgerSavingsRecovery ascii_unicode (demo_recovery None) demo_savings_ledger)) as ->
      by by rewrite E1.
    apply (f_equal (fun p => is_ok (snd p))) in E2. vm_compute in E2. discriminate E2.
Defined.

(** ** Recovery backups *)
Lemma find_upsert_backup row rows id :
  List.find (fun r => bk_vault_id r == id) (upsert_backup row rows)
  = if bool_decide (id = bk_vault_id row) then Some row else List.find (fun r => bk_vault_id r == id) rows.
Proof. apply (find_upsert_key bk_vault_id). Qed.

Lemma put_next_backup_Ok id expected current payload l l' b :
  blen (l_integrityKey l) = 32 -> put_next_backup id expected current payload l = (l', Ok b) ->
  current = expected /\ b = Build_RecoveryBackup (expected + 1) payload /\ GetRecoveryBackup id l' = Ok (Some b) /\
  forall id', id' <> id -> GetRecoveryBackup id' l' = GetRecoveryBackup id' l.
Proof.
  intros Hk H. unfold put_next_backup in H. read_step H l0 Hl. apply Ok_inj in Hl as <-. read_step H u Hc.
  apply bind_Ok_M in H as ([] & l1 & Hw & H). inv_M. subst b.
  unfold put_backup_row in Hw. inv_M. bool_hyps. cbn [bk_vault_id bk_revision bk_payload bk_integrity_mac rb_Revision] in *.
  unfold GetRecoveryBackup, readRecoveryBackup.
  cbn [set_db l_db l_integrityKey set_backups set_savings db_savings t_backup rb_Revision].
  rewrite Hk. cbn [Z.eqb Pos.eqb negb fail_if mbind result_bind]. split_and!; [done|done| |].
  - rewrite find_upsert_backup. cbn [bk_vault_id]. rewrite bool_decide_eq_true_2 by done.
    cbn [bk_revision bk_payload bk_integrity_mac].
    destruct (Z.ltb_spec (expected + 1) 0); [lia|]. cbn [fail_if mbind result_bind].
    unfold hmac_Equal. by rewrite bool_decide_eq_true_2.
  - intros id' Hne. rewrite find_upsert_backup. cbn [bk_vault_id]. by rewrite bool_decide_eq_false_2.
Qed.

Lemma clean_put_next_backup id expected current payload : clean (put_next_backup id expected current payload).
Proof. unfold put_next_backup. solve_clean. Qed.

Lemma clean_PutRecoveryBackup id expected payload : clean (PutRecoveryBackup id expected payload).
Proof. pose proof clean_put_next_backup. unfold PutRecoveryBackup. solve_clean. Qed.

(** recovery backups are fenced by their revision.  A successful write of
    revision [expected + 1] is readable exactly as written and leaves the backups
    of other vaults alone; before it the stored revision was [expected] (zero when
    there was none), or the very same backup was already stored and nothing
    changes.  Afterwards a write against the same revision with another payload is
    refused.  A refused write changes no table. *)
Theorem backup_compare_and_swap id expected payload l l' r :
  0 <= expected -> PutRecoveryBackup id expected payload l = (l', r) ->
  match r with
  | Err _ => l_db l' = l_db l
  | Ok b =>
      b = Build_RecoveryBackup (expected + 1) payload /\ GetRecoveryBackup id l' = Ok (Some b) /\
      (forall id', id' <> id -> GetRecoveryBackup id' l' = GetRecoveryBackup id' l) /\
      (exists old, GetRecoveryBackup id l = Ok old /\ (backup_revision old = expected \/ old = Some b /\ l' = l)) /\
      (forall payload' l'' b', payload' <> payload -> PutRecoveryBackup id expected payload' l' <> (l'', Ok b'))
  end.
Proof.
  intros H0 H. unfold PutRecoveryBackup in H. destruct r as [b|e].
  - read_step H l0 Hl. apply Ok_inj in Hl as <-. read_step H u G. bool_hyps. read_step H old Hold.
    assert (GetRecoveryBackup id l = Ok old) as Hget.
    { unfold GetRecoveryBackup. destruct (Z.eqb_spec (blen (l_integrityKey l)) 32); [done|congruence]. }
    assert (b = Build_RecoveryBackup (expected + 1) payload /\ GetRecoveryBackup id l' = Ok (Some b) /\
      (forall id', id' <> id -> GetRecoveryBackup id' l' = GetRecoveryBackup id' l) /\
      (exists old, GetRecoveryBackup id l = Ok old /\ (backup_revision old = expected \/ old = Some b /\ l' = l)))
      as (Hb & Hg & Ho & Hold').
    { destruct old as [o|].
      - cbv zeta in H. match type of H with (if ?c then _ else _) _ = _ => destruct c eqn:Er end.
        + bool_hyps. inv_M. subst. cbn in *. split_and!; [by destruct o; cbn in *; subst|done|done|eauto].
        + apply put_next_backup_Ok in H as (Hc & ? & ? & ?); [|done]. split_and!; [done..|by eauto].
      - apply put_next_backup_Ok in H as (Hc & ? & ? & ?); [|done]. split_and!; [done..|by eauto]. }
    split_and!; [done..|]. intros payload' l'' b' Hne Hw.
    unfold PutRecoveryBackup in Hw. read_step Hw l0 Hl. apply Ok_inj in Hl as <-. read_step Hw u2 G2. read_step Hw old2 Hr.
    unfold GetRecoveryBackup in Hg. apply bind_Ok in Hg as (u3 & _ & Hg). rewrite Hg in Hr. apply Ok_inj in Hr as <-.
    subst b. cbn [backup_revision rb_Revision rb_Payload] in Hw. rewrite Z.eqb_refl, bool_decide_eq_false_2 in Hw by done.
    cbn [andb] in Hw. unfold put_next_backup in Hw. read_step Hw l0 Hl. read_step Hw u4 G4. bool_hyps. lia.
  - by eapply clean_PutRecoveryBackup.
Qed.

Lemma backup_compare_and_swap_witness :
  exists l', PutRecoveryBackup (str "vault-1") 0 (str "{}") demo_ledger = (l', Ok (Build_RecoveryBackup 1 (str "{}"))) /\
    forall l'' b', PutRecoveryBackup (str "vault-1") 0 (str "[]") l' <> (l'', Ok b').
Proof.
  destruct (PutRecoveryBackup (str "vault-1") 0 (str "{}") demo_ledger) as [l' [b|e]] eqn:E.
  - destruct (backup_compare_and_swap (str "vault-1") 0 (str "{}") demo_ledger l' (Ok b) (Z.le_refl 0) E)
      as (-> & _ & _ & _ & Hx).
    exists l'. split; [reflexivity|]. intros l'' b'. apply Hx. done.
  - exfalso. apply (f_equal (fun p => is_ok (snd p))) in E. vm_compute in E. discriminate E.
Defined.
