(* ===== verification/BoardLedger.v ===== *)
(** The boarding journal in the store: the database methods of
    [internal/policy/vault_board.go] and [vault_board_conflict.go].

    A boarding operation goes through numbered attempts.  Each attempt is a
    register authorization, followed by its dispatch and the Operator's answer,
    and then by at most one of a delete or a finalize authorization with their own
    dispatch and answer.  A confirmed conflict retires a finalized attempt.  All
    tables are append-only. *)
From Stdlib Require Import Strings.Byte.
From S2P Require Import Prelude Sha256 Text GoTime Json Program Vtxo Renewal Board Tenant Store Journal TenantLedger.

#[local] Arguments hmac_sha256 : simpl never.
#[local] Arguments format_rfc3339nano : simpl never.

(** ** Table updates *)
Definition set_board_enrollments (rows : list VaultBoardEnrollment) (d : Db) : Db :=
  let t := db_board d in
  set_board (Build_BoardTables rows (t_board_operation t) (t_board_authorization t) (t_board_submission t)
               (t_board_dispatch t) (t_board_conflict t)) d.
Definition set_board_operations (rows : list VaultBoardOperation) (d : Db) : Db :=
  let t := db_board d in
  set_board (Build_BoardTables (t_board_enrollment t) rows (t_board_authorization t) (t_board_submission t)
               (t_board_dispatch t) (t_board_conflict t)) d.
Definition set_board_authorizations (rows : list VaultBoardAuthorization) (d : Db) : Db :=
  let t := db_board d in
  set_board (Build_BoardTables (t_board_enrollment t) (t_board_operation t) rows (t_board_submission t)
               (t_board_dispatch t) (t_board_conflict t)) d.
Definition set_board_submissions (rows : list VaultBoardSubmission) (d : Db) : Db :=
  let t := db_board d in
  set_board (Build_BoardTables (t_board_enrollment t) (t_board_operation t) (t_board_authorization t) rows
               (t_board_dispatch t) (t_board_conflict t)) d.
Definition set_board_dispatches (rows : list VaultBoardDispatch) (d : Db) : Db :=
  let t := db_board d in
  set_board (Build_BoardTables (t_board_enrollment t) (t_board_operation t) (t_board_authorization t)
               (t_board_submission t) rows (t_board_conflict t)) d.
Definition set_board_conflicts (rows : list ConflictRow) (d : Db) : Db :=
  let t := db_board d in
  set_board (Build_BoardTables (t_board_enrollment t) (t_board_operation t) (t_board_authorization t)
               (t_board_submission t) (t_board_dispatch t) rows) d.

(** ** Loading rows; [Ok None] is [sql.ErrNoRows] *)
Definition in_phase_auth (id : bytes) (attempt : Z) (phase : bytes) (r : VaultBoardAuthorization) : bool :=
  (vba_OperationID r == id) && (vba_Attempt r =? attempt) && (vba_Phase r == phase).
Definition in_phase_submission (id : bytes) (attempt : Z) (phase : bytes) (r : VaultBoardSubmission) : bool :=
  (vbs_OperationID r == id) && (vbs_Attempt r =? attempt) && (vbs_Phase r == phase).
Definition in_phase_dispatch (id : bytes) (attempt : Z) (phase : bytes) (r : VaultBoardDispatch) : bool :=
  (vbd_OperationID r == id) && (vbd_Attempt r =? attempt) && (vbd_Phase r == phase).

Definition scan_authorization (r : VaultBoardAuthorization) : result VaultBoardAuthorization :=
  _ ← scan_uint32 (vba_Attempt r); _ ← scan_uint32 (vba_ReceiverVout r); Ok r.

Definition loadVaultBoardOperation (d : Db) (id : bytes) : result (option VaultBoardOperation) :=
  match List.find (fun r => vbo_OperationID r == id) (t_board_operation (db_board d)) with
  | None => Ok None
  | Some r => _ ← scan_uint32 (vbo_Vout r); Ok (Some r)
  end.

Definition loadVaultBoardAuthorization (d : Db) (id : bytes) (attempt : Z) (phase : bytes)
  : result (option VaultBoardAuthorization) :=
  match List.find (in_phase_auth id attempt phase) (t_board_authorization (db_board d)) with
  | None => Ok None
  | Some r => r ← scan_authorization r; Ok (Some r)
  end.

Definition loadVaultBoardSubmission (d : Db) (id : bytes) (attempt : Z) (phase : bytes)
  : result (option VaultBoardSubmission) :=
  match List.find (in_phase_submission id attempt phase) (t_board_submission (db_board d)) with
  | None => Ok None
  | Some r => _ ← scan_uint32 (vbs_Attempt r); _ ← scan_uint32 (vbs_ReceiverVout r); Ok (Some r)
  end.

Definition loadVaultBoardDispatch (d : Db) (id : bytes) (attempt : Z) (phase : bytes)
  : result (option VaultBoardDispatch) :=
  match List.find (in_phase_dispatch id attempt phase) (t_board_dispatch (db_board d)) with
  | None => Ok None
  | Some r => _ ← scan_uint32 (vbd_Attempt r); Ok (Some r)
  end.

(** [WHERE operation_id = ? AND phase = 'register' ORDER BY attempt] *)
Definition board_registers (d : Db) (id : bytes) : list VaultBoardAuthorization :=
  slice_stable (fun a b => vba_Attempt a <? vba_Attempt b)
    (List.filter (fun r => (vba_OperationID r == id) && (vba_Phase r == VaultBoardPhaseRegister))
       (t_board_authorization (db_board d))).

(** [... ORDER BY attempt DESC LIMIT 1] *)
Definition loadLatestVaultBoardRegister (d : Db) (id : bytes) : result (option VaultBoardAuthorization) :=
  match last (board_registers d id) with
  | None => Ok None
  | Some r => r ← scan_authorization r; Ok (Some r)
  end.

Definition loadVerifiedVaultBoardRegisters (d : Db) (key id : bytes) : result (list VaultBoardAuthorization) :=
  collect (fun r => r ← scan_authorization r; _ ← VerifyVaultBoardAuthorization r key; Ok r) (board_registers d id).

(** A row that has to be there. *)
Definition need_row {A} (r : result (option A)) : result A :=
  found ← r;
  match found with Some a => Ok a | None => Err ErrNoRows end.

(** A row that may be there, authenticated when it is. *)
Definition verified_option {A} (verify : A -> result unit) (r : result (option A)) : result (option A) :=
  found ← r;
  match found with
  | None => Ok None
  | Some a => _ ← verify a; Ok (Some a)
  end.

Definition loadOptionalVerifiedVaultBoardAuthorization (d : Db) (key id : bytes) (attempt : Z) (phase : bytes)
  : result (option VaultBoardAuthorization) :=
  verified_option (fun r => VerifyVaultBoardAuthorization r key) (loadVaultBoardAuthorization d id attempt phase).
Definition loadOptionalVerifiedVaultBoardSubmission (d : Db) (key id : bytes) (attempt : Z) (phase : bytes)
  : result (option VaultBoardSubmission) :=
  verified_option (fun r => VerifyVaultBoardSubmission r key) (loadVaultBoardSubmission d id attempt phase).
Definition loadOptionalVerifiedVaultBoardDispatch (d : Db) (key id : bytes) (attempt : Z) (phase : bytes)
  : result (option VaultBoardDispatch) :=
  verified_option (fun r => VerifyVaultBoardDispatch r key) (loadVaultBoardDispatch d id attempt phase).

(** ** Insertions, with the CHECK, key and foreign-key constraints *)
Definition insert_board_enrollment (network : bytes) (rec : VaultBoardEnrollment) : M unit :=
  d ← query (fun l => Ok (l_db l));
  pins ← lift (PinsFor network);
  _ ← guard_M (existsb (fun r => vbe_VaultID r == vbe_VaultID rec) (t_board_enrollment (db_board d))
               || negb (has_vault d (vbe_VaultID rec)) || (vbe_Program rec != str "vault-board-v1")
               || negb (blen (vbe_BoardingPub rec) =? 33) || negb (blen (vbe_CosignerPub rec) =? 33)
               || negb (blen (vbe_OperatorPub rec) =? 33) || negb (vbe_ExitDelay rec =? np_BoardExitDelay pins)
               || (vbe_ExitDelayUnit rec != str "seconds") || negb (blen (vbe_PkScript rec) =? 34)
               || negb ((0 <? text_length (vbe_Address rec)) && (text_length (vbe_Address rec) <=? 128))
               || negb (blen (vbe_IntegrityMAC rec) =? 32))
        (ErrConstraint "vault_board_enrollment");
  modify_db (fun d => set_board_enrollments (t_board_enrollment (db_board d) ++ [rec]) d).

Definition PutVaultBoardEnrollmentTx (rec : VaultBoardEnrollment) : M unit :=
  network ← query (fun l => Ok (l_network l));
  insert_board_enrollment network rec.

Definition is_u32_column (z : Z) : bool := (0 <=? z) && (z <=? max_uint32).

Definition check_board_operation (d : Db) (rec : VaultBoardOperation) : bool :=
  negb (existsb (fun r => vbo_OperationID r == vbo_OperationID rec) (t_board_operation (db_board d)))
  && existsb (fun r => vbe_VaultID r == vbo_VaultID rec) (t_board_enrollment (db_board d))
  && (blen (vbo_Txid rec) =? 32) && is_u32_column (vbo_Vout rec) && (0 <? vbo_ValueSats rec)
  && (blen (vbo_BoardingScript rec) =? 34)
  && (0 <? blen (vbo_ReceiverScript rec)) && (blen (vbo_ReceiverScript rec) <=? 10000)
  && (0 <? vbo_SequenceAnchorMTP rec) && (blen (vbo_IntegrityMAC rec) =? 32)
  && negb (existsb (fun r => (vbo_VaultID r == vbo_VaultID rec) && (vbo_Txid r == vbo_Txid rec)
                             && (vbo_Vout r =? vbo_Vout rec)) (t_board_operation (db_board d))).

Definition insert_board_operation (rec : VaultBoardOperation) : M unit :=
  d ← query (fun l => Ok (l_db l));
  _ ← guard_M (negb (check_board_operation d rec)) (ErrConstraint "vault_board_operation");
  modify_db (fun d => set_board_operations (t_board_operation (db_board d) ++ [rec]) d).

(** The row CHECK per phase; an empty tree session key is NULL. *)
Definition check_authorization_phase (rec : VaultBoardAuthorization) : bool :=
  let pub := blen (vba_TreeSessionPub rec) in
  let no_outpoint := (text_length (vba_CommitmentTxid rec) =? 0) && (text_length (vba_ReceiverTxid rec) =? 0)
                     && (vba_ReceiverVout rec =? 0) in
  ((vba_Phase rec == VaultBoardPhaseRegister) && (0 <? vba_ExpireAt rec) && (pub =? 33)
     && (0 <? vba_ReceiverSats rec) && no_outpoint)
  || ((vba_Phase rec == VaultBoardPhaseDelete) && (0 <? vba_ExpireAt rec) && (pub =? 0)
     && (vba_ReceiverSats rec =? 0) && (vba_FeeSats rec =? 0) && no_outpoint)
  || ((vba_Phase rec == VaultBoardPhaseFinalize) && (vba_ExpireAt rec =? 0) && (pub =? 0)
     && (vba_ReceiverSats rec =? 0) && (vba_FeeSats rec =? 0)
     && (text_length (vba_CommitmentTxid rec) =? 64) && (text_length (vba_ReceiverTxid rec) =? 64)).

Definition check_board_authorization (d : Db) (rec : VaultBoardAuthorization) : bool :=
  negb (existsb (in_phase_auth (vba_OperationID rec) (vba_Attempt rec) (vba_Phase rec))
          (t_board_authorization (db_board d)))
  && existsb (fun r => vbo_OperationID r == vba_OperationID rec) (t_board_operation (db_board d))
  && is_u32_column (vba_Attempt rec) && (blen (vba_RequestDigest rec) =? 32)
  && ((blen (vba_TreeSessionPub rec) =? 0) || (blen (vba_TreeSessionPub rec) =? 33))
  && (0 <=? vba_ReceiverSats rec) && (0 <=? vba_FeeSats rec) && (0 <=? vba_ExpireAt rec)
  && is_u32_column (vba_ReceiverVout rec) && (blen (vba_IntegrityMAC rec) =? 32)
  && check_authorization_phase rec.

Definition insert_board_authorization (rec : VaultBoardAuthorization) : M unit :=
  d ← query (fun l => Ok (l_db l));
  _ ← guard_M (negb (check_board_authorization d rec)) (ErrConstraint "vault_board_authorization");
  modify_db (fun d => set_board_authorizations (t_board_authorization (db_board d) ++ [rec]) d).

Definition insert_board_dispatch (rec : VaultBoardDispatch) : M unit :=
  d ← query (fun l => Ok (l_db l));
  _ ← guard_M (existsb (in_phase_dispatch (vbd_OperationID rec) (vbd_Attempt rec) (vbd_Phase rec))
                 (t_board_dispatch (db_board d))
               || negb (existsb (in_phase_auth (vbd_OperationID rec) (vbd_Attempt rec) (vbd_Phase rec))
                          (t_board_authorization (db_board d)))
               || negb (blen (vbd_RequestDigest rec) =? 32) || negb (blen (vbd_IntegrityMAC rec) =? 32))
        (ErrConstraint "vault_board_dispatch");
  modify_db (fun d => set_board_dispatches (t_board_dispatch (db_board d) ++ [rec]) d).

Definition check_submission_phase (rec : VaultBoardSubmission) : bool :=
  let ref := text_length (vbs_OperatorRef rec) in
  let no_outpoint := (text_length (vbs_CommitmentTxid rec) =? 0) && (text_length (vbs_ReceiverTxid rec) =? 0)
                     && (vbs_ReceiverVout rec =? 0) in
  ((vbs_Phase rec == VaultBoardPhaseRegister)
     && (((vbs_Outcome rec == VaultBoardAuthSubmitted) && (0 <? ref))
         || ((vbs_Outcome rec == VaultBoardAuthRejected) && (ref =? 0))) && no_outpoint)
  || ((vbs_Phase rec == VaultBoardPhaseDelete) && (vbs_Outcome rec == VaultBoardAuthReleased) && (ref =? 0)
      && no_outpoint)
  || ((vbs_Phase rec == VaultBoardPhaseFinalize) && (vbs_Outcome rec == VaultBoardAuthSubmitted) && (ref =? 0)
      && (text_length (vbs_CommitmentTxid rec) =? 64) && (text_length (vbs_ReceiverTxid rec) =? 64)).

Definition insert_board_submission (rec : VaultBoardSubmission) : M unit :=
  d ← query (fun l => Ok (l_db l));
  _ ← guard_M (existsb (in_phase_submission (vbs_OperationID rec) (vbs_Attempt rec) (vbs_Phase rec))
                 (t_board_submission (db_board d))
               || negb (existsb (in_phase_auth (vbs_OperationID rec) (vbs_Attempt rec) (vbs_Phase rec))
                          (t_board_authorization (db_board d)))
               || negb (existsb (in_phase_dispatch (vbs_OperationID rec) (vbs_Attempt rec) (vbs_Phase rec))
                          (t_board_dispatch (db_board d)))
               || negb (blen (vbs_RequestDigest rec) =? 32) || (256 <? text_length (vbs_OperatorRef rec))
               || negb (is_u32_column (vbs_ReceiverVout rec)) || negb (blen (vbs_IntegrityMAC rec) =? 32)
               || negb (check_submission_phase rec))
        (ErrConstraint "vault_board_submission");
  modify_db (fun d => set_board_submissions (t_board_submission (db_board d) ++ [rec]) d).

Definition same_conflict (id : bytes) (attempt : Z) (r : ConflictRow) : bool :=
  (bcr_operation_id r == id) && (bcr_attempt r =? attempt).

Definition insert_board_conflict (row : ConflictRow) : M unit :=
  d ← query (fun l => Ok (l_db l));
  _ ← guard_M (existsb (same_conflict (bcr_operation_id row) (bcr_attempt row)) (t_board_conflict (db_board d))
               || negb (existsb (in_phase_auth (bcr_operation_id row) (bcr_attempt row) VaultBoardPhaseFinalize)
                          (t_board_authorization (db_board d)))
               || negb (is_u32_column (bcr_attempt row))
               || negb ((0 <? text_length (bcr_payload row)) && (text_length (bcr_payload row) <=? 1048576))
               || negb (blen (bcr_integrity_mac row) =? 32))
        (ErrConstraint "vault_board_conflict");
  modify_db (fun d => set_board_conflicts (t_board_conflict (db_board d) ++ [row]) d).

(** ** Reading: enrollment *)
Definition GetVaultBoardEnrollment (vaultID : bytes) (l : Ledger) : result (option VaultBoardEnrollment) :=
  _ ← fail_if (vaultID == []) (ErrMsg "vault id required");
  key ← integrityKeyCopy l;
  match List.find (fun r => vbe_VaultID r == vaultID) (t_board_enrollment (db_board (l_db l))) with
  | None => Ok None
  | Some rec =>
      _ ← scan_uint32 (vbe_ExitDelay rec);
      _ ← VerifyVaultBoardEnrollment rec key;
      Ok (Some rec)
  end.

(** [chain.TipMTP] and the anchor are [int64]; the sum is checked first. *)
Definition requireVaultBoardCooperativeWindow (operation : VaultBoardOperation) (chain : VaultBoardChainState)
    (l : Ledger) : result unit :=
  pins ← PinsFor (l_network l);
  let delay := np_BoardExitDelay pins in
  _ ← fail_if ((vbo_SequenceAnchorMTP operation <=? 0) || (vbch_TipMTP chain <=? 0))
        (ErrMsg "authoritative vault-board-v1 chain MTP required");
  fail_if ((max_int64 - delay <? vbo_SequenceAnchorMTP operation)
           || (vbo_SequenceAnchorMTP operation + delay <=? vbch_TipMTP chain))
    (ErrMsg "vault-board-v1 cooperative path has matured").

Section BoardJournal.
Context `{Wire}.

(** ** Conflicts *)
Definition load_conflict_row (key id : bytes) (row : ConflictRow) : result VaultBoardConflict :=
  attempt ← scan_uint32 (bcr_attempt row);
  match unmarshal_conflict (bcr_payload row) with
  | None => Err (ErrMsg "json")
  | Some rec =>
      _ ← fail_if ((marshal_conflict rec != bcr_payload row) || (vbc_OperationID rec != id)
                   || negb (vbc_Attempt rec =? attempt)) (ErrMsg "vault-board-v1 conflict record changed");
      let rec := vbc_set (vbc_CreatedAt rec) (bcr_integrity_mac row) rec in
      _ ← verifyVaultBoardConflict rec key;
      Ok rec
  end.

Definition conflicts_of (out : list VaultBoardConflict) (attempt : Z) : list VaultBoardConflict :=
  List.filter (fun c => vbc_Attempt c =? attempt) out.

(** The conflict is about this final authorization. *)
Definition conflict_matches (final : VaultBoardAuthorization) (c : VaultBoardConflict) : bool :=
  (slice_bytes (vbc_RequestDigest c) == vba_RequestDigest final)
  && (bce_CommitmentTxid (vbc_Evidence c) == vba_CommitmentTxid final).

(** One register of the loop; [historical] when a later one exists.  The
    result is the number of conflicts it accounts for. *)
Definition match_register (d : Db) (key id : bytes) (out : list VaultBoardConflict) (historical : bool)
    (register : VaultBoardAuthorization) : result Z :=
  final ← loadVaultBoardAuthorization d id (vba_Attempt register) VaultBoardPhaseFinalize;
  let mine := conflicts_of out (vba_Attempt register) in
  match final with
  | None =>
      _ ← fail_if (negb (Z.of_nat (length mine) =? 0)) (ErrMsg "vault-board-v1 conflict lacks final authority");
      Ok 0
  | Some final =>
      _ ← VerifyVaultBoardAuthorization final key;
      _ ← each (fun c => fail_if (negb (conflict_matches final c)) (ErrMsg "vault-board-v1 conflict changed final authority"))
            mine;
      _ ← fail_if (historical && (Z.of_nat (length mine) =? 0))
            (ErrMsg "vault-board-v1 historical final authority lacks conflict evidence");
      Ok (Z.of_nat (length mine))
  end.

Fixpoint match_registers (d : Db) (key id : bytes) (out : list VaultBoardConflict)
    (registers : list VaultBoardAuthorization) : result Z :=
  match registers with
  | [] => Ok 0
  | r :: rest =>
      n ← match_register d key id out (match rest with [] => false | _ => true end) r;
      m ← match_registers d key id out rest;
      Ok (n + m)
  end.

(** [WHERE operation_id = ? ORDER BY attempt] *)
Definition conflict_rows (d : Db) (id : bytes) : list ConflictRow :=
  slice_stable (fun a b => bcr_attempt a <? bcr_attempt b)
    (List.filter (fun r => bcr_operation_id r == id) (t_board_conflict (db_board d))).

Definition loadVaultBoardConflicts (d : Db) (key id : bytes) : result (list VaultBoardConflict) :=
  out ← collect (load_conflict_row key id) (conflict_rows d id);
  registers ← loadVerifiedVaultBoardRegisters d key id;
  matched ← match_registers d key id out registers;
  _ ← fail_if (negb (matched =? Z.of_nat (length out))) (ErrMsg "vault-board-v1 conflict lacks registered final authority");
  Ok out.

Definition requireVaultBoardConflictChecks (key id : bytes) (chain : VaultBoardChainState) : M unit :=
  _ ← observeEconomicOutflowsLocked;
  conflicts ← query (fun l => loadVaultBoardConflicts (l_db l) key id);
  lift (each (fun c => fail_if (negb (existsb (fun mac => mac == vbc_IntegrityMAC c) (vbch_ConflictChecks chain)))
                         (ErrMsg "vault-board-v1 prior commitment conflict requires fresh chain evidence")) conflicts).

(** ** Reading: the current attempt *)
Definition digest_agrees {A B} (digest : A -> bytes) (auth_digest : B -> bytes) (row : option A) (auth : option B)
    (what : string) : result unit :=
  match row with
  | None => Ok tt
  | Some row =>
      fail_if (match auth with Some a => digest row != auth_digest a | None => true end) (ErrMsg what)
  end.

Definition load_snapshot (d : Db) (key id : bytes) (operation : VaultBoardOperation) (register : VaultBoardAuthorization)
  : result VaultBoardAttemptSnapshot :=
  let n := vba_Attempt register in
  regDispatch ← loadOptionalVerifiedVaultBoardDispatch d key id n VaultBoardPhaseRegister;
  regSubmission ← loadOptionalVerifiedVaultBoardSubmission d key id n VaultBoardPhaseRegister;
  delAuth ← loadOptionalVerifiedVaultBoardAuthorization d key id n VaultBoardPhaseDelete;
  delDispatch ← loadOptionalVerifiedVaultBoardDispatch d key id n VaultBoardPhaseDelete;
  delSubmission ← loadOptionalVerifiedVaultBoardSubmission d key id n VaultBoardPhaseDelete;
  finAuth ← loadOptionalVerifiedVaultBoardAuthorization d key id n VaultBoardPhaseFinalize;
  finDispatch ← loadOptionalVerifiedVaultBoardDispatch d key id n VaultBoardPhaseFinalize;
  finSubmission ← loadOptionalVerifiedVaultBoardSubmission d key id n VaultBoardPhaseFinalize;
  _ ← digest_agrees vbs_RequestDigest vba_RequestDigest regSubmission (Some register)
        "vault-board-v1 register result digest mismatch";
  _ ← digest_agrees vbs_RequestDigest vba_RequestDigest delSubmission delAuth
        "vault-board-v1 delete result digest mismatch";
  _ ← digest_agrees vbs_RequestDigest vba_RequestDigest finSubmission finAuth
        "vault-board-v1 final result digest mismatch";
  _ ← digest_agrees vbd_RequestDigest vba_RequestDigest regDispatch (Some register)
        "vault-board-v1 %s dispatch digest mismatch";
  _ ← digest_agrees vbd_RequestDigest vba_RequestDigest delDispatch delAuth
        "vault-board-v1 %s dispatch digest mismatch";
  _ ← digest_agrees vbd_RequestDigest vba_RequestDigest finDispatch finAuth
        "vault-board-v1 %s dispatch digest mismatch";
  conflicts ← loadVaultBoardConflicts d key id;
  Ok (Build_VaultBoardAttemptSnapshot operation register regDispatch regSubmission delAuth delDispatch delSubmission
        finAuth finDispatch finSubmission conflicts).

Definition GetCurrentVaultBoardAttempt (id : bytes) (l : Ledger) : result (option VaultBoardAttemptSnapshot) :=
  _ ← fail_if (id == []) (ErrMsg "vault-board-v1 operation id required");
  key ← integrityKeyCopy l;
  operation ← loadVaultBoardOperation (l_db l) id;
  match operation with
  | None => Ok None
  | Some operation =>
      _ ← VerifyVaultBoardOperation operation key;
      register ← loadLatestVaultBoardRegister (l_db l) id;
      match register with
      | None => Err (ErrMsg "vault-board-v1 operation has no register attempt")
      | Some register =>
          _ ← VerifyVaultBoardAuthorization register key;
          snapshot ← load_snapshot (l_db l) key id operation register;
          Ok (Some snapshot)
      end
  end.

(** ** Rotation *)
Definition still_active : error := ErrMsg "previous vault-board-v1 register is still active".

(** The part of [requireVaultBoardAttemptCanRotate] after the register's
    result: a released delete, or a quarantine that has passed. *)
Definition can_rotate_submitted (d : Db) (key id : bytes) (attempt now : Z) (register : VaultBoardAuthorization)
    (registerResult : VaultBoardSubmission) : result unit :=
  deleteAuth ← loadVaultBoardAuthorization d id attempt VaultBoardPhaseDelete;
  let last_chance :=
    fail_if (negb ((vbs_Outcome registerResult == VaultBoardAuthSubmitted)
                   && VaultBoardRegisterCanSupersede (vba_ExpireAt register) now)) still_active in
  match deleteAuth with
  | None => last_chance
  | Some deleteAuth =>
      _ ← VerifyVaultBoardAuthorization deleteAuth key;
      deleteDispatch ← loadVaultBoardDispatch d id attempt VaultBoardPhaseDelete;
      match deleteDispatch with
      | None => last_chance
      | Some deleteDispatch =>
          _ ← VerifyVaultBoardDispatch deleteDispatch key;
          deleteResult ← loadOptionalVerifiedVaultBoardSubmission d key id attempt VaultBoardPhaseDelete;
          match deleteResult with
          | None => Err still_active
          | Some r => fail_if (negb ((vbs_Outcome r == VaultBoardAuthReleased)
                                     && (vbs_RequestDigest r == vba_RequestDigest deleteAuth))) still_active
          end
      end
  end.

Definition requireVaultBoardAttemptCanRotate (d : Db) (key id : bytes) (attempt now : Z) : result unit :=
  finalAuth ← loadVaultBoardAuthorization d id attempt VaultBoardPhaseFinalize;
  match finalAuth with
  | Some finalAuth =>
      _ ← VerifyVaultBoardAuthorization finalAuth key;
      conflicts ← loadVaultBoardConflicts d key id;
      fail_if (negb (existsb (fun c => (vbc_Attempt c =? attempt) && conflict_matches finalAuth c) conflicts))
        (ErrMsg "finalized vault-board-v1 attempt cannot rotate")
  | None =>
      register ← need_row (loadVaultBoardAuthorization d id attempt VaultBoardPhaseRegister);
      _ ← VerifyVaultBoardAuthorization register key;
      registerDispatch ← loadVaultBoardDispatch d id attempt VaultBoardPhaseRegister;
      match registerDispatch with
      | None => Ok tt
      | Some registerDispatch =>
          _ ← VerifyVaultBoardDispatch registerDispatch key;
          registerResult ← loadVaultBoardSubmission d id attempt VaultBoardPhaseRegister;
          match registerResult with
          | None => Err still_active
          | Some registerResult =>
              _ ← VerifyVaultBoardSubmission registerResult key;
              if vbs_Outcome registerResult == VaultBoardAuthRejected then Ok tt
              else can_rotate_submitted d key id attempt now register registerResult
          end
      end
  end.

(** No authenticated row may be there. *)
Definition forbid_row {A} (r : result (option A)) (e : error) : result unit :=
  found ← r;
  match found with Some _ => Err e | None => Ok tt end.

Definition requireVaultBoardAttemptCurrent (d : Db) (key id : bytes) (attempt : Z) : result unit :=
  registerResult ← loadOptionalVerifiedVaultBoardSubmission d key id attempt VaultBoardPhaseRegister;
  _ ← match registerResult with
      | Some r => fail_if (vbs_Outcome r == VaultBoardAuthRejected)
                    (ErrMsg "vault-board-v1 register request was definitely rejected")
      | None => Ok tt
      end;
  _ ← forbid_row (loadOptionalVerifiedVaultBoardAuthorization d key id attempt VaultBoardPhaseFinalize)
        (ErrMsg "vault-board-v1 attempt has final authorization");
  _ ← forbid_row (loadOptionalVerifiedVaultBoardAuthorization d key id attempt VaultBoardPhaseDelete)
        (ErrMsg "vault-board-v1 attempt has delete authorization");
  forbid_row (loadOptionalVerifiedVaultBoardSubmission d key id attempt VaultBoardPhaseDelete)
    (ErrMsg "vault-board-v1 attempt was authoritatively released").

(** ** Beginning an attempt *)
Definition stored_operation (operation : VaultBoardOperation) (key : bytes) (now : Z) : M VaultBoardOperation :=
  stored ← query (fun l => loadVaultBoardOperation (l_db l) (vbo_OperationID operation));
  match stored with
  | Some stored =>
      _ ← lift (VerifyVaultBoardOperation stored key);
      _ ← guard_M (negb (sameVaultBoardOperationFacts stored operation))
            (ErrMsg "vault-board-v1 outpoint is bound to different economic facts");
      mret stored
  | None =>
      sealed ← lift (SealVaultBoardOperation (vbo_set (vbo_OperationID operation) (format_rfc3339nano now)
                       (vbo_IntegrityMAC operation) operation) key);
      _ ← insert_board_operation sealed;
      mret sealed
  end.

(** The first earlier register with the digest or the tree session key of the
    request, and whether it is the latest one. *)
Fixpoint prior_register (request : VaultBoardRegisterRequest) (registers : list VaultBoardAuthorization)
  : option (VaultBoardAuthorization * bool) :=
  match registers with
  | [] => None
  | r :: rest =>
      if (vba_RequestDigest r == vbr_RequestDigest request) || (vba_TreeSessionPub r == vbr_TreeSessionPub request)
      then Some (r, match rest with [] => true | _ => false end)
      else prior_register request rest
  end.

Definition same_register (request : VaultBoardRegisterRequest) (prior : VaultBoardAuthorization) : bool :=
  (vba_RequestDigest prior == vbr_RequestDigest request) && (vba_TreeSessionPub prior == vbr_TreeSessionPub request)
  && (vba_ReceiverSats prior =? vbr_ReceiverSats request) && (vba_FeeSats prior =? vbr_FeeSats request)
  && (vba_ExpireAt prior =? vbr_ExpireAt request).

Definition register_authorization (id : bytes) (attempt : Z) (request : VaultBoardRegisterRequest) (now : Z)
  : VaultBoardAuthorization :=
  Build_VaultBoardAuthorization id attempt VaultBoardPhaseRegister (vbr_RequestDigest request)
    (vbr_TreeSessionPub request) (vbr_ReceiverSats request) (vbr_FeeSats request) (vbr_ExpireAt request)
    [] [] 0 (format_rfc3339nano now) [].

(** The next attempt's number, when the last attempt may be given up. *)
Definition next_attempt (d : Db) (key id : bytes) (registers : list VaultBoardAuthorization) (now : Z) : result Z :=
  match last registers with
  | None => Ok 0
  | Some r =>
      _ ← fail_if (vba_Attempt r =? max_uint32) (ErrMsg "vault-board-v1 attempt overflow");
      _ ← requireVaultBoardAttemptCanRotate d key id (vba_Attempt r) now;
      Ok (vba_Attempt r + 1)
  end.

Definition begin_attempt_body (id : bytes) (operation : VaultBoardOperation) (request : VaultBoardRegisterRequest)
    (chain : VaultBoardChainState) : M (VaultBoardOperation * VaultBoardAuthorization * bool) :=
  key ← query integrityKeyCopy;
  now ← query (fun l => Ok (NowUTC l));
  stored ← stored_operation (vbo_set id (vbo_CreatedAt operation) (vbo_IntegrityMAC operation) operation) key now;
  _ ← query (requireVaultBoardCooperativeWindow stored chain);
  _ ← requireVaultBoardConflictChecks key id chain;
  registers ← query (fun l => loadVerifiedVaultBoardRegisters (l_db l) key id);
  match prior_register request registers with
  | Some (prior, isLatest) =>
      _ ← guard_M (negb (isLatest && same_register request prior))
            (ErrMsg "vault-board-v1 attempt must rotate register digest and tree session key");
      _ ← query (fun l => requireVaultBoardAttemptCurrent (l_db l) key id (vba_Attempt prior));
      mret (stored, prior, false)
  | None =>
      attempt ← query (fun l => next_attempt (l_db l) key id registers now);
      auth ← lift (SealVaultBoardAuthorization (register_authorization id attempt request now) key);
      _ ← insert_board_authorization auth;
      _ ← wrap_M "policy sequence" observeEconomicOutflowsLocked;
      mret (stored, auth, true)
  end.

Definition BeginVaultBoardAttempt (operation : VaultBoardOperation) (request : VaultBoardRegisterRequest)
    (chain : VaultBoardChainState) : M (VaultBoardOperation * VaultBoardAuthorization * bool) :=
  id ← lift (ComputeVaultBoardOperationID (vbo_VaultID operation) (vbo_Txid operation) (vbo_Vout operation));
  _ ← guard_M ((vbo_OperationID operation != []) && (vbo_OperationID operation != id))
        (ErrMsg "vault-board-v1 operation id is server-derived");
  now ← query (fun l => Ok (NowUTC l));
  _ ← guard_M (negb (blen (vbr_RequestDigest request) =? sha256_Size) || negb (blen (vbr_TreeSessionPub request) =? 33)
               || (vbr_ReceiverSats request <=? 0) || (vbr_FeeSats request <? 0)
               || (max_int64 - vbr_FeeSats request <? vbr_ReceiverSats request)
               || negb (vbr_ReceiverSats request + vbr_FeeSats request =? vbo_ValueSats operation)
               || (vbr_ExpireAt request <=? unix now))
        (ErrMsg "vault-board-v1 finite register request required");
  transaction (begin_attempt_body id operation request chain).

(** ** Delete and finalize *)
Definition require_current_register (d : Db) (key id : bytes) (attempt : Z) (what : string) : result unit :=
  latest ← need_row (loadLatestVaultBoardRegister d id);
  _ ← VerifyVaultBoardAuthorization latest key;
  fail_if (negb (vba_Attempt latest =? attempt)) (ErrMsg what).

(** A scan error of the register row only fails the call later. *)
Definition validateVaultBoardPhaseOrder (d : Db) (key : bytes) (auth : VaultBoardAuthorization) : result unit :=
  let id := vba_OperationID auth in let n := vba_Attempt auth in
  _ ← require_current_register d key id n "vault-board-v1 attempt is no longer current";
  let register := need_row (loadVaultBoardAuthorization d id n VaultBoardPhaseRegister) in
  _ ← match register with
      | Ok r => VerifyVaultBoardAuthorization r key
      | Err _ => Ok tt
      end;
  if (vba_Phase auth == VaultBoardPhaseDelete) || (vba_Phase auth == VaultBoardPhaseFinalize) then
    _ ← or_err (ErrMsg "vault-board-v1 register authorization required") register;
    submission ← or_err (ErrMsg "vault-board-v1 register submission required")
                   (need_row (loadVaultBoardSubmission d id n VaultBoardPhaseRegister));
    _ ← VerifyVaultBoardSubmission submission key;
    _ ← fail_if (vbs_Outcome submission != VaultBoardAuthSubmitted) (ErrMsg "vault-board-v1 register was not accepted");
    let opposite := if vba_Phase auth == VaultBoardPhaseFinalize then VaultBoardPhaseDelete else VaultBoardPhaseFinalize in
    forbid_row (loadOptionalVerifiedVaultBoardAuthorization d key id n opposite)
      (ErrMsg "vault-board-v1 delete and finalize are mutually exclusive")
  else Err (ErrMsg "invalid vault-board-v1 phase").

(** The stored authorization when the phase was already authorized with the
    same request; otherwise the sealed and inserted one. *)
Definition stored_authorization (auth : VaultBoardAuthorization) (key : bytes) : M VaultBoardAuthorization :=
  stored ← query (fun l => loadVaultBoardAuthorization (l_db l) (vba_OperationID auth) (vba_Attempt auth) (vba_Phase auth));
  match stored with
  | Some stored =>
      _ ← lift (VerifyVaultBoardAuthorization stored key);
      _ ← guard_M (negb (sameVaultBoardAuthorizationRequest stored auth))
            (ErrMsg "vault-board-v1 phase is bound to a different exact request");
      mret stored
  | None =>
      _ ← query (fun l => validateVaultBoardPhaseOrder (l_db l) key auth);
      now ← query (fun l => Ok (NowUTC l));
      sealed ← lift (SealVaultBoardAuthorization (vba_set (format_rfc3339nano now) (vba_IntegrityMAC auth) auth) key);
      _ ← insert_board_authorization sealed;
      mret sealed
  end.

(** The checks every cooperative step starts with. *)
Definition require_open_operation (key id : bytes) (chain : VaultBoardChainState) : M VaultBoardOperation :=
  operation ← query (fun l => need_row (loadVaultBoardOperation (l_db l) id));
  _ ← lift (VerifyVaultBoardOperation operation key);
  _ ← query (requireVaultBoardCooperativeWindow operation chain);
  _ ← requireVaultBoardConflictChecks key id chain;
  mret operation.

Definition existing_dispatch (key id : bytes) (attempt : Z) (phase digest : bytes) (l : Ledger)
  : result (option VaultBoardDispatch) :=
  existing ← loadOptionalVerifiedVaultBoardDispatch (l_db l) key id attempt phase;
  _ ← match existing with
      | Some d => fail_if (vbd_RequestDigest d != digest) (ErrMsg "vault-board-v1 dispatch request changed")
      | None => Ok tt
      end;
  Ok existing.

Definition record_dispatch (rec : VaultBoardDispatch) (key : bytes) : M VaultBoardDispatch :=
  _ ← query (fun l => forbid_row (loadVaultBoardSubmission (l_db l) (vbd_OperationID rec) (vbd_Attempt rec) (vbd_Phase rec))
                        (ErrMsg "vault-board-v1 result already recorded"));
  now ← query (fun l => Ok (NowUTC l));
  sealed ← lift (SealVaultBoardDispatch (vbd_set (format_rfc3339nano now) (vbd_IntegrityMAC rec) rec) key);
  _ ← insert_board_dispatch sealed;
  _ ← wrap_M "policy sequence" observeEconomicOutflowsLocked;
  mret sealed.

Definition authorize_dispatch_body (auth : VaultBoardAuthorization) (chain : VaultBoardChainState)
  : M (VaultBoardAuthorization * VaultBoardDispatch * bool) :=
  key ← query integrityKeyCopy;
  let id := vba_OperationID auth in
  _ ← require_open_operation key id chain;
  _ ← query (fun l => require_current_register (l_db l) key id (vba_Attempt auth)
                        "vault-board-v1 attempt is no longer current");
  auth ← stored_authorization auth key;
  existing ← query (existing_dispatch key id (vba_Attempt auth) (vba_Phase auth) (vba_RequestDigest auth));
  match existing with
  | Some dispatch => mret (auth, dispatch, false)
  | None =>
      dispatch ← record_dispatch (Build_VaultBoardDispatch id (vba_Attempt auth) (vba_Phase auth)
                                    (vba_RequestDigest auth) [] []) key;
      mret (auth, dispatch, true)
  end.

Definition AppendVaultBoardAuthorizationAndDispatch (auth : VaultBoardAuthorization) (chain : VaultBoardChainState)
  : M (VaultBoardAuthorization * VaultBoardDispatch * bool) :=
  _ ← guard_M ((vba_Phase auth != VaultBoardPhaseDelete) && (vba_Phase auth != VaultBoardPhaseFinalize))
        (ErrMsg "vault-board-v1 atomic dispatch is delete/final only");
  _ ← guard_M (vba_OperationID auth == []) (ErrMsg "vault-board-v1 operation required");
  transaction (authorize_dispatch_body auth chain).

(** ** Dispatches and results *)
Definition dispatch_body (rec : VaultBoardDispatch) (chain : VaultBoardChainState) : M (VaultBoardDispatch * bool) :=
  key ← query integrityKeyCopy;
  let id := vbd_OperationID rec in let n := vbd_Attempt rec in
  _ ← require_open_operation key id chain;
  existing ← query (existing_dispatch key id n (vbd_Phase rec) (vbd_RequestDigest rec));
  match existing with
  | Some dispatch => mret (dispatch, false)
  | None =>
      auth ← query (fun l => need_row (loadVaultBoardAuthorization (l_db l) id n (vbd_Phase rec)));
      _ ← lift (VerifyVaultBoardAuthorization auth key);
      _ ← guard_M (vba_RequestDigest auth != vbd_RequestDigest rec) (ErrMsg "vault-board-v1 dispatch request changed");
      _ ← query (fun l => require_current_register (l_db l) key id n "vault-board-v1 attempt is no longer current");
      dispatch ← record_dispatch rec key;
      mret (dispatch, true)
  end.

Definition AppendVaultBoardDispatch (rec : VaultBoardDispatch) (chain : VaultBoardChainState)
  : M (VaultBoardDispatch * bool) := transaction (dispatch_body rec chain).

Definition same_result (current rec : VaultBoardSubmission) : bool :=
  (vbs_RequestDigest current == vbs_RequestDigest rec) && (vbs_Outcome current == vbs_Outcome rec)
  && (vbs_OperatorRef current == vbs_OperatorRef rec) && (vbs_CommitmentTxid current == vbs_CommitmentTxid rec)
  && (vbs_ReceiverTxid current == vbs_ReceiverTxid rec) && (vbs_ReceiverVout current =? vbs_ReceiverVout rec).

Definition require_not_invalidated (d : Db) (key : bytes) (rec : VaultBoardSubmission) : result unit :=
  if vbs_Phase rec == VaultBoardPhaseFinalize then
    conflicts ← loadVaultBoardConflicts d key (vbs_OperationID rec);
    fail_if (existsb (fun c => vbc_Attempt c =? vbs_Attempt rec) conflicts)
      (ErrMsg "vault-board-v1 commitment was invalidated by a confirmed conflict")
  else Ok tt.

Definition submission_body (rec : VaultBoardSubmission) : M (VaultBoardSubmission * bool) :=
  key ← query integrityKeyCopy;
  _ ← observeEconomicOutflowsLocked;
  let id := vbs_OperationID rec in let n := vbs_Attempt rec in let phase := vbs_Phase rec in
  current ← query (fun l => loadOptionalVerifiedVaultBoardSubmission (l_db l) key id n phase);
  match current with
  | Some current =>
      _ ← guard_M (negb (same_result current rec)) (ErrMsg "vault-board-v1 Operator result changed");
      mret (current, false)
  | None =>
      auth ← query (fun l => need_row (loadVaultBoardAuthorization (l_db l) id n phase));
      _ ← lift (VerifyVaultBoardAuthorization auth key);
      _ ← guard_M (vba_RequestDigest auth != vbs_RequestDigest rec) (ErrMsg "vault-board-v1 request changed");
      _ ← query (fun l => require_not_invalidated (l_db l) key rec);
      dispatch ← query (fun l => or_err (ErrMsg "vault-board-v1 dispatch required")
                                   (need_row (loadVaultBoardDispatch (l_db l) id n phase)));
      _ ← lift (VerifyVaultBoardDispatch dispatch key);
      _ ← guard_M (vbd_RequestDigest dispatch != vbs_RequestDigest rec) (ErrMsg "vault-board-v1 dispatch request changed");
      now ← query (fun l => Ok (NowUTC l));
      sealed ← lift (SealVaultBoardSubmission (vbs_set (format_rfc3339nano now) (vbs_IntegrityMAC rec) rec) key);
      _ ← insert_board_submission sealed;
      _ ← wrap_M "policy sequence" observeEconomicOutflowsLocked;
      mret (sealed, true)
  end.

Definition AppendVaultBoardSubmission (rec : VaultBoardSubmission) : M (VaultBoardSubmission * bool) :=
  transaction (submission_body rec).

(** ** Conflicts *)
Definition spends_boarding (op : VaultBoardOperation) (prev : OutPoint) : bool :=
  (op_Hash prev == hex_encode (vbo_Txid op)) && (op_Index prev =? vbo_Vout op).

Definition require_conflict_final (d : Db) (key : bytes) (rec : VaultBoardConflict) : result unit :=
  let id := vbc_OperationID rec in let n := vbc_Attempt rec in
  auth ← need_row (loadVaultBoardAuthorization d id n VaultBoardPhaseFinalize);
  _ ← VerifyVaultBoardAuthorization auth key;
  _ ← fail_if (negb (conflict_matches auth rec)) (ErrMsg "vault-board-v1 conflict changed final authorization");
  _ ← require_current_register d key id n "vault-board-v1 conflict attempt is no longer current";
  forbid_row (loadVaultBoardSubmission d id n VaultBoardPhaseFinalize)
    (ErrMsg "vault-board-v1 submitted commitment cannot be invalidated").

Definition conflict_body (rec : VaultBoardConflict) (chain : VaultBoardChainState) : M unit :=
  key ← query integrityKeyCopy;
  op ← require_open_operation key (vbc_OperationID rec) chain;
  _ ← query (fun l => require_conflict_final (l_db l) key rec);
  _ ← guard_M ((bce_FundingTxid (vbc_Evidence rec) == hex_encode (vbo_Txid op))
               && (bce_FundingVout (vbc_Evidence rec) =? vbo_Vout op))
        (ErrMsg "vault-board-v1 conflict must preserve the boarding outpoint");
  now ← query (fun l => Ok (NowUTC l));
  let rec := vbc_set (format_rfc3339nano now) (vbc_IntegrityMAC rec) rec in
  mac ← lift (vaultBoardMAC canonicalVaultBoardConflict rec key);
  original ← lift (ParseVaultBoardConflictCommitment rec);
  _ ← guard_M (negb (existsb (spends_boarding op) (tx_TxIn original)))
        (ErrMsg "vault-board-v1 conflict commitment lacks boarding input");
  _ ← insert_board_conflict (Build_ConflictRow (vbc_OperationID rec) (vbc_Attempt rec) (marshal_conflict rec) mac);
  observeEconomicOutflowsLocked.

Definition AppendVaultBoardConflict (rec : VaultBoardConflict) (chain : VaultBoardChainState) : M unit :=
  transaction (conflict_body rec chain).
End BoardJournal.

(** ** The abstract journal

    What the four append-only tables say about an attempt. *)
Definition auth_at (d : Db) (id : bytes) (n : Z) (phase : bytes) : option VaultBoardAuthorization :=
  List.find (in_phase_auth id n phase) (t_board_authorization (db_board d)).
Definition submission_at (d : Db) (id : bytes) (n : Z) (phase : bytes) : option VaultBoardSubmission :=
  List.find (in_phase_submission id n phase) (t_board_submission (db_board d)).
Definition dispatch_at (d : Db) (id : bytes) (n : Z) (phase : bytes) : option VaultBoardDispatch :=
  List.find (in_phase_dispatch id n phase) (t_board_dispatch (db_board d)).
Definition conflict_at (d : Db) (id : bytes) (n : Z) : option ConflictRow :=
  List.find (same_conflict id n) (t_board_conflict (db_board d)).

(** The rows of the journal. *)
Definition b_auths (d : Db) : list VaultBoardAuthorization := t_board_authorization (db_board d).
Definition b_dispatches (d : Db) : list VaultBoardDispatch := t_board_dispatch (db_board d).
Definition b_submissions (d : Db) : list VaultBoardSubmission := t_board_submission (db_board d).
Definition b_conflicts (d : Db) : list ConflictRow := t_board_conflict (db_board d).
Definition board_rows (d : Db) := (b_auths d, b_dispatches d, b_submissions d, b_conflicts d).

Definition latest_attempt (d : Db) (id : bytes) (n : Z) : Prop :=
  auth_at d id n VaultBoardPhaseRegister <> None /\
  forall m, auth_at d id m VaultBoardPhaseRegister <> None -> m <= n.

(** Attempt [n] no longer binds the deposit when the next attempt is opened at
    [now]: it never left the program, was refused, was released, was invalidated
    by a confirmed conflict, or its quarantine after expiry has passed. *)
Definition closed_at (d : Db) (id : bytes) (n now : Z) : Prop :=
  conflict_at d id n <> None \/
  auth_at d id n VaultBoardPhaseFinalize = None /\
  (dispatch_at d id n VaultBoardPhaseRegister = None \/
   (exists s, submission_at d id n VaultBoardPhaseRegister = Some s /\ vbs_Outcome s = VaultBoardAuthRejected) \/
   (exists s, submission_at d id n VaultBoardPhaseDelete = Some s /\ vbs_Outcome s = VaultBoardAuthReleased) \/
   (exists r, auth_at d id n VaultBoardPhaseRegister = Some r /\ vba_ExpireAt r + 30 <= unix now)).

(** One appended row. *)
Inductive board_step (now : Z) (d d' : Db) : Prop :=
  | step_none : board_rows d' = board_rows d -> board_step now d d'
  | step_register a :
      vba_Phase a = VaultBoardPhaseRegister -> vba_CreatedAt a = format_rfc3339nano now ->
      (vba_Attempt a = 0 /\ (forall n, auth_at d (vba_OperationID a) n VaultBoardPhaseRegister = None) \/
       latest_attempt d (vba_OperationID a) (vba_Attempt a - 1) /\
       closed_at d (vba_OperationID a) (vba_Attempt a - 1) now) ->
      board_rows d' = (b_auths d ++ [a], b_dispatches d, b_submissions d, b_conflicts d) -> board_step now d d'
  | step_authorize a s :
      vba_Phase a = VaultBoardPhaseDelete /\ auth_at d (vba_OperationID a) (vba_Attempt a) VaultBoardPhaseFinalize = None \/
      vba_Phase a = VaultBoardPhaseFinalize /\ auth_at d (vba_OperationID a) (vba_Attempt a) VaultBoardPhaseDelete = None ->
      latest_attempt d (vba_OperationID a) (vba_Attempt a) ->
      submission_at d (vba_OperationID a) (vba_Attempt a) VaultBoardPhaseRegister = Some s ->
      vbs_Outcome s = VaultBoardAuthSubmitted ->
      board_rows d' = (b_auths d ++ [a], b_dispatches d, b_submissions d, b_conflicts d) -> board_step now d d'
  | step_dispatch x a :
      latest_attempt d (vbd_OperationID x) (vbd_Attempt x) ->
      auth_at d (vbd_OperationID x) (vbd_Attempt x) (vbd_Phase x) = Some a ->
      vba_RequestDigest a = vbd_RequestDigest x ->
      board_rows d' = (b_auths d, b_dispatches d ++ [x], b_submissions d, b_conflicts d) -> board_step now d d'
  | step_answer s x :
      dispatch_at d (vbs_OperationID s) (vbs_Attempt s) (vbs_Phase s) = Some x ->
      vbd_RequestDigest x = vbs_RequestDigest s ->
      (vbs_Phase s = VaultBoardPhaseFinalize -> conflict_at d (vbs_OperationID s) (vbs_Attempt s) = None) ->
      board_rows d' = (b_auths d, b_dispatches d, b_submissions d ++ [s], b_conflicts d) -> board_step now d d'
  | step_conflict c :
      auth_at d (bcr_operation_id c) (bcr_attempt c) VaultBoardPhaseFinalize <> None ->
      submission_at d (bcr_operation_id c) (bcr_attempt c) VaultBoardPhaseFinalize = None ->
      latest_attempt d (bcr_operation_id c) (bcr_attempt c) ->
      board_rows d' = (b_auths d, b_dispatches d, b_submissions d, b_conflicts d ++ [c]) -> board_step now d d'.

(** The invariant of the journal. *)
Record board_authority (d : Db) : Prop := {
  ba_exclusive : forall id n,
    auth_at d id n VaultBoardPhaseDelete <> None -> auth_at d id n VaultBoardPhaseFinalize = None;
  ba_dispatched : forall id n phase x, dispatch_at d id n phase = Some x ->
    exists a, auth_at d id n phase = Some a /\ vba_RequestDigest a = vbd_RequestDigest x;
  ba_answered : forall id n phase s, submission_at d id n phase = Some s ->
    exists x, dispatch_at d id n phase = Some x /\ vbd_RequestDigest x = vbs_RequestDigest s;
  ba_accepted : forall id n phase a, auth_at d id n phase = Some a -> phase <> VaultBoardPhaseRegister ->
    exists s, submission_at d id n VaultBoardPhaseRegister = Some s /\ vbs_Outcome s = VaultBoardAuthSubmitted;
  ba_sequence : forall id n a, auth_at d id n VaultBoardPhaseRegister = Some a -> n <> 0 ->
    auth_at d id (n - 1) VaultBoardPhaseRegister <> None /\ 0 < n /\
    exists now, vba_CreatedAt a = format_rfc3339nano now /\ closed_at d id (n - 1) now;
  ba_conflict : forall id n c, conflict_at d id n = Some c ->
    auth_at d id n VaultBoardPhaseFinalize <> None /\ submission_at d id n VaultBoardPhaseFinalize = None;
}.

(** ** How a step changes what the tables say *)
Lemma find_snoc {A} (f : A -> bool) rows x :
  List.find f (rows ++ [x])
  = match List.find f rows with Some r => Some r | None => if f x then Some x else None end.
Proof. induction rows as [|r rows IH]; cbn; [done|]. by destruct (f r). Qed.

Lemma in_phase_auth_true id n phase r :
  in_phase_auth id n phase r = true <-> vba_OperationID r = id /\ vba_Attempt r = n /\ vba_Phase r = phase.
Proof. unfold in_phase_auth. rewrite !andb_true_split, !bool_decide_eq_true, Z.eqb_eq. naive_solver. Qed.
Lemma in_phase_dispatch_true id n phase r :
  in_phase_dispatch id n phase r = true <-> vbd_OperationID r = id /\ vbd_Attempt r = n /\ vbd_Phase r = phase.
Proof. unfold in_phase_dispatch. rewrite !andb_true_split, !bool_decide_eq_true, Z.eqb_eq. naive_solver. Qed.
Lemma in_phase_submission_true id n phase r :
  in_phase_submission id n phase r = true <-> vbs_OperationID r = id /\ vbs_Attempt r = n /\ vbs_Phase r = phase.
Proof. unfold in_phase_submission. rewrite !andb_true_split, !bool_decide_eq_true, Z.eqb_eq. naive_solver. Qed.
Lemma same_conflict_true id n r :
  same_conflict id n r = true <-> bcr_operation_id r = id /\ bcr_attempt r = n.
Proof. unfold same_conflict. rewrite !andb_true_split, !bool_decide_eq_true, Z.eqb_eq. done. Qed.

(** [later o o']: what was there stays. *)
Definition later {A} (o o' : option A) : Prop := forall x, o = Some x -> o' = Some x.

Record board_grows (d d' : Db) : Prop := {
  bg_auth : forall id n p, later (auth_at d id n p) (auth_at d' id n p);
  bg_dispatch : forall id n p, later (dispatch_at d id n p) (dispatch_at d' id n p);
  bg_submission : forall id n p, later (submission_at d id n p) (submission_at d' id n p);
  bg_conflict : forall id n, later (conflict_at d id n) (conflict_at d' id n);
}.

Lemma later_refl {A} (o : option A) : later o o.
Proof. by intros x. Qed.
Lemma later_find {A} (f : A -> bool) rows x : later (List.find f rows) (List.find f (rows ++ [x])).
Proof. intros y E. by rewrite find_snoc, E. Qed.
#[local] Hint Resolve later_refl later_find : core.

Lemma later_not_none {A} (o o' : option A) : later o o' -> o <> None -> o' <> None.
Proof. intros Hl Ho. destruct o as [x|]; [|done]. by rewrite (Hl x). Qed.

Lemma board_step_grows now d d' : board_step now d d' -> board_grows d d'.
Proof.
  destruct 1; unfold board_rows in *;
    repeat match goal with H : (_, _) = (_, _) |- _ => apply pair_equal_spec in H as [H ?] end;
    split; intros; unfold auth_at, dispatch_at, submission_at, conflict_at, b_auths, b_dispatches, b_submissions, b_conflicts in *;
    repeat match goal with H : _ _ = _ |- context [List.find _ ?t] => rewrite H end; auto.
Qed.

Lemma auth_at_same d d' id n p : b_auths d' = b_auths d -> auth_at d' id n p = auth_at d id n p.
Proof. unfold auth_at, b_auths. by intros ->. Qed.
Lemma dispatch_at_same d d' id n p : b_dispatches d' = b_dispatches d -> dispatch_at d' id n p = dispatch_at d id n p.
Proof. unfold dispatch_at, b_dispatches. by intros ->. Qed.
Lemma submission_at_same d d' id n p :
  b_submissions d' = b_submissions d -> submission_at d' id n p = submission_at d id n p.
Proof. unfold submission_at, b_submissions. by intros ->. Qed.
Lemma conflict_at_same d d' id n : b_conflicts d' = b_conflicts d -> conflict_at d' id n = conflict_at d id n.
Proof. unfold conflict_at, b_conflicts. by intros ->. Qed.

Lemma auth_at_snoc d d' a id n p :
  b_auths d' = b_auths d ++ [a] ->
  auth_at d' id n p = match auth_at d id n p with
                      | Some x => Some x
                      | None => if in_phase_auth id n p a then Some a else None
                      end.
Proof. unfold auth_at, b_auths. intros ->. apply find_snoc. Qed.
Lemma dispatch_at_snoc d d' x id n p :
  b_dispatches d' = b_dispatches d ++ [x] ->
  dispatch_at d' id n p = match dispatch_at d id n p with
                          | Some x => Some x
                          | None => if in_phase_dispatch id n p x then Some x else None
                          end.
Proof. unfold dispatch_at, b_dispatches. intros ->. apply find_snoc. Qed.
Lemma submission_at_snoc d d' s id n p :
  b_submissions d' = b_submissions d ++ [s] ->
  submission_at d' id n p = match submission_at d id n p with
                            | Some x => Some x
                            | None => if in_phase_submission id n p s then Some s else None
                            end.
Proof. unfold submission_at, b_submissions. intros ->. apply find_snoc. Qed.
Lemma conflict_at_snoc d d' c id n :
  b_conflicts d' = b_conflicts d ++ [c] ->
  conflict_at d' id n = match conflict_at d id n with
                        | Some x => Some x
                        | None => if same_conflict id n c then Some c else None
                        end.
Proof. unfold conflict_at, b_conflicts. intros ->. apply find_snoc. Qed.

(** A row of another phase says nothing. *)
Lemma other_phase id n p a : vba_Phase a <> p -> in_phase_auth id n p a = false.
Proof.
  intros Hp. destruct (in_phase_auth id n p a) eqn:E; [|done]. by apply in_phase_auth_true in E as (_ & _ & <-).
Qed.

(** [open_step H] opens a step and describes the tables after it. *)
Ltac split_rows H :=
  let HA := fresh "HA" in let HD := fresh "HD" in let HS := fresh "HS" in let HC := fresh "HC" in
  unfold board_rows in H; apply pair_equal_spec in H as [H HC]; apply pair_equal_spec in H as [H HS];
  apply pair_equal_spec in H as [HA HD].
Ltac open_step H :=
  destruct H as [Hr | a Hp Hcr Hseq Hr | a s Hp Hl Hs Ho Hr | x a Hl Ha Hd Hr | s x Hx Hd Hc Hr | c Ha Hs Hl Hr];
  split_rows Hr.
Ltac same_views :=
  repeat match goal with
         | H : b_auths ?d' = b_auths _ |- _ => progress rewrite ?(auth_at_same _ _ _ _ _ H) in *
         | H : b_dispatches ?d' = b_dispatches _ |- _ => progress rewrite ?(dispatch_at_same _ _ _ _ _ H) in *
         | H : b_submissions ?d' = b_submissions _ |- _ => progress rewrite ?(submission_at_same _ _ _ _ _ H) in *
         | H : b_conflicts ?d' = b_conflicts _ |- _ => progress rewrite ?(conflict_at_same _ _ _ _ H) in *
         end.

Lemma phases_differ :
  VaultBoardPhaseRegister <> VaultBoardPhaseDelete /\ VaultBoardPhaseRegister <> VaultBoardPhaseFinalize /\
  VaultBoardPhaseDelete <> VaultBoardPhaseFinalize.
Proof. done. Qed.

(** A step other than the one that authorizes the phase leaves it alone. *)
Lemma step_exclusive now d d' id n :
  board_authority d -> board_step now d d' ->
  auth_at d' id n VaultBoardPhaseDelete <> None -> auth_at d' id n VaultBoardPhaseFinalize = None.
Proof.
  intros Hi H Hdel. destruct phases_differ as (? & ? & ?). open_step H; same_views;
    try (by apply (ba_exclusive _ Hi)).
  - rewrite (auth_at_snoc _ _ _ _ _ _ HA), other_phase by congruence.
    rewrite (auth_at_snoc _ _ _ _ _ _ HA), other_phase in Hdel by congruence.
    destruct (auth_at d id n VaultBoardPhaseDelete) eqn:E1; [|done].
    rewrite (ba_exclusive _ Hi) by congruence. done.
  - rewrite (auth_at_snoc _ _ _ _ _ _ HA). rewrite (auth_at_snoc _ _ _ _ _ _ HA) in Hdel. destruct Hp as [[Hp Hn]|[Hp Hn]].
    + rewrite (other_phase _ _ VaultBoardPhaseFinalize) by congruence.
      destruct (auth_at d id n VaultBoardPhaseDelete) eqn:E1; [by rewrite (ba_exclusive _ Hi) by congruence|].
      destruct (in_phase_auth id n VaultBoardPhaseDelete a) eqn:E2; [|done].
      apply in_phase_auth_true in E2 as (<- & <- & _). by rewrite Hn.
    + rewrite (other_phase _ _ VaultBoardPhaseDelete) in Hdel by congruence.
      destruct (auth_at d id n VaultBoardPhaseDelete) eqn:E1; [|done].
      rewrite (ba_exclusive _ Hi) by congruence.
      destruct (in_phase_auth id n VaultBoardPhaseFinalize a) eqn:E2; [|done].
      apply in_phase_auth_true in E2 as (<- & <- & _). congruence.
Qed.

Lemma step_dispatched now d d' id n p y :
  board_authority d -> board_step now d d' -> dispatch_at d' id n p = Some y ->
  exists a, auth_at d' id n p = Some a /\ vba_RequestDigest a = vbd_RequestDigest y.
Proof.
  intros Hi H Hy. pose proof (board_step_grows _ _ _ H) as Hg.
  assert (dispatch_at d id n p = Some y ->
    exists a, auth_at d' id n p = Some a /\ vba_RequestDigest a = vbd_RequestDigest y) as Hold.
  { intros Ho. destruct (ba_dispatched _ Hi _ _ _ _ Ho) as (b & Hb & Hd). exists b. split; [|done].
    by apply (bg_auth _ _ Hg). }
  open_step H; same_views; try by apply Hold.
  rewrite (dispatch_at_snoc _ _ _ _ _ _ HD) in Hy. destruct (dispatch_at d id n p) eqn:E; [by apply Hold|].
  destruct (in_phase_dispatch id n p x) eqn:E2; [|done]. injection Hy as <-.
  apply in_phase_dispatch_true in E2 as (<- & <- & <-). eauto.
Qed.

Lemma step_answered now d d' id n p t :
  board_authority d -> board_step now d d' -> submission_at d' id n p = Some t ->
  exists x, dispatch_at d' id n p = Some x /\ vbd_RequestDigest x = vbs_RequestDigest t.
Proof.
  intros Hi H Ht. pose proof (board_step_grows _ _ _ H) as Hg.
  assert (submission_at d id n p = Some t ->
    exists x, dispatch_at d' id n p = Some x /\ vbd_RequestDigest x = vbs_RequestDigest t) as Hold.
  { intros Ho. destruct (ba_answered _ Hi _ _ _ _ Ho) as (y & Hd & Hy). exists y. split; [|done].
    by apply (bg_dispatch _ _ Hg). }
  open_step H; same_views; try by apply Hold.
  rewrite (submission_at_snoc _ _ _ _ _ _ HS) in Ht. destruct (submission_at d id n p) eqn:E; [by apply Hold|].
  destruct (in_phase_submission id n p s) eqn:E2; [|done]. injection Ht as <-.
  apply in_phase_submission_true in E2 as (<- & <- & <-). eauto.
Qed.

Lemma step_accepted now d d' id n p b :
  board_authority d -> board_step now d d' -> auth_at d' id n p = Some b -> p <> VaultBoardPhaseRegister ->
  exists s, submission_at d' id n VaultBoardPhaseRegister = Some s /\ vbs_Outcome s = VaultBoardAuthSubmitted.
Proof.
  intros Hi H Hb Hne. pose proof (board_step_grows _ _ _ H) as Hg.
  assert (forall b, auth_at d id n p = Some b ->
    exists s, submission_at d' id n VaultBoardPhaseRegister = Some s /\ vbs_Outcome s = VaultBoardAuthSubmitted) as Hold.
  { intros b1 Ho. destruct (ba_accepted _ Hi _ _ _ _ Ho Hne) as (t & Ht & Hx). exists t. split; [|done].
    by apply (bg_submission _ _ Hg). }
  open_step H; same_views; try by eapply Hold.
  - rewrite (auth_at_snoc _ _ _ _ _ _ HA), other_phase in Hb by congruence.
    destruct (auth_at d id n p) eqn:E; [by eapply Hold|done].
  - rewrite (auth_at_snoc _ _ _ _ _ _ HA) in Hb. destruct (auth_at d id n p) eqn:E; [by eapply Hold|].
    destruct (in_phase_auth id n p a) eqn:E2; [|done]. apply in_phase_auth_true in E2 as (<- & <- & _). eauto.
Qed.

Lemma step_conflicts now d d' id n y :
  board_authority d -> board_step now d d' -> conflict_at d' id n = Some y ->
  auth_at d' id n VaultBoardPhaseFinalize <> None /\ submission_at d' id n VaultBoardPhaseFinalize = None.
Proof.
  intros Hi H Hy. pose proof (board_step_grows _ _ _ H) as Hg.
  assert (forall y, conflict_at d id n = Some y -> auth_at d' id n VaultBoardPhaseFinalize <> None /\
    submission_at d id n VaultBoardPhaseFinalize = None) as Hold.
  { intros y1 Ho. destruct (ba_conflict _ Hi _ _ _ Ho) as (Hx & ?). split; [|done].
    eapply later_not_none; [apply (bg_auth _ _ Hg)|done]. }
  open_step H; same_views; try by eapply Hold.
  - destruct (Hold _ Hy) as [? Hn]. split; [done|]. rewrite (submission_at_snoc _ _ _ _ _ _ HS), Hn.
    destruct (in_phase_submission id n VaultBoardPhaseFinalize s) eqn:E; [|done].
    apply in_phase_submission_true in E as (<- & <- & E). rewrite Hc in Hy by done. done.
  - rewrite (conflict_at_snoc _ _ _ _ _ HC) in Hy. destruct (conflict_at d id n) eqn:E; [by eapply Hold|].
    destruct (same_conflict id n c) eqn:E2; [|done]. by apply same_conflict_true in E2 as [<- <-].
Qed.

(** An attempt that is not the latest stays closed. *)
Lemma step_closed now d d' id n m t :
  board_step now d d' -> n < m -> auth_at d' id m VaultBoardPhaseRegister <> None ->
  closed_at d id n t -> closed_at d' id n t.
Proof.
  intros H Hlt Hm [Hcl|(Hf & Hcl)].
  - left. eapply later_not_none; [|exact Hcl]. by apply (bg_conflict _ _ (board_step_grows _ _ _ H)).
  - right. pose proof (board_step_grows _ _ _ H) as Hg. destruct phases_differ as (? & ? & ?). split.
    + open_step H; same_views; try done.
      * by rewrite (auth_at_snoc _ _ _ _ _ _ HA), other_phase, Hf by congruence.
      * rewrite (auth_at_snoc _ _ _ _ _ _ HA), Hf. destruct (in_phase_auth id n VaultBoardPhaseFinalize a) eqn:E; [|done].
        apply in_phase_auth_true in E as (<- & <- & E). exfalso.
        rewrite (auth_at_snoc _ _ _ _ _ _ HA), other_phase in Hm by congruence.
        destruct (auth_at d _ m _) eqn:Em; [|done]. pose proof (proj2 Hl m) as Hle. rewrite Em in Hle.
        specialize (Hle ltac:(done)). lia.
    + destruct Hcl as [Hnd|[(s & Hs & Ho)|[(s & Hs & Ho)|(r & Hreg & He)]]].
      * left. open_step H; same_views; try done. rewrite (dispatch_at_snoc _ _ _ _ _ _ HD), Hnd.
        destruct (in_phase_dispatch id n VaultBoardPhaseRegister x) eqn:E; [|done].
        apply in_phase_dispatch_true in E as (<- & <- & E). pose proof (proj2 Hl m Hm). lia.
      * right; left. exists s. split; [by apply (bg_submission _ _ Hg)|done].
      * right; right; left. exists s. split; [by apply (bg_submission _ _ Hg)|done].
      * right; right; right. exists r. split; [by apply (bg_auth _ _ Hg)|done].
Qed.

Lemma step_sequence now d d' id n b :
  board_authority d -> board_step now d d' -> auth_at d' id n VaultBoardPhaseRegister = Some b -> n <> 0 ->
  auth_at d' id (n - 1) VaultBoardPhaseRegister <> None /\ 0 < n /\
  exists t, vba_CreatedAt b = format_rfc3339nano t /\ closed_at d' id (n - 1) t.
Proof.
  intros Hi H Hb Hn. pose proof (board_step_grows _ _ _ H) as Hg.
  assert (auth_at d' id n VaultBoardPhaseRegister <> None) as Hb' by congruence.
  assert (auth_at d id n VaultBoardPhaseRegister = Some b ->
    auth_at d' id (n - 1) VaultBoardPhaseRegister <> None /\ 0 < n /\
    exists t, vba_CreatedAt b = format_rfc3339nano t /\ closed_at d' id (n - 1) t) as Hold.
  { intros Ho. destruct (ba_sequence _ Hi _ _ _ Ho Hn) as (Hp & Hpos & t & Ht & Hc). split_and!; [|done|].
    - eapply later_not_none; [apply (bg_auth _ _ Hg)|done].
    - exists t. split; [done|]. eapply step_closed; [exact H| |exact Hb'|done]. lia. }
  destruct (auth_at d id n VaultBoardPhaseRegister) as [o|] eqn:E.
  { apply (bg_auth _ _ Hg) in E as E'. assert (o = b) as -> by congruence. by apply Hold. }
  pose proof H as Hstep. destruct phases_differ as (? & ? & ?). open_step H; same_views; try congruence.
  - rewrite (auth_at_snoc _ _ _ _ _ _ HA), E in Hb.
    destruct (in_phase_auth id n VaultBoardPhaseRegister a) eqn:E2; [|done]. injection Hb as <-.
    apply in_phase_auth_true in E2 as (<- & <- & _). destruct Hseq as [[? _]|[[Hl Hmax] Hc]]; [done|].
    split_and!.
    + eapply later_not_none; [apply (bg_auth _ _ Hg)|exact Hl].
    + destruct (auth_at d _ (vba_Attempt a - 1) _) as [o|] eqn:Eo; [|done].
      destruct (decide (vba_Attempt a - 1 = 0)) as [|Hz]; [lia|]. apply (ba_sequence _ Hi _ _ _ Eo) in Hz as (_ & ? & _). lia.
    + exists now. split; [done|]. eapply step_closed; [exact Hstep| |exact Hb'|done]. lia.
  - rewrite (auth_at_snoc _ _ _ _ _ _ HA), E, other_phase in Hb by (destruct Hp as [[-> _]|[-> _]]; congruence). done.
Qed.

Lemma board_authority_step now d d' : board_authority d -> board_step now d d' -> board_authority d'.
Proof.
  intros Hi H. split; intros.
  - by eapply step_exclusive.
  - by eapply step_dispatched.
  - by eapply step_answered.
  - by eapply step_accepted.
  - by eapply step_sequence.
  - by eapply step_conflicts.
Qed.

Lemma board_authority_steps now d d' : board_authority d -> rtc (board_step now) d d' -> board_authority d'.
Proof. intros Hi. induction 1; eauto using board_authority_step. Qed.

(** ** What the loaders return *)
Lemma load_auth_Ok d id n p o : loadVaultBoardAuthorization d id n p = Ok o -> auth_at d id n p = o.
Proof.
  unfold loadVaultBoardAuthorization, auth_at. destruct (List.find _ _) as [r|]; intros H; [|by apply Ok_inj in H].
  unfold scan_authorization in H. by inv_ok.
Qed.
Lemma load_dispatch_Ok d id n p o : loadVaultBoardDispatch d id n p = Ok o -> dispatch_at d id n p = o.
Proof.
  unfold loadVaultBoardDispatch, dispatch_at. destruct (List.find _ _) as [r|]; intros H; by inv_ok.
Qed.
Lemma load_submission_Ok d id n p o : loadVaultBoardSubmission d id n p = Ok o -> submission_at d id n p = o.
Proof.
  unfold loadVaultBoardSubmission, submission_at. destruct (List.find _ _) as [r|]; intros H; by inv_ok.
Qed.
Lemma need_row_Ok {A} (r : result (option A)) a : need_row r = Ok a -> r = Ok (Some a).
Proof. unfold need_row. intros H. apply bind_Ok in H as ([x|] & -> & H); [by apply Ok_inj in H as ->|done]. Qed.
Lemma forbid_row_Ok {A} (r : result (option A)) e u : forbid_row r e = Ok u -> r = Ok None.
Proof. unfold forbid_row. intros H. by apply bind_Ok in H as ([x|] & -> & H). Qed.
Lemma verified_option_Ok {A} v (r : result (option A)) o : verified_option v r = Ok o -> r = Ok o.
Proof.
  unfold verified_option. intros H. apply bind_Ok in H as ([x|] & -> & H); [|by apply Ok_inj in H as <-].
  apply bind_Ok in H as (u & _ & H). by apply Ok_inj in H as <-.
Qed.

Lemma board_registers_elem d id r :
  r ∈ board_registers d id <-> r ∈ b_auths d /\ vba_OperationID r = id /\ vba_Phase r = VaultBoardPhaseRegister.
Proof.
  unfold board_registers. rewrite slice_stable_perm, !list_elem_of_In, List.filter_In, andb_true_split, !bool_decide_eq_true.
  done.
Qed.

Lemma auth_at_elem d id n p : auth_at d id n p <> None <-> exists r, r ∈ b_auths d /\ vba_OperationID r = id /\ vba_Attempt r = n /\ vba_Phase r = p.
Proof.
  unfold auth_at, b_auths. split.
  - destruct (List.find _ _) as [r|] eqn:E; [|done]. intros _. apply List.find_some in E as [Hin E].
    apply in_phase_auth_true in E. exists r. by rewrite list_elem_of_In.
  - intros (r & Hin & Hr). apply list_elem_of_In in Hin. intros E. eapply List.find_none in E; [|exact Hin].
    apply in_phase_auth_true in Hr. congruence.
Qed.

Definition attempt_less (a b : VaultBoardAuthorization) : bool := vba_Attempt a <? vba_Attempt b.

Lemma registers_sorted d id : StronglySorted (not_after attempt_less) (board_registers d id).
Proof.
  apply slice_stable_sorted; unfold not_after, attempt_less.
  - intros x y. rewrite Z.ltb_lt, Z.ltb_ge. lia.
  - intros x y z. rewrite !Z.ltb_ge. lia.
Qed.

#[local] Instance not_after_refl : Reflexive (not_after attempt_less).
Proof. intros x. apply Z.ltb_irrefl. Qed.

Lemma last_sorted {A} (R : A -> A -> Prop) `{!Reflexive R} l x y : StronglySorted R l -> last l = Some x -> y ∈ l -> R y x.
Proof.
  intros Hs. revert x y. induction Hs as [|z l Hl IH Hz]; intros x y Hx Hy; [done|].
  destruct l as [|z' l].
  - injection Hx as <-. by apply list_elem_of_singleton in Hy as ->.
  - rewrite last_cons_cons in Hx. apply elem_of_cons in Hy as [->|Hy]; [|by apply IH].
    rewrite Forall_forall in Hz. apply Hz. by apply last_Some_elem_of.
Qed.

Lemma last_register d id r :
  last (board_registers d id) = Some r -> latest_attempt d id (vba_Attempt r).
Proof.
  intros H. split.
  - apply auth_at_elem. apply last_Some_elem_of, board_registers_elem in H as (? & ? & ?). eauto.
  - intros m Hm. apply auth_at_elem in Hm as (r' & Hin & Hid & <- & Hp).
    apply Z.ltb_ge, (last_sorted (not_after attempt_less) (board_registers d id)); [apply registers_sorted|done|].
    by apply board_registers_elem.
Qed.

Lemma no_register d id : last (board_registers d id) = None -> forall n, auth_at d id n VaultBoardPhaseRegister = None.
Proof.
  intros H n. destruct (auth_at d id n _) eqn:E; [|done]. assert (auth_at d id n VaultBoardPhaseRegister <> None) as Hn by congruence.
  apply auth_at_elem in Hn as (r & Hin & Hid & _ & Hp). apply last_None in H.
  assert (r ∈ board_registers d id) as Hr by by apply board_registers_elem. rewrite H in Hr. by apply elem_of_nil in Hr.
Qed.

Lemma require_current_Ok d key id n w u : require_current_register d key id n w = Ok u -> latest_attempt d id n.
Proof.
  unfold require_current_register. intros H. apply bind_Ok in H as (r & Hr & H). apply need_row_Ok in Hr.
  apply bind_Ok in H as (u1 & _ & H). apply fail_if_Ok in H. bool_hyps. subst n.
  unfold loadLatestVaultBoardRegister in Hr. destruct (last _) as [r'|] eqn:E; [|done].
  unfold scan_authorization in Hr. inv_ok. match goal with H : Some _ = Some _ |- _ => injection H as -> end.
  by apply last_register.
Qed.

Lemma load_registers_Ok d key id rs : loadVerifiedVaultBoardRegisters d key id = Ok rs -> rs = board_registers d id.
Proof.
  unfold loadVerifiedVaultBoardRegisters. generalize (board_registers d id). intros l. revert rs.
  induction l as [|x l IH]; intros rs H; simpl in H; [by apply Ok_inj in H as <-|].
  apply bind_Ok in H as (y & Hy & H). apply bind_Ok in H as (ys & Hys & H). apply Ok_inj in H as <-.
  apply bind_Ok in Hy as (z & Hz & Hy). unfold scan_authorization in Hz. inv_ok. f_equal. by apply IH.
Qed.

(** ** Conflicts in the tables *)
Section BoardRefinement.
Context `{Wire}.

Lemma conflict_rows_elem d id row : row ∈ conflict_rows d id <-> row ∈ b_conflicts d /\ bcr_operation_id row = id.
Proof.
  unfold conflict_rows. by rewrite slice_stable_perm, !list_elem_of_In, List.filter_In, bool_decide_eq_true.
Qed.

Lemma conflict_at_elem d id n :
  conflict_at d id n <> None <-> exists row, row ∈ conflict_rows d id /\ bcr_attempt row = n.
Proof.
  unfold conflict_at, b_conflicts. split.
  - destruct (List.find _ _) as [r|] eqn:E; [|done]. intros _. apply List.find_some in E as [Hin E].
    apply same_conflict_true in E as [? ?]. exists r. by rewrite conflict_rows_elem, list_elem_of_In.
  - intros (r & Hin & <-). apply conflict_rows_elem in Hin as [Hin <-]. apply list_elem_of_In in Hin.
    intros E. eapply List.find_none in E; [|exact Hin].
    assert (same_conflict (bcr_operation_id r) (bcr_attempt r) r = true) by by apply same_conflict_true. congruence.
Qed.

Lemma load_conflict_row_Ok key id row c : load_conflict_row key id row = Ok c -> vbc_Attempt c = bcr_attempt row.
Proof.
  unfold load_conflict_row. intros Hc. apply bind_Ok in Hc as (n & Hn & Hc). unfold scan_uint32 in Hn. inv_ok.
  destruct (unmarshal_conflict _) as [rec|]; [|done]. apply bind_Ok in Hc as (u & Hg & Hc). apply fail_if_Ok in Hg.
  bool_hyps. apply bind_Ok in Hc as (u2 & _ & Hc). apply Ok_inj in Hc as <-. done.
Qed.

(** The loaded conflicts are the rows of the operation. *)
Lemma load_conflicts_Ok d key id out n :
  loadVaultBoardConflicts d key id = Ok out ->
  existsb (fun c => vbc_Attempt c =? n) out = true <-> conflict_at d id n <> None.
Proof.
  unfold loadVaultBoardConflicts. intros Hl. apply bind_Ok in Hl as (cs & Hc & Hl).
  apply bind_Ok in Hl as (rs & _ & Hl). apply bind_Ok in Hl as (m & _ & Hl). apply bind_Ok in Hl as (u & _ & Hl).
  apply Ok_inj in Hl as ->. rewrite conflict_at_elem, List.existsb_exists. split.
  - intros (c & Hin & Hn). apply Z.eqb_eq in Hn as <-. apply list_elem_of_In in Hin.
    destruct (collect_elem_inv _ _ _ _ Hc Hin) as (row & Hrow & Hrc). apply load_conflict_row_Ok in Hrc. eauto.
  - intros (row & Hrow & <-). destruct (collect_elem _ _ _ _ Hc Hrow) as (c & Hin & Hrc).
    apply load_conflict_row_Ok in Hrc. exists c. split; [by apply list_elem_of_In|]. by rewrite Hrc, Z.eqb_refl.
Qed.

(** A rotation is allowed only over a closed attempt. *)
Lemma supersede_spec expireAt now : VaultBoardRegisterCanSupersede expireAt now = true -> expireAt + 30 <= unix now.
Proof.
  unfold VaultBoardRegisterCanSupersede. intros Hs. bool_hyps.
  change (vaultBoardRegisterQuarantine / second) with 30 in *. lia.
Qed.

Lemma can_rotate_submitted_Ok d key id n now register result u :
  auth_at d id n VaultBoardPhaseRegister = Some register -> auth_at d id n VaultBoardPhaseFinalize = None ->
  can_rotate_submitted d key id n now register result = Ok u -> closed_at d id n now.
Proof.
  intros Hreg Hfin Hr. right. split; [done|]. unfold can_rotate_submitted in Hr.
  apply bind_Ok in Hr as (da & _ & Hr). cbv zeta in Hr.
  assert (fail_if (negb ((vbs_Outcome result == VaultBoardAuthSubmitted) &&
    VaultBoardRegisterCanSupersede (vba_ExpireAt register) now)) still_active = Ok u ->
    exists r, auth_at d id n VaultBoardPhaseRegister = Some r /\ vba_ExpireAt r + 30 <= unix now) as Hlast.
  { intros Hl. apply fail_if_Ok in Hl. bool_hyps. exists register. split; [done|]. by apply supersede_spec. }
  destruct da as [da|]; [|right; right; right; by apply Hlast].
  apply bind_Ok in Hr as (u1 & _ & Hr). apply bind_Ok in Hr as (dd & _ & Hr).
  destruct dd as [dd|]; [|right; right; right; by apply Hlast].
  apply bind_Ok in Hr as (u2 & _ & Hr). apply bind_Ok in Hr as (ds & Hds & Hr).
  apply verified_option_Ok, load_submission_Ok in Hds. destruct ds as [ds|]; [|done].
  apply fail_if_Ok in Hr. bool_hyps. right; right; left. eauto.
Qed.

Lemma can_rotate_Ok d key id n now u : requireVaultBoardAttemptCanRotate d key id n now = Ok u -> closed_at d id n now.
Proof.
  unfold requireVaultBoardAttemptCanRotate. intros Hr. apply bind_Ok in Hr as (fa & Hfa & Hr). apply load_auth_Ok in Hfa.
  destruct fa as [fa|].
  - apply bind_Ok in Hr as (u1 & _ & Hr). apply bind_Ok in Hr as (cs & Hcs & Hr). apply fail_if_Ok in Hr. bool_hyps.
    left. apply (load_conflicts_Ok _ _ _ _ n Hcs). apply List.existsb_exists in Hr as (c & Hin & Hm). bool_hyps.
    apply List.existsb_exists. exists c. split; [done|]. by apply Z.eqb_eq.
  - apply bind_Ok in Hr as (reg & Hreg & Hr). apply need_row_Ok, load_auth_Ok in Hreg.
    apply bind_Ok in Hr as (u1 & _ & Hr). apply bind_Ok in Hr as (rd & Hrd & Hr). apply load_dispatch_Ok in Hrd.
    destruct rd as [rd|]; [|right; split; [done|by left]].
    apply bind_Ok in Hr as (u2 & _ & Hr). apply bind_Ok in Hr as (rs & Hrs & Hr). apply load_submission_Ok in Hrs.
    destruct rs as [rs|]; [|done]. apply bind_Ok in Hr as (u3 & _ & Hr).
    destruct (bool_decide_reflect (vbs_Outcome rs = VaultBoardAuthRejected)); [|by eapply can_rotate_submitted_Ok].
    right. split; [done|]. right; left. eauto.
Qed.

(** ** The calls refine the journal *)
Lemma reads_conflict_checks key id chain : moves eq (requireVaultBoardConflictChecks key id chain).
Proof.
  unfold requireVaultBoardConflictChecks. apply moves_bind; [apply _|apply moves_observe; apply _|]. intros _.
  apply moves_bind; [apply _|apply moves_query; apply _|]. intros cs. apply moves_lift; apply _.
Qed.

Lemma reads_open_operation key id chain : moves eq (require_open_operation key id chain).
Proof.
  unfold require_open_operation. repeat (apply moves_bind; [apply _| |intros ?]);
    first [apply reads_conflict_checks | solve_reads].
Qed.

Lemma stored_operation_rows op key now l l1 r :
  stored_operation op key now l = (l1, Ok r) -> board_rows (l_db l1) = board_rows (l_db l) /\ l_now l1 = l_now l.
Proof.
  unfold stored_operation. intros Hs. apply bind_Ok_M in Hs as (o & l0 & Hq & Hs). apply query_Ok in Hq as [-> _].
  destruct o as [o|]; [by inv_M|]. unfold insert_board_operation in Hs. by inv_M.
Qed.

Lemma board_rows_views d d' :
  board_rows d' = board_rows d ->
  (forall id n p, auth_at d' id n p = auth_at d id n p) /\ (forall id n p, dispatch_at d' id n p = dispatch_at d id n p) /\
  (forall id n p, submission_at d' id n p = submission_at d id n p) /\ (forall id n, conflict_at d' id n = conflict_at d id n).
Proof.
  intros Hr. split_rows Hr.
  split_and!; intros; [by apply auth_at_same|by apply dispatch_at_same|by apply submission_at_same|by apply conflict_at_same].
Qed.

Lemma next_attempt_Ok d key id now k :
  next_attempt d key id (board_registers d id) now = Ok k ->
  k = 0 /\ (forall n, auth_at d id n VaultBoardPhaseRegister = None) \/
  latest_attempt d id (k - 1) /\ closed_at d id (k - 1) now.
Proof.
  unfold next_attempt. destruct (last _) as [r|] eqn:E; intros Hk.
  - apply bind_Ok in Hk as (u & _ & Hk). apply bind_Ok in Hk as (u1 & Hr & Hk). apply Ok_inj in Hk as <-. right.
    rewrite Z.add_simpl_r. split; [by apply last_register|by eapply can_rotate_Ok].
  - apply Ok_inj in Hk as <-. left. split; [done|by apply no_register].
Qed.

Lemma insert_authorization_rows a l l1 :
  insert_board_authorization a l = (l1, Ok tt) ->
  board_rows (l_db l1) = (b_auths (l_db l) ++ [a], b_dispatches (l_db l), b_submissions (l_db l), b_conflicts (l_db l)) /\
  l_now l1 = l_now l.
Proof. unfold insert_board_authorization. intros Hi. by inv_M. Qed.

Lemma seal_authorization_fields a key a' :
  SealVaultBoardAuthorization a key = Ok a' -> exists mac, a' = vba_set (vba_CreatedAt a) mac a.
Proof. unfold SealVaultBoardAuthorization. intros Hs. apply bind_Ok in Hs as (mac & _ & Hs). apply Ok_inj in Hs. eauto. Qed.

Lemma begin_attempt_steps id op req chain l l1 a :
  begin_attempt_body id op req chain l = (l1, Ok a) -> rtc (board_step (l_now l)) (l_db l) (l_db l1).
Proof.
  unfold begin_attempt_body. intros Hb. read_step Hb key Hk. read_step Hb now Hn. apply Ok_inj in Hn as <-.
  apply bind_Ok_M in Hb as (st & l2 & Hst & Hb). apply stored_operation_rows in Hst as [Hrows Hnow]. read_step Hb u Hw.
  apply bind_Ok_M in Hb as (u1 & l3 & Hc & Hb). apply (reads_db _ _ _ _ (reads_conflict_checks _ _ _)) in Hc.
  read_step Hb rs Hrs. apply load_registers_Ok in Hrs as ->.
  apply rtc_l with (l_db l2); [by apply step_none|]. rewrite <-Hc.
  destruct (prior_register _ _) as [[prior latest]|]; [inv_M; apply rtc_refl|].
  read_step Hb k Hk'. read_step Hb auth Ha. apply seal_authorization_fields in Ha as [mac ->].
  apply bind_Ok_M in Hb as ([] & l4 & Hi & Hb). apply insert_authorization_rows in Hi as [Hi _].
  apply bind_Ok_M in Hb as ([] & l5 & Ho & Hb). apply wrap_M_Ok, observe_frame in Ho as (Ho & _). inv_M.
  apply rtc_once. rewrite Ho. eapply step_register; [| | |exact Hi]; [done|done|].
  by apply next_attempt_Ok in Hk'.
Qed.

Lemma record_dispatch_rows x key l l1 y :
  record_dispatch x key l = (l1, Ok y) ->
  vbd_OperationID y = vbd_OperationID x /\ vbd_Attempt y = vbd_Attempt x /\ vbd_Phase y = vbd_Phase x /\
  vbd_RequestDigest y = vbd_RequestDigest x /\
  board_rows (l_db l1) = (b_auths (l_db l), b_dispatches (l_db l) ++ [y], b_submissions (l_db l), b_conflicts (l_db l)).
Proof.
  unfold record_dispatch. intros Hr. read_step Hr u Hf. read_step Hr now Hn. read_step Hr z Hz.
  unfold SealVaultBoardDispatch in Hz. apply bind_Ok in Hz as (mac & _ & Hz). apply Ok_inj in Hz as <-.
  apply bind_Ok_M in Hr as ([] & l2 & Hi & Hr). unfold insert_board_dispatch in Hi.
  apply bind_Ok_M in Hr as ([] & l3 & Ho & Hr). apply wrap_M_Ok, observe_frame in Ho as (Ho & _). inv_M. subst y.
  by rewrite Ho.
Qed.

Lemma phase_order_Ok d key auth u :
  validateVaultBoardPhaseOrder d key auth = Ok u ->
  (vba_Phase auth = VaultBoardPhaseDelete /\ auth_at d (vba_OperationID auth) (vba_Attempt auth) VaultBoardPhaseFinalize = None \/
   vba_Phase auth = VaultBoardPhaseFinalize /\ auth_at d (vba_OperationID auth) (vba_Attempt auth) VaultBoardPhaseDelete = None) /\
  exists s, submission_at d (vba_OperationID auth) (vba_Attempt auth) VaultBoardPhaseRegister = Some s /\
    vbs_Outcome s = VaultBoardAuthSubmitted.
Proof.
  unfold validateVaultBoardPhaseOrder. cbv zeta. intros Hv. apply bind_Ok in Hv as (u1 & _ & Hv).
  apply bind_Ok in Hv as (u2 & _ & Hv). destruct (_ || _) eqn:Ep; [|done].
  apply bind_Ok in Hv as (r & _ & Hv). apply bind_Ok in Hv as (s & Hs & Hv). apply or_err_Ok, need_row_Ok, load_submission_Ok in Hs.
  apply bind_Ok in Hv as (u3 & _ & Hv). apply bind_Ok in Hv as (u4 & Ho & Hv). apply fail_if_Ok in Ho. bool_hyps.
  apply forbid_row_Ok, verified_option_Ok, load_auth_Ok in Hv. split; [|eauto].
  destruct (bool_decide_reflect (vba_Phase auth = VaultBoardPhaseFinalize)) as [->|]; [by right|]. left.
  rewrite orb_false_r in Ep. by bool_hyps.
Qed.

Lemma stored_authorization_steps now auth key l l1 a :
  latest_attempt (l_db l) (vba_OperationID auth) (vba_Attempt auth) ->
  stored_authorization auth key l = (l1, Ok a) ->
  board_step now (l_db l) (l_db l1) /\
  latest_attempt (l_db l1) (vba_OperationID auth) (vba_Attempt auth) /\
  vba_OperationID a = vba_OperationID auth /\ vba_Attempt a = vba_Attempt auth /\ vba_Phase a = vba_Phase auth /\
  auth_at (l_db l1) (vba_OperationID auth) (vba_Attempt auth) (vba_Phase auth) = Some a.
Proof.
  intros Hl Hs. unfold stored_authorization in Hs. read_step Hs st Hst. apply load_auth_Ok in Hst. destruct st as [st|].
  - inv_M. subst a. bool_hyps. unfold sameVaultBoardAuthorizationRequest in *. bool_hyps.
    split_and!; [by apply step_none|done|congruence..].
  - read_step Hs u Hv. apply phase_order_Ok in Hv as (Hp & s & Hsub & Hout). read_step Hs t Ht. read_step Hs b Hb.
    apply seal_authorization_fields in Hb as [mac ->]. apply bind_Ok_M in Hs as ([] & l2 & Hi & Hs). inv_M. subst a.
    apply insert_authorization_rows in Hi as [Hi _]. cbn. pose proof Hi as Hrows. split_rows Hi. destruct phases_differ as (? & ? & ?).
    split_and!; [by refine (step_authorize _ _ _ _ s _ _ _ _ Hrows)| |done..|].
    + assert (forall m, auth_at (l_db l2) (vba_OperationID auth) m VaultBoardPhaseRegister
        = auth_at (l_db l) (vba_OperationID auth) m VaultBoardPhaseRegister) as Hsame.
      { intros m. rewrite (auth_at_snoc _ _ _ _ _ _ HA), other_phase by (cbn; destruct Hp as [[-> _]|[-> _]]; congruence).
        by destruct (auth_at _ _ m _). }
      split; [rewrite Hsame; apply Hl|]. intros m. rewrite Hsame. apply Hl.
    + rewrite (auth_at_snoc _ _ _ _ _ _ HA), Hst.
      match goal with |- (if ?b then _ else _) = _ => assert (b = true) as -> by by apply in_phase_auth_true end. done.
Qed.

Lemma authorize_dispatch_steps now auth chain l l1 r :
  authorize_dispatch_body auth chain l = (l1, Ok r) -> rtc (board_step now) (l_db l) (l_db l1).
Proof.
  unfold authorize_dispatch_body. intros Hb. read_step Hb key Hk. cbv zeta in Hb.
  apply bind_Ok_M in Hb as (op & l2 & Hop & Hb). apply (reads_db _ _ _ _ (reads_open_operation _ _ _)) in Hop.
  read_step Hb u Hcur. apply require_current_Ok in Hcur.
  apply bind_Ok_M in Hb as (a & l3 & Ha & Hb).
  apply (stored_authorization_steps now) in Ha as (Hstep & Hl & Hid & Hn & Hp & Hat); [|done].
  rewrite <-Hop. apply rtc_l with (l_db l3); [done|]. read_step Hb old Hold. destruct old as [x|].
  - inv_M. apply rtc_refl.
  - apply bind_Ok_M in Hb as (y & l4 & Hy & Hb). apply record_dispatch_rows in Hy as (Y1 & Y2 & Y3 & Y4 & Hrows). inv_M.
    cbn in Y1, Y2, Y3, Y4. apply rtc_once.
    refine (step_dispatch _ _ _ y a _ _ _ Hrows); rewrite ?Y1, ?Y2, ?Y3, ?Hn, ?Hp; done.
Qed.

Lemma dispatch_steps now rec chain l l1 r :
  dispatch_body rec chain l = (l1, Ok r) -> rtc (board_step now) (l_db l) (l_db l1).
Proof.
  unfold dispatch_body. intros Hb. read_step Hb key Hk. cbv zeta in Hb.
  apply bind_Ok_M in Hb as (op & l2 & Hop & Hb). apply (reads_db _ _ _ _ (reads_open_operation _ _ _)) in Hop.
  rewrite <-Hop. read_step Hb old Hold. destruct old as [x|]; [inv_M; apply rtc_refl|].
  read_step Hb a Ha. apply need_row_Ok, load_auth_Ok in Ha. read_step Hb u Hv. read_step Hb u1 Hd. bool_hyps.
  read_step Hb u2 Hcur. apply require_current_Ok in Hcur.
  apply bind_Ok_M in Hb as (y & l4 & Hy & Hb). apply record_dispatch_rows in Hy as (Y1 & Y2 & Y3 & Y4 & Hrows). inv_M.
  apply rtc_once. refine (step_dispatch _ _ _ y a _ _ _ Hrows); rewrite ?Y1, ?Y2, ?Y3, ?Y4; done.
Qed.

Lemma submission_steps now rec l l1 r :
  submission_body rec l = (l1, Ok r) -> rtc (board_step now) (l_db l) (l_db l1).
Proof.
  unfold submission_body. intros Hb. read_step Hb key Hk.
  apply bind_Ok_M in Hb as ([] & l2 & Ho & Hb). apply observe_frame in Ho as (Ho & _). cbv zeta in Hb. rewrite <-Ho.
  read_step Hb cur Hcur. destruct cur as [cur|]; [inv_M; apply rtc_refl|].
  read_step Hb a Ha. read_step Hb u Hv. read_step Hb u1 Hd. read_step Hb u2 Hni. read_step Hb x Hx.
  apply or_err_Ok, need_row_Ok, load_dispatch_Ok in Hx. read_step Hb u3 Hvx. read_step Hb u4 Hxd. bool_hyps.
  read_step Hb t Ht. read_step Hb z Hz.
  unfold SealVaultBoardSubmission in Hz. apply bind_Ok in Hz as (mac & _ & Hz). apply Ok_inj in Hz as <-.
  apply bind_Ok_M in Hb as ([] & l3 & Hi & Hb). unfold insert_board_submission in Hi.
  apply bind_Ok_M in Hb as ([] & l4 & Ho2 & Hb). apply wrap_M_Ok, observe_frame in Ho2 as (Ho2 & _). inv_M.
  apply rtc_once. rewrite Ho2.
  refine (step_answer _ _ _ (vbs_set _ mac (vbs_set (format_rfc3339nano t) (vbs_IntegrityMAC rec) rec)) x Hx _ _ _);
    [done| |reflexivity].
  cbn. intros Hp. unfold require_not_invalidated in Hni. rewrite bool_decide_eq_true_2 in Hni by done.
  apply bind_Ok in Hni as (cs & Hcs & Hni). apply fail_if_Ok in Hni.
  destruct (conflict_at _ _ _) eqn:Ecf; [|done]. exfalso.
  assert (conflict_at (l_db l2) (vbs_OperationID rec) (vbs_Attempt rec) <> None) as Hne by congruence.
  apply (load_conflicts_Ok _ _ _ _ _ Hcs) in Hne. congruence.
Qed.

Lemma conflict_steps now rec chain l l1 r :
  conflict_body rec chain l = (l1, Ok r) -> rtc (board_step now) (l_db l) (l_db l1).
Proof.
  unfold conflict_body. intros Hb. read_step Hb key Hk.
  apply bind_Ok_M in Hb as (op & l2 & Hop & Hb). apply (reads_db _ _ _ _ (reads_open_operation _ _ _)) in Hop.
  rewrite <-Hop. read_step Hb u Hreq. read_step Hb u1 Hg. read_step Hb t Ht. cbv zeta in Hb. read_step Hb mac Hmac.
  read_step Hb original Hor. read_step Hb u2 Hsp. apply bind_Ok_M in Hb as ([] & l3 & Hi & Hb).
  unfold insert_board_conflict in Hi. destruct r. apply observe_frame in Hb as (Ho & _). inv_M.
  unfold require_conflict_final in Hreq. cbv zeta in Hreq. apply bind_Ok in Hreq as (a & Ha & Hreq).
  apply need_row_Ok, load_auth_Ok in Ha. apply bind_Ok in Hreq as (u3 & _ & Hreq). apply bind_Ok in Hreq as (u4 & _ & Hreq).
  apply bind_Ok in Hreq as (u5 & Hcur & Hreq). apply require_current_Ok in Hcur. apply forbid_row_Ok, load_submission_Ok in Hreq.
  apply rtc_once. rewrite Ho. eapply step_conflict; [| | |reflexivity]; cbn; [congruence|done|done].
Qed.
End BoardRefinement.

(** ** Claims *)
(** One call of the boarding methods that write. *)
Inductive board_call :=
  | CallBegin (operation : VaultBoardOperation) (request : VaultBoardRegisterRequest) (chain : VaultBoardChainState)
  | CallAuthorize (auth : VaultBoardAuthorization) (chain : VaultBoardChainState)
  | CallDispatch (rec : VaultBoardDispatch) (chain : VaultBoardChainState)
  | CallSubmission (rec : VaultBoardSubmission)
  | CallConflict (rec : VaultBoardConflict) (chain : VaultBoardChainState).

Definition run_board_call `{Wire} (c : board_call) (l : Ledger) : Ledger :=
  match c with
  | CallBegin op req chain => fst (BeginVaultBoardAttempt op req chain l)
  | CallAuthorize auth chain => fst (AppendVaultBoardAuthorizationAndDispatch auth chain l)
  | CallDispatch rec chain => fst (AppendVaultBoardDispatch rec chain l)
  | CallSubmission rec => fst (AppendVaultBoardSubmission rec l)
  | CallConflict rec chain => fst (AppendVaultBoardConflict rec chain l)
  end.

(** The read-only checks before the transaction. *)
Lemma check_then {A B} (R : relation Db) `{!Reflexive R} (m : M A) (f : A -> M B) l :
  fst (m l) = l -> (forall a, R (l_db l) (l_db (fst (f a l)))) -> R (l_db l) (l_db (fst ((m ≫= f) l))).
Proof. intros Hm Hf. unfold mbind, M_bind. destruct (m l) as [l1 [a|e]]; cbn in *; by subst l1. Qed.

Lemma transaction_fst {A} (R : relation Db) `{!Reflexive R} (body : M A) l :
  (forall l1 a, body l = (l1, Ok a) -> R (l_db l) (l_db l1)) -> R (l_db l) (l_db (fst (transaction body l))).
Proof.
  intros Hb. destruct (transaction body l) as [l' r] eqn:E. cbn [fst]. by eapply (transaction_rel R).
Qed.

Lemma board_call_steps `{Wire} c l : rtc (board_step (l_now l)) (l_db l) (l_db (run_board_call c l)).
Proof.
  destruct c; cbn [run_board_call].
  - unfold BeginVaultBoardAttempt. repeat (apply (check_then (rtc (board_step (l_now l)))); [done|intros ?]).
    apply (transaction_fst (rtc _)). intros l1 r Hr. by eapply begin_attempt_steps.
  - unfold AppendVaultBoardAuthorizationAndDispatch.
    repeat (apply (check_then (rtc (board_step (l_now l)))); [done|intros ?]).
    apply (transaction_fst (rtc _)). intros l1 r Hr. by eapply authorize_dispatch_steps.
  - apply (transaction_fst (rtc _)). intros l1 r Hr. by eapply dispatch_steps.
  - apply (transaction_fst (rtc _)). intros l1 r Hr. by eapply submission_steps.
  - apply (transaction_fst (rtc _)). intros l1 r Hr. by eapply conflict_steps.
Qed.

(** the boarding methods refine the abstract journal.  Every call, however
    it ends, appends rows only as the journal's steps allow, and it preserves the
    authority invariant: delete and finalize exclude each other, dispatches and
    answers match an authorized request, attempts are numbered without gaps over
    closed attempts, and a conflicted final authorization has no answer. *)
Theorem board_journal_refines `{Wire} c l :
  rtc (board_step (l_now l)) (l_db l) (l_db (run_board_call c l)) /\
  (board_authority (l_db l) -> board_authority (l_db (run_board_call c l))).
Proof.
  pose proof (board_call_steps c l) as Hs. split; [done|]. intros Hi. by eapply board_authority_steps.
Qed.

(** A run of boarding calls; between calls the clock, the faults of the file
    system and the outcome of COMMIT change. *)
Inductive board_run `{Wire} (l0 : Ledger) : Ledger -> Prop :=
  | board_start : board_run l0 l0
  | board_next c now faults ok l :
      board_run l0 l -> board_run l0 (run_board_call c (set_env now faults ok l)).

Lemma board_authority_empty d : board_rows d = ([], [], [], []) -> board_authority d.
Proof.
  intros Hr. split_rows Hr. unfold b_auths, b_dispatches, b_submissions, b_conflicts in *.
  split; unfold auth_at, dispatch_at, submission_at, conflict_at; rewrite ?HA, ?HD, ?HS, ?HC; done.
Qed.

Lemma board_run_authority `{Wire} l0 l :
  board_rows (l_db l0) = ([], [], [], []) -> board_run l0 l -> board_authority (l_db l).
Proof.
  intros H0. induction 1 as [|c now faults ok l Hrun IH]; [by apply board_authority_empty|].
  eapply board_authority_steps; [|apply board_call_steps]. exact IH.
Qed.

(** Below an attempt every attempt is registered and closed. *)
Lemma attempts_below d id n m :
  board_authority d -> auth_at d id m VaultBoardPhaseRegister <> None -> 0 <= n < m -> exists t, closed_at d id n t.
Proof.
  intros Hi Hm [Hn Hlt]. assert (exists k : nat, m = n + 1 + Z.of_nat k) as [k ->] by (exists (Z.to_nat (m - n - 1)); lia).
  clear Hlt. induction k as [|k IH].
  - destruct (auth_at d id _ VaultBoardPhaseRegister) as [a|] eqn:E; [|done].
    destruct (ba_sequence _ Hi _ _ _ E) as (_ & _ & t & _ & Hc); [lia|]. exists t.
    by replace (n + 1 + Z.of_nat 0 - 1) with n in Hc by lia.
  - destruct (auth_at d id _ VaultBoardPhaseRegister) as [a|] eqn:E; [|done].
    destruct (ba_sequence _ Hi _ _ _ E) as (Hp & _); [lia|].
    replace (n + 1 + Z.of_nat (S k) - 1) with (n + 1 + Z.of_nat k) in Hp by lia. auto.
Qed.

(** A submitted final authorization is the end of the operation. *)
Lemma final_answer_last d id n s :
  board_authority d -> submission_at d id n VaultBoardPhaseFinalize = Some s -> latest_attempt d id n.
Proof.
  intros Hi Hs. destruct (ba_answered _ Hi _ _ _ _ Hs) as (x & Hx & _). destruct (ba_dispatched _ Hi _ _ _ _ Hx) as (a & Ha & _).
  destruct (ba_accepted _ Hi _ _ _ _ Ha) as (r & Hr & _); [done|].
  destruct (ba_answered _ Hi _ _ _ _ Hr) as (y & Hy & _). destruct (ba_dispatched _ Hi _ _ _ _ Hy) as (b & Hb & _).
  assert (0 <= n) as Hn.
  { destruct (decide (n = 0)) as [->|Hz]; [done|]. destruct (ba_sequence _ Hi _ _ _ Hb Hz) as (_ & ? & _). lia. }
  split; [congruence|]. intros m Hm. destruct (decide (m <= n)) as [|Hlt]; [done|].
  destruct (attempts_below d id n m Hi Hm) as (t & [Hc|[Hf _]]); [lia| |congruence].
  destruct (conflict_at d id n) as [c|] eqn:E; [|done]. destruct (ba_conflict _ Hi _ _ _ E). congruence.
Qed.

(** C24: a boarding deposit is finalized at most once.  Over every run of
    boarding calls from empty tables, with any failures, an operation has at most
    one answered final authorization, on its latest attempt; that attempt was never
    deleted and never invalidated by a conflict. *)
Theorem board_finalized_once `{Wire} l0 l id n s :
  board_rows (l_db l0) = ([], [], [], []) -> board_run l0 l ->
  submission_at (l_db l) id n VaultBoardPhaseFinalize = Some s ->
  latest_attempt (l_db l) id n /\ auth_at (l_db l) id n VaultBoardPhaseDelete = None /\ conflict_at (l_db l) id n = None /\
  (forall m s', submission_at (l_db l) id m VaultBoardPhaseFinalize = Some s' -> m = n /\ s' = s).
Proof.
  intros H0 Hrun Hs. pose proof (board_run_authority l0 l H0 Hrun) as Hi.
  pose proof (final_answer_last _ _ _ _ Hi Hs) as Hl. split_and!; [done| | |].
  - destruct (auth_at (l_db l) id n VaultBoardPhaseDelete) eqn:E; [|done]. exfalso.
    destruct (ba_answered _ Hi _ _ _ _ Hs) as (x & Hx & _). destruct (ba_dispatched _ Hi _ _ _ _ Hx) as (a & Ha & _).
    rewrite (ba_exclusive _ Hi) in Ha by congruence. done.
  - destruct (conflict_at (l_db l) id n) as [c|] eqn:E; [|done]. destruct (ba_conflict _ Hi _ _ _ E). congruence.
  - intros m s' Hm. pose proof (final_answer_last _ _ _ _ Hi Hm) as Hl'.
    assert (m = n) as -> by (apply Z.le_antisymm; [apply Hl, Hl'|apply Hl', Hl]). split; [done|congruence].
Qed.

(** A deposit that is registered, accepted and finalized. *)
Definition no_wire : Wire := {| wire_Deserialize := fun _ => None |}.
Definition demo_board_db : Db :=
  set_board_enrollments
    [Build_VaultBoardEnrollment (str "vault-1") (str "vault-board-v1") (repeat Byte.x02 33) (repeat Byte.x02 33)
       (repeat Byte.x02 33) 604672 (str "seconds") (repeat Byte.x51 34) (str "tark1") (repeat Byte.x00 32)] demo_db.
Definition demo_board_ledger : Ledger := set_db demo_board_db demo_ledger.
Definition demo_deposit : VaultBoardOperation :=
  Build_VaultBoardOperation [] (str "vault-1") (repeat Byte.xa1 32) 0 50000 (repeat Byte.x51 34) (repeat Byte.x52 34)
    1767220000 [] [].
Definition demo_board_id : bytes :=
  match ComputeVaultBoardOperationID (str "vault-1") (repeat Byte.xa1 32) 0 with Ok id => id | Err _ => [] end.
Definition demo_chain : VaultBoardChainState := Build_VaultBoardChainState 1767225000 [].
Definition demo_digest (b : byte) : bytes := repeat b 32.
Definition demo_txid : bytes := hex_encode (repeat Byte.xc3 32).
Definition demo_board_calls : list board_call :=
  [CallBegin demo_deposit (Build_VaultBoardRegisterRequest (demo_digest Byte.x01) (repeat Byte.x03 33) 49000 1000 1767230000)
     demo_chain;
   CallDispatch (Build_VaultBoardDispatch demo_board_id 0 VaultBoardPhaseRegister (demo_digest Byte.x01) [] []) demo_chain;
   CallSubmission (Build_VaultBoardSubmission demo_board_id 0 VaultBoardPhaseRegister (demo_digest Byte.x01)
     VaultBoardAuthSubmitted (str "intent") [] [] 0 [] []);
   CallAuthorize (Build_VaultBoardAuthorization demo_board_id 0 VaultBoardPhaseFinalize (demo_digest Byte.x02) [] 0 0 0
     demo_txid demo_txid 1 [] []) demo_chain;
   CallSubmission (Build_VaultBoardSubmission demo_board_id 0 VaultBoardPhaseFinalize (demo_digest Byte.x02)
     VaultBoardAuthSubmitted [] demo_txid demo_txid 1 [] [])].
Definition run_demo (cs : list board_call) : Ledger :=
  fold_left (fun l c => @run_board_call no_wire c (set_env (l_now demo_ledger) [] true l)) cs demo_board_ledger.

Lemma run_demo_run cs : @board_run no_wire demo_board_ledger (run_demo cs).
Proof.
  unfold run_demo. induction cs as [|c cs IH] using rev_ind; [constructor|]. rewrite fold_left_app. by apply board_next.
Qed.

Lemma board_finalized_once_witness :
  exists s, submission_at (l_db (run_demo demo_board_calls)) demo_board_id 0 VaultBoardPhaseFinalize = Some s /\
    latest_attempt (l_db (run_demo demo_board_calls)) demo_board_id 0.
Proof.
  destruct (submission_at (l_db (run_demo demo_board_calls)) demo_board_id 0 VaultBoardPhaseFinalize) as [s|] eqn:E.
  - exists s. split; [reflexivity|].
    exact (proj1 (@board_finalized_once no_wire demo_board_ledger (run_demo demo_board_calls) demo_board_id 0 s
      eq_refl (run_demo_run _) E)).
  - exfalso. apply (f_equal (fun o => match o with Some _ => true | None => false end)) in E. vm_compute in E. discriminate E.
Defined.
