(* ===== verification/Enrollment.v ===== *)
(** Creating a vault: [internal/policy/vault_create.go].

    One transaction consumes the invitation and the pending enrollment and
    stores the vault, its passkey, its envelope and the optional boarding and
    Savings enrollments; the whole database is checked for dangling references
    after the COMMIT. *)
From Stdlib Require Import Strings.Byte.
From S2P Require Import Prelude Sha256 Text GoTime Program Vtxo Tenant Board Savings Store Journal.
From S2P Require Import TenantLedger SavingsLedger BoardLedger.

#[local] Arguments hmac_sha256 : simpl never.
#[local] Arguments format_rfc3339 : simpl never.

Record CreateVaultInput := {
  cvi_Record : VaultRecord; cvi_Credential : VaultCredential; cvi_Envelope : option CredentialEnvelope;
  cvi_TokenHash : bytes; cvi_Pending : option PendingEnrollment; cvi_LedgerSavings : option LedgerSavingsEnrollment;
}.

Definition validateCreateVaultInput (i : CreateVaultInput) : result unit :=
  let rec := cvi_Record i in
  _ ← fail_if (vr_VaultID rec == []) (ErrMsg "create vault requires a new opaque vault id");
  _ ← fail_if (vr_CosignerMode rec != CosignerModeHKDFSHA256V1) (ErrMsg "new vaults must use %s");
  _ ← wrap_err "new vault protection tier"
        (ValidateProtectionTierRecovery (vr_ProtectionTier rec) (0 <? blen (vr_RecoveryKey rec)));
  _ ← fail_if (vc_VaultID (cvi_Credential i) != vr_VaultID rec) (ErrMsg "credential vault id mismatch");
  _ ← fail_if (negb (blen (cvi_TokenHash i) =? sha256_Size)) (ErrMsg "invite token_hash must be 32 bytes");
  _ ← fail_if (negb (blen (vr_IntegrityMAC rec) =? sha256_Size)
               || negb (blen (vc_IntegrityMAC (cvi_Credential i)) =? sha256_Size))
        (ErrMsg "vault and credential integrity MACs required");
  match cvi_Pending i with
  | None => Ok tt
  | Some p =>
      _ ← fail_if ((pe_Handle p == []) || (pe_VaultID p != vr_VaultID rec))
            (ErrMsg "pending enrollment does not match vault");
      _ ← fail_if ((blen (pe_Challenge p) =? 0) || negb (blen (pe_TokenHash p) =? sha256_Size)
                   || negb (blen (pe_PolicyDigest p) =? sha256_Size))
            (ErrMsg "pending enrollment challenge required");
      _ ← fail_if (pe_ProtectionTier p != vr_ProtectionTier rec) (ErrMsg "pending enrollment protection tier mismatch");
      fail_if (pe_TokenHash p != cvi_TokenHash i) (ErrMsg "pending enrollment token mismatch")
  end.

(** ** [PRAGMA foreign_key_check] *)
(** Every child row has its parent row. *)
Definition refers {C P} (child : list C) (parent : list P) (same : C -> P -> bool) : bool :=
  forallb (fun c => existsb (same c) parent) child.

Definition to_vault {C} (key : C -> bytes) (d : Db) (child : list C) : bool :=
  refers child (t_vault (db_tenant d)) (fun c v => vr_VaultID v == key c).

Definition tenant_keys (d : Db) : bool :=
  let t := db_tenant d in
  to_vault vc_VaultID d (t_vault_credential t) && to_vault fst d (t_vault_envelope t)
  && to_vault sc_vault_id d (t_sign_count t) && to_vault vmr_vault_id d (t_vault_map t)
  && forallb (fun r => match ir_consumed_vault_id r with Some v => has_vault d v | None => true end) (t_invite t)
  && refers (t_pending t) (t_invite t) (fun p r => ir_token_hash r == pe_TokenHash p).

Definition journal_keys (d : Db) (t : JournalTables) : bool :=
  to_vault jo_vault_id d (t_jop t)
  && refers (t_jevent t) (t_jop t) (fun e o => jo_operation_id o == je_operation_id e).

Definition vtxo_keys (d : Db) : bool :=
  to_vault vo_VaultID d (t_operation (db_vtxo d))
  && refers (t_input (db_vtxo d)) (t_operation (db_vtxo d)) (fun x o => vo_OperationID o == vi_OperationID x).

Definition board_keys (d : Db) : bool :=
  let t := db_board d in
  to_vault vbe_VaultID d (t_board_enrollment t)
  && refers (t_board_operation t) (t_board_enrollment t) (fun o e => vbe_VaultID e == vbo_VaultID o)
  && refers (t_board_authorization t) (t_board_operation t) (fun a o => vbo_OperationID o == vba_OperationID a)
  && refers (t_board_dispatch t) (t_board_authorization t)
       (fun x => in_phase_auth (vbd_OperationID x) (vbd_Attempt x) (vbd_Phase x))
  && refers (t_board_submission t) (t_board_authorization t)
       (fun s => in_phase_auth (vbs_OperationID s) (vbs_Attempt s) (vbs_Phase s))
  && refers (t_board_submission t) (t_board_dispatch t)
       (fun s => in_phase_dispatch (vbs_OperationID s) (vbs_Attempt s) (vbs_Phase s))
  && refers (t_board_conflict t) (t_board_authorization t)
       (fun c => in_phase_auth (bcr_operation_id c) (bcr_attempt c) VaultBoardPhaseFinalize).

Definition savings_keys (d : Db) : bool :=
  let t := db_savings d in
  to_vault lse_VaultID d (t_savings_enrollment t) && to_vault bk_vault_id d (t_backup t)
  && refers (t_savings_event t) (t_savings_enrollment t) (fun e s => lse_VaultID s == se_vault_id e).

Definition foreign_keys_clean (d : Db) : bool :=
  tenant_keys d && vtxo_keys d && journal_keys d (db_renewal d) && journal_keys d (db_delegation d)
  && board_keys d && savings_keys d.

Definition requireForeignKeyCheckClean (l : Ledger) : result unit :=
  fail_if (negb (foreign_keys_clean (l_db l))) (ErrMsg "foreign key violation: table %s row %d parent %s").

(** ** The transaction *)
Definition savings_template : bytes := str "phone-ledger-guardian-savings-v1".

(** The invitation has to be there, unused and not expired. *)
Definition usable_invite (tokenHash : bytes) (l : Ledger) : result unit :=
  match find_invite (l_db l) tokenHash with
  | None => wrap_err "invite" (Err ErrNoRows)
  | Some r =>
      _ ← fail_if (match ir_consumed_vault_id r with Some _ => true | None => false end)
            (ErrMsg "invite already consumed");
      fail_if ((ir_expires_at r != []) && bytes_ltb (ir_expires_at r) (format_rfc3339 (l_now l)))
        (ErrMsg "invite expired")
  end.

Definition store_savings (i : CreateVaultInput) : M unit :=
  match cvi_LedgerSavings i with
  | Some s =>
      _ ← guard_M ((lse_VaultID s != vr_VaultID (cvi_Record i))
                   || (vr_TemplateVersion (cvi_Record i) != savings_template))
            (ErrMsg "Ledger Savings enrollment identity mismatch");
      putLedgerSavingsEnrollmentTx s
  | None =>
      guard_M (vr_TemplateVersion (cvi_Record i) == savings_template) (ErrMsg "Ledger Savings enrollment required")
  end.

(** [UPDATE invite SET consumed_vault_id = ? WHERE token_hash = ? AND
    consumed_vault_id IS NULL] must change one row; the column is unique. *)
Definition consume_invite (tokenHash vaultID : bytes) : M unit :=
  d ← query (fun l => Ok (l_db l));
  let selected r := (ir_token_hash r == tokenHash) && unconsumed r in
  let rows := t_invite (db_tenant d) in
  _ ← wrap_M "consume invite"
        (guard_M (existsb selected rows
                  && (existsb (fun r => bool_decide (ir_consumed_vault_id r = Some vaultID)) rows
                      || negb (has_vault d vaultID))) (ErrConstraint "invite"));
  _ ← modify_db (fun d => set_invites (map (fun r => if selected r
          then Build_InviteRow (ir_token_hash r) (ir_expires_at r) (Some vaultID) (ir_created_at r) else r)
        (t_invite (db_tenant d))) d);
  guard_M (negb (count_where selected rows =? 1)) (ErrMsg "invite consume cas failed").

Definition create_vault_body (i : CreateVaultInput) (board : option VaultBoardEnrollment) : M unit :=
  _ ← query (usable_invite (cvi_TokenHash i));
  now ← query (fun l => Ok (l_now l));
  _ ← consumePendingEnrollmentTx (cvi_Pending i) now;
  _ ← wrap_M "create vault" (insertVaultTx (cvi_Record i) (cvi_Credential i) (cvi_Envelope i));
  _ ← match board with
      | Some b => wrap_M "create vault board" (PutVaultBoardEnrollmentTx b)
      | None => mret tt
      end;
  _ ← store_savings i;
  consume_invite (cvi_TokenHash i) (vr_VaultID (cvi_Record i)).

Definition createVault (i : CreateVaultInput) (board : option VaultBoardEnrollment) : M unit :=
  _ ← lift (validateCreateVaultInput i);
  _ ← guard_M (match board with
               | Some b => (vbe_VaultID b != vr_VaultID (cvi_Record i)) || negb (blen (vbe_IntegrityMAC b) =? sha256_Size)
               | None => false
               end) (ErrMsg "vault-board-v1 enrollment mismatch");
  _ ← transaction (create_vault_body i board);
  query requireForeignKeyCheckClean.

Definition CreateVault (i : CreateVaultInput) : M unit := createVault i None.
Definition CreateVaultWithBoard (i : CreateVaultInput) (board : VaultBoardEnrollment) : M unit :=
  createVault i (Some board).

(** ** References are kept *)
Lemma refers_child {C P} (cs : list C) (ps : list P) same c :
  refers cs ps same = true -> existsb (same c) ps = true -> refers (cs ++ [c]) ps same = true.
Proof. intros H Hc. unfold refers in *. rewrite forallb_app, H. cbn. by rewrite Hc. Qed.

Lemma refers_parent {C P} (cs : list C) (ps : list P) same p :
  refers cs ps same = true -> refers cs (ps ++ [p]) same = true.
Proof.
  unfold refers. rewrite !List.forallb_forall. intros H c Hc. rewrite existsb_app. by rewrite H.
Qed.

Lemma refers_filter {C P} (f : C -> bool) (cs : list C) (ps : list P) same :
  refers cs ps same = true -> refers (List.filter f cs) ps same = true.
Proof. unfold refers. rewrite !List.forallb_forall. intros H c Hc. apply List.filter_In in Hc as [Hc _]. auto. Qed.

Lemma refers_map {C P} (cs : list C) (ps : list P) same (g : P -> P) :
  (forall c p, same c p = true -> same c (g p) = true) -> refers cs ps same = true -> refers cs (map g ps) same = true.
Proof.
  intros Hg. unfold refers. rewrite !List.forallb_forall. intros H c Hc. specialize (H c Hc).
  rewrite List.existsb_exists in *. destruct H as (p & Hp & Hs). exists (g p). split; [by apply List.in_map|auto].
Qed.

Lemma consumed_parent d v rows :
  forallb (fun r => match ir_consumed_vault_id r with Some v => has_vault d v | None => true end) rows = true ->
  forallb (fun r => match ir_consumed_vault_id r with
                    | Some v' => has_vault (set_vaults (t_vault (db_tenant d) ++ [v]) d) v' | None => true end) rows = true.
Proof.
  rewrite !List.forallb_forall. intros H r Hr. specialize (H r Hr). destruct (ir_consumed_vault_id r); [|done].
  unfold has_vault in *. cbn. by rewrite existsb_app, H.
Qed.

(** Referential integrity is kept along a computation. *)
Definition keeps_keys (d d' : Db) : Prop := foreign_keys_clean d = true -> foreign_keys_clean d' = true.
#[global] Instance keeps_keys_preorder : PreOrder keeps_keys.
Proof. split; unfold keeps_keys; [by intros d|]. auto. Qed.

#[local] Arguments refers : simpl never.
Ltac solve_keys :=
  unfold keeps_keys, foreign_keys_clean, tenant_keys, vtxo_keys, journal_keys, board_keys, savings_keys, to_vault;
  let H := fresh "Hkeys" in intros H; bool_hyps; cbn; rewrite !andb_true_split; split_and!;
  first [assumption | by apply refers_parent | by apply refers_filter | by apply consumed_parent
        | by apply refers_child | idtac].

Lemma insert_vault_keys v : moves keeps_keys (insert_vault v).
Proof. apply moves_guarded; [apply _|]. intros d _. solve_keys. Qed.

Lemma insert_credential_keys c : moves keeps_keys (insert_credential c).
Proof. apply moves_guarded; [apply _|]. intros d Hg. bool_hyps. solve_keys. Qed.

Lemma insert_envelope_keys v e : moves keeps_keys (insertVaultEnvelopeTx v e).
Proof. apply moves_guarded; [apply _|]. intros d Hg. bool_hyps. solve_keys. Qed.

Lemma insert_board_enrollment_keys n b : moves keeps_keys (insert_board_enrollment n b).
Proof.
  unfold insert_board_enrollment. intros l. unfold mbind, M_bind, query, lift, guard_M, fail_if, modify_db.
  destruct (PinsFor n) as [pins|e]; cbn [fst]; [|done].
  match goal with |- context [if ?c then Err _ else Ok tt] => destruct c eqn:Hg end; cbn [fst]; [done|].
  bool_hyps. cbn [set_db l_db]. solve_keys.
Qed.

Lemma insert_savings_keys s : moves keeps_keys (insert_savings_enrollment s).
Proof. apply moves_guarded; [apply _|]. intros d Hg. bool_hyps. solve_keys. Qed.

Lemma consume_pending_keys p now : moves keeps_keys (consumePendingEnrollmentTx p now).
Proof.
  destruct p as [p|]; cbn [consumePendingEnrollmentTx]; [|apply moves_ret; apply _].
  apply moves_bind; [apply _|apply moves_guard; apply _|]. intros _. cbv zeta.
  apply moves_bind; [apply _|apply moves_query; apply _|]. intros rows.
  apply moves_bind; [apply _| |intros _; apply moves_guard; apply _].
  intros l. cbn [modify_db fst set_db l_db]. generalize (l_db l). intros d. solve_keys.
Qed.

Lemma consume_invite_keys h v l l' :
  consume_invite h v l = (l', Ok tt) -> keeps_keys (l_db l) (l_db l').
Proof.
  unfold consume_invite. intros Hc. read_step Hc d Hd. apply Ok_inj in Hd as <-. cbv zeta in Hc.
  apply bind_Ok_M in Hc as ([] & l1 & Hg & Hc). apply wrap_M_Ok, guard_M_Ok in Hg as [-> Hg]. inv_M. bool_hyps.
  assert (existsb (fun r => (ir_token_hash r == h) && unconsumed r) (t_invite (db_tenant (l_db l))) = true) as Hex.
  { unfold count_where in *. apply List.existsb_exists.
    destruct (List.filter _ _) as [|r rows] eqn:E; [done|].
    assert (List.In r (r :: rows)) as Hin by by left. rewrite <-E in Hin. apply List.filter_In in Hin. by exists r. }
  rewrite Hex in Hg. cbn [andb] in Hg. bool_hyps. cbn [set_db l_db]. generalize dependent (l_db l). intros d. intros.
  solve_keys.
  - rewrite List.forallb_forall in *. intros r Hr. apply List.in_map_iff in Hr as (r0 & <- & Hin).
    destruct (_ && unconsumed r0); [done|by auto].
  - apply refers_map; [|done]. intros c p Hp. by destruct (_ && unconsumed p).
Qed.

Lemma insert_vault_tx_keys v c e : moves keeps_keys (insertVaultTx v c e).
Proof.
  unfold insertVaultTx. apply moves_bind; [apply _|apply insert_vault_keys|]. intros _.
  apply moves_bind; [apply _|apply insert_credential_keys|]. intros _.
  destruct e; [apply insert_envelope_keys|apply moves_ret; apply _].
Qed.

Lemma store_savings_keys i : moves keeps_keys (store_savings i).
Proof.
  unfold store_savings. destruct (cvi_LedgerSavings i) as [s|]; [|apply moves_guard; apply _].
  apply moves_bind; [apply _|apply moves_guard; apply _|]. intros _. unfold putLedgerSavingsEnrollmentTx.
  apply moves_bind; [apply _|apply moves_lift; apply _|]. intros _.
  apply moves_bind; [apply _|apply moves_guard; apply _|]. intros _. apply insert_savings_keys.
Qed.

Lemma store_board_keys (board : option VaultBoardEnrollment) :
  moves keeps_keys (match board with
                    | Some b => wrap_M "create vault board" (PutVaultBoardEnrollmentTx b)
                    | None => mret tt
                    end).
Proof.
  destruct board; [|apply moves_ret; apply _]. apply moves_wrap. unfold PutVaultBoardEnrollmentTx.
  apply moves_bind; [apply _|apply moves_query; apply _|]. intros n. apply insert_board_enrollment_keys.
Qed.

(** ** What the transaction stores *)
Definition consume_row (h v : bytes) (r : InviteRow) : InviteRow :=
  if (ir_token_hash r == h) && unconsumed r
  then Build_InviteRow (ir_token_hash r) (ir_expires_at r) (Some v) (ir_created_at r) else r.

Definition same_tenant (d d' : Db) : Prop := db_tenant d' = db_tenant d.
#[local] Instance same_tenant_preorder : PreOrder same_tenant.
Proof. split; unfold same_tenant; [by intros d|]. intros a b c. congruence. Qed.

Lemma store_savings_tenant i : moves same_tenant (store_savings i).
Proof.
  unfold store_savings, putLedgerSavingsEnrollmentTx, insert_savings_enrollment.
  destruct (cvi_LedgerSavings i) as [s|]; [|apply moves_guard; apply _].
  repeat (apply moves_bind; [apply _|first [apply moves_guard | apply moves_lift | apply moves_query]; apply _|intros ?]).
  by intros l.
Qed.

Lemma store_board_tenant (board : option VaultBoardEnrollment) :
  moves same_tenant (match board with
                     | Some b => wrap_M "create vault board" (PutVaultBoardEnrollmentTx b)
                     | None => mret tt
                     end).
Proof.
  destruct board; [|apply moves_ret; apply _]. apply moves_wrap.
  unfold PutVaultBoardEnrollmentTx, insert_board_enrollment.
  repeat (apply moves_bind; [apply _|first [apply moves_guard | apply moves_lift | apply moves_query]; apply _|intros ?]).
  by intros l.
Qed.

Lemma moves_Ok {A} (R : relation Db) (m : M A) l l' a : moves R m -> m l = (l', Ok a) -> R (l_db l) (l_db l').
Proof. intros Hm H. specialize (Hm l). by rewrite H in Hm. Qed.

Record vault_stored (i : CreateVaultInput) (d d' : Db) : Prop := {
  vs_new : has_vault d (vr_VaultID (cvi_Record i)) = false;
  vs_vault : t_vault (db_tenant d') = t_vault (db_tenant d) ++ [cvi_Record i];
  vs_credential : t_vault_credential (db_tenant d') = t_vault_credential (db_tenant d) ++ [cvi_Credential i];
  vs_envelope : t_vault_envelope (db_tenant d') = t_vault_envelope (db_tenant d)
    ++ match cvi_Envelope i with Some e => [(vr_VaultID (cvi_Record i), e)] | None => [] end;
  vs_invite : t_invite (db_tenant d')
    = map (consume_row (cvi_TokenHash i) (vr_VaultID (cvi_Record i))) (t_invite (db_tenant d));
  vs_pending : forall p, cvi_Pending i = Some p -> p ∉ t_pending (db_tenant d');
}.

Lemma consume_pending_Ok p now l l' :
  consumePendingEnrollmentTx p now l = (l', Ok tt) ->
  let t := db_tenant (l_db l) in let t' := db_tenant (l_db l') in
  t_vault t' = t_vault t /\ t_vault_credential t' = t_vault_credential t /\ t_vault_envelope t' = t_vault_envelope t /\
  t_invite t' = t_invite t /\ forall q, p = Some q -> q ∉ t_pending t'.
Proof.
  destruct p as [p|]; cbn [consumePendingEnrollmentTx]; intros Hc; [|by inv_M].
  read_step Hc u Hg. cbv zeta in Hc. read_step Hc rows Hr. write_step Hc l1 Hm. inv_M. cbn. split_and!; [done..|].
  intros q [= <-] Hin. apply list_elem_of_In, List.filter_In in Hin as [_ Hin].
  rewrite !bool_decide_eq_true_2 in Hin by done. done.
Qed.

Lemma insert_vault_tx_Ok v c e l l' :
  insertVaultTx v c e l = (l', Ok tt) ->
  let t := db_tenant (l_db l) in let t' := db_tenant (l_db l') in
  has_vault (l_db l) (vr_VaultID v) = false /\ t_vault t' = t_vault t ++ [v] /\
  t_vault_credential t' = t_vault_credential t ++ [c] /\
  t_vault_envelope t' = t_vault_envelope t ++ match e with Some e => [(vr_VaultID v, e)] | None => [] end /\
  t_invite t' = t_invite t /\ t_pending t' = t_pending t.
Proof.
  intros Hv. unfold insertVaultTx in Hv. write_step Hv l1 H1. write_step Hv l2 H2.
  unfold insert_vault in H1. unfold insert_credential in H2. read_step H1 d1 Hd1. apply Ok_inj in Hd1 as <-.
  read_step H1 u1 G1. apply modify_db_Ok in H1 as ->. read_step H2 d2 Hd2. read_step H2 u2 G2. apply modify_db_Ok in H2 as ->.
  unfold check_vault_row in G1. bool_hyps. cbv zeta. destruct e as [e|].
  - unfold insertVaultEnvelopeTx in Hv. inv_M. done.
  - inv_M. cbn. by rewrite app_nil_r.
Qed.

Lemma create_vault_body_Ok i board l l' :
  create_vault_body i board l = (l', Ok tt) ->
  usable_invite (cvi_TokenHash i) l = Ok tt /\ vault_stored i (l_db l) (l_db l') /\ keeps_keys (l_db l) (l_db l').
Proof.
  unfold create_vault_body. intros Hb. read_step Hb u Hu. destruct u. read_step Hb now Hn.
  write_step Hb l1 Hp. pose proof (moves_Ok _ _ _ _ _ (consume_pending_keys _ _) Hp) as K1.
  apply consume_pending_Ok in Hp. cbv zeta in Hp. destruct Hp as (P1 & P2 & P3 & P4 & P5).
  write_step Hb l2 Hv. apply wrap_M_Ok in Hv. pose proof (moves_Ok _ _ _ _ _ (insert_vault_tx_keys _ _ _) Hv) as K2.
  write_step Hb l3 Hbd. pose proof (moves_Ok _ _ _ _ _ (store_board_keys _) Hbd) as K3.
  apply (moves_Ok _ _ _ _ _ (store_board_tenant _)) in Hbd.
  write_step Hb l4 Hs. pose proof (moves_Ok _ _ _ _ _ (store_savings_keys _) Hs) as K4.
  apply (moves_Ok _ _ _ _ _ (store_savings_tenant _)) in Hs. unfold same_tenant in *.
  pose proof (consume_invite_keys _ _ _ _ Hb) as K5.
  split; [done|]. split; [|intros H0; by apply K5, K4, K3, K2, K1].
  apply insert_vault_tx_Ok in Hv as (V0 & V1 & V2 & V3 & V4 & V5).
  unfold consume_invite in Hb. read_step Hb d Hd. cbv zeta in Hb. apply bind_Ok_M in Hb as ([] & l5 & Hg & Hb).
  apply wrap_M_Ok, guard_M_Ok in Hg as [-> _]. write_step Hb l6 Hm. apply modify_db_Ok in Hm as ->. inv_M.
  rewrite <-Hbd, <-Hs in V1, V2, V3, V4, V5. split; cbn.
  - unfold has_vault in *. by rewrite <-P1.
  - by rewrite V1, P1.
  - by rewrite V2, P2.
  - by rewrite V3, P3.
  - by rewrite V4, P4.
  - intros p Hp. rewrite V5. by apply P5.
Qed.

(** ** Claims *)
Lemma no_vault_no_credential d v :
  foreign_keys_clean d = true -> has_vault d v = false ->
  List.filter (fun c => vc_VaultID c == v) (t_vault_credential (db_tenant d)) = [] /\
  forallb (fun r => negb (fst r == v)) (t_vault_envelope (db_tenant d)) = true.
Proof.
  unfold foreign_keys_clean, tenant_keys. intros H Hv. bool_hyps. unfold to_vault, refers in *.
  assert (forall (A : Type) (key : A -> bytes) rows x,
    forallb (fun c => existsb (fun r => vr_VaultID r == key c) (t_vault (db_tenant d))) rows = true ->
    List.In x rows -> key x <> v) as Hne.
  { intros A key rows x Hf Hin <-. rewrite List.forallb_forall in Hf. specialize (Hf x Hin).
    unfold has_vault in Hv. congruence. }
  split.
  - destruct (List.filter _ _) as [|c cs] eqn:E; [done|].
    assert (List.In c (c :: cs)) as Hin by by left. rewrite <-E in Hin. apply List.filter_In in Hin as [Hin Hc].
    apply bool_decide_eq_true in Hc. exfalso. by eapply (Hne _ vc_VaultID).
  - apply List.forallb_forall. intros x Hin. rewrite bool_decide_eq_false_2; [done|]. by eapply (Hne _ fst).
Qed.

Lemma find_consumed rows h v :
  List.find (fun r => ir_token_hash r == h) (map (consume_row h v) rows)
  = consume_row h v <$> List.find (fun r => ir_token_hash r == h) rows.
Proof.
  induction rows as [|r rows IH]; [done|]. cbn.
  assert (ir_token_hash (consume_row h v r) = ir_token_hash r) as -> by (unfold consume_row; by destruct (_ && _)).
  destruct (bool_decide_reflect (ir_token_hash r = h)); [done|exact IH].
Qed.

Lemma filter_snoc_other {A} (f : A -> bool) rows x : f x = false -> List.filter f (rows ++ [x]) = List.filter f rows.
Proof. intros H. rewrite List.filter_app. cbn. rewrite H. apply app_nil_r. Qed.

Lemma stored_vault_loads i d d' :
  foreign_keys_clean d = true -> vault_stored i d d' -> vc_VaultID (cvi_Credential i) = vr_VaultID (cvi_Record i) ->
  vr_VaultID (cvi_Record i) <> [] ->
  loadVault d' (vr_VaultID (cvi_Record i)) = Ok (Some (cvi_Record i, Some (cvi_Credential i))) /\
  envelope_of d' (vr_VaultID (cvi_Record i)) = cvi_Envelope i.
Proof.
  intros Hk Hs Hc Hne. destruct (no_vault_no_credential d _ Hk (vs_new _ _ _ Hs)) as [Hcred Henv].
  unfold loadVault, find_vault, enrolled_credential, envelope_of.
  rewrite (vs_vault _ _ _ Hs), (vs_credential _ _ _ Hs), (vs_envelope _ _ _ Hs), bool_decide_eq_false_2 by done.
  cbn [fail_if mbind result_bind]. split.
  - rewrite (find_snoc_new vr_VaultID); [|apply (existsb_find_none vr_VaultID), (vs_new _ _ _ Hs)|done].
    rewrite List.filter_app, Hcred. cbn. rewrite bool_decide_eq_true_2 by done. cbn. by destruct (vc_Resident _).
  - assert (List.find (fun r => fst r == vr_VaultID (cvi_Record i)) (t_vault_envelope (db_tenant d)) = None) as Hn.
    { apply find_none_intro. intros x Hx. rewrite List.forallb_forall in Henv. apply list_elem_of_In in Hx.
      specialize (Henv x Hx). by apply negb_true_iff in Henv. }
    destruct (cvi_Envelope i) as [e|]; [by rewrite (find_snoc_new fst)|]. by rewrite app_nil_r, Hn.
Qed.

Lemma stored_vault_frame i d d' v :
  vault_stored i d d' -> vc_VaultID (cvi_Credential i) = vr_VaultID (cvi_Record i) -> v <> vr_VaultID (cvi_Record i) ->
  loadVault d' v = loadVault d v /\ envelope_of d' v = envelope_of d v.
Proof.
  intros Hs Hc Hne. unfold loadVault, find_vault, enrolled_credential, envelope_of.
  rewrite (vs_vault _ _ _ Hs), (vs_credential _ _ _ Hs), (vs_envelope _ _ _ Hs). split.
  - rewrite (find_snoc_other vr_VaultID) by congruence. rewrite filter_snoc_other; [done|].
    apply bool_decide_eq_false_2. congruence.
  - destruct (cvi_Envelope i); [by rewrite (find_snoc_other fst)|by rewrite app_nil_r].
Qed.

Lemma stored_invite_spent i d d' l :
  vault_stored i d d' -> l_db l = d' -> forall u, usable_invite (cvi_TokenHash i) l <> Ok u.
Proof.
  intros Hs <- u H. unfold usable_invite, find_invite in H. rewrite (vs_invite _ _ _ Hs), find_consumed in H.
  destruct (List.find _ (t_invite _)) as [r|] eqn:E; cbn [fmap option_fmap option_map] in H; [|done].
  apply List.find_some in E as [_ E]. unfold consume_row in H. rewrite E in H. cbn [andb] in H.
  unfold unconsumed in H. destruct (ir_consumed_vault_id r) eqn:Er; cbn in H; [by rewrite Er in H|done].
Qed.

(** C25: creating a vault is atomic and happens once per invitation.  On a
    database with clean references, a successful call stores exactly the given
    vault, passkey and envelope under a new identifier, leaves every other vault
    as it was, removes the pending enrollment, spends the invitation so that no
    later creation with it can succeed, and leaves the references clean.  A failed
    call changes no table: the reference check after the COMMIT never reports. *)
Theorem create_vault_atomic i board l l' r :
  foreign_keys_clean (l_db l) = true -> createVault i board l = (l', r) ->
  match r with
  | Err _ => l_db l' = l_db l
  | Ok _ =>
      let v := vr_VaultID (cvi_Record i) in
      has_vault (l_db l) v = false /\
      LoadVault v l' = Ok (Some (cvi_Record i, Some (cvi_Credential i))) /\
      envelope_of (l_db l') v = cvi_Envelope i /\
      (forall v', v' <> v -> LoadVault v' l' = LoadVault v' l /\ envelope_of (l_db l') v' = envelope_of (l_db l) v') /\
      (forall p, cvi_Pending i = Some p -> p ∉ t_pending (db_tenant (l_db l'))) /\
      foreign_keys_clean (l_db l') = true /\
      (forall j b l'', cvi_TokenHash j = cvi_TokenHash i -> createVault j b l' <> (l'', Ok tt))
  end.
Proof.
  intros Hk H. unfold createVault in H.
  assert (forall j b l2 l'', createVault j b l2 = (l'', Ok tt) -> usable_invite (cvi_TokenHash j) l2 = Ok tt) as Huse.
  { intros j b l2 l'' Hj. unfold createVault in Hj. read_step Hj u1 H1. read_step Hj u2 H2. write_step Hj l3 H3.
    apply transaction_Ok in H3 as [H3 _]. by apply create_vault_body_Ok in H3 as [? _]. }
  apply bind_inv in H as [(u1 & l1 & Hv & H)|(e & Hv & ->)]; apply pair_equal_spec in Hv as [<- Hv]; [|done].
  apply bind_inv in H as [(u2 & l1 & Hg & H)|(e & Hg & ->)]; apply pair_equal_spec in Hg as [<- Hg]; [|done].
  apply bind_inv in H as [(u3 & l1 & Hb & H)|(e & Hb & ->)]; [|by apply transaction_Err in Hb].
  apply pair_equal_spec in H as [<- <-]. destruct u3. apply transaction_Ok in Hb as [Hb _].
  apply create_vault_body_Ok in Hb as (_ & Hs & Hkeys). specialize (Hkeys Hk).
  unfold requireForeignKeyCheckClean. rewrite Hkeys. cbn [negb fail_if]. cbv zeta.
  unfold validateCreateVaultInput in Hv. apply bind_Ok in Hv as (w1 & Hid & Hv). apply bind_Ok in Hv as (w2 & _ & Hv).
  apply bind_Ok in Hv as (w3 & _ & Hv). apply bind_Ok in Hv as (w4 & Hc & Hv). apply fail_if_Ok in Hid, Hc. bool_hyps.
  destruct (stored_vault_loads i _ _ Hk Hs) as [Hl He]; [done..|].
  split_and!; [apply Hs|exact Hl|exact He| |apply Hs|done|].
  - intros v' Hne. by apply (stored_vault_frame i).
  - intros j b l'' Ej Hj. apply Huse in Hj. rewrite Ej in Hj. by eapply stored_invite_spent in Hj.
Qed.

(** An invitation and a new Light vault. *)
Definition demo_invite_hash : bytes := repeat Byte.x09 32.
Definition demo_invited_ledger : Ledger :=
  set_db (set_invites [Build_InviteRow demo_invite_hash (format_rfc3339 (1767225960 * second)) None
                         (format_rfc3339 (1767225360 * second))]
            (set_tenant (Build_TenantTables [] [] [] [] [] [] []) demo_db)) demo_ledger.
Definition demo_new_vault : CreateVaultInput :=
  Build_CreateVaultInput demo_sealed_vault demo_credential (Some demo_vault_envelope) demo_invite_hash None None.

Lemma create_vault_atomic_witness :
  exists l', CreateVault demo_new_vault demo_invited_ledger = (l', Ok tt) /\
    LoadVault (vr_VaultID (cvi_Record demo_new_vault)) l' = Ok (Some (demo_sealed_vault, Some demo_credential)).
Proof.
  unfold CreateVault. destruct (createVault demo_new_vault None demo_invited_ledger) as [l' [[]|e]] eqn:E.
  - exists l'. split; [reflexivity|].
    exact (proj1 (proj2 (create_vault_atomic demo_new_vault None demo_invited_ledger l' (Ok tt) eq_refl E))).
  - exfalso. apply (f_equal (fun p => is_ok (snd p))) in E. vm_compute in E. discriminate E.
Defined.
