(* ===== verification/VtxoLedger.v ===== *)
(** The Spending ledger ([internal/policy/vtxo_ledger.go], with
    [invalidateArmedDelegations] of spending_delegation.go): reservation,
    transition and settlement of one-shot payments.  Each method is one
    transaction over the tables of [Store]. *)
From Stdlib Require Import Strings.Byte.
From S2P Require Import Prelude Sha256 Text GoTime Json Vtxo Monotonic Tenant Renewal Delegation Store Journal.

#[local] Arguments vo_encoding : simpl never.
#[local] Arguments hmac_sha256 : simpl never.

Definition maxReservedVtxoInputs : Z := MaxVtxoOperationInputs.

(** ** Rows and the constraints of the schema *)

Definition check_operation_row (r : VtxoOperation) : bool :=
  (vo_Purpose r == vtxoPurposeSpend) && (blen (vo_BundleDigest r) =? 32) && is_ok (requireVtxoState (vo_State r))
  && (0 <=? vo_AmountSats r) && (0 <=? vo_FeeSats r) && (blen (vo_FeePolicyDigest r) =? 32)
  && (0 <=? vo_ChangeSats r) && (blen (vo_IntegrityMAC r) =? 32)
  && (match vo_ChangeVout r with
      | None => (vo_ChangeSats r =? 0) && (blen (vo_ChangeScript r) =? 0)
      | Some v => (330 <=? vo_ChangeSats r) && (v =? 1) && negb (blen (vo_ChangeScript r) =? 0)
      end)
  && (if blen (vo_PendingProofDigest r) =? 0 then negb ((0 <? text_length (vo_AuthorizedPendingProof r)))
      else (blen (vo_PendingProofDigest r) =? 32) && (0 <? text_length (vo_AuthorizedPendingProof r))).

Definition has_operation (d : Db) (id : bytes) : bool :=
  existsb (fun r => vo_OperationID r == id) (t_operation (db_vtxo d)).

Definition set_operations (rows : list VtxoOperation) (d : Db) : Db :=
  set_vtxo (Build_VtxoTables rows (t_input (db_vtxo d))) d.
Definition set_inputs (rows : list VtxoOperationInput) (d : Db) : Db :=
  set_vtxo (Build_VtxoTables (t_operation (db_vtxo d)) rows) d.

(** [INSERT INTO vtxo_operation] *)
Definition insert_vtxo_operation (r : VtxoOperation) : M unit :=
  d ← query (fun l => Ok (l_db l));
  _ ← guard_M (has_operation d (vo_OperationID r) || negb (has_vault d (vo_VaultID r))
               || negb (check_operation_row r))
        (ErrConstraint "vtxo_operation");
  modify_db (fun d => set_operations (t_operation (db_vtxo d) ++ [r]) d).

Definition same_input_key (a b : VtxoOperationInput) : bool :=
  (vi_OperationID a == vi_OperationID b) && (vi_Txid a == vi_Txid b) && (vi_Vout a =? vi_Vout b).

(** [INSERT INTO vtxo_operation_input] *)
Definition insert_vtxo_input (i : VtxoOperationInput) : M unit :=
  d ← query (fun l => Ok (l_db l));
  _ ← guard_M (existsb (same_input_key i) (t_input (db_vtxo d)) || negb (has_operation d (vi_OperationID i))
               || negb (blen (vi_Txid i) =? 32) || (vi_Vout i <? 0) || (vi_ValueSats i <? 0)
               || negb (blen (vi_IntegrityMAC i) =? 32))
        (ErrConstraint "vtxo_operation_input");
  modify_db (fun d => set_inputs (t_input (db_vtxo d) ++ [i]) d).

(** [UPDATE vtxo_operation ... WHERE sel]: every selected row is rewritten,
    unless one of the new rows violates a constraint; the number of rows. *)
Definition update_operations (sel : VtxoOperation -> bool) (f : VtxoOperation -> VtxoOperation) : M Z :=
  rows ← query (fun l => Ok (t_operation (db_vtxo (l_db l))));
  _ ← guard_M (negb (forallb (fun r => check_operation_row (f r)) (List.filter sel rows)))
        (ErrConstraint "vtxo_operation");
  _ ← modify_db (set_operations (map (fun r => if sel r then f r else r) rows));
  mret (Z.of_nat (length (List.filter sel rows))).

(** ** Reads *)
Definition find_operation (d : Db) (id : bytes) : option VtxoOperation :=
  List.find (fun r => vo_OperationID r == id) (t_operation (db_vtxo d)).

Definition loadVtxoOperation (l : Ledger) (operationID : bytes) : result VtxoOperation :=
  key ← integrityKeyCopy l;
  match find_operation (l_db l) operationID with
  | None => Err ErrNoRows
  | Some row => verified key row
  end.

Definition GetVtxoOperation (operationID : bytes) (l : Ledger) : result VtxoOperation :=
  _ ← fail_if (operationID == []) (ErrMsg "vtxo operation id required");
  loadVtxoOperation l operationID.

(** [ORDER BY txid, vout]; ties by operation id. *)
Definition input_before (a b : VtxoOperationInput) : bool :=
  if vi_Txid a == vi_Txid b then
    (vi_Vout a <? vi_Vout b) || ((vi_Vout a =? vi_Vout b) && bytes_ltb (vi_OperationID a) (vi_OperationID b))
  else bytes_ltb (vi_Txid a) (vi_Txid b).

Definition verified_input (key : bytes) (i : VtxoOperationInput) : result VtxoOperationInput :=
  _ ← wrap_err "vtxo operation input integrity" (VerifyVtxoOperationInput i key);
  Ok i.

Definition loadVtxoOperationInputs (l : Ledger) (operationID : bytes) : result (list VtxoOperationInput) :=
  key ← integrityKeyCopy l;
  collect (verified_input key)
    (slice_stable input_before
       (List.filter (fun i => vi_OperationID i == operationID) (t_input (db_vtxo (l_db l))))).

Definition GetVtxoOperationInputs (operationID : bytes) (l : Ledger) : result (list VtxoOperationInput) :=
  _ ← fail_if (operationID == []) (ErrMsg "vtxo operation id required");
  loadVtxoOperationInputs l operationID.

Definition ListVtxoOperations (vaultID : bytes) (l : Ledger) : result (list VtxoOperation) :=
  _ ← fail_if (vaultID == []) (ErrMsg "vault id required");
  key ← integrityKeyCopy l;
  collect (verified key) (vault_operations (l_db l) vaultID).

(** ** Expired reservations *)
Definition expiry_candidate (vaultID : bytes) (now : Z) (r : VtxoOperation) : bool :=
  (vo_VaultID r == vaultID) && (vo_State r == vtxoStateReserved) && (vo_ExpiresAt r != [])
  && bytes_leb (vo_ExpiresAt r) (format_rfc3339 now).

(** One row of the scan: [Some rec] when it has expired. *)
Definition expired_row (key : bytes) (now : Z) (row : VtxoOperation) : result (option VtxoOperation) :=
  rec ← verified key row;
  if vo_ExpiresAt rec == [] then Ok None else
  match parse_rfc3339 (vo_ExpiresAt rec) with
  | None => Err (ErrMsg "vtxo reservation expiry")
  | Some exp => Ok (if negb (now <? exp) then Some rec else None)
  end.

Definition abort_row (key : bytes) (rec : VtxoOperation) : M unit :=
  sealed ← lift (SealVtxoOperation (vo_set_State vtxoStateAborted rec) key);
  _ ← update_operations
        (fun r => (vo_OperationID r == vo_OperationID sealed) && (vo_State r == vtxoStateReserved))
        (fun r => vo_set_MAC (vo_IntegrityMAC sealed) (vo_set_State (vo_State sealed) r));
  mret tt.

Definition abortExpiredVtxoLocked (vaultID : bytes) (now : Z) : M unit :=
  key ← query integrityKeyCopy;
  candidates ← query (fun l =>
    collect (expired_row key now)
      (List.filter (expiry_candidate vaultID now) (t_operation (db_vtxo (l_db l)))));
  each_M (abort_row key) (omap id candidates).

(** ** Overlapping inputs *)

(** The join of [vtxo_operation_input] with its operation, on the outpoints of
    the new reservation. *)
Definition outpoint_matches (inputs : list VtxoOperationInput) (i : VtxoOperationInput) : bool :=
  existsb (fun a => (vi_Txid i == vi_Txid a) && (vi_Vout i =? vi_Vout a)) inputs.

Definition overlap_rows (d : Db) (inputs : list VtxoOperationInput) : list (VtxoOperation * VtxoOperationInput) :=
  omap (fun i => (fun o => (o, i)) <$> find_operation d (vi_OperationID i))
    (slice_stable input_before (List.filter (outpoint_matches inputs) (t_input (db_vtxo d)))).

Definition authenticated_match (key : bytes) (row : VtxoOperation * VtxoOperationInput)
  : result (bytes * bytes) :=
  let '(o, i) := row in
  rec ← verified key o;
  _ ← wrap_err "vtxo operation input integrity" (VerifyVtxoOperationInput i key);
  _ ← fail_if (vi_OperationID i != vo_OperationID rec) (ErrMsg "vtxo operation input parent mismatch");
  Ok (vo_OperationID rec, vo_State rec).

Definition rejectOverlappingVtxoInputs (l : Ledger) (operationID : bytes) (inputs : list VtxoOperationInput)
  : result unit :=
  let n := Z.of_nat (length inputs) in
  _ ← fail_if ((n =? 0) || (maxReservedVtxoInputs <? n)) (ErrMsg "vtxo overlap input count must be 1..%d");
  key ← integrityKeyCopy l;
  matches ← collect (authenticated_match key) (overlap_rows (l_db l) inputs);
  each (fun m => if fst m == operationID then Ok tt
                 else fail_if (vtxoStateLocksInputs (snd m)) (ErrMsg "vtxo outpoint already reserved")) matches.

(** ** Armed delegations give way to a payment *)
Definition spends_input (inputs : list VtxoOperationInput) (s : SpendingDelegationSnapshot) : bool :=
  existsb (fun i => (hex_encode (vi_Txid i) == sd_InputTxid (ds_Operation s)) && (0 <=? vi_Vout i)
                    && (wrap32 (vi_Vout i) =? sd_InputVout (ds_Operation s))) inputs.

Definition payment_invalidation (now : Z) (s : SpendingDelegationSnapshot) : SpendingDelegationEvent :=
  {| de_OperationID := sd_OperationID (ds_Operation s); de_Phase := str "invalidated";
     de_Evidence := jtext "{'reason':'payment reservation'}"; de_CreatedAt := format_rfc3339 now |}.

Definition invalidate_one (key vault : bytes) (inputs : list VtxoOperationInput) (now : Z)
  (kv : bytes * SpendingDelegationSnapshot) : M unit :=
  let s := snd kv in
  if (sd_VaultID (ds_Operation s) != vault) || delegationTerminal s then mret tt else
  _ ← guard_M (negb (bool_decide (ds_Events s = ∅))) ErrVtxoOperationActive;
  if spends_input inputs s then insertDelegationEvent key (payment_invalidation now s) else mret tt.

Definition invalidateArmedDelegations (vault : bytes) (inputs : list VtxoOperationInput) : M unit :=
  key ← query integrityKeyCopy;
  all ← query (fun l => loadSpendingDelegations (l_db l) key);
  now ← query (fun l => Ok (NowUTC l));
  each_M (invalidate_one key vault inputs now) (map_to_list all).

(** ** Reservation *)
Definition reserve_input (operationID key : bytes) (i : VtxoOperationInput) : M unit :=
  sealed ← lift (SealVtxoOperationInput (vi_set_OperationID operationID i) key);
  insert_vtxo_input sealed.

(** The body of the transaction. *)
Definition reserve_body (rec : VtxoOperation) (inputs : list VtxoOperationInput) (remainingCap : Z) : M unit :=
  now ← query (fun l => Ok (l_now l));
  _ ← abortExpiredVtxoLocked (vo_VaultID rec) now;
  _ ← query (fun l => rejectOverlappingVtxoInputs l (vo_OperationID rec) inputs);
  _ ← query (fun l => rejectConcurrentVtxoOperationLocked l (vo_VaultID rec) (vo_OperationID rec));
  _ ← query (fun l => rejectActiveSpendingRenewal l (vo_VaultID rec));
  _ ← invalidateArmedDelegations (vo_VaultID rec) inputs;
  usedAmt ← query (fun l => spentInWindow l (vo_VaultID rec));
  need ← lift (addOutflow (vo_AmountSats rec) (vo_FeeSats rec));
  _ ← guard_M (remainingCap <? usedAmt) ErrPeriodAllowanceExceeded;
  _ ← guard_M (remainingCap - usedAmt <? need) ErrPeriodAllowanceExceeded;
  key ← query integrityKeyCopy;
  sealed ← lift (SealVtxoOperation rec key);
  _ ← insert_vtxo_operation sealed;
  _ ← each_M (reserve_input (vo_OperationID rec) key) inputs;
  wrap_M "policy sequence" observeEconomicOutflowsLocked.

Definition ReserveVtxoOperation (rec : VtxoOperation) (inputs : list VtxoOperationInput) (remainingCap : Z)
  : M unit :=
  _ ← guard_M ((vo_OperationID rec == []) || (vo_VaultID rec == [])) (ErrMsg "vtxo operation identity required");
  _ ← guard_M (vo_State rec != vtxoStateReserved) (ErrMsg "reserve requires reserved state");
  _ ← guard_M (remainingCap <? 0) (ErrMsg "negative allowance");
  _ ← guard_M ((Z.of_nat (length inputs) =? 0) || (maxReservedVtxoInputs <? Z.of_nat (length inputs)))
        (ErrMsg "vtxo reservation input count must be 1..%d");
  transaction (reserve_body rec inputs remainingCap).

(** ** Transitions *)
Definition validVtxoTransition (from to : bytes) : bool :=
  if from == vtxoStateReserved then (to == vtxoStateSigned) || (to == vtxoStateAborted)
  else if from == vtxoStateSigned then to == vtxoStateSubmitted
  else if from == vtxoStateSubmitted then (to == vtxoStateFinalized) || (to == vtxoStateUnresolved)
  else false.

(** Every column but the key is rewritten, and the key is the one selected, so
    the selected row becomes [rec]. *)
Definition updateVtxoOperation (expectedState : bytes) (rec : VtxoOperation) : M Z :=
  update_operations
    (fun r => (vo_OperationID r == vo_OperationID rec) && (vo_VaultID r == vo_VaultID rec)
              && (vo_State r == expectedState))
    (fun _ => rec).

Definition TransitionVtxoOperation (expectedState : bytes) (rec : VtxoOperation) : M (VtxoOperation * bool) :=
  _ ← guard_M ((vo_OperationID rec == []) || (vo_VaultID rec == [])) (ErrMsg "vtxo operation identity required");
  _ ← guard_M (negb (validVtxoTransition expectedState (vo_State rec))) (ErrMsg "invalid vtxo state transition");
  key ← query integrityKeyCopy;
  sealed ← lift (SealVtxoOperation rec key);
  n ← transaction (updateVtxoOperation expectedState sealed);
  if n =? 1 then mret (sealed, true) else
  current ← query (fun l => loadVtxoOperation l (vo_OperationID rec));
  mret (current, false).

(** A transaction whose body says whether to commit; otherwise the deferred
    ROLLBACK undoes it and the value is returned all the same. *)
Definition transaction_if {A} (body : M (A * bool)) : M (A * bool) := fun l =>
  match body l with
  | (l', Ok (a, true)) => if l_commit_ok l' then (l', Ok (a, true)) else (set_db (l_db l) l', Err (ErrIO "commit"))
  | (l', Ok (a, false)) => (set_db (l_db l) l', Ok (a, false))
  | (l', Err e) => (set_db (l_db l) l', Err e)
  end.

Definition commit_signed_body (rec : VtxoOperation) (credentialID : bytes) (signCount : Z)
  : M (VtxoOperation * bool) :=
  n ← updateVtxoOperation vtxoStateReserved rec;
  if negb (n =? 1) then
    current ← query (fun l => loadVtxoOperation l (vo_OperationID rec));
    _ ← (if vo_State current == vtxoStateSigned
         then query (verifySignCountReplayLocked (vo_VaultID rec) credentialID signCount)
         else mret tt);
    mret (current, false)
  else
    _ ← advanceSignCountLocked (vo_VaultID rec) credentialID signCount;
    mret (rec, true).

Definition CommitSignedVtxoOperation (rec : VtxoOperation) (credentialID : bytes) (signCount : Z)
  : M (VtxoOperation * bool) :=
  _ ← guard_M ((vo_OperationID rec == []) || (vo_VaultID rec == []) || (blen credentialID =? 0)
               || (vo_State rec != vtxoStateSigned))
        (ErrMsg "signed vtxo operation identity required");
  key ← query integrityKeyCopy;
  sealed ← lift (SealVtxoOperation rec key);
  transaction_if (commit_signed_body sealed credentialID signCount).

Definition VerifySignedVtxoReplay (operationID vaultID credentialID : bytes) (signCount : Z) (l : Ledger)
  : result unit :=
  _ ← fail_if ((operationID == []) || (vaultID == []) || (blen credentialID =? 0))
        (ErrMsg "signed vtxo replay identity required");
  _ ← fail_if (negb (blen (l_integrityKey l) =? sha256_Size)) (ErrMsg "sign count ledger required");
  rec ← loadVtxoOperation l operationID;
  _ ← fail_if ((vo_VaultID rec != vaultID) || (vo_State rec != vtxoStateSigned))
        (ErrMsg "signed vtxo replay state mismatch");
  verifySignCountReplayLocked vaultID credentialID signCount l.

(** ** Frames: what each step changes *)
Lemma update_operations_Ok sel f l l' n :
  update_operations sel f l = (l', Ok n) ->
  l' = set_db (set_operations (map (fun r => if sel r then f r else r) (t_operation (db_vtxo (l_db l)))) (l_db l)) l /\
  n = Z.of_nat (length (List.filter sel (t_operation (db_vtxo (l_db l))))).
Proof. unfold update_operations. intros H. inv_M. apply Ok_inj in E as <-. done. Qed.

Lemma insert_vtxo_operation_Ok r l l' :
  insert_vtxo_operation r l = (l', Ok tt) ->
  l' = set_db (set_operations (t_operation (db_vtxo (l_db l)) ++ [r]) (l_db l)) l /\
  has_operation (l_db l) (vo_OperationID r) = false /\ has_vault (l_db l) (vo_VaultID r) = true.
Proof.
  unfold insert_vtxo_operation. intros H. inv_M. apply Ok_inj in E as <-. bool_hyps. auto.
Qed.

Lemma insert_vtxo_input_Ok i l l' :
  insert_vtxo_input i l = (l', Ok tt) ->
  l' = set_db (set_inputs (t_input (db_vtxo (l_db l)) ++ [i]) (l_db l)) l.
Proof. unfold insert_vtxo_input. intros H. by inv_M. Qed.

Lemma reserve_inputs_Ok id key inputs l l' u :
  each_M (reserve_input id key) inputs l = (l', Ok u) ->
  exists ins, Forall2 (fun i s => SealVtxoOperationInput (vi_set_OperationID id i) key = Ok s) inputs ins /\
    l' = set_db (set_inputs (t_input (db_vtxo (l_db l)) ++ ins) (l_db l)) l.
Proof.
  revert l. induction inputs as [|i inputs IH]; intros l H; cbn [each_M] in H.
  - inv_M. exists []. split; [constructor|]. rewrite app_nil_r. by destruct l as [[? [] ? ? ? ?] ? ? ? ? ? ? ?].
  - apply bind_Ok_M in H as ([] & l1 & H1 & H). unfold reserve_input in H1. inv_M.
    apply insert_vtxo_input_Ok in H1 as ->. apply IH in H as (ins & HF & ->).
    exists (r :: ins). split; [by constructor|]. cbn. by rewrite <-app_assoc.
Qed.

(** ** Expired reservations are aborted, and nothing else *)
Definition ids_unique (d : Db) : Prop := NoDup (map vo_OperationID (t_operation (db_vtxo d))).

Definition expiry_due (vaultID : bytes) (now : Z) (r : VtxoOperation) : bool :=
  expiry_candidate vaultID now r
  && match parse_rfc3339 (vo_ExpiresAt r) with Some exp => exp <=? now | None => false end.

(** The row after an abort: the state changes and the row is sealed again. *)
Definition aborted_image (key : bytes) (r : VtxoOperation) : VtxoOperation :=
  vo_set_MAC (hmac_sha256 key (vo_encoding (vo_set_State vtxoStateAborted r))) (vo_set_State vtxoStateAborted r).

Lemma Seal_encoding r key r' :
  SealVtxoOperation r key = Ok r' -> r' = vo_set_MAC (hmac_sha256 key (vo_encoding r)) r /\ vo_valid r.
Proof.
  unfold SealVtxoOperation, vtxoOperationMAC. intros H. inv_ok.
  apply canonicalVtxoOperation_Ok in E1 as [-> Hv]. done.
Qed.

Lemma unique_row d r r' :
  ids_unique d -> r ∈ t_operation (db_vtxo d) -> r' ∈ t_operation (db_vtxo d) ->
  vo_OperationID r = vo_OperationID r' -> r = r'.
Proof.
  unfold ids_unique. generalize (t_operation (db_vtxo d)). intros rows Hn Hr Hr' E.
  induction rows as [|x rows IH]; [by apply elem_of_nil in Hr|]. cbn in Hn. apply NoDup_cons in Hn as [Hx Hn].
  apply elem_of_cons in Hr as [->|Hr], Hr' as [->|Hr']; [done| | |by apply IH].
  - destruct Hx. rewrite E. apply list_elem_of_fmap. eauto.
  - destruct Hx. rewrite <-E. apply list_elem_of_fmap. eauto.
Qed.

(** The rows once the reservations in [done] are aborted. *)
Definition abort_done (key : bytes) (done : list VtxoOperation) (r : VtxoOperation) : VtxoOperation :=
  if bool_decide (r ∈ done) then aborted_image key r else r.

Lemma abort_row_Ok key d done rec l l' :
  ids_unique d -> Forall (fun r => r ∈ t_operation (db_vtxo d)) done ->
  rec ∈ t_operation (db_vtxo d) -> vo_State rec = vtxoStateReserved -> rec ∉ done ->
  l_db l = set_operations (map (abort_done key done) (t_operation (db_vtxo d))) d ->
  abort_row key rec l = (l', Ok tt) ->
  l' = set_db (set_operations (map (abort_done key (rec :: done)) (t_operation (db_vtxo d))) d) l.
Proof.
  intros Hu Hd Hrec Hst Hnew Hl H. unfold abort_row in H. inv_M.
  apply Seal_encoding in E as [-> _]. apply update_operations_Ok in E0 as [-> _]. rewrite Hl. cbn.
  unfold set_operations, set_vtxo. cbn. do 3 f_equal. rewrite map_map. apply map_ext_in.
  intros r Hr. apply list_elem_of_In in Hr. unfold abort_done.
  destruct (decide (r ∈ done)) as [Hin|Hout].
  - rewrite (bool_decide_eq_true_2 (r ∈ done)), (bool_decide_eq_true_2 (r ∈ rec :: done)) by set_solver. unfold aborted_image at 1 2. cbn.
    change (vtxoStateAborted == vtxoStateReserved) with false. by rewrite andb_false_r.
  - rewrite (bool_decide_eq_false_2 (r ∈ done)) by done.
    destruct (decide (r = rec)) as [->|Hne].
    + rewrite (bool_decide_eq_true_2 (rec ∈ rec :: done)) by set_solver.
      rewrite (bool_decide_eq_true_2 (vo_OperationID rec = _)) by done.
      by rewrite (bool_decide_eq_true_2 (vo_State rec = _)).
    + rewrite (bool_decide_eq_false_2 (r ∈ rec :: done)) by set_solver.
      rewrite (bool_decide_eq_false_2 (vo_OperationID r = _)); [done|].
      intros E. by apply Hne, (unique_row d).
Qed.

Lemma abort_all_Ok key d todo done l l' u :
  ids_unique d -> NoDup todo -> Forall (fun r => r ∈ t_operation (db_vtxo d)) done ->
  Forall (fun r => r ∈ t_operation (db_vtxo d) /\ vo_State r = vtxoStateReserved /\ r ∉ done) todo ->
  l_db l = set_operations (map (abort_done key done) (t_operation (db_vtxo d))) d ->
  each_M (abort_row key) todo l = (l', Ok u) ->
  exists done', (forall r, r ∈ done' <-> r ∈ todo \/ r ∈ done) /\
    l' = set_db (set_operations (map (abort_done key done') (t_operation (db_vtxo d))) d) l.
Proof.
  intros Hu. revert done l. induction todo as [|rec todo IH]; intros done l Hn Hd Ht Hl H; cbn [each_M] in H.
  - inv_M. exists done. split; [set_solver|]. rewrite <-Hl. by destruct l.
  - apply NoDup_cons in Hn as [Hnew Hn]. apply Forall_cons in Ht as [(Hr & Hs & Hout) Ht].
    apply bind_Ok_M in H as ([] & l1 & H1 & H). eapply abort_row_Ok in H1; [|done..]. subst l1.
    apply (IH (rec :: done)) in H as (done' & Hm & ->); [|done|by constructor| |done].
    + exists done'. split; [|done]. intros r. rewrite Hm. set_solver.
    + rewrite Forall_forall in Ht |- *. intros r Hin. destruct (Ht r Hin) as (? & ? & ?).
      split_and!; [done..|]. set_solver.
Qed.

Lemma expired_rows key now rows cs :
  Forall (fun r => vo_ExpiresAt r <> []) rows -> collect (expired_row key now) rows = Ok cs ->
  omap id cs = List.filter (fun r => match parse_rfc3339 (vo_ExpiresAt r) with
                                     | Some exp => exp <=? now | None => false end) rows.
Proof.
  rewrite collect_Ok. intros Hne H. induction H as [|r c rows cs Hrow H IH]; [done|].
  apply Forall_cons in Hne as [Hr Hne]. cbn [List.filter]. specialize (IH Hne).
  unfold expired_row in Hrow. apply bind_Ok in Hrow as (rec & Hv & Hrow). apply verified_Ok in Hv as [-> _].
  rewrite bool_decide_eq_false_2 in Hrow by done.
  destruct (parse_rfc3339 (vo_ExpiresAt r)) as [exp|]; [|done]. apply Ok_inj in Hrow as <-.
  rewrite Z.leb_antisym. cbn. destruct (negb (now <? exp)); cbn; by rewrite IH.
Qed.

Lemma expiry_candidate_true v now r :
  expiry_candidate v now r = true ->
  vo_VaultID r = v /\ vo_State r = vtxoStateReserved /\ vo_ExpiresAt r <> [].
Proof. unfold expiry_candidate. intros. bool_hyps. done. Qed.

Lemma ids_unique_NoDup d : ids_unique d -> NoDup (t_operation (db_vtxo d)).
Proof. apply NoDup_fmap_1. Qed.

Lemma abortExpired_Ok v now l l' u :
  ids_unique (l_db l) -> abortExpiredVtxoLocked v now l = (l', Ok u) ->
  exists key, integrityKeyCopy l = Ok key /\
    l' = set_db (set_operations
      (map (fun r => if expiry_due v now r then aborted_image key r else r) (t_operation (db_vtxo (l_db l))))
      (l_db l)) l.
Proof.
  intros Hu H. unfold abortExpiredVtxoLocked in H. inv_M. exists r. split; [done|].
  apply expired_rows in E0; [|apply Forall_forall; intros x Hx; apply list_elem_of_In, List.filter_In in Hx as [_ Hx];
    by apply expiry_candidate_true in Hx as (_ & _ & Hx)].
  rewrite E0 in H. eapply (abort_all_Ok _ (l_db l) _ []) in H as (done' & Hm & ->); [|done|..].
  - do 2 f_equal. apply map_ext_in. intros x Hx. unfold abort_done, expiry_due.
    case_bool_decide as Hin; rewrite Hm in Hin.
    + destruct Hin as [Hin|Hin]; [|by apply elem_of_nil in Hin].
      apply list_elem_of_In, List.filter_In in Hin as [Hin Hp]. apply List.filter_In in Hin as [_ Hc].
      by rewrite Hc, Hp.
    + destruct (expiry_candidate v now x) eqn:Hc; cbn [andb]; [|done].
      destruct (match parse_rfc3339 _ with Some _ => _ | None => _ end) eqn:Hp; [|done].
      destruct Hin. left. apply list_elem_of_In, List.filter_In. split; [|done]. by apply List.filter_In.
  - apply NoDup_ListNoDup. do 2 apply List.NoDup_filter. apply NoDup_ListNoDup. by apply ids_unique_NoDup.
  - constructor.
  - apply Forall_forall. intros x Hx. apply list_elem_of_In, List.filter_In in Hx as [Hx _].
    apply List.filter_In in Hx as [Hx Hc]. apply expiry_candidate_true in Hc as (_ & ? & _).
    split_and!; [by apply list_elem_of_In|done|set_solver].
  - rewrite (map_ext _ id); [rewrite map_id; by destruct l as [[? [] ? ? ? ?] ? ? ? ? ? ? ?]|]. intros x.
    unfold abort_done. by rewrite bool_decide_eq_false_2 by set_solver.
Qed.

(** ** Armed delegations on the same coins are invalidated *)
Definition invalidated_image (v : bytes) (inputs : list VtxoOperationInput) (now : Z)
  (s : SpendingDelegationSnapshot) : SpendingDelegationSnapshot :=
  if (sd_VaultID (ds_Operation s) == v) && negb (delegationTerminal s) && spends_input inputs s
  then add_delegation_event s (payment_invalidation now s) else s.

Lemma payment_invalidation_ascii id now s :
  delegation_loaded id s ->
  Forall ascii (let e := payment_invalidation now s in
                [de_OperationID e; de_Phase e; de_Evidence e; de_CreatedAt e]).
Proof.
  intros [_ Hv _]. apply validateDelegation_id in Hv. unfold payment_invalidation.
  repeat apply Forall_cons_2; try apply Forall_nil_2; cbn [de_OperationID de_Phase de_Evidence de_CreatedAt];
    eauto with guardian; repeat constructor; vm_compute; reflexivity.
Qed.

Lemma payment_invalidation_roundtrip id now s :
  delegation_loaded id s ->
  unmarshal_delegation_event (marshal_delegation_event (payment_invalidation now s))
  = Some (payment_invalidation now s).
Proof.
  intros H. apply payment_invalidation_ascii with (now := now) in H. apply unmarshal_marshal_delegation_event.
  repeat (apply Forall_cons in H as [? H]). repeat constructor; by apply utf8_ascii.
Qed.

Lemma payment_invalidation_length id now s :
  delegation_loaded id s ->
  text_length (marshal_delegation_event (payment_invalidation now s))
  = blen (marshal_delegation_event (payment_invalidation now s)).
Proof.
  intros H. apply payment_invalidation_ascii with (now := now) in H. apply text_length_plain, plain_marshal_struct.
  - repeat constructor; vm_compute; reflexivity.
  - repeat (apply Forall_cons in H as [? H]). repeat constructor; eauto.
Qed.

Lemma set_delegation_id l : l = set_db (set_delegation (db_delegation (l_db l)) (l_db l)) l.
Proof. by destruct l as [[] ? ? ? ? ? ? ?]. Qed.

Lemma invalidate_one_Ok key v inputs now k s m l l' :
  m !! k = Some s -> delegation_loaded k s -> loadSpendingDelegations (l_db l) key = Ok m ->
  invalidate_one key v inputs now (k, s) l = (l', Ok tt) ->
  exists t, l' = set_db (set_delegation t (l_db l)) l /\
    loadSpendingDelegations (l_db l') key = Ok (<[k := invalidated_image v inputs now s]> m) /\
    (sd_VaultID (ds_Operation s) = v -> delegationTerminal s = false -> ds_Events s = ∅).
Proof.
  intros Hs Hld Hl H. unfold invalidate_one in H. cbn [snd] in H. unfold invalidated_image.
  assert (m = <[k := s]> m) as Hid by (by rewrite insert_id).
  destruct (bool_decide (sd_VaultID (ds_Operation s) = v)) eqn:Ev; cbn [negb orb andb] in *;
    [destruct (delegationTerminal s) eqn:Et; cbn [negb andb] in *|].
  - inv_M. exists (db_delegation (l_db l)). rewrite <-Hid. split_and!; [apply set_delegation_id|done|done].
  - inv_M. bool_hyps. destruct (spends_input inputs s).
    + apply insertDelegationEvent_Ok in H as (Hv & Hlen & ->). eexists. split_and!; [done| |done].
      pose proof (payment_invalidation_roundtrip k now s Hld) as Hrt.
      rewrite (payment_invalidation_length k now s Hld) in Hlen.
      assert (de_OperationID (payment_invalidation now s) = k) as Ek by apply Hld.
      rewrite <-Ek. apply load_delegation_event_append; [done|by rewrite Ek|done..].
    + inv_M. exists (db_delegation (l_db l)). rewrite <-Hid. split_and!; [apply set_delegation_id|done|done].
  - inv_M. exists (db_delegation (l_db l)). rewrite <-Hid. apply bool_decide_eq_false in Ev.
    split_and!; [apply set_delegation_id|done|done].
Qed.

Lemma invalidate_all_Ok key v inputs now kvs m l l' u :
  NoDup kvs.*1 -> (forall k s, (k, s) ∈ kvs -> m !! k = Some s /\ delegation_loaded k s) ->
  loadSpendingDelegations (l_db l) key = Ok m ->
  each_M (invalidate_one key v inputs now) kvs l = (l', Ok u) ->
  exists t m', l' = set_db (set_delegation t (l_db l)) l /\ loadSpendingDelegations (l_db l') key = Ok m' /\
    (forall k, m' !! k = if bool_decide (k ∈ kvs.*1) then invalidated_image v inputs now <$> m !! k else m !! k) /\
    Forall (fun kv => sd_VaultID (ds_Operation (snd kv)) = v -> delegationTerminal (snd kv) = false ->
                      ds_Events (snd kv) = ∅) kvs.
Proof.
  revert m l. induction kvs as [|[k s] kvs IH]; intros m l Hn Hm Hl H; cbn [each_M] in H.
  - inv_M. exists (db_delegation (l_db l)), m. split_and!; [apply set_delegation_id|done|done|constructor].
  - apply NoDup_cons in Hn as [Hk Hn]. apply bind_Ok_M in H as ([] & l1 & H1 & H).
    destruct (Hm k s) as [Hs Hld]; [left|].
    eapply invalidate_one_Ok in H1 as (t & El & Hl1 & Ha); [|done..].
    eapply IH in H as (t' & m' & -> & Hl' & Hm' & HF); [|done| |exact Hl1].
    + exists t', m'. split_and!; [by subst l1|done| |by constructor].
      intros k'. rewrite Hm'. destruct (decide (k' = k)) as [->|Hne].
      * rewrite lookup_insert_eq, Hs. rewrite (bool_decide_eq_true_2 (k ∈ ((k, s) :: kvs).*1)) by set_solver.
        by rewrite bool_decide_eq_false_2.
      * rewrite lookup_insert_ne by done. cbn [fmap list_fmap]. do 2 case_bool_decide; try done; set_solver.
    + intros k' s' Hin. destruct (Hm k' s') as [? ?]; [by right|]. split; [|done].
      rewrite lookup_insert_ne; [done|]. intros <-. apply Hk, list_elem_of_fmap. by exists (k, s').
Qed.

Lemma invalidateArmed_Ok v inputs l l' :
  invalidateArmedDelegations v inputs l = (l', Ok tt) ->
  exists key all t, integrityKeyCopy l = Ok key /\ loadSpendingDelegations (l_db l) key = Ok all /\
    l' = set_db (set_delegation t (l_db l)) l /\
    loadSpendingDelegations (l_db l') key = Ok (invalidated_image v inputs (l_now l) <$> all) /\
    (forall id s, all !! id = Some s -> sd_VaultID (ds_Operation s) = v -> delegationTerminal s = false ->
                  ds_Events s = ∅).
Proof.
  unfold invalidateArmedDelegations. intros H. inv_M. apply Ok_inj in E1 as <-. rename r into key, r0 into all.
  exists key, all. eapply invalidate_all_Ok in H as (t & m' & El & Hl & Hm & HF); [..|exact E0].
  - exists t. split_and!; [done..| |].
    + rewrite Hl. f_equal. apply map_eq. intros k. rewrite Hm, lookup_fmap. case_bool_decide as Hk; [done|].
      destruct (all !! k) as [s|] eqn:Ek; [|done]. destruct Hk. apply list_elem_of_fmap.
      exists (k, s). split; [done|]. by apply elem_of_map_to_list.
    + intros id s Hs. rewrite Forall_forall in HF. apply (HF (id, s)). by apply elem_of_map_to_list.
  - apply NoDup_fst_map_to_list.
  - intros k s Hin. apply elem_of_map_to_list in Hin. split; [done|]. by eapply delegations_loaded.
Qed.

(** After the invalidation every live delegation of the vault is armed and
    spends none of the coins. *)
Lemma invalidated_free (v : bytes) (inputs : list VtxoOperationInput) (now : Z)
  (all : gmap bytes SpendingDelegationSnapshot) (id : bytes) s :
  (forall id s, all !! id = Some s -> sd_VaultID (ds_Operation s) = v -> delegationTerminal s = false ->
                ds_Events s = ∅) ->
  (invalidated_image v inputs now <$> all) !! id = Some s ->
  sd_VaultID (ds_Operation s) = v -> delegationTerminal s = false ->
  ds_Events s = ∅ /\ spends_input inputs s = false.
Proof.
  intros Ha Hs Hv Ht. rewrite lookup_fmap in Hs. destruct (all !! id) as [s0|] eqn:E0; [|done].
  cbn in Hs. injection Hs as <-. specialize (Ha id s0 E0).
  assert (sd_VaultID (ds_Operation s0) = v) as Hv0.
  { revert Hv. unfold invalidated_image. destruct (_ && _); done. }
  revert Ht. unfold invalidated_image. rewrite (bool_decide_eq_true_2 _ Hv0). cbn [andb].
  destruct (delegationTerminal s0) eqn:Et; cbn [negb andb]; [congruence|].
  destruct (spends_input inputs s0) eqn:Esp; [|auto].
  unfold delegationTerminal, terminal_phases. cbn [existsb]. rewrite !has_devent_insert.
  change (de_Phase (payment_invalidation now s0) == str "invalidated") with true.
  cbn [orb]. by rewrite !orb_true_r.
Qed.

(** ** The fences *)
Lemma rejectConcurrent_Ok l v id u :
  rejectConcurrentVtxoOperationLocked l v id = Ok u ->
  forall r, r ∈ vault_operations (l_db l) v -> vo_OperationID r <> id ->
    vtxoStateBlocksNewOperation (vo_State r) = false.
Proof.
  unfold rejectConcurrentVtxoOperationLocked. intros H r Hr Hne. inv_ok.
  destruct (collect_elem _ _ _ _ E0 Hr) as (rec & Hin & Hv). apply verified_Ok in Hv as [-> _].
  apply (existsb_none _ _ _ H) in Hin. apply andb_false_iff in Hin as [Hin|Hin]; [|done]. bool_hyps. done.
Qed.

Lemma rejectActiveRenewal_Ok l v u :
  rejectActiveSpendingRenewal l v = Ok u ->
  exists key all, integrityKeyCopy l = Ok key /\ loadSpendingRenewals (l_db l) key = Ok all /\
    forall id s, all !! id = Some s -> ro_VaultID (rs_Operation s) = v -> renewalTerminal s = true.
Proof.
  unfold rejectActiveSpendingRenewal. intros H. inv_ok. eexists _, _. split_and!; [done..|].
  intros id s Hs Hv. apply each_Ok in H. rewrite Forall_forall in H.
  specialize (H (id, s)). rewrite elem_of_map_to_list in H. specialize (H Hs). cbn [snd] in H.
  apply fail_if_Ok in H. rewrite bool_decide_eq_true_2 in H by done. by destruct (renewalTerminal s).
Qed.

Lemma rejectOverlapping_Ok l id inputs u :
  rejectOverlappingVtxoInputs l id inputs = Ok u ->
  forall i o, i ∈ t_input (db_vtxo (l_db l)) -> outpoint_matches inputs i = true ->
    find_operation (l_db l) (vi_OperationID i) = Some o -> vo_OperationID o <> id ->
    vtxoStateLocksInputs (vo_State o) = false.
Proof.
  unfold rejectOverlappingVtxoInputs. intros H i o Hi Hm Ho Hne. inv_ok.
  assert ((o, i) ∈ overlap_rows (l_db l) inputs) as Hrow.
  { unfold overlap_rows. apply list_elem_of_omap. exists i. split; [|by rewrite Ho].
    rewrite slice_stable_perm. apply list_elem_of_In, List.filter_In. by rewrite <-list_elem_of_In. }
  destruct (collect_elem _ _ _ _ E1 Hrow) as (m & Hin & Hv). unfold authenticated_match in Hv. inv_ok.
  apply verified_Ok in E2 as [-> _]. apply each_Ok in H. rewrite Forall_forall in H. specialize (H _ Hin).
  cbn [fst snd] in H. rewrite bool_decide_eq_false_2 in H by done. by apply fail_if_Ok in H.
Qed.

(** ** A successful reservation, step by step

    [l1] is the ledger after the expired reservations are aborted, [l2] after
    the armed delegations on the same coins are invalidated. *)
Inductive reserve_effect (rec : VtxoOperation) (inputs : list VtxoOperationInput) (cap : Z) (l l' : Ledger) : Prop :=
  | ReserveEffect (key : bytes) (l1 l2 : Ledger) (delegations : gmap bytes SpendingDelegationSnapshot)
      (t : JournalTables) (used : Z) (sealed : VtxoOperation) (ins : list VtxoOperationInput)
      (re_key : integrityKeyCopy l = Ok key)
      (re_abort : l1 = set_db (set_operations
         (map (fun r => if expiry_due (vo_VaultID rec) (l_now l) r then aborted_image key r else r)
            (t_operation (db_vtxo (l_db l)))) (l_db l)) l)
      (re_overlap : rejectOverlappingVtxoInputs l1 (vo_OperationID rec) inputs = Ok tt)
      (re_fence : rejectConcurrentVtxoOperationLocked l1 (vo_VaultID rec) (vo_OperationID rec) = Ok tt)
      (re_renewal : rejectActiveSpendingRenewal l1 (vo_VaultID rec) = Ok tt)
      (re_load : loadSpendingDelegations (l_db l1) key = Ok delegations)
      (re_armed : forall id s, delegations !! id = Some s -> sd_VaultID (ds_Operation s) = vo_VaultID rec ->
         delegationTerminal s = false -> ds_Events s = ∅)
      (re_invalidate : l2 = set_db (set_delegation t (l_db l1)) l1)
      (re_reload : loadSpendingDelegations (l_db l2) key
         = Ok (invalidated_image (vo_VaultID rec) inputs (l_now l) <$> delegations))
      (re_spent : spentInWindow l2 (vo_VaultID rec) = Ok used)
      (re_need : addOutflow (vo_AmountSats rec) (vo_FeeSats rec) = Ok (vo_AmountSats rec + vo_FeeSats rec))
      (re_cap : used + (vo_AmountSats rec + vo_FeeSats rec) <= cap)
      (re_seal : SealVtxoOperation rec key = Ok sealed)
      (re_new : has_operation (l_db l) (vo_OperationID rec) = false)
      (re_vault : has_vault (l_db l) (vo_VaultID rec) = true)
      (re_inputs : Forall2 (fun i s => SealVtxoOperationInput (vi_set_OperationID (vo_OperationID rec) i) key = Ok s)
         inputs ins)
      (re_observe : observeEconomicOutflowsLocked
         (set_db (set_inputs (t_input (db_vtxo (l_db l)) ++ ins)
           (set_operations (t_operation (db_vtxo (l_db l1)) ++ [sealed]) (l_db l2))) l) = (l', Ok tt)) :
      reserve_effect rec inputs cap l l'.

Lemma aborted_ids key v now rows :
  map vo_OperationID (map (fun r => if expiry_due v now r then aborted_image key r else r) rows)
  = map vo_OperationID rows.
Proof. rewrite map_map. apply map_ext. intros r. by destruct (expiry_due v now r). Qed.

Lemma has_operation_ids d id : has_operation d id = existsb (fun i => i == id) (map vo_OperationID (t_operation (db_vtxo d))).
Proof. unfold has_operation. induction (t_operation (db_vtxo d)) as [|r rows IH]; [done|]. cbn. by rewrite IH. Qed.

Lemma reserve_effect_Ok rec inputs cap l l' :
  ids_unique (l_db l) -> ReserveVtxoOperation rec inputs cap l = (l', Ok tt) -> reserve_effect rec inputs cap l l'.
Proof.
  intros Hu H. unfold ReserveVtxoOperation in H. inv_M. unfold reserve_body in H.
  read_step H now Hnow. apply Ok_inj in Hnow as <-.
  write_step H l1 Ha. apply abortExpired_Ok in Ha as (key & Hkey & El1); [|done].
  read_step H u1 Ho. read_step H u2 Hf. read_step H u3 Hr. destruct u1, u2, u3.
  write_step H l2 Hi. apply invalidateArmed_Ok in Hi as (key1 & all & t & Hkey1 & Hload & El2 & Hre & Harm).
  read_step H used Hs. read_step H need Hn. pose proof Hn as Hn'. apply addOutflow_Ok in Hn' as (-> & Hn').
  read_step H u1 Hg1. read_step H u2 Hg2. read_step H key2 Hk2. read_step H sealed Hseal.
  write_step H l3 Hins. apply insert_vtxo_operation_Ok in Hins as (-> & Hnew & Hvault).
  write_step H l4 Hin. apply reserve_inputs_Ok in Hin as (ins & HF & ->).
  apply wrap_M_Ok in H.
  assert (key1 = key) as ->. { subst l1. change (integrityKeyCopy l = Ok key1) in Hkey1. rewrite Hkey in Hkey1. by apply Ok_inj in Hkey1. }
  assert (key2 = key) as ->. { subst l1 l2. change (integrityKeyCopy l = Ok key2) in Hk2. rewrite Hkey in Hk2. by apply Ok_inj in Hk2. }
  assert (l_now l1 = l_now l) as En by (by subst l1). rewrite En in Hre.
  apply Seal_encoding in Hseal as Hsv. destruct Hsv as [Es _].
  apply (ReserveEffect rec inputs cap l l' key l1 l2 all t used sealed ins); try done.
  - bool_hyps. lia.
  - rewrite Es, has_operation_ids in Hnew. subst l1 l2. rewrite has_operation_ids. cbn in Hnew.
    by rewrite aborted_ids in Hnew.
  - rewrite Es in Hvault. by subst l1 l2.
  - subst l1 l2. exact H.
Qed.

(** ** Accounting of the new row *)
Lemma verified_sealed rec key sealed : SealVtxoOperation rec key = Ok sealed -> verified key sealed = Ok sealed.
Proof.
  intros H. destruct (Seal_encoding _ _ _ H) as [Es [_ _ _ _ _ _ _ _ Hvout]].
  destruct (Seal_Verify_op _ _ _ H) as [Hv _]. unfold verified, scanVtxoOperation.
  assert (vo_ChangeVout sealed = vo_ChangeVout rec) as -> by (by rewrite Es).
  assert (wrap_err "vtxo operation integrity" (VerifyVtxoOperation sealed key) = Ok tt) as Hw by (by rewrite Hv).
  destruct Hvout as [-> | ->]; cbn [mbind result_bind orb Z.ltb]; unfold mbind, result_bind; cbv beta iota;
    [by rewrite Hw|].
  change ((1 <? 0) || (max_uint32 <? 1)) with false. cbv iota. by rewrite Hw.
Qed.

Lemma spent_row_reserved key now t r created :
  verified key r = Ok r -> vo_State r = vtxoStateReserved -> parse_rfc3339 (vo_CreatedAt r) = Some created ->
  addOutflow (vo_AmountSats r) (vo_FeeSats r) = Ok (vo_AmountSats r + vo_FeeSats r) ->
  t + (vo_AmountSats r + vo_FeeSats r) <= max_int64 ->
  spent_row key now t r = Ok (t + op_charge now r).
Proof.
  intros Hv Hs Hc Hn Hmax. unfold spent_row, op_charge. rewrite Hv. cbn [mbind result_bind]. rewrite Hs, Hc.
  change (vtxoStateCountsTowardAllowance vtxoStateReserved) with true.
  change (vtxoStateAwaitingSettlement vtxoStateReserved) with false. cbn [negb andb orb].
  destruct (created + allowanceWindow <? now); cbn [negb]; [by rewrite Z.add_0_r|].
  rewrite Hn. cbn [mbind result_bind].
  assert (max_int64 - (vo_AmountSats r + vo_FeeSats r) <? t = false) as -> by lia. done.
Qed.

Lemma vault_operations_snoc d rows ins r :
  vault_operations (set_inputs ins (set_operations (rows ++ [r]) d)) (vo_VaultID r)
  = vault_operations (set_operations rows d) (vo_VaultID r) ++ [r].
Proof.
  unfold vault_operations. cbn. rewrite List.filter_app. cbn. by rewrite bool_decide_eq_true_2.
Qed.

(** Appending a reserved row adds exactly its charge. *)
Lemma spentInWindow_reserved l l' used key ins r created :
  spentInWindow l (vo_VaultID r) = Ok used -> integrityKeyCopy l = Ok key ->
  l_db l' = set_inputs ins (set_operations (t_operation (db_vtxo (l_db l)) ++ [r]) (l_db l)) ->
  l_integrityKey l' = l_integrityKey l -> l_now l' = l_now l ->
  verified key r = Ok r -> vo_State r = vtxoStateReserved -> parse_rfc3339 (vo_CreatedAt r) = Some created ->
  addOutflow (vo_AmountSats r) (vo_FeeSats r) = Ok (vo_AmountSats r + vo_FeeSats r) ->
  used + (vo_AmountSats r + vo_FeeSats r) <= max_int64 ->
  spentInWindow l' (vo_VaultID r) = Ok (used + op_charge (l_now l) r).
Proof.
  intros H Hk Hdb Hkey Hnow Hv Hs Hc Hn Hmax.
  pose proof (spentInWindow_Ok _ _ _ H) as (k & rs & ds & ops & Hk' & Hr & Hd & Ho & _ & _ & Hle).
  rewrite Hk in Hk'. apply Ok_inj in Hk' as <-.
  unfold spentInWindow, spendingRenewalAllowance, delegationAllowance, integrityKeyCopy, NowUTC in *.
  rewrite Hdb, Hkey, Hnow. rewrite Hk in H |- *. cbn [mbind result_bind] in H |- *.
  rewrite vault_operations_snoc, fold_res_app.
  change (vault_operations (set_operations (t_operation (db_vtxo (l_db l))) (l_db l)) (vo_VaultID r))
    with (vault_operations (l_db l) (vo_VaultID r)).
  rewrite Ho in H |- *. cbn [mbind result_bind fold_res] in H |- *.
  rewrite (spent_row_reserved _ _ _ _ _ Hv Hs Hc Hn) by lia. cbn [mbind result_bind].
  change (loadSpendingRenewals (set_inputs _ _) key) with (loadSpendingRenewals (l_db l) key).
  change (loadSpendingDelegations (set_inputs _ _) key) with (loadSpendingDelegations (l_db l) key).
  rewrite Hr, Hd in H |- *. cbn [mbind result_bind] in H |- *.
  apply bind_Ok in H as (rn & Ern & H). rewrite Ern. cbn [mbind result_bind].
  apply bind_Ok in H as (t & Et & H). apply addOutflow_Ok in Et as (-> & ? & ? & _).
  apply bind_Ok in H as (dn & Edn & H). apply addOutflow_Ok in H as (-> & ? & ? & _).
  apply addOutflow_Ok in Hn as (_ & ? & ? & _).
  assert (0 <= op_charge (l_now l) r <= vo_AmountSats r + vo_FeeSats r)
    by (unfold op_charge; destruct (_ && _); lia).
  assert (addOutflow (ops + op_charge (l_now l) r) rn = Ok (ops + op_charge (l_now l) r + rn)) as ->
    by (apply addOutflow_Ok; lia).
  cbn [mbind result_bind]. rewrite Edn. cbn [mbind result_bind]. apply addOutflow_Ok. lia.
Qed.

(** ** The lifecycle of a row under every call *)
Definition op_state (d : Db) (id : bytes) : option bytes := vo_State <$> find_operation d id.

Lemma find_operation_map d rows id g :
  (forall r, vo_OperationID (g r) = vo_OperationID r) ->
  find_operation (set_operations (map g rows) d) id = g <$> find_operation (set_operations rows d) id.
Proof.
  intros Hg. unfold find_operation. cbn. induction rows as [|r rows IH]; [done|]. cbn. rewrite Hg.
  by case_bool_decide.
Qed.

Lemma find_operation_snoc d rows r id :
  find_operation (set_operations (rows ++ [r]) d) id =
  match find_operation (set_operations rows d) id with
  | Some o => Some o
  | None => if vo_OperationID r == id then Some r else None
  end.
Proof.
  unfold find_operation. cbn. induction rows as [|x rows IH]; [done|]. cbn.
  destruct (bool_decide (vo_OperationID x = id)); [done|exact IH].
Qed.

Lemma find_operation_Some d id o :
  find_operation d id = Some o -> o ∈ t_operation (db_vtxo d) /\ vo_OperationID o = id.
Proof.
  unfold find_operation. intros H. apply List.find_some in H as [H1 H2]. bool_hyps.
  by rewrite list_elem_of_In.
Qed.

Lemma find_operation_id d id : find_operation (set_operations (t_operation (db_vtxo d)) d) id = find_operation d id.
Proof. done. Qed.

(** One call moves a row along at most one edge of the state graph. *)
Definition lifecycle_step (d d' : Db) : Prop :=
  ids_unique d' /\
  forall id, match op_state d id with
             | Some st => exists st', op_state d' id = Some st' /\ (st' = st \/ validVtxoTransition st st' = true)
             | None => op_state d' id = None \/ op_state d' id = Some vtxoStateReserved
             end.

Lemma lifecycle_refl d : ids_unique d -> lifecycle_step d d.
Proof. intros Hu. split; [done|]. intros id. destruct (op_state d id); eauto. Qed.

Lemma lifecycle_map d g :
  ids_unique d -> (forall r, vo_OperationID (g r) = vo_OperationID r) ->
  (forall r, vo_State (g r) = vo_State r \/ validVtxoTransition (vo_State r) (vo_State (g r)) = true) ->
  lifecycle_step d (set_operations (map g (t_operation (db_vtxo d))) d).
Proof.
  intros Hu Hid Hst. split.
  - unfold ids_unique in *. cbn. by rewrite map_map, (map_ext _ _ Hid).
  - intros id. unfold op_state. rewrite find_operation_map, find_operation_id by done.
    destruct (find_operation d id) as [r|]; cbn; [|by left]. eauto.
Qed.

Lemma lifecycle_update sel rec l l' n :
  ids_unique (l_db l) -> update_operations sel (fun _ => rec) l = (l', Ok n) ->
  (forall r, sel r = true -> vo_OperationID r = vo_OperationID rec /\
                             validVtxoTransition (vo_State r) (vo_State rec) = true) ->
  lifecycle_step (l_db l) (l_db l').
Proof.
  intros Hu H Hsel. apply update_operations_Ok in H as [-> _]. cbn [l_db set_db].
  apply lifecycle_map; [done|..]; intros r; destruct (sel r) eqn:E; auto; destruct (Hsel r E); auto.
Qed.

Lemma lifecycle_reserve rec inputs cap l l' :
  ids_unique (l_db l) -> vo_State rec = vtxoStateReserved -> reserve_effect rec inputs cap l l' ->
  lifecycle_step (l_db l) (l_db l').
Proof.
  intros Hu Hst [key l1 l2 all t used sealed ins Hk -> _ _ _ _ _ -> _ _ _ _ Hseal Hnew _ _ Hobs].
  apply observe_frame in Hobs as [-> _]. cbn [l_db set_db set_delegation set_operations set_vtxo set_inputs db_vtxo t_operation].
  apply Seal_encoding in Hseal as [Es _]. set (g := fun r => if expiry_due _ _ r then _ else r).
  assert (lifecycle_step (l_db l) (set_operations (map g (t_operation (db_vtxo (l_db l)))) (l_db l))) as [H1 H2].
  { apply lifecycle_map; [done|..]; unfold g; intros r; destruct (expiry_due _ _ r) eqn:Ed; auto. right.
    unfold expiry_due in Ed. bool_hyps. apply expiry_candidate_true in H as (_ & -> & _). by vm_compute. }
  rewrite has_operation_ids in Hnew.
  assert (vo_OperationID rec ∉ map vo_OperationID (t_operation (db_vtxo (l_db l)))) as Hout.
  { intros Hin. apply (existsb_none _ _ _ Hnew) in Hin. bool_hyps. done. }
  assert (forall id, vo_OperationID (g id) = vo_OperationID id) as Hg by (unfold g; intros r; by destruct (expiry_due _ _ r)).
  split.
  - unfold ids_unique in *. cbn in H1 |- *. rewrite map_app. apply NoDup_app. split_and!; [done| |apply NoDup_singleton].
    intros x Hx. rewrite map_map, (map_ext _ _ Hg) in Hx. cbn. rewrite Es. cbn. intros Hx'. set_solver.
  - intros id. specialize (H2 id). unfold op_state in *.
    assert (forall d ins t, find_operation (set_inputs ins (set_operations (map g (t_operation (db_vtxo (l_db l)))
        ++ [sealed]) (set_delegation t d))) id = find_operation (set_operations (map g (t_operation (db_vtxo (l_db l)))
        ++ [sealed]) (l_db l)) id) as -> by done.
    rewrite find_operation_snoc.
    destruct (find_operation (l_db l) id) as [r|] eqn:Ef; cbn [fmap option_fmap option_map] in H2 |- *.
    + destruct H2 as (st' & H2 & ?). destruct (find_operation (set_operations _ _) id); [|done]. eauto.
    + destruct (find_operation (set_operations _ _) id); [done|]. clear H2. rewrite Es. cbn.
      case_bool_decide; cbn; [right; by rewrite Hst|by left].
Qed.

(** The calls that write Spending rows; a call may also fail.  Between calls the
    clock and the environment change. *)
Inductive vtxo_call (l l' : Ledger) : Prop :=
  | CallReserve rec inputs cap r : ReserveVtxoOperation rec inputs cap l = (l', r) -> vtxo_call l l'
  | CallTransition expected rec r : TransitionVtxoOperation expected rec l = (l', r) -> vtxo_call l l'
  | CallCommitSigned rec cred count r : CommitSignedVtxoOperation rec cred count l = (l', r) -> vtxo_call l l'
  | CallVtxoEnv now faults ok : l' = set_env now faults ok l -> vtxo_call l l'.

(** A guard that fails leaves the ledger alone. *)
Lemma guard_M_cases c e l : guard_M c e l = (l, Ok tt) /\ c = false \/ guard_M c e l = (l, Err e) /\ c = true.
Proof. destruct c; [by right|by left]. Qed.

Lemma guard_bind_inv {A} c e (f : unit -> M A) l l' r :
  (guard_M c e ≫= f) l = (l', r) -> (c = false /\ f tt l = (l', r)) \/ (l' = l /\ r = Err e).
Proof.
  unfold mbind, M_bind. destruct (guard_M_cases c e l) as [[-> ->]|[-> ->]]; [by left|].
  intros H. right. apply pair_equal_spec in H as [<- <-]. done.
Qed.

Lemma read_bind_inv {A B} (q : Ledger -> result A) (f : A -> M B) l l' r :
  (query q ≫= f) l = (l', r) -> (exists a, q l = Ok a /\ f a l = (l', r)) \/ (l' = l /\ exists e, r = Err e).
Proof.
  unfold mbind, M_bind, query. destruct (q l) as [a|e]; [by left; exists a|].
  intros H. right. apply pair_equal_spec in H as [<- <-]. eauto.
Qed.

Lemma lift_bind_inv {A B} (x : result A) (f : A -> M B) l l' r :
  (lift x ≫= f) l = (l', r) -> (exists a, x = Ok a /\ f a l = (l', r)) \/ (l' = l /\ exists e, r = Err e).
Proof. apply (read_bind_inv (fun _ => x)). Qed.

(** A call that does not commit leaves the tables alone. *)
Lemma reserve_rollback rec inputs cap l l' e :
  ReserveVtxoOperation rec inputs cap l = (l', Err e) -> l_db l' = l_db l.
Proof.
  unfold ReserveVtxoOperation. intros H.
  do 4 (apply guard_bind_inv in H as [[_ H]|[-> _]]; [|done]). by eapply transaction_Err.
Qed.

Lemma valid_transition_update expected rec r :
  validVtxoTransition expected (vo_State rec) = true ->
  (vo_OperationID r == vo_OperationID rec) && (vo_VaultID r == vo_VaultID rec) && (vo_State r == expected) = true ->
  vo_OperationID r = vo_OperationID rec /\ validVtxoTransition (vo_State r) (vo_State rec) = true.
Proof. intros Hv H. bool_hyps. split; congruence. Qed.

Lemma transition_lifecycle expected rec l l' r :
  ids_unique (l_db l) -> TransitionVtxoOperation expected rec l = (l', r) -> lifecycle_step (l_db l) (l_db l').
Proof.
  intros Hu H. unfold TransitionVtxoOperation in H.
  apply guard_bind_inv in H as [[_ H]|[-> _]]; [|by apply lifecycle_refl].
  apply guard_bind_inv in H as [[Hv H]|[-> _]]; [|by apply lifecycle_refl]. apply negb_false_iff in Hv.
  apply read_bind_inv in H as [(key & _ & H)|[-> _]]; [|by apply lifecycle_refl].
  apply lift_bind_inv in H as [(sealed & Hs & H)|[-> _]]; [|by apply lifecycle_refl].
  apply Seal_encoding in Hs as [Es _].
  assert (vo_State sealed = vo_State rec) as Est by (by rewrite Es).
  apply bind_inv in H as [(n & l1 & H1 & H)|(e & H & _)].
  - apply transaction_Ok in H1 as [H1 _].
    assert (lifecycle_step (l_db l) (l_db l1)).
    { eapply lifecycle_update; [done|exact H1|]. intros x Hx. eapply valid_transition_update, Hx. by rewrite Est. }
    destruct (n =? 1); [by injection H as <- _|].
    apply read_bind_inv in H as [(c & _ & H)|[-> _]]; [|done]. by injection H as <- _.
  - apply transaction_Err in H as ->. by apply lifecycle_refl.
Qed.

Lemma transaction_if_cases {A} (body : M (A * bool)) l l' r :
  transaction_if body l = (l', r) ->
  l_db l' = l_db l \/ exists a, r = Ok (a, true) /\ body l = (l', Ok (a, true)).
Proof.
  unfold transaction_if. destruct (body l) as [l1 [[a []]|e]]; [destruct (l_commit_ok l1)|..];
    intros H; apply pair_equal_spec in H as [<- <-]; eauto.
Qed.

(** What a committed signature has done to the rows. *)
Lemma commit_signed_Ok rec cred count l l' cur :
  commit_signed_body rec cred count l = (l', Ok (cur, true)) ->
  cur = rec /\ exists l1, updateVtxoOperation vtxoStateReserved rec l = (l1, Ok 1) /\
    advanceSignCountLocked (vo_VaultID rec) cred count l1 = (l', Ok tt).
Proof.
  unfold commit_signed_body. intros H. apply bind_Ok_M in H as (n & l1 & H1 & H).
  destruct (Z.eqb_spec n 1) as [->|]; cbn [negb] in H.
  - apply bind_Ok_M in H as ([] & l2 & H2 & H). apply ret_Ok_M in H as [-> H].
    apply pair_equal_spec in H as [-> _]. eauto.
  - apply bind_Ok_M in H as (c & l2 & H2 & H). apply bind_Ok_M in H as (u & l3 & H3 & H).
    apply ret_Ok_M in H as [_ H]. apply pair_equal_spec in H as [_ H]. done.
Qed.

Lemma CommitSigned_cases rec cred count l l' r :
  CommitSignedVtxoOperation rec cred count l = (l', r) ->
  l_db l' = l_db l \/
  exists key sealed l1, r = Ok (sealed, true) /\ integrityKeyCopy l = Ok key /\ SealVtxoOperation rec key = Ok sealed /\
    vo_State rec = vtxoStateSigned /\ updateVtxoOperation vtxoStateReserved sealed l = (l1, Ok 1) /\
    advanceSignCountLocked (vo_VaultID sealed) cred count l1 = (l', Ok tt).
Proof.
  unfold CommitSignedVtxoOperation. intros H.
  apply guard_bind_inv in H as [[Hg H]|[-> _]]; [|by left]. bool_hyps.
  apply read_bind_inv in H as [(key & Hk & H)|[-> _]]; [|by left].
  apply lift_bind_inv in H as [(sealed & Hs & H)|[-> _]]; [|by left].
  apply transaction_if_cases in H as [H|(cur & -> & H)]; [by left|right].
  apply commit_signed_Ok in H as (-> & l1 & Hup & Hadv). exists key, sealed, l1. done.
Qed.

Lemma advance_vtxo_frame v c n l l' :
  advanceSignCountLocked v c n l = (l', Ok tt) -> db_vtxo (l_db l') = db_vtxo (l_db l).
Proof.
  intros H. by apply advance_frame in H as (t & ->).
Qed.

Lemma lifecycle_vtxo_eq d d1 d2 : lifecycle_step d d1 -> db_vtxo d2 = db_vtxo d1 -> lifecycle_step d d2.
Proof. unfold lifecycle_step, ids_unique, op_state, find_operation. by intros H ->. Qed.

Lemma vtxo_call_lifecycle l l' : ids_unique (l_db l) -> vtxo_call l l' -> lifecycle_step (l_db l) (l_db l').
Proof.
  intros Hu [rec inputs cap r H|expected rec r H|rec cred count r H|now faults ok ->];
    [..|by apply lifecycle_refl].
  - destruct r as [[]|e]; [|apply reserve_rollback in H as ->; by apply lifecycle_refl].
    eapply lifecycle_reserve; [done| |by apply reserve_effect_Ok]. unfold ReserveVtxoOperation in H. inv_M.
    bool_hyps. done.
  - by eapply transition_lifecycle.
  - apply CommitSigned_cases in H as [->|(key & sealed & l1 & -> & _ & Hs & Hst & H1 & H2)];
      [by apply lifecycle_refl|].
    apply Seal_encoding in Hs as [Es _]. apply advance_vtxo_frame in H2.
    eapply lifecycle_vtxo_eq, H2. eapply lifecycle_update; [done|exact H1|]. intros x Hx.
    eapply valid_transition_update, Hx. rewrite Es. cbn. rewrite Hst. by vm_compute.
Qed.

(** ** Claims *)

(** C1: a successful reservation keeps the vault within its allowance: the
    amount charged in the resulting ledger (every workflow of the vault
    included) is defined and at most the cap, and it contains the amount and
    fee of the new payment when that was created within the last 24 hours. *)
Theorem reserve_within_allowance rec inputs cap created l l' :
  ids_unique (l_db l) -> is_int64 cap -> parse_rfc3339 (vo_CreatedAt rec) = Some created ->
  ReserveVtxoOperation rec inputs cap l = (l', Ok tt) ->
  exists total, spentInWindow l' (vo_VaultID rec) = Ok total /\ total <= cap /\
    (l_now l <= created + allowanceWindow -> vo_AmountSats rec + vo_FeeSats rec <= total).
Proof.
  intros Hu Hcap Hc H. assert (vo_State rec = vtxoStateReserved) as Hst.
  { unfold ReserveVtxoOperation in H. inv_M. bool_hyps. done. }
  apply reserve_effect_Ok in H as [key l1 l2 all t used sealed ins Hk El1 _ _ _ _ _ El2 _ Hs Hn Hle Hseal _ _ _ Ho];
    [|done].
  pose proof (verified_sealed _ _ _ Hseal) as Hver. apply Seal_encoding in Hseal as [Es _].
  apply observe_frame in Ho as (Hdb & _ & Hkey & _ & _ & Hnow).
  pose proof (spentInWindow_Ok _ _ _ Hs) as (? & ? & ? & ? & _ & _ & _ & _ & _ & _ & Hpos).
  unfold is_int64 in Hcap.
  assert (spentInWindow l' (vo_VaultID sealed) = Ok (used + op_charge (l_now l2) sealed)) as Hres.
  { eapply (spentInWindow_reserved l2 l' used key (t_input (db_vtxo (l_db l)) ++ ins));
      rewrite ?Es; cbn; subst l1 l2; try done; [by rewrite Hdb, <-Es|by rewrite <-Es|lia]. }
  rewrite Es in Hres at 1. exists (used + op_charge (l_now l2) sealed). split; [exact Hres|].
  apply addOutflow_Ok in Hn as (_ & ? & ? & _).
  assert (l_now l2 = l_now l) as -> by (by subst l1 l2).
  unfold op_charge. rewrite Es. cbn [vo_set_MAC vo_State vo_CreatedAt vo_AmountSats vo_FeeSats]. rewrite Hst, Hc.
  change (vtxoStateCountsTowardAllowance vtxoStateReserved) with true.
  change (vtxoStateAwaitingSettlement vtxoStateReserved) with false. cbn [andb orb].
  destruct (Z.ltb_spec (created + allowanceWindow) (l_now l)); cbn [negb]; split; lia.
Qed.

Definition demo_reserved_ledger : Ledger := fst (ReserveVtxoOperation demo_op [demo_input] 50000 demo_ledger).

Lemma reserve_within_allowance_witness :
  exists total, spentInWindow demo_reserved_ledger (str "vault-1") = Ok total /\ total <= 50000 /\ 20100 <= total.
Proof.
  destruct (reserve_within_allowance demo_op [demo_input] 50000 (1767225600 * second) demo_ledger demo_reserved_ledger)
    as (total & H1 & H2 & H3).
  - apply NoDup_nil. exact I.
  - unfold is_int64, max_int64. lia.
  - vm_compute. reflexivity.
  - vm_compute. reflexivity.
  - exists total. split; [exact H1|]. split; [exact H2|]. apply H3. vm_compute. discriminate.
Defined.

(** The state in which a payment owns its coins. *)
Record owns_coins (rec : VtxoOperation) (inputs : list VtxoOperationInput) (key : bytes) (d : Db) : Prop := {
  oc_row : exists row, find_operation d (vo_OperationID rec) = Some row /\
    VerifyVtxoOperation row key = Ok tt /\ row = vo_set_MAC (vo_IntegrityMAC row) rec;
  oc_alone : forall r, r ∈ t_operation (db_vtxo d) -> vo_VaultID r = vo_VaultID rec ->
    vo_OperationID r <> vo_OperationID rec -> vtxoStateBlocksNewOperation (vo_State r) = false;
  oc_coins : forall i o, i ∈ t_input (db_vtxo d) -> outpoint_matches inputs i = true ->
    find_operation d (vi_OperationID i) = Some o -> vo_OperationID o <> vo_OperationID rec ->
    vtxoStateLocksInputs (vo_State o) = false;
  oc_renewals : exists all, loadSpendingRenewals d key = Ok all /\
    forall id s, all !! id = Some s -> ro_VaultID (rs_Operation s) = vo_VaultID rec -> renewalTerminal s = true;
  oc_delegations : exists all, loadSpendingDelegations d key = Ok all /\
    forall id s, all !! id = Some s -> sd_VaultID (ds_Operation s) = vo_VaultID rec ->
      delegationTerminal s = false -> ds_Events s = ∅ /\ spends_input inputs s = false;
}.

Lemma find_new_row rows d ins t r :
  existsb (fun i => i == vo_OperationID r) (map vo_OperationID rows) = false ->
  find_operation (set_inputs ins (set_operations (rows ++ [r]) (set_delegation t d))) (vo_OperationID r) = Some r.
Proof.
  intros H. change (find_operation (set_operations (rows ++ [r]) d) (vo_OperationID r) = Some r).
  rewrite find_operation_snoc. destruct (find_operation (set_operations rows d) (vo_OperationID r)) as [o|] eqn:E.
  - apply find_operation_Some in E as [Hin Hid]. cbn in Hin.
    assert (vo_OperationID o ∈ map vo_OperationID rows) as Hx by (apply list_elem_of_fmap; eauto).
    apply (existsb_none _ _ _ H) in Hx. bool_hyps. done.
  - by rewrite bool_decide_eq_true_2.
Qed.

(** after a successful reservation the payment owns its coins: its sealed
    row is in the ledger, no other payment of the vault is unresolved, no
    other payment that locks coins holds one of its outpoints, no batch of the
    vault is live, and every live delegation of the vault is unclaimed and
    spends other coins. *)
Theorem reserve_owns_coins rec inputs cap l l' :
  ids_unique (l_db l) -> ReserveVtxoOperation rec inputs cap l = (l', Ok tt) ->
  exists key, integrityKeyCopy l = Ok key /\ owns_coins rec inputs key (l_db l').
Proof.
  intros Hu H. apply reserve_effect_Ok in H as
    [key l1 l2 all t used sealed ins Hk El1 Hov Hf Hr Hl Harm El2 Hre _ _ _ Hseal Hnew _ HF Ho]; [|done].
  exists key. split; [done|]. apply observe_frame in Ho as (-> & _). cbn [l_db set_db].
  destruct (Seal_Verify_op _ _ _ Hseal) as [Hv Es].
  assert (vo_OperationID sealed = vo_OperationID rec) as Eid by (by rewrite Es).
  rewrite has_operation_ids in Hnew. rewrite <-Eid in Hnew.
  rewrite El2. constructor.
  - exists sealed. split_and!; [|done..]. rewrite <-Eid. apply find_new_row. subst l1. cbn. by rewrite aborted_ids.
  - cbn. intros r Hin Ev Hne. apply elem_of_app in Hin as [Hin|Hin].
    + eapply rejectConcurrent_Ok; [exact Hf| |done]. apply list_elem_of_In, List.filter_In.
      rewrite <-list_elem_of_In. split; [done|]. by apply bool_decide_eq_true.
    + apply list_elem_of_singleton in Hin as ->. done.
  - cbn [db_vtxo set_inputs set_vtxo t_input]. intros i o Hi Hm Hfo Hne.
    change (find_operation (set_operations (t_operation (db_vtxo (l_db l1)) ++ [sealed]) (l_db l1))
              (vi_OperationID i) = Some o) in Hfo.
    rewrite find_operation_snoc, find_operation_id in Hfo.
    destruct (find_operation (l_db l1) (vi_OperationID i)) as [o'|] eqn:Eo.
    + injection Hfo as ->. apply elem_of_app in Hi as [Hi|Hi].
      * eapply (rejectOverlapping_Ok _ _ _ _ Hov i o); [|done..]. by subst l1.
      * apply find_operation_Some in Eo as [_ Eo]. destruct Hne. rewrite Eo.
        apply (Forall2_flip _ _ _) in HF. apply list_elem_of_lookup in Hi as (k & Hi).
        destruct (Forall2_lookup_l _ _ _ _ _ HF Hi) as (i0 & _ & Hs).
        apply Seal_Verify_input in Hs as [_ ->]. done.
    + case_bool_decide; [|done]. injection Hfo as <-. done.
  - apply rejectActiveRenewal_Ok in Hr as (key' & rs & Hk' & Hrs & Ht). exists rs. split; [|done].
    subst l1. change (integrityKeyCopy l = Ok key') in Hk'. rewrite Hk in Hk'. by apply Ok_inj in Hk' as <-.
  - subst l2. eexists. split; [exact Hre|]. intros id s. by apply invalidated_free.
Qed.

Lemma reserve_owns_coins_witness :
  exists key, integrityKeyCopy demo_ledger = Ok key /\ owns_coins demo_op [demo_input] key (l_db demo_reserved_ledger).
Proof.
  apply (reserve_owns_coins demo_op [demo_input] 50000 demo_ledger demo_reserved_ledger).
  - apply NoDup_nil. exact I.
  - vm_compute. reflexivity.
Defined.





(** ** Lifecycle claims *)
Definition transition_edge (a b : bytes) : Prop := validVtxoTransition a b = true.

Lemma valid_transition_cases a b :
  transition_edge a b ->
  (a = vtxoStateReserved /\ (b = vtxoStateSigned \/ b = vtxoStateAborted)) \/
  (a = vtxoStateSigned /\ b = vtxoStateSubmitted) \/
  (a = vtxoStateSubmitted /\ (b = vtxoStateFinalized \/ b = vtxoStateUnresolved)).
Proof.
  unfold transition_edge, validVtxoTransition.
  destruct (bool_decide_reflect (a = vtxoStateReserved)), (bool_decide_reflect (a = vtxoStateSigned)),
    (bool_decide_reflect (a = vtxoStateSubmitted));
    rewrite ?orb_true_iff, ?bool_decide_eq_true; naive_solver.
Qed.

Lemma lifecycle_rtc l l' :
  ids_unique (l_db l) -> rtc vtxo_call l l' ->
  ids_unique (l_db l') /\
  (forall id st, op_state (l_db l) id = Some st ->
     exists st', op_state (l_db l') id = Some st' /\ rtc transition_edge st st') /\
  (forall id st', op_state (l_db l) id = None -> op_state (l_db l') id = Some st' ->
     rtc transition_edge vtxoStateReserved st').
Proof.
  intros Hu H. induction H as [l|l l1 l' H1 H IH].
  { split_and!; [done| |congruence]. intros id st ->. eauto using rtc_refl. }
  apply vtxo_call_lifecycle in H1 as [Hu1 H1]; [|done]. destruct (IH Hu1) as (Hu' & IHs & IHn).
  split_and!; [done|..].
  - intros id st Est. specialize (H1 id). rewrite Est in H1. destruct H1 as (st1 & E1 & Hst).
    destruct (IHs _ _ E1) as (st' & E' & Hr). exists st'. split; [done|].
    destruct Hst as [<-|Hst]; [done|by eapply rtc_l].
  - intros id st' En Es. specialize (H1 id). rewrite En in H1. destruct H1 as [E1|E1]; [eauto|].
    destruct (IHs _ _ E1) as (st'' & E'' & Hr). congruence.
Qed.

Lemma terminal_stuck a b :
  transition_edge a b -> a <> vtxoStateFinalized /\ a <> vtxoStateAborted /\ a <> vtxoStateUnresolved.
Proof. intros H. apply valid_transition_cases in H as [[-> _]|[[-> _]|[-> _]]]; done. Qed.

Lemma rtc_signed a b :
  rtc transition_edge a b -> a = vtxoStateSigned \/ a = vtxoStateSubmitted \/ a = vtxoStateFinalized \/ a = vtxoStateUnresolved ->
  b = vtxoStateSigned \/ b = vtxoStateSubmitted \/ b = vtxoStateFinalized \/ b = vtxoStateUnresolved.
Proof.
  induction 1 as [|a c b H _ IH]; [done|]. intros Ha. apply IH.
  apply valid_transition_cases in H as [[-> _]|[[-> ->]|[-> [->| ->]]]]; try tauto.
  by destruct Ha as [Ha|[Ha|[Ha|Ha]]].
Qed.

Lemma rtc_terminal a b :
  rtc transition_edge a b -> a = vtxoStateFinalized \/ a = vtxoStateAborted \/ a = vtxoStateUnresolved -> b = a.
Proof. destruct 1 as [|a c b H _]; [done|]. apply terminal_stuck in H. naive_solver. Qed.

(** C3: however the Spending calls are interleaved and whichever of them fail,
    a payment first appears as reserved and moves only along the state graph
    (reserved to signed or aborted, signed to submitted, submitted to
    finalized or unresolved); a finalized, aborted or unresolved payment stays
    so, and a payment that has been signed is never aborted, hence never stops
    being charged by an abort.  Operation identifiers stay unique. *)
Theorem vtxo_lifecycle l l' :
  ids_unique (l_db l) -> rtc vtxo_call l l' ->
  ids_unique (l_db l') /\
  (forall id st', op_state (l_db l) id = None -> op_state (l_db l') id = Some st' ->
     rtc transition_edge vtxoStateReserved st') /\
  (forall id st, op_state (l_db l) id = Some st ->
     exists st', op_state (l_db l') id = Some st' /\ rtc transition_edge st st' /\
       (st = vtxoStateFinalized \/ st = vtxoStateAborted \/ st = vtxoStateUnresolved -> st' = st) /\
       (st = vtxoStateSigned -> vtxoStateCountsTowardAllowance st' = true)).
Proof.
  intros Hu H. apply lifecycle_rtc in H as (Hu' & Hs & Hn); [|done]. split_and!; [done..|].
  intros id st E. destruct (Hs id st E) as (st' & E' & Hr). exists st'. split_and!; [done|done| |].
  - by apply rtc_terminal.
  - intros ->. apply rtc_signed in Hr as [->|[->|[->| ->]]]; [by vm_compute..|by left].
Qed.

Lemma vtxo_lifecycle_witness :
  exists st', op_state (l_db demo_reserved_ledger) (vo_OperationID demo_op) = Some st' /\
    rtc transition_edge vtxoStateReserved st'.
Proof.
  exists vtxoStateReserved. split; [vm_compute; reflexivity|].
  apply (proj1 (proj2 (vtxo_lifecycle demo_ledger demo_reserved_ledger
    ltac:(apply NoDup_nil; exact I)
    ltac:(apply rtc_once; eapply (CallReserve _ _ demo_op [demo_input] 50000); vm_compute; reflexivity)))
    (vo_OperationID demo_op)); vm_compute; reflexivity.
Defined.

(** ** Signing *)
Lemma unique_find d r : ids_unique d -> r ∈ t_operation (db_vtxo d) -> find_operation d (vo_OperationID r) = Some r.
Proof.
  intros Hu Hr. destruct (find_operation d (vo_OperationID r)) as [o|] eqn:E.
  - apply find_operation_Some in E as [Ho Eo]. f_equal. by eapply unique_row.
  - unfold find_operation in E. apply list_elem_of_In, (List.find_none _ _ E) in Hr. bool_hyps. done.
Qed.

(** An update of one row replaces the row that was in the expected state. *)
Lemma update_one_Ok expected rec l l' :
  ids_unique (l_db l) -> updateVtxoOperation expected rec l = (l', Ok 1) ->
  op_state (l_db l) (vo_OperationID rec) = Some expected /\
  find_operation (l_db l') (vo_OperationID rec) = Some rec /\
  (forall id, id <> vo_OperationID rec -> find_operation (l_db l') id = find_operation (l_db l) id) /\
  l' = set_db (l_db l') l /\ db_tenant (l_db l') = db_tenant (l_db l).
Proof.
  intros Hu H. unfold updateVtxoOperation in H. set (sel := fun r => _ && _) in H.
  apply update_operations_Ok in H as [-> Hn].
  destruct (List.filter sel _) as [|x rest] eqn:Ef; [done|].
  assert (x ∈ t_operation (db_vtxo (l_db l)) /\ sel x = true) as [Hx Hsel].
  { rewrite list_elem_of_In. apply List.filter_In. rewrite Ef. by left. }
  pose proof (unique_find _ _ Hu Hx) as Hf.
  pose proof Hsel as Hsel'. unfold sel in Hsel'.
  rewrite !andb_true_split, !bool_decide_eq_true in Hsel'. destruct Hsel' as [[Hxi _] Hxs]. rewrite Hxi in Hf.
  assert (forall r, vo_OperationID (if sel r then rec else r) = vo_OperationID r) as Hid.
  { intros r. destruct (sel r) eqn:E; [|done]. unfold sel in E. bool_hyps. done. }
  split_and!; [unfold op_state; rewrite Hf; cbn; by f_equal| | |done|done]; cbn [l_db set_db].
  - rewrite find_operation_map, find_operation_id, Hf by done. cbn. by rewrite Hsel.
  - intros id Hne. rewrite find_operation_map, find_operation_id by done.
    destruct (find_operation (l_db l) id) as [r|] eqn:E; [|done]. cbn.
    apply find_operation_Some in E as [_ <-]. destruct (sel r) eqn:Es; [|done]. unfold sel in Es. bool_hyps. done.
Qed.

Lemma replay_counter rec cred n l l' cur :
  commit_signed_body rec cred n l = (l', Ok (cur, false)) -> vo_State cur = vtxoStateSigned ->
  stored_count l' (vo_VaultID rec) cred = Some n.
Proof.
  unfold commit_signed_body. intros H Hst. apply bind_Ok_M in H as (k & l1 & H1 & H).
  destruct (k =? 1); cbn [negb] in H.
  - inv_M. apply pair_equal_spec in H as [_ H]. done.
  - inv_M. apply pair_equal_spec in H as [-> _]. rewrite (bool_decide_eq_true_2 _ Hst) in E0. inv_M.
    unfold verifySignCountReplayLocked in E0. unfold stored_count.
    destruct (sign_count_row l1 _ cred) as [row|]; [|done]. unfold scan_uint32 in E0. inv_ok. bool_hyps. cbn. congruence.
Qed.

(** The signature transaction, in full. *)
Lemma transaction_if_false {A} (body : M (A * bool)) l l' a :
  transaction_if body l = (l', Ok (a, false)) ->
  l_db l' = l_db l /\ exists l1, body l = (l1, Ok (a, false)).
Proof.
  unfold transaction_if. destruct (body l) as [l1 [[b []]|e]]; [destruct (l_commit_ok l1)|..];
    intros H; apply pair_equal_spec in H as [<- H]; try done.
  apply Ok_inj, pair_equal_spec in H as [-> _]. eauto.
Qed.

Lemma update_sign_counts expected rec l l' n v c :
  updateVtxoOperation expected rec l = (l', Ok n) -> stored_count l' v c = stored_count l v c.
Proof. unfold updateVtxoOperation. intros H. apply update_operations_Ok in H as [-> _]. done. Qed.

Lemma CommitSigned_replay rec cred n l l' cur :
  CommitSignedVtxoOperation rec cred n l = (l', Ok (cur, false)) -> vo_State cur = vtxoStateSigned ->
  stored_count l (vo_VaultID rec) cred = Some n.
Proof.
  intros H Hst. unfold CommitSignedVtxoOperation in H. inv_M.
  apply transaction_if_false in H as (_ & l1 & H). pose proof H as Hb. apply replay_counter in H; [|done].
  apply Seal_encoding in E1 as [Es _].
  assert (vo_VaultID r0 = vo_VaultID rec) as Ev by (by rewrite Es). rewrite Ev in H. rewrite <-H.
  unfold commit_signed_body in Hb. apply bind_Ok_M in Hb as (k & l2 & H1 & Hb).
  rewrite <-(update_sign_counts _ _ _ _ _ _ _ H1). destruct (k =? 1); cbn [negb] in Hb.
  - inv_M. apply pair_equal_spec in Hb as [_ Hb]. done.
  - inv_M. destruct (vo_State r1 == vtxoStateSigned); by inv_M.
Qed.

(** signing a reserved payment is atomic with the passkey counter: the call
    either moves exactly that row from reserved to the sealed signed record
    and strictly advances the counter of that passkey, or changes no table; and
    when it reports an already signed payment, the presented counter is the
    one stored with it. *)
Theorem commit_signed_atomic rec cred n l l' r :
  ids_unique (l_db l) -> 0 <= n -> CommitSignedVtxoOperation rec cred n l = (l', r) ->
  (l_db l' = l_db l \/
   exists sealed key, r = Ok (sealed, true) /\ VerifyVtxoOperation sealed key = Ok tt /\
     sealed = vo_set_MAC (vo_IntegrityMAC sealed) rec /\ integrityKeyCopy l = Ok key /\
     op_state (l_db l) (vo_OperationID rec) = Some vtxoStateReserved /\
     find_operation (l_db l') (vo_OperationID rec) = Some sealed /\
     (forall id, id <> vo_OperationID rec -> find_operation (l_db l') id = find_operation (l_db l) id) /\
     match stored_count l (vo_VaultID rec) cred with
     | None => stored_count l' (vo_VaultID rec) cred = Some n
     | Some m => stored_count l' (vo_VaultID rec) cred = Some n /\ (m < n \/ m = n /\ n = 0)
     end) /\
  (forall cur, r = Ok (cur, false) -> vo_State cur = vtxoStateSigned ->
     stored_count l (vo_VaultID rec) cred = Some n).
Proof.
  intros Hu Hn H. split; [|intros cur -> Hs; by eapply CommitSigned_replay].
  apply CommitSigned_cases in H as [->|(key & sealed & l1 & -> & Hk & Hs & Hst & H1 & H2)]; [by left|right].
  destruct (Seal_Verify_op _ _ _ Hs) as [Hv Es]. exists sealed, key.
  pose proof (update_sign_counts _ _ _ _ _ (vo_VaultID sealed) cred H1) as Hc.
  assert (vo_OperationID sealed = vo_OperationID rec) as Eid by (by rewrite Es).
  assert (vo_VaultID sealed = vo_VaultID rec) as Ev by (by rewrite Es).
  apply update_one_Ok in H1 as (Hop & Hf & Hother & _ & _); [|done]. rewrite Eid in Hop, Hf, Hother.
  pose proof (advanceSignCountLocked_Ok _ _ _ _ _ Hn H2) as (Hadv & _ & Hvt).
  assert (forall id, find_operation (l_db l') id = find_operation (l_db l1) id) as Hsame
    by (intros id; unfold find_operation; by rewrite Hvt).
  rewrite Ev in Hadv, Hc. rewrite Hc in Hadv. split_and!; try done.
  - by rewrite Hsame.
  - intros id Hne. rewrite Hsame. by apply Hother.
  - destruct (stored_count l (vo_VaultID rec) cred) as [m|] eqn:Em; [|done].
    destruct Hadv as [_ [[Hlt Hs1]|(-> & -> & ->)]]; [by split; [|left]|].
    split; [by rewrite Hc|by right].
Qed.

Definition demo_commit := CommitSignedVtxoOperation demo_signed (str "cred") 9 demo_reserved_ledger.

Lemma commit_signed_atomic_witness :
  op_state (l_db demo_reserved_ledger) (vo_OperationID demo_op) = Some vtxoStateReserved /\
  op_state (l_db (fst demo_commit)) (vo_OperationID demo_op) = Some vtxoStateSigned.
Proof.
  assert (ids_unique (l_db demo_reserved_ledger)) as Hu.
  { apply NoDup_ListNoDup. vm_compute. constructor; [intros []|constructor]. }
  destruct (proj1 (commit_signed_atomic demo_signed (str "cred") 9 demo_reserved_ledger (fst demo_commit) (snd demo_commit)
    Hu ltac:(lia) (surjective_pairing demo_commit))) as [H|(sealed & key & H & _ & Es & _ & Hop & Hf & _)].
  - exfalso. apply (f_equal (fun d => op_state d (vo_OperationID demo_op))) in H. vm_compute in H. discriminate H.
  - split; [exact Hop|]. unfold op_state. change (vo_OperationID demo_op) with (vo_OperationID demo_signed).
    rewrite Hf. rewrite Es. reflexivity.
Defined.

(** ** Expiry *)
Lemma expiry_due_format v now exp r :
  four_digit_year (unix exp) -> four_digit_year (unix now) -> vo_ExpiresAt r = format_rfc3339 exp ->
  expiry_due v now r = (vo_VaultID r == v) && (vo_State r == vtxoStateReserved) && (unix exp * second <=? now).
Proof.
  intros He Hn Er. unfold expiry_due, expiry_candidate. rewrite Er, parse_format_rfc3339 by done.
  assert (format_rfc3339 exp <> []) as Hne.
  { unfold format_rfc3339. intros E. apply app_eq_nil in E as [_ E]. discriminate E. }
  rewrite (bool_decide_eq_false_2 _ Hne). unfold bytes_leb. rewrite format_rfc3339_order by done. cbn [negb].
  destruct (Z.leb_spec (unix exp * second) now) as [H|H]; rewrite ?andb_false_r; [|done].
  assert (unix now <? unix exp = false) as ->; [|by rewrite !andb_true_r].
  apply Z.ltb_ge. unfold unix, second in *. Z.div_mod_to_equations. lia.
Qed.

(** sweeping a vault aborts exactly the reserved payments whose expiry has
    been reached: for a row whose expiry the ledger wrote as an RFC 3339 UTC
    time, the textual comparison of the SQL filter and the comparison of
    instants agree; every other row keeps every field, and an aborted row is
    sealed again and still verifies. *)
Theorem expiry_sweep_exact v now exp r l l' :
  ids_unique (l_db l) -> abortExpiredVtxoLocked v now l = (l', Ok tt) ->
  r ∈ t_operation (db_vtxo (l_db l)) -> vo_ExpiresAt r = format_rfc3339 exp ->
  four_digit_year (unix exp) -> four_digit_year (unix now) ->
  exists key, integrityKeyCopy l = Ok key /\
    find_operation (l_db l') (vo_OperationID r) =
      Some (if (vo_VaultID r == v) && (vo_State r == vtxoStateReserved) && (unix exp * second <=? now)
            then aborted_image key r else r).
Proof.
  intros Hu H Hr Er He Hn. apply abortExpired_Ok in H as (key & Hk & ->); [|done]. exists key. split; [done|].
  cbn [l_db set_db]. rewrite find_operation_map, find_operation_id, (unique_find _ _ Hu Hr).
  - cbn. by rewrite (expiry_due_format v now exp).
  - intros x. by destruct (expiry_due v now x).
Qed.

Lemma expiry_sweep_exact_witness :
  op_state (l_db (fst (abortExpiredVtxoLocked (str "vault-1") (1767226200 * second) demo_reserved_ledger)))
    (vo_OperationID demo_op) = Some vtxoStateAborted.
Proof.
  assert (ids_unique (l_db demo_reserved_ledger)) as Hu.
  { apply NoDup_ListNoDup. vm_compute. constructor; [intros []|constructor]. }
  destruct (expiry_sweep_exact (str "vault-1") (1767226200 * second) (1767226200 * second) demo_sealed
    demo_reserved_ledger (fst (abortExpiredVtxoLocked (str "vault-1") (1767226200 * second) demo_reserved_ledger)) Hu)
    as (key & _ & H).
  - vm_compute. reflexivity.
  - apply list_elem_of_In. vm_compute. left. reflexivity.
  - vm_compute. reflexivity.
  - vm_compute. split; [discriminate|reflexivity].
  - vm_compute. split; [discriminate|reflexivity].
  - unfold op_state. change (vo_OperationID demo_op) with (vo_OperationID demo_sealed). rewrite H. reflexivity.
Defined.
