(* ===== verification/RenewalLedger.v ===== *)
(** The payment-batch transactions of [internal/policy/spending_renewal.go]:
    [ReserveSpendingRenewal] and [AppendSpendingRenewalEvent], and their
    refinement of the step relation of [Renewal]. *)
From Stdlib Require Import Strings.Byte.
From S2P Require Import Prelude Sha256 Text GoTime Json Vtxo Monotonic Tenant Renewal Delegation Store Journal VtxoLedger.

#[local] Arguments hmac_sha256 : simpl never.

(** ** Operations *)
Definition renewal_row (key : bytes) (r : SpendingRenewalOperation) : JournalOp :=
  {| jo_operation_id := ro_OperationID r; jo_vault_id := ro_VaultID r; jo_payload := marshal_renewal r;
     jo_mac := renewalMAC key renewal_operation_domain (marshal_renewal r) |}.

Definition renewal_event_row (key : bytes) (e : SpendingRenewalEvent) : JournalEvent :=
  {| je_operation_id := re_OperationID e; je_phase := re_Phase e; je_payload := marshal_renewal_event e;
     je_mac := renewalMAC key renewal_event_domain (marshal_renewal_event e) |}.

(** The branch for an operation id that is not in the journal. *)
Definition reserve_new_renewal (key : bytes) (all : gmap bytes SpendingRenewalSnapshot)
  (r : SpendingRenewalOperation) (allowance : Z) : M SpendingRenewalSnapshot :=
  _ ← lift (validateSpendingRenewalOperation r);
  _ ← lift (each (fun kv => fail_if ((ro_VaultID (rs_Operation (snd kv)) == ro_VaultID r) && negb (renewalTerminal (snd kv)))
                              ErrVtxoOperationActive) (map_to_list all));
  _ ← query (fun l => rejectConcurrentVtxoOperationLocked l (ro_VaultID r) []);
  _ ← query (fun l => rejectDispatchedDelegation l (ro_VaultID r));
  used ← query (fun l => spentInWindow l (ro_VaultID r));
  _ ← guard_M ((allowance <? 0) || (allowance <? used) || (allowance - used <? ro_FeeSats r + ro_AmountSats r))
        ErrPeriodAllowanceExceeded;
  _ ← insert_renewal_op (renewal_row key r);
  mret (Build_SpendingRenewalSnapshot r ∅).

Definition ReserveSpendingRenewal (r : SpendingRenewalOperation) (allowance : Z) : M SpendingRenewalSnapshot :=
  now ← query (fun l => Ok (NowUTC l));
  let r := ro_set_CreatedAt (format_rfc3339 now) r in
  withSpendingRenewalTx (fun key =>
    all ← query (fun l => loadSpendingRenewals (l_db l) key);
    match all !! ro_OperationID r with
    | Some prior =>
        _ ← guard_M (ro_set_CreatedAt (ro_CreatedAt (rs_Operation prior)) r != rs_Operation prior)
              (ErrMsg "Light renewal reservation changed");
        mret prior
    | None => reserve_new_renewal key all r allowance
    end).

(** The branch for a phase that is not recorded yet. *)
Definition append_new_event (key : bytes) (s : SpendingRenewalSnapshot) (e : SpendingRenewalEvent)
  (credentialID : bytes) (signCount : Z) : M (SpendingRenewalEvent * bool) :=
  now ← query (fun l => Ok (NowUTC l));
  _ ← lift (validateRenewalTransition s e now);
  _ ← (if re_Phase e == str "register_authorized" then
         _ ← guard_M (blen credentialID =? 0) (ErrMsg "Light renewal passkey required");
         advanceSignCountLocked (ro_VaultID (rs_Operation s)) credentialID signCount
       else guard_M (negb (blen credentialID =? 0) || negb (signCount =? 0))
              (ErrMsg "unexpected Light renewal credential mutation"));
  _ ← insert_renewal_event (renewal_event_row key e);
  mret (e, true).

Definition AppendSpendingRenewalEvent (e : SpendingRenewalEvent) (credentialID : bytes) (signCount : Z)
  : M (SpendingRenewalEvent * bool) :=
  now ← query (fun l => Ok (NowUTC l));
  let e := re_set_CreatedAt (format_rfc3339 now) e in
  _ ← lift (validateSpendingRenewalEvent e);
  withSpendingRenewalTx (fun key =>
    all ← query (fun l => loadSpendingRenewals (l_db l) key);
    match all !! re_OperationID e with
    | None => lift (Err (ErrMsg "Light renewal reservation not found"))
    | Some s =>
        match rs_Events s !! re_Phase e with
        | Some old =>
            _ ← guard_M (re_set_CreatedAt (re_CreatedAt old) e != old) (ErrMsg "Light renewal phase changed");
            _ ← (if re_Phase e == str "register_authorized"
                 then query (verifySignCountReplayLocked (ro_VaultID (rs_Operation s)) credentialID signCount)
                 else mret tt);
            mret (old, false)
        | None => append_new_event key s e credentialID signCount
        end
    end).

(** ** Lemmas *)
Lemma insert_renewal_op_Ok row l l' :
  insert_renewal_op row l = (l', Ok tt) ->
  text_length (jo_payload row) <= 16384 /\ has_vault (l_db l) (jo_vault_id row) = true /\
  (~ exists r, r ∈ t_jop (db_renewal (l_db l)) /\ jo_operation_id r = jo_operation_id row) /\
  l' = set_db (set_renewal (Build_JournalTables (t_jop (db_renewal (l_db l)) ++ [row])
                              (t_jevent (db_renewal (l_db l)))) (l_db l)) l.
Proof.
  unfold insert_renewal_op. intros H. inv_M. apply Ok_inj in E as <-. apply negb_false_iff in E0.
  unfold check_op_row in E0. rewrite !andb_true_split in E0. destruct E0 as [[[[Hn Hv] _] Hlen] _].
  split_and!; [lia|done| |done]. intros (r & Hr & E). apply negb_true_iff in Hn.
  apply (existsb_none _ _ _ Hn) in Hr. bool_hyps. done.
Qed.

Lemma insert_renewal_event_Ok row l l' :
  insert_renewal_event row l = (l', Ok tt) ->
  text_length (je_payload row) <= 1048576 /\
  l' = set_db (set_renewal (Build_JournalTables (t_jop (db_renewal (l_db l)))
                              (t_jevent (db_renewal (l_db l)) ++ [row])) (l_db l)) l.
Proof.
  unfold insert_renewal_event. intros H. inv_M. apply Ok_inj in E as <-. apply negb_false_iff in E0.
  unfold check_event_row in E0. rewrite !andb_true_split in E0. destruct E0 as [[[[_ _] Hlen] _] _].
  split_and!; [lia|done].
Qed.

Lemma withTx_Ok {A} (f : bytes -> M A) l l' a :
  withSpendingRenewalTx f l = (l', Ok a) ->
  exists key l1, integrityKeyCopy l = Ok key /\ f key l = (l1, Ok a) /\
    observeEconomicOutflowsLocked l1 = (l', Ok tt) /\ l_commit_ok l' = true.
Proof.
  unfold withSpendingRenewalTx. intros H. read_step H key Hk. apply transaction_Ok in H as [H Hc].
  apply bind_Ok_M in H as (x & l1 & Hf & H). write_step H l2 Ho. inv_M. subst x. exists key, l1. done.
Qed.

(** Any failure of such a transaction leaves the tables alone. *)
Lemma withTx_Err {A} (f : bytes -> M A) l l' e :
  withSpendingRenewalTx f l = (l', Err e) -> l_db l' = l_db l.
Proof.
  unfold withSpendingRenewalTx. intros H. apply read_bind_inv in H as [(key & _ & H)|[-> _]]; [|done].
  by eapply transaction_Err.
Qed.

Lemma ro_encodable_created t r : ascii t -> ro_encodable r -> ro_encodable (ro_set_CreatedAt t r).
Proof.
  intros Ht (Hs & H). split; [|exact H]. cbn.
  repeat (apply Forall_cons in Hs as [? Hs]). repeat constructor; eauto with guardian.
Qed.

Lemma re_encodable_created t e : ascii t -> re_encodable e -> re_encodable (re_set_CreatedAt t e).
Proof.
  intros Ht Hs. unfold re_encodable in *. cbn.
  repeat (apply Forall_cons in Hs as [? Hs]). repeat constructor; eauto with guardian.
Qed.

(** Records whose row reads back: valid UTF-8 text, and a row within the size
    the loader accepts.  The schema bounds the row in characters and the loader
    in bytes, so a row of multi-byte text can pass the one and not the other. *)
Definition renewal_storable (now : Z) (r : SpendingRenewalOperation) : Prop :=
  ro_encodable r /\ blen (marshal_renewal (ro_set_CreatedAt (format_rfc3339 now) r)) <= 16384.
Definition event_storable (now : Z) (e : SpendingRenewalEvent) : Prop :=
  re_encodable e /\ blen (marshal_renewal_event (re_set_CreatedAt (format_rfc3339 now) e)) <= 1048576.

(** ** One call refines at most one step of the abstract journal *)
Inductive journal_effect (all all' : gmap bytes SpendingRenewalSnapshot) : Prop :=
  | JournalSame : all' = all -> journal_effect all all'
  | JournalOpen r : all !! ro_OperationID r = None -> validateSpendingRenewalOperation r = Ok tt ->
      (forall id s, all !! id = Some s -> ro_VaultID (rs_Operation s) = ro_VaultID r -> renewalTerminal s = true) ->
      all' = <[ro_OperationID r := Build_SpendingRenewalSnapshot r ∅]> all -> journal_effect all all'
  | JournalStep id s s' : all !! id = Some s -> renewal_step s s' -> all' = <[id := s']> all ->
      journal_effect all all'.

(** A successful reservation: an exact retry, or a new operation. *)
Lemma reserve_renewal_Ok r allowance key all l l' res :
  renewal_storable (l_now l) r -> integrityKeyCopy l = Ok key -> loadSpendingRenewals (l_db l) key = Ok all ->
  ReserveSpendingRenewal r allowance l = (l', Ok res) ->
  let r' := ro_set_CreatedAt (format_rfc3339 (l_now l)) r in
  (l_db l' = l_db l /\ all !! ro_OperationID r = Some res /\
   rs_Operation res = ro_set_CreatedAt (ro_CreatedAt (rs_Operation res)) r) \/
  exists used, res = Build_SpendingRenewalSnapshot r' ∅ /\ all !! ro_OperationID r = None /\
    validateSpendingRenewalOperation r' = Ok tt /\
    (forall id s, all !! id = Some s -> ro_VaultID (rs_Operation s) = ro_VaultID r -> renewalTerminal s = true) /\
    rejectConcurrentVtxoOperationLocked l (ro_VaultID r) [] = Ok tt /\
    rejectDispatchedDelegation l (ro_VaultID r) = Ok tt /\
    spentInWindow l (ro_VaultID r) = Ok used /\ used + (ro_FeeSats r + ro_AmountSats r) <= allowance /\
    l_db l' = set_renewal (Build_JournalTables (t_jop (db_renewal (l_db l)) ++ [renewal_row key r'])
                (t_jevent (db_renewal (l_db l)))) (l_db l) /\
    loadSpendingRenewals (l_db l') key = Ok (<[ro_OperationID r := Build_SpendingRenewalSnapshot r' ∅]> all) /\
    l_now l' = l_now l /\ l_integrityKey l' = l_integrityKey l.
Proof.
  intros Henc Hk Hl H r'. unfold ReserveSpendingRenewal in H. read_step H now Hn. apply Ok_inj in Hn as <-.
  fold (l_now l) in H. change (NowUTC l) with (l_now l) in H. fold r' in H.
  apply withTx_Ok in H as (key' & l1 & Hk' & H & Ho & _). rewrite Hk in Hk'. apply Ok_inj in Hk' as <-.
  apply observe_frame in Ho as (Hdb & _ & Hkey & _ & _ & Hnow).
  read_step H all' Hall. rewrite Hl in Hall. apply Ok_inj in Hall as <-.
  change (ro_OperationID r') with (ro_OperationID r) in H.
  destruct (all !! ro_OperationID r) as [prior|] eqn:Ep.
  - left. inv_M. subst prior. bool_hyps. split_and!; [done|done|]. symmetry. done.
  - right. unfold reserve_new_renewal in H. read_step H u1 Hv. read_step H u2 He. read_step H u3 Hc.
    read_step H u4 Hd. read_step H used Hs. read_step H u5 Hg. write_step H l2 Hi. inv_M. destruct u1, u3, u4.
    exists used. apply insert_renewal_op_Ok in Hi as (Hlen & _ & Hnew & ->).
    assert (loadSpendingRenewals (l_db l') key = Ok (<[ro_OperationID r := Build_SpendingRenewalSnapshot r' ∅]> all)).
    { rewrite Hdb. cbn [l_db set_db].
      apply (load_renewal_op_append (l_db l) key all r'); [done|done|done| |by apply Henc].
      destruct Henc as [Henc _]. apply unmarshal_marshal_renewal, ro_encodable_created; eauto with guardian. }
    assert (ro_FeeSats r' = ro_FeeSats r /\ ro_AmountSats r' = ro_AmountSats r) as [Ef Ea] by done.
    bool_hyps. split_and!; try done; [|lia].
    intros id s Hin Hvid. apply each_Ok in He. rewrite Forall_forall in He. specialize (He (id, s)).
    rewrite elem_of_map_to_list in He. specialize (He Hin). apply fail_if_Ok in He. cbn [snd] in He.
    rewrite (bool_decide_eq_true_2 _ Hvid) in He. by destruct (renewalTerminal s).
Qed.

Lemma append_event_Ok e cred n key all l l' res created :
  event_storable (l_now l) e -> integrityKeyCopy l = Ok key -> loadSpendingRenewals (l_db l) key = Ok all ->
  AppendSpendingRenewalEvent e cred n l = (l', Ok (res, created)) ->
  let e' := re_set_CreatedAt (format_rfc3339 (l_now l)) e in
  exists s, all !! re_OperationID e = Some s /\
    l_integrityKey l' = l_integrityKey l /\
    ((created = false /\ l_db l' = l_db l /\ rs_Events s !! re_Phase e = Some res) \/
     (created = true /\ res = e' /\ rs_Events s !! re_Phase e = None /\
      validateSpendingRenewalEvent e' = Ok tt /\ validateRenewalTransition s e' (l_now l) = Ok tt /\
      loadSpendingRenewals (l_db l') key = Ok (<[re_OperationID e := add_renewal_event s e']> all) /\
      db_vtxo (l_db l') = db_vtxo (l_db l) /\ db_delegation (l_db l') = db_delegation (l_db l) /\
      (re_Phase e = str "register_authorized" ->
       exists l1, advanceSignCountLocked (ro_VaultID (rs_Operation s)) cred n l = (l1, Ok tt) /\
                  db_tenant (l_db l') = db_tenant (l_db l1)) /\
      (re_Phase e <> str "register_authorized" -> db_tenant (l_db l') = db_tenant (l_db l)))).
Proof.
  intros Henc Hk Hl H e'. unfold AppendSpendingRenewalEvent in H. read_step H now Hn. apply Ok_inj in Hn as <-.
  change (NowUTC l) with (l_now l) in H. fold e' in H. read_step H u Hv. destruct u.
  apply withTx_Ok in H as (key' & l1 & Hk' & H & Ho & _). rewrite Hk in Hk'. apply Ok_inj in Hk' as <-.
  apply observe_frame in Ho as (Hdb & _ & Hkey & _ & _ & Hnow).
  read_step H all' Hall. rewrite Hl in Hall. apply Ok_inj in Hall as <-.
  change (re_OperationID e') with (re_OperationID e) in H. change (re_Phase e') with (re_Phase e) in H.
  destruct (all !! re_OperationID e) as [s|] eqn:Es; [|by inv_M]. exists s.
  destruct (rs_Events s !! re_Phase e) as [old|] eqn:Ee.
  - read_step H u Hg. apply bind_Ok_M in H as ([] & l2 & Hr & H). inv_M. apply pair_equal_spec in H as [-> ->].
    assert (l2 = l) as -> by (destruct (re_Phase e == str "register_authorized"); by inv_M). split_and!; [done|done|]. by left.
  - unfold append_new_event in H. read_step H now' Hn'. apply Ok_inj in Hn' as <-. change (NowUTC l) with (l_now l) in H.
    read_step H u Ht. destruct u. write_step H l2 Hc. write_step H l3 Hi. inv_M. apply pair_equal_spec in H as [-> ->].
    apply insert_renewal_event_Ok in Hi as [Hlen ->].
    assert (exists t, l2 = set_db (set_tenant t (l_db l)) l /\
      (re_Phase e = str "register_authorized" -> advanceSignCountLocked (ro_VaultID (rs_Operation s)) cred n l = (l2, Ok tt)) /\
      (re_Phase e <> str "register_authorized" -> t = db_tenant (l_db l))) as (t & -> & Hadv & Hsame).
    { change (re_Phase e') with (re_Phase e) in Hc. case_bool_decide as Ep.
      - read_step Hc u Hg. apply advance_frame in Hc as Hf. destruct Hf as (t & ->). exists t. done.
      - inv_M. exists (db_tenant (l_db l)). split_and!; [by destruct l as [[] ? ? ? ? ? ? ?]|done|done]. }
    split_and!; [done|done|]. right. split_and!; try done.
    + rewrite Hdb. cbn [l_db set_db]. apply (load_renewal_event_append (set_tenant t (l_db l)) key all s e'); try done; [|by apply Henc].
      destruct Henc as [Henc _]. apply unmarshal_marshal_renewal_event, re_encodable_created; eauto with guardian.
    + by rewrite Hdb.
    + by rewrite Hdb.
    + intros Hp. eexists. split; [by apply Hadv|]. by rewrite Hdb.
    + intros Hp. rewrite Hdb. cbn. by apply Hsame.
Qed.

(** A call can only succeed on a ledger whose journal loads. *)
Lemma reserve_renewal_loads r allowance l l' res :
  ReserveSpendingRenewal r allowance l = (l', Ok res) ->
  exists key all, integrityKeyCopy l = Ok key /\ loadSpendingRenewals (l_db l) key = Ok all.
Proof.
  unfold ReserveSpendingRenewal. intros H. read_step H now Hn.
  apply withTx_Ok in H as (key & l1 & Hk & H & _). read_step H m Hl. eauto.
Qed.

Lemma fresh_charge v now id r :
  ro_VaultID r = v ->
  renewal_charge v now (id, Build_SpendingRenewalSnapshot r ∅) = ro_FeeSats r + ro_AmountSats r.
Proof. intros E. unfold renewal_charge. cbn [snd rs_Operation]. by rewrite (bool_decide_eq_true_2 _ E). Qed.

Lemma rejectDispatched_Ok l v u :
  rejectDispatchedDelegation l v = Ok u ->
  exists key all, integrityKeyCopy l = Ok key /\ loadSpendingDelegations (l_db l) key = Ok all /\
    forall id s, all !! id = Some s -> sd_VaultID (ds_Operation s) = v -> delegationTerminal s = false ->
      ds_Events s = ∅.
Proof.
  unfold rejectDispatchedDelegation. intros H. inv_ok. eexists _, _. split_and!; [done..|].
  intros id s Hs Hv Ht. apply each_Ok in H. rewrite Forall_forall in H.
  specialize (H (id, s)). rewrite elem_of_map_to_list in H. specialize (H Hs). cbn [snd] in H.
  apply fail_if_Ok in H. rewrite (bool_decide_eq_true_2 _ Hv), Ht in H. cbn [andb negb] in H.
  rewrite andb_true_r in H. by bool_hyps.
Qed.

(** ** Claims *)

(** reserving a payment batch either finds the identical reservation of an
    earlier call and changes nothing, or opens a new journal while the vault
    has no unresolved payment, no live batch and no claimed delegation, and
    leaves the total charged to the vault, which now contains the batch's
    amount and fee, within the allowance. *)
Theorem renewal_reserve_within_allowance r allowance l l' res :
  renewal_storable (l_now l) r -> is_int64 allowance -> ReserveSpendingRenewal r allowance l = (l', Ok res) ->
  (l_db l' = l_db l /\ rs_Operation res = ro_set_CreatedAt (ro_CreatedAt (rs_Operation res)) r) \/
  (res = Build_SpendingRenewalSnapshot (ro_set_CreatedAt (format_rfc3339 (l_now l)) r) ∅ /\
   (exists total, spentInWindow l' (ro_VaultID r) = Ok total /\ ro_AmountSats r + ro_FeeSats r <= total <= allowance) /\
   (forall o, o ∈ vault_operations (l_db l') (ro_VaultID r) -> vo_OperationID o <> [] ->
      vtxoStateBlocksNewOperation (vo_State o) = false) /\
   (exists key ds, loadSpendingDelegations (l_db l') key = Ok ds /\
      forall id s, ds !! id = Some s -> sd_VaultID (ds_Operation s) = ro_VaultID r ->
        delegationTerminal s = false -> ds_Events s = ∅)).
Proof.
  intros Henc Hmax H. destruct (reserve_renewal_loads _ _ _ _ _ H) as (key & all & Hk & Hl).
  eapply reserve_renewal_Ok in H as [(Hdb & _ & Hop)|(used & Hres & Hn & Hv & _ & Hc & Hd & Hs & Hle & Hdb & Hload & Hnow & Hkey)];
    [by left|right|done..].
  split_and!; [done|..].
  - apply spentInWindow_Ok in Hs as (key' & rs & ds & ops & Hk' & Hrs & Hds & Hops & _ & -> & Hpos).
    rewrite Hk in Hk'. apply Ok_inj in Hk' as <-. rewrite Hl in Hrs. apply Ok_inj in Hrs as <-.
    destruct (renewals_total l (ro_VaultID r) _ _ Hl) as [Hr0 _].
    destruct (delegations_total l (ro_VaultID r) _ _ Hds) as [Hd0 _].
    assert (sumZ (renewal_charge (ro_VaultID r) (l_now l'))
      (map_to_list (<[ro_OperationID r := Build_SpendingRenewalSnapshot (ro_set_CreatedAt (format_rfc3339 (l_now l)) r) ∅]> all))
      = ro_FeeSats r + ro_AmountSats r + sumZ (renewal_charge (ro_VaultID r) (l_now l)) (map_to_list all)) as Hsum.
    { rewrite map_to_list_insert by done. cbn [sumZ foldr]. rewrite fresh_charge by done. by rewrite Hnow. }
    unfold is_int64 in Hmax. eexists. split.
    + eapply (spentInWindow_total l' (ro_VaultID r) key ops _ ds); try done; [..|lia|].
      * unfold integrityKeyCopy in *. by rewrite Hkey.
      * rewrite Hdb, Hnow. exact Hops.
      * rewrite Hdb. exact Hds.
      * rewrite Hsum, Hnow. lia.
    + rewrite Hsum, Hnow. lia.
  - intros o Ho Hne. eapply (rejectConcurrent_Ok _ _ _ _ Hc); [|done]. by rewrite Hdb in Ho.
  - apply rejectDispatched_Ok in Hd as (key' & ds & _ & Hds & Harm). exists key', ds. rewrite Hdb. done.
Qed.

Definition demo_batch_ledger : Ledger := fst (ReserveSpendingRenewal demo_renewal 50000 demo_ledger).

Lemma renewal_reserve_within_allowance_witness :
  exists total, spentInWindow demo_batch_ledger (str "vault-1") = Ok total /\ 10200 <= total <= 50000.
Proof.
  destruct (renewal_reserve_within_allowance demo_renewal 50000 demo_ledger
    demo_batch_ledger
    (Build_SpendingRenewalSnapshot (ro_set_CreatedAt (format_rfc3339 (l_now demo_ledger)) demo_renewal) ∅))
    as [[H _]|(_ & H & _)].
  - split; [repeat constructor|]; vm_compute; congruence.
  - vm_compute. split; discriminate.
  - vm_compute. reflexivity.
  - exfalso. apply (f_equal (fun d => length (t_jop (db_renewal d)))) in H. vm_compute in H. discriminate H.
  - exact H.
Defined.

(** The calls that write the journal, and the passing of time between calls.  A
    call that fails may have any input; the row of one that succeeds reads back. *)
Inductive renewal_call (l l' : Ledger) : Prop :=
  | CallReserveRenewal r allowance res :
      (is_ok res = true -> renewal_storable (l_now l) r) -> ReserveSpendingRenewal r allowance l = (l', res) -> renewal_call l l'
  | CallAppendEvent e cred n res :
      (is_ok res = true -> event_storable (l_now l) e) -> AppendSpendingRenewalEvent e cred n l = (l', res) -> renewal_call l l'
  | CallRenewalEnv now faults ok : l' = set_env now faults ok l -> renewal_call l l'.

Lemma stable_reserve_renewal r allowance : stable (ReserveSpendingRenewal r allowance).
Proof. unfold ReserveSpendingRenewal. solve_stable. Qed.

Lemma stable_append e cred n : stable (AppendSpendingRenewalEvent e cred n).
Proof. unfold AppendSpendingRenewalEvent. solve_stable. Qed.

Lemma same_config_key l l' key : same_config l l' -> integrityKeyCopy l = Ok key -> integrityKeyCopy l' = Ok key.
Proof. unfold integrityKeyCopy. by intros [-> _]. Qed.

Lemma renewal_call_effect key all l l' :
  integrityKeyCopy l = Ok key -> loadSpendingRenewals (l_db l) key = Ok all -> renewal_call l l' ->
  integrityKeyCopy l' = Ok key /\ exists all', loadSpendingRenewals (l_db l') key = Ok all' /\ journal_effect all all'.
Proof.
  intros Hk Hl [r allowance res Henc H|e cred n res Henc H|now faults ok ->];
    [..|by eauto using JournalSame].
  - split. { eapply same_config_key, Hk. pose proof (stable_reserve_renewal r allowance l) as Hs. by rewrite H in Hs. }
    destruct res as [res|err].
    + specialize (Henc eq_refl). eapply reserve_renewal_Ok in H as [(-> & _)|(used & _ & Hn & Hv & Hlive & _ & _ & _ & _ & _ & Hload & _)];
        [by eauto using JournalSame| |done..].
      eexists. split; [exact Hload|].
      eapply (JournalOpen _ _ (ro_set_CreatedAt (format_rfc3339 (l_now l)) r)); done.
    + assert (l_db l' = l_db l) as ->; [|eauto using JournalSame]. unfold ReserveSpendingRenewal in H.
      apply read_bind_inv in H as [(now & _ & H)|[-> _]]; [|done]. by apply withTx_Err in H.
  - split. { eapply same_config_key, Hk. pose proof (stable_append e cred n l) as Hs. by rewrite H in Hs. }
    destruct res as [[res created]|err].
    + specialize (Henc eq_refl). eapply append_event_Ok in H as (s & Hs & _ & [(_ & -> & _)|(_ & _ & Hn & Hv & Ht & Hload & _)]);
        [by eauto using JournalSame| |done..].
      eexists. split; [exact Hload|]. eapply JournalStep; [exact Hs| |done].
      eapply RenewalStep; [exact Hn| |done|exact Ht]. destruct (renewals_loaded _ _ _ Hl _ _ Hs). done.
    + assert (l_db l' = l_db l) as ->; [|eauto using JournalSame]. unfold AppendSpendingRenewalEvent in H.
      apply read_bind_inv in H as [(now & _ & H)|[-> _]]; [|done].
      apply lift_bind_inv in H as [(u & _ & H)|[-> _]]; [|done]. by apply withTx_Err in H.
Qed.

(** The journal of every operation is one the step relation reaches. *)
Definition journal_refines (key : bytes) (l : Ledger) : Prop :=
  integrityKeyCopy l = Ok key /\ exists all, loadSpendingRenewals (l_db l) key = Ok all /\
    forall id s, all !! id = Some s -> renewal_reachable (rs_Operation s) s.

Lemma journal_effect_reachable all all' :
  (forall id s, all !! id = Some s -> renewal_reachable (rs_Operation s) s) -> journal_effect all all' ->
  forall id s, all' !! id = Some s -> renewal_reachable (rs_Operation s) s.
Proof.
  intros Hr [->|r Hn _ _ ->|id0 s0 s0' Hs0 Hstep ->] id s; [apply Hr|..].
  - destruct (decide (ro_OperationID r = id)) as [<-|Hne].
    + rewrite lookup_insert_eq. intros [= <-]. constructor.
    + rewrite lookup_insert_ne by done. apply Hr.
  - destruct (decide (id0 = id)) as [<-|Hne].
    + rewrite lookup_insert_eq. intros [= <-].
      assert (rs_Operation s0' = rs_Operation s0) as -> by (by destruct Hstep). eapply RenewalNext; eauto.
    + rewrite lookup_insert_ne by done. apply Hr.
Qed.

(** C8: as long as every row that is accepted reads back, the ledger refines the
    abstract journal: for any sequence of reservations and events, refused and
    failing ones included, the journal keeps loading and each operation's journal
    is one the transition rules can produce; so a dispatched payment is never also
    being deleted and no journal has two outcomes.  A row reads back when its texts
    are valid UTF-8 and it has at most 16384 bytes, an event 1048576
    ([renewal_storable], [event_storable]); the code does not enforce this, and the
    condition is needed: [invalid_utf8_plan_blocks_journal] and
    [wide_plan_blocks_journal] are accepted rows that do not read back, after which
    the journal no longer loads. *)
Theorem renewal_ledger_refines key l l' :
  journal_refines key l -> rtc renewal_call l l' ->
  journal_refines key l' /\
  forall all id s, loadSpendingRenewals (l_db l') key = Ok all -> all !! id = Some s ->
    (revents s "final_dispatched" = None \/ revents s "delete_authorized" = None) /\ renewal_outcomes s <= 1.
Proof.
  intros Hr H. assert (journal_refines key l') as Hr'.
  { induction H as [|l l1 l' H1 _ IH]; [done|]. apply IH. destruct Hr as (Hk & all & Hl & Hr).
    destruct (renewal_call_effect _ _ _ _ Hk Hl H1) as (Hk1 & all' & Hl1 & He). split; [done|].
    exists all'. split; [done|]. by eapply journal_effect_reachable. }
  split; [done|]. intros all id s Hl Hs. destruct Hr' as (_ & all' & Hl' & Hr').
  rewrite Hl in Hl'. apply Ok_inj in Hl' as <-. specialize (Hr' _ _ Hs). split.
  - by destruct (renewal_reachable_inv _ _ Hr').
  - destruct Hr' as [|s0 s1 _ Hs1]; [by vm_compute|]. by eapply outcomes_step.
Qed.

Lemma renewal_ledger_refines_witness : journal_refines demo_vault_key demo_batch_ledger.
Proof.
  apply (renewal_ledger_refines demo_vault_key demo_ledger demo_batch_ledger).
  - split; [vm_compute; reflexivity|]. exists ∅. split; [vm_compute; reflexivity|]. intros id s H.
    rewrite lookup_empty in H. discriminate H.
  - apply rtc_once. eapply (CallReserveRenewal _ _ demo_renewal 50000).
    + intros _. split; [repeat constructor|]; vm_compute; congruence.
    + apply surjective_pairing.
Defined.

(** authorising a registration consumes a passkey assertion exactly once:
    a new [register_authorized] event is recorded together with a strictly
    advanced passkey counter, every other event leaves the counters alone, a
    repeated submission of a recorded event changes nothing, and a call that
    fails changes nothing. *)
Theorem renewal_append_counter e cred n l l' r :
  event_storable (l_now l) e -> 0 <= n -> AppendSpendingRenewalEvent e cred n l = (l', r) ->
  (l_db l' = l_db l /\ forall res, r <> Ok (res, true)) \/
  (r = Ok (re_set_CreatedAt (format_rfc3339 (l_now l)) e, true) /\
   exists s key all, integrityKeyCopy l = Ok key /\ loadSpendingRenewals (l_db l) key = Ok all /\
     all !! re_OperationID e = Some s /\ rs_Events s !! re_Phase e = None /\
     (re_Phase e = str "register_authorized" ->
      match stored_count l (ro_VaultID (rs_Operation s)) cred with
      | None => stored_count l' (ro_VaultID (rs_Operation s)) cred = Some n
      | Some m => stored_count l' (ro_VaultID (rs_Operation s)) cred = Some n /\ (m < n \/ m = n /\ n = 0)
      end) /\
     (re_Phase e <> str "register_authorized" -> db_tenant (l_db l') = db_tenant (l_db l))).
Proof.
  intros Henc Hn H. destruct r as [[res created]|err].
  - assert (exists key all, integrityKeyCopy l = Ok key /\ loadSpendingRenewals (l_db l) key = Ok all) as (key & all & Hk & Hl).
    { unfold AppendSpendingRenewalEvent in H. read_step H now Hnow. read_step H u Hv.
      apply withTx_Ok in H as (key & l1 & Hk & H & _). read_step H m Hl. eauto. }
    eapply append_event_Ok in H as (s & Hs & _ & [(-> & -> & _)|(-> & -> & Hnew & _ & _ & _ & _ & _ & Hadv & Hkeep)]); [| |done..].
    + left. split; [done|]. intros res' E. apply Ok_inj, pair_equal_spec in E as [_ E]. done.
    + right. split; [done|]. exists s, key, all. split_and!; try done. intros Hp.
      destruct (Hadv Hp) as (l1 & Ha & Ht). pose proof (advanceSignCountLocked_Ok _ _ _ _ _ Hn Ha) as (Hc & _).
      assert (stored_count l' (ro_VaultID (rs_Operation s)) cred = stored_count l1 (ro_VaultID (rs_Operation s)) cred) as ->
        by (unfold stored_count, sign_count_row; by rewrite Ht).
      destruct (stored_count l (ro_VaultID (rs_Operation s)) cred) as [m|] eqn:Em; [|done].
      destruct Hc as [_ [[? ?]|(-> & -> & ->)]]; auto.
  - left. split; [|done]. unfold AppendSpendingRenewalEvent in H.
    apply read_bind_inv in H as [(now & _ & H)|[-> _]]; [|done].
    apply lift_bind_inv in H as [(u & _ & H)|[-> _]]; [|done]. by apply withTx_Err in H.
Qed.

Definition demo_register : SpendingRenewalEvent := demo_renewal_event "register_authorized" [] [] (jtext "{}").

Lemma renewal_append_counter_witness :
  exists l' r, AppendSpendingRenewalEvent demo_register (str "cred") 3 demo_batch_ledger = (l', r) /\
    l_db l' <> l_db demo_batch_ledger /\ r = Ok (re_set_CreatedAt (format_rfc3339 (l_now demo_batch_ledger)) demo_register, true).
Proof.
  destruct (AppendSpendingRenewalEvent demo_register (str "cred") 3 demo_batch_ledger) as [l' r] eqn:E.
  assert (stored_count l' (str "vault-1") (str "cred") = Some 3) as Hc.
  { change l' with (fst (l', r)). rewrite <-E. vm_compute. reflexivity. }
  assert (l_db l' <> l_db demo_batch_ledger) as Hne.
  { unfold stored_count, sign_count_row in Hc. intros Hdb. rewrite Hdb in Hc. vm_compute in Hc. discriminate Hc. }
  exists l', r. split; [reflexivity|]. split; [exact Hne|].
  destruct (renewal_append_counter demo_register (str "cred") 3 demo_batch_ledger l' r
    ltac:(split; [repeat constructor|]; vm_compute; congruence) ltac:(lia) E) as [[H _]|[H _]].
  - destruct (Hne H).
  - exact H.
Defined.

(** ** What the journal rejects on its way back

    Go's [json.Valid] accepts a string that is not valid UTF-8, and
    [json.Marshal] then writes the escape backslash-u-fffd in its place, which
    decodes to U+FFFD and is encoded again as that rune itself.  A plan with such a string
    is reserved, and from then on no call can load the journal. *)
Definition demo_bad_plan : bytes := jtext "{'a':'" ++ [Byte.xff] ++ jtext "'}".
Definition demo_bad_renewal : SpendingRenewalOperation := {|
  ro_OperationID := demo_hex 16 Byte.x01; ro_VaultID := str "vault-1"; ro_InputTxid := demo_hex 32 Byte.x02;
  ro_InputVout := 1; ro_FeeSats := 200; ro_PlanDigest := demo_hex 32 Byte.x03; ro_Plan := demo_bad_plan;
  ro_ExpiresAt := str "2026-01-01T00:05:00Z"; ro_CreatedAt := []; ro_Kind := SpendingBitcoinBatchKind;
  ro_AmountSats := 10000 |}.

Lemma invalid_utf8_plan_blocks_journal :
  let '(l', res) := ReserveSpendingRenewal demo_bad_renewal 50000 demo_ledger in
  is_ok res = true /\ GetSpendingRenewal (demo_hex 16 Byte.x01) l' = Err (ErrMsg "Light renewal operation binding").
Proof. vm_compute. split; reflexivity. Qed.

(** The schema bounds a row in characters ([length] of a TEXT value), the
    loader in bytes ([len] of a string): the escapes of 2100 [<] and 2000
    two-byte letters make a row of at most 16384 characters and more bytes. *)
Definition demo_wide_plan : bytes :=
  jtext "{'a':'" ++ repeat Byte.x3c 2100 ++ concat (repeat [Byte.xc3; Byte.xa9] 2000) ++ jtext "'}".
Definition demo_wide_renewal : SpendingRenewalOperation := {|
  ro_OperationID := demo_hex 16 Byte.x01; ro_VaultID := str "vault-1"; ro_InputTxid := demo_hex 32 Byte.x02;
  ro_InputVout := 1; ro_FeeSats := 200; ro_PlanDigest := demo_hex 32 Byte.x03; ro_Plan := demo_wide_plan;
  ro_ExpiresAt := str "2026-01-01T00:05:00Z"; ro_CreatedAt := []; ro_Kind := SpendingBitcoinBatchKind;
  ro_AmountSats := 10000 |}.

Lemma wide_plan_blocks_journal :
  let '(l', res) := ReserveSpendingRenewal demo_wide_renewal 50000 demo_ledger in
  is_ok res = true /\ GetSpendingRenewal (demo_hex 16 Byte.x01) l' = Err (ErrMsg "Light renewal operation integrity").
Proof. vm_compute. split; reflexivity. Qed.
