(* ===== verification/DelegationLedger.v ===== *)
(** The delegation transactions of [internal/policy/spending_delegation.go]:
    [ListSpendingDelegations], [ScheduleVtxoDelegationSet] and
    [AdvanceSpendingDelegation], and their refinement of the step relation of
    [Delegation]. *)
From Stdlib Require Import Strings.Byte.
From S2P Require Import Prelude Sha256 Text GoTime Json Vtxo Monotonic Tenant Renewal Delegation.
From S2P Require Import Store Journal VtxoLedger RenewalLedger.

#[local] Arguments hmac_sha256 : simpl never.

(** ** Reads *)
Definition snapshot_before (a b : SpendingDelegationSnapshot) : bool :=
  bytes_ltb (sd_OperationID (ds_Operation a)) (sd_OperationID (ds_Operation b)).

Definition ListSpendingDelegations : M (list SpendingDelegationSnapshot) :=
  key ← query integrityKeyCopy;
  all ← query (fun l => loadSpendingDelegations (l_db l) key);
  _ ← observeEconomicOutflowsLocked;
  mret (slice_stable snapshot_before (map snd (map_to_list all))).

Definition delegationEnrolledCredentialID (l : Ledger) (vaultID key : bytes) : result bytes :=
  match enrolled_credential (l_db l) vaultID with
  | None => Err (ErrMsg "delegation vault credential unavailable")
  | Some cred =>
      _ ← verifyVaultCredential cred key;
      Ok (vc_CredentialID cred)
  end.

(** ** Overlap with payments *)
Definition authenticated_operation (key : bytes) (row : VtxoOperation) : result VtxoOperation :=
  rec ← scanVtxoOperation row;
  _ ← VerifyVtxoOperation rec key;
  Ok rec.

Definition authenticated_input (key : bytes) (i : VtxoOperationInput) : result VtxoOperationInput :=
  _ ← VerifyVtxoOperationInput i key;
  Ok i.

Definition rejectDelegationPaymentOverlap (l : Ledger) (key : bytes) (o : SpendingDelegation) : result unit :=
  recs ← collect (authenticated_operation key) (t_operation (db_vtxo (l_db l)));
  let active : gset bytes := list_to_set (map vo_OperationID
    (List.filter (fun rec => (vo_VaultID rec == sd_VaultID o) && vtxoStateBlocksNewOperation (vo_State rec)) recs)) in
  ins ← collect (authenticated_input key) (t_input (db_vtxo (l_db l)));
  let live := List.filter (fun i => bool_decide (vi_OperationID i ∈ active)) ins in
  let found : gset bytes := list_to_set (map vi_OperationID live) in
  let overlap := existsb (fun i => (hex_encode (vi_Txid i) == sd_InputTxid o) && (sd_InputVout o =? vi_Vout i)) live in
  fail_if (overlap || negb (Z.of_nat (size found) =? Z.of_nat (size active))) ErrVtxoOperationActive.

(** ** Scheduling a set *)

(** The first loop: every member carries the metadata of the first one, the
    size of the set and its own position. *)
Fixpoint check_positions (first : SpendingDelegation) (n i : Z) (members : list SpendingDelegation) : result unit :=
  match members with
  | [] => Ok tt
  | o :: members =>
      _ ← fail_if ((sd_VaultID o != sd_VaultID first) || (sd_Program o != sd_Program first)
                   || (sd_DescriptorHash o != sd_DescriptorHash first) || (sd_SetID o != sd_SetID first)
                   || (sd_SetDigest o != sd_SetDigest first) || negb (sd_SetSize o =? n) || negb (sd_SetIndex o =? i))
            (ErrMsg "delegation set membership changed");
      check_positions first n (i + 1) members
  end.

(** [o.InputTxid + ":" + fmt.Sprintf("%d", o.InputVout)] *)
Definition member_outpoint (o : SpendingDelegation) : bytes :=
  sd_InputTxid o ++ str ":" ++ format_uint (sd_InputVout o).

(** The second loop: no operation and no outpoint twice. *)
Fixpoint check_distinct (ops outpoints : list bytes) (members : list SpendingDelegation) : result unit :=
  match members with
  | [] => Ok tt
  | o :: members =>
      _ ← fail_if (bool_decide (sd_OperationID o ∈ ops)) (ErrMsg "delegation set operation duplicate");
      _ ← fail_if (bool_decide (member_outpoint o ∈ outpoints)) (ErrMsg "delegation set input duplicate");
      check_distinct (sd_OperationID o :: ops) (member_outpoint o :: outpoints) members
  end.

(** One member of an exact retry. *)
Definition retry_member (grouped : list SpendingDelegationSnapshot) (o : SpendingDelegation)
  : result SpendingDelegationSnapshot :=
  match List.find (fun s => sd_OperationID (ds_Operation s) == sd_OperationID o) grouped with
  | None => Err (ErrMsg "delegation set membership changed")
  | Some s =>
      let want := sd_set_CreatedAt (sd_CreatedAt (ds_Operation s)) o in
      _ ← validateDelegation want;
      _ ← fail_if (want != ds_Operation s) (ErrMsg "delegation set membership changed");
      Ok s
  end.

Definition delegation_row (key : bytes) (o : SpendingDelegation) : JournalOp :=
  {| jo_operation_id := sd_OperationID o; jo_vault_id := sd_VaultID o; jo_payload := marshal_delegation o;
     jo_mac := renewalMAC key delegation_operation_domain (marshal_delegation o) |}.

(** The live delegations of a vault. *)
Definition live_delegations (vault : bytes) (all : gmap bytes SpendingDelegationSnapshot)
  : list SpendingDelegationSnapshot :=
  List.filter (fun s => negb ((sd_VaultID (ds_Operation s) != vault) || delegationTerminal s))
    (map snd (map_to_list all)).

Definition same_input (a b : SpendingDelegation) : bool :=
  (sd_InputTxid a == sd_InputTxid b) && (sd_InputVout a =? sd_InputVout b).

(** The branch for a set that is not in the journal. *)
Definition schedule_new_set (key : bytes) (all : gmap bytes SpendingDelegationSnapshot) (first : SpendingDelegation)
  (members : list SpendingDelegation) (credentialID : bytes) (signCount : Z) : M (list SpendingDelegationSnapshot) :=
  _ ← lift (each (fun o => match all !! sd_OperationID o with
                           | Some _ => Err (ErrMsg "delegation operation already bound")
                           | None => Ok tt
                           end) members);
  _ ← lift (each validateDelegation members);
  enrolled ← query (fun l => delegationEnrolledCredentialID l (sd_VaultID first) key);
  _ ← guard_M ((blen credentialID =? 0) || (credentialID != enrolled)) (ErrMsg "delegation vault credential mismatch");
  _ ← advanceSignCountLocked (sd_VaultID first) credentialID signCount;
  let live := live_delegations (sd_VaultID first) all in
  _ ← guard_M (existsb (fun s => existsb (same_input (ds_Operation s)) members) live) ErrVtxoOperationActive;
  _ ← guard_M (256 <? Z.of_nat (length live) + Z.of_nat (length members)) (ErrMsg "Light delegation capacity reached");
  _ ← query (fun l => each (rejectDelegationPaymentOverlap l key) members);
  _ ← query (fun l => rejectActiveSpendingRenewal l (sd_VaultID first));
  _ ← each_M (fun o => insert_delegation_op (delegation_row key o)) members;
  mret (map (fun o => Build_SpendingDelegationSnapshot o ∅) members).

(** The body of the transaction, once the members are stamped. *)
Definition schedule_body (key : bytes) (first : SpendingDelegation) (members : list SpendingDelegation)
  (credentialID : bytes) (signCount : Z) : M (list SpendingDelegationSnapshot) :=
  let n := Z.of_nat (length members) in
  all ← query (fun l => loadSpendingDelegations (l_db l) key);
  _ ← observeEconomicOutflowsLocked;
  _ ← lift (check_positions first n 0 members);
  _ ← lift (check_distinct [] [] members);
  let grouped := List.filter (fun s => sd_SetID (ds_Operation s) == sd_SetID first) (map snd (map_to_list all)) in
  match grouped with
  | [] => schedule_new_set key all first members credentialID signCount
  | _ =>
      _ ← guard_M (negb (Z.of_nat (length grouped) =? n)) (ErrMsg "delegation set membership changed");
      lift (collect (retry_member grouped) members)
  end.

Definition ScheduleVtxoDelegationSet (plans : list SpendingDelegation) (credentialID : bytes) (signCount : Z)
  : M (list SpendingDelegationSnapshot) :=
  let n := Z.of_nat (length plans) in
  _ ← guard_M ((n <? 1) || (50 <? n)) (ErrMsg "delegation set size must be 1..50");
  now ← query (fun l => Ok (NowUTC l));
  let members := map (sd_set_CreatedAt (format_rfc3339 now)) plans in
  match members with
  | [] => lift (Err (ErrMsg "delegation set size must be 1..50"))   (* n >= 1 *)
  | first :: _ => withSpendingRenewalTx (fun key => schedule_body key first members credentialID signCount)
  end.

(** ** Advancing one delegation *)

(** The checks of a claim against the rest of the ledger. *)
Definition claim_checks (all : gmap bytes SpendingDelegationSnapshot) (s : SpendingDelegationSnapshot) (allowance : Z)
  : M unit :=
  let vault := sd_VaultID (ds_Operation s) in
  _ ← lift (each (fun kv => fail_if ((sd_VaultID (ds_Operation (snd kv)) == vault) && negb (delegationTerminal (snd kv))
                                     && negb (bool_decide (ds_Events (snd kv) = ∅)))
                              ErrVtxoOperationActive) (map_to_list all));
  _ ← query (fun l => rejectConcurrentVtxoOperationLocked l vault []);
  _ ← query (fun l => rejectActiveSpendingRenewal l vault);
  used ← query (fun l => spentInWindow l vault);
  guard_M ((allowance <? 0) || (allowance <? used) || (allowance - used <? sd_FeeSats (ds_Operation s)))
    ErrPeriodAllowanceExceeded.

Definition advance_body (key : bytes) (e : SpendingDelegationEvent) (now allowance : Z) : M SpendingDelegationSnapshot :=
  all ← query (fun l => loadSpendingDelegations (l_db l) key);
  _ ← observeEconomicOutflowsLocked;
  match all !! de_OperationID e with
  | None => lift (Err (ErrMsg "Light delegation unavailable"))
  | Some s =>
      decision ← lift (delegation_decide s e now);
      match decision with
      | Replay => mret s
      | Insert =>
          _ ← (if de_Phase e == str "claimed" then claim_checks all s allowance else mret tt);
          _ ← insertDelegationEvent key e;
          mret (add_delegation_event s e)
      end
  end.

Definition AdvanceSpendingDelegation (e : SpendingDelegationEvent) (allowance : Z) : M SpendingDelegationSnapshot :=
  now ← query (fun l => Ok (NowUTC l));
  let e := de_set_CreatedAt (format_rfc3339 now) e in
  withSpendingRenewalTx (fun key => advance_body key e now allowance).

(** ** Lemmas: reads depend on the tables, the key and the clock only *)
Definition same_view (l l1 : Ledger) : Prop :=
  l_db l1 = l_db l /\ l_integrityKey l1 = l_integrityKey l /\ l_now l1 = l_now l.

Lemma observe_same_view l l1 r : observeEconomicOutflowsLocked l = (l1, r) -> same_view l l1.
Proof. intros H. apply observe_frame in H as (? & _ & ? & _ & _ & ?). done. Qed.

Lemma spentInWindow_view l l1 v : same_view l l1 -> spentInWindow l1 v = spentInWindow l v.
Proof.
  unfold spentInWindow, spendingRenewalAllowance, delegationAllowance, integrityKeyCopy, NowUTC.
  by intros (-> & -> & ->).
Qed.

Lemma rejectConcurrent_view l l1 v id :
  same_view l l1 -> rejectConcurrentVtxoOperationLocked l1 v id = rejectConcurrentVtxoOperationLocked l v id.
Proof. unfold rejectConcurrentVtxoOperationLocked, integrityKeyCopy. by intros (-> & -> & _). Qed.

Lemma rejectActiveRenewal_view l l1 v :
  same_view l l1 -> rejectActiveSpendingRenewal l1 v = rejectActiveSpendingRenewal l v.
Proof. unfold rejectActiveSpendingRenewal, integrityKeyCopy. by intros (-> & -> & _). Qed.

(** Events whose row reads back. *)
Definition devent_storable (now : Z) (e : SpendingDelegationEvent) : Prop :=
  Forall (fun s => utf8_valid s = true) [de_OperationID e; de_Phase e; de_Evidence e] /\
  blen (marshal_delegation_event (de_set_CreatedAt (format_rfc3339 now) e)) <= 8000000.

Lemma devent_storable_roundtrip now e :
  devent_storable now e ->
  unmarshal_delegation_event (marshal_delegation_event (de_set_CreatedAt (format_rfc3339 now) e))
  = Some (de_set_CreatedAt (format_rfc3339 now) e).
Proof.
  intros [H _]. apply unmarshal_marshal_delegation_event. cbn [de_set_CreatedAt de_OperationID de_Phase de_Evidence de_CreatedAt].
  repeat (apply Forall_cons in H as [? H]). repeat constructor; eauto with guardian.
Qed.

(** What a successful claim has checked. *)
Record claim_ok (all : gmap bytes SpendingDelegationSnapshot) (s : SpendingDelegationSnapshot) (allowance : Z)
  (l : Ledger) : Prop := {
  ck_alone : forall id s', all !! id = Some s' -> sd_VaultID (ds_Operation s') = sd_VaultID (ds_Operation s) ->
    delegationTerminal s' = false -> ds_Events s' = ∅;
  ck_payments : rejectConcurrentVtxoOperationLocked l (sd_VaultID (ds_Operation s)) [] = Ok tt;
  ck_renewals : rejectActiveSpendingRenewal l (sd_VaultID (ds_Operation s)) = Ok tt;
  ck_spent : exists used, spentInWindow l (sd_VaultID (ds_Operation s)) = Ok used /\
    used + sd_FeeSats (ds_Operation s) <= allowance;
}.

Lemma claim_checks_Ok all s allowance l l' :
  claim_checks all s allowance l = (l', Ok tt) -> l' = l /\ claim_ok all s allowance l.
Proof.
  unfold claim_checks. intros H. read_step H u1 He. read_step H u2 Hc. read_step H u3 Hr. read_step H used Hs.
  inv_M. bool_hyps. destruct u2, u3. split; [done|]. constructor; [|done|done|].
  - intros id s' Hin Hv Ht. apply each_Ok in He. rewrite Forall_forall in He. specialize (He (id, s')).
    rewrite elem_of_map_to_list in He. specialize (He Hin). apply fail_if_Ok in He. cbn [snd] in He.
    rewrite (bool_decide_eq_true_2 _ Hv), Ht in He. cbn [andb negb] in He. by bool_hyps.
  - exists used. split; [done|]. lia.
Qed.

Lemma claim_ok_view all s allowance l l1 : same_view l l1 -> claim_ok all s allowance l1 -> claim_ok all s allowance l.
Proof.
  intros Hv [H1 H2 H3 (used & H4 & H5)]. constructor; [done|..].
  - by rewrite <-(rejectConcurrent_view l l1).
  - by rewrite <-(rejectActiveRenewal_view l l1).
  - exists used. by rewrite <-(spentInWindow_view l l1).
Qed.

(** A successful advance: an exact replay, or one more event. *)
Lemma advance_Ok e allowance key all l l' res :
  devent_storable (l_now l) e -> integrityKeyCopy l = Ok key -> loadSpendingDelegations (l_db l) key = Ok all ->
  AdvanceSpendingDelegation e allowance l = (l', Ok res) ->
  let e' := de_set_CreatedAt (format_rfc3339 (l_now l)) e in
  exists s, all !! de_OperationID e = Some s /\
    ((res = s /\ l_db l' = l_db l) \/
     (res = add_delegation_event s e' /\ delegation_decide s e' (l_now l) = Ok Insert /\
      validateDelegationEvent e' = Ok tt /\
      loadSpendingDelegations (l_db l') key = Ok (<[de_OperationID e := res]> all) /\
      l_db l' = set_delegation (db_delegation (l_db l')) (l_db l) /\
      (de_Phase e = str "claimed" -> claim_ok all s allowance l))).
Proof.
  intros Henc Hk Hl H e'. unfold AdvanceSpendingDelegation in H. read_step H now Hn. apply Ok_inj in Hn as <-.
  change (NowUTC l) with (l_now l) in H. fold e' in H.
  apply withTx_Ok in H as (key' & l2 & Hk' & H & Ho & _). rewrite Hk in Hk'. apply Ok_inj in Hk' as <-.
  apply observe_same_view in Ho as (Hdb & _ & _). unfold advance_body in H.
  read_step H all' Hall. rewrite Hl in Hall. apply Ok_inj in Hall as <-.
  write_step H l1 Hobs. apply observe_same_view in Hobs as Hview.
  change (de_OperationID e') with (de_OperationID e) in H. change (de_Phase e') with (de_Phase e) in H.
  destruct (all !! de_OperationID e) as [s|] eqn:Es; [|by inv_M]. exists s. split; [done|].
  read_step H decision Hd. destruct decision.
  - left. inv_M. destruct Hview as (Hv & _). split; [done|]. congruence.
  - right. write_step H l3 Hc. write_step H l4 Hi. inv_M.
    assert (l3 = l1 /\ (de_Phase e = str "claimed" -> claim_ok all s allowance l)) as [-> Hclaim].
    { case_bool_decide as Ep; [|by inv_M]. apply claim_checks_Ok in Hc as [-> Hc]. split; [done|].
      intros _. by eapply claim_ok_view. }
    apply insertDelegationEvent_Ok in Hi as (Hv & _ & ->). destruct Hview as (Hv1 & _ & _).
    rewrite Hv1 in Hdb. cbn [l_db set_db] in Hdb. subst res. split_and!; try done; [|by rewrite Hdb].
    rewrite Hdb. apply (load_delegation_event_append (l_db l) key all s e'); try done; [|by apply Henc].
    by apply devent_storable_roundtrip.
Qed.

(** ** Claiming *)
Lemma advance_loads e allowance l l' res :
  AdvanceSpendingDelegation e allowance l = (l', Ok res) ->
  exists key all, integrityKeyCopy l = Ok key /\ loadSpendingDelegations (l_db l) key = Ok all.
Proof.
  unfold AdvanceSpendingDelegation. intros H. read_step H now Hn.
  apply withTx_Ok in H as (key & l1 & Hk & H & _). unfold advance_body in H. read_step H m Hl. eauto.
Qed.

Lemma switch_claimed s e now :
  delegation_switch s e now = Ok tt -> de_Phase e = str "claimed" ->
  ds_Events s = ∅ /\ sd_ValidAt (ds_Operation s) <= unix now < sd_ExpiresAt (ds_Operation s).
Proof.
  unfold delegation_switch. intros H Ep. rewrite Ep in H. eval_phases H. inv_ok. bool_hyps.
  split; [|lia]. apply map_size_empty_inv. lia.
Qed.

(** The first event of a delegation makes its fee due. *)
Lemma claimed_charge v now id s e :
  ds_Events s = ∅ -> de_Phase e = str "claimed" -> sd_VaultID (ds_Operation s) = v ->
  delegation_charge v now (id, s) = 0 /\
  delegation_charge v now (id, add_delegation_event s e) = sd_FeeSats (ds_Operation s).
Proof.
  intros Hs He Hv.
  assert (delegationTerminal (add_delegation_event s e) = false) as Ht.
  { unfold delegationTerminal, terminal_phases. cbn [existsb]. rewrite !has_devent_insert, He.
    unfold has_devent. rewrite Hs. reflexivity. }
  unfold delegation_charge. cbn [snd]. rewrite Ht, Hs.
  change (ds_Operation (add_delegation_event s e)) with (ds_Operation s).
  rewrite (bool_decide_eq_true_2 _ Hv), (bool_decide_eq_true_2 (∅ = ∅)) by done.
  rewrite bool_decide_eq_false_2 by apply insert_non_empty. done.
Qed.

(** Accounting after one delegation gains an event. *)
Lemma spent_after_event l l' key all id s s' used v :
  integrityKeyCopy l = Ok key -> loadSpendingDelegations (l_db l) key = Ok all -> all !! id = Some s ->
  loadSpendingDelegations (l_db l') key = Ok (<[id := s']> all) ->
  l_db l' = set_delegation (db_delegation (l_db l')) (l_db l) -> l_integrityKey l' = l_integrityKey l ->
  l_now l' = l_now l -> spentInWindow l v = Ok used ->
  used - delegation_charge v (l_now l) (id, s) + delegation_charge v (l_now l) (id, s') <= max_int64 ->
  spentInWindow l' v = Ok (used - delegation_charge v (l_now l) (id, s) + delegation_charge v (l_now l) (id, s')).
Proof.
  intros Hk Hl Hs Hl' Hdb Hkey Hnow Hu Hmax.
  apply spentInWindow_Ok in Hu as (key' & rs & ds & ops & Hk' & Hrs & Hds & Hops & _ & -> & Hpos).
  rewrite Hk in Hk'. apply Ok_inj in Hk' as <-. rewrite Hl in Hds. apply Ok_inj in Hds as <-.
  assert (sumZ (delegation_charge v (l_now l')) (map_to_list (<[id := s']> all))
    = sumZ (delegation_charge v (l_now l)) (map_to_list all) - delegation_charge v (l_now l) (id, s)
      + delegation_charge v (l_now l) (id, s')) as Hsum by (rewrite Hnow; by apply sumZ_insert).
  rewrite (spentInWindow_total l' v key ops rs (<[id := s']> all)); try done.
  - f_equal. rewrite Hsum, Hnow. lia.
  - unfold integrityKeyCopy in *. by rewrite Hkey.
  - rewrite Hnow, Hdb. exact Hops.
  - rewrite Hdb. exact Hrs.
  - lia.
  - rewrite Hsum, Hnow. lia.
Qed.

Lemma stable_delegation_event key e : stable (insertDelegationEvent key e).
Proof. unfold insertDelegationEvent, insert_delegation_event_row. solve_stable. Qed.
#[export] Hint Resolve stable_delegation_event : guardian.

Lemma stable_advance_delegation e allowance : stable (AdvanceSpendingDelegation e allowance).
Proof.
  unfold AdvanceSpendingDelegation, withSpendingRenewalTx, advance_body, claim_checks. solve_stable.
  match goal with |- stable (match ?d with Replay => _ | Insert => _ end) => destruct d end; solve_stable.
Qed.

(** ** Claims *)

(** a delegation is claimed only inside its window, while no other
    delegation of the vault is under way, no payment of the vault is
    unresolved and no payment batch of the vault is live; the fee it charges
    keeps the vault within the allowance.  Otherwise the call changed
    nothing. *)
Theorem delegation_claim_exclusive e allowance l l' res :
  devent_storable (l_now l) e -> is_int64 allowance -> de_Phase e = str "claimed" ->
  AdvanceSpendingDelegation e allowance l = (l', Ok res) ->
  l_db l' = l_db l \/
  let o := ds_Operation res in
  sd_ValidAt o <= unix (l_now l) < sd_ExpiresAt o /\
  (exists key all, integrityKeyCopy l = Ok key /\ loadSpendingDelegations (l_db l') key = Ok all /\
     all !! de_OperationID e = Some res /\ has_devent res "claimed" = true /\
     (forall id s, all !! id = Some s -> id <> de_OperationID e -> sd_VaultID (ds_Operation s) = sd_VaultID o ->
        delegationTerminal s = false -> ds_Events s = ∅)) /\
  (forall r, r ∈ vault_operations (l_db l') (sd_VaultID o) -> vo_OperationID r <> [] ->
     vtxoStateBlocksNewOperation (vo_State r) = false) /\
  (exists key rs, loadSpendingRenewals (l_db l') key = Ok rs /\
     forall id s, rs !! id = Some s -> ro_VaultID (rs_Operation s) = sd_VaultID o -> renewalTerminal s = true) /\
  (exists total, spentInWindow l' (sd_VaultID o) = Ok total /\ sd_FeeSats o <= total <= allowance).
Proof.
  intros Henc Hmax Hp H. destruct (advance_loads _ _ _ _ _ H) as (key & all & Hk & Hl).
  pose proof (stable_advance_delegation e allowance l) as Hst. rewrite H in Hst. destruct Hst as (Hkey & _ & _ & Hnow).
  cbn [fst] in Hkey, Hnow.
  eapply advance_Ok in H as (s & Hs & [(_ & Hdb)|(-> & Hd & Hv & Hload & Hdb & Hck)]); [by left|right|done..].
  apply decide_insert in Hd as (_ & _ & _ & Hsw). apply switch_claimed in Hsw as [Hev Hwin]; [|done].
  destruct (Hck Hp) as [Halone Hpay Hren (used & Hused & Hle)]. cbn [add_delegation_event ds_Operation].
  set (e' := de_set_CreatedAt (format_rfc3339 (l_now l)) e) in *.
  split_and!; [lia|lia|..].
  - exists key. eexists. split_and!; [done|exact Hload|by rewrite lookup_insert_eq| |].
    + rewrite has_devent_insert. apply orb_true_iff. left. by apply bool_decide_eq_true.
    + intros id s' Hin Hne Hvid. rewrite lookup_insert_ne in Hin by done. by eapply Halone.
  - intros r Hr Hne. eapply (rejectConcurrent_Ok _ _ _ _ Hpay); [|done]. by rewrite Hdb in Hr.
  - apply rejectActiveRenewal_Ok in Hren as (key' & rs & _ & Hrs & Hterm). exists key', rs. by rewrite Hdb.
  - destruct (claimed_charge (sd_VaultID (ds_Operation s)) (l_now l) (de_OperationID e) s e' Hev Hp eq_refl) as [C0 C1].
    unfold is_int64 in Hmax. pose proof (spentInWindow_Ok _ _ _ Hused) as (? & ? & ? & ? & _ & _ & _ & _ & _ & _ & Hpos).
    eexists. split; [eapply (spent_after_event l l' key all _ s _ used); try done; rewrite C0, C1; lia|].
    rewrite C0, C1. destruct (delegations_loaded _ _ _ Hl _ _ Hs) as [_ Hval _]. apply delegation_fee in Hval. lia.
Qed.

(** A ledger with one armed delegation, inside its window. *)
Definition demo_armed_ledger : Ledger := {|
  l_db := set_delegation (Build_JournalTables [delegation_row demo_vault_key demo_delegation] []) demo_db;
  l_network := str "mutinynet"; l_now := 1767225720 * second; l_integrityKey := demo_vault_key;
  l_monotonic := Some demo_monotonic; l_file := Some (sequence_body demo_monotonic 1); l_faults := [];
  l_commit_ok := true |}.

Lemma delegation_claim_exclusive_witness :
  exists l' res, AdvanceSpendingDelegation (demo_delegation_event "claimed") 5000 demo_armed_ledger = (l', Ok res) /\
    (l_db l' = l_db demo_armed_ledger \/
     exists total, spentInWindow l' (sd_VaultID (ds_Operation res)) = Ok total /\
       sd_FeeSats (ds_Operation res) <= total <= 5000).
Proof.
  destruct (AdvanceSpendingDelegation (demo_delegation_event "claimed") 5000 demo_armed_ledger) as [l' [res|err]] eqn:E.
  - exists l', res. split; [reflexivity|].
    destruct (delegation_claim_exclusive (demo_delegation_event "claimed") 5000 demo_armed_ledger l' res
      ltac:(split; [repeat constructor|]; vm_compute; congruence) ltac:(vm_compute; split; discriminate) eq_refl E)
      as [H|(_ & _ & _ & _ & H)]; [left; exact H|right; exact H].
  - exfalso. apply (f_equal (fun p => is_ok (snd p))) in E. vm_compute in E. discriminate E.
Defined.

(** ** Scheduling: the rows of a whole set read back together *)
Lemma same_set_true o first :
  same_set o first = true <->
  sd_VaultID o = sd_VaultID first /\ sd_Program o = sd_Program first /\
  sd_DescriptorHash o = sd_DescriptorHash first /\ sd_SetID o = sd_SetID first /\ sd_SetDigest o = sd_SetDigest first.
Proof. unfold same_set. rewrite !andb_true_split, !bool_decide_eq_true. tauto. Qed.

Lemma check_members_intro first n seen members :
  Forall (fun o => same_set o first = true /\ sd_SetSize o = n) members -> NoDup (map sd_SetIndex members ++ seen) ->
  exists out, check_members first n seen members = Ok out /\ out ≡ₚ map sd_SetIndex members ++ seen.
Proof.
  intros H. revert seen. induction H as [|o members [Hs Hn] H IH]; intros seen Hd; cbn [check_members].
  - exists seen. done.
  - cbn in Hd. apply NoDup_cons in Hd as [Ho Hd].
    destruct (IH (sd_SetIndex o :: seen)) as (out & Hout & Hp).
    { rewrite <-Permutation_middle. constructor; done. }
    exists out. rewrite Hs, Hn, Z.eqb_refl, bool_decide_eq_false_2 by set_solver. cbn [orb negb fail_if mbind result_bind].
    split; [done|]. rewrite Hp. cbn. by rewrite <-Permutation_middle.
Qed.

(** The check of one set does not depend on the order of its members. *)
Lemma check_set_intro members first n :
  Forall (fun o => same_set o first = true /\ sd_SetSize o = n) members -> 1 <= n <= 50 ->
  map sd_SetIndex members ≡ₚ seqZ 0 n -> check_set members = Ok tt.
Proof.
  intros HF Hn Hp. destruct members as [|m members]; [done|]. cbn [check_set].
  pose proof HF as HF'. apply Forall_cons in HF' as [[Hm Hsize] _]. rewrite Hsize.
  assert (Z.of_nat (length (m :: members)) = n) as Hlen.
  { apply Permutation_length in Hp. rewrite length_map, length_seqZ in Hp. rewrite Hp. lia. }
  rewrite Hlen, Z.eqb_refl. assert ((n <? 1) || (50 <? n) = false) as -> by lia. cbn [orb negb fail_if mbind result_bind].
  destruct (check_members_intro m n [] (m :: members)) as (out & Hout & Hpo).
  - eapply Forall_impl; [exact HF|]. intros o [Ho ?]. split; [|done].
    rewrite same_set_true in *. intuition congruence.
  - rewrite app_nil_r, Hp. apply NoDup_seqZ.
  - rewrite app_nil_r in Hpo. change (check_members m n [] (m :: members)) with (check_members m n [] (m :: members)) in Hout.
    unfold mbind, result_bind. rewrite Hout. apply each_Ok. apply Forall_forall. intros i Hi.
    rewrite bool_decide_eq_true_2; [done|]. rewrite Hpo, Hp. done.
Qed.

Lemma validateDelegationSets_intro all :
  (forall id, in_set id (delegation_ops all) <> [] -> check_set (in_set id (delegation_ops all)) = Ok tt) ->
  validateDelegationSets all = Ok tt.
Proof.
  intros H. unfold validateDelegationSets. apply each_Ok, Forall_forall. intros [id l] Hin. cbn [snd].
  apply elem_of_map_to_list in Hin. fold (delegation_ops all) in Hin. rewrite group_by_set_lookup in Hin.
  specialize (H id). destruct (in_set id (delegation_ops all)); [done|]. injection Hin as <-. by apply H.
Qed.

(** A set of new operations, added to a journal. *)
Definition add_members (members : list SpendingDelegation) (all : gmap bytes SpendingDelegationSnapshot)
  : gmap bytes SpendingDelegationSnapshot :=
  fold_left (fun m o => <[sd_OperationID o := Build_SpendingDelegationSnapshot o ∅]> m) members all.

#[global] Instance in_set_perm id : Proper (Permutation ==> Permutation) (in_set id).
Proof.
  intros a b H. unfold in_set. induction H; cbn [List.filter]; [done|..].
  - destruct (bool_decide _); [by constructor|done].
  - destruct (bool_decide (sd_SetID x = id)), (bool_decide (sd_SetID y = id)); [apply perm_swap|done..].
  - by etrans.
Qed.

Lemma delegation_ops_insert all id s :
  all !! id = None -> delegation_ops (<[id := s]> all) ≡ₚ ds_Operation s :: delegation_ops all.
Proof. intros H. unfold delegation_ops. by rewrite map_to_list_insert. Qed.

Lemma add_members_lookup members all id :
  NoDup (map sd_OperationID members) ->
  add_members members all !! id =
  match List.find (fun o => sd_OperationID o == id) members with
  | Some o => Some (Build_SpendingDelegationSnapshot o ∅)
  | None => all !! id
  end.
Proof.
  revert all. induction members as [|o members IH]; intros all Hn; [done|]. cbn in Hn. apply NoDup_cons in Hn as [Ho Hn].
  unfold add_members in *. cbn [fold_left List.find]. rewrite IH by done.
  case_bool_decide as E.
  - subst id. rewrite lookup_insert_eq.
    destruct (List.find _ members) as [o'|] eqn:Ef; [|done]. apply List.find_some in Ef as [Hin E]. bool_hyps.
    destruct Ho. rewrite <-E. apply list_elem_of_In, in_map. done.
  - by rewrite lookup_insert_ne.
Qed.

Lemma delegation_ops_add members all :
  NoDup (map sd_OperationID members) -> Forall (fun o => all !! sd_OperationID o = None) members ->
  delegation_ops (add_members members all) ≡ₚ members ++ delegation_ops all.
Proof.
  revert all. induction members as [|o members IH]; intros all Hn Hf; [done|].
  cbn in Hn. apply NoDup_cons in Hn as [Ho Hn]. apply Forall_cons in Hf as [Hfo Hf].
  unfold add_members in *. cbn [fold_left]. rewrite IH; [|done|].
  - rewrite delegation_ops_insert by done. cbn. by rewrite Permutation_middle.
  - rewrite Forall_forall in Hf |- *. intros o' Hin. rewrite lookup_insert_ne; [by apply Hf|].
    intros E. apply Ho. rewrite E. apply list_elem_of_fmap. eauto.
Qed.

(** ** Loading the extended journal *)
Lemma delegation_events_frame key rows id s all out :
  all !! id = None -> fold_res (load_delegation_event key) all rows = Ok out ->
  fold_res (load_delegation_event key) (<[id := s]> all) rows = Ok (<[id := s]> out) /\ out !! id = None.
Proof.
  revert all. induction rows as [|row rows IH]; intros all Hn H; cbn [fold_res] in *.
  - by apply Ok_inj in H as <-.
  - apply bind_Ok in H as (all1 & H1 & H). pose proof (load_delegation_event_Ok _ _ _ _ H1) as (s0 & e & Hs & -> & _).
    assert (je_operation_id row <> id) as Hne by congruence.
    assert (load_delegation_event key (<[id := s]> all) row = Ok (<[id := s]> (<[je_operation_id row :=
      Build_SpendingDelegationSnapshot (ds_Operation s0) (<[je_phase row := e]> (ds_Events s0))]> all))) as ->.
    { revert H1. unfold load_delegation_event. destruct (fail_if _ _) as [[]|]; [|done]. cbn [mbind result_bind].
      destruct (unmarshal_delegation_event _) as [e'|]; [|done].
      rewrite (lookup_insert_ne all id) by done. rewrite Hs. destruct (fail_if _ _) as [[]|]; [|done].
      cbn [mbind result_bind]. intros H1. apply Ok_inj in H1.
      rewrite insert_insert_ne by done. by rewrite H1. }
    cbn [mbind result_bind]. apply IH; [|done]. by rewrite lookup_insert_ne.
Qed.

Lemma delegation_events_frames key rows members all out :
  Forall (fun o => all !! sd_OperationID o = None) members -> NoDup (map sd_OperationID members) ->
  fold_res (load_delegation_event key) all rows = Ok out ->
  fold_res (load_delegation_event key) (add_members members all) rows = Ok (add_members members out).
Proof.
  revert all out. induction members as [|o members IH]; intros all out Hf Hn H; [done|].
  apply Forall_cons in Hf as [Ho Hf]. cbn in Hn. apply NoDup_cons in Hn as [Hno Hn].
  apply (delegation_events_frame _ _ (sd_OperationID o) (Build_SpendingDelegationSnapshot o ∅)) in H as [H _]; [|done].
  unfold add_members in *. cbn [fold_left]. apply IH; [|done|done].
  rewrite Forall_forall in Hf |- *. intros o' Hin. rewrite lookup_insert_ne; [by apply Hf|].
  intros E. apply Hno. rewrite E. apply list_elem_of_fmap. eauto.
Qed.

(** Events leave the operations alone. *)
Lemma delegation_events_ops key rows all out :
  fold_res (load_delegation_event key) all rows = Ok out -> ds_Operation <$> out = ds_Operation <$> all.
Proof.
  intros H. refine (fold_res_ind (fun a => ds_Operation <$> a = ds_Operation <$> all) _ _ _ _ _ eq_refl H).
  intros a row a' IH _ Hr. apply load_delegation_event_Ok in Hr as (s & e & Hs & -> & _). rewrite <-IH.
  rewrite fmap_insert. cbn. apply insert_id. by rewrite lookup_fmap, Hs.
Qed.

Lemma delegation_ops_ext all out : ds_Operation <$> out = ds_Operation <$> all -> delegation_ops out ≡ₚ delegation_ops all.
Proof.
  intros H. assert (forall m : gmap bytes SpendingDelegationSnapshot,
    delegation_ops m ≡ₚ (map_to_list (ds_Operation <$> m)).*2) as Hops.
  { intros m. unfold delegation_ops. rewrite map_to_list_fmap, <-list_fmap_compose. done. }
  by rewrite !Hops, H.
Qed.

(** The operations of a journal that loads have passed the check on sets. *)
Lemma loaded_sets d key all id :
  loadSpendingDelegations d key = Ok all -> in_set id (delegation_ops all) <> [] ->
  exists first n, In first (in_set id (delegation_ops all)) /\ 1 <= n <= 50 /\
    Forall (fun o => same_set o first = true /\ sd_SetSize o = n) (in_set id (delegation_ops all)) /\
    map sd_SetIndex (in_set id (delegation_ops all)) ≡ₚ seqZ 0 n.
Proof.
  unfold loadSpendingDelegations. intros H Hne. apply bind_Ok in H as (ops & _ & H). apply bind_Ok in H as ([] & Hs & H).
  apply delegation_events_ops, delegation_ops_ext in H. assert (in_set id (delegation_ops all) ≡ₚ in_set id (delegation_ops ops)) as Hp by (by apply in_set_perm).
  destruct (check_set_Ok (in_set id (delegation_ops ops))) as (first & n & Hin & Hn & HF & Hi).
  - apply validateDelegationSets_Ok; [done|]. intros E. apply Hne. rewrite E in Hp. by apply Permutation_nil_r.
  - intros E. apply Hne. rewrite E in Hp. by apply Permutation_nil_r.
  - exists first, n. rewrite Hp. done.
Qed.

(** C39: a delegation journal that loads holds only complete renewal sets: the
    members of each set are as many as its declared size (at most 50), carry
    exactly the indices 0 to size-1, and agree on vault, program, descriptor and
    digest. *)
Theorem delegation_sets_complete d key all id :
  loadSpendingDelegations d key = Ok all -> in_set id (delegation_ops all) <> [] ->
  exists first n, In first (in_set id (delegation_ops all)) /\ 1 <= n <= 50 /\
    Forall (fun o => sd_VaultID o = sd_VaultID first /\ sd_Program o = sd_Program first /\
      sd_DescriptorHash o = sd_DescriptorHash first /\ sd_SetDigest o = sd_SetDigest first /\ sd_SetSize o = n)
      (in_set id (delegation_ops all)) /\
    map sd_SetIndex (in_set id (delegation_ops all)) ≡ₚ seqZ 0 n.
Proof.
  intros H Hne. destruct (loaded_sets _ _ _ _ H Hne) as (first & n & Hin & Hn & HF & Hi). exists first, n. split_and!; try done; try lia.
  eapply Forall_impl; [exact HF|]. intros o [(? & ? & ? & ? & ?)%same_set_true ?]. by split_and!.
Qed.

Lemma delegation_sets_complete_witness :
  exists all, loadSpendingDelegations (l_db demo_armed_ledger) demo_vault_key = Ok all /\
    exists n, 1 <= n <= 50 /\ map sd_SetIndex (in_set (demo_hex 16 Byte.x06) (delegation_ops all)) ≡ₚ seqZ 0 n.
Proof.
  destruct (loadSpendingDelegations (l_db demo_armed_ledger) demo_vault_key) as [all|err] eqn:E.
  - exists all. split; [reflexivity|].
    assert (in_set (demo_hex 16 Byte.x06) (delegation_ops all) <> []) as Hne.
    { intros Hn. assert (match loadSpendingDelegations (l_db demo_armed_ledger) demo_vault_key with
        | Ok all => length (in_set (demo_hex 16 Byte.x06) (delegation_ops all)) | Err _ => 0%nat end = 1%nat) as Hl by (vm_compute; reflexivity).
      rewrite E, Hn in Hl. discriminate Hl. }
    destruct (delegation_sets_complete _ _ _ _ E Hne) as (first & n & _ & Hn & _ & Hi). exists n. exact (conj Hn Hi).
  - exfalso. apply (f_equal is_ok) in E. vm_compute in E. discriminate E.
Defined.

(** Members whose rows read back. *)
Definition plan_storable (now : Z) (o : SpendingDelegation) : Prop :=
  sd_encodable (sd_set_CreatedAt (format_rfc3339 now) o) /\
  blen (marshal_delegation (sd_set_CreatedAt (format_rfc3339 now) o)) <= 131072.

Lemma load_members key members all :
  Forall (fun o => validateDelegation o = Ok tt /\ sd_encodable o /\ blen (marshal_delegation o) <= 131072) members ->
  fold_res (load_delegation_op key) all (map (delegation_row key) members) = Ok (add_members members all).
Proof.
  intros H. revert all. induction H as [|o members (Hv & He & Hlen) H IH]; intros all; [done|].
  cbn [map fold_res].
  assert (load_delegation_op key all (delegation_row key o)
    = Ok (<[sd_OperationID o := Build_SpendingDelegationSnapshot o ∅]> all)) as ->; [|apply IH].
  unfold load_delegation_op. cbn [delegation_row jo_payload jo_mac jo_operation_id jo_vault_id].
  assert (131072 <? blen (marshal_delegation o) = false) as -> by (apply Z.ltb_ge; lia).
  unfold hmac_Equal. rewrite bool_decide_eq_true_2 by done. cbn [orb negb fail_if mbind result_bind].
  rewrite unmarshal_marshal_delegation by done. by rewrite !bool_decide_eq_true_2, Hv by done.
Qed.

Lemma in_set_app id a b : in_set id (a ++ b) = in_set id a ++ in_set id b.
Proof. apply List.filter_app. Qed.

Lemma in_set_none id l : in_set id l = [] <-> Forall (fun o => sd_SetID o <> id) l.
Proof.
  induction l as [|o l IH]; [by split|]. rewrite Forall_cons, <-IH. unfold in_set. cbn [List.filter].
  case_bool_decide; naive_solver.
Qed.

Lemma in_set_all id l : Forall (fun o => sd_SetID o = id) l -> in_set id l = l.
Proof.
  induction 1 as [|o l E H IH]; [done|]. unfold in_set in *. cbn [List.filter].
  by rewrite (bool_decide_eq_true_2 _ E), IH.
Qed.

(** A new complete set keeps every set complete. *)
Lemma validate_add_members all members first n :
  validateDelegationSets all = Ok tt -> Forall (fun o => all !! sd_OperationID o = None) members ->
  NoDup (map sd_OperationID members) -> in_set (sd_SetID first) (delegation_ops all) = [] ->
  Forall (fun o => same_set o first = true /\ sd_SetSize o = n) members -> 1 <= n <= 50 ->
  map sd_SetIndex members = seqZ 0 n ->
  validateDelegationSets (add_members members all) = Ok tt.
Proof.
  intros Hv Hf Hn Hnone HF Hsize Hidx. apply validateDelegationSets_intro. intros id Hne.
  pose proof (delegation_ops_add members all Hn Hf) as Hp.
  pose proof (in_set_perm id _ _ Hp) as Hpi. rewrite in_set_app in Hpi.
  assert (Forall (fun o => sd_SetID o = sd_SetID first) members) as Hset.
  { eapply Forall_impl; [exact HF|]. intros o [Ho _]. apply same_set_true in Ho. tauto. }
  destruct (decide (id = sd_SetID first)) as [->|Hid].
  - rewrite Hnone, app_nil_r, (in_set_all _ _ Hset) in Hpi.
    eapply (check_set_intro _ first n); [|done|].
    + by rewrite Hpi.
    + rewrite Hpi. by rewrite Hidx.
  - assert (in_set id members = []) as Em.
    { apply in_set_none. eapply Forall_impl; [exact Hset|]. intros o E. congruence. }
    rewrite Em in Hpi. cbn in Hpi.
    assert (in_set id (delegation_ops all) <> []) as Hne'.
    { intros E. apply Hne. rewrite E in Hpi. by apply Permutation_nil_r in Hpi. }
    pose proof (validateDelegationSets_Ok _ _ Hv Hne') as Hc.
    apply check_set_Ok in Hc as (f & k & _ & Hk & HFk & Hik); [|done].
    eapply (check_set_intro _ f k); [|done|].
    + by rewrite Hpi.
    + by rewrite Hpi.
Qed.

Lemma load_new_set d key all members first n rest :
  loadSpendingDelegations d key = Ok all ->
  Forall (fun o => validateDelegation o = Ok tt /\ sd_encodable o /\ blen (marshal_delegation o) <= 131072) members ->
  Forall (fun o => all !! sd_OperationID o = None) members -> NoDup (map sd_OperationID members) ->
  in_set (sd_SetID first) (delegation_ops all) = [] ->
  Forall (fun o => same_set o first = true /\ sd_SetSize o = n) members -> 1 <= n <= 50 ->
  map sd_SetIndex members = seqZ 0 n ->
  rest = set_delegation (Build_JournalTables (t_jop (db_delegation d) ++ map (delegation_row key) members)
           (t_jevent (db_delegation d))) d ->
  loadSpendingDelegations rest key = Ok (add_members members all).
Proof.
  intros H Hm Hf Hn Hnone HF Hsize Hidx ->. unfold loadSpendingDelegations in *.
  apply bind_Ok in H as (all0 & Ho & H). apply bind_Ok in H as ([] & Hset & He).
  pose proof (delegation_events_ops _ _ _ _ He) as Hops.
  assert (Forall (fun o => all0 !! sd_OperationID o = None) members) as Hf0.
  { eapply Forall_impl; [exact Hf|]. intros o Hout.
    apply (f_equal (fun m => m !! sd_OperationID o)) in Hops. rewrite !lookup_fmap, Hout in Hops.
    by destruct (all0 !! sd_OperationID o). }
  assert (in_set (sd_SetID first) (delegation_ops all0) = []) as Hnone0.
  { apply Permutation_nil_r. rewrite <-Hnone. symmetry. apply in_set_perm. by apply delegation_ops_ext. }
  cbn [db_delegation set_delegation t_jop t_jevent]. rewrite fold_res_app, Ho. cbn [mbind result_bind].
  rewrite load_members by done. cbn [mbind result_bind].
  rewrite (validate_add_members all0 members first n) by done. cbn [mbind result_bind].
  by apply delegation_events_frames.
Qed.

(** ** The checks of a schedule *)
Lemma check_positions_Ok first n i members u :
  check_positions first n i members = Ok u ->
  Forall (fun o => same_set o first = true /\ sd_SetSize o = n) members /\
  map sd_SetIndex members = seqZ i (Z.of_nat (length members)).
Proof.
  revert i. induction members as [|o members IH]; intros i H; cbn [check_positions] in H; [done|].
  apply bind_Ok in H as ([] & Hc & H). apply fail_if_Ok in Hc. rewrite !orb_false_split in Hc.
  destruct Hc as ((((((H1 & H2) & H3) & H4) & H5) & H6) & H7). bool_hyps.
  apply IH in H as [HF Hidx]. split.
  - constructor; [|done]. split; [by apply same_set_true|lia].
  - cbn [map length]. rewrite seqZ_cons by lia. rewrite Hidx. f_equal; [lia|]. f_equal; lia.
Qed.

Lemma check_distinct_Ok ops outpoints members u :
  check_distinct ops outpoints members = Ok u ->
  NoDup (map sd_OperationID members) /\ NoDup (map member_outpoint members) /\
  Forall (fun o => sd_OperationID o ∉ ops /\ member_outpoint o ∉ outpoints) members.
Proof.
  revert ops outpoints. induction members as [|o members IH]; intros ops outpoints H; cbn [check_distinct] in H.
  { split_and!; constructor. }
  inv_ok. bool_hyps. apply IH in H as (H1 & H2 & H3). rewrite Forall_forall in H3. split_and!.
  - cbn. constructor; [|done]. intros Hin. apply list_elem_of_fmap in Hin as (o' & Eo & Hin).
    specialize (H3 _ Hin). set_solver.
  - cbn. constructor; [|done]. intros Hin. apply list_elem_of_fmap in Hin as (o' & Eo & Hin).
    specialize (H3 _ Hin). set_solver.
  - constructor; [done|]. apply Forall_forall. intros o' Hin. specialize (H3 _ Hin). set_solver.
Qed.

Lemma insert_ops_Ok key members l l' u :
  each_M (fun o => insert_delegation_op (delegation_row key o)) members l = (l', Ok u) ->
  l' = set_db (set_delegation (Build_JournalTables (t_jop (db_delegation (l_db l)) ++ map (delegation_row key) members)
                 (t_jevent (db_delegation (l_db l)))) (l_db l)) l.
Proof.
  revert l. induction members as [|o members IH]; intros l H; cbn [each_M] in H.
  - inv_M. cbn. rewrite app_nil_r. by destruct l as [[? ? ? [] ? ?] ? ? ? ? ? ? ?].
  - write_step H l1 H1. unfold insert_delegation_op in H1. inv_M. apply IH in H as ->. cbn. by rewrite <-app_assoc.
Qed.

Lemma retry_member_Ok grouped o s :
  retry_member grouped o = Ok s ->
  s ∈ grouped /\ ds_Operation s = sd_set_CreatedAt (sd_CreatedAt (ds_Operation s)) o.
Proof.
  unfold retry_member. destruct (List.find _ grouped) as [s0|] eqn:Ef; [|done]. intros H. inv_ok. bool_hyps.
  apply List.find_some in Ef as [Hin _]. split; [by apply list_elem_of_In|]. congruence.
Qed.

(** What a newly scheduled set has passed. *)
Record schedule_ok (members : list SpendingDelegation) (all : gmap bytes SpendingDelegationSnapshot)
  (cred : bytes) (n : Z) (l l1 : Ledger) : Prop := {
  so_valid : Forall (fun o => validateDelegation o = Ok tt) members;
  so_new : Forall (fun o => all !! sd_OperationID o = None) members;
  so_ids : NoDup (map sd_OperationID members);
  so_coins : NoDup (map member_outpoint members);
  so_index : map sd_SetIndex members = seqZ 0 (Z.of_nat (length members));
  so_count : exists v, Forall (fun o => sd_VaultID o = v) members /\
    advanceSignCountLocked v cred n l = (l1, Ok tt) /\
    Forall (fun s => Forall (fun o => same_input (ds_Operation s) o = false) members) (live_delegations v all) /\
    Z.of_nat (length (live_delegations v all)) + Z.of_nat (length members) <= 256 /\
    rejectActiveSpendingRenewal l1 v = Ok tt;
  so_payments : exists key, integrityKeyCopy l = Ok key /\
    Forall (fun o => rejectDelegationPaymentOverlap l1 key o = Ok tt) members;
}.

Lemma schedule_new_Ok key all first members cred n l l' res :
  schedule_new_set key all first members cred n l = (l', Ok res) ->
  Forall (fun o => same_set o first = true /\ sd_SetSize o = Z.of_nat (length members)) members ->
  map sd_SetIndex members = seqZ 0 (Z.of_nat (length members)) ->
  NoDup (map sd_OperationID members) -> NoDup (map member_outpoint members) -> integrityKeyCopy l = Ok key ->
  exists l1, schedule_ok members all cred n l l1 /\
    res = map (fun o => Build_SpendingDelegationSnapshot o ∅) members /\
    l' = set_db (set_delegation (Build_JournalTables (t_jop (db_delegation (l_db l1)) ++ map (delegation_row key) members)
                   (t_jevent (db_delegation (l_db l1)))) (l_db l1)) l1.
Proof.
  intros H HF Hidx Hids Hcoins Hk. unfold schedule_new_set in H. read_step H u1 Hb. read_step H u2 Hv.
  read_step H enrolled He. read_step H u3 Hc. write_step H l1 Ha. read_step H u4 Hlive. read_step H u5 Hcap.
  read_step H u6 Hp. read_step H u7 Hr. write_step H l2 Hi. inv_M. apply insert_ops_Ok in Hi as ->.
  destruct u7. apply each_Ok in Hb, Hv, Hp. exists l1. split_and!; [|done|done]. constructor; try done.
  - eapply Forall_impl; [exact Hb|]. intros o. cbn. by destruct (all !! sd_OperationID o).
  - exists (sd_VaultID first). split_and!; [|done| | |done].
    + eapply Forall_impl; [exact HF|]. intros o [Ho _]. by apply same_set_true in Ho as [? _].
    + apply Forall_forall. intros s Hs. apply (existsb_none _ _ _ Hlive) in Hs.
      apply Forall_forall. intros o Ho. by apply (existsb_none _ _ _ Hs).
    + bool_hyps. lia.
  - exists key. done.
Qed.

(** The stored set of the request, all of it, is the answer. *)
Definition stored_set_is (plans : list SpendingDelegation) (all : gmap bytes SpendingDelegationSnapshot)
  (res : list SpendingDelegationSnapshot) : Prop :=
  exists first, head plans = Some first /\ in_set (sd_SetID first) (delegation_ops all) ≡ₚ map ds_Operation res.

Lemma in_set_snapshots id (snapshots : list SpendingDelegationSnapshot) :
  in_set id (map ds_Operation snapshots) = map ds_Operation (List.filter (fun s => sd_SetID (ds_Operation s) == id) snapshots).
Proof. induction snapshots as [|s l IH]; [done|]. unfold in_set in *. simpl. case_bool_decide; simpl; by rewrite IH. Qed.

(** As many distinct members as the stored set has, each of them stored, are the
    whole set. *)
Lemma retry_is_stored grouped plans res :
  Forall2 (fun o s => s ∈ grouped /\ ds_Operation s = sd_set_CreatedAt (sd_CreatedAt (ds_Operation s)) o) plans res ->
  NoDup (map sd_OperationID plans) -> length grouped = length plans ->
  map ds_Operation grouped ≡ₚ map ds_Operation res.
Proof.
  intros HF Hn Hl. symmetry. apply submseteq_length_Permutation.
  - apply NoDup_submseteq.
    + apply (NoDup_fmap_1 sd_OperationID). enough (map sd_OperationID (map ds_Operation res) = map sd_OperationID plans) as E
        by exact (eq_ind_r NoDup Hn E).
      clear -HF. induction HF as [|o s plans res [_ E] _ IH]; [done|]. simpl. rewrite IH. f_equal. by rewrite E.
    + intros o (s & -> & Hs)%list_elem_of_fmap. apply list_elem_of_fmap. exists s. split; [done|].
      apply list_elem_of_lookup in Hs as [i Hi]. destruct (Forall2_lookup_r _ _ _ _ _ HF Hi) as (o & _ & Hin & _). done.
  - rewrite !length_map, Hl. rewrite <-(Forall2_length _ _ _ HF). done.
Qed.

(** A successful schedule: an exact retry, or a whole new set. *)
Lemma schedule_Ok plans cred n key all l l' res :
  Forall (plan_storable (l_now l)) plans -> integrityKeyCopy l = Ok key ->
  loadSpendingDelegations (l_db l) key = Ok all -> ScheduleVtxoDelegationSet plans cred n l = (l', Ok res) ->
  let members := map (sd_set_CreatedAt (format_rfc3339 (l_now l))) plans in
  1 <= Z.of_nat (length plans) <= 50 /\
  ((l_db l' = l_db l /\ Forall2 (fun o s => all !! sd_OperationID o = Some s /\
      ds_Operation s = sd_set_CreatedAt (sd_CreatedAt (ds_Operation s)) o) plans res /\
      stored_set_is plans all res) \/
   (exists l0 l1, same_view l l0 /\ schedule_ok members all cred n l0 l1 /\
      res = map (fun o => Build_SpendingDelegationSnapshot o ∅) members /\
      loadSpendingDelegations (l_db l') key = Ok (add_members members all) /\
      db_vtxo (l_db l') = db_vtxo (l_db l) /\ db_renewal (l_db l') = db_renewal (l_db l) /\
      db_tenant (l_db l') = db_tenant (l_db l1))).
Proof.
  intros Hst Hk Hl H members. unfold ScheduleVtxoDelegationSet in H. read_step H u Hn. read_step H now Hnow.
  apply Ok_inj in Hnow as <-. change (NowUTC l) with (l_now l) in H. fold members in H.
  assert (length members = length plans) as Hlen by apply length_map.
  assert (Forall (fun o => sd_encodable o /\ blen (marshal_delegation o) <= 131072) members) as Hst'.
  { apply Forall_fmap. exact Hst. }
  bool_hyps. split; [lia|].
  assert (exists first, withSpendingRenewalTx (fun key => schedule_body key first members cred n) l = (l', Ok res))
    as (first & H') by (destruct members; [by inv_M|eauto]). clear H. rename H' into H.
  apply withTx_Ok in H as (key' & l2 & Hk' & H & Ho & _). rewrite Hk in Hk'. apply Ok_inj in Hk' as <-.
  apply observe_same_view in Ho as (Hdb & _ & _). unfold schedule_body in H.
  read_step H all' Hall. rewrite Hl in Hall. apply Ok_inj in Hall as <-.
  write_step H l0 Hobs. apply observe_same_view in Hobs as Hview. destruct (Hview) as (Hv1 & Hv2 & _).
  read_step H u1 Hpos. read_step H u2 Hdist.
  apply check_positions_Ok in Hpos as [HF Hidx]. apply check_distinct_Ok in Hdist as (Hids & Hcoins & _).
  destruct (List.filter _ (map snd (map_to_list all))) as [|g grouped] eqn:Eg.
  - right. apply schedule_new_Ok in H as (l1 & Hok & Hres & ->); try done.
    2:{ unfold integrityKeyCopy in *. by rewrite Hv2. }
    exists l0, l1. split_and!; try done.
    all: destruct Hok as [Hval Hnew _ _ _ (v & _ & Hadv & _) _].
    all: apply advance_frame in Hadv as (t & ->); rewrite Hdb; cbn [l_db set_db]; rewrite ?Hv1; try done.
    eapply (load_new_set (set_tenant t (l_db l)) key all members first (Z.of_nat (length members))); try done.
    + apply Forall_forall. intros o Ho. rewrite Forall_forall in Hval, Hst'. destruct (Hst' _ Ho). auto.
    + apply in_set_none, Forall_forall. intros o Ho E. unfold delegation_ops in Ho.
      apply list_elem_of_fmap in Ho as ([k s] & -> & Ho). cbn [snd] in *.
      assert (In s (List.filter (fun s => sd_SetID (ds_Operation s) == sd_SetID first) (map snd (map_to_list all)))) as Hin.
      { apply List.filter_In. split; [|by apply bool_decide_eq_true]. apply in_map_iff. exists (k, s).
        split; [done|]. by apply list_elem_of_In. }
      rewrite Eg in Hin. destruct Hin.
    + lia.
  - left. rewrite <-Eg in H. read_step H u3 Hcount. inv_M. split; [congruence|].
    apply collect_Ok in H. unfold members in H. apply Forall2_fmap_l in H.
    assert (Forall2 (fun o s => s ∈ List.filter (fun s => sd_SetID (ds_Operation s) == sd_SetID first) (map snd (map_to_list all)) /\
      ds_Operation s = sd_set_CreatedAt (sd_CreatedAt (ds_Operation s)) o) plans res) as HR.
    { eapply Forall2_impl; [exact H|]. intros o s Hr. cbn in Hr. by apply retry_member_Ok in Hr. }
    split; [|destruct plans as [|o plans]; [cbn in *; lia|]; exists o; split; [done|]].
    2:{ apply Forall_cons in HF as [[(_ & _ & _ & Es & _)%same_set_true _] _]. cbn in Es. rewrite Es.
        unfold delegation_ops. rewrite <-(map_map snd ds_Operation), in_set_snapshots. apply (retry_is_stored _ (o :: plans)); [exact HR| |lia].
        unfold members in Hids. by rewrite map_map in Hids. }
    eapply Forall2_impl; [exact HR|]. intros o s [Hin Hop]. cbn in Hop. split; [|exact Hop]. apply list_elem_of_In, List.filter_In in Hin as [Hin _].
    apply in_map_iff in Hin as ([k s'] & <- & Hin). apply list_elem_of_In, elem_of_map_to_list in Hin. cbn [snd] in *.
    destruct (delegations_loaded _ _ _ Hl _ _ Hin) as [Hid _ _]. rewrite Hop in Hid. cbn in Hid. by rewrite Hid.
Qed.

(** No coin of an unresolved payment of the vault is scheduled. *)
Lemma paymentOverlap_Ok l key o u i r :
  rejectDelegationPaymentOverlap l key o = Ok u -> i ∈ t_input (db_vtxo (l_db l)) -> r ∈ t_operation (db_vtxo (l_db l)) ->
  vo_OperationID r = vi_OperationID i -> vo_VaultID r = sd_VaultID o -> vtxoStateBlocksNewOperation (vo_State r) = true ->
  ~ (hex_encode (vi_Txid i) = sd_InputTxid o /\ vi_Vout i = sd_InputVout o).
Proof.
  unfold rejectDelegationPaymentOverlap. intros H Hi Hr Eid Ev Hb [Ht Hvout]. inv_ok.
  destruct (collect_elem _ _ _ _ E Hr) as (rec & Hrec & Hv). destruct (collect_elem _ _ _ _ E0 Hi) as (i' & Hi' & Hvi).
  unfold authenticated_operation in Hv. apply bind_Ok in Hv as (rec' & Hs & Hv). apply bind_Ok in Hv as (? & _ & Hv).
  apply Ok_inj in Hv as <-. unfold authenticated_input in Hvi. apply bind_Ok in Hvi as (? & _ & Hvi). apply Ok_inj in Hvi as <-.
  apply scanVtxoOperation_Ok in Hs as ->.
  apply orb_false_split in H as [H _].
  assert (i ∈ List.filter (fun i => bool_decide (vi_OperationID i ∈ (list_to_set (map vo_OperationID
    (List.filter (fun rec => (vo_VaultID rec == sd_VaultID o) && vtxoStateBlocksNewOperation (vo_State rec)) r0)) : gset bytes))) r1) as Hin.
  { apply list_elem_of_In, List.filter_In. split; [by apply list_elem_of_In|]. apply bool_decide_eq_true.
    apply elem_of_list_to_set, list_elem_of_fmap. exists r. split; [done|].
    apply list_elem_of_In, List.filter_In. split; [by apply list_elem_of_In|].
    rewrite Hb, andb_true_r. by apply bool_decide_eq_true. }
  apply (existsb_none _ _ _ H) in Hin. rewrite (bool_decide_eq_true_2 _ Ht), Hvout, Z.eqb_refl in Hin. done.
Qed.

Lemma schedule_loads plans cred n l l' res :
  ScheduleVtxoDelegationSet plans cred n l = (l', Ok res) ->
  exists key all, integrityKeyCopy l = Ok key /\ loadSpendingDelegations (l_db l) key = Ok all.
Proof.
  unfold ScheduleVtxoDelegationSet. intros H. read_step H u Hn. read_step H now Hnow.
  destruct (map _ plans); [by inv_M|]. apply withTx_Ok in H as (key & l1 & Hk & H & _).
  unfold schedule_body in H. read_step H m Hl. eauto.
Qed.

Lemma schedule_rollback plans cred n l l' e :
  ScheduleVtxoDelegationSet plans cred n l = (l', Err e) -> l_db l' = l_db l.
Proof.
  unfold ScheduleVtxoDelegationSet. intros H. apply guard_bind_inv in H as [[_ H]|[-> _]]; [|done].
  apply read_bind_inv in H as [(now & _ & H)|[-> _]]; [|done]. destruct (map _ plans).
  - unfold lift in H. by apply pair_equal_spec in H as [<- _].
  - by apply withTx_Err in H.
Qed.

Lemma advance_rollback e allowance l l' err : AdvanceSpendingDelegation e allowance l = (l', Err err) -> l_db l' = l_db l.
Proof.
  unfold AdvanceSpendingDelegation. intros H. apply read_bind_inv in H as [(now & _ & H)|[-> _]]; [|done].
  by apply withTx_Err in H.
Qed.

(** C9: scheduling a renewal set is all or nothing.  A refused call changes no
    table.  An accepted one is either an exact retry: the journal already holds
    this set, all of it and nothing more, each member equal to the requested one
    but for its time of creation, and no table changes, so no passkey assertion is
    consumed; or it records every member at once as an armed delegation, with
    consecutive positions and distinct operations, for coins that no live
    delegation of the vault and no unresolved payment of the vault uses, and the
    passkey counter moves strictly forward, or stays 0 for an authenticator that
    counts nothing.  The plans are assumed to read back once stored: their texts
    are valid UTF-8 and a row has at most 131072 bytes ([plan_storable]). *)
Theorem delegation_schedule_atomic plans cred n l l' r :
  Forall (plan_storable (l_now l)) plans -> 0 <= n -> ScheduleVtxoDelegationSet plans cred n l = (l', r) ->
  match r with
  | Err _ => l_db l' = l_db l
  | Ok res => exists key all, integrityKeyCopy l = Ok key /\ loadSpendingDelegations (l_db l) key = Ok all /\
      1 <= Z.of_nat (length plans) <= 50 /\
      (l_db l' = l_db l /\ stored_set_is plans all res /\
         Forall2 (fun o s => all !! sd_OperationID o = Some s /\
           ds_Operation s = sd_set_CreatedAt (sd_CreatedAt (ds_Operation s)) o) plans res
       \/
       let members := map (sd_set_CreatedAt (format_rfc3339 (l_now l))) plans in
       res = map (fun o => Build_SpendingDelegationSnapshot o ∅) members /\ NoDup (map sd_OperationID members) /\
       map sd_SetIndex members = seqZ 0 (Z.of_nat (length members)) /\
       exists v, loadSpendingDelegations (l_db l') key = Ok (add_members members all) /\
         Forall (fun o => sd_VaultID o = v /\ all !! sd_OperationID o = None) members /\
         Forall (fun o => Forall (fun s => same_input (ds_Operation s) o = false) (live_delegations v all)) members /\
         (forall o i p, o ∈ members -> i ∈ t_input (db_vtxo (l_db l')) -> p ∈ t_operation (db_vtxo (l_db l')) ->
            vo_OperationID p = vi_OperationID i -> vo_VaultID p = v -> vtxoStateBlocksNewOperation (vo_State p) = true ->
            ~ (hex_encode (vi_Txid i) = sd_InputTxid o /\ vi_Vout i = sd_InputVout o)) /\
         match stored_count l v cred with
         | None => stored_count l' v cred = Some n
         | Some m => stored_count l' v cred = Some n /\ (m < n \/ m = n /\ n = 0)
         end)
  end.
Proof.
  intros Hst Hn H. destruct r as [res|err]; [|by eapply schedule_rollback].
  destruct (schedule_loads _ _ _ _ _ _ H) as (key & all & Hk & Hl). exists key, all. split; [done|]. split; [done|].
  eapply schedule_Ok in H as [Hlen [(Hdb & HF & Hset)|(l0 & l1 & Hview & Hok & -> & Hload & Hvt & _ & Htn)]]; [|split; [lia|right]|done..].
  { split; [lia|]. by left. }
  destruct Hok as [Hval Hnew Hids Hcoins Hidx (v & Hvault & Hadv & Hlive & _ & _) (key' & Hk' & Hpay)].
  assert (key' = key) as ->.
  { destruct Hview as (_ & Hkey & _). unfold integrityKeyCopy in *. rewrite Hkey, Hk in Hk'. by apply Ok_inj in Hk'. }
  cbv zeta. split_and!; [done..|]. exists v. split_and!; try done.
  - apply Forall_forall. intros o Ho. rewrite Forall_forall in Hvault, Hnew. split; [by apply Hvault|by apply Hnew].
  - apply Forall_forall. intros o Ho. eapply Forall_impl; [exact Hlive|]. intros s Hs. rewrite Forall_forall in Hs. by apply Hs.
  - intros o i p Ho Hi Hp Eid Ev. rewrite Forall_forall in Hpay, Hvault. specialize (Hpay _ Ho).
    apply advance_vtxo_frame in Hadv as Hf. destruct Hview as (Hv1 & _). rewrite Hvt, <-Hv1, <-Hf in Hi, Hp.
    apply (paymentOverlap_Ok l1 key o tt i p Hpay Hi Hp Eid). by rewrite (Hvault _ Ho).
  - pose proof (advanceSignCountLocked_Ok _ _ _ _ _ Hn Hadv) as (Hc & _).
    assert (stored_count l' v cred = stored_count l1 v cred) as -> by (unfold stored_count, sign_count_row; by rewrite Htn).
    assert (stored_count l0 v cred = stored_count l v cred) as E0
      by (unfold stored_count, sign_count_row; destruct Hview as (-> & _); done).
    rewrite E0 in Hc. destruct (stored_count l v cred) as [m|] eqn:Em; [|done].
    destruct Hc as [_ [[? ?]|(-> & -> & ->)]]; auto.
Qed.

Lemma delegation_schedule_atomic_witness :
  exists l' r, ScheduleVtxoDelegationSet [demo_delegation] (str "cred") 4 demo_enrolled_ledger = (l', r) /\
    match r with
    | Ok res => exists key all, loadSpendingDelegations (l_db demo_enrolled_ledger) key = Ok all /\
        (stored_set_is [demo_delegation] all res \/
         loadSpendingDelegations (l_db l') key
         = Ok (add_members (map (sd_set_CreatedAt (format_rfc3339 (l_now demo_enrolled_ledger))) [demo_delegation]) all))
    | Err _ => False
    end.
Proof.
  destruct (ScheduleVtxoDelegationSet [demo_delegation] (str "cred") 4 demo_enrolled_ledger) as [l' r] eqn:E.
  exists l', r. split; [reflexivity|]. destruct r as [res|err].
  - destruct (delegation_schedule_atomic [demo_delegation] (str "cred") 4 demo_enrolled_ledger l' (Ok res)
      ltac:(repeat constructor; vm_compute; congruence) ltac:(lia) E) as (key & all & _ & Hl & _ & H).
    exists key, all. split; [exact Hl|]. destruct H as [(_ & Hs & _)|(_ & _ & _ & v & H & _)]; [left; exact Hs|right; exact H].
  - apply (f_equal (fun p => is_ok (snd p))) in E. vm_compute in E. discriminate E.
Defined.
