(* ===== verification/Session.v ===== *)
(** * Passkey sessions ([src/internal/application/session.go],
    [session_challenge.go])

    Challenges are stateless tickets: the JSON record and its MAC under a random
    key of the process, in base64url.  The service only remembers the tickets
    that were spent by a successful owner authentication, until they expire.

    - [issuePasskeyChallenge], [passkeyChallengeLocked], [readPasskeyChallenge],
      [consumePasskeyChallenge]: the ticket operations on the session state;
    - [authenticatePasskeySession]: the handler every passkey-authenticated
      workflow starts with, composed of the ticket, the vault's stored
      credential, the WebAuthn assertion, the DirectP256 proof and the
      authenticator counter.

    The handler takes the session mutex twice, to read the ticket and to consume
    it; other requests may run in between, so it is given the two session states
    it sees. *)
From Stdlib Require Import Strings.Byte.
From S2P Require Import Prelude Sha256 Text Base64 GoTime Json P256 WebAuthn Program Tenant Store TenantLedger.

Definition passkeyPurposeRecover : bytes := str "recover".
Definition passkeyPurposeInstall : bytes := str "install-envelope".
Definition passkeyPurposeTransition : bytes := str "transition".
Definition passkeyPurposeMapWrite : bytes := str "map-write".
Definition recoveryArchivePurpose : bytes := str "recovery-archive-open".
Definition passkeyChallengeTTL : Z := 2 * minute.
Definition passkeyProofDomain : bytes := str "arkade-2fa-vault/passkey-proof/v1".

Definition passkeyChallengeTicketPrefix : bytes := str "v2.".
Definition passkeyChallengeTicketLimit : Z := 2048.
Definition maxConsumedPasskeyChallenges : Z := 4096.
Definition maxConsumedPasskeyChallengesPerVault : Z := 256.
Definition challenge_mac_domain : bytes := str "vaulted/passkey-challenge/v2" ++ [Byte.x00].

Definition ErrVerificationBusy : error := ErrMsg "crypto verification capacity exhausted".

(** A [time.Time]: the instant in nanoseconds, and the offset of its location
    in seconds, which only its text shows. *)
Record gotime := { tm_ns : Z; tm_off : Z }.

Definition add_time (t : gotime) (d : Z) : gotime := {| tm_ns := tm_ns t + d; tm_off := tm_off t |}.

(** [now.Before(t)] *)
Definition before (now t : gotime) : bool := tm_ns now <? tm_ns t.

(** [MarshalJSON] refuses years beyond four digits and offsets of a day or more. *)
Definition year_ok (t : gotime) : bool :=
  (-62167219200 <=? unix (tm_ns t) + tm_off t) && (unix (tm_ns t) + tm_off t <? 253402300800).

Definition time_marshal (t : gotime) : option bytes :=
  if year_ok t && (Z.abs (Z.quot (tm_off t) 60) <? 24 * 60) then Some (format_zoned (tm_ns t) (tm_off t)) else None.

Definition time_unmarshal (s : bytes) : option gotime :=
  '(t, off) ← parse_zoned s; Some {| tm_ns := t; tm_off := off |}.

(** ** Tickets *)
Record passkeyChallenge := {
  pc_VaultID : bytes;
  pc_Purpose : bytes;
  pc_Challenge : option bytes;   (* [None] is the nil slice *)
  pc_ExpiresAt : gotime;
}.

(** The JSON object of a ticket.  The time is a string member here; a member
    that is not the canonical text of a time is refused either way, because the
    record is marshalled again and compared. *)
Definition ticket_schema : list jfield :=
  [{| jf_name := str "VaultID"; jf_kind := KStr; jf_omit := false |};
   {| jf_name := str "Purpose"; jf_kind := KStr; jf_omit := false |};
   {| jf_name := str "Challenge"; jf_kind := KBytes; jf_omit := false |};
   {| jf_name := str "ExpiresAt"; jf_kind := KStr; jf_omit := false |}].

Definition marshal_ticket (c : passkeyChallenge) : option bytes :=
  at_ ← time_marshal (pc_ExpiresAt c);
  Some (marshal_struct ticket_schema
          [SStr (pc_VaultID c); SStr (pc_Purpose c); SBytes (pc_Challenge c); SStr at_]).

Definition unmarshal_ticket (s : bytes) : option passkeyChallenge :=
  vals ← unmarshal_struct ticket_schema s;
  match vals with
  | [v; p; c; t] =>
      at_ ← time_unmarshal (get_str t);
      Some {| pc_VaultID := get_str v; pc_Purpose := get_str p; pc_Challenge := get_bytes c; pc_ExpiresAt := at_ |}
  | _ => None
  end.

(** ** The session state of the service *)
Record consumedPasskeyChallenge := { cp_VaultID : bytes; cp_ExpiresAt : Z }.

Record Sessions := {
  ss_key : bytes;                                    (* sessionChallengeKey; nil is empty *)
  ss_consumed : gmap bytes consumedPasskeyChallenge; (* by SHA-256 of the raw ticket *)
}.

Definition set_ss_key (k : bytes) (s : Sessions) : Sessions :=
  {| ss_key := k; ss_consumed := ss_consumed s |}.
Definition set_consumed (m : gmap bytes consumedPasskeyChallenge) (s : Sessions) : Sessions :=
  {| ss_key := ss_key s; ss_consumed := m |}.

Record PasskeyChallengeResponse := {
  pr_ChallengeID : bytes;
  pr_Challenge : bytes;
  pr_AllowCredentialID : bytes;
  pr_ExpiresInSeconds : Z;
}.

Definition ticket_mac (key payload : bytes) : bytes := hmac_sha256 key (challenge_mac_domain ++ payload).

Definition ticket_id (key payload : bytes) : bytes :=
  passkeyChallengeTicketPrefix ++ rawurl_encode (payload ++ ticket_mac key payload).

(** [rnd] and [rnd_key] are what [randomBytes(32)] returns for the challenge and,
    if the process has none yet, for the ticket key. *)
Definition issuePasskeyChallenge (now : gotime) (rnd rnd_key : result bytes)
    (vaultID purpose credentialID : bytes) (st : Sessions) : Sessions * result PasskeyChallengeResponse :=
  match rnd with
  | Err e => (st, Err e)
  | Ok challenge =>
      let record := {| pc_VaultID := vaultID; pc_Purpose := purpose; pc_Challenge := Some challenge;
                       pc_ExpiresAt := add_time now passkeyChallengeTTL |} in
      match marshal_ticket record with
      | None => (st, Err (ErrMsg "json: error calling MarshalJSON for type time.Time"))
      | Some payload =>
          if passkeyChallengeTicketLimit <? blen payload + sha256_Size
          then (st, Err (ErrMsg "passkey challenge identity too large"))
          else match (if blen (ss_key st) =? 0 then rnd_key else Ok (ss_key st)) with
          | Err e => (st, Err e)
          | Ok key =>
              (set_ss_key key st,
               Ok {| pr_ChallengeID := ticket_id key payload;
                     pr_Challenge := hex_encode challenge;
                     pr_AllowCredentialID := hex_encode credentialID;
                     pr_ExpiresInSeconds := passkeyChallengeTTL / second |})
          end
      end
  end.

Definition passkey_failed : error := ErrMsg "passkey authentication failed".

Definition passkeyChallengeLocked (now : gotime) (vaultID id purpose : bytes) (st : Sessions)
  : result (passkeyChallenge * bytes) :=
  let fail := Err passkey_failed in
  if negb (has_prefix id passkeyChallengeTicketPrefix)
     || (blen passkeyChallengeTicketPrefix + rawurl_encoded_len passkeyChallengeTicketLimit <? blen id)
     || negb (blen (ss_key st) =? 32)
  then fail
  else
    let encoded := trim_prefix id passkeyChallengeTicketPrefix in
    match rawurl_decode encoded with
    | None => fail
    | Some raw =>
        if (blen raw <=? sha256_Size) || (passkeyChallengeTicketLimit <? blen raw) || (rawurl_encode raw != encoded)
        then fail
        else
          let payload := take (length raw - Z.to_nat sha256_Size) raw in
          let tag := drop (length raw - Z.to_nat sha256_Size) raw in
          if negb (hmac_Equal (ticket_mac (ss_key st) payload) tag) then fail
          else match unmarshal_ticket payload with
          | None => fail
          | Some record =>
              match marshal_ticket record with
              | None => fail
              | Some canonical =>
                  if (payload != canonical) || (pc_VaultID record != vaultID) || (pc_Purpose record != purpose)
                     || negb (blen (default [] (pc_Challenge record)) =? 32) || negb (before now (pc_ExpiresAt record))
                  then fail
                  else
                    let digest := sha256 raw in
                    match ss_consumed st !! digest with
                    | Some _ => fail
                    | None => Ok (record, digest)
                    end
              end
          end
    end.

Definition readPasskeyChallenge (now : gotime) (vaultID id purpose : bytes) (st : Sessions) : result passkeyChallenge :=
  fst <$> passkeyChallengeLocked now vaultID id purpose st.

(** Purposes whose tickets are issued before the vault is known. *)
Definition anonymous_purpose (purpose : bytes) : bool :=
  (purpose == recoveryArchivePurpose) || (purpose == str "lnurl-register")
  || has_prefix purpose (str "lnurl-register:") || (purpose == str "lnurl-revoke").

Definition live (now : gotime) (c : consumedPasskeyChallenge) : bool := tm_ns now <? cp_ExpiresAt c.

(** [time_locked] and [now] are the two readings of the clock. *)
Definition consumePasskeyChallenge (time_locked now : gotime) (vaultID id purpose : bytes) (st : Sessions)
  : Sessions * result bytes :=
  let ticketVaultID := if anonymous_purpose purpose then [] else vaultID in
  if vaultID == [] then (st, Err (ErrMsg "authenticated challenge owner required"))
  else match passkeyChallengeLocked time_locked ticketVaultID id purpose st with
  | Err e => (st, Err e)
  | Ok (record, digest) =>
      let kept := filter (fun kv => live now (snd kv) = true) (ss_consumed st) in
      let ownerCount := Z.of_nat (size (filter (fun kv => cp_VaultID (snd kv) = vaultID) kept)) in
      if (maxConsumedPasskeyChallenges <=? Z.of_nat (size kept)) || (maxConsumedPasskeyChallengesPerVault <=? ownerCount)
      then (set_consumed kept st, Err ErrVerificationBusy)
      else (set_consumed (<[digest := {| cp_VaultID := vaultID; cp_ExpiresAt := tm_ns (pc_ExpiresAt record) |}]> kept) st,
            Ok (default [] (pc_Challenge record)))
  end.

(** ** The service around the tickets *)
(** [rnd] aside, what the handler sees of the rest of the service: the
    credential integrity key, and the ledger its stores are backed by. *)
Definition routeVaultID (vaultID : bytes) : result bytes :=
  let id := trim_space vaultID in
  if id == [] then Err (ErrMsg "vault id required") else Ok id.

Definition credentialIntegrityKey (key : bytes) : result bytes :=
  if blen key =? sha256_Size then Ok key
  else if negb (blen key =? 0) then Err (ErrMsg "credential integrity key must be 32 bytes")
  else Err (ErrMsg "credential integrity key is required").

(** [None] when the vault or its credential does not exist. *)
Definition loadVerifiedCredentialFor (service_key vaultID : bytes) (l : Ledger) : result (option Credential) :=
  key ← credentialIntegrityKey service_key;
  vaultID ← routeVaultID vaultID;
  found ← LoadVerifiedVault vaultID key l;
  match found with
  | Some (rec, Some vcred) => Ok (Some (toCredential rec vcred))
  | _ => Ok None
  end.

Definition loadVerifiedEnvelopeFor (service_key vaultID credentialID : bytes) (l : Ledger)
  : result (option CredentialEnvelope) :=
  key ← credentialIntegrityKey service_key;
  vaultID ← routeVaultID vaultID;
  envelope ← GetVaultEnvelope vaultID l;
  match envelope with
  | None => Ok None
  | Some e => _ ← wrap_err "authoritative credential envelope integrity verification failed: %w"
                    (VerifyVaultEnvelope e vaultID credentialID key); Ok (Some e)
  end.

Definition requireLedgerIntegrity (service_key : bytes) (l : Ledger) : result unit :=
  key ← credentialIntegrityKey service_key;
  RequireIntegrityKey key l.

Definition advanceSignCount (service_key vaultID credID : bytes) (count : Z) : M unit :=
  _ ← query (requireLedgerIntegrity service_key);
  AdvanceSignCount vaultID credID count.

(** [ctx] is [ctx.Err()]. *)
Definition IssuePasskeyChallengeFor (ctx : result unit) (now : gotime) (rnd rnd_key : result bytes) (service_key vaultID purpose : bytes)
    (l : Ledger) (st : Sessions) : Sessions * result PasskeyChallengeResponse :=
  let checked :=
    _ ← ctx;
    _ ← fail_if ((purpose != passkeyPurposeRecover) && (purpose != passkeyPurposeInstall)
                 && (purpose != passkeyPurposeTransition) && (purpose != passkeyPurposeMapWrite))
          (ErrMsg "invalid passkey challenge purpose");
    vaultID ← routeVaultID vaultID;
    cred ← loadVerifiedCredentialFor service_key vaultID l;
    match cred with
    | None => Err (ErrMsg "not enrolled")
    | Some cred =>
        _ ← (if purpose == passkeyPurposeRecover then
               envelope ← loadVerifiedEnvelopeFor service_key vaultID (cr_ID cred) l;
               fail_if (bool_decide (envelope = None)) (ErrMsg "passkey sign-in has not been enabled on the original device")
             else Ok tt);
        Ok (vaultID, cr_ID cred)
    end in
  match checked with
  | Err e => (st, Err e)
  | Ok (vaultID, credID) => issuePasskeyChallenge now rnd rnd_key vaultID purpose credID st
  end.

(** ** Requests *)
Record SessionAssertionRequest := {
  sr_ChallengeID : bytes;
  sr_CredentialID : bytes;
  sr_ClientDataJSON : bytes;
  sr_AuthenticatorData : bytes;
  sr_Signature : bytes;
  sr_DirectProof : bytes;
}.

Definition decodeHex (s : bytes) : result bytes :=
  if s == [] then Err (ErrMsg "empty")
  else match hex_decode s with Some b => Ok b | None => Err (ErrMsg "hex: %w") end.

Definition decodeFixedHex (encoded : bytes) (size : Z) (name : string) : result bytes :=
  let bad := Err (ErrMsg (name ++ " must be canonical lowercase hex")) in
  if negb (blen encoded =? size * 2) || (encoded != to_lower encoded) then bad
  else match hex_decode encoded with
       | Some raw => if blen raw =? size then Ok raw else bad
       | None => bad
       end.

Definition decodeAssertion (credentialID clientDataJSON authenticatorData signature : bytes) : result Assertion :=
  id ← decodeHex credentialID;
  cd ← decodeHex clientDataJSON;
  ad ← decodeHex authenticatorData;
  sig ← decodeHex signature;
  Ok {| a_CredentialID := id; a_ClientDataJSON := cd; a_AuthenticatorData := ad; a_DERSignature := sig |}.

Definition decodeBoundedSessionAssertion (req : SessionAssertionRequest) : result Assertion :=
  a ← decodeAssertion (sr_CredentialID req) (sr_ClientDataJSON req) (sr_AuthenticatorData req) (sr_Signature req);
  _ ← fail_if ((blen (a_CredentialID a) =? 0) || (1024 <? blen (a_CredentialID a))
               || (blen (a_ClientDataJSON a) =? 0) || (4096 <? blen (a_ClientDataJSON a))
               || (blen (a_AuthenticatorData a) <? 37) || (1024 <? blen (a_AuthenticatorData a))
               || (blen (a_DERSignature a) =? 0) || (128 <? blen (a_DERSignature a)))
        (ErrMsg "assertion field size");
  Ok a.

Definition passkeySessionProofDigest (purpose challenge credentialID : bytes) : bytes :=
  sha256 (passkeyProofDomain ++ [Byte.x00] ++ purpose ++ [Byte.x00] ++ challenge ++ [Byte.x00] ++ credentialID).

Definition rejectPRF (clientDataJSON : bytes) : result unit :=
  fail_if (ContainsPRFField clientDataJSON) (ErrMsg "prf material rejected").

Section Handler.
Context `{EcdsaVerify}.

Definition verifyDirectAuth (directPub digest compact : bytes) : result unit :=
  pub ← wrap_err "direct p256: %w" (ParseCompressedP256 directPub);
  wrap_err "direct auth: %w" (VerifyDigestLowS (Some pub) digest compact).

(** Everything [authenticatePasskeySession] checks between reading the ticket
    and consuming it. *)
Definition check_session_assertion (purpose : bytes) (req : SessionAssertionRequest) (cred : Credential) (challenge : bytes)
  : result Verified :=
  a ← or_err passkey_failed (decodeBoundedSessionAssertion req);
  _ ← fail_if (a_CredentialID a != cr_ID cred) (ErrMsg "this passkey does not belong to this vault");
  _ ← or_err passkey_failed (rejectPRF (a_ClientDataJSON a));
  verified ← or_err passkey_failed (Validate a
    {| e_CredentialID := cr_ID cred; e_WebAuthnP256 := cr_WebAuthnP256 cred; e_Challenge := challenge;
       e_Origin := cr_Origin cred; e_RPID := cr_RPID cred |});
  directProof ← or_err passkey_failed (decodeFixedHex (sr_DirectProof req) 64 "direct proof");
  _ ← or_err passkey_failed
        (verifyDirectAuth (cr_PhoneDirectP256 cred) (passkeySessionProofDigest purpose challenge (cr_ID cred)) directProof);
  Ok verified.

(** [admitted] is the outcome of [acquireVerification]; [st_read] and [st] are
    the session states when the ticket is read and when it is consumed. *)
Definition authenticatePasskeySession (admitted : result unit) (t_read t_locked t_now : gotime)
    (service_key purpose vaultID : bytes) (req : SessionAssertionRequest)
    (st_read st : Sessions) (l : Ledger) : Sessions * Ledger * result Credential :=
  let checked :=
    _ ← admitted;
    vaultID ← routeVaultID vaultID;
    record ← or_err passkey_failed (readPasskeyChallenge t_read vaultID (sr_ChallengeID req) purpose st_read);
    cred ← or_err passkey_failed (loadVerifiedCredentialFor service_key vaultID l);
    match cred with
    | None => Err passkey_failed
    | Some cred =>
        verified ← check_session_assertion purpose req cred (default [] (pc_Challenge record));
        Ok (vaultID, cred, verified)
    end in
  match checked with
  | Err e => (st, l, Err e)
  | Ok (vaultID, cred, verified) =>
      match consumePasskeyChallenge t_locked t_now vaultID (sr_ChallengeID req) purpose st with
      | (st', Err _) => (st', l, Err passkey_failed)
      | (st', Ok _) =>
          match advanceSignCount service_key vaultID (cr_ID cred) (v_SignCount verified) l with
          | (l', Err _) => (st', l', Err passkey_failed)
          | (l', Ok _) => (st', l', Ok cred)
          end
      end
  end.
End Handler.

Arguments sha256 : simpl never.
Arguments hmac_sha256 : simpl never.
Arguments ticket_mac : simpl never.
Arguments passkeyChallengeLocked : simpl never.

(** ** Which tickets are accepted *)
Definition ticket_raw (key payload : bytes) : bytes := payload ++ ticket_mac key payload.

(** [rec] is the authenticated content of the ticket [id]: [payload] is its
    canonical text. *)
Record ticket_of (key id : bytes) (rec : passkeyChallenge) (payload : bytes) : Prop := {
  to_key : blen key = 32;
  to_size : 0 < blen payload <= passkeyChallengeTicketLimit - sha256_Size;
  to_text : marshal_ticket rec = Some payload;
  to_record : unmarshal_ticket payload = Some rec;
  to_id : id = ticket_id key payload;
}.

Lemma ticket_raw_length key payload : blen (ticket_raw key payload) = blen payload + 32.
Proof.
  unfold ticket_raw, ticket_mac, blen. rewrite length_app, hmac_sha256_length. lia.
Qed.

Lemma ticket_raw_split key payload :
  take (length (ticket_raw key payload) - Z.to_nat sha256_Size) (ticket_raw key payload) = payload /\
  drop (length (ticket_raw key payload) - Z.to_nat sha256_Size) (ticket_raw key payload) = ticket_mac key payload.
Proof.
  unfold ticket_raw, ticket_mac. rewrite length_app, hmac_sha256_length.
  replace (length payload + 32 - Z.to_nat sha256_Size)%nat with (length payload) by (unfold sha256_Size; lia).
  by rewrite take_app_length, drop_app_length.
Qed.

Lemma passkeyChallengeLocked_Ok now vaultID id purpose st rec digest :
  passkeyChallengeLocked now vaultID id purpose st = Ok (rec, digest) <->
  exists payload, ticket_of (ss_key st) id rec payload /\
    pc_VaultID rec = vaultID /\ pc_Purpose rec = purpose /\ blen (default [] (pc_Challenge rec)) = 32 /\
    before now (pc_ExpiresAt rec) = true /\
    digest = sha256 (ticket_raw (ss_key st) payload) /\ ss_consumed st !! digest = None.
Proof.
  unfold passkeyChallengeLocked. split.
  - destruct (_ || _ || _) eqn:Hpre; [done|]. bool_hyps.
    match goal with Hp : has_prefix id _ = true |- _ => apply has_prefix_spec in Hp as [enc ->] end.
    rewrite trim_prefix_app. destruct (rawurl_decode enc) as [raw|] eqn:Eraw; [|done].
    destruct (_ || _ || _) eqn:Hraw; [done|]. bool_hyps.
    destruct (negb (hmac_Equal _ _)) eqn:Hmac; [done|]. unfold hmac_Equal in Hmac. bool_hyps.
    destruct (unmarshal_ticket _) as [record|] eqn:Eu; [|done].
    destruct (marshal_ticket record) as [canonical|] eqn:Em; [|done].
    destruct (_ || _ || _ || _ || _) eqn:Hc; [done|]. bool_hyps.
    destruct (ss_consumed st !! _) eqn:Hu; [done|]. intros [= <- <-].
    set (payload := take _ raw) in *. set (tag := drop _ raw) in *.
    assert (raw = ticket_raw (ss_key st) payload) as Er.
    { unfold ticket_raw. rewrite Hmac. unfold payload, tag. by rewrite take_drop. }
    exists payload. rewrite <-Er. repeat split; try done; try congruence.
    + rewrite Er, ticket_raw_length in *. unfold sha256_Size in *. lia.
    + rewrite Er, ticket_raw_length in *. unfold sha256_Size in *. lia.
    + unfold ticket_id. fold (ticket_raw (ss_key st) payload). rewrite <-Er. by f_equal.
  - intros (payload & [Hk Hs Ht Hr ->] & <- & <- & Hch & Hb & -> & Hn).
    pose proof (ticket_raw_length (ss_key st) payload) as Hl. destruct (ticket_raw_split (ss_key st) payload) as [S1 S2].
    unfold ticket_id. fold (ticket_raw (ss_key st) payload). rewrite has_prefix_app.
    replace (_ <? blen (_ ++ _)) with false.
    2:{ symmetry. apply Z.ltb_ge. unfold blen at 1. rewrite length_app, Nat2Z.inj_add.
        fold (blen (rawurl_encode (ticket_raw (ss_key st) payload))). rewrite rawurl_length, Hl.
        pose proof (rawurl_encoded_len_mono (blen payload + 32) passkeyChallengeTicketLimit
          ltac:(unfold sha256_Size in *; lia)). unfold blen in *. lia. }
    rewrite (proj2 (Z.eqb_eq _ _) Hk). cbn [negb orb]. rewrite trim_prefix_app, rawurl_roundtrip.
    rewrite Hl. unfold sha256_Size in Hs |- *. rewrite (proj2 (Z.leb_gt _ _)), (proj2 (Z.ltb_ge _ _)) by lia.
    rewrite bool_decide_eq_true_2 by done. cbn [negb orb]. unfold sha256_Size in S1, S2. rewrite S1, S2.
    unfold hmac_Equal. rewrite bool_decide_eq_true_2 by done. cbn [negb]. rewrite Hr, Ht.
    rewrite !bool_decide_eq_true_2, (proj2 (Z.eqb_eq _ _) Hch), Hb by done. cbn [negb orb]. by rewrite Hn.
Qed.

(** The ticket text determines the record. *)
Lemma ticket_of_inj key id r1 p1 r2 p2 : ticket_of key id r1 p1 -> ticket_of key id r2 p2 -> r1 = r2 /\ p1 = p2.
Proof.
  intros [_ _ _ R1 I1] [_ _ _ R2 I2]. assert (p1 = p2) as ->.
  { rewrite I1 in I2. unfold ticket_id in I2. apply app_inv_head in I2.
    apply (f_equal rawurl_decode) in I2. rewrite !rawurl_roundtrip in I2. injection I2 as I2.
    apply app_inj_2 in I2; [by destruct I2|]. unfold ticket_mac. by rewrite !hmac_sha256_length. }
  split; [congruence|done].
Qed.

(** What a successful consumption did. *)
Lemma consume_Ok t1 t2 vaultID id purpose st st' ch :
  consumePasskeyChallenge t1 t2 vaultID id purpose st = (st', Ok ch) ->
  exists rec payload, ticket_of (ss_key st) id rec payload /\ pc_Purpose rec = purpose /\
    pc_VaultID rec = (if anonymous_purpose purpose then [] else vaultID) /\
    before t1 (pc_ExpiresAt rec) = true /\ ch = default [] (pc_Challenge rec) /\ blen ch = 32 /\
    ss_key st' = ss_key st /\
    ss_consumed st' !! sha256 (ticket_raw (ss_key st) payload)
    = Some {| cp_VaultID := vaultID; cp_ExpiresAt := tm_ns (pc_ExpiresAt rec) |}.
Proof.
  unfold consumePasskeyChallenge. destruct (bool_decide (vaultID = [])); [done|].
  destruct (passkeyChallengeLocked _ _ _ _ _) as [[rec digest]|] eqn:E; [|done].
  apply passkeyChallengeLocked_Ok in E as (payload & Ht & Hv & Hp & Hc & Hb & -> & Hn).
  destruct (_ || _); intros H; [apply (f_equal snd) in H; discriminate H|].
  apply pair_equal_spec in H as [<- H]. apply Ok_inj in H as <-.
  exists rec, payload. repeat (split; [done|]). simpl. apply lookup_insert_eq.
Qed.

(** ** Runs of the session state

    Every request sees the clock at or after the previous one. *)
Inductive session_step : Z * Sessions -> Z * Sessions -> Prop :=
  | step_issue t now rnd rnd_key vaultID purpose credentialID st :
      t <= tm_ns now ->
      session_step (t, st) (tm_ns now, fst (issuePasskeyChallenge now rnd rnd_key vaultID purpose credentialID st))
  | step_consume t t1 t2 vaultID id purpose st :
      t <= tm_ns t1 -> tm_ns t1 <= tm_ns t2 ->
      session_step (t, st) (tm_ns t2, fst (consumePasskeyChallenge t1 t2 vaultID id purpose st)).

Lemma issue_state now rnd rnd_key v p c st :
  let st' := fst (issuePasskeyChallenge now rnd rnd_key v p c st) in
  ss_consumed st' = ss_consumed st /\ (blen (ss_key st) <> 0 -> ss_key st' = ss_key st).
Proof.
  unfold issuePasskeyChallenge. destruct rnd; [|done]. destruct (marshal_ticket _); [|done].
  destruct (_ <? _); [done|]. destruct (Z.eqb_spec (blen (ss_key st)) 0); [|done]. destruct rnd_key; done.
Qed.

(** The state a consumption leaves: the live tickets, and at most one more. *)
Lemma consume_state t1 t2 v id p st :
  let st' := fst (consumePasskeyChallenge t1 t2 v id p st) in
  let kept := filter (fun kv => live t2 (snd kv) = true) (ss_consumed st) in
  ss_key st' = ss_key st /\
  (st' = st \/ ss_consumed st' = kept \/
   exists digest e, ss_consumed st !! digest = None /\
     ss_consumed st' = <[digest := {| cp_VaultID := v; cp_ExpiresAt := e |}]> kept /\
     Z.of_nat (size kept) < maxConsumedPasskeyChallenges /\
     Z.of_nat (size (filter (fun kv => cp_VaultID (snd kv) = v) kept)) < maxConsumedPasskeyChallengesPerVault).
Proof.
  unfold consumePasskeyChallenge. destruct (bool_decide (v = [])); [by split; [|left]|].
  destruct (passkeyChallengeLocked _ _ _ _ _) as [[rec digest]|] eqn:E; [|by split; [|left]].
  apply passkeyChallengeLocked_Ok in E as (payload & _ & _ & _ & _ & _ & _ & Hn).
  destruct (_ || _) eqn:Hc; (split; [done|]); [by right; left|]. right; right. bool_hyps.
  by exists digest, (tm_ns (pc_ExpiresAt rec)).
Qed.

(** The digest is remembered until [e], or [e] has passed. *)
Definition spent (digest : bytes) (e : Z) (s : Z * Sessions) : Prop :=
  (exists c, ss_consumed (snd s) !! digest = Some c /\ e <= cp_ExpiresAt c) \/ e <= fst s.

Lemma session_step_spent digest e s s' : session_step s s' -> spent digest e s -> spent digest e s'.
Proof.
  intros [t now rnd rk v p c st Ht|t t1 t2 v id p st Ht Ht2] Hs; unfold spent in *; simpl in *.
  - destruct (issue_state now rnd rk v p c st) as [-> _]. destruct Hs as [?|?]; [by left|right; lia].
  - destruct Hs as [(c & Hc & He)|Hs]; [|right; lia].
    destruct (consume_state t1 t2 v id p st) as (_ & [->|[Hk|(d & e' & Hd & Hk & _)]]); [left; by exists c| |].
    + destruct (live t2 c) eqn:Hl.
      * left. exists c. split; [|done]. rewrite Hk. by apply map_lookup_filter_Some.
      * right. unfold live in Hl. apply Z.ltb_ge in Hl. lia.
    + destruct (live t2 c) eqn:Hl.
      * left. exists c. split; [|done]. rewrite Hk, lookup_insert_ne by congruence. by apply map_lookup_filter_Some.
      * right. unfold live in Hl. apply Z.ltb_ge in Hl. lia.
Qed.

Lemma session_step_key s s' : session_step s s' -> blen (ss_key (snd s)) = 32 -> ss_key (snd s') = ss_key (snd s).
Proof.
  intros [t now rnd rk v p c st Ht|t t1 t2 v id p st Ht Ht2] Hk; simpl in *.
  - apply issue_state. lia.
  - apply consume_state.
Qed.

(** A consumed ticket is refused for ever after, whoever presents it. *)
Lemma consumed_ticket_refused t1 t2 vaultID id purpose st st1 ch clock st2 now v p :
  consumePasskeyChallenge t1 t2 vaultID id purpose st = (st1, Ok ch) ->
  rtc session_step (tm_ns t2, st1) (clock, st2) -> clock <= tm_ns now ->
  passkeyChallengeLocked now v id p st2 = Err passkey_failed.
Proof.
  intros Hc Hrun Hnow. apply consume_Ok in Hc as (rec & payload & Ht & _ & _ & _ & _ & _ & Hk1 & Hin).
  set (digest := sha256 _) in Hin. set (e := tm_ns (pc_ExpiresAt rec)) in Hin.
  assert (spent digest e (clock, st2) /\ ss_key st2 = ss_key st) as [Hsp Hk2].
  { assert (spent digest e (tm_ns t2, st1)) as H0.
    { left. eexists. split; [exact Hin|]. simpl. lia. }
    assert (blen (ss_key st1) = 32) as Hk by (rewrite Hk1; apply Ht).
    rewrite <-Hk1. clear -Hrun H0 Hk. set (s1 := (tm_ns t2, st1)) in *. set (s2 := (clock, st2)) in *.
    change (spent digest e s2 /\ ss_key (snd s2) = ss_key (snd s1)). change (blen (ss_key (snd s1)) = 32) in Hk.
    clearbody s1 s2. induction Hrun as [s|s s' s'' Hstep _ IH]; [done|].
    pose proof (session_step_key _ _ Hstep Hk) as E.
    destruct IH as [I1 I2]; [by eapply session_step_spent|by rewrite E|]. split; [done|congruence]. }
  destruct (passkeyChallengeLocked now v id p st2) as [[rec' d']|er] eqn:E.
  - apply passkeyChallengeLocked_Ok in E as (payload' & Ht' & _ & _ & _ & Hb & -> & Hn). rewrite Hk2 in *.
    destruct (ticket_of_inj _ _ _ _ _ _ Ht Ht') as [<- <-].
    destruct Hsp as [(c & Hl & _)|He]; simpl in *; [unfold digest in Hl; by rewrite Hn in Hl|].
    unfold before in Hb. apply Z.ltb_lt in Hb. unfold e in He. lia.
  - f_equal. revert E. unfold passkeyChallengeLocked. repeat case_match; by intros [= <-].
Qed.

(** ** Bounds on the memory of spent tickets *)
Definition consumed_bounded (m : gmap bytes consumedPasskeyChallenge) : Prop :=
  Z.of_nat (size m) <= maxConsumedPasskeyChallenges /\
  forall v, Z.of_nat (size (filter (fun kv => cp_VaultID (snd kv) = v) m)) <= maxConsumedPasskeyChallengesPerVault.

Lemma size_subseteq (m1 m2 : gmap bytes consumedPasskeyChallenge) : m1 ⊆ m2 -> (size m1 <= size m2)%nat.
Proof.
  intros H. rewrite <-!size_dom. apply subseteq_size. by apply subseteq_dom.
Qed.

Lemma bounded_filter (P : bytes * consumedPasskeyChallenge -> Prop) `{!forall x, Decision (P x)} m :
  consumed_bounded m -> consumed_bounded (filter P m).
Proof.
  intros [H1 H2]. split.
  - pose proof (size_subseteq _ _ (map_filter_subseteq P m)). lia.
  - intros v. specialize (H2 v). rewrite map_filter_comm.
    pose proof (size_subseteq _ _ (map_filter_subseteq P (filter (fun kv => cp_VaultID (snd kv) = v) m))). lia.
Qed.

Lemma bounded_insert m digest v e : consumed_bounded m -> m !! digest = None ->
  Z.of_nat (size m) < maxConsumedPasskeyChallenges ->
  Z.of_nat (size (filter (fun kv => cp_VaultID (snd kv) = v) m)) < maxConsumedPasskeyChallengesPerVault ->
  consumed_bounded (<[digest := {| cp_VaultID := v; cp_ExpiresAt := e |}]> m).
Proof.
  intros [H1 H2] Hn Hs Hv. split.
  - rewrite map_size_insert_None by done. lia.
  - intros w. destruct (decide (v = w)) as [->|Hvw].
    + rewrite map_filter_insert_True by done. rewrite map_size_insert_None; [lia|].
      apply map_lookup_filter_None. by left.
    + rewrite map_filter_insert_False by done. rewrite delete_id by done. apply H2.
Qed.

(** However many tickets are issued and presented, the process remembers at
    most 4096 spent tickets, and at most 256 for one vault: the invariant holds
    in every reachable session state. *)
Theorem consumed_challenges_bounded t key clock st :
  rtc session_step (t, {| ss_key := key; ss_consumed := ∅ |}) (clock, st) ->
  consumed_bounded (ss_consumed st).
Proof.
  set (s0 := (t, _)). set (s := (clock, st)). change st with (snd s). intros Hrun.
  assert (consumed_bounded (ss_consumed (snd s0))) as H0.
  { split; simpl; [rewrite map_size_empty; by vm_compute|]. intros v. rewrite map_filter_empty, map_size_empty. by vm_compute. }
  clearbody s0 s. induction Hrun as [s|s s' s'' Hstep _ IH]; [done|]. apply IH. clear IH s''.
  destruct Hstep as [t0 now rnd rk v p c st0 Ht|t0 t1 t2 v id p st0 Ht Ht2]; simpl in *.
  - by destruct (issue_state now rnd rk v p c st0) as [-> _].
  - destruct (consume_state t1 t2 v id p st0) as (_ & [->|[->|(d & e & Hd & -> & Hs & Hv)]]); [done|by apply bounded_filter|].
    apply bounded_insert; [by apply bounded_filter| |done|done]. apply map_lookup_filter_None. by left.
Qed.

(** ** An issued ticket is accepted for its vault, its purpose and its time *)
Lemma ticket_schema_ok : schema_ok ticket_schema = true.
Proof. vm_compute. reflexivity. Qed.

Lemma time_marshal_roundtrip t s : time_marshal t = Some s -> tm_off t mod 60 = 0 ->
  time_unmarshal s = Some t /\ ascii s.
Proof.
  unfold time_marshal, time_unmarshal. destruct (_ && _) eqn:Hc; [|done]. intros [= <-] Hm.
  unfold year_ok in Hc. bool_hyps. assert (-86400 < tm_off t < 86400) by (Z.quot_rem_to_equations; lia).
  split; [|by apply ascii_format_zoned]. rewrite parse_format_zoned; [by destruct t| |done|done].
  unfold four_digit_year. lia.
Qed.

Lemma ticket_roundtrip c s : marshal_ticket c = Some s ->
  utf8_valid (pc_VaultID c) = true -> utf8_valid (pc_Purpose c) = true -> tm_off (pc_ExpiresAt c) mod 60 = 0 ->
  unmarshal_ticket s = Some c /\ 0 < blen s.
Proof.
  unfold marshal_ticket, unmarshal_ticket. destruct (time_marshal (pc_ExpiresAt c)) as [at_|] eqn:Et; [|done].
  cbn [mbind option_bind]. intros E Hv Hp Hm. apply (f_equal (default [])) in E. simpl in E. subst s.
  destruct (time_marshal_roundtrip _ _ Et Hm) as [Hu Ha]. split.
  - rewrite unmarshal_marshal; [|apply ticket_schema_ok|].
    + cbn [mbind option_bind get_str get_bytes]. rewrite Hu. by destruct c.
    + repeat apply Forall2_cons_2; try apply Forall2_nil_2; (split; [|done]); simpl; auto using utf8_ascii.
  - unfold marshal_struct, blen. destruct (json_print_head (JObj (struct_members ticket_schema
      [SStr (pc_VaultID c); SStr (pc_Purpose c); SBytes (pc_Challenge c); SStr at_]))) as (x & r & -> & _); [|simpl; lia].
    apply (struct_members_wf ticket_schema); [apply ticket_schema_ok|by exists []|].
    repeat apply Forall2_cons_2; try apply Forall2_nil_2; (split; [|done]); simpl; auto using utf8_ascii.
Qed.

(** Ticket round trip: the identifier that [issuePasskeyChallenge] returns
    is read back, while it has not been spent, exactly for the vault and the
    purpose it was issued for and before its expiry two minutes later, and then
    yields the issued challenge. *)
Theorem passkey_ticket_roundtrip now rnd_key challenge vaultID purpose credentialID st st' resp :
  issuePasskeyChallenge now (Ok challenge) rnd_key vaultID purpose credentialID st = (st', Ok resp) ->
  blen challenge = 32 -> blen (ss_key st') = 32 ->
  utf8_valid vaultID = true -> utf8_valid purpose = true -> tm_off now mod 60 = 0 ->
  exists payload,
    pr_ChallengeID resp = ticket_id (ss_key st') payload /\
    forall now' v p rec, ss_consumed st' !! sha256 (ticket_raw (ss_key st') payload) = None ->
      (readPasskeyChallenge now' v (pr_ChallengeID resp) p st' = Ok rec <->
       v = vaultID /\ p = purpose /\ tm_ns now' < tm_ns now + passkeyChallengeTTL /\
       rec = {| pc_VaultID := vaultID; pc_Purpose := purpose; pc_Challenge := Some challenge;
                pc_ExpiresAt := add_time now passkeyChallengeTTL |}).
Proof.
  intros Hi Hc Hk Hv Hp Hm. unfold issuePasskeyChallenge in Hi. set (rec0 := Build_passkeyChallenge _ _ _ _) in Hi.
  destruct (marshal_ticket rec0) as [payload|] eqn:Em; [|apply (f_equal snd) in Hi; discriminate Hi].
  destruct (_ <? _) eqn:Hl in Hi; [apply (f_equal snd) in Hi; discriminate Hi|]. apply Z.ltb_ge in Hl.
  destruct (if _ : bool then _ else _) as [key|] in Hi; [|apply (f_equal snd) in Hi; discriminate Hi].
  apply pair_equal_spec in Hi as [<- Hi]. apply Ok_inj in Hi as <-. cbn [pr_ChallengeID ss_key set_ss_key] in *.
  destruct (ticket_roundtrip rec0 payload Em Hv Hp Hm) as [Hu Hpos].
  assert (ticket_of key (ticket_id key payload) rec0 payload) as Ht.
  { constructor; try done. unfold passkeyChallengeTicketLimit, sha256_Size in *. lia. }
  exists payload. split; [done|]. intros now' v p rec Hn. unfold readPasskeyChallenge. split.
  - intros E. destruct (passkeyChallengeLocked _ _ _ _ _) as [[rec' d]|] eqn:El; [|done].
    apply Ok_inj in E. simpl in E. subst rec'.
    apply passkeyChallengeLocked_Ok in El as (payload' & Ht' & <- & <- & _ & Hb & _).
    destruct (ticket_of_inj _ _ _ _ _ _ Ht Ht') as [<- _]. unfold before in Hb. apply Z.ltb_lt in Hb. done.
  - intros (-> & -> & Hb & ->).
    rewrite (proj2 (passkeyChallengeLocked_Ok now' vaultID (ticket_id key payload) purpose (set_ss_key key st) rec0
                      (sha256 (ticket_raw key payload)))); [done|].
    exists payload. repeat (split; [done|]). split; [by apply Z.ltb_lt|]. done.
Qed.

(** ** Authentication *)
Lemma SignCount_nonneg auth : 0 <= SignCount auth.
Proof.
  unfold SignCount. destruct (_ <? _); [lia|].
  repeat (apply Z.lor_nonneg; split); try apply Z.shiftl_nonneg; apply u8_range.
Qed.

Lemma AdvanceSignCount_Ok v c n l l' : 0 <= n -> AdvanceSignCount v c n l = (l', Ok tt) ->
  (match stored_count l v c with
   | None => stored_count l' v c = Some n
   | Some m => (m < n /\ stored_count l' v c = Some n) \/ (m = 0 /\ n = 0 /\ l' = l)
   end) /\
  (exists t, l' = set_db (set_tenant t (l_db l)) l).
Proof.
  intros Hn H. unfold AdvanceSignCount in H. inv_M.
  match goal with Ha : advanceSignCountLocked _ _ _ _ = _ |- _ => rename Ha into Hadv end.
  split; [|by eapply advance_frame].
  apply advanceSignCountLocked_Ok in Hadv as (Hc & _ & _); [|done]. destruct (stored_count l v c); [|done]. by destruct Hc.
Qed.

Section Authentication.
Context `{EcdsaVerify}.

(** What one successful authentication rests on: a ticket of this process for
    the vault and the purpose that had not expired, the vault's verified
    credential, an assertion that certifies the ticket's challenge, and the
    phone's signature over the same challenge. *)
Record session_certificate (service_key purpose vaultID : bytes) (req : SessionAssertionRequest)
    (key : bytes) (t : gotime) (l : Ledger) (cred : Credential) (a : Assertion) (rec : passkeyChallenge) : Prop := {
  sc_vault : routeVaultID vaultID = Ok (pc_VaultID rec);
  sc_purpose : pc_Purpose rec = purpose;
  sc_ticket : exists payload, ticket_of key (sr_ChallengeID req) rec payload;
  sc_unexpired : tm_ns t < tm_ns (pc_ExpiresAt rec);
  sc_credential : loadVerifiedCredentialFor service_key (pc_VaultID rec) l = Ok (Some cred);
  sc_request : decodeBoundedSessionAssertion req = Ok a;
  sc_no_prf : ContainsPRFField (a_ClientDataJSON a) = false;
  sc_assertion : exists cd pub r s, certifies a
     {| e_CredentialID := cr_ID cred; e_WebAuthnP256 := cr_WebAuthnP256 cred;
        e_Challenge := default [] (pc_Challenge rec); e_Origin := cr_Origin cred; e_RPID := cr_RPID cred |} cd pub r s;
  sc_direct : exists proof, decodeFixedHex (sr_DirectProof req) 64 "direct proof" = Ok proof /\
     verifyDirectAuth (cr_PhoneDirectP256 cred)
       (passkeySessionProofDigest purpose (default [] (pc_Challenge rec)) (cr_ID cred)) proof = Ok tt;
}.

Lemma trim_route vaultID id : routeVaultID vaultID = Ok id -> id <> [].
Proof. unfold routeVaultID. case_bool_decide; [done|]. by intros [= <-]. Qed.

Lemma check_session_assertion_Ok purpose req cred challenge v :
  check_session_assertion purpose req cred challenge = Ok v ->
  exists a, decodeBoundedSessionAssertion req = Ok a /\ ContainsPRFField (a_ClientDataJSON a) = false /\
    v_SignCount v = SignCount (a_AuthenticatorData a) /\
    (exists cd pub r s, certifies a
       {| e_CredentialID := cr_ID cred; e_WebAuthnP256 := cr_WebAuthnP256 cred;
          e_Challenge := challenge; e_Origin := cr_Origin cred; e_RPID := cr_RPID cred |} cd pub r s) /\
    (exists proof, decodeFixedHex (sr_DirectProof req) 64 "direct proof" = Ok proof /\
       verifyDirectAuth (cr_PhoneDirectP256 cred) (passkeySessionProofDigest purpose challenge (cr_ID cred)) proof = Ok tt).
Proof.
  unfold check_session_assertion, rejectPRF. intros E. inv_ok.
  match goal with V : Validate _ _ = Ok _ |- _ => apply validate_Ok in V as (cd & pub & rr & ss & Hcert & ->) end.
  eexists. split; [eassumption|]. split; [done|]. split; [done|]. split; [by eexists _, _, _, _|]. eauto.
Qed.

Lemma check_session_assertion_intro purpose req cred challenge a v proof :
  decodeBoundedSessionAssertion req = Ok a -> a_CredentialID a = cr_ID cred ->
  ContainsPRFField (a_ClientDataJSON a) = false ->
  Validate a {| e_CredentialID := cr_ID cred; e_WebAuthnP256 := cr_WebAuthnP256 cred; e_Challenge := challenge;
                e_Origin := cr_Origin cred; e_RPID := cr_RPID cred |} = Ok v ->
  decodeFixedHex (sr_DirectProof req) 64 "direct proof" = Ok proof ->
  verifyDirectAuth (cr_PhoneDirectP256 cred) (passkeySessionProofDigest purpose challenge (cr_ID cred)) proof = Ok tt ->
  check_session_assertion purpose req cred challenge = Ok v.
Proof.
  intros E1 E2 E3 E4 E5 E6. unfold check_session_assertion, rejectPRF. rewrite E1. cbn [or_err mbind result_bind].
  rewrite bool_decide_eq_true_2, E3 by done. cbn [negb fail_if or_err mbind result_bind]. rewrite E4.
  cbn [or_err mbind result_bind]. rewrite E5. cbn [or_err mbind result_bind]. by rewrite E6.
Qed.

(** The clock at each point of the handler follows the run of the session
    state from the state it read to the state in which it consumes. *)
Definition interleaved (t_read t_locked t_now : gotime) (st_read st : Sessions) : Prop :=
  exists clock, rtc session_step (tm_ns t_read, st_read) (clock, st) /\
    clock <= tm_ns t_locked /\ tm_ns t_locked <= tm_ns t_now.

Lemma session_run_key s s' : rtc session_step s s' -> blen (ss_key (snd s)) = 32 -> ss_key (snd s') = ss_key (snd s).
Proof.
  induction 1 as [s|s s1 s2 Hstep _ IH]; [done|]. intros Hk.
  pose proof (session_step_key _ _ Hstep Hk) as E. rewrite IH; [done|by rewrite E].
Qed.

(** The three stages of a successful authentication. *)
Lemma authenticate_Ok admitted t_read t_locked t_now service_key purpose vaultID req st_read st l st' l' cred :
  authenticatePasskeySession admitted t_read t_locked t_now service_key purpose vaultID req st_read st l
  = (st', l', Ok cred) ->
  exists id record verified ch,
    routeVaultID vaultID = Ok id /\
    readPasskeyChallenge t_read id (sr_ChallengeID req) purpose st_read = Ok record /\
    loadVerifiedCredentialFor service_key id l = Ok (Some cred) /\
    check_session_assertion purpose req cred (default [] (pc_Challenge record)) = Ok verified /\
    consumePasskeyChallenge t_locked t_now id (sr_ChallengeID req) purpose st = (st', Ok ch) /\
    advanceSignCount service_key id (cr_ID cred) (v_SignCount verified) l = (l', Ok tt).
Proof.
  unfold authenticatePasskeySession.
  match goal with |- (match ?c with Ok _ => _ | Err _ => _ end = _ -> _) => destruct c as [[[id c'] verified]|] eqn:E end;
    [|intros Hx; apply (f_equal snd) in Hx; discriminate Hx].
  destruct (consumePasskeyChallenge _ _ id _ _ st) as [st1 [ch|]] eqn:Ec; [|intros Hx; apply (f_equal snd) in Hx; discriminate Hx].
  destruct (advanceSignCount _ id _ _ l) as [l1 [[]|]] eqn:Ea; [|intros Hx; apply (f_equal snd) in Hx; discriminate Hx].
  intros Hx. apply pair_equal_spec in Hx as [Hx E2]. apply pair_equal_spec in Hx as [<- <-]. apply Ok_inj in E2 as <-.
  inv_ok.
  match goal with Hm : match ?o with Some _ => _ | None => _ end = Ok _ |- _ => destruct o as [cred'|]; [|done] end.
  inv_ok. match goal with Hp : (_, _, _) = (_, _, _) |- _ => injection Hp as <- <- <- end.
  eexists _, _, _, _. by repeat (split; [eassumption|]).
Qed.

Lemma authenticate_intro t_read t_locked t_now service_key purpose vaultID req st_read st l id record cred verified st' ch l' :
  routeVaultID vaultID = Ok id ->
  readPasskeyChallenge t_read id (sr_ChallengeID req) purpose st_read = Ok record ->
  loadVerifiedCredentialFor service_key id l = Ok (Some cred) ->
  check_session_assertion purpose req cred (default [] (pc_Challenge record)) = Ok verified ->
  consumePasskeyChallenge t_locked t_now id (sr_ChallengeID req) purpose st = (st', Ok ch) ->
  advanceSignCount service_key id (cr_ID cred) (v_SignCount verified) l = (l', Ok tt) ->
  authenticatePasskeySession (Ok tt) t_read t_locked t_now service_key purpose vaultID req st_read st l
  = (st', l', Ok cred).
Proof.
  intros E1 E2 E3 E4 E5 E6. unfold authenticatePasskeySession. cbn [mbind result_bind]. rewrite E1.
  cbn [mbind result_bind]. rewrite E2. cbn [or_err mbind result_bind]. rewrite E3. cbn [or_err mbind result_bind].
  rewrite E4. cbn [mbind result_bind]. by rewrite E5, E6.
Qed.

Lemma read_of_locked now v id p st record digest :
  passkeyChallengeLocked now v id p st = Ok (record, digest) -> readPasskeyChallenge now v id p st = Ok record.
Proof. unfold readPasskeyChallenge. by intros ->. Qed.

Lemma consume_intro t_locked t_now vaultID id purpose st record digest :
  vaultID <> [] -> anonymous_purpose purpose = false -> ss_consumed st = ∅ ->
  passkeyChallengeLocked t_locked vaultID id purpose st = Ok (record, digest) ->
  consumePasskeyChallenge t_locked t_now vaultID id purpose st
  = (set_consumed (<[digest := {| cp_VaultID := vaultID; cp_ExpiresAt := tm_ns (pc_ExpiresAt record) |}]> ∅) st,
     Ok (default [] (pc_Challenge record))).
Proof.
  intros Hv Hp Hc E. unfold consumePasskeyChallenge. rewrite bool_decide_eq_false_2, Hp, E, Hc by done.
  by rewrite !map_filter_empty, !map_size_empty.
Qed.

(** A successful passkey authentication is backed by a certificate: an
    unexpired ticket of this process for that vault and purpose, the vault's
    verified credential, a WebAuthn assertion over the ticket's challenge with
    user presence and verification, and the phone's signature over it; the
    ticket is spent, the authenticator counter has advanced (or the authenticator
    has none), and nothing else in the ledger has changed. *)
Theorem passkey_session_sound admitted t_read t_locked t_now service_key purpose vaultID req st_read st l st' l' cred :
  interleaved t_read t_locked t_now st_read st ->
  authenticatePasskeySession admitted t_read t_locked t_now service_key purpose vaultID req st_read st l
  = (st', l', Ok cred) ->
  exists a rec,
    session_certificate service_key purpose vaultID req (ss_key st) t_locked l cred a rec /\
    passkeyChallengeLocked t_locked (pc_VaultID rec) (sr_ChallengeID req) purpose st' = Err passkey_failed /\
    (match stored_count l (pc_VaultID rec) (cr_ID cred) with
     | None => stored_count l' (pc_VaultID rec) (cr_ID cred) = Some (SignCount (a_AuthenticatorData a))
     | Some m => (m < SignCount (a_AuthenticatorData a) /\
                  stored_count l' (pc_VaultID rec) (cr_ID cred) = Some (SignCount (a_AuthenticatorData a)))
                 \/ (m = 0 /\ SignCount (a_AuthenticatorData a) = 0 /\ l' = l)
     end) /\
    exists t, l' = set_db (set_tenant t (l_db l)) l.
Proof.
  intros (clock & Hrun & Hclock & Ht) Hauth. apply authenticate_Ok in Hauth as (id & record & v & ch & Hid & Hr & Hl & Hch & Hc & Ha).
  apply check_session_assertion_Ok in Hch as (a & Hreq & Hprf & Hn & Hcert & Hdir).
  unfold readPasskeyChallenge in Hr. destruct (passkeyChallengeLocked t_read _ _ _ _) as [[rec0 d0]|] eqn:El; [|done].
  apply Ok_inj in Hr. simpl in Hr. subst rec0.
  apply passkeyChallengeLocked_Ok in El as (p0 & Ht0 & Hv0 & Hp0 & _ & _ & _ & _).
  pose proof (session_run_key _ _ Hrun (to_key _ _ _ _ Ht0)) as Hkey. simpl in Hkey.
  destruct (consume_Ok _ _ _ _ _ _ _ _ Hc) as (rec & p & Ht1 & Hp1 & Hv1 & Hb & _ & _ & Hk' & _).
  rewrite <-Hkey in Ht0. destruct (ticket_of_inj _ _ _ _ _ _ Ht0 Ht1) as [<- <-].
  exists a, record. subst id. split; [|split].
  - constructor; try done; [by exists p0|]. unfold before in Hb. by apply Z.ltb_lt in Hb.
  - unfold advanceSignCount in Ha. inv_M.
    destruct (passkeyChallengeLocked t_locked (pc_VaultID record) _ purpose st') as [[r2 d2]|e] eqn:E2.
    + exfalso. apply passkeyChallengeLocked_Ok in E2 as (p2 & Ht2 & _ & _ & _ & _ & -> & Hnone). rewrite Hk' in Ht2, Hnone.
      destruct (ticket_of_inj _ _ _ _ _ _ Ht1 Ht2) as [<- <-].
      destruct (consume_Ok _ _ _ _ _ _ _ _ Hc) as (r3 & p3 & Ht3 & _ & _ & _ & _ & _ & _ & Hin).
      destruct (ticket_of_inj _ _ _ _ _ _ Ht1 Ht3) as [<- <-]. by rewrite Hin in Hnone.
    + f_equal. revert E2. unfold passkeyChallengeLocked. repeat case_match; by intros [= <-].
  - unfold advanceSignCount in Ha. inv_M. rewrite Hn in *. apply AdvanceSignCount_Ok; [apply SignCount_nonneg|done].
Qed.

(** C31: A ticket authenticates once: after an authentication, every later
    request with the same ticket fails, for any vault, purpose, assertion or
    ledger, even one that had read the ticket before it was consumed, and leaves
    the session state and the ledger as they were. *)
Theorem passkey_session_single_use admitted t_read t_locked t_now service_key purpose vaultID req st_read st l st' l' cred
    admitted2 t_read2 t_locked2 t_now2 service_key2 purpose2 vaultID2 req2 st_read2 st2 l2 clock :
  authenticatePasskeySession admitted t_read t_locked t_now service_key purpose vaultID req st_read st l
  = (st', l', Ok cred) ->
  rtc session_step (tm_ns t_now, st') (clock, st2) -> clock <= tm_ns t_locked2 ->
  sr_ChallengeID req2 = sr_ChallengeID req ->
  exists e,
    authenticatePasskeySession admitted2 t_read2 t_locked2 t_now2 service_key2 purpose2 vaultID2 req2 st_read2 st2 l2
    = (st2, l2, Err e).
Proof.
  intros Hauth Hrun Hclock Hid. apply authenticate_Ok in Hauth as (id & record & v & ch & _ & _ & _ & _ & Hc & _).
  unfold authenticatePasskeySession.
  match goal with |- context [match ?c with Ok _ => _ | Err _ => _ end] => destruct c as [[[id2 c2] v2]|e2] end;
    [|by exists e2].
  exists passkey_failed. unfold consumePasskeyChallenge. rewrite Hid.
  destruct (bool_decide (id2 = [])); [done|].
  by rewrite (consumed_ticket_refused _ _ _ _ _ _ _ _ _ _ _ _ _ Hc Hrun Hclock).
Qed.
End Authentication.

(** ** A concrete session

    One vault whose passkey and phone key are the base point, under a signature
    check that accepts everything: the theorems hold for any check. *)
Definition accept_all : EcdsaVerify := fun _ _ _ _ => true.

Definition session_vault_fields : VaultRecord := {|
  vr_VaultID := str "vault-1"; vr_TemplateVersion := str "t"; vr_PolicyVersion := str "p";
  vr_ProtectionTier := str "standard"; vr_Network := str "mutinynet"; vr_RPID := str "vault.example";
  vr_Origin := str "https://vault.example"; vr_PhoneBIP340 := str "p"; vr_PhoneDirectP256 := demo_key;
  vr_ExternalOwnerWallet := str "x"; vr_RecoveryKey := []; vr_VaultCosignerBase := str "c";
  vr_ArkadeCosignerBase := str "a"; vr_ArkadeCosignerOrigin := str "o"; vr_ArkadeCosignerVersion := str "1";
  vr_CosignerMode := CosignerModeHKDFSHA256V1; vr_SavingsAddress := str "addr";
  vr_SavingsScript := str "script"; vr_RecipientDustSats := 330; vr_TxRecipientCapSats := 50000;
  vr_PeriodAllowanceSats := 100000; vr_AbsoluteFeeCapSats := 5000; vr_FeerateCapSatPerV := 10;
  vr_IntegrityMAC := [] |}.
Definition session_vault : VaultRecord :=
  vr_set_MAC (hmac_sha256 demo_vault_key (vr_encoding session_vault_fields)) session_vault_fields.
Definition session_passkey_fields : VaultCredential :=
  Build_VaultCredential (str "cred") (str "vault-1") demo_key (repeat Byte.x05 32) true [].
Definition session_passkey : VaultCredential :=
  vc_set_MAC (hmac_sha256 demo_vault_key (vc_encoding session_passkey_fields)) session_passkey_fields.
Definition session_ledger : Ledger :=
  set_db (set_tenant (Build_TenantTables [session_vault] [session_passkey] [] [] [] [] []) demo_db) demo_ledger.
Definition session_cred : Credential := toCredential session_vault session_passkey.

Definition session_clock (s : Z) : gotime := {| tm_ns := (1767225600 + s) * second; tm_off := 3600 |}.
Definition session_challenge : bytes := replicate 32 Byte.x01.
Definition session_start : Sessions := {| ss_key := replicate 32 Byte.x02; ss_consumed := ∅ |}.

Definition session_record : passkeyChallenge :=
  {| pc_VaultID := str "vault-1"; pc_Purpose := passkeyPurposeMapWrite; pc_Challenge := Some session_challenge;
     pc_ExpiresAt := session_clock 120 |}.
Definition session_payload : bytes := default [] (marshal_ticket session_record).
Definition session_ticket : bytes := ticket_id (ss_key session_start) session_payload.

Definition session_client_data : bytes :=
  jtext "{'type':'webauthn.get','challenge':'" ++ EncodeChallenge session_challenge
  ++ jtext "','origin':'https://vault.example','crossOrigin':false}".
Definition session_auth_data : bytes := sha256 (str "vault.example") ++ [Byte.x05] ++ be_bytes 4 7.
Definition session_request : SessionAssertionRequest := {|
  sr_ChallengeID := session_ticket;
  sr_CredentialID := hex_encode (str "cred");
  sr_ClientDataJSON := hex_encode session_client_data;
  sr_AuthenticatorData := hex_encode session_auth_data;
  sr_Signature := hex_encode (der_marshal 1 1);
  sr_DirectProof := hex_encode (compact_sig 1 1) |}.
Definition session_assertion : Assertion :=
  {| a_CredentialID := str "cred"; a_ClientDataJSON := session_client_data;
     a_AuthenticatorData := session_auth_data; a_DERSignature := der_marshal 1 1 |}.

Lemma session_ticket_of : ticket_of (ss_key session_start) session_ticket session_record session_payload.
Proof. constructor; [done|vm_compute; split; [reflexivity|discriminate]|vm_compute; reflexivity|vm_compute; reflexivity|done]. Qed.

Lemma session_locked now st : ss_key st = ss_key session_start -> ss_consumed st = ∅ ->
  tm_ns now < tm_ns (session_clock 120) ->
  passkeyChallengeLocked now (str "vault-1") session_ticket passkeyPurposeMapWrite st
  = Ok (session_record, sha256 (ticket_raw (ss_key session_start) session_payload)).
Proof.
  intros Hk Hc Hn. apply passkeyChallengeLocked_Ok. exists session_payload. rewrite Hk, Hc.
  split; [apply session_ticket_of|]. split; [done|]. split; [done|]. split; [done|].
  split; [by apply Z.ltb_lt|]. split; [done|]. apply lookup_empty.
Qed.

Lemma session_loads : loadVerifiedCredentialFor demo_vault_key (str "vault-1") session_ledger = Ok (Some session_cred).
Proof. vm_compute. reflexivity. Qed.

Lemma session_counter : exists l', advanceSignCount demo_vault_key (str "vault-1") (str "cred") 7 session_ledger = (l', Ok tt).
Proof. eexists. vm_compute. reflexivity. Qed.

Definition session_client : ClientData :=
  {| cd_Type := str "webauthn.get"; cd_Challenge := EncodeChallenge session_challenge;
     cd_Origin := str "https://vault.example"; cd_CrossOrigin := Some false |}.
Definition session_expected : Expected :=
  {| e_CredentialID := str "cred"; e_WebAuthnP256 := demo_key; e_Challenge := session_challenge;
     e_Origin := str "https://vault.example"; e_RPID := str "vault.example" |}.

Lemma session_certified : @certifies accept_all session_assertion session_expected session_client demo_pub 1 1.
Proof.
  pose proof p256_N_value. constructor.
  - reflexivity.
  - reflexivity.
  - vm_compute. discriminate.
  - vm_compute. split; [reflexivity|discriminate].
  - vm_compute. reflexivity.
  - reflexivity.
  - reflexivity.
  - reflexivity.
  - vm_compute. reflexivity.
  - vm_compute. reflexivity.
  - vm_compute. reflexivity.
  - vm_compute. reflexivity.
  - apply demo_key_parses.
  - apply der_unmarshal_marshal; lia.
  - lia.
  - lia.
  - reflexivity.
Qed.

Lemma session_direct digest : blen digest = 32 -> @verifyDirectAuth accept_all demo_key digest (compact_sig 1 1) = Ok tt.
Proof.
  intros Hd. unfold verifyDirectAuth. rewrite demo_key_parses.
  cbn [wrap_err mbind result_bind]. unfold VerifyDigestLowS. rewrite Hd. cbn [Z.eqb negb fail_if mbind result_bind].
  pose proof p256_N_value. pose proof half_order_value. by rewrite compact_scalars_sig by lia.
Qed.

Lemma session_accepted :
  @check_session_assertion accept_all passkeyPurposeMapWrite session_request session_cred session_challenge
  = Ok (verified session_assertion session_client 1 1).
Proof.
  apply (check_session_assertion_intro _ _ _ _ session_assertion _ (compact_sig 1 1)).
  - vm_compute. reflexivity.
  - reflexivity.
  - vm_compute. reflexivity.
  - apply validate_Ok. exists session_client, demo_pub, 1, 1. split; [exact session_certified|reflexivity].
  - vm_compute. reflexivity.
  - apply session_direct. unfold passkeySessionProofDigest, blen. by rewrite sha256_length.
Qed.

Lemma session_authenticated :
  exists st' l',
    @authenticatePasskeySession accept_all (Ok tt) (session_clock 1) (session_clock 2) (session_clock 2)
      demo_vault_key passkeyPurposeMapWrite (str "vault-1") session_request session_start session_start session_ledger
    = (st', l', Ok session_cred).
Proof.
  destruct session_counter as [l' Hl]. eexists _, l'.
  apply (authenticate_intro _ _ _ _ _ _ _ _ _ _ (str "vault-1") session_record _
           (verified session_assertion session_client 1 1) _ session_challenge).
  - vm_compute. reflexivity.
  - apply read_of_locked with (digest := sha256 (ticket_raw (ss_key session_start) session_payload)).
    by apply session_locked.
  - exact session_loads.
  - exact session_accepted.
  - apply (consume_intro _ _ _ _ _ _ session_record); [done|vm_compute; reflexivity|done|].
    by apply session_locked.
  - assert (v_SignCount (verified session_assertion session_client 1 1) = 7) as -> by (vm_compute; reflexivity).
    exact Hl.
Qed.

Lemma passkey_session_sound_witness :
  exists st' l' a rec,
    session_certificate (H := accept_all) demo_vault_key passkeyPurposeMapWrite (str "vault-1") session_request
      (ss_key session_start) (session_clock 2) session_ledger session_cred a rec /\
    passkeyChallengeLocked (session_clock 2) (pc_VaultID rec) session_ticket passkeyPurposeMapWrite st'
    = Err passkey_failed /\
    exists t, l' = set_db (set_tenant t (l_db session_ledger)) session_ledger.
Proof.
  destruct session_authenticated as (st' & l' & E). exists st', l'.
  destruct (passkey_session_sound (H := accept_all) (Ok tt) (session_clock 1) (session_clock 2) (session_clock 2)
              demo_vault_key passkeyPurposeMapWrite (str "vault-1") session_request session_start session_start
              session_ledger st' l' session_cred) as (a & rec & Hc & Hr & _ & Ht).
  - exists (tm_ns (session_clock 1)). split; [apply rtc_refl|]. split; vm_compute; discriminate.
  - exact E.
  - exists a, rec. exact (conj Hc (conj Hr Ht)).
Defined.

Lemma passkey_session_single_use_witness :
  exists st' l' e,
    authenticatePasskeySession (H := accept_all) (Ok tt) (session_clock 1) (session_clock 3) (session_clock 3)
      demo_vault_key passkeyPurposeMapWrite (str "vault-1") session_request session_start st' l'
    = (st', l', Err e).
Proof.
  destruct session_authenticated as (st' & l' & E). exists st', l'.
  apply (passkey_session_single_use (H := accept_all) (Ok tt) (session_clock 1) (session_clock 2) (session_clock 2)
    demo_vault_key passkeyPurposeMapWrite (str "vault-1") session_request session_start session_start session_ledger st' l'
    session_cred (Ok tt) (session_clock 1) (session_clock 3) (session_clock 3) demo_vault_key passkeyPurposeMapWrite
    (str "vault-1") session_request session_start st' l' (tm_ns (session_clock 2)) E (rtc_refl _ _)).
  - vm_compute. discriminate.
  - reflexivity.
Defined.

Lemma session_consumed : exists st', consumePasskeyChallenge (session_clock 2) (session_clock 2) (str "vault-1")
  session_ticket passkeyPurposeMapWrite session_start = (st', Ok session_challenge).
Proof.
  eexists. apply (consume_intro _ _ _ _ _ _ session_record); [done|vm_compute; reflexivity|done|]. by apply session_locked.
Qed.

Lemma consumed_challenges_bounded_witness :
  exists st', consumePasskeyChallenge (session_clock 2) (session_clock 2) (str "vault-1")
    session_ticket passkeyPurposeMapWrite session_start = (st', Ok session_challenge) /\ consumed_bounded (ss_consumed st').
Proof.
  destruct session_consumed as [st' E]. exists st'. split; [exact E|].
  apply (consumed_challenges_bounded 0 (ss_key session_start) (tm_ns (session_clock 2))).
  apply rtc_once. change (Build_Sessions (ss_key session_start) ∅) with session_start.
  pose proof (step_consume 0 (session_clock 2) (session_clock 2) (str "vault-1") session_ticket passkeyPurposeMapWrite
    session_start) as Hs.
  rewrite E in Hs. apply Hs; vm_compute; discriminate.
Defined.

Lemma session_issued : exists resp,
  issuePasskeyChallenge (session_clock 0) (Ok session_challenge) (Err ErrVerificationBusy) (str "vault-1")
    passkeyPurposeMapWrite (str "cred") session_start = (session_start, Ok resp).
Proof. eexists. vm_compute. reflexivity. Qed.

Lemma passkey_ticket_roundtrip_witness :
  exists resp, readPasskeyChallenge (session_clock 119) (str "vault-1") (pr_ChallengeID resp) passkeyPurposeMapWrite session_start
    = Ok session_record.
Proof.
  destruct session_issued as [resp E]. exists resp.
  destruct (passkey_ticket_roundtrip (session_clock 0) (Err ErrVerificationBusy) session_challenge (str "vault-1")
    passkeyPurposeMapWrite (str "cred") session_start session_start resp E) as (payload & _ & Hread); [reflexivity..|].
  apply Hread; [apply lookup_empty|]. split; [reflexivity|]. split; [reflexivity|]. split; [reflexivity|reflexivity].
Defined.
