(* ===== verification/VtxoSelect.v ===== *)
(** * Coin selection and fees of a payment ([src/internal/application/vtxo.go])

    Which coins a payment spends and what it pays the Operator:
    [selectSpendVtxos] orders the indexed coins by their value after their own
    fee, and takes the shortest prefix for which [solveVtxoSpendWithBudget] finds
    a fee that the Operator's fee program confirms.  The fee program itself
    (package [arkfee], a CEL interpreter) is a parameter: an [Estimator] is what
    its two evaluation methods return.

    [solve_spec] says that the solver finds exactly the solutions, the theorems
    at the end say what a selection conserves, that it is the first possible one,
    and that it ends. *)
From Stdlib Require Import Strings.Byte Floats.SpecFloat.
From S2P Require Import Prelude Sha256 Text Program Vtxo Tenant.

(** ** Data *)

(** [ports.ResolvedVtxo], a coin the indexer reports. *)
Record ResolvedVtxo := {
  rv_Txid : bytes;
  rv_Vout : Z;                    (* uint32 *)
  rv_ValueSats : Z;               (* uint64 *)
  rv_Script : bytes;
  rv_CreatedAt : Z;               (* int64 *)
  rv_ExpiresAt : option Z;        (* *int64 *)
  rv_IsSwept : bool;
  rv_CommitmentTxids : list bytes;
}.

(** [ports.IntentFeePolicy], the fee programs of the Operator. *)
Record IntentFeePolicy := {
  fp_OffchainInput : bytes;
  fp_OffchainOutput : bytes;
  fp_OnchainInput : bytes;
  fp_OnchainOutput : bytes;
}.

(** The types of [arkfee] that cross its interface.  Times are Unix seconds; a
    coin without an expiry has the zero time, [None]. *)
Inductive VtxoType := VtxoTypeVtxo | VtxoTypeRecoverable | VtxoTypeNote.

Record OffchainInput := {
  oi_Amount : Z;
  oi_Expiry : option Z;
  oi_Birth : Z;
  oi_Type : VtxoType;
  oi_Weight : Z;
}.

Record Output := { out_Amount : Z; out_Script : bytes }.

Record FeeConfig := {
  fc_IntentOffchainInputProgram : bytes;
  fc_IntentOffchainOutputProgram : bytes;
  fc_IntentOnchainInputProgram : bytes;
  fc_IntentOnchainOutputProgram : bytes;
}.

(** [arkfee.Estimator]: a fee is a [float64], [None] an error.  [Eval] is only
    called without on-chain inputs and outputs. *)
Record Estimator := {
  est_EvalOffchainInput : OffchainInput -> option spec_float;
  est_Eval : list OffchainInput -> list Output -> option spec_float;
}.

(** [arkfee.New] compiles the programs. *)
Class ArkFee := arkfee_New : FeeConfig -> option Estimator.

Record reservedCoin := {
  co_Txid : bytes;
  co_Vout : Z;
  co_ValueSats : Z;
  co_Script : bytes;
  co_FeeInput : OffchainInput;
  co_Effective : Z;
}.

Definition maxVtxoSpendInputs : Z := MaxVtxoOperationInputs.
Definition maxVtxoFeeProgramEvaluations : Z := 20000.

(** ** The fee programs *)
Definition intentFeeEstimatorConfig (fee : IntentFeePolicy) : FeeConfig :=
  let normalize (program : bytes) := if program == [] then str "0.0" else program in
  {| fc_IntentOffchainInputProgram := normalize (fp_OffchainInput fee);
     fc_IntentOffchainOutputProgram := normalize (fp_OffchainOutput fee);
     fc_IntentOnchainInputProgram := normalize (fp_OnchainInput fee);
     fc_IntentOnchainOutputProgram := normalize (fp_OnchainOutput fee) |}.

Definition newVtxoFeeEstimator `{ArkFee} (fee : IntentFeePolicy) : result (Estimator * bytes) :=
  match arkfee_New (intentFeeEstimatorConfig fee) with
  | None => Err (ErrMsg "Operator fee policy invalid")
  | Some estimator =>
      Ok (estimator, ComputeIntentFeePolicyDigest (fp_OffchainInput fee) (fp_OffchainOutput fee)
                       (fp_OnchainInput fee) (fp_OnchainOutput fee))
  end.

Definition resolvedArkFeeInput (v : ResolvedVtxo) : OffchainInput :=
  let kind := if rv_IsSwept v then VtxoTypeRecoverable
              else if rv_CommitmentTxids v == [] then VtxoTypeNote else VtxoTypeVtxo in
  {| oi_Amount := rv_ValueSats v; oi_Expiry := rv_ExpiresAt v; oi_Birth := rv_CreatedAt v;
     oi_Type := kind; oi_Weight := 0 |}.

(** [math.Ceil] of the positive float [m * 2^e]. *)
Definition float_ceil (m : positive) (e : Z) : Z :=
  if 0 <=? e then Z.pos m * 2 ^ e else - (- Z.pos m / 2 ^ (- e)).

Definition exactFeeSats (fee : spec_float) : result Z :=
  let invalid := Err (ErrMsg "Operator fee result invalid") in
  match fee with
  | S754_nan | S754_infinity _ | S754_finite true _ _ => invalid
  | S754_zero _ => Ok 0
  | S754_finite false m e =>
      let rounded := float_ceil m e in
      if 9223372036854775808 <=? rounded then invalid else Ok rounded
  end.

(** [feeEvaluationBudget.consume] on the number of evaluations that remain. *)
Definition consume (remaining : Z) : result Z :=
  if remaining =? 0 then Err (ErrMsg "Operator fee policy exceeds evaluation limit") else Ok (remaining - 1).

(** ** The coins of the vault *)
Definition vtxoToCoin (v : ResolvedVtxo) (pkScript : bytes) (estimator : Estimator) (budget : Z)
  : result (option reservedCoin * Z) :=
  let invalid := ErrMsg "invalid indexed vtxo" in
  raw ← or_err invalid (match hex_decode (rv_Txid v) with Some b => Ok b | None => Err invalid end);
  _ ← fail_if (negb (blen raw =? 32) || (rv_Txid v != to_lower (rv_Txid v)) || (rv_Script v != pkScript)
               || (max_int64 <? rv_ValueSats v)) invalid;
  let feeInput := resolvedArkFeeInput v in
  budget ← consume budget;
  inputFee ← match est_EvalOffchainInput estimator feeInput with
             | Some fee => Ok fee
             | None => Err (ErrMsg "Operator input fee evaluation")
             end;
  feeSats ← exactFeeSats inputFee;
  if rv_ValueSats v <=? feeSats then Ok (None, budget)
  else Ok (Some {| co_Txid := raw; co_Vout := rv_Vout v; co_ValueSats := rv_ValueSats v; co_Script := pkScript;
                   co_FeeInput := feeInput; co_Effective := rv_ValueSats v - feeSats |}, budget).

Fixpoint vtxosToCoins (vtxos : list ResolvedVtxo) (pkScript : bytes) (estimator : Estimator) (budget : Z)
  : result (list reservedCoin * Z) :=
  match vtxos with
  | [] => Ok ([], budget)
  | v :: vtxos =>
      '(coin, budget) ← vtxoToCoin v pkScript estimator budget;
      '(out, budget) ← vtxosToCoins vtxos pkScript estimator budget;
      Ok (match coin with Some c => c :: out | None => out end, budget)
  end.

(** ** The solver *)
Definition out_of_fuel : error := ErrIO "solveVtxoSpend fuel".

Definition cancelled_error : error := ErrMsg "fee selection cancelled".

(** [estimator.Eval] followed by [exactFeeSats]. *)
Definition evaluate_fee (estimator : Estimator) (inputs : list OffchainInput) (outputs : list Output) : result Z :=
  match est_Eval estimator inputs outputs with
  | None => Err (ErrMsg "Operator fee evaluation")
  | Some fee => exactFeeSats fee
  end.

(** The loop that adds up the inputs. *)
Definition total_inputs (coins : list reservedCoin) : result Z :=
  fold_res (fun total coin =>
    if max_uint64 - total <? co_ValueSats coin then Err (ErrMsg "vtxo input amount overflow")
    else Ok (total + co_ValueSats coin)) 0 coins.

(** The loop over the candidate fees.  [cancelled candidate] is whether the
    request has been cancelled when the loop polls it at this candidate;
    [fee_with change] is the fee with a change output. *)
Fixpoint candidate_loop (fuel : nat) (cancelled : Z -> bool) (fee_with : Z -> result Z)
    (available maxCandidate candidate budget : Z) : result (option (Z * Z) * Z) :=
  match fuel with
  | O => Err out_of_fuel
  | S fuel =>
      let continue := candidate_loop fuel cancelled fee_with available maxCandidate (wrap64 (candidate + 1)) in
      if maxCandidate <? candidate then Ok (None, budget)
      else if cancelled candidate then Err cancelled_error
      else
        let candidateChange := available - candidate in
        if candidateChange <? DustSats then continue budget
        else
          budget ← consume budget;
          actual ← fee_with candidateChange;
          if actual =? candidate then Ok (Some (candidate, candidateChange), budget)
          else if candidate =? max_uint64 then Ok (None, budget)
          else continue budget
  end.

(** [cancelled None] is the poll at the entry.  [None] is the answer [ok = false]. *)
Definition solveVtxoSpendWithBudget (cancelled : option Z -> bool) (coins : list reservedCoin)
    (destScript changeScript : bytes) (amount feeCap : Z) (estimator : Estimator) (budget : Z)
  : result (option (Z * Z) * Z) :=
  _ ← fail_if (cancelled None) cancelled_error;
  total ← total_inputs coins;
  let feeInputs := map co_FeeInput coins in
  if total <? amount then Ok (None, budget)
  else
    let dest := {| out_Amount := amount; out_Script := hex_encode destScript |} in
    let change sats := {| out_Amount := sats; out_Script := hex_encode changeScript |} in
    budget ← consume budget;
    noChangeFee ← evaluate_fee estimator feeInputs [dest];
    if (noChangeFee <=? feeCap) && (total - amount =? noChangeFee) then Ok (Some (noChangeFee, 0), budget)
    else
      let available := total - amount in
      let maxCandidate := if available <? feeCap then available else feeCap in
      candidate_loop (Z.to_nat (maxCandidate + 2)) (fun candidate => cancelled (Some candidate))
        (fun sats => evaluate_fee estimator feeInputs [dest; change sats]) available maxCandidate 0 budget.

Definition solveVtxoSpend (cancelled : option Z -> bool) (coins : list reservedCoin)
    (destScript changeScript : bytes) (amount feeCap : Z) (estimator : Estimator) : result (option (Z * Z)) :=
  fst <$> solveVtxoSpendWithBudget cancelled coins destScript changeScript amount feeCap estimator
            maxVtxoFeeProgramEvaluations.

(** ** The selection *)
Definition coin_less (a b : reservedCoin) : bool :=
  if negb (co_Effective a =? co_Effective b) then co_Effective b <? co_Effective a
  else if co_Txid a != co_Txid b then bytes_ltb (co_Txid a) (co_Txid b)
  else co_Vout a <? co_Vout b.

Definition picked_less (a b : reservedCoin) : bool :=
  if co_Txid a != co_Txid b then bytes_ltb (co_Txid a) (co_Txid b)
  else co_Vout a <? co_Vout b.

Definition no_funds : error := ErrMsg "insufficient economic vtxo funds".

(** The loop over the number of coins; [remaining] is how many counts remain. *)
Fixpoint count_loop (solve : nat -> Z -> result (option (Z * Z) * Z)) (coins : list reservedCoin)
    (remaining count : nat) (budget : Z) : result (list reservedCoin * Z * Z) :=
  match remaining with
  | O => Err no_funds
  | S remaining =>
      '(answer, budget) ← solve count budget;
      match answer with
      | Some (fee, change) => Ok (slice_stable picked_less (take count coins), fee, change)
      | None => count_loop solve coins remaining (S count) budget
      end
  end.

Definition listed_coins (coins : list reservedCoin) : list VtxoBundleInput :=
  map (fun coin => Build_VtxoBundleInput (co_Txid coin) (co_Vout coin) (co_ValueSats coin)) coins.

(** [spendable] is what the indexer answers, [admitted] the outcome of
    [acquireFeeSelection]; [cancelled n] polls the request with [n] coins. *)
Definition selectSpendVtxos (spendable : result (list ResolvedVtxo)) (admitted : result unit)
    (cancelled : nat -> option Z -> bool) (pkScript destScript : bytes) (amountSats feeCap : Z)
    (estimator : Estimator) : result (list reservedCoin * Z * Z) :=
  vtxos ← or_err (ErrMsg "ark indexer") spendable;
  _ ← admitted;
  '(coins, budget) ← vtxosToCoins vtxos pkScript estimator maxVtxoFeeProgramEvaluations;
  _ ← CanonicalVtxoBundleInputs (listed_coins coins);
  let coins := slice_stable coin_less coins in
  let limit := Nat.min (length coins) (Z.to_nat maxVtxoSpendInputs) in
  count_loop (fun count budget =>
      solveVtxoSpendWithBudget (cancelled count) (take count coins) destScript pkScript amountSats feeCap
        estimator budget)
    coins limit 1 budget.

(** ** Limits *)
Definition vtxoFeeCap (rec : option VaultRecord) : result Z :=
  match rec with
  | Some r => if vr_AbsoluteFeeCapSats r <? 0 then Err (ErrMsg "fee ceiling invalid") else Ok (vr_AbsoluteFeeCapSats r)
  | None => Err (ErrMsg "fee ceiling invalid")
  end.

Definition enforceVtxoAmount (amount fee : Z) (rec : option VaultRecord) : result unit :=
  match rec with
  | None => Err (ErrMsg "vault spending policy required")
  | Some r =>
      _ ← fail_if ((vr_TxRecipientCapSats r <=? 0) || (vr_AbsoluteFeeCapSats r <? 0)) (ErrMsg "vault spending policy required");
      let capSats := vr_TxRecipientCapSats r in
      let feeCap := vr_AbsoluteFeeCapSats r in
      _ ← fail_if ((max_int64 <? amount) || (capSats <? 0) || (capSats <? amount)) (ErrMsg "recipient exceeds transaction cap");
      _ ← fail_if ((max_int64 <? fee) || (feeCap <? 0) || (feeCap <? fee)) (ErrMsg "fee exceeds ceiling");
      fail_if (amount <? DustSats) (ErrMsg "recipient below dust")
  end.

(** ** Sums, fees, budgets *)
Definition coins_value (coins : list reservedCoin) : Z := sumZ co_ValueSats coins.

Lemma total_inputs_Ok coins total : total_inputs coins = Ok total -> total = coins_value coins.
Proof.
  intros H. eapply (fold_res_sum _ co_ValueSats) in H; [unfold coins_value; lia|].
  intros x a y. case_match; [done|]. by intros [= <-].
Qed.

Lemma total_inputs_error coins e : total_inputs coins = Err e -> e = ErrMsg "vtxo input amount overflow".
Proof. apply (fold_res_Err (fun e => e = _)). intros total coin e'. case_match; [by intros [= <-]|done]. Qed.

Lemma float_ceil_bounds m e : 0 < float_ceil m e.
Proof.
  unfold float_ceil. case_match; bool_hyps.
  - pose proof (Z.pow_pos_nonneg 2 e ltac:(lia) ltac:(lia)). nia.
  - pose proof (Z.pow_pos_nonneg 2 (- e) ltac:(lia) ltac:(lia)).
    assert (- Z.pos m / 2 ^ (- e) < 0); [apply Z.div_lt_upper_bound; nia|lia].
Qed.

Lemma exactFeeSats_range v f : exactFeeSats v = Ok f -> 0 <= f <= max_int64.
Proof.
  unfold exactFeeSats. pose proof float_ceil_bounds. unfold max_int64.
  destruct v as [|[]| |[] m e]; try discriminate; [intros [= <-]; lia..|].
  case_match; [done|]. intros [= <-]. bool_hyps. specialize (H m e). lia.
Qed.

Lemma evaluate_fee_range est ins outs f : evaluate_fee est ins outs = Ok f -> 0 <= f <= max_int64.
Proof. unfold evaluate_fee. destruct (est_Eval _ _ _); [apply exactFeeSats_range|done]. Qed.

(** The errors of the solver. *)
Definition solver_errors : list error :=
  [cancelled_error; ErrMsg "vtxo input amount overflow"; ErrMsg "Operator fee policy exceeds evaluation limit";
   ErrMsg "Operator fee evaluation"; ErrMsg "Operator fee result invalid"].

Lemma evaluate_fee_error est ins outs e : evaluate_fee est ins outs = Err e -> e ∈ solver_errors.
Proof.
  unfold evaluate_fee, exactFeeSats. intros E.
  repeat case_match; simplify_eq; unfold solver_errors; rewrite !elem_of_cons; auto 10.
Qed.

(** ** The candidate loop is a bounded search *)
Section Search.
Context (cancelled : Z -> bool) (fee_with : Z -> result Z) (available maxCandidate : Z).
Hypothesis max_small : maxCandidate <= max_int64.
Hypothesis fee_errors : forall c e, fee_with c = Err e -> e ∈ solver_errors.

(** The fee [f] leaves a change above dust and is what the program asks for
    that change. *)
Definition balanced (f : Z) : Prop := DustSats <= available - f /\ fee_with (available - f) = Ok f.

Lemma candidate_loop_spec fuel c budget : 0 <= c <= maxCandidate + 1 ->
  (Z.to_nat (maxCandidate + 1 - c) < fuel)%nat ->
  match candidate_loop fuel cancelled fee_with available maxCandidate c budget with
  | Ok (Some (f, ch), _) => c <= f <= maxCandidate /\ ch = available - f /\ balanced f /\
                            (forall x, c <= x < f -> ~ balanced x)
  | Ok (None, _) => forall x, c <= x <= maxCandidate -> ~ balanced x
  | Err e => e ∈ solver_errors
  end.
Proof.
  revert c budget. induction fuel as [|fuel IH]; intros c budget Hc Hf; [lia|]. cbn [candidate_loop].
  destruct (Z.ltb_spec maxCandidate c); [intros; lia|]. destruct (cancelled c); [by left|].
  assert (wrap64 (c + 1) = c + 1) as ->
    by (unfold wrap64; unfold max_int64 in *; rewrite Z.mod_small; lia).
  assert (forall b, ~ balanced c ->
    match candidate_loop fuel cancelled fee_with available maxCandidate (c + 1) b with
    | Ok (Some (f, ch), _) => c <= f <= maxCandidate /\ ch = available - f /\ balanced f /\
                              (forall x, c <= x < f -> ~ balanced x)
    | Ok (None, _) => forall x, c <= x <= maxCandidate -> ~ balanced x
    | Err e => e ∈ solver_errors
    end) as Hnext.
  { intros b Hn. specialize (IH (c + 1) b ltac:(lia) ltac:(lia)).
    destruct (candidate_loop _ _ _ _ _ _ _) as [[[[f ch]|] b']|e]; [| |done].
    - destruct IH as (? & ? & ? & Hx). split; [lia|]. do 2 (split; [done|]). intros x Hr.
      destruct (decide (x = c)) as [->|]; [done|]. apply Hx. lia.
    - intros x Hr. destruct (decide (x = c)) as [->|]; [done|]. apply IH. lia. }
  destruct (Z.ltb_spec (available - c) DustSats) as [Hd|Hd].
  { apply Hnext. intros [? _]. lia. }
  unfold consume. destruct (budget =? 0); [by do 2 right; left|]. cbn.
  destruct (fee_with (available - c)) as [a|e] eqn:Ea; cbn; [|by eapply fee_errors].
  destruct (Z.eqb_spec a c) as [->|Hne].
  { split; [lia|]. split; [done|]. split; [done|]. intros; lia. }
  rewrite (proj2 (Z.eqb_neq _ _)) by (unfold max_int64, max_uint64 in *; lia).
  apply Hnext. intros [_ E]. congruence.
Qed.
End Search.

(** ** What the solver looks for *)
Section Solutions.
Context (destScript changeScript : bytes) (amount feeCap : Z) (estimator : Estimator).

Definition dest_output : Output := {| out_Amount := amount; out_Script := hex_encode destScript |}.
Definition change_output (sats : Z) : Output := {| out_Amount := sats; out_Script := hex_encode changeScript |}.

(** Spending [coins], paying [fee] and keeping [change] balances, stays under
    the cap, and the fee is the one the Operator asks for these outputs; the
    change is either none or above dust. *)
Definition solution (coins : list reservedCoin) (fee change : Z) : Prop :=
  coins_value coins = amount + fee + change /\ 0 <= fee <= feeCap /\
  (change = 0 /\ evaluate_fee estimator (map co_FeeInput coins) [dest_output] = Ok fee \/
   DustSats <= change /\
   evaluate_fee estimator (map co_FeeInput coins) [dest_output; change_output change] = Ok fee).

(** A solution without change is preferred, and else the smallest fee. *)
Definition preferred (coins : list reservedCoin) (fee change : Z) : Prop :=
  forall fee' change', solution coins fee' change' ->
    (change' = 0 -> change = 0) /\ (change <> 0 -> fee <= fee').

Definition with_change (coins : list reservedCoin) (sats : Z) : result Z :=
  evaluate_fee estimator (map co_FeeInput coins) [dest_output; change_output sats].

(** The solutions, once the one without change is excluded, are the balanced
    candidates of the loop. *)
Lemma solution_with_change coins noChangeFee fee change :
  evaluate_fee estimator (map co_FeeInput coins) [dest_output] = Ok noChangeFee ->
  (noChangeFee <=? feeCap) && (coins_value coins - amount =? noChangeFee) = false ->
  solution coins fee change <->
  0 <= fee <= feeCap /\ change = coins_value coins - amount - fee /\ change <> 0 /\
  balanced (with_change coins) (coins_value coins - amount) fee.
Proof.
  rewrite andb_false_iff, Z.leb_gt, Z.eqb_neq. intros En Hno. unfold solution, balanced, with_change. split.
  - intros (Hsum & Hfc & Hcases). assert (change = coins_value coins - amount - fee) as -> by lia.
    destruct Hcases as [[? E]|[Hd E]].
    + rewrite En in E. apply Ok_inj in E as <-. lia.
    + unfold DustSats in *. repeat (split; [lia|]). done.
  - intros (Hf & -> & Hc & Hd & E). split; [lia|]. split; [done|]. by right.
Qed.

Lemma solve_spec cancelled coins budget : 0 <= feeCap <= max_int64 ->
  match solveVtxoSpendWithBudget cancelled coins destScript changeScript amount feeCap estimator budget with
  | Ok (Some (fee, change), _) => solution coins fee change /\ preferred coins fee change
  | Ok (None, _) => forall fee change, ~ solution coins fee change
  | Err e => e ∈ solver_errors
  end.
Proof.
  intros Hcap. unfold solveVtxoSpendWithBudget, fail_if. destruct (cancelled None); [by left|]. cbn.
  destruct (total_inputs coins) as [total|e] eqn:Et; cbn; [|apply total_inputs_error in Et as ->; by right; left].
  apply total_inputs_Ok in Et as ->. assert (0 < DustSats) as Hdust by done.
  destruct (Z.ltb_spec (coins_value coins) amount) as [Hlt|Hge].
  { intros fee change (? & ? & [[-> _]|[? _]]); lia. }
  unfold consume. destruct (budget =? 0); [by do 2 right; left|]. cbn.
  fold dest_output. destruct (evaluate_fee estimator (map co_FeeInput coins) [dest_output]) as [nf|e] eqn:En; cbn; [|by eapply evaluate_fee_error].
  pose proof (evaluate_fee_range _ _ _ _ En) as Hr.
  destruct ((nf <=? feeCap) && (coins_value coins - amount =? nf)) eqn:Eq.
  { bool_hyps. split.
    - split; [lia|]. split; [lia|]. by left.
    - intros f' c' _. by split. }
  pose proof (fun f c => solution_with_change coins nf f c En Eq) as Hsol.
  match goal with |- context [candidate_loop ?f ?c _ ?a ?m 0 ?b] =>
    pose proof (candidate_loop_spec c (with_change coins) a m ltac:(case_match; bool_hyps; lia)
                  ltac:(intros ? ?; apply evaluate_fee_error) f 0 b) as Hloop;
    set (max := m) in *; change (fun sats => evaluate_fee _ _ _) with (with_change coins) end.
  assert (0 <= max /\ max <= feeCap /\ max <= coins_value coins - amount /\
          (forall f, f <= feeCap -> f <= coins_value coins - amount -> f <= max)) as (? & ? & ? & Hmax)
    by (subst max; case_match; bool_hyps; split_and!; intros; lia).
  specialize (Hloop ltac:(lia) ltac:(lia)).
  destruct (candidate_loop _ _ _ _ _ _ _) as [[[[fee change]|] b']|e]; [| |done].
  - destruct Hloop as (Hrange & -> & Hbal & Hmin). pose proof Hbal as [? _]. split; [apply Hsol; by split_and!; [lia..|]|].
    intros f' c' Hs. apply Hsol in Hs as (Hf' & -> & ? & Hb'). split; [lia|]. intros _.
    destruct (decide (f' < fee)) as [Hl|]; [|lia]. by destruct (Hmin f' ltac:(lia)).
  - intros f c Hs. apply Hsol in Hs as (Hf' & -> & ? & Hb'). pose proof Hb' as [? _].
    apply (Hloop f); [|done]. specialize (Hmax f). lia.
Qed.
End Solutions.

(** ** The coins *)
Record coin_of (pkScript : bytes) (v : ResolvedVtxo) (c : reservedCoin) : Prop := {
  cf_txid : hex_decode (rv_Txid v) = Some (co_Txid c);
  cf_txid_length : blen (co_Txid c) = 32;
  cf_vout : co_Vout c = rv_Vout v;
  cf_value : co_ValueSats c = rv_ValueSats v;
  cf_range : 0 < co_Effective c <= co_ValueSats c /\ co_ValueSats c <= max_int64;
  cf_script : co_Script c = pkScript /\ rv_Script v = pkScript;
  cf_fee : co_FeeInput c = resolvedArkFeeInput v;
}.

Lemma vtxoToCoin_Ok v pkScript est budget coin budget' :
  vtxoToCoin v pkScript est budget = Ok (coin, budget') -> forall c, coin = Some c -> coin_of pkScript v c.
Proof.
  unfold vtxoToCoin. intros H c ->. inv_ok. repeat case_match; simplify_eq; try discriminate.
  bool_hyps.
  match goal with E : exactFeeSats _ = Ok _ |- _ => apply exactFeeSats_range in E end.
  constructor; simpl; try done; try lia.
Qed.

Lemma vtxosToCoins_Ok vtxos pkScript est budget coins budget' :
  vtxosToCoins vtxos pkScript est budget = Ok (coins, budget') ->
  Forall (fun c => exists v, v ∈ vtxos /\ coin_of pkScript v c) coins.
Proof.
  revert budget coins budget'. induction vtxos as [|v vtxos IH]; intros budget coins budget' H; simpl in H.
  { apply Ok_inj, pair_equal_spec in H as [<- _]. constructor. }
  apply bind_Ok in H as ([coin b1] & E1 & H). apply bind_Ok in H as ([out b2] & E2 & H).
  apply Ok_inj, pair_equal_spec in H as [<- _]. apply IH in E2.
  assert (Forall (fun c => exists v', v' ∈ v :: vtxos /\ coin_of pkScript v' c) out) as Hout
    by (eapply Forall_impl; [exact E2|]; intros c (v' & ? & ?); exists v'; split; [by right|done]).
  destruct coin as [c|]; [|done]. constructor; [|done].
  exists v. split; [left|]. by eapply vtxoToCoin_Ok.
Qed.

Lemma exactFeeSats_fuel v : exactFeeSats v <> Err out_of_fuel.
Proof. unfold exactFeeSats. repeat case_match; done. Qed.

Lemma vtxoToCoin_fuel v pkScript est budget : vtxoToCoin v pkScript est budget <> Err out_of_fuel.
Proof.
  unfold vtxoToCoin, consume, fail_if, or_err. intros E.
  repeat (apply bind_Err in E as [E|(? & _ & E)]; [repeat case_match; done|]).
  apply bind_Err in E as [E|(? & _ & E)]; [by apply exactFeeSats_fuel in E|]. case_match; done.
Qed.

Lemma vtxosToCoins_fuel vtxos pkScript est budget : vtxosToCoins vtxos pkScript est budget <> Err out_of_fuel.
Proof.
  revert budget. induction vtxos as [|v vtxos IH]; intros budget E; simpl in E; [done|].
  apply bind_Err in E as [E|([coin b] & _ & E)]; [by apply vtxoToCoin_fuel in E|].
  apply bind_Err in E as [E|([out b'] & _ & E)]; [by apply IH in E|]. done.
Qed.

Lemma canonical_error l e : CanonicalVtxoBundleInputs l = Err e -> e <> out_of_fuel /\ e <> no_funds.
Proof.
  unfold CanonicalVtxoBundleInputs, fail_if. intros E.
  apply bind_Err in E as [E|(? & _ & E)]; [case_match; by simplify_eq|].
  apply bind_Err in E as [E|(? & _ & E)]; [|done]. revert E. generalize (@nil bytes).
  induction l as [|i l IH]; intros seen E; simpl in E; [done|].
  apply bind_Err in E as [E|([canon raw] & _ & E)].
  - unfold canonicalVtxoTxid in E. repeat case_match; by simplify_eq.
  - case_match; [by simplify_eq|]. apply bind_Err in E as [E|(? & _ & E)]; [by eapply IH|done].
Qed.

Lemma solver_error_known e : e ∈ solver_errors -> e <> out_of_fuel /\ e <> no_funds.
Proof. unfold solver_errors. rewrite !elem_of_cons. intros [->|[->|[->|[->|[->|H]]]]]; [done..|set_solver]. Qed.

Definition co_outpoint (c : reservedCoin) : bytes * Z := (co_Txid c, co_Vout c).

Lemma listed_distinct coins out : Forall (fun c => blen (co_Txid c) = 32) coins ->
  CanonicalVtxoBundleInputs (listed_coins coins) = Ok out -> NoDup (map co_outpoint coins).
Proof.
  unfold CanonicalVtxoBundleInputs, listed_coins. intros Hl H. apply bind_Ok in H as ([] & _ & H).
  apply bind_Ok in H as (ks0 & Hks & _). apply key_inputs_Ok in Hks as (HF & HN & _).
  apply (NoDup_fmap_1 (fun o : bytes * Z => outpoint_key (hex_encode (fst o)) (snd o))).
  change (NoDup (map (fun o : bytes * Z => outpoint_key (hex_encode (fst o)) (snd o)) (map co_outpoint coins))).
  rewrite map_map. replace (map _ coins) with (map kkey ks0); [done|].
  clear HN. revert ks0 HF. induction Hl as [|c coins Hc Hl IH]; intros ks HF.
  - by apply Forall2_nil_inv_l in HF as ->.
  - apply Forall2_cons_inv_l in HF as (k & ks' & (Hk & Hv & _) & HF & ->). simpl in *. f_equal; [|by apply IH].
    rewrite (canonicalVtxoTxid_id _ Hc) in Hk. apply Ok_inj, pair_equal_spec in Hk as [Hk _].
    unfold kkey, co_outpoint. simpl. by rewrite <- Hk, Hv.
Qed.

(** ** The order of the picked coins *)
Lemma picked_less_asym a b : picked_less a b = true -> picked_less b a = false.
Proof.
  unfold picked_less. destruct (decide (co_Txid a = co_Txid b)) as [Eq|Ne].
  - rewrite Eq, !bool_decide_eq_true_2 by done. simpl. rewrite Z.ltb_lt, Z.ltb_ge. lia.
  - rewrite !bool_decide_eq_false_2 by done. apply bytes_ltb_asym.
Qed.

Lemma picked_not_after_trans a b c :
  not_after picked_less a b -> not_after picked_less b c -> not_after picked_less a c.
Proof.
  unfold not_after, picked_less.
  destruct (decide (co_Txid c = co_Txid b)) as [E1|N1], (decide (co_Txid b = co_Txid a)) as [E2|N2].
  - rewrite E1, E2, !bool_decide_eq_true_2 by done. simpl. rewrite !Z.ltb_ge. lia.
  - rewrite E1. rewrite (bool_decide_eq_true_2 (co_Txid b = co_Txid b)) by done.
    rewrite bool_decide_eq_false_2 by done. done.
  - rewrite <- E2. rewrite (bool_decide_eq_true_2 (co_Txid b = co_Txid b)) by done.
    rewrite bool_decide_eq_false_2 by done. done.
  - rewrite !bool_decide_eq_false_2 by done. simpl. intros H1 H2.
    destruct (decide (co_Txid c = co_Txid a)) as [E|N].
    + exfalso. apply N1. rewrite E in *. by apply bytes_ltb_total.
    + rewrite bool_decide_eq_false_2 by done. simpl.
      destruct (bytes_ltb (co_Txid c) (co_Txid a)) eqn:E; [|done].
      destruct (bytes_ltb (co_Txid a) (co_Txid b)) eqn:E3.
      * rewrite (bytes_ltb_trans _ _ _ E E3) in H2. done.
      * exfalso. apply N2. by apply bytes_ltb_total.
Qed.

(** ** The selection *)
Lemma count_loop_spec solve coins remaining count budget :
  match count_loop solve coins remaining count budget with
  | Ok (picked, fee, change) => exists n b b', (count <= n < count + remaining)%nat /\
      picked = slice_stable picked_less (take n coins) /\ solve n b = Ok (Some (fee, change), b') /\
      forall m, (count <= m < n)%nat -> exists b b', solve m b = Ok (None, b')
  | Err e => (exists n b, solve n b = Err e) \/
             e = no_funds /\
             forall m, (count <= m < count + remaining)%nat -> exists b b', solve m b = Ok (None, b')
  end.
Proof.
  revert count budget. induction remaining as [|remaining IH]; intros count budget; cbn [count_loop].
  { right. split; [done|]. intros; lia. }
  destruct (solve count budget) as [[[[fee change]|] b']|e] eqn:E; cbn; [| |left; eauto].
  - exists count, budget, b'. split_and!; [lia|lia|done|done|]. intros; lia.
  - assert (forall m, (count <= m)%nat -> m <> count -> (S count <= m)%nat) as Hm by lia.
    specialize (IH (S count) b'). destruct (count_loop _ _ _ _ _) as [[[picked fee] change]|e'].
    + destruct IH as (n & b1 & b2 & Hn & Hp & Hs & Hall). exists n, b1, b2. split_and!; [lia..|done|done|].
      intros m Hr. destruct (decide (m = count)) as [->|]; [eauto|]. apply Hall. lia.
    + destruct IH as [?|[-> Hall]]; [by left|]. right. split; [done|]. intros m Hr.
      destruct (decide (m = count)) as [->|]; [eauto|]. apply Hall. lia.
Qed.

(** The coins in the order in which they are tried. *)
Definition tried (coins : list reservedCoin) (n : nat) : list reservedCoin := take n (slice_stable coin_less coins).

Section Selections.
Context (vtxos : list ResolvedVtxo) (pkScript destScript : bytes) (amount feeCap : Z) (estimator : Estimator).
Notation solution := (solution destScript pkScript amount feeCap estimator).
Notation preferred := (preferred destScript pkScript amount feeCap estimator).
Hypothesis cap_range : 0 <= feeCap <= max_int64.

(** A selection out of [coins]: the first [n] for which there is a solution. *)
Record selects (coins picked : list reservedCoin) (fee change : Z) (n : nat) : Prop := {
  se_count : (1 <= n <= length coins)%nat /\ Z.of_nat n <= maxVtxoSpendInputs;
  se_picked : picked = slice_stable picked_less (tried coins n);
  se_solution : solution (tried coins n) fee change;
  se_preferred : preferred (tried coins n) fee change;
  se_first : forall m, (1 <= m < n)%nat -> forall fee' change', ~ solution (tried coins m) fee' change';
}.

(** The attempt with the first [n] coins. *)
Definition solve (cancelled : nat -> option Z -> bool) (coins : list reservedCoin) (n : nat) (budget : Z)
  : result (option (Z * Z) * Z) :=
  solveVtxoSpendWithBudget (cancelled n) (tried coins n) destScript pkScript amount feeCap estimator budget.

Lemma selectSpendVtxos_spec spendable admitted cancelled :
  match selectSpendVtxos spendable admitted cancelled pkScript destScript amount feeCap estimator with
  | Ok (picked, fee, change) => exists vtxos coins b out n, spendable = Ok vtxos /\
      vtxosToCoins vtxos pkScript estimator maxVtxoFeeProgramEvaluations = Ok (coins, b) /\
      CanonicalVtxoBundleInputs (listed_coins coins) = Ok out /\ selects coins picked fee change n
  | Err e => (e = out_of_fuel -> admitted = Err e) /\
      forall vs coins b, spendable = Ok vs -> admitted = Ok tt -> e = no_funds ->
        vtxosToCoins vs pkScript estimator maxVtxoFeeProgramEvaluations = Ok (coins, b) ->
        forall m, (1 <= m <= length coins)%nat -> Z.of_nat m <= maxVtxoSpendInputs ->
        forall fee change, ~ solution (tried coins m) fee change
  end.
Proof.
  unfold selectSpendVtxos. destruct spendable as [vs|]; [|done]. cbn.
  destruct admitted as [[]|e]; cbn; [|by split; [intros ->|]].
  destruct (vtxosToCoins vs _ _ _) as [[coins b]|e] eqn:Ec; cbn.
  2: { split; [intros ->; by apply vtxosToCoins_fuel in Ec|]. intros ? coins b [= <-] _ _ Ec'. congruence. }
  destruct (CanonicalVtxoBundleInputs _) as [out|e] eqn:Eo; cbn.
  2: { apply canonical_error in Eo as [??]. by split. }
  match goal with |- context [count_loop ?s ?l ?r 1 b] =>
    pose proof (count_loop_spec s l r 1 b) as H; assert (forall n b, s n b = solve cancelled coins n b) as Hs by done end.
  assert (length (slice_stable coin_less coins) = length coins) as Hlen by (apply Permutation_length, slice_stable_perm).
  assert (forall m b b', solve cancelled coins m b = Ok (None, b') ->
    forall fee change, ~ solution (tried coins m) fee change) as Hnone.
  { intros m c1 c2 E. pose proof (solve_spec destScript pkScript amount feeCap estimator (cancelled m) (tried coins m) c1 cap_range) as Hspec.
    unfold solve in E. rewrite E in Hspec. exact Hspec. }
  destruct (count_loop _ _ _ _ _) as [[[picked fee] change]|e].
  - destruct H as (n & b1 & b2 & Hn & -> & Hsn & Hall). exists vs, coins, b, out, n. do 3 (split; [done|]).
    pose proof (solve_spec destScript pkScript amount feeCap estimator (cancelled n) (tried coins n) b1 cap_range) as Hspec.
    rewrite Hs in Hsn. unfold solve in Hsn. rewrite Hsn in Hspec. destruct Hspec as [Hsol Hpref].
    constructor; [unfold maxVtxoSpendInputs, MaxVtxoOperationInputs in *; lia|done|done|done|].
    intros m Hm. destruct (Hall m Hm) as (c1 & c2 & E). rewrite Hs in E. by eapply Hnone.
  - destruct H as [(n & b1 & E)|[-> Hall]].
    + rewrite Hs in E. unfold solve in E.
      pose proof (solve_spec destScript pkScript amount feeCap estimator (cancelled n) (tried coins n) b1 cap_range) as Hspec.
      rewrite E in Hspec. apply solver_error_known in Hspec as [??]. by split.
    + split; [done|]. intros ? coins' b' [= <-] _ _ Ec'. rewrite Ec in Ec'. apply Ok_inj, pair_equal_spec in Ec' as [<- _].
      intros m Hm Hmax. destruct (Hall m) as (c1 & c2 & E); [|rewrite Hs in E; by eapply Hnone].
      unfold maxVtxoSpendInputs, MaxVtxoOperationInputs in *. lia.
Qed.
End Selections.

(** ** What a selection promises *)

(** C34: A successful coin selection balances and can be afforded: the picked
    coins are worth exactly the amount, the fee and the change; the fee is within
    the cap and is the one the Operator's program asks for exactly these coins
    and outputs; the change is none or at least the dust limit; and the coins,
    at most 50, are distinct coins that the indexer listed for the vault's
    script, in the order of their outpoints. *)
Theorem vtxo_selection_sound spendable admitted cancelled pkScript destScript amount feeCap estimator picked fee change :
  0 <= feeCap <= max_int64 ->
  selectSpendVtxos spendable admitted cancelled pkScript destScript amount feeCap estimator = Ok (picked, fee, change) ->
  coins_value picked = amount + fee + change /\ 0 <= fee <= feeCap /\ (change = 0 \/ DustSats <= change) /\
  (exists chosen, chosen ≡ₚ picked /\ evaluate_fee estimator (map co_FeeInput chosen)
     (dest_output destScript amount :: (if change =? 0 then [] else [change_output pkScript change])) = Ok fee) /\
  1 <= Z.of_nat (length picked) <= 50 /\ NoDup (map co_outpoint picked) /\
  StronglySorted (not_after picked_less) picked /\
  exists vtxos, spendable = Ok vtxos /\ Forall (fun c => exists v, v ∈ vtxos /\ coin_of pkScript v c) picked.
Proof.
  intros Hcap H. pose proof (selectSpendVtxos_spec pkScript destScript amount feeCap estimator Hcap spendable admitted cancelled) as Hs.
  rewrite H in Hs. destruct Hs as (vtxos & coins & b & out & n & -> & Hc & Ho & [[Hn Hm] Hp Hsol _ _]).
  apply vtxosToCoins_Ok in Hc. pose proof (slice_stable_perm coin_less coins) as Hperm.
  assert (tried coins n ≡ₚ picked) as Hpick by (rewrite Hp; symmetry; apply slice_stable_perm).
  assert (Forall (fun c => exists v, v ∈ vtxos /\ coin_of pkScript v c) picked) as Hknown
    by (rewrite <- Hpick; apply Forall_take; by rewrite Hperm).
  assert (NoDup (map co_outpoint coins)) as Hd.
  { eapply listed_distinct; [|exact Ho]. eapply Forall_impl; [exact Hc|]. intros c (v & _ & [])  . done. }
  pose proof Hsol as (Hsum & Hfee & Hcase). split; [|split; [done|split]].
  - rewrite <- Hsum. unfold coins_value. by apply sumZ_perm.
  - destruct Hcase as [[? _]|[? _]]; auto.
  - split; [|split; [|split; [|split; [|by exists vtxos]]]].
    + exists (tried coins n). split; [done|].
      destruct Hcase as [[-> E]|[Hdust E]]; [done|]. unfold DustSats in *. by rewrite (proj2 (Z.eqb_neq _ _)) by lia.
    + rewrite <- (Permutation_length Hpick). unfold tried. rewrite length_take, (Permutation_length Hperm).
      unfold maxVtxoSpendInputs, MaxVtxoOperationInputs in *. lia.
    + rewrite <- Hpick. unfold tried. rewrite <- firstn_map. eapply sublist_NoDup; [|apply sublist_take].
      by rewrite Hperm.
    + rewrite Hp. apply slice_stable_sorted; [apply picked_less_asym|apply picked_not_after_trans].
Qed.

(** The selection is the first possible one: with the economic coins in
    the order of the code, it takes the smallest number of them for which the
    Operator's fee balances, prefers a payment without change and else the
    smallest fee; and it reports missing funds only when no number of coins
    has a balanced fee. *)
Theorem vtxo_selection_first vtxos cancelled pkScript destScript amount feeCap estimator coins b :
  0 <= feeCap <= max_int64 ->
  vtxosToCoins vtxos pkScript estimator maxVtxoFeeProgramEvaluations = Ok (coins, b) ->
  match selectSpendVtxos (Ok vtxos) (Ok tt) cancelled pkScript destScript amount feeCap estimator with
  | Ok (picked, fee, change) => exists n, selects pkScript destScript amount feeCap estimator coins picked fee change n
  | Err e => e = no_funds -> forall m, (1 <= m <= length coins)%nat -> Z.of_nat m <= 50 ->
      forall fee change, ~ solution destScript pkScript amount feeCap estimator (tried coins m) fee change
  end.
Proof.
  intros Hcap Hc. pose proof (selectSpendVtxos_spec pkScript destScript amount feeCap estimator Hcap (Ok vtxos) (Ok tt) cancelled) as H.
  destruct (selectSpendVtxos _ _ _ _ _ _ _ _) as [[[picked fee] change]|e].
  - destruct H as (vs & coins' & b' & out & n & [= <-] & Hc' & _ & Hsel). rewrite Hc in Hc'.
    apply Ok_inj, pair_equal_spec in Hc' as [<- _]. by exists n.
  - intros He m Hm Hmax. by apply (proj2 H vtxos coins b).
Qed.

(** C35: Coin selection ends: for any list of coins, any fee program and any
    fee cap that fits an [int64], the loops over the number of coins and over the
    candidate fees stop by their own tests, within [maxCandidate + 2] rounds, and
    never by the fuel of the model. *)
Theorem vtxo_selection_terminates vtxos cancelled pkScript destScript amount feeCap estimator :
  0 <= feeCap <= max_int64 ->
  selectSpendVtxos vtxos (Ok tt) cancelled pkScript destScript amount feeCap estimator <> Err out_of_fuel.
Proof.
  intros Hcap E. pose proof (selectSpendVtxos_spec pkScript destScript amount feeCap estimator Hcap vtxos (Ok tt) cancelled) as H.
  rewrite E in H. by discriminate (proj1 H eq_refl).
Qed.

(** *** A wallet of three coins and a flat fee of 200 sats *)
Definition flat_fee : Estimator := {|
  est_EvalOffchainInput := fun _ => Some (S754_zero false);
  est_Eval := fun _ _ => Some (S754_finite false 25 3);
|}.

Definition wallet_script : bytes := str "vault".
Definition wallet_coin (n value : Z) : ResolvedVtxo := {|
  rv_Txid := hex_encode (be_bytes 32 n); rv_Vout := n; rv_ValueSats := value; rv_Script := wallet_script;
  rv_CreatedAt := 1767225600; rv_ExpiresAt := Some 1767830400; rv_IsSwept := false; rv_CommitmentTxids := [str "c"];
|}.
Definition wallet : list ResolvedVtxo := [wallet_coin 3 1000; wallet_coin 1 5000; wallet_coin 2 7000].
Definition wallet_selection := selectSpendVtxos (Ok wallet) (Ok tt) (fun _ _ => false) wallet_script (str "dest") 10000 1000 flat_fee.

Lemma wallet_selected : exists picked, wallet_selection = Ok (picked, 200, 1800) /\ map co_ValueSats picked = [5000; 7000].
Proof. eexists. split; vm_compute; reflexivity. Defined.

Lemma vtxo_selection_sound_witness : exists picked, wallet_selection = Ok (picked, 200, 1800) /\ coins_value picked = 10000 + 200 + 1800.
Proof.
  destruct wallet_selected as (picked & E & _). exists picked. split; [exact E|].
  apply (vtxo_selection_sound (Ok wallet) (Ok tt) (fun _ _ => false) wallet_script (str "dest") 10000 1000 flat_fee);
    [unfold max_int64; lia|exact E].
Defined.

Lemma vtxo_selection_first_witness :
  exists coins b, vtxosToCoins wallet wallet_script flat_fee maxVtxoFeeProgramEvaluations = Ok (coins, b) /\
  match wallet_selection with
  | Ok (picked, fee, change) => exists n, selects wallet_script (str "dest") 10000 1000 flat_fee coins picked fee change n
  | Err e => e = no_funds -> forall m, (1 <= m <= length coins)%nat -> Z.of_nat m <= 50 ->
      forall fee change, ~ solution (str "dest") wallet_script 10000 1000 flat_fee (tried coins m) fee change
  end.
Proof.
  eexists _, _. split; [vm_compute; reflexivity|].
  eapply (vtxo_selection_first wallet (fun _ _ => false) wallet_script (str "dest") 10000 1000 flat_fee);
    [unfold max_int64; lia|vm_compute; reflexivity].
Defined.

Lemma vtxo_selection_terminates_witness :
  selectSpendVtxos (Ok wallet) (Ok tt) (fun _ _ => false) wallet_script (str "dest") 10000 1000 flat_fee <> Err out_of_fuel.
Proof. apply vtxo_selection_terminates. unfold max_int64. lia. Defined.
