(* ===== verification/VtxoScript.v ===== *)
(** * The taproot tree of a vault ([src/internal/policy/vtxo_script.go])

    [BuildVaultPolicyV1Tree] encodes the three leaves of a vault: the
    collaborative spend, the delayed exit of the owner, the delegate leaf.
    Building and encoding scripts is the Ark library's ([ArkScript]).
    [vault_tree_guarded] says that whoever spends without the vault cosigner has
    to wait for the exit delay of the network. *)
From Stdlib Require Import Strings.Byte.
From S2P Require Import Prelude Sha256 Text Psbt Program Cosigner.

(** What the code calls of [arkscript] and [schnorr] to build a tree. *)
Class ArkScript := {
  schnorr_ParsePubKey : bytes -> option PubKey;
  closure_Script : Closure -> option bytes;
  script_ExitClosures : list Closure -> list Closure;
  script_Encode : list Closure -> option (list bytes);
}.

Record VaultPolicyV1Params := {
  vp_UserPub : bytes;
  vp_VtxoVaultCosignerPub : bytes;
  vp_ArkdServerPub : bytes;
  vp_DelegatePub : bytes;
  vp_ExitMode : bytes;
  vp_ExitDevicePub : bytes;
  vp_ExitHardwarePub : bytes;
  vp_ExitRecoveryPub : bytes;
  vp_Network : bytes;
}.

Record VaultPolicyV1Tree := {
  vt_SpendScript : bytes;
  vt_ExitScript : bytes;
  vt_DelegateScript : bytes;
  vt_SpendControlBlock : bytes;
  vt_DelegateControlBlock : bytes;
  vt_RevealedScripts : list bytes;
  vt_TapKey : bytes;
  vt_PkScript : bytes;
}.

Section Tree.
Context `{Btc} `{Secp} `{ArkScript}.

Definition parsePolicyPub (raw : bytes) (name : string) : result PubKey :=
  if blen raw =? 32 then
    match schnorr_ParsePubKey raw with Some pub => Ok pub | None => Err (ErrMsg "%s: %w") end
  else if blen raw =? 33 then
    match btcec_ParsePubKey raw with Some pub => Ok pub | None => Err (ErrMsg "%s: %w") end
  else Err (ErrMsg "%s must be 32-byte x-only or 33-byte compressed").

Definition PinnedDelegateXOnlyFor (network : bytes) : result bytes :=
  let network := if network == [] then NetworkMutinynet else network in
  pins ← PinsFor network;
  match hex_decode (np_DelegatePub pins) with
  | None => Err (ErrMsg "pinned public delegate")
  | Some raw =>
      _ ← fail_if (negb (blen raw =? 33)) (ErrMsg "pinned public delegate");
      match btcec_ParsePubKey raw with
      | None => Err (ErrMsg "pinned public delegate: %w")
      | Some pub => Ok (SerializePubKey pub)
      end
  end.

Definition PinnedDelegateXOnly : result bytes := PinnedDelegateXOnlyFor NetworkMutinynet.

(** The keys of the exit leaf. *)
Definition exit_keys (p : VaultPolicyV1Params) (user device : PubKey) : result (list PubKey) :=
  if vp_ExitMode p == str "device" then
    _ ← fail_if (negb (blen (vp_ExitHardwarePub p) =? 0) || negb (blen (vp_ExitRecoveryPub p) =? 0)
                 || (SerializePubKey device != SerializePubKey user))
          (ErrMsg "device recovery requires only the enrolled Spending owner");
    Ok [device]
  else if (vp_ExitMode p == []) || (vp_ExitMode p == str "hardware") then
    hardware ← parsePolicyPub (vp_ExitHardwarePub p) "exitHardwarePub";
    if 0 <? blen (vp_ExitRecoveryPub p) then
      recovery ← parsePolicyPub (vp_ExitRecoveryPub p) "exitRecoveryPub";
      Ok [hardware; recovery]
    else Ok [device; hardware]
  else Err (ErrMsg "unsupported Spending recovery mode %q").

(** A library call of the builder. *)
Definition encoded {A} (o : option A) : result A :=
  match o with Some a => Ok a | None => Err (ErrMsg "arkscript") end.

Definition BuildVaultPolicyV1Tree (p : VaultPolicyV1Params) : result VaultPolicyV1Tree :=
  let network := if vp_Network p == [] then NetworkMutinynet else vp_Network p in
  pins ← PinsFor network;
  _ ← ValidateVaultPolicyV1ExitDelayFor network (np_PolicyExitDelay pins) VaultPolicyV1ExitDelayUnit;
  user ← parsePolicyPub (vp_UserPub p) "userPub";
  vtxoVault ← parsePolicyPub (vp_VtxoVaultCosignerPub p) "vtxoVaultCosignerPub";
  arkd ← parsePolicyPub (vp_ArkdServerPub p) "arkdServerPub";
  delegate ← parsePolicyPub (vp_DelegatePub p) "delegatePub";
  device ← parsePolicyPub (vp_ExitDevicePub p) "exitDevicePub";
  exitPubs ← exit_keys p user device;
  let exitDelay := {| rl_Type := LocktimeTypeSecond; rl_Value := np_PolicyExitDelay pins |} in
  let spend := MultisigClosure [Some user; Some vtxoVault; Some arkd] in
  let exit := CSVMultisigClosure (map Some exitPubs) exitDelay in
  wantDelegate ← PinnedDelegateXOnlyFor network;
  _ ← fail_if (SerializePubKey delegate != wantDelegate) (ErrMsg "delegatePub must be the pinned public delegate");
  let del := MultisigClosure [Some user; Some vtxoVault; Some delegate; Some arkd] in
  let tree := [spend; exit; del] in
  _ ← fail_if (negb (Nat.eqb (length (script_ExitClosures tree)) 1))
        (ErrMsg "vault-policy-v1 requires exactly one guardian exit, got %d");
  tapTree ← encoded (script_TapTree tree);
  pkScript ← encoded (P2TRScript (tt_TapKey tapTree));
  spendScript ← encoded (closure_Script spend);
  exitScript ← encoded (closure_Script exit);
  delegateScript ← encoded (closure_Script del);
  spendProof ← encoded (tt_ControlBlock tapTree (tap_leaf_hash spendScript));
  delProof ← encoded (tt_ControlBlock tapTree (tap_leaf_hash delegateScript));
  revealed ← encoded (script_Encode tree);
  Ok {| vt_SpendScript := spendScript; vt_ExitScript := exitScript; vt_DelegateScript := delegateScript;
        vt_SpendControlBlock := spendProof; vt_DelegateControlBlock := delProof; vt_RevealedScripts := revealed;
        vt_TapKey := SerializePubKey (tt_TapKey tapTree); vt_PkScript := pkScript |}.
End Tree.

(** ** Nobody spends past the cosigner without waiting *)
Definition leaf_needs (leaf : Closure) (key : PubKey) : Prop :=
  match leaf with
  | MultisigClosure keys | CSVMultisigClosure keys _ => Some key ∈ keys
  | OtherClosure _ => False
  end.

(** A leaf that opens after the delay, with the keys of the owner only. *)
Definition delayed_exit (pins : NetworkPins) (keys : list PubKey) (leaf : Closure) : Prop :=
  leaf = CSVMultisigClosure (map Some keys) {| rl_Type := LocktimeTypeSecond; rl_Value := np_PolicyExitDelay pins |}.

Section TreeSpec.
Context `{Btc} `{Secp} `{ArkScript}.

Definition network_of (p : VaultPolicyV1Params) : bytes :=
  if vp_Network p == [] then NetworkMutinynet else vp_Network p.

(** The leaves of the tree, and how the encoded tree follows from them. *)
Record tree_of (p : VaultPolicyV1Params) (t : VaultPolicyV1Tree) (pins : NetworkPins)
    (user cosigner operator delegate : PubKey) (exitKeys : list PubKey) (leaves : list Closure) : Prop := {
  to_pins : PinsFor (network_of p) = Ok pins;
  to_user : parsePolicyPub (vp_UserPub p) "userPub" = Ok user;
  to_cosigner : parsePolicyPub (vp_VtxoVaultCosignerPub p) "vtxoVaultCosignerPub" = Ok cosigner;
  to_operator : parsePolicyPub (vp_ArkdServerPub p) "arkdServerPub" = Ok operator;
  to_delegate : PinnedDelegateXOnlyFor (network_of p) = Ok (SerializePubKey delegate);
  to_exit : exists device, parsePolicyPub (vp_ExitDevicePub p) "exitDevicePub" = Ok device /\
    exit_keys p user device = Ok exitKeys;
  to_leaves : leaves = [MultisigClosure [Some user; Some cosigner; Some operator];
    CSVMultisigClosure (map Some exitKeys) {| rl_Type := LocktimeTypeSecond; rl_Value := np_PolicyExitDelay pins |};
    MultisigClosure [Some user; Some cosigner; Some delegate; Some operator]];
  to_scripts : map closure_Script leaves = map Some [vt_SpendScript t; vt_ExitScript t; vt_DelegateScript t];
  to_output : exists tree, script_TapTree leaves = Some tree /\ P2TRScript (tt_TapKey tree) = Some (vt_PkScript t) /\
    vt_TapKey t = SerializePubKey (tt_TapKey tree) /\
    tt_ControlBlock tree (tap_leaf_hash (vt_SpendScript t)) = Some (vt_SpendControlBlock t) /\
    tt_ControlBlock tree (tap_leaf_hash (vt_DelegateScript t)) = Some (vt_DelegateControlBlock t);
  to_revealed : script_Encode leaves = Some (vt_RevealedScripts t);
}.

Lemma encoded_Ok {A} (o : option A) a : encoded o = Ok a -> o = Some a.
Proof. destruct o; simpl; [by intros ->%Ok_inj|done]. Qed.

Lemma Build_Ok p t : BuildVaultPolicyV1Tree p = Ok t ->
  exists pins user cosigner operator delegate exitKeys leaves,
    tree_of p t pins user cosigner operator delegate exitKeys leaves /\
    ValidateVaultPolicyV1ExitDelayFor (network_of p) (np_PolicyExitDelay pins) VaultPolicyV1ExitDelayUnit = Ok tt.
Proof.
  unfold BuildVaultPolicyV1Tree. fold (network_of p). intros E.
  apply bind_Ok in E as (pins & Ep & E). apply bind_Ok in E as ([] & Ev & E). apply bind_Ok in E as (user & Eu & E).
  apply bind_Ok in E as (cosigner & Ec & E). apply bind_Ok in E as (operator & Eo & E).
  apply bind_Ok in E as (delegate & Ed & E). apply bind_Ok in E as (device & Edev & E).
  apply bind_Ok in E as (exitKeys & Ee & E). apply bind_Ok in E as (want & Ew & E). apply bind_Ok in E as ([] & Edel & E).
  apply bind_Ok in E as ([] & _ & E). apply bind_Ok in E as (tree & Et & E). apply bind_Ok in E as (pk & Epk & E).
  apply bind_Ok in E as (ss & Es & E). apply bind_Ok in E as (xs & Ex & E). apply bind_Ok in E as (ds & Eds & E).
  apply bind_Ok in E as (sp & Esp & E). apply bind_Ok in E as (dp & Edp & E). apply bind_Ok in E as (rev & Er & E).
  apply Ok_inj in E as <-. apply encoded_Ok in Et, Epk, Es, Ex, Eds, Esp, Edp, Er.
  apply fail_if_Ok in Edel. bool_hyps. subst want.
  do 7 eexists. split; [|exact Ev]. constructor; [done..| | | | |]; simpl.
  - by exists device.
  - done.
  - simpl. by rewrite Es, Ex, Eds.
  - by exists tree.
  - done.
Qed.

(** The exit of the parameters: a device exit has the owner's device alone, whose
    key is the owner's, and names no other key; a hardware exit has the device and
    the hardware key, or the hardware and the recovery key once one is enrolled. *)
Definition exit_of (p : VaultPolicyV1Params) (user device : PubKey) (keys : list PubKey) : Prop :=
  (vp_ExitMode p = str "device" /\ vp_ExitHardwarePub p = [] /\ vp_ExitRecoveryPub p = [] /\ keys = [device] /\
   SerializePubKey device = SerializePubKey user) \/
  ((vp_ExitMode p = [] \/ vp_ExitMode p = str "hardware") /\
   exists hardware, parsePolicyPub (vp_ExitHardwarePub p) "exitHardwarePub" = Ok hardware /\
     ((vp_ExitRecoveryPub p = [] /\ keys = [device; hardware]) \/
      (vp_ExitRecoveryPub p <> [] /\ exists recovery, parsePolicyPub (vp_ExitRecoveryPub p) "exitRecoveryPub" = Ok recovery /\
         keys = [hardware; recovery]))).

Lemma blen_0 (b : bytes) : blen b = 0 -> b = [].
Proof. destruct b; [done|]. unfold blen. simpl. lia. Qed.

Lemma exit_of_Ok p user device keys : exit_keys p user device = Ok keys -> exit_of p user device keys.
Proof.
  unfold exit_keys, exit_of. intros E. case_bool_decide as Hm.
  - left. apply bind_Ok in E as ([] & Ef & E). apply fail_if_Ok in Ef. apply Ok_inj in E as <-. bool_hyps.
    split; [done|]. split; [apply blen_0; lia|]. split; [apply blen_0; lia|]. done.
  - right. destruct (_ || _) eqn:Eo; [|done]. split; [apply orb_true_iff in Eo as [Eo|Eo]; apply bool_decide_eq_true in Eo; auto|].
    apply bind_Ok in E as (hw & Eh & E). exists hw. split; [done|]. destruct (0 <? blen (vp_ExitRecoveryPub p)) eqn:Er.
    + right. split; [by intros En; rewrite En in Er|]. apply bind_Ok in E as (rc & Erc & E). apply Ok_inj in E as <-. by exists rc.
    + left. split; [apply blen_0; pose proof (blen_nonneg (vp_ExitRecoveryPub p)); lia|]. by apply Ok_inj in E as <-.
Qed.

(** C32: Every leaf of an accepted vault tree is guarded: a leaf that opens at
    once needs the owner, the vault cosigner and the Operator, and the only
    other leaf opens after the exit delay of the network, a whole number of BIP68
    steps and never below the Operator's minimum, with one or two keys of the
    owner: the device alone in a device exit, otherwise the device and the hardware
    key, or the hardware and the recovery key; the delegate of the third leaf is the pinned one. *)
Theorem vault_tree_guarded p t : BuildVaultPolicyV1Tree p = Ok t ->
  exists pins user cosigner operator delegate exitKeys leaves,
    tree_of p t pins user cosigner operator delegate exitKeys leaves /\
    (forall leaf, leaf ∈ leaves ->
       (leaf_needs leaf user /\ leaf_needs leaf cosigner /\ leaf_needs leaf operator) \/ delayed_exit pins exitKeys leaf) /\
    np_ArkdMinExitDelay pins <= np_PolicyExitDelay pins /\ (VaultPolicyV1BIP68SecondsMod | np_PolicyExitDelay pins) /\
    (length exitKeys = 1 \/ length exitKeys = 2)%nat /\
    exists device, parsePolicyPub (vp_ExitDevicePub p) "exitDevicePub" = Ok device /\ exit_of p user device exitKeys.
Proof.
  intros E. apply Build_Ok in E as (pins & user & cosigner & operator & delegate & exitKeys & leaves & Ht & Hv).
  exists pins, user, cosigner, operator, delegate, exitKeys, leaves. split; [done|]. split; [|split; [|split; [|split]]].
  - intros leaf. rewrite (to_leaves _ _ _ _ _ _ _ _ _ Ht), !elem_of_cons, elem_of_nil.
    intros [->|[->|[->|[]]]]; [left|by right|left]; simpl; set_solver.
  - unfold ValidateVaultPolicyV1ExitDelayFor in Hv. rewrite (to_pins _ _ _ _ _ _ _ _ _ Ht) in Hv. inv_ok. bool_hyps. lia.
  - unfold ValidateVaultPolicyV1ExitDelayFor in Hv. rewrite (to_pins _ _ _ _ _ _ _ _ _ Ht) in Hv. inv_ok. bool_hyps.
    apply Z.mod_divide; [done|lia].
  - destruct (to_exit _ _ _ _ _ _ _ _ _ Ht) as (device & _ & Ek).
    apply exit_of_Ok in Ek as [(_ & _ & _ & -> & _)|(_ & ? & _ & [(_ & ->)|(_ & ? & _ & ->)])]; auto.
  - destruct (to_exit _ _ _ _ _ _ _ _ _ Ht) as (device & Ed & Ek). exists device. split; [done|]. by apply exit_of_Ok.
Qed.
End TreeSpec.

(** ** An example *)
Definition toy_ark : ArkScript := {|
  schnorr_ParsePubKey := fun raw => Some (byte_of_Z 2 :: raw);
  closure_Script := fun c => match c with MultisigClosure [_; _; _] => Some toy_leaf | _ => Some (str "other") end;
  script_ExitClosures := List.filter (fun c => match c with CSVMultisigClosure _ _ => true | _ => false end);
  script_Encode := fun _ => Some [];
|}.

Definition toy_params : VaultPolicyV1Params := {|
  vp_UserPub := SerializePubKey toy_user; vp_VtxoVaultCosignerPub := SerializePubKey toy_cosigner;
  vp_ArkdServerPub := SerializePubKey toy_operator;
  vp_DelegatePub := default [] (hex_decode VaultPolicyV1PinnedDelegate); vp_ExitMode := str "device";
  vp_ExitDevicePub := SerializePubKey toy_user; vp_ExitHardwarePub := []; vp_ExitRecoveryPub := [];
  vp_Network := NetworkMutinynet |}.

Lemma vault_tree_guarded_witness :
  exists t (leaves : list Closure), @BuildVaultPolicyV1Tree (toy_btc []) toy_secp toy_ark toy_params = Ok t /\
    forall leaf, leaf ∈ leaves -> leaf_needs leaf toy_cosigner \/
      delayed_exit (match PinsFor NetworkMutinynet with Ok pins => pins | Err _ => Build_NetworkPins [] 0 0 0 [] [] 0 0 end)
        [toy_user] leaf.
Proof.
  set (btc := toy_btc []). set (secp := toy_secp). set (ark := toy_ark).
  destruct (BuildVaultPolicyV1Tree toy_params) as [t|] eqn:E; [|exfalso; revert E; vm_compute; discriminate].
  destruct (vault_tree_guarded toy_params t E) as (pins & user & cosigner & operator & delegate & keys & leaves & Ht & Hl & _).
  exists t, leaves. split; [reflexivity|]. intros leaf Hin.
  pose proof (to_cosigner _ _ _ _ _ _ _ _ _ Ht) as Ec. pose proof (to_pins _ _ _ _ _ _ _ _ _ Ht) as Ep.
  destruct (to_exit _ _ _ _ _ _ _ _ _ Ht) as (device & Ed & Ek).
  pose proof (to_user _ _ _ _ _ _ _ _ _ Ht) as Eu. vm_compute in Eu. apply Ok_inj in Eu as <-.
  vm_compute in Ec. apply Ok_inj in Ec as <-. vm_compute in Ed. apply Ok_inj in Ed as <-.
  vm_compute in Ek. apply Ok_inj in Ek as <-.
  destruct (Hl leaf Hin) as [(_ & Hn & _)|Hd]; [left; exact Hn|right].
  unfold toy_params, network_of in Ep. simpl vp_Network in Ep. change (PinsFor NetworkMutinynet = Ok pins) in Ep. rewrite Ep. exact Hd.
Defined.
