(* ===== verification/VtxoVerify.v ===== *)
(** * Verification of payment PSBTs ([src/internal/application/vtxo_verify.go], [vtxo_pending_proof.go])

    Before the service signs a payment it checks the packets of the client
    against the reservation: the Ark transaction ([verifySpendPSBT]), one
    checkpoint for every input ([verifyUnsignedCheckpointPSBT], and
    [verifySubmittedCheckpointPSBT] after the Operator signed it), and the proof
    that recovers a pending submission ([verifyPendingProof]).

    [vtxo_bundle_determined] says that the reservation leaves no freedom: an
    accepted packet carries the one transaction that the reservation describes. *)
From Stdlib Require Import Strings.Byte.
From S2P Require Import Prelude Sha256 Text Base64 Json Psbt Program Vtxo VtxoSelect VtxoScript.

(** [vtxoPolicyTree]: the taproot tree of a vault. *)
Record vtxoPolicyTree := {
  tr_params : VaultPolicyV1Params;
  tr_CosignerPub : PubKey;
  tr_DelegatePub : PubKey;
  tr_ArkdPub : PubKey;
  tr_TapKey : bytes;
  tr_PkScript : bytes;
  tr_SpendLeaf : bytes;
  tr_DelegateLeaf : bytes;
  tr_SpendControl : bytes;
  tr_DelegateControl : bytes;
  tr_RevealedScripts : list bytes;
  tr_ArkAddress : bytes;
  tr_OnchainAddress : bytes;
}.

Definition canonicalGetPendingTxMessage : bytes :=
  str "{" ++ json_quote (str "type") ++ str ":" ++ json_quote (str "get-pending-tx") ++ str ","
  ++ json_quote (str "expire_at") ++ str ":0}".

Section Verify.
Context `{Btc}.

(** ** One input *)
Definition controlBlockMatches (pkScript leafScript control : bytes) : result unit :=
  _ ← fail_if ((blen pkScript =? 0) || (blen leafScript =? 0) || (blen control =? 0)) (ErrMsg "control block");
  match control_RootHash control leafScript with
  | None => Err (ErrMsg "control block: %w")
  | Some root =>
      match P2TRScript (unspendable_output_key root) with
      | None => Err (ErrMsg "p2tr script")
      | Some want => fail_if (want != pkScript) (ErrMsg "control block does not match prevout")
      end
  end.

(** [[]] when the leaf is not a multisig closure with a first key. *)
Definition firstLeafPub (leaf : bytes) : bytes :=
  match DecodeClosure leaf with
  | Some (MultisigClosure (Some pub :: _)) => SerializePubKey pub
  | _ => []
  end.

(** One signature of the loop at the end of [requireExactLeafWithSighash]. *)
Definition require_allowed_sig (leafHash : bytes) (allowed : list bytes) (wantSigHash : Z)
    (sig : option TaprootScriptSpendSig) : result unit :=
  match sig with
  | None => Err (ErrMsg "nil signature")
  | Some sig =>
      _ ← fail_if (negb (ts_SigHash sig =? wantSigHash)) (ErrMsg "unexpected sighash");
      _ ← fail_if (ts_LeafHash sig != leafHash) (ErrMsg "signature leaf hash");
      fail_if (negb (existsb (fun pub => ts_XOnlyPubKey sig == pub) allowed)) (ErrMsg "unexpected signature")
  end.

Definition requireExactLeafWithSighash (input : PInput) (pkScript wantLeaf wantControl : bytes)
    (allowed : list bytes) (wantSigHash : Z) : result unit :=
  match pi_WitnessUtxo input with
  | None => Err (ErrMsg "witness utxo required")
  | Some utxo =>
      _ ← fail_if (to_PkScript utxo != pkScript) (ErrMsg "input script");
      match pi_TaprootLeafScript input with
      | [Some leaf] =>
          _ ← fail_if (negb (pi_SighashType input =? wantSigHash)) (ErrMsg "unexpected input sighash");
          _ ← fail_if (negb (tl_LeafVersion leaf =? BaseLeafVersion)) (ErrMsg "tapleaf version");
          _ ← fail_if (tl_Script leaf != wantLeaf) (ErrMsg "unexpected tapleaf");
          _ ← controlBlockMatches pkScript (tl_Script leaf) (tl_ControlBlock leaf);
          _ ← fail_if ((0 <? blen wantControl) && (tl_ControlBlock leaf != wantControl)) (ErrMsg "unexpected control block");
          each (require_allowed_sig (tap_leaf_hash (tl_Script leaf)) allowed wantSigHash) (pi_TaprootScriptSpendSig input)
      | _ => Err (ErrMsg "exactly one tapleaf required")
      end
  end.

Definition requireExactLeaf (input : PInput) (pkScript wantLeaf wantControl : bytes) (allowed : list bytes)
  : result unit :=
  requireExactLeafWithSighash input pkScript wantLeaf wantControl allowed SigHashDefault.

(** One signature of the loop of [requireVerifiedSignersWithSighash]; [found]
    are the signers seen so far. *)
Definition verify_signer (ptx : Packet) (idx : nat) (signers : list bytes) (leaf : bytes) (wantSigHash : Z)
    (found : list bytes) (sig : option TaprootScriptSpendSig) : result (list bytes) :=
  match sig with
  | None => Err (ErrMsg "nil signature")
  | Some sig =>
      let key := ts_XOnlyPubKey sig in
      _ ← fail_if (negb (bool_decide (key ∈ signers))) (ErrMsg "unexpected signature");
      _ ← fail_if (bool_decide (key ∈ found)) (ErrMsg "duplicate signature");
      _ ← fail_if (negb (ts_SigHash sig =? wantSigHash) || (ts_LeafHash sig != tap_leaf_hash leaf))
            (ErrMsg "unexpected sighash");
      _ ← or_err (ErrMsg "signature invalid")
            (verifySchnorrOnInputWithSighash ptx idx (ts_Signature sig) key leaf wantSigHash);
      Ok (key :: found)
  end.

Definition requireVerifiedSignersWithSighash (ptx : Packet) (idx : nat) (signers : list bytes) (leaf : bytes)
    (wantSigHash : Z) : result unit :=
  let missing := ErrMsg "required signatures missing" in
  match pk_Inputs ptx !! idx with
  | None => Err missing
  | Some input =>
      _ ← each (fun signer => fail_if (negb (blen signer =? 32)) (ErrMsg "signer pubkey")) signers;
      match pi_TaprootLeafScript input with
      | [Some _] =>
          found ← fold_res (verify_signer ptx idx signers leaf wantSigHash) [] (pi_TaprootScriptSpendSig input);
          fail_if (negb (Nat.eqb (length found) (length (remove_dups signers)))) missing
      | _ => Err missing
      end
  end.

Definition requireVerifiedUserSignature (ptx : Packet) (idx : nat) (user leaf : bytes) : result unit :=
  requireVerifiedSignersWithSighash ptx idx [user] leaf SigHashDefault.

(** ** Checkpoints *)
Definition checkpointDestScript (unroll spendLeaf : bytes) : result (bytes * bytes) :=
  match DecodeClosure unroll, DecodeClosure spendLeaf with
  | None, _ => Err (ErrMsg "checkpoint tapscript")
  | _, None => Err (ErrMsg "spend leaf")
  | Some unrollClosure, Some spendClosure =>
      match script_TapTree [unrollClosure; spendClosure] with
      | None => Err (ErrMsg "tap tree")
      | Some tree =>
          match P2TRScript (tt_TapKey tree) with
          | None => Err (ErrMsg "p2tr script")
          | Some pk =>
              match tt_ControlBlock tree (tap_leaf_hash spendLeaf) with
              | None => Err (ErrMsg "merkle proof")
              | Some control => Ok (pk, control)
              end
          end
      end
  end.

Definition outpointKey (txid : bytes) (vout : Z) : bytes := outpoint_key (hex_encode txid) vout.

Definition matchReservedOutpoint (seen : gmap bytes VtxoOperationInput) (op : OutPoint) : option VtxoOperationInput :=
  display ← hex_decode (op_Hash op);
  seen !! outpointKey display (op_Index op).

(** The one-entry map that the callers look into. *)
Definition reserved_map (input : VtxoOperationInput) : gmap bytes VtxoOperationInput :=
  {[ outpointKey (vi_Txid input) (wrap32 (vi_Vout input)) := input ]}.

Definition verifyUnsignedCheckpointPSBT (ptx : Packet) (input : VtxoOperationInput) (op : VtxoOperation)
    (tree : vtxoPolicyTree) : result unit :=
  let tx := pk_UnsignedTx ptx in
  _ ← fail_if (negb (ut_Version tx =? 3) || negb (ut_LockTime tx =? 0)) (ErrMsg "checkpoint version/locktime");
  match ut_TxIn tx, pk_Inputs ptx with
  | [txin], [pin] =>
      _ ← fail_if (negb (ti_Sequence txin =? MaxTxInSequenceNum)) (ErrMsg "checkpoint sequence");
      _ ← fail_if (bool_decide (matchReservedOutpoint (reserved_map input) (ti_PreviousOutPoint txin) = None))
            (ErrMsg "checkpoint outpoint");
      match pi_WitnessUtxo pin with
      | None => Err (ErrMsg "checkpoint value")
      | Some wu =>
          _ ← fail_if (negb (wrap64 (to_Value wu) =? wrap64 (vi_ValueSats input))) (ErrMsg "checkpoint value");
          _ ← fail_if ((to_PkScript wu != tr_PkScript tree)
                       || ((0 <? blen (vi_Script input)) && (to_PkScript wu != vi_Script input))) (ErrMsg "checkpoint script");
          _ ← fail_if (blen (vo_CheckpointTapscript op) =? 0) (ErrMsg "checkpoint tapscript required");
          _ ← requireExactLeaf pin (tr_PkScript tree) (tr_SpendLeaf tree) (tr_SpendControl tree)
                [firstLeafPub (tr_SpendLeaf tree)];
          _ ← fail_if (negb (Nat.eqb (length (pi_TaprootScriptSpendSig pin)) 0)) (ErrMsg "checkpoint must be unsigned before submit");
          '(dest, _) ← checkpointDestScript (vo_CheckpointTapscript op) (tr_SpendLeaf tree);
          match ut_TxOut tx with
          | [out; anchor] =>
              _ ← fail_if ((to_PkScript out != dest) || negb (wrap64 (to_Value out) =? wrap64 (vi_ValueSats input)))
                    (ErrMsg "checkpoint dest");
              fail_if ((to_PkScript anchor != ANCHOR_PKSCRIPT) || negb (to_Value anchor =? 0)) (ErrMsg "checkpoint p2a")
          | _ => Err (ErrMsg "checkpoint output count")
          end
      end
  | _, _ => Err (ErrMsg "checkpoint must spend one reserved input")
  end.

Definition strip_signatures (ptx : Packet) : Packet := set_inputs (map (set_sigs []) (pk_Inputs ptx)) ptx.

Definition verifyCheckpointShape (ptx : Packet) (input : VtxoOperationInput) (op : VtxoOperation)
    (tree : vtxoPolicyTree) : result unit :=
  _ ← fail_if (negb (Nat.eqb (length (pk_Inputs ptx)) 1)) (ErrMsg "checkpoint psbt");
  clone ← or_err (ErrMsg "checkpoint psbt") (clonePacket ptx);
  verifyUnsignedCheckpointPSBT (strip_signatures clone) input op tree.

Definition verifySubmittedCheckpointPSBT (ptx : Packet) (input : VtxoOperationInput) (op : VtxoOperation)
    (tree : vtxoPolicyTree) : result unit :=
  _ ← verifyCheckpointShape ptx input op tree;
  match pk_Inputs ptx with
  | pin :: _ =>
      let user := firstLeafPub (tr_SpendLeaf tree) in
      let operator := SerializePubKey (tr_ArkdPub tree) in
      _ ← requireExactLeaf pin (tr_PkScript tree) (tr_SpendLeaf tree) (tr_SpendControl tree) [user; operator];
      requireVerifiedSignersWithSighash ptx 0 [user; operator] (tr_SpendLeaf tree) SigHashDefault
  | [] => Err (ErrMsg "checkpoint psbt")
  end.

(** ** Equality of the unsigned parts *)
Definition same_sig (a b : option TaprootScriptSpendSig) : bool :=
  match a, b with Some a, Some b => a == b | _, _ => false end.

Fixpoint all2 {A} (f : A -> A -> bool) (l1 l2 : list A) : bool :=
  match l1, l2 with
  | [], [] => true
  | x :: l1, y :: l2 => f x y && all2 f l1 l2
  | _, _ => false
  end.

Definition same_psbt_input (a b : TxIn * PInput) : bool :=
  (ti_Sequence (fst a) =? ti_Sequence (fst b)) && (pi_SighashType (snd a) =? pi_SighashType (snd b)) &&
  match pi_WitnessUtxo (snd a), pi_WitnessUtxo (snd b) with
  | Some aw, Some bw => aw == bw
  | _, _ => false
  end &&
  match pi_TaprootLeafScript (snd a), pi_TaprootLeafScript (snd b) with
  | [Some al], [Some bl] => al == bl
  | _, _ => false
  end &&
  all2 same_sig (pi_TaprootScriptSpendSig (snd a)) (pi_TaprootScriptSpendSig (snd b)).

Definition packet_inputs (p : Packet) : list (TxIn * PInput) := zip (ut_TxIn (pk_UnsignedTx p)) (pk_Inputs p).

Definition unsignedPSBTEqual (a b : Packet) : bool :=
  (ut_Version (pk_UnsignedTx a) =? ut_Version (pk_UnsignedTx b)) &&
  (ut_LockTime (pk_UnsignedTx a) =? ut_LockTime (pk_UnsignedTx b)) &&
  (tx_TxHash (pk_UnsignedTx a) == tx_TxHash (pk_UnsignedTx b)) &&
  Nat.eqb (length (pk_Inputs a)) (length (pk_Inputs b)) &&
  Nat.eqb (length (ut_TxIn (pk_UnsignedTx a))) (length (ut_TxIn (pk_UnsignedTx b))) &&
  all2 same_psbt_input (packet_inputs a) (packet_inputs b).

Definition sameUnsignedPSBT (a b : Packet) : bool :=
  match clonePacket a, clonePacket b with
  | Ok ac, Ok bc => unsignedPSBTEqual (strip_signatures ac) (strip_signatures bc)
  | _, _ => false
  end.

(** ** The Ark transaction *)

(** The body of the loop over the inputs, for input [i] of [ptx]. *)
Definition spend_input (ptx : Packet) (i : nat) (input : VtxoOperationInput) (cp : Packet) (txin : TxIn) (pin : PInput)
    (tree : vtxoPolicyTree) (destScript arkControl user : bytes) (inSum : Z) : result Z :=
  _ ← fail_if (negb (ti_Sequence txin =? MaxTxInSequenceNum)) (ErrMsg "ark input sequence");
  _ ← fail_if (ti_PreviousOutPoint txin != {| op_Hash := tx_TxHash (pk_UnsignedTx cp); op_Index := 0 |})
        (ErrMsg "ark input is not checkpoint %d");
  match pi_WitnessUtxo pin with
  | None => Err (ErrMsg "ark prevout")
  | Some wu =>
      _ ← fail_if ((to_Value wu <? 0) || negb (wrap64 (to_Value wu) =? wrap64 (vi_ValueSats input))
                   || (to_PkScript wu != destScript)) (ErrMsg "ark prevout");
      _ ← fail_if (max_uint64 - inSum <? to_Value wu) (ErrMsg "input amount overflow");
      _ ← requireExactLeaf pin destScript (tr_SpendLeaf tree) arkControl [user];
      _ ← requireVerifiedUserSignature ptx i user (tr_SpendLeaf tree);
      Ok (inSum + to_Value wu)
  end.

(** The loop; the four lists have the same length. *)
Fixpoint spend_inputs (ptx : Packet) (i : nat) (inputs : list VtxoOperationInput) (checkpoints : list Packet)
    (txins : list (TxIn * PInput)) (tree : vtxoPolicyTree) (destScript arkControl user : bytes) (inSum : Z) : result Z :=
  match inputs, checkpoints, txins with
  | input :: inputs, cp :: checkpoints, (txin, pin) :: txins =>
      inSum ← spend_input ptx i input cp txin pin tree destScript arkControl user inSum;
      spend_inputs ptx (S i) inputs checkpoints txins tree destScript arkControl user inSum
  | [], _, _ => Ok inSum
  | _, _, _ => Err (ErrMsg "index out of range")
  end.

(** The change output: its value, or the error of its shape. *)
Definition spend_change (op : VtxoOperation) (tree : vtxoPolicyTree) (outs : list TxOut) : result Z :=
  if vo_ChangeSats op =? 0 then
    _ ← fail_if (negb (bool_decide (vo_ChangeVout op = None)) || negb (blen (vo_ChangeScript op) =? 0))
          (ErrMsg "invalid no-change shape");
    Ok 0
  else
    _ ← fail_if (negb (bool_decide (vo_ChangeVout op = Some 1)) || (vo_ChangeSats op <? DustSats))
          (ErrMsg "invalid change shape");
    match outs !! 1%nat with
    | None => Err (ErrMsg "index out of range")
    | Some change =>
        _ ← fail_if ((to_PkScript change != tr_PkScript tree) || (to_PkScript change != vo_ChangeScript op))
              (ErrMsg "change must be vault-policy-v1");
        _ ← fail_if (negb (to_Value change =? vo_ChangeSats op)) (ErrMsg "change amount");
        Ok (wrap64 (to_Value change))
    end.

Definition verifySpendPSBT (ptx : Packet) (op : VtxoOperation) (inputs : list VtxoOperationInput)
    (tree : vtxoPolicyTree) (checkpoints : list Packet) : result unit :=
  let tx := pk_UnsignedTx ptx in
  _ ← fail_if (Nat.eqb (length inputs) 0 || (maxVtxoSpendInputs <? Z.of_nat (length inputs))
               || negb (Nat.eqb (length checkpoints) (length inputs))) (ErrMsg "ark input count");
  _ ← fail_if (negb (ut_Version tx =? 3) || negb (ut_LockTime tx =? 0)) (ErrMsg "ark tx version/locktime");
  _ ← fail_if (negb (Nat.eqb (length (ut_TxIn tx)) (length inputs)) || negb (Nat.eqb (length (pk_Inputs ptx)) (length inputs)))
        (ErrMsg "ark input count");
  '(destScript, arkControl) ← checkpointDestScript (vo_CheckpointTapscript op) (tr_SpendLeaf tree);
  let user := firstLeafPub (tr_SpendLeaf tree) in
  inSum ← spend_inputs ptx 0 inputs checkpoints (packet_inputs ptx) tree destScript arkControl user 0;
  let wantOutputs := if 0 <? vo_ChangeSats op then 3%nat else 2%nat in
  _ ← fail_if (negb (Nat.eqb (length (ut_TxOut tx)) wantOutputs)) (ErrMsg "ark output count");
  match ut_TxOut tx !! 0%nat, last (ut_TxOut tx) with
  | Some dest, Some anchor =>
      _ ← fail_if (negb (wrap64 (to_Value dest) =? wrap64 (vo_AmountSats op)) || (to_PkScript dest != vo_DestScript op))
            (ErrMsg "dest");
      _ ← fail_if (to_Value dest <? DustSats) (ErrMsg "dest amount");
      changeValue ← spend_change op tree (ut_TxOut tx);
      _ ← fail_if ((to_PkScript anchor != ANCHOR_PKSCRIPT) || negb (to_Value anchor =? 0)) (ErrMsg "p2a output");
      let outSum := wrap64 (wrap64 (to_Value dest) + changeValue) in
      fail_if ((vo_FeeSats op <? 0) || (max_uint64 - outSum <? vo_FeeSats op)
               || negb (inSum =? wrap64 (outSum + wrap64 (vo_FeeSats op)))) (ErrMsg "input/output conservation")
  | _, _ => Err (ErrMsg "index out of range")
  end.

(** ** The pending proof *)
Definition pendingProofDigest (raw : bytes) : result bytes :=
  packet ← parsePSBT raw;
  canonical ← b64Encode packet;
  _ ← fail_if (canonical != raw) (ErrMsg "pending proof must use canonical base64 PSBT encoding");
  match base64_decode canonical with
  | Some decoded => Ok (sha256 decoded)
  | None => Err (ErrMsg "pending proof encoding")
  end.

Definition requirePendingProofMessage (packet : Packet) : result unit :=
  match pk_Unknowns packet with
  | [Some u] =>
      _ ← fail_if (un_Key u != [byte_of_Z 9]) (ErrMsg "pending proof canonical message required");
      fail_if (un_Value u != canonicalGetPendingTxMessage) (ErrMsg "pending proof message")
  | _ => Err (ErrMsg "pending proof canonical message required")
  end.

(** The value and the script that input [i] must spend; input 0 is the message. *)
Definition proof_prevout (inputs : list VtxoOperationInput) (tree : vtxoPolicyTree) (i : nat) (txin : TxIn)
  : result (Z * bytes) :=
  match i with
  | O => Ok (0, tr_PkScript tree)
  | S k =>
      match inputs !! k with
      | None => Err (ErrMsg "index out of range")
      | Some stored =>
          _ ← fail_if (bool_decide (matchReservedOutpoint (reserved_map stored) (ti_PreviousOutPoint txin) = None))
                (ErrMsg "pending proof input order");
          Ok (vi_ValueSats stored, vi_Script stored)
      end
  end.

Definition proof_input (packet : Packet) (inputs : list VtxoOperationInput) (tree : vtxoPolicyTree)
    (requiredXOnly : list bytes) (i : nat) (txin : TxIn) (pin : PInput) : result unit :=
  _ ← fail_if (negb (ti_Sequence txin =? MaxTxInSequenceNum)) (ErrMsg "pending proof sequence");
  '(wantValue, wantScript) ← proof_prevout inputs tree i txin;
  match pi_WitnessUtxo pin with
  | None => Err (ErrMsg "pending proof input %d prevout")
  | Some witness =>
      _ ← fail_if (negb (to_Value witness =? wantValue) || (to_PkScript witness != tr_PkScript tree)
                   || (to_PkScript witness != wantScript)) (ErrMsg "pending proof input %d prevout");
      _ ← wrap_err "pending proof input %d: %w" (requireExactLeafWithSighash pin (tr_PkScript tree) (tr_SpendLeaf tree)
            (tr_SpendControl tree) requiredXOnly SigHashAll);
      wrap_err "pending proof input %d: %w" (requireVerifiedSignersWithSighash packet i requiredXOnly (tr_SpendLeaf tree) SigHashAll)
  end.

Fixpoint proof_inputs (packet : Packet) (inputs : list VtxoOperationInput) (tree : vtxoPolicyTree)
    (requiredXOnly : list bytes) (i : nat) (l : list (TxIn * PInput)) : result unit :=
  match l with
  | [] => Ok tt
  | (txin, pin) :: l =>
      _ ← proof_input packet inputs tree requiredXOnly i txin pin;
      proof_inputs packet inputs tree requiredXOnly (S i) l
  end.

Definition verifyPendingProof (raw : bytes) (inputs : list VtxoOperationInput) (tree : vtxoPolicyTree)
    (required skipped : list PubKey) : result unit :=
  _ ← fail_if (Nat.eqb (length inputs) 0 || (blen (tr_PkScript tree) =? 0) || (blen (tr_SpendLeaf tree) =? 0))
        (ErrMsg "pending proof policy inputs required");
  packet ← parsePSBT raw;
  _ ← match b64Encode packet with
      | Ok canonical => fail_if (canonical != raw) (ErrMsg "pending proof must use canonical base64 PSBT encoding")
      | Err _ => Err (ErrMsg "pending proof must use canonical base64 PSBT encoding")
      end;
  _ ← requirePendingProofMessage packet;
  let tx := pk_UnsignedTx packet in
  _ ← fail_if (negb (ut_Version tx =? 2) || negb (ut_LockTime tx =? 0)) (ErrMsg "pending proof version/locktime");
  _ ← fail_if (negb (Nat.eqb (length (ut_TxIn tx)) (length inputs + 1))
               || negb (Nat.eqb (length (pk_Inputs packet)) (length inputs + 1))) (ErrMsg "pending proof input count");
  _ ← match ut_TxOut tx, pk_Outputs packet with
      | [out], [_] => fail_if (negb (to_Value out =? 0) || (to_PkScript out != [byte_of_Z OP_RETURN])) (ErrMsg "pending proof outputs")
      | _, _ => Err (ErrMsg "pending proof outputs")
      end;
  _ ← proof_inputs packet inputs tree (map SerializePubKey required) 0 (packet_inputs packet);
  fail_if (negb (intent_Verify raw canonicalGetPendingTxMessage skipped)) (ErrMsg "pending proof invalid: %w").

(** [phone] may be nil. *)
Definition verifyPhonePendingProof (raw : bytes) (inputs : list VtxoOperationInput) (tree : vtxoPolicyTree)
    (phone : option PubKey) : result unit :=
  match phone with
  | None => Err (ErrMsg "pending proof signer policy required")
  | Some phone => verifyPendingProof raw inputs tree [phone] [tr_CosignerPub tree; tr_ArkdPub tree]
  end.

Definition verifyDualSignedPendingProof (raw : bytes) (inputs : list VtxoOperationInput) (tree : vtxoPolicyTree)
    (phone : option PubKey) : result unit :=
  match phone with
  | None => Err (ErrMsg "pending proof signer policy required")
  | Some phone => verifyPendingProof raw inputs tree [phone; tr_CosignerPub tree] [tr_ArkdPub tree]
  end.

(** Whether a signature is by [vault]. *)
Definition by_signer (vault : bytes) (sig : option TaprootScriptSpendSig) : bool :=
  match sig with Some s => ts_XOnlyPubKey s == vault | None => false end.

Definition without_signer (vault : bytes) (i : PInput) : PInput :=
  set_sigs (List.filter (fun s => negb (by_signer vault s)) (pi_TaprootScriptSpendSig i)) i.

Definition requireOnlyVaultSignatureAdded (beforeRaw afterRaw expectedVault : bytes) : result unit :=
  before ← parsePSBT beforeRaw;
  after ← parsePSBT afterRaw;
  _ ← fail_if (negb (Nat.eqb (length (pk_Inputs before)) (length (pk_Inputs after))) || negb (blen expectedVault =? 32))
        (ErrMsg "authorized pending proof shape");
  _ ← each (fun i => fail_if (negb (Nat.eqb (length (List.filter (by_signer expectedVault) (pi_TaprootScriptSpendSig i))) 1))
              (ErrMsg "expected one VaultCosigner signature on pending proof input %d")) (pk_Inputs after);
  stripped ← b64Encode (set_inputs (map (without_signer expectedVault) (pk_Inputs after)) after);
  fail_if (stripped != beforeRaw) (ErrMsg "authorized pending proof mutated phone proof").
End Verify.

(** ** Signatures that were verified *)
Section VerifySpec.
Context `{Btc}.

(** The signatures of input [idx] are one valid signature of each signer, and
    nothing else. *)
Definition signed_by (ptx : Packet) (idx : nat) (signers : list bytes) (leaf : bytes) (sigHash : Z) : Prop :=
  exists input sigs, pk_Inputs ptx !! idx = Some input /\ pi_TaprootScriptSpendSig input = map Some sigs /\
    map ts_XOnlyPubKey sigs ≡ₚ remove_dups signers /\
    Forall (fun sig => ts_SigHash sig = sigHash /\ ts_LeafHash sig = tap_leaf_hash leaf /\
      verifySchnorrOnInputWithSighash ptx idx (ts_Signature sig) (ts_XOnlyPubKey sig) leaf sigHash = Ok tt) sigs.

Lemma verify_signer_Ok ptx idx signers leaf sigHash found sig found' :
  verify_signer ptx idx signers leaf sigHash found sig = Ok found' ->
  exists s, sig = Some s /\ found' = ts_XOnlyPubKey s :: found /\ ts_XOnlyPubKey s ∈ signers /\ ts_XOnlyPubKey s ∉ found /\
    ts_SigHash s = sigHash /\ ts_LeafHash s = tap_leaf_hash leaf /\
    verifySchnorrOnInputWithSighash ptx idx (ts_Signature s) (ts_XOnlyPubKey s) leaf sigHash = Ok tt.
Proof.
  unfold verify_signer. destruct sig as [s|]; [|done]. intros E.
  apply bind_Ok in E as ([] & E1 & E). apply bind_Ok in E as ([] & E2 & E). apply bind_Ok in E as ([] & E3 & E).
  apply bind_Ok in E as ([] & E4 & E). apply Ok_inj in E as <-. apply or_err_Ok in E4.
  apply fail_if_Ok, negb_false_iff, bool_decide_eq_true in E1. apply fail_if_Ok, bool_decide_eq_false in E2.
  apply fail_if_Ok in E3. bool_hyps. exists s. by repeat (split; [done|]).
Qed.

Lemma verify_signers_Ok ptx idx signers leaf sigHash sigs found found' :
  fold_res (verify_signer ptx idx signers leaf sigHash) found sigs = Ok found' ->
  NoDup found -> Forall (.∈ signers) found ->
  NoDup found' /\ Forall (.∈ signers) found' /\
  exists l, sigs = map Some l /\ found' ≡ₚ map ts_XOnlyPubKey l ++ found /\
    Forall (fun sig => ts_SigHash sig = sigHash /\ ts_LeafHash sig = tap_leaf_hash leaf /\
      verifySchnorrOnInputWithSighash ptx idx (ts_Signature sig) (ts_XOnlyPubKey sig) leaf sigHash = Ok tt) l.
Proof.
  revert found. induction sigs as [|sig sigs IH]; intros found E Hd Hs; simpl in E.
  { apply Ok_inj in E as <-. split; [done|]. split; [done|]. by exists []. }
  apply bind_Ok in E as (f1 & E1 & E). apply verify_signer_Ok in E1 as (s & -> & -> & Hin & Hnew & Hok).
  apply IH in E as (Hd' & Hs' & l & -> & Hp & Hl); [|by constructor|by constructor].
  split; [done|]. split; [done|]. exists (s :: l). split; [done|]. split; [|by constructor].
  rewrite Hp. simpl. symmetry. apply Permutation_middle.
Qed.

Lemma requireVerifiedSigners_Ok ptx idx signers leaf sigHash :
  requireVerifiedSignersWithSighash ptx idx signers leaf sigHash = Ok tt -> signed_by ptx idx signers leaf sigHash.
Proof.
  unfold requireVerifiedSignersWithSighash. destruct (pk_Inputs ptx !! idx) as [input|] eqn:Ei; [|done].
  intros E. apply bind_Ok in E as ([] & _ & E). destruct (pi_TaprootLeafScript input) as [|[l|] []]; try discriminate.
  apply bind_Ok in E as (found & Ef & E). apply fail_if_Ok, negb_false_iff, Nat.eqb_eq in E.
  apply verify_signers_Ok in Ef as (Hd & Hs & sigs & Es & Hp & Hv); [|constructor|constructor].
  rewrite app_nil_r in Hp. exists input, sigs. repeat (split; [done|]). split; [|done]. rewrite <- Hp.
  apply submseteq_length_Permutation; [|lia]. apply NoDup_submseteq; [done|]. intros x Hx.
  apply elem_of_remove_dups. rewrite Forall_forall in Hs. by apply Hs.
Qed.

Lemma signed_by_one ptx idx user leaf sigHash : signed_by ptx idx [user] leaf sigHash ->
  exists input sig, pk_Inputs ptx !! idx = Some input /\ pi_TaprootScriptSpendSig input = [Some sig] /\
    ts_XOnlyPubKey sig = user /\ verifySchnorrOnInputWithSighash ptx idx (ts_Signature sig) user leaf sigHash = Ok tt.
Proof.
  intros (input & sigs & Hi & Hs & Hp & Hv). assert (remove_dups [user] = [user]) as Er
    by (cbn; destruct (decide_rel _ _ _) as [Hn|]; [by apply elem_of_nil in Hn|done]).
  rewrite Er in Hp.
  apply Permutation_sym, Permutation_length_1_inv in Hp. destruct sigs as [|s []]; try discriminate.
  injection Hp as Hx. rewrite Forall_singleton in Hv. destruct Hv as (_ & _ & Hv). exists input, s. rewrite <- Hx. auto.
Qed.

(** ** The transactions that a reservation describes *)
Definition reserved_outpoint (input : VtxoOperationInput) : OutPoint :=
  {| op_Hash := hex_encode (vi_Txid input); op_Index := wrap32 (vi_Vout input) |}.

Definition anchor_output : TxOut := {| to_Value := 0; to_PkScript := ANCHOR_PKSCRIPT |}.

Definition checkpoint_tx (input : VtxoOperationInput) (dest : bytes) : UnsignedTx := {|
  ut_Version := 3; ut_LockTime := 0;
  ut_TxIn := [{| ti_PreviousOutPoint := reserved_outpoint input; ti_Sequence := MaxTxInSequenceNum |}];
  ut_TxOut := [{| to_Value := vi_ValueSats input; to_PkScript := dest |}; anchor_output];
|}.

Definition payment_outputs (op : VtxoOperation) : list TxOut :=
  {| to_Value := vo_AmountSats op; to_PkScript := vo_DestScript op |} ::
  (if vo_ChangeSats op =? 0 then [] else [{| to_Value := vo_ChangeSats op; to_PkScript := vo_ChangeScript op |}]) ++
  [anchor_output].

Definition payment_tx (op : VtxoOperation) (checkpoints : list Packet) : UnsignedTx := {|
  ut_Version := 3; ut_LockTime := 0;
  ut_TxIn := map (fun cp => {| ti_PreviousOutPoint := {| op_Hash := tx_TxHash (pk_UnsignedTx cp); op_Index := 0 |};
                               ti_Sequence := MaxTxInSequenceNum |}) checkpoints;
  ut_TxOut := payment_outputs op;
|}.

(** What the types of the Go fields guarantee: [Hash.String()] is 64 lower-case
    digits, an index is a [uint32], values are [int64]. *)
Definition outpoint_typed (o : OutPoint) : Prop := exists raw, op_Hash o = hex_encode raw /\ blen raw = 32 /\ is_uint32 (op_Index o).
Definition tx_typed (tx : UnsignedTx) : Prop :=
  Forall (fun i => outpoint_typed (ti_PreviousOutPoint i)) (ut_TxIn tx) /\
  Forall (fun o => is_int64 (to_Value o)) (ut_TxOut tx).
Definition packet_typed (p : Packet) : Prop :=
  tx_typed (pk_UnsignedTx p) /\
  Forall (fun i => forall u, pi_WitnessUtxo i = Some u -> is_int64 (to_Value u)) (pk_Inputs p).

Lemma outpoint_key_inj c1 c2 v1 v2 : length c1 = length c2 -> is_uint32 v1 -> is_uint32 v2 ->
  outpoint_key c1 v1 = outpoint_key c2 v2 -> c1 = c2 /\ v1 = v2.
Proof.
  unfold outpoint_key. intros Hl H1 H2 E. apply app_inj_1 in E as [-> E]; [|done]. split; [done|].
  apply app_inj_1 in E as [_ E]; [|done]. unfold is_uint32, max_uint32 in *. apply format_uint_inj in E; [done|unfold is_uint64, max_uint64; lia..].
Qed.

Lemma wrap32_uint32 z : is_uint32 (wrap32 z).
Proof. unfold is_uint32, max_uint32, wrap32. pose proof (Z.mod_pos_bound z 4294967296). lia. Qed.

Lemma reserved_match input o : outpoint_typed o -> blen (vi_Txid input) = 32 ->
  matchReservedOutpoint (reserved_map input) o <> None -> o = reserved_outpoint input.
Proof.
  intros (raw & Eh & Hr & Hi) Hl. unfold matchReservedOutpoint, reserved_map, outpointKey. rewrite Eh, hex_decode_encode. simpl.
  rewrite lookup_singleton. case_decide as E; [|done]. intros _.
  apply outpoint_key_inj in E as [E ?]; [|rewrite !hex_encode_length; unfold blen in *; lia|apply wrap32_uint32|done].
  apply hex_encode_inj in E as <-. destruct o. simpl in *. unfold reserved_outpoint. by subst.
Qed.

(** A comparison that an empty value switches off. *)
Lemma optional_match (want got : bytes) : (0 <? blen want) && (got != want) = false -> want = [] \/ want = got.
Proof.
  intros [E|E]%andb_false_iff.
  - left. destruct want; [done|]. apply Z.ltb_ge in E. unfold blen in E. simpl in E. lia.
  - right. apply negb_false_iff, bool_decide_eq_true in E. done.
Qed.

(** *** The tapleaf of an input *)
Record spends_leaf (input : PInput) (pkScript leaf control : bytes) (sigHash : Z) : Prop := {
  sl_script : exists value, pi_WitnessUtxo input = Some {| to_Value := value; to_PkScript := pkScript |};
  sl_leaf : exists block, pi_TaprootLeafScript input =
      [Some {| tl_ControlBlock := block; tl_Script := leaf; tl_LeafVersion := BaseLeafVersion |}] /\
    controlBlockMatches pkScript leaf block = Ok tt /\ (control <> [] -> block = control);
  sl_sighash : pi_SighashType input = sigHash;
}.

Lemma requireExactLeaf_Ok input pkScript leaf control allowed sigHash :
  requireExactLeafWithSighash input pkScript leaf control allowed sigHash = Ok tt ->
  spends_leaf input pkScript leaf control sigHash.
Proof.
  unfold requireExactLeafWithSighash. destruct (pi_WitnessUtxo input) as [[value script]|] eqn:Eu; [|done]. intros E.
  apply bind_Ok in E as ([] & E1 & E). destruct (pi_TaprootLeafScript input) as [|[[block lscript version]|] []] eqn:El; try discriminate.
  apply bind_Ok in E as ([] & E2 & E). apply bind_Ok in E as ([] & E3 & E). apply bind_Ok in E as ([] & E4 & E).
  apply bind_Ok in E as ([] & E5 & E). apply bind_Ok in E as ([] & E6 & E). simpl in *.
  apply fail_if_Ok in E1, E2, E3, E4, E6. bool_hyps. subst. constructor; [by eexists|eexists; split; [done|split; [done|]]|done].
  intros Hc. by apply optional_match in E6 as [?|?].
Qed.

(** *** Checkpoints *)
Lemma checkpoint_Ok ptx input op tree :
  verifyUnsignedCheckpointPSBT ptx input op tree = Ok tt ->
  packet_typed ptx -> is_int64 (vi_ValueSats input) -> blen (vi_Txid input) = 32 ->
  exists dest control pin, checkpointDestScript (vo_CheckpointTapscript op) (tr_SpendLeaf tree) = Ok (dest, control) /\
    pk_UnsignedTx ptx = checkpoint_tx input dest /\ pk_Inputs ptx = [pin] /\
    pi_WitnessUtxo pin = Some {| to_Value := vi_ValueSats input; to_PkScript := tr_PkScript tree |} /\
    (vi_Script input = [] \/ vi_Script input = tr_PkScript tree) /\ pi_TaprootScriptSpendSig pin = [] /\
    spends_leaf pin (tr_PkScript tree) (tr_SpendLeaf tree) (tr_SpendControl tree) SigHashDefault.
Proof.
  unfold verifyUnsignedCheckpointPSBT. intros E [[Hti Hto] Hpi] Hv Hx. destruct ptx as [[version lock ins outs] pins pouts unk]. simpl in *.
  apply bind_Ok in E as ([] & E1 & E). destruct ins as [|[o sequence] []]; try discriminate. destruct pins as [|pin []]; try discriminate.
  apply bind_Ok in E as ([] & E2 & E). apply bind_Ok in E as ([] & E3 & E).
  destruct (pi_WitnessUtxo pin) as [[value script]|] eqn:Eu; [|done].
  apply bind_Ok in E as ([] & E4 & E). apply bind_Ok in E as ([] & E5 & E). apply bind_Ok in E as ([] & E6 & E).
  apply bind_Ok in E as ([] & E7 & E). apply bind_Ok in E as ([] & E8 & E). apply bind_Ok in E as ([dest control] & E9 & E).
  destruct outs as [|[v1 s1] [|[v2 s2] []]]; try discriminate. apply bind_Ok in E as ([] & E10 & E). simpl in *.
  apply Forall_cons in Hti as [Hti _]. apply Forall_cons in Hpi as [Hpi _]. specialize (Hpi _ Eu). simpl in *.
  rewrite !Forall_cons in Hto. destruct Hto as (Hv1 & Hv2 & _). simpl in *.
  apply fail_if_Ok in E1, E2, E3, E4, E5, E8, E10, E. apply bool_decide_eq_false, reserved_match in E3; [|done|done].
  apply negb_false_iff, Nat.eqb_eq, length_zero_iff_nil in E8. apply requireExactLeaf_Ok in E7. bool_hyps. subst.
  match goal with W : wrap64 value = _ |- _ => apply wrap64_inj in W; [|done..] end.
  match goal with W : wrap64 v1 = _ |- _ => apply wrap64_inj in W; [|done..] end. subst.
  exists dest, control, pin. repeat (split; [done|]). split; [|done].
  match goal with N : _ && _ = false |- _ => by apply optional_match in N end.
Qed.

(** *** The Ark transaction *)
Definition checkpoint_input (cp : Packet) : TxIn :=
  {| ti_PreviousOutPoint := {| op_Hash := tx_TxHash (pk_UnsignedTx cp); op_Index := 0 |}; ti_Sequence := MaxTxInSequenceNum |}.

(** Input [k] spends the checkpoint of [input], through the spend leaf, with the
    user's signature and no other. *)
Record authorized_input (ptx : Packet) (k : nat) (input : VtxoOperationInput) (pin : PInput)
    (dest leaf control user : bytes) : Prop := {
  ai_value : pi_WitnessUtxo pin = Some {| to_Value := vi_ValueSats input; to_PkScript := dest |} /\ 0 <= vi_ValueSats input;
  ai_leaf : spends_leaf pin dest leaf control SigHashDefault;
  ai_signed : signed_by ptx k [user] leaf SigHashDefault;
}.

Lemma spend_input_Ok ptx k input cp txin pin tree dest control user s0 s :
  spend_input ptx k input cp txin pin tree dest control user s0 = Ok s ->
  (forall u, pi_WitnessUtxo pin = Some u -> is_int64 (to_Value u)) -> is_int64 (vi_ValueSats input) ->
  s = s0 + vi_ValueSats input /\ txin = checkpoint_input cp /\
  authorized_input ptx k input pin dest (tr_SpendLeaf tree) control user.
Proof.
  unfold spend_input. intros E Hp Hv.
  apply bind_Ok in E as ([] & E1 & E). apply bind_Ok in E as ([] & E2 & E).
  destruct (pi_WitnessUtxo pin) as [[value script]|] eqn:Eu; [|done]. specialize (Hp _ eq_refl). simpl in *.
  apply bind_Ok in E as ([] & E3 & E). apply bind_Ok in E as ([] & E4 & E). apply bind_Ok in E as ([] & E5 & E).
  apply bind_Ok in E as ([] & E6 & E). apply Ok_inj in E as <-. apply fail_if_Ok in E1, E2, E3.
  apply requireExactLeaf_Ok in E5. apply requireVerifiedSigners_Ok in E6. destruct txin as [o sequence]. simpl in *. bool_hyps.
  match goal with W : wrap64 value = _ |- _ => apply wrap64_inj in W; [|done..] end. subst.
  split; [done|]. split; [done|]. by constructor.
Qed.

Lemma spend_inputs_Ok ptx i inputs checkpoints txins tree dest control user s0 s :
  spend_inputs ptx i inputs checkpoints txins tree dest control user s0 = Ok s ->
  length checkpoints = length inputs -> length txins = length inputs ->
  Forall (fun tp : TxIn * PInput => forall u, pi_WitnessUtxo (snd tp) = Some u -> is_int64 (to_Value u)) txins ->
  Forall (fun input => is_int64 (vi_ValueSats input)) inputs ->
  s = s0 + sumZ vi_ValueSats inputs /\ map fst txins = map checkpoint_input checkpoints /\
  forall k input tp, inputs !! k = Some input -> txins !! k = Some tp ->
    authorized_input ptx (i + k) input (snd tp) dest (tr_SpendLeaf tree) control user.
Proof.
  revert i checkpoints txins s0. induction inputs as [|input inputs IH]; intros i [|cp cps] [|[txin pin] txins] s0 E Hc Ht Hp Hv;
    try discriminate; cbn [spend_inputs] in E.
  { apply Ok_inj in E as <-. split; [simpl; lia|]. by split. }
  apply Forall_cons in Hp as [Hp1 Hp]. apply Forall_cons in Hv as [Hv1 Hv]. simpl in *.
  apply bind_Ok in E as (s1 & E1 & E). apply spend_input_Ok in E1 as (-> & -> & Ha); [|done..].
  apply IH in E as (-> & Hm & Hk); [|lia|lia|done|done]. split; [lia|]. split; [by rewrite Hm|].
  intros [|k] input' tp Hi Htp; simpl in *; simplify_eq; [by rewrite Nat.add_0_r|].
  rewrite <- Nat.add_succ_comm. by apply Hk.
Qed.

(** What an accepted payment packet is. *)
Record payment_verified (ptx : Packet) (op : VtxoOperation) (inputs : list VtxoOperationInput)
    (tree : vtxoPolicyTree) (checkpoints : list Packet) : Prop := {
  pv_tx : pk_UnsignedTx ptx = payment_tx op checkpoints;
  pv_balance : sumZ vi_ValueSats inputs = vo_AmountSats op + vo_ChangeSats op + vo_FeeSats op;
  pv_amount : DustSats <= vo_AmountSats op /\ 0 <= vo_FeeSats op;
  pv_change : vo_ChangeSats op = 0 /\ vo_ChangeVout op = None \/
    DustSats <= vo_ChangeSats op /\ vo_ChangeVout op = Some 1 /\ vo_ChangeScript op = tr_PkScript tree;
  pv_count : (1 <= length inputs)%nat /\ Z.of_nat (length inputs) <= maxVtxoSpendInputs /\
    length checkpoints = length inputs /\ length (pk_Inputs ptx) = length inputs;
  pv_inputs : exists dest control, checkpointDestScript (vo_CheckpointTapscript op) (tr_SpendLeaf tree) = Ok (dest, control) /\
    forall k input pin, inputs !! k = Some input -> pk_Inputs ptx !! k = Some pin ->
      authorized_input ptx k input pin dest (tr_SpendLeaf tree) control (firstLeafPub (tr_SpendLeaf tree));
}.

Lemma packet_inputs_split ptx : length (ut_TxIn (pk_UnsignedTx ptx)) = length (pk_Inputs ptx) ->
  map fst (packet_inputs ptx) = ut_TxIn (pk_UnsignedTx ptx) /\ map snd (packet_inputs ptx) = pk_Inputs ptx.
Proof.
  unfold packet_inputs. generalize (pk_Inputs ptx), (ut_TxIn (pk_UnsignedTx ptx)). intros l1 l2.
  revert l1. induction l2 as [|x l2 IH]; intros [|y l1] Hl; simpl in *; try discriminate; [done|].
  destruct (IH l1 ltac:(lia)) as [E1 E2]. by rewrite E1, E2.
Qed.

Lemma spend_change_Ok op tree outs v : is_int64 (vo_ChangeSats op) ->
  spend_change op tree outs = Ok v ->
  v = vo_ChangeSats op /\
  (vo_ChangeSats op = 0 /\ vo_ChangeVout op = None \/
   DustSats <= vo_ChangeSats op /\ vo_ChangeVout op = Some 1 /\ vo_ChangeScript op = tr_PkScript tree /\
   outs !! 1%nat = Some {| to_Value := vo_ChangeSats op; to_PkScript := vo_ChangeScript op |}).
Proof.
  unfold spend_change. intros Hi. destruct (Z.eqb_spec (vo_ChangeSats op) 0) as [->|Hne]; intros E.
  - apply bind_Ok in E as ([] & E1 & E). apply Ok_inj in E as <-. apply fail_if_Ok in E1. bool_hyps. auto.
  - apply bind_Ok in E as ([] & E1 & E). destruct (outs !! 1%nat) as [[value script]|] eqn:Eo; [|done].
    apply bind_Ok in E as ([] & E2 & E). apply bind_Ok in E as ([] & E3 & E). apply Ok_inj in E as <-.
    apply fail_if_Ok in E1, E2, E3. simpl in *. bool_hyps. subst.
    unfold DustSats, is_int64, max_int64, wrap64 in *. rewrite Z.mod_small by lia. split; [done|].
    right. split; [lia|]. by rewrite H1.
Qed.

Lemma payment_outputs_Ok op tree outs dest anchor :
  length outs = (if 0 <? vo_ChangeSats op then 3%nat else 2%nat) ->
  outs !! 0%nat = Some dest -> last outs = Some anchor ->
  dest = {| to_Value := vo_AmountSats op; to_PkScript := vo_DestScript op |} -> anchor = anchor_output ->
  vo_ChangeSats op = 0 /\ vo_ChangeVout op = None \/
  DustSats <= vo_ChangeSats op /\ vo_ChangeVout op = Some 1 /\ vo_ChangeScript op = tr_PkScript tree /\
    outs !! 1%nat = Some {| to_Value := vo_ChangeSats op; to_PkScript := vo_ChangeScript op |} ->
  outs = payment_outputs op.
Proof.
  intros Hl Hd Ha -> -> [[Hc _]|(Hc & _ & _ & Ho)]; unfold payment_outputs.
  - rewrite Hc in *. destruct outs as [|? [|? []]]; simpl in *; try discriminate. by simplify_eq.
  - unfold DustSats in *. rewrite (proj2 (Z.eqb_neq _ _)) by lia. rewrite (proj2 (Z.ltb_lt _ _)) in Hl by lia.
    destruct outs as [|? [|? [|? []]]]; simpl in *; try discriminate. by simplify_eq.
Qed.

(** The types of the reservation's fields. *)
Definition reservation_typed (op : VtxoOperation) (inputs : list VtxoOperationInput) : Prop :=
  Forall is_int64 [vo_AmountSats op; vo_FeeSats op; vo_ChangeSats op] /\
  Forall (fun i => is_int64 (vi_ValueSats i) /\ blen (vi_Txid i) = 32) inputs.

Lemma packet_inputs_typed ptx : packet_typed ptx ->
  Forall (fun tp : TxIn * PInput => forall u, pi_WitnessUtxo (snd tp) = Some u -> is_int64 (to_Value u)) (packet_inputs ptx).
Proof.
  intros [_ Hp]. apply Forall_forall. intros [t p] Hin. apply elem_of_zip_r in Hin.
  rewrite Forall_forall in Hp. by apply Hp.
Qed.

Lemma verifySpend_Ok ptx op inputs tree checkpoints : packet_typed ptx -> reservation_typed op inputs ->
  verifySpendPSBT ptx op inputs tree checkpoints = Ok tt -> payment_verified ptx op inputs tree checkpoints.
Proof.
  intros Hp [Ho Hi]. pose proof (packet_inputs_typed _ Hp) as Hpin. rewrite !Forall_cons in Ho. destruct Ho as (Ha & Hf & Hc & _).
  assert (Forall (fun input => is_int64 (vi_ValueSats input)) inputs) as Hiv by (eapply Forall_impl; [exact Hi|]; by intros ? []).
  unfold verifySpendPSBT. intros E.
  apply bind_Ok in E as ([] & E1 & E). apply bind_Ok in E as ([] & E2 & E). apply bind_Ok in E as ([] & E3 & E).
  apply bind_Ok in E as ([dest control] & E4 & E). apply bind_Ok in E as (inSum & E5 & E). apply bind_Ok in E as ([] & E6 & E).
  destruct (ut_TxOut (pk_UnsignedTx ptx) !! 0%nat) as [[dv ds]|] eqn:Ed; [|done].
  destruct (last (ut_TxOut (pk_UnsignedTx ptx))) as [[av ascript]|] eqn:Ea; [|done].
  apply bind_Ok in E as ([] & E7 & E). apply bind_Ok in E as ([] & E8 & E). apply bind_Ok in E as (cv & E9 & E).
  apply bind_Ok in E as ([] & E10 & E). apply fail_if_Ok in E1, E2, E3, E6, E7, E8, E10, E. simpl in *.
  apply negb_false_iff, Nat.eqb_eq in E6. apply spend_change_Ok in E9 as [-> Hcase]; [|done].
  repeat match goal with X : _ || _ = false |- _ => apply orb_false_split in X as [? ?] end.
  repeat match goal with X : negb (Nat.eqb _ _) = false |- _ => apply negb_false_iff, Nat.eqb_eq in X
                       | X : Nat.eqb _ _ = false |- _ => apply Nat.eqb_neq in X end.
  bool_hyps. subst.
  assert (is_int64 dv) as Hdv.
  { destruct Hp as [[_ Hout] _]. eapply Forall_lookup_1 in Hout; [|exact Ed]. done. }
  match goal with W : wrap64 dv = _ |- _ => apply wrap64_inj in W; [|done..] end. subst dv.
  destruct (packet_inputs_split ptx) as [Hfst Hsnd]; [lia|].
  assert (length (packet_inputs ptx) = length inputs) as Hlen by (rewrite <- (length_map snd), Hsnd; lia).
  apply spend_inputs_Ok in E5 as (Hsum & Hins & Hk); [|lia|done|done|done].
  assert (forall z, 0 <= z <= max_uint64 -> wrap64 z = z) as Hw by (intros; apply Z.mod_small; unfold max_uint64 in *; lia).
  assert (0 <= vo_ChangeSats op) by (unfold DustSats in *; lia). unfold DustSats, is_int64, max_int64, max_uint64 in *.
  repeat match goal with X : context [wrap64 ?z] |- _ => rewrite (Hw z) in X by lia end.
  constructor.
  - rewrite Hins in Hfst.
    pose proof (payment_outputs_Ok op tree _ _ _ E6 Ed Ea eq_refl eq_refl Hcase) as Hout.
    destruct (pk_UnsignedTx ptx) as [version lock ins outs]. simpl in *. by subst.
  - lia.
  - unfold DustSats. lia.
  - destruct Hcase as [[? ?]|(? & ? & ? & _)]; [by left|by right].
  - split; [lia|]. split; [lia|]. split; [done|]. done.
  - exists dest, control. split; [done|]. intros k input pin Hik Hpk. rewrite <- Hsnd in Hpk.
    apply list_lookup_fmap_Some in Hpk as (tp & -> & Htp). by apply (Hk k).
Qed.

(** ** Bundles *)

(** The client's bundle passes every check that [AuthorizeVtxoSpend] makes on it. *)
Definition bundle_accepted (op : VtxoOperation) (inputs : list VtxoOperationInput) (tree : vtxoPolicyTree)
    (ptx : Packet) (checkpoints : list Packet) : Prop :=
  verifySpendPSBT ptx op inputs tree checkpoints = Ok tt /\
  Forall2 (fun cp input => verifyUnsignedCheckpointPSBT cp input op tree = Ok tt) checkpoints inputs.

Lemma bundle_checkpoints op inputs tree checkpoints : reservation_typed op inputs -> Forall packet_typed checkpoints ->
  Forall2 (fun cp input => verifyUnsignedCheckpointPSBT cp input op tree = Ok tt) checkpoints inputs -> inputs <> [] ->
  exists dest control, checkpointDestScript (vo_CheckpointTapscript op) (tr_SpendLeaf tree) = Ok (dest, control) /\
    map pk_UnsignedTx checkpoints = map (fun input => checkpoint_tx input dest) inputs.
Proof.
  intros [_ Hi] Hp HF Hne. destruct (checkpointDestScript (vo_CheckpointTapscript op) (tr_SpendLeaf tree)) as [[dest control]|e] eqn:Ed.
  - exists dest, control. split; [done|]. clear Hne. induction HF as [|cp input cps ins Hc HF IH]; [done|].
    apply Forall_cons in Hi as [[? ?] Hi]. apply Forall_cons in Hp as [? Hp]. simpl. rewrite IH by done. f_equal.
    apply checkpoint_Ok in Hc as (d & c & pin & E & -> & _); [|done..]. rewrite Ed in E.
    by apply Ok_inj, pair_equal_spec in E as [<- _].
  - destruct HF as [|cp input cps ins Hc HF]; [done|]. apply Forall_cons in Hi as [[? ?] Hi]. apply Forall_cons in Hp as [? Hp].
    apply checkpoint_Ok in Hc as (d & c & pin & E & _); [|done..]. by rewrite Ed in E.
Qed.

(** A reservation leaves the client no freedom: the Ark transaction of an
    accepted bundle is the one that pays the reserved amount to the reserved
    script, the reserved change back to the vault and nothing else, out of
    checkpoints that spend exactly the reserved coins, in order, and whose value
    is amount, change and fee; so two accepted bundles of one reservation have
    the same transactions. *)
Theorem vtxo_bundle_determined op inputs tree ptx checkpoints ptx' checkpoints' :
  reservation_typed op inputs -> Forall packet_typed (ptx :: ptx' :: checkpoints ++ checkpoints') ->
  bundle_accepted op inputs tree ptx checkpoints -> bundle_accepted op inputs tree ptx' checkpoints' ->
  payment_verified ptx op inputs tree checkpoints /\
  (exists dest, map pk_UnsignedTx checkpoints = map (fun input => checkpoint_tx input dest) inputs) /\
  pk_UnsignedTx ptx' = pk_UnsignedTx ptx /\ map pk_UnsignedTx checkpoints' = map pk_UnsignedTx checkpoints.
Proof.
  intros Ht Hp [Hs Hc] [Hs' Hc']. apply Forall_cons in Hp as [Hp1 Hp]. apply Forall_cons in Hp as [Hp2 Hp].
  apply Forall_app in Hp as [Hp3 Hp4]. apply verifySpend_Ok in Hs as Hv; [|done..]. apply verifySpend_Ok in Hs' as Hv'; [|done..].
  assert (inputs <> []) as Hne by (intros ->; destruct (pv_count _ _ _ _ _ Hv) as [Hl _]; simpl in Hl; lia).
  apply bundle_checkpoints in Hc as (d & c & Ed & Em); [|done..]. apply bundle_checkpoints in Hc' as (d' & c' & Ed' & Em'); [|done..].
  rewrite Ed in Ed'. apply Ok_inj, pair_equal_spec in Ed' as [<- _].
  assert (map pk_UnsignedTx checkpoints' = map pk_UnsignedTx checkpoints) as E by congruence.
  split; [done|]. split; [by exists d|]. split; [|done].
  rewrite (pv_tx _ _ _ _ _ Hv), (pv_tx _ _ _ _ _ Hv'). unfold payment_tx. f_equal.
  rewrite <- !(map_map pk_UnsignedTx (fun tx => {| ti_PreviousOutPoint := {| op_Hash := tx_TxHash tx; op_Index := 0 |};
    ti_Sequence := MaxTxInSequenceNum |})). by rewrite E.
Qed.
End VerifySpec.

Section Submitted.
Context `{PsbtLaws}.

Lemma strip_signatures_tx p : pk_UnsignedTx (strip_signatures p) = pk_UnsignedTx p.
Proof. done. Qed.

Lemma packet_typed_strip p : packet_typed p -> packet_typed (strip_signatures p).
Proof. intros [Ht Hp]. split; [done|]. simpl. apply Forall_fmap. eapply Forall_impl; [exact Hp|]. done. Qed.

(** The checkpoints that the service signs after submission are the
    reserved ones: a packet that [verifySubmittedCheckpointPSBT] accepts carries
    the transaction that moves the reserved coin to the checkpoint script, and
    its signatures are one valid signature of the user and one of the Operator,
    nothing else. *)
Theorem submitted_checkpoint_signed ptx input op tree :
  packet_typed ptx -> is_int64 (vi_ValueSats input) -> blen (vi_Txid input) = 32 ->
  verifySubmittedCheckpointPSBT ptx input op tree = Ok tt ->
  exists dest control, checkpointDestScript (vo_CheckpointTapscript op) (tr_SpendLeaf tree) = Ok (dest, control) /\
    pk_UnsignedTx ptx = checkpoint_tx input dest /\
    signed_by ptx 0 [firstLeafPub (tr_SpendLeaf tree); SerializePubKey (tr_ArkdPub tree)] (tr_SpendLeaf tree) SigHashDefault.
Proof.
  intros Hp Hv Hx. unfold verifySubmittedCheckpointPSBT, verifyCheckpointShape. intros E.
  apply bind_Ok in E as ([] & Es & E). apply bind_Ok in Es as ([] & _ & Es). apply bind_Ok in Es as (clone & Ec & Es).
  apply or_err_Ok, clonePacket_Ok in Ec as ->. apply checkpoint_Ok in Es as (dest & control & pin & Ed & Et & _); [|by apply packet_typed_strip|done..].
  destruct (pk_Inputs ptx) as [|pin' pins] eqn:Ei; [done|]. apply bind_Ok in E as ([] & _ & E).
  apply requireVerifiedSigners_Ok in E. by exists dest, control.
Qed.

(** What the vault added to the client's proof. *)
Lemma only_vault_signature beforeRaw afterRaw vault :
  requireOnlyVaultSignatureAdded beforeRaw afterRaw vault = Ok tt ->
  exists before after, parsePSBT beforeRaw = Ok before /\ parsePSBT afterRaw = Ok after /\
    before = set_inputs (map (without_signer vault) (pk_Inputs after)) after /\
    Forall (fun i => length (List.filter (by_signer vault) (pi_TaprootScriptSpendSig i)) = 1%nat) (pk_Inputs after).
Proof.
  unfold requireOnlyVaultSignatureAdded. intros E. apply bind_Ok in E as (before & Eb & E). apply bind_Ok in E as (after & Ea & E).
  apply bind_Ok in E as ([] & _ & E). apply bind_Ok in E as ([] & E1 & E). apply bind_Ok in E as (s & Es & E).
  apply fail_if_Ok in E. apply negb_false_iff, bool_decide_eq_true in E as ->. exists before, after. split; [done|]. split; [done|].
  split.
  - unfold b64Encode in Es. destruct (psbt_B64Encode _) as [s'|] eqn:En; [|done]. apply Ok_inj in Es as ->.
    apply psbt_roundtrip in En. apply parsePSBT_Ok in Eb as [Eb _]. congruence.
  - apply each_Ok in E1. eapply Forall_impl; [exact E1|]. intros i Hi. apply fail_if_Ok in Hi.
    by apply negb_false_iff, Nat.eqb_eq in Hi.
Qed.
End Submitted.

(** ** An example *)

Definition toy_tree : vtxoPolicyTree := {|
  tr_params := toy_params;
  tr_CosignerPub := toy_cosigner; tr_DelegatePub := []; tr_ArkdPub := toy_operator; tr_TapKey := toy_script;
  tr_PkScript := toy_script; tr_SpendLeaf := toy_leaf; tr_DelegateLeaf := str "delegate"; tr_SpendControl := toy_control;
  tr_DelegateControl := []; tr_RevealedScripts := []; tr_ArkAddress := str "ark1toy"; tr_OnchainAddress := [] |}.

Definition toy_operation : VtxoOperation := {|
  vo_OperationID := vo_OperationID demo_op; vo_VaultID := str "vault-1"; vo_Purpose := vtxoPurposeSpend;
  vo_BundleDigest := repeat Byte.x22 32; vo_State := vtxoStateReserved; vo_AmountSats := 20000; vo_FeeSats := 100;
  vo_FeePolicyDigest := repeat Byte.x33 32; vo_DestScript := str "dest"; vo_ChangeScript := toy_script;
  vo_ChangeSats := 330; vo_ChangeVout := Some 1; vo_UnsignedPSBT := []; vo_AuthorizedPSBT := [];
  vo_PendingProofDigest := []; vo_AuthorizedPendingProof := []; vo_CheckpointPSBTs := []; vo_CheckpointRequestPSBTs := [];
  vo_CheckpointTapscript := str "unroll"; vo_ArkTxid := []; vo_ExpiresAt := str "2026-01-01T00:10:00Z";
  vo_CreatedAt := str "2026-01-01T00:00:00Z"; vo_LastDestScript := []; vo_IntegrityMAC := [] |}.

Definition toy_coin : VtxoOperationInput := {|
  vi_OperationID := vo_OperationID toy_operation; vi_Txid := repeat Byte.x44 32; vi_Vout := 0;
  vi_ValueSats := 20430; vi_Script := toy_script; vi_IntegrityMAC := [] |}.

Definition toy_checkpoint_tx : UnsignedTx := {|
  ut_Version := 3; ut_LockTime := 0;
  ut_TxIn := [{| ti_PreviousOutPoint := {| op_Hash := hex_encode (repeat Byte.x44 32); op_Index := 0 |}; ti_Sequence := 4294967295 |}];
  ut_TxOut := [{| to_Value := 20430; to_PkScript := toy_script |}; {| to_Value := 0; to_PkScript := str "anchor" |}] |}.

Definition toy_checkpoint (signers : list PubKey) : Packet := {|
  pk_UnsignedTx := toy_checkpoint_tx; pk_Inputs := [toy_pinput 20430 0 signers]; pk_Outputs := [[]; []]; pk_Unknowns := [] |}.

Definition toy_payment (signers : list PubKey) : Packet := {|
  pk_UnsignedTx := {|
    ut_Version := 3; ut_LockTime := 0;
    ut_TxIn := [{| ti_PreviousOutPoint := {| op_Hash := hex_encode (be_bytes 32 2); op_Index := 0 |}; ti_Sequence := 4294967295 |}];
    ut_TxOut := [{| to_Value := 20000; to_PkScript := str "dest" |}; {| to_Value := 330; to_PkScript := toy_script |};
                 {| to_Value := 0; to_PkScript := str "anchor" |}] |};
  pk_Inputs := [toy_pinput 20430 0 signers]; pk_Outputs := [[]; []; []]; pk_Unknowns := [] |}.

Lemma toy_reservation_typed : reservation_typed toy_operation [toy_coin].
Proof. split; repeat constructor; vm_compute; congruence. Defined.

Lemma single_typed tx i outs : tx_typed tx -> (forall u, pi_WitnessUtxo i = Some u -> is_int64 (to_Value u)) ->
  packet_typed {| pk_UnsignedTx := tx; pk_Inputs := [i]; pk_Outputs := outs; pk_Unknowns := [] |}.
Proof. intros Ht Hi. split; [done|]. constructor; [done|constructor]. Qed.

Lemma toy_outpoint raw : blen raw = 32 -> outpoint_typed {| op_Hash := hex_encode raw; op_Index := 0 |}.
Proof. intros Hr. exists raw. split; [done|]. split; [done|]. vm_compute. split; congruence. Qed.

Lemma toy_checkpoint_typed signers : packet_typed (toy_checkpoint signers).
Proof.
  apply single_typed; [split; [constructor; [apply toy_outpoint; reflexivity|constructor]|]|].
  - repeat constructor; vm_compute; congruence.
  - intros u [= <-]. vm_compute. split; congruence.
Qed.

Lemma toy_payment_typed signers : packet_typed (toy_payment signers).
Proof.
  apply single_typed; [split; [constructor; [apply toy_outpoint; reflexivity|constructor]|]|].
  - repeat constructor; vm_compute; congruence.
  - intros u [= <-]. vm_compute. split; congruence.
Qed.

Lemma toy_typed : Forall packet_typed [toy_payment [toy_user]; toy_payment [toy_user]; toy_checkpoint []; toy_checkpoint []].
Proof. do 4 (constructor; [apply toy_payment_typed || apply toy_checkpoint_typed|]). constructor. Qed.

Lemma vtxo_bundle_determined_witness :
  let btc := toy_btc [] in
  payment_verified (toy_payment [toy_user]) toy_operation [toy_coin] toy_tree [toy_checkpoint []].
Proof.
  intros btc. assert (bundle_accepted toy_operation [toy_coin] toy_tree (toy_payment [toy_user]) [toy_checkpoint []]) as Ha
    by (split; [vm_compute; reflexivity|repeat constructor; vm_compute; reflexivity]).
  exact (proj1 (vtxo_bundle_determined toy_operation [toy_coin] toy_tree (toy_payment [toy_user]) [toy_checkpoint []]
    (toy_payment [toy_user]) [toy_checkpoint []] toy_reservation_typed toy_typed Ha Ha)).
Defined.

Definition toy_table : list (bytes * Packet) := [(str "cp", toy_checkpoint [toy_user; toy_operator])].

Lemma submitted_checkpoint_signed_witness :
  let btc := toy_btc toy_table in
  signed_by (toy_checkpoint [toy_user; toy_operator]) 0 [SerializePubKey toy_user; SerializePubKey toy_operator] toy_leaf 0.
Proof.
  intros btc. assert (@PsbtLaws btc) as laws by (apply toy_laws; repeat constructor; set_solver).
  assert (verifySubmittedCheckpointPSBT (toy_checkpoint [toy_user; toy_operator]) toy_coin toy_operation toy_tree = Ok tt) as Hv
    by (vm_compute; reflexivity).
  destruct (submitted_checkpoint_signed (toy_checkpoint [toy_user; toy_operator]) toy_coin toy_operation toy_tree (toy_checkpoint_typed _)
    (proj1 (Forall_inv (proj2 toy_reservation_typed))) (proj2 (Forall_inv (proj2 toy_reservation_typed))) Hv) as (dest & control & _ & _ & Hs).
  exact Hs.
Defined.
