(* ===== verification/Handler.v ===== *)
(** * Request handlers: trees of atomic calls

    A handler of the service holds no lock while it runs.  It calls the ledger
    several times, and other requests run in between.  A [Prog] is such a
    handler: a tree whose nodes are atomic calls on a shared state.  [runs env]
    is its meaning among others, where the relation [env] says what they may do
    to the state between two of its calls. *)
From S2P Require Import Prelude.

Section Programs.
Context {St : Type}.

Inductive Prog (A : Type) :=
  | Done (r : result A)
  | Call (X : Type) (m : St -> St * result X) (k : result X -> Prog A).
Arguments Done {A} r.
Arguments Call {A X} m k.

(** Go's [if err != nil { return err }] between two steps. *)
Fixpoint prog_bind {A B} (f : A -> Prog B) (p : Prog A) : Prog B :=
  match p with
  | Done (Ok a) => f a
  | Done (Err e) => Done (Err e)
  | Call m k => Call m (fun x => prog_bind f (k x))
  end.

(** The error as a value, for a handler that looks at it. *)
Fixpoint try_prog {A} (p : Prog A) : Prog (result A) :=
  match p with
  | Done r => Done (Ok r)
  | Call m k => Call m (fun x => try_prog (k x))
  end.

Definition call {A} (m : St -> St * result A) : Prog A := Call m Done.
Definition pure {A} (r : result A) : Prog A := Done r.
Definition require (c : bool) (e : error) : Prog unit := Done (fail_if c e).

(** ** Running among others *)
Section Runs.
Variable env : relation St.

Fixpoint runs {A} (p : Prog A) (s s' : St) (r : result A) : Prop :=
  match p with
  | Done r' => s' = s /\ r = r'
  | Call m k => exists s1, env s s1 /\ runs (k (snd (m s1))) (fst (m s1)) s' r
  end.

Lemma runs_pure {A} (r' : result A) s s' r : runs (pure r') s s' r <-> s' = s /\ r = r'.
Proof. done. Qed.

Lemma runs_call {A} (m : St -> St * result A) s s' r : runs (call m) s s' r <-> exists s1, env s s1 /\ m s1 = (s', r).
Proof.
  simpl. split; intros (s1 & He & H); exists s1; split; [done| |done|].
  - destruct (m s1). simpl in H. destruct H as [-> ->]. done.
  - rewrite H. done.
Qed.

Lemma runs_bind {A B} (p : Prog A) (f : A -> Prog B) s s' r :
  runs (prog_bind f p) s s' r <->
  (exists a s1, runs p s s1 (Ok a) /\ runs (f a) s1 s' r) \/ (exists e, runs p s s' (Err e) /\ r = Err e).
Proof.
  revert s. induction p as [[a|e]|X m k IH]; intros s; simpl.
  - split; [intros Hf; left; by exists a, s|]. intros [(a' & s1 & (-> & E) & Hf)|(e & (_ & E) & _)]; by simplify_eq.
  - split; [intros [-> ->]; right; by exists e|]. intros [(a & s1 & (_ & E) & _)|(e' & (-> & E) & ->)]; by simplify_eq.
  - split.
    + intros (s1 & He & H). apply IH in H as [(a & s2 & H1 & H2)|(e & H1 & ->)]; [left; exists a, s2|right; exists e]; eauto.
    + intros [(a & s2 & (s1 & He & H1) & H2)|(e & (s1 & He & H1) & ->)]; exists s1; split; [done| |done|]; apply IH; eauto.
Qed.

Lemma runs_bind_Ok {A B} (p : Prog A) (f : A -> Prog B) s s' b :
  runs (prog_bind f p) s s' (Ok b) <-> exists a s1, runs p s s1 (Ok a) /\ runs (f a) s1 s' (Ok b).
Proof. rewrite runs_bind. split; [intros [?|(e & _ & ?)]; done|by left]. Qed.

Lemma runs_try {A} (p : Prog A) s s' r : runs (try_prog p) s s' r <-> exists r', r = Ok r' /\ runs p s s' r'.
Proof.
  revert s. induction p as [r'|X m k IH]; intros s; simpl.
  - split; [intros [-> ->]; by exists r'|by intros (? & -> & -> & ->)].
  - split.
    + intros (s1 & He & H). apply IH in H as (r' & -> & H). eauto.
    + intros (r' & -> & s1 & He & H). exists s1. split; [done|]. apply IH. eauto.
Qed.

Lemma runs_require c e s s' u : runs (require c e) s s' (Ok u) <-> s' = s /\ c = false.
Proof. unfold require. simpl. destruct c, u; simpl; split; intros [? ?]; done. Qed.

(** Every handler returns, whatever the others do: its tree is finite. *)
Lemma runs_total `{!Reflexive env} {A} (p : Prog A) s : exists s' r, runs p s s' r.
Proof.
  revert s. induction p as [r|X m k IH]; intros s; simpl; [by exists s, r|].
  destruct (IH (snd (m s)) (fst (m s))) as (s' & r & H). by exists s', r, s.
Qed.

(** What every call guarantees, the whole run guarantees. *)
Fixpoint steps_in (R : relation St) {A} (p : Prog A) : Prop :=
  match p with
  | Done _ => True
  | Call m k => (forall s, R s (fst (m s))) /\ forall x, steps_in R (k x)
  end.

Lemma runs_moves (R : relation St) `{!PreOrder R} {A} (p : Prog A) s s' r :
  subrelation env R -> steps_in R p -> runs p s s' r -> R s s'.
Proof.
  intros Hsub. revert s. induction p as [r'|X m k IH]; intros s; simpl; [by intros _ [-> _]|].
  intros [Hm Hk] (s1 & He & H). transitivity s1; [by apply Hsub|]. transitivity (fst (m s1)); [apply Hm|by eapply IH].
Qed.
End Runs.

(** ** Rely and guarantee

    [guarantees E R p Q s]: started in [s], among others whose moves are in [E],
    every call of [p] is a move of [R], and [p] ends in a state with [Q]. *)
Section Guarantees.
Variables E R : relation St.

Fixpoint guarantees {A} (p : Prog A) (Q : result A -> St -> Prop) (s : St) : Prop :=
  match p with
  | Done r => Q r s
  | Call m k => forall s1, E s s1 -> R s1 (fst (m s1)) /\ guarantees (k (snd (m s1))) Q (fst (m s1))
  end.

Lemma guarantees_mono {A} (p : Prog A) (Q Q' : result A -> St -> Prop) s :
  (forall r s, Q r s -> Q' r s) -> guarantees p Q s -> guarantees p Q' s.
Proof.
  intros HQ. revert s. induction p as [r|X m k IH]; intros s; simpl; [apply HQ|].
  intros H s1 H1. destruct (H s1 H1). eauto.
Qed.

Lemma guarantees_bind {A B} (p : Prog A) (f : A -> Prog B) Q s :
  guarantees p (fun r s => match r with Ok a => guarantees (f a) Q s | Err e => Q (Err e) s end) s ->
  guarantees (prog_bind f p) Q s.
Proof.
  revert s. induction p as [[a|e]|X m k IH]; intros s; simpl; [done..|].
  intros H s1 H1. destruct (H s1 H1). eauto.
Qed.

Lemma guarantees_try {A} (p : Prog A) Q s : guarantees p (fun r => Q (Ok r)) s -> guarantees (try_prog p) Q s.
Proof.
  revert s. induction p as [r|X m k IH]; intros s; simpl; [done|]. intros H s1 H1. destruct (H s1 H1). eauto.
Qed.

Lemma guarantees_call {A} (m : St -> St * result A) Q s :
  (forall s1, E s s1 -> R s1 (fst (m s1)) /\ Q (snd (m s1)) (fst (m s1))) -> guarantees (call m) Q s.
Proof. done. Qed.

Lemma guarantees_runs {A} (p : Prog A) Q env s s' r : subrelation env E -> guarantees p Q s -> runs env p s s' r -> Q r s'.
Proof.
  intros Hsub. revert s. induction p as [r'|X m k IH]; intros s; simpl; [by intros ? [-> ->]|].
  intros H (s1 & H1 & Hr). destruct (H s1 (Hsub _ _ H1)). eauto.
Qed.

(** If the others move in [R] too, the whole run is a move of [R]. *)
Lemma guarantees_moved `{!PreOrder R} {A} (p : Prog A) Q s :
  subrelation E R -> guarantees p Q s -> guarantees p (fun r s' => R s s' /\ Q r s') s.
Proof.
  intros Hsub. enough (Hg : forall s0, R s0 s -> guarantees p Q s -> guarantees p (fun r s' => R s0 s' /\ Q r s') s) by (by apply Hg).
  revert s. induction p as [r|X m k IH]; intros s s0 H0; simpl; [done|]. intros H s1 H1. destruct (H s1 H1) as [HR Hk].
  split; [done|]. apply IH; [|done]. transitivity s; [done|]. transitivity s1; [by apply Hsub|done].
Qed.

(** Moves of the others before the program starts change nothing. *)
Lemma guarantees_stable `{!Transitive E} {A} (p : Prog A) Q s s1 :
  (forall r s s1, E s s1 -> Q r s -> Q r s1) -> E s s1 -> guarantees p Q s -> guarantees p Q s1.
Proof. intros HQ H1. destruct p as [r|X m k]; simpl; [by apply HQ|]. intros H s2 H2. apply H. by etransitivity. Qed.
End Guarantees.

(** Among others that do less. *)
Lemma guarantees_among (E E' R : relation St) {A} (p : Prog A) Q s :
  subrelation E' E -> guarantees E R p Q s -> guarantees E' R p Q s.
Proof.
  intros Hsub. revert s. induction p as [r|X m k IH]; intros s; simpl; [done|].
  intros H s1 H1. destruct (H s1 (Hsub _ _ H1)). eauto.
Qed.

(** ** Several requests at once *)
Inductive Thread :=
  | ThreadOf {A} (p : Prog A).

Definition thread_guarantees (R : relation St) (t : Thread) (s : St) : Prop :=
  match t with ThreadOf p => guarantees R R p (fun _ _ => True) s end.

Section Pool.
Variable R : relation St.
Variable others : relation St.

(** One thread makes its next call, a request arrives, or something else in
    the system moves. *)
Inductive pool_step (admits : Thread -> Prop) : St * list Thread -> St * list Thread -> Prop :=
  | PoolCall s before X (m : St -> St * result X) A (k : result X -> Prog A) after :
      pool_step admits (s, before ++ ThreadOf (Call m k) :: after)
        (fst (m s), before ++ ThreadOf (k (snd (m s))) :: after)
  | PoolArrives s ts t : admits t -> pool_step admits (s, ts) (s, ts ++ [t])
  | PoolOther s s' ts : others s s' -> pool_step admits (s, ts) (s', ts).

(** If every request guarantees [R] wherever it starts, so does any number of
    them at once. *)
Lemma pool_guarantees `{!PreOrder R} admits (I : St -> Prop) c c' :
  subrelation others R -> (forall t s, admits t -> I s -> thread_guarantees R t s) -> (forall s s', I s -> R s s' -> I s') ->
  rtc (pool_step admits) c c' -> I (fst c) -> Forall (fun t => thread_guarantees R t (fst c)) (snd c) -> R (fst c) (fst c').
Proof.
  intros Hsub Hadm HI H. induction H as [c|c c1 c2 Hs _ IH]; intros Hi Ht; [done|].
  assert (Hstable : forall s s1 t, R s s1 -> thread_guarantees R t s -> thread_guarantees R t s1).
  { intros s s1 [A p] H1 H2. by apply (guarantees_stable R R p (fun _ _ => True) s s1). }
  assert (R (fst c) (fst c1) /\ Forall (fun t => thread_guarantees R t (fst c1)) (snd c1)) as [H1 Ht1].
  { destruct Hs as [s before X m A k after|s ts t Ha|s s' ts Ho]; cbn [fst snd] in *.
    - apply Forall_app in Ht as [Hb Ht]. apply Forall_cons in Ht as [Hk Ha]. destruct (Hk s ltac:(done)) as [HR Hk'].
      split; [done|]. apply Forall_app. split; [by eapply Forall_impl; [|intros t; apply Hstable]|].
      constructor; [done|by eapply Forall_impl; [|intros t; apply Hstable]].
    - split; [done|]. apply Forall_app. split; [done|]. constructor; [by apply Hadm|constructor].
    - split; [by apply Hsub|]. eapply Forall_impl; [done|]. intros t. apply Hstable. by apply Hsub. }
  transitivity (fst c1); [done|]. apply IH; [by eapply HI|done].
Qed.

(** A schedule, executed: the threads that move, by position. *)
Fixpoint schedule (order : list nat) (s : St) (ts : list Thread) : St * list Thread :=
  match order with
  | [] => (s, ts)
  | i :: order =>
      match ts !! i with
      | Some (ThreadOf (Call m k)) => schedule order (fst (m s)) (take i ts ++ ThreadOf (k (snd (m s))) :: drop (S i) ts)
      | _ => schedule order s ts
      end
  end.

Lemma schedule_rtc admits order s ts : rtc (pool_step admits) (s, ts) (schedule order s ts).
Proof.
  revert s ts. induction order as [|i order IH]; intros s ts; simpl; [done|].
  destruct (ts !! i) as [[A [r|X m k]]|] eqn:E; [apply IH| |apply IH].
  eapply rtc_l; [|apply IH]. rewrite <-(take_drop_middle _ _ _ E) at 1. apply PoolCall.
Qed.
End Pool.

(** ** Running alone, or with given interruptions *)
Fixpoint run {A} (others : nat -> St -> St) (n : nat) (p : Prog A) (s : St) : St * result A :=
  match p with
  | Done r => (s, r)
  | Call m k => let '(s1, x) := m (others n s) in run others (S n) (k x) s1
  end.

Lemma run_runs (env : relation St) {A} others n (p : Prog A) s :
  (forall n s, env s (others n s)) -> runs env p s (fst (run others n p s)) (snd (run others n p s)).
Proof.
  intros He. revert n s. induction p as [r|X m k IH]; intros n s; simpl; [done|].
  exists (others n s). split; [apply He|]. destruct (m (others n s)) as [s1 x]. apply IH.
Qed.

(** The states that it meets when it runs alone. *)
Fixpoint visited {A} (p : Prog A) (s : St) : list St :=
  match p with
  | Done _ => []
  | Call m k => s :: visited (k (snd (m s))) (fst (m s))
  end.

Lemma runs_visited (I : St -> Prop) {A} (p : Prog A) s :
  Forall I (visited p s) -> exists s' r, runs (fun s s1 => s1 = s /\ I s1) p s s' r.
Proof.
  revert s. induction p as [r|X m k IH]; intros s; simpl; [by exists s, r|]. rewrite Forall_cons. intros [Hi Hv].
  destruct (IH _ _ Hv) as (s' & r & H). by exists s', r, s.
Qed.

#[global] Instance Prog_ret : MRet Prog := fun A a => Done (Ok a).
#[global] Instance Prog_bind : MBind Prog := fun A B f p => prog_bind f p.
End Programs.

Arguments Prog St A : clear implicits.

(** [runs_step H x s1 Hx] opens the first step of a successful run. *)
Ltac runs_step H x s1 Hx := apply runs_bind_Ok in H as (x & s1 & Hx & H).
(** [runs_check H]: the first step is a pure test, whose result is kept. *)
Ltac runs_check H Hx :=
  let u := fresh "u" in let sx := fresh "sx" in
  apply runs_bind_Ok in H as (u & sx & Hx & H); apply runs_pure in Hx as [-> Hx]; symmetry in Hx.
