(* ===== verification/Service.v ===== *)
(** * The service ([src/internal/application/service.go], [contract_pack.go])

    What the request handlers share: the configuration and the resolver
    ([src/internal/ports/ports.go]), the published index of enrolled vaults, the
    lookup of a vault record, and the mapping of ledger errors.  The state that
    requests share is the ledger and the published index. *)
From Stdlib Require Import Strings.Byte.
From S2P Require Import Prelude Sha256 Text Base64 GoTime Json WebAuthn Psbt Program Cosigner.
From S2P Require Import Vtxo Tenant Savings Store TenantLedger Session VtxoSelect Handler.

(** ** The indexer *)
Definition SubmittedVtxoPending : Z := 0.
Definition SubmittedVtxoFinalized : Z := 1.
Definition SubmittedVtxoConflict : Z := 2.

(** [ports.ArkResolver]: its answers to one request. *)
Record ArkResolver := {
  ar_SpendableVtxos : bytes -> result (list ResolvedVtxo);
  ar_IntentFeePolicy : result IntentFeePolicy;
  ar_SubmittedVtxoState : bytes -> list ResolvedVtxo -> bytes -> option Z -> Z -> result Z;
  ar_CheckpointTapscript : bytes;
  ar_OperatorSignerPub : bytes;
}.

(** The fields of [deployment.Config] that are used here. *)
Record Config := { cf_Network : bytes; cf_ClientOrigin : bytes; cf_RPID : bytes }.

(** The fields of the Go struct that the handlers below read. *)
Record Service := {
  sv_Deployment : Config;
  sv_CredentialIntegrityKey : bytes;
  sv_keys : fileBackedVaultKeys;
  sv_ArkResolver : option ArkResolver;
  sv_contractPackJSON : bytes;
  sv_LightDelegationEnabled : bool;
  sv_SpendingDelegation : bool;         (* Stores.SpendingDelegation is set *)
  sv_spendingDelegationKeys : bool;     (* keys.spendingDelegation is set *)
}.

(** ** Published enrollments *)
Record vaultBoardSnapshot := {
  bs_BoardingPub : option PubKey;
  bs_CosignerPub : option PubKey;
  bs_OperatorPub : option PubKey;
  bs_PkScript : bytes;
  bs_Address : bytes;
}.

Record savingsSnapshot := {
  ss_Address : bytes;
  ss_PkScript : bytes;
  ss_ExternalOwnerWallet : option PubKey;
  ss_RecoveryKey : option PubKey;
  ss_VaultCosignerBase : option PubKey;
  ss_ArkadeCosignerBase : option PubKey;
}.

Record enrolledSnapshot := {
  es_ProtectionTier : bytes;
  es_VaultID : bytes;
  es_CredentialID : bytes;
  es_PhoneBIP340 : option PubKey;
  es_ExternalOwnerWallet : option PubKey;
  es_RecoveryKey : option PubKey;
  es_VaultCosignerBase : option PubKey;
  es_ArkadeCosignerBase : option PubKey;
  es_Savings : option savingsSnapshot;
  es_Board : option vaultBoardSnapshot;
}.

Definition zero_snapshot : enrolledSnapshot := {|
  es_ProtectionTier := []; es_VaultID := []; es_CredentialID := []; es_PhoneBIP340 := None;
  es_ExternalOwnerWallet := None; es_RecoveryKey := None; es_VaultCosignerBase := None;
  es_ArkadeCosignerBase := None; es_Savings := None; es_Board := None |}.

Record publishedIndex := { byVault : gmap bytes enrolledSnapshot; byCred : gmap bytes bytes }.

(** The shared state: the database behind every store, and the index, which is
    read and replaced atomically ([None] before the first enrollment). *)
Record State := { st_ledger : Ledger; st_published : option publishedIndex }.

Definition set_ledger (l : Ledger) (s : State) : State := {| st_ledger := l; st_published := st_published s |}.

(** A ledger method, and a read of the ledger or of the index, as one call. *)
Definition on_ledger {A} (m : M A) : Prog State A :=
  call (fun s => let '(l, r) := m (st_ledger s) in (set_ledger l s, r)).
Definition ask {A} (f : Ledger -> result A) : Prog State A := call (fun s => (s, f (st_ledger s))).
Definition on_index {A} (f : option publishedIndex -> A) : Prog State A := call (fun s => (s, Ok (f (st_published s)))).

Definition publishSnapshot (snap : enrolledSnapshot) (prev : option publishedIndex) : publishedIndex :=
  let prev := default {| byVault := ∅; byCred := ∅ |} prev in
  {| byVault := <[es_VaultID snap := snap]> (byVault prev);
     byCred := if 0 <? blen (es_CredentialID snap)
               then <[hex_encode (es_CredentialID snap) := es_VaultID snap]> (byCred prev) else byCred prev |}.

Definition publishEnrollmentAt (vaultID credID : bytes) (phone : option PubKey) (sv : option savingsSnapshot) (tier : bytes)
    (board : option vaultBoardSnapshot) (prev : option publishedIndex) : publishedIndex :=
  publishSnapshot {|
    es_ProtectionTier := tier; es_VaultID := vaultID; es_CredentialID := credID; es_PhoneBIP340 := phone;
    es_ExternalOwnerWallet := sv ≫= ss_ExternalOwnerWallet; es_RecoveryKey := sv ≫= ss_RecoveryKey;
    es_VaultCosignerBase := sv ≫= ss_VaultCosignerBase; es_ArkadeCosignerBase := sv ≫= ss_ArkadeCosignerBase;
    es_Savings := sv; es_Board := board |} prev.

Definition snapshot (vaultID : bytes) (idx : option publishedIndex) : enrolledSnapshot :=
  match idx with
  | None => zero_snapshot
  | Some idx => default zero_snapshot (byVault idx !! vaultID)
  end.

Definition rejectCrossVaultCredential (vaultID credID : bytes) (idx : option publishedIndex) : result unit :=
  match idx with
  | None => Ok tt
  | Some idx =>
      if blen credID =? 0 then Ok tt
      else match byCred idx !! hex_encode credID with
           | Some mapped => fail_if (mapped != vaultID) (ErrMsg "credential does not belong to this vault")
           | None => Ok tt
           end
  end.

(** ** Vault records *)
Definition periodAllowanceSats (rec : option VaultRecord) (cred : option Credential) : Z :=
  match rec with
  | Some r => if 0 <? vr_PeriodAllowanceSats r then vr_PeriodAllowanceSats r
              else match cred with
                   | Some c => if 0 <? cr_PeriodAllowanceSats c then cr_PeriodAllowanceSats c else PeriodAllowanceSats
                   | None => PeriodAllowanceSats
                   end
  | None => match cred with
            | Some c => if 0 <? cr_PeriodAllowanceSats c then cr_PeriodAllowanceSats c else PeriodAllowanceSats
            | None => PeriodAllowanceSats
            end
  end.

Definition spendingPolicyFromRecord (rec : option VaultRecord) : SpendingPolicy :=
  match rec with
  | None => zero_SpendingPolicy
  | Some r => SpendingPolicyFromValues (vr_TxRecipientCapSats r) (vr_PeriodAllowanceSats r) (vr_AbsoluteFeeCapSats r)
                (vr_FeerateCapSatPerV r)
  end.

Definition spendingPolicyFromCredential (cred : option Credential) : SpendingPolicy :=
  match cred with
  | None => zero_SpendingPolicy
  | Some c => SpendingPolicyFromValues (cr_TxRecipientCapSats c) (cr_PeriodAllowanceSats c) (cr_AbsoluteFeeCapSats c)
                (cr_FeerateCapSatPerV c)
  end.

Definition validateRecordSpendingPolicy (network : bytes) (rec : option VaultRecord) : result unit :=
  ValidateSpendingPolicyFor network (spendingPolicyFromRecord rec).

Definition resolveSpendVaultRecord (sv : Service) (vaultID : bytes) : Prog State (bytes * enrolledSnapshot * VaultRecord) :=
  id ← pure (routeVaultID vaultID);
  snap ← on_index (snapshot id);
  _ ← require (bool_decide (es_Savings snap = None) && (es_ProtectionTier snap != ProtectionTierLight)) (ErrMsg "not enrolled");
  key ← pure (credentialIntegrityKey (sv_CredentialIntegrityKey sv));
  found ← ask (LoadVerifiedVault id key);
  match found with
  | None => pure (Err (ErrMsg "not enrolled"))
  | Some (rec, _) =>
      _ ← pure (wrap_err "stored economic policy: %w" (validateRecordSpendingPolicy (cf_Network (sv_Deployment sv)) (Some rec)));
      _ ← pure (wrap_err "stored protection tier: %w"
                  (ValidateProtectionTierRecovery (vr_ProtectionTier rec) (0 <? blen (vr_RecoveryKey rec))));
      pure (Ok (id, snap, rec))
  end.

Definition requireArkResolver (sv : Service) : result ArkResolver :=
  match sv_ArkResolver sv with Some r => Ok r | None => Err (ErrMsg "ark indexer unavailable") end.

(** [nil] without a resolver. *)
Definition operatorSignerPub (sv : Service) : bytes :=
  match sv_ArkResolver sv with Some r => ar_OperatorSignerPub r | None => [] end.

(** [errors.Is] on the sentinels of the ledger. *)
Fixpoint errors_Is (e target : error) : bool :=
  (e == target) || match e with ErrWrap _ e => errors_Is e target | _ => false end.

Definition ErrBusy : error := ErrMsg "busy".
Definition ErrNotFound : error := ErrMsg "not found".

Definition mapLedgerBusy (e : error) : error :=
  if errors_Is e ErrRecoveryBusy then ErrBusy
  else if errors_Is e ErrPeriodAllowanceExceeded then ErrMsg "period allowance exceeded"
  else if errors_Is e ErrVtxoOperationActive then ErrMsg "vtxo operation already active"
  else e.

(** ** The contract pack *)

Definition VaultPolicyV1DelegateCapability : bytes := str "multi-presigned-signature".

(** [map[string]json.RawMessage]: a later member of the same name wins, and
    [null] empties the map. *)
Definition set_raw_map (v : json) (old : list (bytes * json)) : option (list (bytes * json)) :=
  match v with
  | JObj l => Some (old ++ l)
  | JNull => Some []
  | _ => None
  end.

Definition raw_lookup (m : list (bytes * json)) (k : bytes) : option json :=
  snd <$> List.find (fun kv => fst kv == k) (rev m).

Definition two_strings (a b : bytes) : list (field (bytes * bytes)) :=
  [(a, set_string (fun s x => (s, snd x))); (b, set_string (fun s x => (fst x, s)))].

Definition validateVaultPolicyV1PackFor (network raw : bytes) : result unit :=
  pins ← PinsFor network;
  match json_unmarshal [(str "programs", set_raw_map)] [] raw with
  | None => Err (ErrMsg "contract pack")
  | Some programs =>
      match raw_lookup programs VaultPolicyV1 with
      | None => Err (ErrMsg "vault-policy-v1 missing from pack")
      | Some listed =>
          match set_raw_map listed [] with
          | None => Err (ErrMsg "vault-policy-v1 pack")
          | Some obj =>
              _ ← fail_if (negb (bool_decide (raw_lookup obj (str "tunnel") = None))) (ErrMsg "vault-policy-v1 must not declare tunnel");
              exit ← match raw_lookup obj (str "exit") with
                     | None => Err (ErrMsg "vault-policy-v1 has no exit")
                     | Some v => match set_struct (two_strings (str "delay") (str "delayUnit")) v ([], []) with
                                 | None => Err (ErrMsg "vault-policy-v1 exit") | Some x => Ok x end
                     end;
              _ ← fail_if ((fst exit != format_uint (np_PolicyExitDelay pins)) || (snd exit != VaultPolicyV1ExitDelayUnit))
                    (ErrMsg "vault-policy-v1 exit delay must be %d seconds");
              delegate ← match raw_lookup obj (str "delegate") with
                     | None => Err (ErrMsg "vault-policy-v1 has no delegate")
                     | Some v => match set_struct (two_strings (str "pinnedPublicDelegate") (str "capability")) v ([], []) with
                                 | None => Err (ErrMsg "vault-policy-v1 delegate") | Some x => Ok x end
                     end;
              _ ← fail_if (fst delegate != np_DelegatePub pins) (ErrMsg "vault-policy-v1 pinned delegate");
              fail_if (snd delegate != VaultPolicyV1DelegateCapability) (ErrMsg "vault-policy-v1 delegate capability")
          end
      end
  end.

(** [src/internal/contractpack]: the packs are embedded files, known by their
    digests. *)
Class ContractPacks := { pack_JSON : bytes; pack_mainnetJSON : bytes }.

Definition pack_SHA256 : bytes := str "2e0fe83070119b52946bef904fdde59787bb8de489b336e77f8a955abf9560e3".
Definition MainnetSHA256 : bytes := str "e629e269c1acf735d794f95e1c8ee10691bdddaffe8906606085368db7438618".

Definition JSONFor `{ContractPacks} (network : bytes) : result bytes :=
  if network == str "mutinynet" then Ok pack_JSON
  else if network == str "mainnet" then Ok pack_mainnetJSON
  else Err (ErrMsg "unsupported network %q").

Definition DigestFor (network : bytes) : result bytes :=
  if network == str "mutinynet" then Ok pack_SHA256
  else if network == str "mainnet" then Ok MainnetSHA256
  else Err (ErrMsg "unsupported network %q").

Definition ValidateBytesFor (network raw : bytes) : result unit :=
  _ ← fail_if (blen raw =? 0) (ErrMsg "contract pack is missing");
  want ← DigestFor network;
  fail_if (hex_encode (sha256 raw) != want) (ErrMsg "contract pack digest does not match the release pin").

Definition validateReleaseContractPackFor (network raw : bytes) : result unit :=
  _ ← ValidateBytesFor network raw;
  validateVaultPolicyV1PackFor network raw.

Definition liveContractPackJSONFor `{ContractPacks} (network : bytes) : result bytes :=
  raw ← JSONFor network;
  _ ← validateReleaseContractPackFor network raw;
  Ok raw.

(** The override [vaultPolicyHasExit] is nil outside of tests. *)
Definition requireVaultPolicyV1Exit `{ContractPacks} (sv : Service) : result unit :=
  let network := if cf_Network (sv_Deployment sv) == [] then NetworkMutinynet else cf_Network (sv_Deployment sv) in
  raw ← (if 0 <? blen (sv_contractPackJSON sv) then Ok (sv_contractPackJSON sv) else liveContractPackJSONFor network);
  validateVaultPolicyV1PackFor network raw.
