(* ===== verification/VtxoTree.v ===== *)
(** * The trees of a vault at runtime ([src/internal/application/vtxo_tree.go])

    [buildVtxoPolicyTree] derives the vault cosigner's key and builds the tree
    that the payment handlers compare packets with; [buildVtxoBoardTree] builds
    the boarding tree; [refuseDefaultVtxoChange] recognises the wallet's default
    script.  Address encodings are the libraries' ([Addresses]).
    [policy_tree_key] ties the tree to the key that signs. *)
From Stdlib Require Import Strings.Byte.
From S2P Require Import Prelude Sha256 Text Psbt Program Cosigner Tenant VtxoScript VtxoVerify Handler Service.

(** [arklib.Address]: what the handlers read of a decoded address. *)
Record ArkAddress := { aa_HRP : bytes; aa_Signer : option PubKey; aa_PkScript : option bytes }.

Inductive ChainParams := MutinyNetSigNetParams | MainNetParams.

Class Addresses := {
  ark_HRP_Bitcoin : bytes;            (* arklib.Bitcoin.Addr *)
  ark_HRP_MutinyNet : bytes;          (* arklib.BitcoinMutinyNet.Addr *)
  ark_EncodeV0 : bytes -> PubKey -> PubKey -> option bytes;  (* HRP, signer, taproot key *)
  ark_DecodeAddressV0 : bytes -> option ArkAddress;
  taproot_EncodeAddress : bytes -> ChainParams -> option bytes;
  (** The script of [NewDefaultVtxoScript(user, arkd, exit)]. *)
  default_vtxo_TapTree : PubKey -> PubKey -> RelativeLocktime -> option TaprootTree;
}.

Record vtxoBoardTree := {
  bt_BoardingPub : PubKey;
  bt_CosignerPub : PubKey;
  bt_OperatorPub : PubKey;
  bt_PkScript : bytes;
  bt_Collaborative : bytes;
  bt_ControlBlock : bytes;
  bt_RevealedScripts : list bytes;
  bt_OnchainAddress : bytes;
}.

Definition vtxoNetworkParams (name : bytes) : result ChainParams :=
  if name == NetworkMutinynet then Ok MutinyNetSigNetParams
  else if name == NetworkMainnet then Ok MainNetParams
  else Err (ErrMsg "unsupported network %q").

(** [nil] when the text is not 33 bytes of hexadecimal. *)
Definition mustDecodeCompressed (hex33 : bytes) : bytes :=
  match hex_decode hex33 with Some raw => if blen raw =? 33 then raw else [] | None => [] end.

Section Trees.
Context `{Btc} `{Secp} `{ArkScript} `{Addresses}.

Definition vtxoAddrHRP (sv : Service) : bytes :=
  if cf_Network (sv_Deployment sv) == NetworkMainnet then ark_HRP_Bitcoin else ark_HRP_MutinyNet.

(** [s.vtxoKeyContext] *)
Definition service_key_context (sv : Service) (vaultID : bytes) : result vtxoKeyContext :=
  newVtxoKeyContext vaultID (cf_Network (sv_Deployment sv)) (operatorSignerPub sv).

(** A key parsed by btcec. *)
Definition parsed (raw : bytes) (e : error) : result PubKey :=
  match btcec_ParsePubKey raw with Some pub => Ok pub | None => Err e end.

Definition optional_xonly (pub : option PubKey) : bytes :=
  match pub with Some pub => SerializePubKey pub | None => [] end.

(** The parameters that [buildVtxoPolicyTree] puts together. *)
Definition policy_params (sv : Service) (snap : enrolledSnapshot) (phone cosigner arkd delegate : PubKey) : VaultPolicyV1Params :=
  let light := es_ProtectionTier snap == ProtectionTierLight in
  {| vp_UserPub := SerializePubKey phone; vp_VtxoVaultCosignerPub := SerializePubKey cosigner;
     vp_ArkdServerPub := SerializePubKey arkd; vp_DelegatePub := SerializePubKey delegate;
     vp_ExitMode := if light then str "device" else [];
     vp_ExitDevicePub := SerializePubKey phone;
     vp_ExitHardwarePub := if light then [] else optional_xonly (es_ExternalOwnerWallet snap);
     vp_ExitRecoveryPub := optional_xonly (es_RecoveryKey snap);
     vp_Network := cf_Network (sv_Deployment sv) |}.

Definition buildVtxoPolicyTree (sv : Service) (vaultID : bytes) (snap : enrolledSnapshot) : result vtxoPolicyTree :=
  match es_PhoneBIP340 snap with
  | None => Err (ErrMsg "enrolled keys required")
  | Some phone =>
      _ ← fail_if (bool_decide (es_ExternalOwnerWallet snap = None) && (es_ProtectionTier snap != ProtectionTierLight))
            (ErrMsg "enrolled keys required");
      keyContext ← service_key_context sv vaultID;
      cosigner ← vtxoVaultCosignerPublic (sv_keys sv) keyContext;
      arkd ← parsed (operatorSignerPub sv) (ErrMsg "Operator signer pubkey");
      pins ← PinsFor (cf_Network (sv_Deployment sv));
      delegate ← parsed (mustDecodeCompressed (np_DelegatePub pins)) (ErrMsg "pinned public delegate");
      let params := policy_params sv snap phone cosigner arkd delegate in
      enc ← BuildVaultPolicyV1Tree params;
      tapKey ← encoded (schnorr_ParsePubKey (vt_TapKey enc));
      addr ← encoded (ark_EncodeV0 (vtxoAddrHRP sv) arkd tapKey);
      net ← vtxoNetworkParams (cf_Network (sv_Deployment sv));
      onchain ← encoded (taproot_EncodeAddress (vt_TapKey enc) net);
      Ok {| tr_params := params; tr_CosignerPub := cosigner; tr_DelegatePub := delegate; tr_ArkdPub := arkd;
            tr_TapKey := tapKey; tr_PkScript := vt_PkScript enc; tr_SpendLeaf := vt_SpendScript enc;
            tr_DelegateLeaf := vt_DelegateScript enc; tr_SpendControl := vt_SpendControlBlock enc;
            tr_DelegateControl := vt_DelegateControlBlock enc; tr_RevealedScripts := vt_RevealedScripts enc;
            tr_ArkAddress := addr; tr_OnchainAddress := onchain |}
  end.

(** [nil] when a key is missing or the library refuses. *)
Definition defaultVtxoPkScript (user arkd : option PubKey) (exitDelay : Z) : bytes :=
  match user, arkd with
  | Some user, Some arkd =>
      match default_vtxo_TapTree user arkd {| rl_Type := LocktimeTypeSecond; rl_Value := exitDelay |} with
      | Some tap => default [] (P2TRScript (tt_TapKey tap))
      | None => []
      end
  | _, _ => []
  end.

Definition refuseDefaultVtxoChange (sv : Service) (snap : enrolledSnapshot) (dest : bytes) : result unit :=
  let operator := operatorSignerPub sv in
  if bool_decide (es_PhoneBIP340 snap = None) || negb (blen operator =? 33) then Ok tt
  else match btcec_ParsePubKey operator with
  | None => Ok tt
  | Some arkd =>
      pins ← PinsFor (cf_Network (sv_Deployment sv));
      fail_if (dest == defaultVtxoPkScript (es_PhoneBIP340 snap) (Some arkd) (np_ArkdMinExitDelay pins))
        (ErrMsg "DefaultVtxo change refused")
  end.

(** The roles in the order of the code; [None] is a nil key. *)
Fixpoint distinct_roles (earlier roles : list (option PubKey)) : result unit :=
  match roles with
  | [] => Ok tt
  | None :: _ => Err (ErrMsg "vault-board-v1 %s key required")
  | Some pub :: roles =>
      _ ← fail_if (existsb (fun e => SerializePubKey (default [] e) == SerializePubKey pub) earlier)
            (ErrMsg "vault-board-v1 %s and %s keys must be distinct");
      distinct_roles (earlier ++ [Some pub]) roles
  end.

Definition requireDistinctVaultBoardRoles (boarding cosigner phone operator : option PubKey) : result unit :=
  distinct_roles [] [boarding; cosigner; phone; operator].

Definition buildVtxoBoardTree (sv : Service) (vaultID : bytes) (snap : enrolledSnapshot) (boarding : option PubKey)
  : result vtxoBoardTree :=
  let network := cf_Network (sv_Deployment sv) in
  pins ← wrap_err "vault-board-v1: %w" (PinsFor network);
  match es_PhoneBIP340 snap, boarding with
  | Some phone, Some boarding =>
      _ ← fail_if (vaultID == []) (ErrMsg "vault-board-v1 enrolled phone and boarding keys required");
      operator ← parsed (operatorSignerPub sv) (ErrMsg "Operator signer pubkey");
      keyContext ← newVaultBoardKeyContext vaultID network operator;
      cosigner ← vaultBoardCosignerPublic (sv_keys sv) keyContext;
      _ ← requireDistinctVaultBoardRoles (Some boarding) (Some cosigner) (Some phone) (Some operator);
      let exit := CSVMultisigClosure [Some phone] {| rl_Type := LocktimeTypeSecond; rl_Value := np_BoardExitDelay pins |} in
      let cooperative := MultisigClosure [Some boarding; Some cosigner; Some operator] in
      let board := [cooperative; exit] in
      tapTree ← wrap_err "vault-board-v1 tree: %w" (encoded (script_TapTree board));
      pkScript ← wrap_err "vault-board-v1 script: %w" (encoded (P2TRScript (tt_TapKey tapTree)));
      leaf ← encoded (closure_Script cooperative);
      proof ← encoded (tt_ControlBlock tapTree (tap_leaf_hash leaf));
      revealed ← encoded (script_Encode board);
      net ← vtxoNetworkParams network;
      address ← encoded (taproot_EncodeAddress (drop 2 pkScript) net);
      Ok {| bt_BoardingPub := boarding; bt_CosignerPub := cosigner; bt_OperatorPub := operator; bt_PkScript := pkScript;
            bt_Collaborative := leaf; bt_ControlBlock := proof; bt_RevealedScripts := revealed;
            bt_OnchainAddress := address |}
  | _, _ => Err (ErrMsg "vault-board-v1 enrolled phone and boarding keys required")
  end.

(** ** The tree and the key *)

(** The cosigner of a vault's tree is the key that the signing capability
    derives for the same vault, network and Operator. *)
Lemma policy_tree_key sv vaultID snap tree : buildVtxoPolicyTree sv vaultID snap = Ok tree ->
  exists key, service_key_context sv vaultID = Ok key /\ vtxoVaultCosignerPublic (sv_keys sv) key = Ok (tr_CosignerPub tree).
Proof.
  unfold buildVtxoPolicyTree. destruct (es_PhoneBIP340 snap) as [phone|]; [|done]. intros E.
  apply bind_Ok in E as ([] & _ & E). apply bind_Ok in E as (key & Ek & E). apply bind_Ok in E as (cosigner & Ec & E).
  do 8 (apply bind_Ok in E as (? & _ & E)). apply Ok_inj in E as <-. by exists key.
Qed.

(** The tree of a snapshot with a phone key. *)
Lemma policy_tree_Ok sv vaultID snap tree : buildVtxoPolicyTree sv vaultID snap = Ok tree ->
  exists phone arkd delegate enc, es_PhoneBIP340 snap = Some phone /\
    tr_params tree = policy_params sv snap phone (tr_CosignerPub tree) arkd delegate /\
    tr_ArkdPub tree = arkd /\ BuildVaultPolicyV1Tree (tr_params tree) = Ok enc /\
    tr_PkScript tree = vt_PkScript enc /\ tr_SpendLeaf tree = vt_SpendScript enc.
Proof.
  unfold buildVtxoPolicyTree. destruct (es_PhoneBIP340 snap) as [phone|]; [|done]. intros E.
  apply bind_Ok in E as ([] & _ & E). apply bind_Ok in E as (key & _ & E). apply bind_Ok in E as (cosigner & _ & E).
  apply bind_Ok in E as (arkd & _ & E). apply bind_Ok in E as (pins & _ & E). apply bind_Ok in E as (delegate & _ & E).
  apply bind_Ok in E as (enc & Ee & E). do 4 (apply bind_Ok in E as (? & _ & E)). apply Ok_inj in E as <-.
  by exists phone, arkd, delegate, enc.
Qed.

Lemma distinct_roles_Ok earlier roles : distinct_roles earlier roles = Ok tt ->
  Forall (fun r => r <> None) roles /\
  (NoDup (map (fun r => SerializePubKey (default [] r)) earlier) ->
   NoDup (map (fun r => SerializePubKey (default [] r)) (earlier ++ roles))).
Proof.
  revert earlier. induction roles as [|[pub|] roles IH]; intros earlier E; simpl in E; [|..|done].
  - split; [constructor|]. by rewrite app_nil_r.
  - apply bind_Ok in E as ([] & Ef & E). apply fail_if_Ok in Ef. apply IH in E as [Hs Hd].
    split; [by constructor|]. intros Hn. rewrite (assoc app earlier [Some pub] roles : earlier ++ Some pub :: roles = _).
    apply Hd. rewrite map_app. apply NoDup_app. split_and!; [done| |apply NoDup_singleton]. simpl.
    intros x Hx Hin. apply list_elem_of_singleton in Hin as ->. apply list_elem_of_fmap in Hx as (e & Hx & He).
    apply (existsb_none _ _ _ Ef) in He. by apply bool_decide_eq_false in He.
Qed.

(** A boarding tree separates the roles: the four x-only keys of the boarding
    wallet, the vault's boarding cosigner, the phone and the Operator are
    pairwise distinct; the leaf that opens at once needs the first, second and
    fourth, and the other one is the phone's after the boarding exit delay. *)
Theorem board_tree_roles sv vaultID snap boarding tree : buildVtxoBoardTree sv vaultID snap boarding = Ok tree ->
  exists phone pins key tap, es_PhoneBIP340 snap = Some phone /\ boarding = Some (bt_BoardingPub tree) /\
    PinsFor (cf_Network (sv_Deployment sv)) = Ok pins /\
    newVaultBoardKeyContext vaultID (cf_Network (sv_Deployment sv)) (bt_OperatorPub tree) = Ok key /\
    vaultBoardCosignerPublic (sv_keys sv) key = Ok (bt_CosignerPub tree) /\
    NoDup (map SerializePubKey [bt_BoardingPub tree; bt_CosignerPub tree; phone; bt_OperatorPub tree]) /\
    script_TapTree [MultisigClosure [Some (bt_BoardingPub tree); Some (bt_CosignerPub tree); Some (bt_OperatorPub tree)];
      CSVMultisigClosure [Some phone] {| rl_Type := LocktimeTypeSecond; rl_Value := np_BoardExitDelay pins |}] = Some tap /\
    P2TRScript (tt_TapKey tap) = Some (bt_PkScript tree) /\
    closure_Script (MultisigClosure [Some (bt_BoardingPub tree); Some (bt_CosignerPub tree); Some (bt_OperatorPub tree)]) =
      Some (bt_Collaborative tree) /\
    tt_ControlBlock tap (tap_leaf_hash (bt_Collaborative tree)) = Some (bt_ControlBlock tree).
Proof.
  unfold buildVtxoBoardTree. intros E. apply bind_Ok in E as (pins & Ep & E). apply wrap_err_Ok in Ep.
  destruct (es_PhoneBIP340 snap) as [phone|]; [|done]. destruct boarding as [boarding|]; [|done].
  apply bind_Ok in E as ([] & _ & E). apply bind_Ok in E as (operator & _ & E). apply bind_Ok in E as (key & Ek & E).
  apply bind_Ok in E as (cosigner & Ec & E). apply bind_Ok in E as ([] & Ed & E).
  apply bind_Ok in E as (tap & Et & E). apply wrap_err_Ok, encoded_Ok in Et.
  apply bind_Ok in E as (pk & Epk & E). apply wrap_err_Ok, encoded_Ok in Epk.
  apply bind_Ok in E as (leaf & El & E). apply encoded_Ok in El. apply bind_Ok in E as (proof & Epr & E).
  apply encoded_Ok in Epr. do 3 (apply bind_Ok in E as (? & _ & E)). apply Ok_inj in E as <-.
  exists phone, pins, key, tap. apply distinct_roles_Ok in Ed as [_ Ed]. specialize (Ed (NoDup_nil_2)).
  repeat (split; [done|]). done.
Qed.
End Trees.

(** ** An example *)
Definition toy_addresses : Addresses := {|
  ark_HRP_Bitcoin := str "ark"; ark_HRP_MutinyNet := str "tark";
  ark_EncodeV0 := fun hrp _ _ => Some (hrp ++ str "1vault");
  ark_DecodeAddressV0 := fun addr =>
    if addr == str "tark1dest" then Some {| aa_HRP := str "tark"; aa_Signer := Some toy_operator; aa_PkScript := Some (str "dest") |}
    else None;
  taproot_EncodeAddress := fun _ _ => Some (str "tb1p"); default_vtxo_TapTree := fun _ _ _ => None;
|}.

Definition toy_resolver : ArkResolver := {|
  ar_SpendableVtxos := fun _ => Ok []; ar_IntentFeePolicy := Ok (VtxoSelect.Build_IntentFeePolicy [] [] [] []);
  ar_SubmittedVtxoState := fun _ _ _ _ _ => Ok SubmittedVtxoPending;
  ar_CheckpointTapscript := str "unroll"; ar_OperatorSignerPub := toy_operator |}.

Definition toy_service : Service := {|
  sv_Deployment := {| cf_Network := NetworkMutinynet; cf_ClientOrigin := str "https://vault.example"; cf_RPID := str "vault.example" |};
  sv_CredentialIntegrityKey := demo_vault_key; sv_keys := Some toy_master; sv_ArkResolver := Some toy_resolver;
  sv_contractPackJSON := [];
  sv_LightDelegationEnabled := true; sv_SpendingDelegation := true; sv_spendingDelegationKeys := true |}.

Definition toy_snapshot : enrolledSnapshot := {|
  es_ProtectionTier := ProtectionTierLight; es_VaultID := str "vault-1"; es_CredentialID := str "cred";
  es_PhoneBIP340 := Some toy_user; es_ExternalOwnerWallet := None; es_RecoveryKey := None; es_VaultCosignerBase := None;
  es_ArkadeCosignerBase := None; es_Savings := None; es_Board := None |}.

Definition toy_boarding : PubKey := byte_of_Z 2 :: replicate 32 Byte.x04.

Lemma board_tree_roles_witness : exists tree,
  @buildVtxoBoardTree (toy_btc []) toy_secp toy_ark toy_addresses toy_service (str "vault-1") toy_snapshot (Some toy_boarding) = Ok tree /\
  NoDup (map SerializePubKey [bt_BoardingPub tree; bt_CosignerPub tree; toy_user; bt_OperatorPub tree]).
Proof.
  set (btc := toy_btc []). set (secp := toy_secp). set (ark := toy_ark). set (addresses := toy_addresses).
  destruct (buildVtxoBoardTree toy_service (str "vault-1") toy_snapshot (Some toy_boarding)) as [tree|] eqn:E.
  2:{ exfalso. revert E. vm_compute. discriminate. }
  exists tree. split; [reflexivity|].
  destruct (board_tree_roles _ _ _ _ _ E) as (phone & pins & key & tap & Hp & _ & _ & _ & _ & Hn & _).
  injection Hp as <-. exact Hn.
Defined.
