(* ===== verification/SavingsKeys.v ===== *)
(** * The keys of a Savings contract ([src/internal/vault/savings/ledger_keys.go])

    A Savings contract names three or four authorities: the phone, the hardware
    wallet, an optional recovery wallet, each by the origin and extended public
    key of a BIP86 account, and the Guardian, by a base key.  The context digest
    commits to all of them; the contract's own extended keys are derived from it.
    Extended keys are [hdkeychain]'s ([Hd]), keys and networks btcd's.
    [context_digest_binding] says that a digest determines the context;
    [guardian_branch_inj] that no two Guardian keys of a contract share a branch. *)
From Stdlib Require Import Strings.Byte.
From S2P Require Import Prelude Sha256 Text P256 Psbt Program Cosigner VtxoScript VtxoTree.

(** ** Libraries *)
Class Hd := {
  ExtendedKey : Type;
  HDPublicKeyID : ChainParams -> bytes;
  hd_NewKeyFromString : bytes -> option ExtendedKey;
  (** [NewExtendedKey(version, key, chainCode, parentFP, depth, childNum, isPrivate)] *)
  hd_NewExtendedKey : bytes -> bytes -> bytes -> bytes -> Z -> Z -> bool -> ExtendedKey;
  hd_IsPrivate : ExtendedKey -> bool;
  hd_IsForNet : ExtendedKey -> ChainParams -> bool;
  hd_String : ExtendedKey -> bytes;
  hd_Depth : ExtendedKey -> Z;
  hd_ChildIndex : ExtendedKey -> Z;
  hd_Derive : ExtendedKey -> Z -> option ExtendedKey;
  hd_ECPubKey : ExtendedKey -> option PubKey;
  hd_Neuter : ExtendedKey -> option ExtendedKey;
}.

Definition HardenedKeyStart : Z := 2147483648.

(** A call of [hdkeychain] that may fail. *)
Definition hd_call {A} (o : option A) : result A :=
  match o with Some a => Ok a | None => Err (ErrMsg "hdkeychain") end.

Definition LedgerNativeTemplate : bytes := str "phone-ledger-guardian-savings-v1".
Definition ledgerDomain : string := "vaulted/ledger-guardian-savings-v1".

(** [taggedSHA256(ledgerDomain+suffix, msgs...)]: the hash of the messages, one
    after the other. *)
Definition ledgerTagged (suffix : string) (msgs : list bytes) : bytes :=
  taggedSHA256 (ledgerDomain ++ suffix) (concat msgs).

Record LedgerAccountOrigin := { lo_Xpub : bytes; lo_Fingerprint : bytes; lo_Path : list Z }.

Record LedgerSavingsKeyContext := {
  lc_TemplateVersion : bytes;
  lc_Network : bytes;
  lc_VaultID : bytes;
  lc_PolicyDigest : bytes;
  lc_Phone : LedgerAccountOrigin;
  lc_Hardware : LedgerAccountOrigin;
  lc_Recovery : option LedgerAccountOrigin;
  lc_PhoneDirectP256 : bytes;
  lc_VaultCosignerBase : bytes;
}.

Definition networkParams (name : bytes) : result ChainParams :=
  if name == str "mainnet" then Ok MainNetParams
  else if name == str "mutinynet" then Ok MutinyNetSigNetParams
  else Err (ErrMsg "unsupported network %q").

Definition ledgerHex (value : bytes) (size : Z) : result bytes :=
  match hex_decode value with
  | Some b => _ ← fail_if (negb (blen b =? size) || (value != to_lower value))
                    (ErrMsg "Ledger Savings requires canonical %d-byte hex");
              Ok b
  | None => Err (ErrMsg "Ledger Savings requires canonical %d-byte hex")
  end.

(** [m/86'/coinType'/account'], with an account of at most 100. *)
Definition bip86_path (coinType : Z) (path : list Z) : bool :=
  let h := HardenedKeyStart in
  match path with
  | [p0; p1; p2] => (p0 =? h + 86) && (p1 =? h + coinType) && (h <=? p2) && (p2 <=? h + 100)
  | _ => false
  end.

Definition ledgerFields (fields : list bytes) : bytes := concat (map (fun f => be32 (blen f) ++ f) fields).

Definition numsXOnly : bytes :=
  default [] (hex_decode (str "50929b74c1a04954b78b4b6035e97a5e078a5a0f28ec96d547bfee9ace803ac0")).

(** The point with this abscissa and an even ordinate. *)
Definition numsPub : PubKey := byte_of_Z 2 :: numsXOnly.

(** The roles of the users, in their order. *)
Definition role_phone : bytes := str "phone".
Definition role_hardware : bytes := str "hardware".
Definition role_recovery : bytes := str "recovery".

Definition familyClaimants (hasRecovery : bool) : list bytes :=
  if hasRecovery then [role_phone; role_hardware; role_recovery] else [role_phone; role_hardware].

Definition has_recovery (ctx : LedgerSavingsKeyContext) : bool := bool_decide (lc_Recovery ctx <> None).

Definition parseCanonicalCompressedP256 (compressed : bytes) : result unit :=
  _ ← fail_if (negb (blen compressed =? 33)) (ErrMsg "compressed p256 key must be 33 bytes");
  _ ← fail_if ((take 1 compressed != [byte_of_Z 2]) && (take 1 compressed != [byte_of_Z 3]))
        (ErrMsg "direct p256 compressed prefix");
  match UnmarshalCompressed compressed with
  | None => Err (ErrMsg "direct p256 point is off-curve")
  | Some (x, y) =>
      fail_if ((byte_of_Z (2 + y mod 2) :: be_bytes 32 x) != compressed)
        (ErrMsg "direct p256 compressed encoding is not canonical")
  end.

Section Keys.
Context `{Secp} `{Hd}.

Definition parseCompressed (hexPub : bytes) : result PubKey :=
  match hex_decode hexPub with
  | Some raw => parsed raw (ErrMsg "secp256k1")
  | None => Err (ErrMsg "hex")
  end.

Definition forbiddenXOnly (x : bytes) : bool :=
  let g := parseCompressed (str "0279be667ef9dcbbac55a06295ce870b07029bfcdb2dce28d959f2815b16f81798") in
  let twoG := parseCompressed (str "02c6047f9441ed7d6d3045406e95c07cd85c778e4b8cef3ca7abac09b95c709ee5") in
  (x == numsXOnly)
  || match g with Ok g => x == SerializePubKey g | Err _ => false end
  || match twoG with Ok g => x == SerializePubKey g | Err _ => false end.

Definition LedgerAccountKey (origin : LedgerAccountOrigin) (network : bytes) : result ExtendedKey :=
  params ← networkParams network;
  _ ← ledgerHex (lo_Fingerprint origin) 4;
  let coinType := if network == str "mainnet" then 0 else 1 in
  _ ← fail_if (negb (bip86_path coinType (lo_Path origin))) (ErrMsg "Ledger Savings requires a BIP86 account origin");
  key ← hd_call (hd_NewKeyFromString (lo_Xpub origin));
  _ ← fail_if (hd_IsPrivate key || negb (hd_IsForNet key params) || (hd_String key != lo_Xpub origin)
               || negb (hd_Depth key =? 3) || negb (hd_ChildIndex key =? nth 2 (lo_Path origin) 0))
        (ErrMsg "Ledger Savings requires the matching public account xpub");
  Ok key.

(** [%d'] of a hardened index. *)
Definition hardened (i : Z) : bytes := format_uint (i - HardenedKeyStart) ++ str "'".

Definition ledgerAccountExpression (origin : LedgerAccountOrigin) (network : bytes) : result bytes :=
  _ ← LedgerAccountKey origin network;
  let p := lo_Path origin in
  Ok (str "[" ++ lo_Fingerprint origin ++ str "/" ++ hardened (nth 0 p 0) ++ str "/" ++ hardened (nth 1 p 0)
      ++ str "/" ++ hardened (nth 2 p 0) ++ str "]" ++ lo_Xpub origin).

(** The loop over the users: their x-only keys must be new and allowed; it
    collects the account expressions. *)
Definition distinct_authority (x : bytes) (seen : list bytes) : result unit :=
  fail_if (existsb (fun y => y == x) seen || forbiddenXOnly x) (ErrMsg "Ledger Savings authorities must be distinct").

Fixpoint context_origins (network : bytes) (seen : list bytes) (origins : list LedgerAccountOrigin)
  : result (list bytes * list bytes) :=
  match origins with
  | [] => Ok (seen, [])
  | origin :: origins =>
      key ← LedgerAccountKey origin network;
      pub ← hd_call (hd_ECPubKey key);
      _ ← distinct_authority (SerializePubKey pub) seen;
      expression ← ledgerAccountExpression origin network;
      '(seen, expressions) ← context_origins network (SerializePubKey pub :: seen) origins;
      Ok (seen, expression :: expressions)
  end.

Definition context_users (ctx : LedgerSavingsKeyContext) : list LedgerAccountOrigin :=
  [lc_Phone ctx; lc_Hardware ctx] ++ match lc_Recovery ctx with Some r => [r] | None => [] end.

Definition LedgerSavingsContextDigest (ctx : LedgerSavingsKeyContext) : result bytes :=
  _ ← fail_if (lc_TemplateVersion ctx != LedgerNativeTemplate) (ErrMsg "Ledger Savings template mismatch");
  _ ← networkParams (lc_Network ctx);
  _ ← ledgerHex (lc_VaultID ctx) 16;
  _ ← ledgerHex (lc_PolicyDigest ctx) 32;
  direct ← ledgerHex (lc_PhoneDirectP256 ctx) 33;
  _ ← parseCanonicalCompressedP256 direct;
  let tier := if has_recovery ctx then str "advanced" else str "standard" in
  '(seen, expressions) ← context_origins (lc_Network ctx) [] (context_users ctx);
  _ ← ledgerHex (lc_VaultCosignerBase ctx) 33;
  pub ← parseCompressed (lc_VaultCosignerBase ctx);
  _ ← distinct_authority (SerializePubKey pub) seen;
  let fields := [lc_TemplateVersion ctx; lc_Network ctx; lc_VaultID ctx; tier; lc_PolicyDigest ctx] ++ expressions
                ++ [lc_PhoneDirectP256 ctx; lc_VaultCosignerBase ctx] in
  Ok (ledgerTagged "/context" [ledgerFields fields]).

(** Two steps down: a branch, and index zero or the given one. *)
Definition hd_child (parent : ExtendedKey) (branch index : Z) : result ExtendedKey :=
  step ← hd_call (hd_Derive parent branch);
  hd_call (hd_Derive step index).

Definition LedgerSavingsChild (parent : option ExtendedKey) (branch index : Z) : result ExtendedKey :=
  match parent with
  | None => Err (ErrMsg "unenrolled Ledger Savings coordinate")
  | Some parent =>
      _ ← fail_if ((3 <? branch) || negb (index =? 0)) (ErrMsg "unenrolled Ledger Savings coordinate");
      hd_child parent branch index
  end.

(** A root of the contract: depth zero, no parent. *)
Definition contract_root (params : ChainParams) (pub : PubKey) (chainCode : bytes) : ExtendedKey :=
  hd_NewExtendedKey (HDPublicKeyID params) pub chainCode (replicate 4 Byte.x00) 0 0 false.

Definition LedgerSavingsInternalParent (ctx : LedgerSavingsKeyContext) : result ExtendedKey :=
  digest ← LedgerSavingsContextDigest ctx;
  params ← networkParams (lc_Network ctx);
  Ok (contract_root params numsPub (ledgerTagged "/internal" [digest])).

Definition LedgerSavingsGuardianParent (ctx : LedgerSavingsKeyContext) : result ExtendedKey :=
  digest ← LedgerSavingsContextDigest ctx;
  pub ← parseCompressed (lc_VaultCosignerBase ctx);
  params ← networkParams (lc_Network ctx);
  Ok (contract_root params pub (ledgerTagged "/guardian" [digest])).

Definition ledgerClaimant (ctx : LedgerSavingsKeyContext) (claimant : bytes) : bool :=
  existsb (fun role => claimant == role) (familyClaimants (has_recovery ctx)).

(** The branch tables of the code; a missing key is zero. *)
Definition initiate_base (claimant : bytes) : Z :=
  if claimant == role_hardware then 2 else if claimant == role_recovery then 4 else 0.

Definition clawback_base (claimant remainingUser : bytes) : Z :=
  let key := claimant ++ str "/" ++ remainingUser in
  if key == str "phone/hardware" then 6
  else if key == str "phone/recovery" then 8
  else if key == str "hardware/phone" then 10
  else if key == str "hardware/recovery" then 12
  else if key == str "recovery/phone" then 14
  else if key == str "recovery/hardware" then 16 else 0.

Definition LedgerGuardianInitiateBranch (ctx : LedgerSavingsKeyContext) (claimant : bytes) (change : Z) : result Z :=
  _ ← LedgerSavingsContextDigest ctx;
  _ ← fail_if (negb (ledgerClaimant ctx claimant) || (1 <? change)) (ErrMsg "unenrolled Guardian initiation coordinate");
  Ok (initiate_base claimant + change).

Definition LedgerGuardianClawbackBranch (ctx : LedgerSavingsKeyContext) (claimant remainingUser : bytes) : result Z :=
  _ ← LedgerSavingsContextDigest ctx;
  _ ← fail_if (negb (ledgerClaimant ctx claimant) || negb (ledgerClaimant ctx remainingUser) || (claimant == remainingUser))
        (ErrMsg "unenrolled Guardian clawback roles");
  Ok (clawback_base claimant remainingUser).

Definition ledgerGuardianChild (ctx : LedgerSavingsKeyContext) (parent : option ExtendedKey) (branch : Z) : result ExtendedKey :=
  expected ← LedgerSavingsGuardianParent ctx;
  match parent with
  | None => Err (ErrMsg "Guardian parent required")
  | Some parent =>
      public ← hd_call (hd_Neuter parent);
      _ ← fail_if (hd_String public != hd_String expected) (ErrMsg "Guardian parent mismatch");
      hd_child parent branch 0
  end.

Definition LedgerGuardianInitiateChild (ctx : LedgerSavingsKeyContext) (parent : option ExtendedKey) (claimant : bytes)
    (change : Z) : result ExtendedKey :=
  branch ← LedgerGuardianInitiateBranch ctx claimant change;
  ledgerGuardianChild ctx parent branch.

Definition LedgerGuardianClawbackChild (ctx : LedgerSavingsKeyContext) (parent : option ExtendedKey)
    (claimant remainingUser : bytes) : result ExtendedKey :=
  branch ← LedgerGuardianClawbackBranch ctx claimant remainingUser;
  ledgerGuardianChild ctx parent branch.

Definition recovery_branch (role : bytes) : option Z :=
  if role == str "claim" then Some 4 else if role == str "clawback" then Some 6
  else if role == str "cancel" then Some 8 else if role == str "quarantine" then Some 10 else None.

Definition LedgerRecoveryChild (parent : option ExtendedKey) (role : bytes) : result ExtendedKey :=
  match parent, recovery_branch role with
  | Some parent, Some branch => hd_child parent branch 0
  | _, _ => Err (ErrMsg "unknown Ledger recovery key role")
  end.

Definition LedgerRecoveryInternalParent (ctx : LedgerSavingsKeyContext) (claimant stage : bytes) : result ExtendedKey :=
  digest ← LedgerSavingsContextDigest ctx;
  _ ← fail_if (negb (ledgerClaimant ctx claimant) || ((stage != str "pending") && (stage != str "quarantine")))
        (ErrMsg "unenrolled recovery stage or claimant");
  params ← networkParams (lc_Network ctx);
  Ok (contract_root params numsPub (ledgerTagged "/recovery-internal" [digest; ledgerFields [claimant; stage]])).

Definition LedgerSpendingExitKey (origin : LedgerAccountOrigin) (network : bytes) : result ExtendedKey :=
  parent ← LedgerAccountKey origin network;
  hd_child parent 12 0.
End Keys.

(** ** What a digest commits to *)
Lemma ledgerFields_cons f fs : ledgerFields (f :: fs) = be32 (blen f) ++ f ++ ledgerFields fs.
Proof. unfold ledgerFields. cbn [map concat]. by rewrite <-app_assoc. Qed.

Lemma ledgerFields_inj fs gs : Forall (fun f => blen f <= max_uint32) fs -> Forall (fun f => blen f <= max_uint32) gs ->
  ledgerFields fs = ledgerFields gs -> fs = gs.
Proof.
  intros Hf. revert gs. induction Hf as [|f fs Hf _ IH]; intros [|g gs] Hg E; [done| | |].
  1,2: apply (f_equal length) in E; rewrite ledgerFields_cons, length_app in E; unfold be32 in E; rewrite be_bytes_length in E; done.
  rewrite !ledgerFields_cons in E. apply Forall_cons in Hg as [Hg Hgs].
  apply app_inv_length in E as [El E]; [|unfold be32; by rewrite !be_bytes_length].
  apply be32_inj in El; [|unfold is_uint32, blen in *; lia..].
  apply app_inv_length in E as [-> E]; [|unfold blen in *; lia]. f_equal. by apply IH.
Qed.

Lemma ledgerHex_Ok v n b : ledgerHex v n = Ok b -> hex_decode v = Some b /\ blen b = n /\ to_lower v = v.
Proof. unfold ledgerHex. destruct (hex_decode v); [|done]. intros E. inv_ok. by bool_hyps. Qed.

Lemma ledgerHex_length v n b : ledgerHex v n = Ok b -> blen v = 2 * n.
Proof.
  intros (E & <- & El)%ledgerHex_Ok. rewrite <-(hex_decode_lower _ _ E El). unfold blen. rewrite hex_encode_length. lia.
Qed.

(** Digits up to a quote can be split off. *)
Lemma hardened_app_inv a b r s : 0 <= a - HardenedKeyStart <= 100 -> 0 <= b - HardenedKeyStart <= 100 ->
  hardened a ++ r = hardened b ++ s -> a = b /\ r = s.
Proof.
  unfold hardened. intros Ha Hb E. rewrite <-!app_assoc in E. pose proof (f_equal digit_run E) as Ed.
  assert (forall z t, 0 <= z -> digit_run (format_uint z ++ str "'" ++ t) = (format_uint z, str "'" ++ t)) as Hd.
  { intros z t Hz. apply digit_run_app; [by apply format_uint_digits|reflexivity]. }
  rewrite !Hd in Ed by lia. apply pair_equal_spec in Ed as [Ef Er].
  apply format_uint_inj in Ef; [|unfold is_uint64, max_uint64; lia..]. split; [lia|by apply app_inv_head in Er].
Qed.

Section Binding.
Context `{Secp} `{Hd}.

(** What an accepted origin looks like. *)
Lemma account_key_Ok o network key : LedgerAccountKey o network = Ok key ->
  exists fp params p2, ledgerHex (lo_Fingerprint o) 4 = Ok fp /\ networkParams network = Ok params /\
    hd_NewKeyFromString (lo_Xpub o) = Some key /\ hd_String key = lo_Xpub o /\ hd_IsPrivate key = false /\
    lo_Path o = [HardenedKeyStart + 86; HardenedKeyStart + (if network == str "mainnet" then 0 else 1); p2] /\
    HardenedKeyStart <= p2 <= HardenedKeyStart + 100.
Proof.
  unfold LedgerAccountKey. intros E. apply bind_Ok in E as (params & En & E). apply bind_Ok in E as (fp & Ef & E).
  apply bind_Ok in E as ([] & Ep & E). apply bind_Ok in E as (k & Ek & E). apply bind_Ok in E as ([] & Ec & E).
  apply Ok_inj in E as <-. apply fail_if_Ok, negb_false_iff in Ep. apply fail_if_Ok in Ec. unfold bip86_path in Ep.
  destruct (lo_Path o) as [|p0 [|p1 [|p2 [|]]]]; try done. bool_hyps.
  destruct (hd_NewKeyFromString (lo_Xpub o)); [|done]. apply Ok_inj in Ek as ->.
  exists fp, params, p2. subst. by split_and!.
Qed.

Lemma expression_Ok o network e : ledgerAccountExpression o network = Ok e ->
  exists key p2, LedgerAccountKey o network = Ok key /\
    lo_Path o = [HardenedKeyStart + 86; HardenedKeyStart + (if network == str "mainnet" then 0 else 1); p2] /\
    HardenedKeyStart <= p2 <= HardenedKeyStart + 100 /\ blen (lo_Fingerprint o) = 8 /\
    e = str "[" ++ lo_Fingerprint o ++ str "/" ++ hardened (HardenedKeyStart + 86) ++ str "/"
        ++ hardened (HardenedKeyStart + (if network == str "mainnet" then 0 else 1)) ++ str "/"
        ++ hardened p2 ++ str "]" ++ lo_Xpub o.
Proof.
  unfold ledgerAccountExpression. intros E. apply bind_Ok in E as (key & Ek & E). apply Ok_inj in E as <-.
  destruct (account_key_Ok _ _ _ Ek) as (fp & params & p2 & Ef & _ & _ & _ & _ & Ep & Hp). rewrite Ep.
  exists key, p2. split; [done|]. split; [done|]. split; [done|]. split; [by apply ledgerHex_length in Ef|done].
Qed.

Lemma expression_inj o o' network e :
  ledgerAccountExpression o network = Ok e -> ledgerAccountExpression o' network = Ok e -> o = o'.
Proof.
  intros (_ & p & _ & Ep & Hp & Hf & E)%expression_Ok (_ & p' & _ & Ep' & Hp' & Hf' & E')%expression_Ok.
  rewrite E in E'. clear E e. apply app_inv_head in E'.
  apply app_inv_length in E' as [Efp E']; [|unfold blen in *; lia]. repeat apply app_inv_head in E'.
  apply hardened_app_inv in E' as [-> E']; [|lia..]. apply app_inv_head in E'.
  destruct o, o'. simpl in *. congruence.
Qed.

(** The accepted users: pairwise distinct allowed keys, and their expressions. *)
Lemma context_origins_Ok network seen origins seen' es : context_origins network seen origins = Ok (seen', es) ->
  Forall2 (fun o e => ledgerAccountExpression o network = Ok e) origins es.
Proof.
  revert seen es. induction origins as [|o origins IH]; intros seen es E; simpl in E.
  { apply Ok_inj, pair_equal_spec in E as [_ <-]. constructor. }
  apply bind_Ok in E as (key & _ & E). apply bind_Ok in E as (pub & _ & E). apply bind_Ok in E as ([] & _ & E).
  apply bind_Ok in E as (e & Ee & E). apply bind_Ok in E as ([s l] & El & E). apply Ok_inj, pair_equal_spec in E as [-> <-].
  constructor; [done|]. by eapply IH.
Qed.

(** The committed fields of an accepted context. *)
Lemma digest_Ok ctx d : LedgerSavingsContextDigest ctx = Ok d ->
  exists seen es, context_origins (lc_Network ctx) [] (context_users ctx) = Ok (seen, es) /\
    lc_TemplateVersion ctx = LedgerNativeTemplate /\ blen (lc_VaultID ctx) = 32 /\ blen (lc_PolicyDigest ctx) = 64 /\
    blen (lc_PhoneDirectP256 ctx) = 66 /\ blen (lc_VaultCosignerBase ctx) = 66 /\
    (lc_Network ctx = str "mainnet" \/ lc_Network ctx = str "mutinynet") /\
    d = ledgerTagged "/context" [ledgerFields ([lc_TemplateVersion ctx; lc_Network ctx; lc_VaultID ctx;
          if has_recovery ctx then str "advanced" else str "standard"; lc_PolicyDigest ctx] ++ es
          ++ [lc_PhoneDirectP256 ctx; lc_VaultCosignerBase ctx])].
Proof.
  unfold LedgerSavingsContextDigest. intros E. apply bind_Ok in E as ([] & Et & E). apply bind_Ok in E as (params & En & E).
  apply bind_Ok in E as (v & Ev & E). apply bind_Ok in E as (p & Ep & E). apply bind_Ok in E as (d1 & Ed & E).
  apply bind_Ok in E as ([] & _ & E). apply bind_Ok in E as ([seen es] & Eo & E). apply bind_Ok in E as (b & Eb & E).
  apply bind_Ok in E as (pub & _ & E). apply bind_Ok in E as ([] & _ & E). apply Ok_inj in E as <-.
  apply ledgerHex_length in Ev, Ep, Ed, Eb. apply fail_if_Ok in Et. bool_hyps.
  exists seen, es. repeat (split; [done|]). split; [|done].
  unfold networkParams in En. case_bool_decide; [by left|]. case_bool_decide; [by right|done].
Qed.

(** The extended keys of a context fit in a field. *)
Definition xpubs_short (ctx : LedgerSavingsKeyContext) : Prop :=
  Forall (fun o => blen (lo_Xpub o) <= max_uint32 - 40) (context_users ctx).

Lemma hardened_short p : 0 <= p - HardenedKeyStart <= 100 -> blen (hardened p) <= 4.
Proof.
  intros Hp. unfold hardened. replace p with (HardenedKeyStart + (p - HardenedKeyStart)) by lia.
  generalize dependent (p - HardenedKeyStart). intros z Hz. replace (HardenedKeyStart + z - HardenedKeyStart) with z by lia.
  assert (forallb (fun z => blen (format_uint z ++ str "'") <=? 4) (seqZ 0 101) = true) as Ht by (vm_compute; reflexivity).
  rewrite forallb_forall in Ht. specialize (Ht z). rewrite <-list_elem_of_In, elem_of_seqZ in Ht. specialize (Ht ltac:(lia)). lia.
Qed.

Lemma expression_short o network e : ledgerAccountExpression o network = Ok e ->
  blen (lo_Xpub o) <= max_uint32 - 40 -> blen e <= max_uint32.
Proof.
  intros (key & p & _ & _ & Hp & Hf & ->)%expression_Ok Hx.
  pose proof (hardened_short (HardenedKeyStart + 86) ltac:(lia)). pose proof (hardened_short p ltac:(lia)).
  pose proof (hardened_short (HardenedKeyStart + (if network == str "mainnet" then 0 else 1)) ltac:(case_match; lia)).
  unfold blen in *. rewrite !length_app. change (length (str "[")) with 1%nat. change (length (str "/")) with 1%nat.
  change (length (str "]")) with 1%nat. lia.
Qed.

Lemma expressions_short ctx seen es : xpubs_short ctx ->
  context_origins (lc_Network ctx) [] (context_users ctx) = Ok (seen, es) -> Forall (fun e => blen e <= max_uint32) es.
Proof.
  intros Hs E. apply context_origins_Ok in E. unfold xpubs_short in Hs. revert Hs.
  induction E as [|o e os es Ho _ IH]; [by constructor|]. intros [Hx Hs]%Forall_cons.
  constructor; [by eapply expression_short|by apply IH].
Qed.

Lemma expressions_inj network os os' es :
  Forall2 (fun o e => ledgerAccountExpression o network = Ok e) os es ->
  Forall2 (fun o e => ledgerAccountExpression o network = Ok e) os' es -> os = os'.
Proof.
  intros E. revert os'. induction E as [|o e os es Ho _ IH]; intros os' E'; inversion E' as [|o' ? os'' ? Ho' Es]; [done|].
  subst. f_equal; [by eapply expression_inj|by apply IH].
Qed.
End Binding.

(** ** The context digest *)
Section Digest.
Context `{Secp} `{Hd}.

(** The message that the digest of [ctx] is the tagged hash of. *)
Definition committed (ctx : LedgerSavingsKeyContext) (m : bytes) : Prop :=
  exists seen es, context_origins (lc_Network ctx) [] (context_users ctx) = Ok (seen, es) /\
    m = ledgerFields ([lc_TemplateVersion ctx; lc_Network ctx; lc_VaultID ctx;
          if has_recovery ctx then str "advanced" else str "standard"; lc_PolicyDigest ctx] ++ es
          ++ [lc_PhoneDirectP256 ctx; lc_VaultCosignerBase ctx]).

Lemma committed_digest ctx d : LedgerSavingsContextDigest ctx = Ok d ->
  exists m, committed ctx m /\ d = taggedSHA256 (ledgerDomain ++ "/context") m.
Proof.
  intros (seen & es & Eo & _ & _ & _ & _ & _ & _ & ->)%digest_Ok. eexists. split; [by exists seen, es|].
  unfold ledgerTagged. cbn [concat]. by rewrite app_nil_r.
Qed.

Lemma digest_fields_short ctx d m : LedgerSavingsContextDigest ctx = Ok d -> xpubs_short ctx -> committed ctx m ->
  exists es, m = ledgerFields ([lc_TemplateVersion ctx; lc_Network ctx; lc_VaultID ctx;
      if has_recovery ctx then str "advanced" else str "standard"; lc_PolicyDigest ctx] ++ es
      ++ [lc_PhoneDirectP256 ctx; lc_VaultCosignerBase ctx]) /\
    Forall2 (fun o e => ledgerAccountExpression o (lc_Network ctx) = Ok e) (context_users ctx) es /\
    Forall (fun f => blen f <= max_uint32) ([lc_TemplateVersion ctx; lc_Network ctx; lc_VaultID ctx;
      if has_recovery ctx then str "advanced" else str "standard"; lc_PolicyDigest ctx] ++ es
      ++ [lc_PhoneDirectP256 ctx; lc_VaultCosignerBase ctx]).
Proof.
  intros (_ & _ & _ & Et & Ev & Ep & Ed & Eb & En & _)%digest_Ok Hs (seen & es & Eo & ->). exists es. split; [done|].
  split; [by eapply context_origins_Ok|]. pose proof (expressions_short _ _ _ Hs Eo). rewrite Et.
  assert (forall b : bytes, (blen b <=? 66) = true -> blen b <= max_uint32) as Hle by (unfold max_uint32; lia).
  rewrite !Forall_app, !Forall_cons, !Forall_nil. split_and!; try done; apply Hle; try lia; try reflexivity.
  - by destruct En as [->| ->].
  - by destruct (has_recovery ctx).
Qed.

(** The context digest of a Savings contract commits to the whole context: two
    contexts with the same digest are equal (template, network, vault, policy
    digest, every account origin with its path and extended key, the phone's
    direct key, the Guardian's base key), or their committed messages are a
    collision of the tagged hash. *)
Theorem context_digest_binding a b d :
  LedgerSavingsContextDigest a = Ok d -> LedgerSavingsContextDigest b = Ok d -> xpubs_short a -> xpubs_short b ->
  a = b \/ exists m m', committed a m /\ committed b m' /\ tagged_collision (ledgerDomain ++ "/context") m m'.
Proof.
  intros Ea Eb Ha Hb. destruct (committed_digest _ _ Ea) as (m & Hm & Em). destruct (committed_digest _ _ Eb) as (m' & Hm' & Em').
  rewrite Em in Em'. apply tagged_eq_cases in Em' as [Emm|Hc]; [left|right; eauto].
  destruct (digest_fields_short _ _ _ Ea Ha Hm) as (es & -> & Hes & Hse).
  destruct (digest_fields_short _ _ _ Eb Hb Hm') as (es' & -> & Hes' & Hse').
  apply ledgerFields_inj in Emm; [|done..]. clear Hse Hse' Hm Hm' Ea Eb. injection Emm as Et En Ev Er Ep El.
  rewrite <-En in Hes'. assert (has_recovery a = has_recovery b) as Err.
  { destruct (has_recovery a), (has_recovery b); [done|discriminate Er..|done]. }
  apply app_inj_2 in El as [-> El]; [|done]. injection El as Ed Ebase.
  pose proof (expressions_inj _ _ _ _ Hes Hes') as Eo. unfold context_users, has_recovery in *.
  destruct a as [ta na va pa ph hw rc da ba], b as [tb nb vb pb ph' hw' rc' db bb]. simpl in *. subst.
  destruct rc, rc'; simpl in *; try done; injection Eo; intros; subst; done.
Qed.
End Digest.

(** ** The Guardian's branches *)

(** What a Guardian key of a contract is for. *)
Inductive GuardianUse :=
  | Initiate (claimant : bytes) (change : Z)
  | Clawback (claimant remainingUser : bytes).

Section Branches.
Context `{Secp} `{Hd}.

Definition guardian_branch (ctx : LedgerSavingsKeyContext) (use : GuardianUse) : result Z :=
  match use with
  | Initiate claimant change => LedgerGuardianInitiateBranch ctx claimant change
  | Clawback claimant remainingUser => LedgerGuardianClawbackBranch ctx claimant remainingUser
  end.

Definition known_roles : list bytes := [role_phone; role_hardware; role_recovery].

Lemma claimant_known ctx claimant : ledgerClaimant ctx claimant = true -> claimant ∈ known_roles.
Proof.
  unfold ledgerClaimant, familyClaimants, known_roles. rewrite existsb_exists. intros (r & Hin & E).
  apply bool_decide_eq_true in E as ->. destruct (has_recovery ctx); simpl in Hin; set_solver.
Qed.

Definition enrolled_uses : list GuardianUse :=
  (c ← known_roles; [Initiate c 0; Initiate c 1])
  ++ (c ← known_roles; r ← known_roles; if c == r then [] else [Clawback c r]).

Definition use_branch (use : GuardianUse) : Z :=
  match use with Initiate c change => initiate_base c + change | Clawback c r => clawback_base c r end.

#[global] Instance GuardianUse_eq_dec : EqDecision GuardianUse.
Proof. solve_decision. Defined.

Lemma guardian_branch_Ok ctx use b : guardian_branch ctx use = Ok b ->
  (match use with Initiate _ change => is_uint32 change | _ => True end) -> use ∈ enrolled_uses /\ use_branch use = b.
Proof.
  destruct use as [c change|c r]; simpl; intros E Hr.
  - unfold LedgerGuardianInitiateBranch in E. apply bind_Ok in E as (? & _ & E). apply bind_Ok in E as ([] & Ef & E).
    apply fail_if_Ok in Ef. bool_hyps. apply Ok_inj in E as <-. split; [|done].
    assert (change = 0 \/ change = 1) as [-> | ->] by (unfold is_uint32 in Hr; lia);
      match goal with E : ledgerClaimant _ _ = true |- _ => apply claimant_known in E; revert E end;
      unfold known_roles; rewrite !elem_of_cons, elem_of_nil; intros [->|[->|[->|[]]]];
      apply (bool_decide_unpack _); vm_compute; exact I.
  - unfold LedgerGuardianClawbackBranch in E. apply bind_Ok in E as (? & _ & E). apply bind_Ok in E as ([] & Ef & E).
    apply fail_if_Ok in Ef. bool_hyps. apply Ok_inj in E as <-. split; [|done].
    repeat match goal with E : ledgerClaimant _ _ = true |- _ => apply claimant_known in E; revert E end.
    unfold known_roles; rewrite !elem_of_cons, !elem_of_nil. intros [->|[->|[->|[]]]] [->|[->|[->|[]]]]; try done;
      apply (bool_decide_unpack _); vm_compute; exact I.
Qed.

(** No two uses of a contract's Guardian share a key: the branches are distinct,
    and the odd branch beside a clawback branch, which the wallet policy pairs
    with it, belongs to nobody. *)
Lemma guardian_branch_inj ctx use use' b :
  (forall c change, use = Initiate c change -> is_uint32 change) -> (forall c change, use' = Initiate c change -> is_uint32 change) ->
  guardian_branch ctx use = Ok b -> guardian_branch ctx use' = Ok b -> use = use'.
Proof.
  intros H1 H2 E E'. apply guardian_branch_Ok in E as [Hin E]; [|by destruct use; [eapply H1|]].
  apply guardian_branch_Ok in E' as [Hin' E']; [|by destruct use'; [eapply H2|]]. rewrite <-E' in E.
  assert (forallb (fun u => forallb (fun v => bool_decide (u = v) || negb (use_branch u =? use_branch v)) enrolled_uses)
            enrolled_uses = true) as Ht by (vm_compute; reflexivity).
  rewrite forallb_forall in Ht. specialize (Ht use ltac:(by rewrite <-list_elem_of_In)). rewrite forallb_forall in Ht.
  specialize (Ht use' ltac:(by rewrite <-list_elem_of_In)). rewrite E, Z.eqb_refl, orb_false_r in Ht. by apply bool_decide_eq_true in Ht.
Qed.

Lemma clawback_pair_free ctx c r use b :
  (forall c change, use = Initiate c change -> is_uint32 change) ->
  LedgerGuardianClawbackBranch ctx c r = Ok b -> guardian_branch ctx use <> Ok (b + 1).
Proof.
  intros H1 E E'. apply (guardian_branch_Ok ctx (Clawback c r)) in E as [Hin <-]; [|done].
  apply guardian_branch_Ok in E' as [Hin' E']; [|by destruct use; [eapply H1|]].
  assert (forallb (fun u => forallb (fun v => match u with Clawback _ _ => negb (use_branch u + 1 =? use_branch v) | _ => true end)
            enrolled_uses) enrolled_uses = true) as Ht by (vm_compute; reflexivity).
  rewrite forallb_forall in Ht. specialize (Ht _ ltac:(by rewrite <-list_elem_of_In; apply Hin)). rewrite forallb_forall in Ht.
  specialize (Ht use ltac:(by rewrite <-list_elem_of_In)). simpl in Ht, E'. rewrite E', Z.eqb_refl in Ht. done.
Qed.
End Branches.

(** ** An example *)
(** An extended key is a text, with a flag for private ones; the public form of a
    private one has one more byte. *)
Definition toy_hd : Hd := {|
  ExtendedKey := bool * bytes; HDPublicKeyID := fun _ => []; hd_NewKeyFromString := fun s => Some (false, s);
  hd_NewExtendedKey := fun _ key chain _ _ _ isPrivate => (isPrivate, key ++ chain); hd_IsPrivate := fst;
  hd_IsForNet := fun _ _ => true; hd_String := snd; hd_Depth := fun _ => 3;
  hd_ChildIndex := fun _ => HardenedKeyStart; hd_Derive := fun k i => Some (fst k, snd k ++ [byte_of_Z i]);
  hd_ECPubKey := fun k => Some (byte_of_Z 2 :: (if fst k then [byte_of_Z 2] else []) ++ snd k);
  hd_Neuter := fun k => Some (false, (if fst k then [byte_of_Z 2] else []) ++ snd k) |}.

Definition toy_origin (xpub : string) : LedgerAccountOrigin := {|
  lo_Xpub := str xpub; lo_Fingerprint := str "0a0b0c0d";
  lo_Path := [HardenedKeyStart + 86; HardenedKeyStart + 1; HardenedKeyStart] |}.

(** The scalar that the example's master key derives for the vault. *)
Definition toy_root : bytes :=
  default [] (hex_decode (str "020b64791d69e166041bfcc1a9fe96eaebe499e75dcf88384ebaea971681f104")).

Definition toy_context (recovery : option LedgerAccountOrigin) : LedgerSavingsKeyContext := {|
  lc_TemplateVersion := LedgerNativeTemplate; lc_Network := NetworkMutinynet;
  lc_VaultID := hex_encode (replicate 16 Byte.x07);
  lc_PolicyDigest := match SpendingPolicyDigestHexFor NetworkMutinynet DefaultSpendingPolicy with Ok d => d | Err _ => [] end;
  lc_Phone := toy_origin "tpub-phone"; lc_Hardware := toy_origin "tpub-hardware"; lc_Recovery := recovery;
  lc_PhoneDirectP256 := str "036b17d1f2e12c4247f8bce6e563a440f277037d812deb33a0f4a13945d898c296";
  lc_VaultCosignerBase := str "02" ++ hex_encode toy_root |}.

Definition toy_direct : bytes :=
  default [] (hex_decode (str "036b17d1f2e12c4247f8bce6e563a440f277037d812deb33a0f4a13945d898c296")).

Lemma toy_direct_ok : parseCanonicalCompressedP256 toy_direct = Ok tt.
Proof. vm_compute. reflexivity. Qed.

Lemma Ok_bind {A B} (x : A) (f : A -> result B) : (Ok x ≫= f) = f x.
Proof. reflexivity. Qed.

Definition toy_contract : LedgerSavingsKeyContext := toy_context (Some (toy_origin "tpub-recovery")).

Definition toy_digest : bytes :=
  default [] (hex_decode (str "f31306da4deaff93a929cd922aada13f74f35140320ec3b97067733add77bd59")).

(** The key is parsed once, not at every use of the digest. *)
Lemma toy_digest_ok : @LedgerSavingsContextDigest toy_secp toy_hd toy_contract = Ok toy_digest.
Proof.
  unfold LedgerSavingsContextDigest.
  assert (ledgerHex (lc_PhoneDirectP256 toy_contract) 33 = Ok toy_direct) as -> by (vm_compute; reflexivity).
  rewrite (Ok_bind toy_direct). cbv beta. rewrite toy_direct_ok. vm_compute. reflexivity.
Qed.

Lemma context_digest_binding_witness :
  @LedgerSavingsContextDigest toy_secp toy_hd toy_contract = Ok toy_digest /\
    (toy_contract = toy_contract \/
     exists m m', @committed toy_secp toy_hd toy_contract m /\ @committed toy_secp toy_hd toy_contract m' /\
       tagged_collision (ledgerDomain ++ "/context") m m').
Proof.
  set (secp := toy_secp). set (hd := toy_hd). split; [exact toy_digest_ok|].
  apply (context_digest_binding _ _ toy_digest toy_digest_ok toy_digest_ok).
  - repeat constructor; vm_compute; discriminate.
  - repeat constructor; vm_compute; discriminate.
Defined.
