(* ===== verification/SavingsFamily.v ===== *)
(** * The trees of a Savings contract ([src/internal/vault/savings/ledger_tree.go],
    [ledger_policy.go], [ledger_family.go])

    A contract has a receive and a change address, and for every user who may
    claim a recovery a pending and a quarantine address.  Each is a taproot
    output over a list of leaf scripts, and each comes with a wallet policy that
    the user registers on the hardware wallet.  [savings_descriptor_exact] and
    [recovery_family_exact] say that policy and scripts are two renderings of one
    list of leaves. *)
From Stdlib Require Import Strings.Byte.
From S2P Require Import Prelude Sha256 Text P256 Psbt Btcd Program Cosigner VtxoScript VtxoTree SavingsKeys.

Definition TransitionSequence : Z := 4294967293.

Record Tree := { tree_Address : bytes; tree_PkScript : bytes }.

Record LedgerWalletPolicy := { wp_Name : bytes; wp_DescriptorTemplate : bytes; wp_KeysInfo : list bytes }.

Record LedgerRecoveryTree := {
  rt_Tree : Tree;
  rt_WalletPolicy : LedgerWalletPolicy;
  rt_Scripts : list bytes;
  rt_Internal : PubKey;
}.

Record LedgerNativeSavings := {
  ns_WalletPolicy : LedgerWalletPolicy;
  ns_Receive : LedgerRecoveryTree;
  ns_Change : LedgerRecoveryTree;
}.

Record LedgerRecoveryFamily := {
  rf_Claimant : bytes;
  rf_Guardians : list bytes;
  rf_Delay : Z;
  rf_Pending : LedgerRecoveryTree;
  rf_Quarantine : LedgerRecoveryTree;
}.

(** [Recovery]: a map with one entry for every claimant, in their order. *)
Record LedgerNativeFamily := {
  nf_Savings : LedgerNativeSavings;
  nf_Recovery : list (bytes * LedgerRecoveryFamily);
  nf_SpendingPolicy : SpendingPolicy;
}.

Definition pendingDelay (claimant : bytes) : Z :=
  if claimant == role_hardware then HardwareRecoveryCSVBlocks
  else if claimant == role_phone then PhoneRecoveryCSVBlocks
  else RecoveryCSVBlocks.

Definition quarantineGuardians (claimant : bytes) (hasRecovery : bool) : list bytes :=
  if claimant == role_phone then
    if hasRecovery then [role_hardware; role_recovery] else [role_hardware]
  else if claimant == role_hardware then
    if hasRecovery then [role_phone; role_recovery] else [role_phone]
  else [role_phone; role_hardware].

(** ** Wallet policies *)

(** The loop runs from the last key. *)
Definition ledgerAnd (keys : list bytes) : bytes :=
  fold_right (fun key result =>
    if result == [] then str "pk(" ++ key ++ str ")"
    else str "and_v(v:pk(" ++ key ++ str ")," ++ result ++ str ")") [] keys.

Definition policy_tree (leaves : list bytes) : option bytes :=
  match leaves with
  | [a] => Some a
  | [a; b; c] => Some (str "{{" ++ a ++ str "," ++ b ++ str "}," ++ c ++ str "}")
  | [a; b; c; d] => Some (str "{{" ++ a ++ str "," ++ b ++ str "},{" ++ c ++ str "," ++ d ++ str "}}")
  | _ => None
  end.

Definition ledgerRecoveryPolicy (name : bytes) (leaves keys : list bytes) : result LedgerWalletPolicy :=
  match policy_tree leaves with
  | None => Err (ErrMsg "unexpected recovery leaf count")
  | Some tree =>
      let p := {| wp_Name := name; wp_DescriptorTemplate := str "tr(@0/**," ++ tree ++ str ")"; wp_KeysInfo := keys |} in
      _ ← fail_if ((15 <? Z.of_nat (length keys)) || (512 <? blen (wp_DescriptorTemplate p)))
            (ErrMsg "Ledger recovery policy exceeds limits");
      Ok p
  end.

(** [@i/<a;b>/*] *)
Definition policy_key (i a b : Z) : bytes :=
  str "@" ++ format_uint i ++ str "/<" ++ format_uint a ++ str ";" ++ format_uint b ++ str ">/*".

(** The map lookups of the builder: [None] is Go's zero value. *)
Definition role_get {A} (m : list (bytes * A)) (role : bytes) : option A :=
  snd <$> List.find (fun p => fst p == role) m.

(** [{"phone": in.Phone, ...}[role]] *)
Definition origin_of (ctx : LedgerSavingsKeyContext) (role : bytes) : LedgerAccountOrigin :=
  if role == role_phone then lc_Phone ctx
  else if role == role_hardware then lc_Hardware ctx
  else match lc_Recovery ctx with
       | Some r => if role == role_recovery then r else {| lo_Xpub := []; lo_Fingerprint := []; lo_Path := [] |}
       | None => {| lo_Xpub := []; lo_Fingerprint := []; lo_Path := [] |}
       end.

Section Family.
Context `{Btc} `{Secp} `{ArkScript} `{Addresses} `{Hd} `{Txscript}.

Definition payAddr (pub : PubKey) (params : ChainParams) : result (bytes * bytes) :=
  script ← encoded (PayToTaprootScript pub);
  addr ← encoded (taproot_EncodeAddress (SerializePubKey pub) params);
  Ok (addr, script).

Definition taprootFromScripts (internal : PubKey) (scripts : list bytes) (network : bytes) : result (bytes * bytes) :=
  params ← networkParams network;
  let merkle := match scripts with [s] => tap_leaf_hash s | _ => taproot_RootHash scripts end in
  payAddr (ComputeTaprootOutputKey internal merkle) params.

(** Keys are compared x-only; a nil key is [None]. *)
Fixpoint distinct_role_set (seen : list bytes) (pubs : list (option PubKey)) : result unit :=
  match pubs with
  | [] => Ok tt
  | None :: _ => Err (ErrMsg "%s key required")
  | Some pub :: pubs =>
      let x := SerializePubKey pub in
      _ ← fail_if (existsb (fun y => y == x) seen) (ErrMsg "%s keys must be x-only distinct");
      _ ← fail_if (forbiddenXOnly x) (ErrMsg "family key is a forbidden point");
      distinct_role_set (x :: seen) pubs
  end.

Definition requireDistinctRoleSet (pubs : list (option PubKey)) : result unit := distinct_role_set [] pubs.

Definition checksig (pubs : list PubKey) : result bytes := encoded (closure_Script (MultisigClosure (map Some pubs))).

Definition ec_pub (key : ExtendedKey) : result PubKey := hd_call (hd_ECPubKey key).

Definition ledgerRecoveryTree (parent : ExtendedKey) (scripts : list bytes) (network : bytes) (policy : LedgerWalletPolicy)
  : result LedgerRecoveryTree :=
  child ← LedgerSavingsChild (Some parent) 0 0;
  pub ← ec_pub child;
  '(address, script) ← taprootFromScripts pub scripts network;
  Ok {| rt_Tree := {| tree_Address := address; tree_PkScript := script |}; rt_WalletPolicy := policy;
        rt_Scripts := scripts; rt_Internal := pub |}.

(** The accounts of the claimants: the maps [accounts] and [expressions]. *)
Definition load_account (ctx : LedgerSavingsKeyContext) (role : bytes) : result (bytes * (ExtendedKey * bytes)) :=
  key ← LedgerAccountKey (origin_of ctx role) (lc_Network ctx);
  expression ← ledgerAccountExpression (origin_of ctx role) (lc_Network ctx);
  Ok (role, (key, expression)).

Definition load_accounts (ctx : LedgerSavingsKeyContext) : result (list (bytes * (ExtendedKey * bytes))) :=
  collect (load_account ctx) (familyClaimants (has_recovery ctx)).

Definition account_key (accounts : list (bytes * (ExtendedKey * bytes))) (role : bytes) : option ExtendedKey :=
  fst <$> role_get accounts role.

Definition account_expression (accounts : list (bytes * (ExtendedKey * bytes))) (role : bytes) : bytes :=
  default [] (snd <$> role_get accounts role).

(** ** The receive and the change tree *)
Definition savings_pub (parent : option ExtendedKey) (branch : Z) : result PubKey :=
  child ← LedgerSavingsChild parent branch 0;
  ec_pub child.

(** The user's key expression of an initiation leaf. *)
Definition initiate_user (claimant : bytes) : bytes :=
  if claimant == role_hardware then str "@2/<2;3>/*" else if claimant == role_recovery then str "@4/**" else str "@1/<2;3>/*".

Definition initiate_leaf (ctx : LedgerSavingsKeyContext) (claimant : bytes) : result bytes :=
  branch ← LedgerGuardianInitiateBranch ctx claimant 0;
  Ok (ledgerAnd [initiate_user claimant; policy_key 3 branch (branch + 1)]).

(** One initiation leaf of the tree: its script, and its two keys. *)
Definition initiate_script (ctx : LedgerSavingsKeyContext) (accounts : list (bytes * (ExtendedKey * bytes)))
    (guardian : ExtendedKey) (change : Z) (claimant : bytes) : result (bytes * list PubKey) :=
  let branch := if claimant == role_recovery then change else 2 + change in
  user ← savings_pub (account_key accounts claimant) branch;
  gChild ← LedgerGuardianInitiateChild ctx (Some guardian) claimant change;
  g ← ec_pub gChild;
  leaf ← checksig [user; g];
  Ok (leaf, [user; g]).

Definition savings_tree (ctx : LedgerSavingsKeyContext) (accounts : list (bytes * (ExtendedKey * bytes)))
    (internal guardian : ExtendedKey) (policy : LedgerWalletPolicy) (change : Z) : result LedgerRecoveryTree :=
  phone ← savings_pub (account_key accounts role_phone) change;
  hardware ← savings_pub (account_key accounts role_hardware) change;
  internalPub ← savings_pub (Some internal) change;
  admin ← checksig [phone; hardware];
  leaves ← collect (initiate_script ctx accounts guardian change) (familyClaimants (has_recovery ctx));
  let scripts := admin :: map fst leaves in
  _ ← requireDistinctRoleSet (map Some ([phone; hardware] ++ concat (map snd leaves)));
  '(address, script) ← taprootFromScripts internalPub scripts (lc_Network ctx);
  Ok {| rt_Tree := {| tree_Address := address; tree_PkScript := script |}; rt_WalletPolicy := policy;
        rt_Scripts := scripts; rt_Internal := internalPub |}.

Definition BuildLedgerNativeSavings (ctx : LedgerSavingsKeyContext) : result LedgerNativeSavings :=
  internal ← LedgerSavingsInternalParent ctx;
  guardian ← LedgerSavingsGuardianParent ctx;
  accounts ← load_accounts ctx;
  let keys := [hd_String internal; account_expression accounts role_phone; account_expression accounts role_hardware;
               hd_String guardian]
              ++ (if has_recovery ctx then [account_expression accounts role_recovery] else []) in
  initiate ← collect (initiate_leaf ctx) (familyClaimants (has_recovery ctx));
  let leaves := ledgerAnd [str "@1/**"; str "@2/**"] :: initiate in
  policy ← ledgerRecoveryPolicy (str "Vaulted Savings") leaves keys;
  receive ← savings_tree ctx accounts internal guardian policy 0;
  change ← savings_tree ctx accounts internal guardian policy 1;
  Ok {| ns_WalletPolicy := policy; ns_Receive := receive; ns_Change := change |}.

(** ** The recovery family *)
Definition recovery_user (accounts : list (bytes * (ExtendedKey * bytes))) (use role : bytes) : result PubKey :=
  key ← LedgerRecoveryChild (account_key accounts role) use;
  ec_pub key.

(** [indices[role]]: the position of the role among the claimants, from one. *)
Fixpoint role_index (roles : list bytes) (role : bytes) (i : Z) : Z :=
  match roles with
  | [] => 0
  | r :: roles => if r == role then i else role_index roles role (i + 1)
  end.

Definition quarantine_tree (ctx : LedgerSavingsKeyContext) (accounts : list (bytes * (ExtendedKey * bytes)))
    (claimant : bytes) (guardians : list bytes) : result LedgerRecoveryTree :=
  qInternal ← LedgerRecoveryInternalParent ctx claimant (str "quarantine");
  qPubs ← collect (recovery_user accounts (str "quarantine")) guardians;
  qScript ← checksig qPubs;
  let qKeys := hd_String qInternal :: map (account_expression accounts) guardians in
  let qExpr := imap (fun i _ => policy_key (Z.of_nat i + 1) 10 11) guardians in
  qPolicy ← ledgerRecoveryPolicy (str "Vaulted " ++ claimant ++ str " safe") [ledgerAnd qExpr] qKeys;
  ledgerRecoveryTree qInternal [qScript] (lc_Network ctx) qPolicy.

(** The cancellation of one remaining user and the Guardian: script and policy
    leaf. *)
Definition clawback_leaf (ctx : LedgerSavingsKeyContext) (accounts : list (bytes * (ExtendedKey * bytes)))
    (guardianParent : ExtendedKey) (index : bytes -> Z) (gi : Z) (claimant g : bytes) : result (bytes * bytes) :=
  remainingUser ← recovery_user accounts (str "clawback") g;
  child ← LedgerGuardianClawbackChild ctx (Some guardianParent) claimant g;
  guardianPub ← ec_pub child;
  _ ← requireDistinctRoleSet [Some remainingUser; Some guardianPub];
  script ← checksig [remainingUser; guardianPub];
  branch ← LedgerGuardianClawbackBranch ctx claimant g;
  Ok (script, ledgerAnd [policy_key (index g) 6 7; policy_key gi branch (branch + 1)]).

Definition claim_script (claimPub : PubKey) (delay : Z) : result bytes :=
  encoded (script_Build [AddData (SerializePubKey claimPub); AddOp OP_CHECKSIGVERIFY; AddInt64 delay;
                         AddOp OP_CHECKSEQUENCEVERIFY]).

Definition claim_leaf (i delay : Z) : bytes :=
  str "and_v(v:pk(" ++ policy_key i 4 5 ++ str "),older(" ++ format_uint delay ++ str "))".

Definition pending_tree (ctx : LedgerSavingsKeyContext) (accounts : list (bytes * (ExtendedKey * bytes)))
    (guardianParent : ExtendedKey) (claimant : bytes) (guardians : list bytes) : result LedgerRecoveryTree :=
  let claimants := familyClaimants (has_recovery ctx) in
  let index := fun role => role_index claimants role 1 in
  pInternal ← LedgerRecoveryInternalParent ctx claimant (str "pending");
  claimPub ← recovery_user accounts (str "claim") claimant;
  claim ← claim_script claimPub (pendingDelay claimant);
  let pKeys := hd_String pInternal :: map (account_expression accounts) claimants in
  let gi := Z.of_nat (length pKeys) in
  clawbacks ← collect (clawback_leaf ctx accounts guardianParent index gi claimant) guardians;
  cancelPubs ← collect (recovery_user accounts (str "cancel")) guardians;
  cancel ← checksig cancelPubs;
  let scripts := claim :: map fst clawbacks ++ [cancel] in
  let cancelExpr := map (fun g => policy_key (index g) 8 9) guardians in
  let leaves := claim_leaf (index claimant) (pendingDelay claimant) :: map snd clawbacks ++ [ledgerAnd cancelExpr] in
  pPolicy ← ledgerRecoveryPolicy (str "Vaulted " ++ claimant ++ str " wait") leaves (pKeys ++ [hd_String guardianParent]);
  ledgerRecoveryTree pInternal scripts (lc_Network ctx) pPolicy.

Definition recovery_family (ctx : LedgerSavingsKeyContext) (accounts : list (bytes * (ExtendedKey * bytes)))
    (guardianParent : ExtendedKey) (claimant : bytes) : result (bytes * LedgerRecoveryFamily) :=
  let guardians := quarantineGuardians claimant (has_recovery ctx) in
  quarantine ← quarantine_tree ctx accounts claimant guardians;
  pending ← pending_tree ctx accounts guardianParent claimant guardians;
  Ok (claimant, {| rf_Claimant := claimant; rf_Guardians := guardians; rf_Delay := pendingDelay claimant;
                   rf_Pending := pending; rf_Quarantine := quarantine |}).

Definition BuildLedgerNativeFamily (ctx : LedgerSavingsKeyContext) (policy : SpendingPolicy) : result LedgerNativeFamily :=
  digest ← SpendingPolicyDigestHexFor (lc_Network ctx) policy;
  _ ← fail_if (digest != lc_PolicyDigest ctx) (ErrMsg "Ledger Savings policy digest mismatch");
  _ ← LedgerSavingsContextDigest ctx;
  accounts ← load_accounts ctx;
  guardianParent ← LedgerSavingsGuardianParent ctx;
  recovery ← collect (recovery_family ctx accounts guardianParent) (familyClaimants (has_recovery ctx));
  savings ← BuildLedgerNativeSavings ctx;
  Ok {| nf_Savings := savings; nf_Recovery := recovery; nf_SpendingPolicy := policy |}.
End Family.

(** ** Leaves

    A leaf of a policy, abstractly: its keys, each an entry of the policy's key
    list with a branch ([@i/**] is the branches 0 and 1), and a delay. *)
Inductive LeafKey := Star (index : Z) | Pair (index branch : Z).

Record Leaf := { lf_keys : list LeafKey; lf_delay : option Z }.

Definition key_index (k : LeafKey) : Z := match k with Star i | Pair i _ => i end.
Definition key_branch (k : LeafKey) : Z := match k with Star _ => 0 | Pair _ b => b end.

Definition render_key (k : LeafKey) : bytes :=
  match k with
  | Star i => str "@" ++ format_uint i ++ str "/**"
  | Pair i b => policy_key i b (b + 1)
  end.

Definition render_leaf (l : Leaf) : bytes :=
  match lf_delay l, lf_keys l with
  | Some d, [k] => str "and_v(v:pk(" ++ render_key k ++ str "),older(" ++ format_uint d ++ str "))"
  | _, ks => ledgerAnd (map render_key ks)
  end.

(** Who holds the key at a position of the list. *)
Inductive Holder := Unspendable | User (role : bytes) | Guardian.

Definition savings_holders (ctx : LedgerSavingsKeyContext) : list Holder :=
  [Unspendable; User role_phone; User role_hardware; Guardian] ++ (if has_recovery ctx then [User role_recovery] else []).

Definition initiate_key (claimant : bytes) : LeafKey :=
  if claimant == role_hardware then Pair 2 2 else if claimant == role_recovery then Star 4 else Pair 1 2.

Definition savings_leaves (ctx : LedgerSavingsKeyContext) : list Leaf :=
  {| lf_keys := [Star 1; Star 2]; lf_delay := None |} ::
  map (fun c => {| lf_keys := [initiate_key c; Pair 3 (initiate_base c)]; lf_delay := None |})
    (familyClaimants (has_recovery ctx)).

Definition quarantine_holders (guardians : list bytes) : list Holder := Unspendable :: map User guardians.

Definition quarantine_leaves (guardians : list bytes) : list Leaf :=
  [{| lf_keys := map (fun g => Pair (role_index guardians g 1) 10) guardians; lf_delay := None |}].

Definition pending_holders (claimants : list bytes) : list Holder := Unspendable :: map User claimants ++ [Guardian].

Definition pending_leaves (claimants : list bytes) (claimant : bytes) (guardians : list bytes) : list Leaf :=
  let index := fun role => role_index claimants role 1 in
  {| lf_keys := [Pair (index claimant) 4]; lf_delay := Some (pendingDelay claimant) |} ::
  map (fun g => {| lf_keys := [Pair (index g) 6; Pair (Z.of_nat (S (length claimants))) (clawback_base claimant g)]; lf_delay := None |})
    guardians
  ++ [{| lf_keys := map (fun g => Pair (index g) 8) guardians; lf_delay := None |}].

#[global] Instance Holder_eq_dec : EqDecision Holder.
Proof. solve_decision. Defined.

(** Who has to sign for a leaf. *)
Definition leaf_holders (holders : list Holder) (l : Leaf) : list (option Holder) :=
  map (fun k => holders !! Z.to_nat (key_index k)) (lf_keys l).

Section Realizes.
Context `{Btc} `{Secp} `{ArkScript} `{Addresses} `{Hd} `{Txscript}.
Variable ctx : LedgerSavingsKeyContext.

(** The extended key of a holder and its entry in the policy's key list. *)
Definition holder_key (internal : ExtendedKey) (h : Holder) (ki : ExtendedKey * bytes) : Prop :=
  match h with
  | Unspendable => ki = (internal, hd_String internal)
  | User role => LedgerAccountKey (origin_of ctx role) (lc_Network ctx) = Ok (fst ki) /\
      ledgerAccountExpression (origin_of ctx role) (lc_Network ctx) = Ok (snd ki)
  | Guardian => LedgerSavingsGuardianParent ctx = Ok (fst ki) /\ snd ki = hd_String (fst ki)
  end.

(** The public key of a leaf key, in the receive ([0]) or change ([1]) tree. *)
Definition derived_pub (keys : list ExtendedKey) (change : Z) (k : LeafKey) (pub : PubKey) : Prop :=
  exists parent step child, keys !! Z.to_nat (key_index k) = Some parent /\
    hd_Derive parent (key_branch k + change) = Some step /\ hd_Derive step 0 = Some child /\ hd_ECPubKey child = Some pub.

(** The script of a leaf: all keys sign, or the one key signs after the delay. *)
Definition leaf_script (l : Leaf) (pubs : list PubKey) (script : bytes) : Prop :=
  match lf_delay l with
  | None => closure_Script (MultisigClosure (map Some pubs)) = Some script
  | Some d => exists pub, pubs = [pub] /\
      script_Build [AddData (SerializePubKey pub); AddOp OP_CHECKSIGVERIFY; AddInt64 d; AddOp OP_CHECKSEQUENCEVERIFY] = Some script
  end.

(** The tree [t] is the list of leaves: its policy is their rendering over the
    holders' keys, its scripts are theirs with the derived keys [pubss], and its
    output commits to the scripts under the unspendable key. *)
Record realizes (internal : ExtendedKey) (holders : list Holder) (leaves : list Leaf) (change : Z) (t : LedgerRecoveryTree)
    (pubss : list (list PubKey)) : Prop := {
  rz_keys : exists kis, Forall2 (holder_key internal) holders kis /\ wp_KeysInfo (rt_WalletPolicy t) = map snd kis /\
    Forall2 (fun l pubs => Forall2 (derived_pub (map fst kis) change) (lf_keys l) pubs) leaves pubss /\
    derived_pub (map fst kis) change (Star 0) (rt_Internal t);
  rz_template : exists tree, policy_tree (map render_leaf leaves) = Some tree /\
    wp_DescriptorTemplate (rt_WalletPolicy t) = str "tr(@0/**," ++ tree ++ str ")";
  rz_scripts : length (rt_Scripts t) = length leaves /\
    Forall2 (fun (lp : Leaf * list PubKey) s => leaf_script (fst lp) (snd lp) s) (zip leaves pubss) (rt_Scripts t);
  rz_output : taprootFromScripts (rt_Internal t) (rt_Scripts t) (lc_Network ctx) =
    Ok (tree_Address (rt_Tree t), tree_PkScript (rt_Tree t));
}.

(** ** Steps of the builder *)
Lemma hd_call_Ok {A} (o : option A) a : hd_call o = Ok a -> o = Some a.
Proof. destruct o; simpl; [by intros ->%Ok_inj|done]. Qed.

Lemma hd_child_Ok parent branch index child : hd_child parent branch index = Ok child ->
  exists step, hd_Derive parent branch = Some step /\ hd_Derive step index = Some child.
Proof. unfold hd_child. intros E. apply bind_Ok in E as (step & ?%hd_call_Ok & ?%hd_call_Ok). eauto. Qed.

(** A key derived two steps down, as a leaf key. *)
Lemma derived_intro keys change k parent child pub branch : keys !! Z.to_nat (key_index k) = Some parent ->
  key_branch k + change = branch -> hd_child parent branch 0 = Ok child -> ec_pub child = Ok pub -> derived_pub keys change k pub.
Proof.
  intros Hk <- (step & ? & ?)%hd_child_Ok ?%hd_call_Ok. exists parent, step, child. done.
Qed.

Lemma savings_pub_Ok parent branch pub : savings_pub parent branch = Ok pub ->
  exists p child, parent = Some p /\ hd_child p branch 0 = Ok child /\ ec_pub child = Ok pub.
Proof.
  unfold savings_pub, LedgerSavingsChild. intros E. apply bind_Ok in E as (child & E & Ep). destruct parent as [p|]; [|done].
  apply bind_Ok in E as ([] & Ef & E). apply fail_if_Ok in Ef. bool_hyps. exists p, child. subst. done.
Qed.

Lemma recovery_user_Ok accounts use role pub branch : recovery_branch use = Some branch ->
  recovery_user accounts use role = Ok pub ->
  exists p child, account_key accounts role = Some p /\ hd_child p branch 0 = Ok child /\ ec_pub child = Ok pub.
Proof.
  unfold recovery_user, LedgerRecoveryChild. intros Hb E. apply bind_Ok in E as (child & E & Ep). rewrite Hb in E.
  destruct (account_key accounts role) as [p|]; [|done]. by exists p, child.
Qed.

Lemma guardian_child_Ok parent branch child : ledgerGuardianChild ctx (Some parent) branch = Ok child ->
  hd_child parent branch 0 = Ok child.
Proof.
  unfold ledgerGuardianChild. intros E. apply bind_Ok in E as (? & _ & E). apply bind_Ok in E as (? & _ & E).
  by apply bind_Ok in E as ([] & _ & E).
Qed.

Lemma initiate_child_Ok parent claimant change child : LedgerGuardianInitiateChild ctx (Some parent) claimant change = Ok child ->
  hd_child parent (initiate_base claimant + change) 0 = Ok child.
Proof.
  unfold LedgerGuardianInitiateChild, LedgerGuardianInitiateBranch. intros E. apply bind_Ok in E as (b & Eb & E).
  apply bind_Ok in Eb as (? & _ & Eb). apply bind_Ok in Eb as ([] & _ & Eb). apply Ok_inj in Eb as <-.
  by apply guardian_child_Ok in E.
Qed.

Lemma clawback_child_Ok parent claimant g child : LedgerGuardianClawbackChild ctx (Some parent) claimant g = Ok child ->
  hd_child parent (clawback_base claimant g) 0 = Ok child.
Proof.
  unfold LedgerGuardianClawbackChild, LedgerGuardianClawbackBranch. intros E. apply bind_Ok in E as (b & Eb & E).
  apply bind_Ok in Eb as (? & _ & Eb). apply bind_Ok in Eb as ([] & _ & Eb). apply Ok_inj in Eb as <-.
  by apply guardian_child_Ok in E.
Qed.

Lemma policy_Ok name leaves keys p : ledgerRecoveryPolicy name leaves keys = Ok p ->
  exists tree, policy_tree leaves = Some tree /\ wp_DescriptorTemplate p = str "tr(@0/**," ++ tree ++ str ")" /\
    wp_KeysInfo p = keys /\ wp_Name p = name.
Proof.
  unfold ledgerRecoveryPolicy. destruct (policy_tree leaves) as [tree|]; [|done]. intros E.
  apply bind_Ok in E as ([] & _ & E). apply Ok_inj in E as <-. by exists tree.
Qed.

Lemma recovery_tree_Ok parent scripts policy t : ledgerRecoveryTree parent scripts (lc_Network ctx) policy = Ok t ->
  rt_WalletPolicy t = policy /\ rt_Scripts t = scripts /\
  taprootFromScripts (rt_Internal t) scripts (lc_Network ctx) = Ok (tree_Address (rt_Tree t), tree_PkScript (rt_Tree t)) /\
  exists child, hd_child parent 0 0 = Ok child /\ ec_pub child = Ok (rt_Internal t).
Proof.
  unfold ledgerRecoveryTree, LedgerSavingsChild. intros E. apply bind_Ok in E as (child & Ec & E).
  apply bind_Ok in Ec as ([] & _ & Ec). apply bind_Ok in E as (pub & Ep & E). apply bind_Ok in E as ([a s] & Et & E).
  apply Ok_inj in E as <-. by split_and!; [..|exists child].
Qed.
End Realizes.

(** ** The builder makes the trees of the leaves *)
Section Builder.
Context `{Btc} `{Secp} `{ArkScript} `{Addresses} `{Hd} `{Txscript}.
Variable ctx : LedgerSavingsKeyContext.

Lemma checksig_Ok pubs s : checksig pubs = Ok s -> closure_Script (MultisigClosure (map Some pubs)) = Some s.
Proof. apply encoded_Ok. Qed.

Lemma load_accounts_Ok accounts : load_accounts ctx = Ok accounts ->
  Forall2 (fun role a => fst a = role /\ forall internal, holder_key ctx internal (User role) (snd a))
    (familyClaimants (has_recovery ctx)) accounts.
Proof.
  unfold load_accounts. rewrite collect_Ok. intros E. eapply Forall2_impl; [exact E|]. intros role a Ea.
  unfold load_account in Ea. apply bind_Ok in Ea as (key & Ek & Ea). apply bind_Ok in Ea as (e & Ee & Ea).
  apply Ok_inj in Ea as <-. split; [done|]. intros internal. by split.
Qed.

(** The accounts of the claimants, one by one. *)
Lemma load_accounts_get accounts role : load_accounts ctx = Ok accounts -> role ∈ familyClaimants (has_recovery ctx) ->
  exists key, account_key accounts role = Some key /\
    forall internal, holder_key ctx internal (User role) (key, account_expression accounts role).
Proof.
  intros E%load_accounts_Ok Hin. revert Hin. unfold account_key, account_expression, role_get.
  induction E as [|r a roles l [<- Ha] _ IH]; [by intros ?%elem_of_nil|]. simpl. intros [->|Hin]%elem_of_cons.
  - rewrite bool_decide_eq_true_2 by done. destruct a as [r [key e]]. exists key. split; [done|]. exact Ha.
  - case_bool_decide as Er; [|by apply IH]. subst role. destruct a as [r [key e]]. exists key. split; [done|]. exact Ha.
Qed.

Lemma initiate_script_Ok accounts guardian change c leaf pubs keys :
  keys !! Z.to_nat (key_index (initiate_key c)) = account_key accounts c -> keys !! 3%nat = Some guardian ->
  initiate_script ctx accounts guardian change c = Ok (leaf, pubs) ->
  Forall2 (derived_pub keys change) [initiate_key c; Pair 3 (initiate_base c)] pubs /\
  closure_Script (MultisigClosure (map Some pubs)) = Some leaf.
Proof.
  unfold initiate_script. intros Hc Hg E. apply bind_Ok in E as (user & Eu & E). apply bind_Ok in E as (gc & Eg & E).
  apply bind_Ok in E as (g & Eg' & E). apply bind_Ok in E as (s & Es & E). apply Ok_inj, pair_equal_spec in E as [<- <-].
  apply initiate_child_Ok in Eg. apply savings_pub_Ok in Eu as (p & child & Ep & Ec & Eu). apply checksig_Ok in Es.
  split; [|done]. repeat constructor.
  - eapply derived_intro; [by rewrite Hc| |exact Ec|exact Eu]. unfold initiate_key.
    destruct (bool_decide_reflect (c = role_hardware)) as [->|]; [done|]. by case_bool_decide.
  - by eapply derived_intro; [exact Hg| |exact Eg|exact Eg'].
Qed.

Definition savings_kis (accounts : list (bytes * (ExtendedKey * bytes))) (internal guardian phone hardware : ExtendedKey)
    (recovery : list ExtendedKey) : list (ExtendedKey * bytes) :=
  [(internal, hd_String internal); (phone, account_expression accounts role_phone);
   (hardware, account_expression accounts role_hardware); (guardian, hd_String guardian)]
  ++ map (fun r => (r, account_expression accounts role_recovery)) recovery.

(** The keys of the main policy, in their order. *)
Lemma savings_keys_Ok accounts internal guardian :
  load_accounts ctx = Ok accounts -> LedgerSavingsGuardianParent ctx = Ok guardian ->
  exists phone hardware recovery, let kis := savings_kis accounts internal guardian phone hardware recovery in
    Forall2 (holder_key ctx internal) (savings_holders ctx) kis /\
    map snd kis = [hd_String internal; account_expression accounts role_phone; account_expression accounts role_hardware;
        hd_String guardian] ++ (if has_recovery ctx then [account_expression accounts role_recovery] else []) /\
    account_key accounts role_phone = Some phone /\ account_key accounts role_hardware = Some hardware /\
    Forall (fun c => map fst kis !! Z.to_nat (key_index (initiate_key c)) = account_key accounts c)
      (familyClaimants (has_recovery ctx)).
Proof.
  intros Ea Eg. pose proof (load_accounts_get accounts role_phone Ea) as Hp.
  pose proof (load_accounts_get accounts role_hardware Ea) as Hh. pose proof (load_accounts_get accounts role_recovery Ea) as Hr.
  unfold savings_holders. unfold familyClaimants in *. destruct (has_recovery ctx).
  - destruct Hp as (p & Ep & Hp); [set_solver|]. destruct Hh as (h & Eh & Hh); [set_solver|].
    destruct Hr as (r & Er & Hr); [set_solver|]. exists p, h, [r]. unfold savings_kis. simpl app. simpl map.
    split_and!; try done; [|repeat (constructor; [by simpl|]); constructor].
    repeat (apply Forall2_cons_2; [first [apply Hp|apply Hh|apply Hr|done|by split]|]). constructor.
  - destruct Hp as (p & Ep & Hp); [set_solver|]. destruct Hh as (h & Eh & Hh); [set_solver|].
    exists p, h, []. unfold savings_kis. simpl app. simpl map.
    split_and!; try done; [|repeat (constructor; [by simpl|]); constructor].
    repeat (apply Forall2_cons_2; [first [apply Hp|apply Hh|done|by split]|]). constructor.
Qed.

Lemma distinct_role_set_Ok seen pubs : distinct_role_set seen (map Some pubs) = Ok tt ->
  NoDup (map SerializePubKey pubs) /\ Forall (fun p => SerializePubKey p ∉ seen /\ forbiddenXOnly (SerializePubKey p) = false) pubs.
Proof.
  revert seen. induction pubs as [|p pubs IH]; intros seen E; simpl in E; [by split; constructor|].
  apply bind_Ok in E as ([] & Ed & E). apply bind_Ok in E as ([] & Ef & E). apply fail_if_Ok in Ed, Ef.
  apply IH in E as [Hn Hf]. assert (SerializePubKey p ∉ seen) as Hp.
  { intros Hin. apply (existsb_none _ _ _ Ed) in Hin. by rewrite bool_decide_eq_true_2 in Hin. }
  split; [simpl; constructor; [|done]|constructor; [done|]].
  - intros (q & Eq & Hq)%list_elem_of_fmap. rewrite Forall_forall in Hf. destruct (Hf q Hq) as [Hn' _]. set_solver.
  - eapply Forall_impl; [exact Hf|]. intros q [Hq ?]. set_solver.
Qed.

Lemma savings_tree_Ok accounts internal guardian phone hardware recovery policy change t :
  let kis := savings_kis accounts internal guardian phone hardware recovery in
  Forall2 (holder_key ctx internal) (savings_holders ctx) kis ->
  account_key accounts role_phone = Some phone -> account_key accounts role_hardware = Some hardware ->
  Forall (fun c => map fst kis !! Z.to_nat (key_index (initiate_key c)) = account_key accounts c)
    (familyClaimants (has_recovery ctx)) ->
  wp_KeysInfo policy = map snd kis ->
  (exists tree, policy_tree (map render_leaf (savings_leaves ctx)) = Some tree /\
    wp_DescriptorTemplate policy = str "tr(@0/**," ++ tree ++ str ")") ->
  savings_tree ctx accounts internal guardian policy change = Ok t ->
  rt_WalletPolicy t = policy /\
  exists pubss, realizes ctx internal (savings_holders ctx) (savings_leaves ctx) change t pubss /\
    NoDup (map SerializePubKey (concat pubss)) /\
    Forall (fun p => forbiddenXOnly (SerializePubKey p) = false) (concat pubss).
Proof.
  intros kis Hk Ep Eh Hc Hi Ht E. unfold savings_tree in E. apply bind_Ok in E as (pp & Epp & E).
  apply bind_Ok in E as (hp & Ehp & E). apply bind_Ok in E as (ip & Eip & E). apply bind_Ok in E as (admin & Ead & E).
  apply bind_Ok in E as (leaves & El & E). apply bind_Ok in E as ([] & Ed & E). apply bind_Ok in E as ([a s] & Et & E).
  apply Ok_inj in E as <-. split; [done|]. apply distinct_role_set_Ok in Ed as [Hn Hf].
  apply savings_pub_Ok in Epp as (? & pc & Epp & Epc & Epp'). apply savings_pub_Ok in Ehp as (? & hc & Ehp & Ehc & Ehp').
  apply savings_pub_Ok in Eip as (? & ic & Eip & Eic & Eip'). rewrite Ep in Epp. rewrite Eh in Ehp. injection Epp as <-.
  injection Ehp as <-. injection Eip as <-. apply checksig_Ok in Ead. apply collect_Ok in El.
  assert (Forall2 (fun c (lp : bytes * list PubKey) =>
    Forall2 (derived_pub (map fst kis) change) [initiate_key c; Pair 3 (initiate_base c)] (snd lp) /\
    closure_Script (MultisigClosure (map Some (snd lp))) = Some (fst lp)) (familyClaimants (has_recovery ctx)) leaves) as Hl.
  { revert Hc. clear -El kis. induction El as [|c [leaf pubs] cs ls Ec _ IH]; [by constructor|].
    intros [Hc Hcs]%Forall_cons. constructor; [|by apply IH].
    exact (initiate_script_Ok accounts guardian change c leaf pubs (map fst kis) Hc eq_refl Ec). }
  exists ([pp; hp] :: map snd leaves). split; [|split; [done|eapply Forall_impl; [exact Hf|]; by intros ? [? ?]]]. split; simpl.
  - exists kis. split; [done|]. split; [done|]. split.
    + constructor; [repeat constructor; by eapply derived_intro|]. clear -Hl.
      induction Hl as [|c lp cs ls [Hd _] _ IH]; simpl; [constructor|]. by constructor.
    + by eapply derived_intro.
  - done.
  - split; [f_equal; rewrite !length_map; symmetry; by eapply Forall2_length|]. constructor; [done|]. clear -Hl.
    induction Hl as [|c lp cs ls [_ Hs] _ IH]; simpl; [constructor|]. by constructor.
  - done.
Qed.
End Builder.

(** ** The recovery trees *)
Section RecoveryBuilder.
Context `{Btc} `{Secp} `{ArkScript} `{Addresses} `{Hd} `{Txscript}.
Variable ctx : LedgerSavingsKeyContext.
Variable accounts : list (bytes * (ExtendedKey * bytes)).
Hypothesis Haccounts : load_accounts ctx = Ok accounts.

Lemma role_index_get roles role i : role ∈ roles ->
  exists n, role_index roles role i = i + Z.of_nat n /\ roles !! n = Some role.
Proof.
  revert i. induction roles as [|r roles IH]; intros i Hin; [by apply elem_of_nil in Hin|]. simpl.
  case_bool_decide as Er; [exists 0%nat; subst; split; [lia|done]|].
  apply elem_of_cons in Hin as [->|Hin]; [done|]. destruct (IH (i + 1) Hin) as (n & -> & Hn). exists (S n). split; [lia|done].
Qed.

(** The key list entries of users, with a key for those that have none. *)
Definition user_kis (d : ExtendedKey) (roles : list bytes) : list (ExtendedKey * bytes) :=
  map (fun r => (default d (account_key accounts r), account_expression accounts r)) roles.

Lemma user_kis_holders internal d roles : (forall r, r ∈ roles -> r ∈ familyClaimants (has_recovery ctx)) ->
  Forall2 (holder_key ctx internal) (map User roles) (user_kis d roles).
Proof.
  induction roles as [|r roles IH]; intros Hin; simpl; [constructor|]. constructor; [|apply IH; set_solver].
  destruct (load_accounts_get ctx accounts r Haccounts) as (key & -> & Hh); [set_solver|]. apply Hh.
Qed.

Lemma user_kis_snd d roles : map snd (user_kis d roles) = map (account_expression accounts) roles.
Proof. unfold user_kis. by rewrite map_map. Qed.

Lemma user_key_get internal d roles rest role : role ∈ roles -> role ∈ familyClaimants (has_recovery ctx) ->
  (internal :: map fst (user_kis d roles) ++ rest) !! Z.to_nat (role_index roles role 1) = account_key accounts role.
Proof.
  intros Hin Hc. destruct (role_index_get roles role 1 Hin) as (n & -> & Hn).
  replace (Z.to_nat (1 + Z.of_nat n)) with (S n) by lia. simpl. rewrite lookup_app_l.
  - unfold user_kis. rewrite map_map, list_lookup_fmap, Hn. simpl.
    by destruct (load_accounts_get ctx accounts role Haccounts Hc) as (key & -> & _).
  - unfold user_kis. rewrite !length_map. by eapply lookup_lt_Some.
Qed.

(** The keys that users derive for one use. *)
Lemma users_derived keys use branch roles pubs (f : bytes -> LeafKey) : recovery_branch use = Some branch ->
  (forall g, g ∈ roles -> keys !! Z.to_nat (key_index (f g)) = account_key accounts g /\ key_branch (f g) = branch) ->
  collect (recovery_user accounts use) roles = Ok pubs -> Forall2 (derived_pub keys 0) (map f roles) pubs.
Proof.
  intros Hb Hf Hc%collect_Ok. revert Hf. induction Hc as [|g pub roles pubs Hg _ IH]; intros Hf; simpl; [constructor|].
  constructor; [|apply IH; intros; apply Hf; by right]. destruct (Hf g) as [Hk Hbr]; [by left|].
  destruct (recovery_user_Ok accounts use g pub branch Hb Hg) as (p & child & Ep & Ec & Epub).
  by eapply derived_intro; [by rewrite Hk|rewrite Z.add_0_r| |].
Qed.

Lemma guardians_claimants claimant g : claimant ∈ familyClaimants (has_recovery ctx) ->
  g ∈ quarantineGuardians claimant (has_recovery ctx) -> g ∈ familyClaimants (has_recovery ctx) /\ g <> claimant.
Proof.
  unfold familyClaimants, quarantineGuardians. destruct (has_recovery ctx); rewrite !elem_of_cons, elem_of_nil; intros Hc;
    repeat (destruct Hc as [->|Hc]; [simpl; rewrite !elem_of_cons, elem_of_nil; intros Hg;
      repeat (destruct Hg as [->|Hg]; [split; [tauto|done]|]); done|]); done.
Qed.

Lemma quarantine_template claimant : claimant ∈ familyClaimants (has_recovery ctx) ->
  let guardians := quarantineGuardians claimant (has_recovery ctx) in
  [ledgerAnd (imap (fun i _ => policy_key (Z.of_nat i + 1) 10 11) guardians)] = map render_leaf (quarantine_leaves guardians).
Proof.
  unfold familyClaimants. destruct (has_recovery ctx); rewrite !elem_of_cons, elem_of_nil; intros Hc;
    repeat (destruct Hc as [->|Hc]; [vm_compute; reflexivity|]); done.
Qed.

Lemma quarantine_tree_Ok claimant t : claimant ∈ familyClaimants (has_recovery ctx) ->
  let guardians := quarantineGuardians claimant (has_recovery ctx) in
  quarantine_tree ctx accounts claimant guardians = Ok t ->
  exists internal pubss, LedgerRecoveryInternalParent ctx claimant (str "quarantine") = Ok internal /\
    realizes ctx internal (quarantine_holders guardians) (quarantine_leaves guardians) 0 t pubss.
Proof.
  intros Hc guardians E. unfold quarantine_tree in E. apply bind_Ok in E as (internal & Ei & E).
  apply bind_Ok in E as (pubs & Ep & E). apply bind_Ok in E as (s & Es & E). apply bind_Ok in E as (policy & Epol & E).
  apply recovery_tree_Ok in E as (Hw & Hs & Ho & child & Ec & Eint). apply policy_Ok in Epol as (tree & Et & Etm & Ek & _).
  pose proof (quarantine_template claimant Hc) as Hq. cbv zeta in Hq. fold guardians in Hq. rewrite Hq in Et. apply checksig_Ok in Es.
  exists internal, [pubs]. split; [done|]. split.
  - exists ((internal, hd_String internal) :: user_kis internal guardians). split_and!.
    + constructor; [done|]. apply user_kis_holders. intros g Hg. by eapply guardians_claimants.
    + by rewrite Hw, Ek; cbn [map snd]; rewrite user_kis_snd.
    + constructor; [|constructor]. eapply (users_derived _ (str "quarantine")); [reflexivity| |done].
      intros g Hg. split; [|done]. simpl map. rewrite <-(app_nil_r (map fst _)). apply user_key_get; [done|].
      by eapply guardians_claimants.
    + by eapply derived_intro.
  - exists tree. by rewrite Hw.
  - rewrite Hs. split; [done|]. constructor; [exact Es|constructor].
  - by rewrite Hs.
Qed.

Lemma pending_template claimant : claimant ∈ familyClaimants (has_recovery ctx) ->
  let claimants := familyClaimants (has_recovery ctx) in let guardians := quarantineGuardians claimant (has_recovery ctx) in
  let index := fun role => role_index claimants role 1 in
  claim_leaf (index claimant) (pendingDelay claimant)
  :: map (fun g => ledgerAnd [policy_key (index g) 6 7; policy_key (Z.of_nat (S (length claimants))) (clawback_base claimant g)
                                (clawback_base claimant g + 1)]) guardians
  ++ [ledgerAnd (map (fun g => policy_key (index g) 8 9) guardians)]
  = map render_leaf (pending_leaves claimants claimant guardians).
Proof.
  unfold familyClaimants. destruct (has_recovery ctx); rewrite !elem_of_cons, elem_of_nil; intros Hc;
    repeat (destruct Hc as [->|Hc]; [vm_compute; reflexivity|]); done.
Qed.

Lemma clawback_leaf_Ok keys guardianParent index gi claimant g script leaf :
  keys !! Z.to_nat (index g) = account_key accounts g -> keys !! Z.to_nat gi = Some guardianParent ->
  clawback_leaf ctx accounts guardianParent index gi claimant g = Ok (script, leaf) ->
  leaf = ledgerAnd [policy_key (index g) 6 7; policy_key gi (clawback_base claimant g) (clawback_base claimant g + 1)] /\
  exists pubs, Forall2 (derived_pub keys 0) [Pair (index g) 6; Pair gi (clawback_base claimant g)] pubs /\
    closure_Script (MultisigClosure (map Some pubs)) = Some script /\ NoDup (map SerializePubKey pubs).
Proof.
  unfold clawback_leaf. intros Hg Hgi E. apply bind_Ok in E as (user & Eu & E). apply bind_Ok in E as (child & Ec & E).
  apply bind_Ok in E as (gp & Egp & E). apply bind_Ok in E as ([] & Ed & E). apply bind_Ok in E as (s & Es & E).
  apply bind_Ok in E as (b & Eb & E). apply Ok_inj, pair_equal_spec in E as [<- <-].
  unfold LedgerGuardianClawbackBranch in Eb. apply bind_Ok in Eb as (? & _ & Eb). apply bind_Ok in Eb as ([] & _ & Eb).
  apply Ok_inj in Eb as <-. split; [done|]. exists [user; gp]. apply clawback_child_Ok in Ec. apply checksig_Ok in Es.
  destruct (recovery_user_Ok accounts (str "clawback") g user 6 eq_refl Eu) as (p & uc & Ep & Euc & Eup).
  split; [|split; [done|]].
  - constructor; [by eapply derived_intro; [simpl; rewrite Hg| |..]|]. constructor; [|constructor].
    eapply derived_intro; [exact Hgi|apply Z.add_0_r|exact Ec|exact Egp].
  - by apply (distinct_role_set_Ok [] [user; gp]) in Ed as [? _].
Qed.

Lemma clawbacks_Ok keys guardianParent index gi claimant guardians clawbacks :
  (forall g, g ∈ guardians -> keys !! Z.to_nat (index g) = account_key accounts g) -> keys !! Z.to_nat gi = Some guardianParent ->
  collect (clawback_leaf ctx accounts guardianParent index gi claimant) guardians = Ok clawbacks ->
  map snd clawbacks = map (fun g => ledgerAnd [policy_key (index g) 6 7;
    policy_key gi (clawback_base claimant g) (clawback_base claimant g + 1)]) guardians /\
  exists pubss, Forall2 (fun l pubs => Forall2 (derived_pub keys 0) (lf_keys l) pubs)
      (map (fun g => {| lf_keys := [Pair (index g) 6; Pair gi (clawback_base claimant g)]; lf_delay := None |}) guardians) pubss /\
    Forall2 (fun pubs s => closure_Script (MultisigClosure (map Some pubs)) = Some s) pubss (map fst clawbacks) /\
    Forall (fun pubs => NoDup (map SerializePubKey pubs)) pubss.
Proof.
  intros Hk Hgi Hc%collect_Ok. revert Hk. induction Hc as [|g [s leaf] gs cs Hg _ IH]; intros Hk; simpl.
  { split; [done|]. exists []. by repeat constructor. }
  destruct IH as [Hm (pubss & Hp & Hs & Hn)]; [intros; apply Hk; by right|].
  destruct (clawback_leaf_Ok keys guardianParent index gi claimant g s leaf (Hk g ltac:(by left)) Hgi Hg) as (-> & pubs & Hd & Hsc & Hnd).
  split; [by f_equal|]. exists (pubs :: pubss). by repeat (split || constructor).
Qed.

(** Leaves that open at once. *)
Lemma multisig_leaves leaves pubss scripts : Forall (fun l => lf_delay l = None) leaves -> length leaves = length pubss ->
  Forall2 (fun pubs s => closure_Script (MultisigClosure (map Some pubs)) = Some s) pubss scripts ->
  Forall2 (fun (lp : Leaf * list PubKey) s => leaf_script (fst lp) (snd lp) s) (zip leaves pubss) scripts.
Proof.
  intros Hl Hlen Hs. revert leaves Hl Hlen. induction Hs as [|pubs s pubss scripts Hs _ IH]; intros [|l leaves] Hl Hlen; try done.
  apply Forall_cons in Hl as [Hd Hl]. simpl. constructor; [|apply IH; [done|by injection Hlen]].
  unfold leaf_script. simpl. by rewrite Hd.
Qed.

Lemma pending_tree_Ok guardianParent claimant t : claimant ∈ familyClaimants (has_recovery ctx) ->
  LedgerSavingsGuardianParent ctx = Ok guardianParent ->
  let claimants := familyClaimants (has_recovery ctx) in let guardians := quarantineGuardians claimant (has_recovery ctx) in
  pending_tree ctx accounts guardianParent claimant guardians = Ok t ->
  exists internal pubss, LedgerRecoveryInternalParent ctx claimant (str "pending") = Ok internal /\
    realizes ctx internal (pending_holders claimants) (pending_leaves claimants claimant guardians) 0 t pubss.
Proof.
  intros Hc Hg claimants guardians E. unfold pending_tree in E. fold claimants in E.
  apply bind_Ok in E as (internal & Ei & E). apply bind_Ok in E as (cp & Ecp & E). apply bind_Ok in E as (claim & Ecl & E).
  apply bind_Ok in E as (clawbacks & Eclaw & E). apply bind_Ok in E as (xp & Exp & E). apply bind_Ok in E as (cancel & Exs & E).
  apply bind_Ok in E as (policy & Epol & E). apply recovery_tree_Ok in E as (Hw & Hs & Ho & child & Ec & Eint).
  apply policy_Ok in Epol as (tree & Et & Etm & Ek & _). apply checksig_Ok in Exs. apply encoded_Ok in Ecl.
  set (kis := (internal, hd_String internal) :: user_kis internal claimants ++ [(guardianParent, hd_String guardianParent)]).
  assert (forall g, g ∈ claimants -> map fst kis !! Z.to_nat (role_index claimants g 1) = account_key accounts g) as Hk.
  { intros g Hin. unfold kis. simpl map. rewrite map_app. by apply user_key_get. }
  assert (forall g, g ∈ guardians -> g ∈ claimants) as Hgc by (intros g Hin; by eapply guardians_claimants).
  assert (map fst kis !! Z.to_nat (Z.of_nat (S (length claimants))) = Some guardianParent) as Hgi.
  { unfold kis, user_kis. rewrite Nat2Z.id. simpl. by rewrite map_app, map_map, lookup_app_r, length_map, Nat.sub_diag
      by (by rewrite length_map). }
  simpl length in Eclaw. rewrite length_map in Eclaw.
  apply (clawbacks_Ok (map fst kis)) in Eclaw as (Hm & pubss & Hpd & Hps & _); [|by auto|done].
  pose proof (pending_template claimant Hc) as Hq. cbv zeta in Hq. fold claimants guardians in Hq.
  rewrite Hm, Hq in Et.
  assert (Forall2 (derived_pub (map fst kis) 0) (map (fun g => Pair (role_index claimants g 1) 8) guardians) xp) as Hx.
  { apply (users_derived _ (str "cancel") 8 guardians); [reflexivity| |done]. intros g Hin. split; [apply Hk; by auto|done]. }
  destruct (recovery_user_Ok accounts (str "claim") claimant cp 4 eq_refl Ecp) as (p & cc & Ep & Ecc & Ecpub).
  exists internal, ([cp] :: pubss ++ [xp]). split; [done|]. split.
  - exists kis. split_and!.
    + constructor; [done|]. apply Forall2_app; [by apply user_kis_holders|]. constructor; [done|constructor].
    + rewrite Hw, Ek. unfold kis. cbn [map snd]. by rewrite map_app, user_kis_snd.
    + constructor; [constructor; [|constructor]|apply Forall2_app; [done|constructor; [done|constructor]]].
      eapply derived_intro; [exact (eq_trans (Hk claimant Hc) Ep)| |exact Ecc|exact Ecpub]. done.
    + by eapply derived_intro.
  - exists tree. by rewrite Hw.
  - rewrite Hs. unfold pending_leaves. split.
    { simpl. rewrite !length_app, !length_map. simpl. do 2 f_equal. apply (f_equal length) in Hm. by rewrite !length_map in Hm. }
    cbn [zip zip_with]. constructor; [by exists cp|]. apply multisig_leaves.
    + apply Forall_app. split; [|by repeat constructor]. apply Forall_map, Forall_true. done.
    + rewrite !length_app, <-(Forall2_length _ _ _ Hpd). done.
    + apply Forall2_app; [done|]. by repeat constructor.
  - by rewrite Hs.
Qed.
End RecoveryBuilder.

(** ** The contract *)
Section Contract.
Context `{Btc} `{Secp} `{ArkScript} `{Addresses} `{Hd} `{Txscript}.

Lemma initiate_leaf_Ok ctx c leaf : c ∈ familyClaimants (has_recovery ctx) -> initiate_leaf ctx c = Ok leaf ->
  leaf = render_leaf {| lf_keys := [initiate_key c; Pair 3 (initiate_base c)]; lf_delay := None |}.
Proof.
  unfold initiate_leaf, LedgerGuardianInitiateBranch. intros Hc E. apply bind_Ok in E as (b & Eb & E). apply Ok_inj in E as <-.
  apply bind_Ok in Eb as (? & _ & Eb). apply bind_Ok in Eb as ([] & _ & Eb). apply Ok_inj in Eb as <-. rewrite Z.add_0_r.
  revert Hc. unfold familyClaimants. destruct (has_recovery ctx); rewrite !elem_of_cons, elem_of_nil; intros Hc;
    repeat (destruct Hc as [->|Hc]; [vm_compute; reflexivity|]); done.
Qed.

Lemma savings_template ctx initiate : collect (initiate_leaf ctx) (familyClaimants (has_recovery ctx)) = Ok initiate ->
  ledgerAnd [str "@1/**"; str "@2/**"] :: initiate = map render_leaf (savings_leaves ctx).
Proof.
  intros Hc%collect_Ok. unfold savings_leaves. rewrite map_cons. f_equal.
  assert (forall l, l ⊆ familyClaimants (has_recovery ctx) -> forall i, Forall2 (fun x y => initiate_leaf ctx x = Ok y) l i ->
    i = map render_leaf (map (fun c => {| lf_keys := [initiate_key c; Pair 3 (initiate_base c)]; lf_delay := None |}) l)) as Hg.
  { intros l Hl i Hi. induction Hi as [|c leaf cs ls Ec _ IH]; [done|]. simpl. f_equal; [|apply IH; set_solver].
    apply (initiate_leaf_Ok ctx c); [set_solver|done]. }
  by apply Hg.
Qed.

(** Who opens a leaf of a Savings address: the phone and the hardware wallet
    together, or one user with the Guardian. *)
Definition two_party (ctx : LedgerSavingsKeyContext) (l : Leaf) : Prop :=
  lf_delay l = None /\
  (leaf_holders (savings_holders ctx) l = [Some (User role_phone); Some (User role_hardware)] \/
   Exists (fun c => leaf_holders (savings_holders ctx) l = [Some (User c); Some Guardian]) (familyClaimants (has_recovery ctx))).

Lemma savings_leaves_two_party ctx : Forall (two_party ctx) (savings_leaves ctx).
Proof.
  unfold two_party, savings_leaves, savings_holders, familyClaimants.
  destruct (has_recovery ctx); apply (bool_decide_unpack _); vm_compute; exact I.
Qed.

(** The points whose discrete logarithm is public, or provably unknown: the
    generator of secp256k1, its double, and the unspendable point. *)
Definition public_point (x : bytes) : Prop :=
  x = numsXOnly \/ exists raw pub, parseCompressed raw = Ok pub /\ x = SerializePubKey pub /\
    (raw = str "0279be667ef9dcbbac55a06295ce870b07029bfcdb2dce28d959f2815b16f81798" \/
     raw = str "02c6047f9441ed7d6d3045406e95c07cd85c778e4b8cef3ca7abac09b95c709ee5").

Lemma not_public x : forbiddenXOnly x = false -> ~ public_point x.
Proof.
  unfold forbiddenXOnly. intros E [->|(raw & pub & Ep & -> & Hr)].
  - by rewrite bool_decide_eq_true_2 in E.
  - apply orb_false_iff in E as [E E2]. apply orb_false_iff in E as [_ E1].
    destruct Hr as [->| ->]; [rewrite Ep, bool_decide_eq_true_2 in E1|rewrite Ep, bool_decide_eq_true_2 in E2]; done.
Qed.

(** The internal key of a contract descends from the unspendable point, with a
    chain code that hashes the contract's digest. *)
Definition unspendable_root (ctx : LedgerSavingsKeyContext) (internal : ExtendedKey) : Prop :=
  exists params digest, networkParams (lc_Network ctx) = Ok params /\ LedgerSavingsContextDigest ctx = Ok digest /\
    internal = contract_root params (byte_of_Z 2 :: numsXOnly) (ledgerTagged "/internal" [digest]).

Lemma internal_unspendable ctx internal : LedgerSavingsInternalParent ctx = Ok internal -> unspendable_root ctx internal.
Proof.
  unfold LedgerSavingsInternalParent. intros E. apply bind_Ok in E as (digest & Ed & E). apply bind_Ok in E as (params & Ep & E).
  apply Ok_inj in E as <-. by exists params, digest.
Qed.

(** C28: A Savings contract is what its wallet policy says.  The policy that the
    user registers on the hardware wallet and the leaf scripts of the receive and
    the change address are two renderings of one list of leaves over the same
    account keys: every leaf needs the phone and the hardware wallet, or one user
    and the Guardian, so that neither the Guardian nor a single user moves the
    coins alone; the keys of an address are pairwise distinct and none is a
    public test point; the internal key is the provably unspendable one. *)
Theorem savings_descriptor_exact ctx s : BuildLedgerNativeSavings ctx = Ok s ->
  Forall (two_party ctx) (savings_leaves ctx) /\
  exists internal, LedgerSavingsInternalParent ctx = Ok internal /\ unspendable_root ctx internal /\
  forall change t, (change = 0 /\ t = ns_Receive s) \/ (change = 1 /\ t = ns_Change s) ->
  exists pubss, realizes ctx internal (savings_holders ctx) (savings_leaves ctx) change t pubss /\
    rt_WalletPolicy t = ns_WalletPolicy s /\ NoDup (map SerializePubKey (concat pubss)) /\
    Forall (fun p => forbiddenXOnly (SerializePubKey p) = false /\ ~ public_point (SerializePubKey p)) (concat pubss).
Proof.
  intros E. split; [apply savings_leaves_two_party|]. unfold BuildLedgerNativeSavings in E.
  apply bind_Ok in E as (internal & Ei & E). apply bind_Ok in E as (guardian & Eg & E).
  apply bind_Ok in E as (accounts & Ea & E). apply bind_Ok in E as (initiate & El & E).
  apply bind_Ok in E as (policy & Ep & E). apply bind_Ok in E as (receive & Er & E). apply bind_Ok in E as (chg & Ec & E).
  apply Ok_inj in E as <-. exists internal. split; [done|]. split; [by apply internal_unspendable|]. apply savings_template in El. rewrite El in Ep.
  apply policy_Ok in Ep as (tree & Et & Etm & Ek & _).
  destruct (savings_keys_Ok ctx accounts internal guardian Ea Eg) as (phone & hardware & recovery & Hh & Hs & Eph & Ehw & Hc).
  assert (forall change t, savings_tree ctx accounts internal guardian policy change = Ok t ->
    rt_WalletPolicy t = policy /\ exists pubss, realizes ctx internal (savings_holders ctx) (savings_leaves ctx) change t pubss /\
      NoDup (map SerializePubKey (concat pubss)) /\ Forall (fun p => forbiddenXOnly (SerializePubKey p) = false) (concat pubss)) as Ht.
  { intros change t. eapply (savings_tree_Ok ctx accounts internal guardian phone hardware recovery policy change t); try done.
    - by rewrite Hs, Ek.
    - by exists tree. }
  intros change t [[-> ->]|[-> ->]]; simpl.
  - destruct (Ht 0 receive Er) as (Hw & pubss & Hr & Hn & Hf). exists pubss. split_and!; try done.
    eapply Forall_impl; [exact Hf|]. intros p Hp. split; [exact Hp|by apply not_public].
  - destruct (Ht 1 chg Ec) as (Hw & pubss & Hr & Hn & Hf). exists pubss. split_and!; try done.
    eapply Forall_impl; [exact Hf|]. intros p Hp. split; [exact Hp|by apply not_public].
Qed.

(** A recovery that is pending: the claimant waits; whatever opens at once needs
    another user, and never the claimant. *)
Definition pending_leaf (ctx : LedgerSavingsKeyContext) (claimant : bytes) (l : Leaf) : Prop :=
  let holders := pending_holders (familyClaimants (has_recovery ctx)) in
  let guardians := quarantineGuardians claimant (has_recovery ctx) in
  (lf_delay l = Some (pendingDelay claimant) /\ leaf_holders holders l = [Some (User claimant)]) \/
  (lf_delay l = None /\ Exists (fun g => leaf_holders holders l = [Some (User g); Some Guardian]) guardians) \/
  (lf_delay l = None /\ leaf_holders holders l = map (fun g => Some (User g)) guardians).

Lemma pending_leaves_safe ctx claimant : claimant ∈ familyClaimants (has_recovery ctx) ->
  let guardians := quarantineGuardians claimant (has_recovery ctx) in
  claimant ∉ guardians /\ 0 < pendingDelay claimant /\
  Forall (pending_leaf ctx claimant) (pending_leaves (familyClaimants (has_recovery ctx)) claimant guardians) /\
  Forall (fun l => lf_delay l = None /\ leaf_holders (quarantine_holders guardians) l = map (fun g => Some (User g)) guardians)
    (quarantine_leaves guardians).
Proof.
  unfold pending_leaf, familyClaimants. destruct (has_recovery ctx); rewrite !elem_of_cons, elem_of_nil; intros Hc;
    repeat (destruct Hc as [->|Hc]; [apply (bool_decide_unpack _); vm_compute; exact I|]); done.
Qed.

(** The two addresses of a recovery, leaf by leaf: the delay and who signs. *)
Definition leaf_spec (holders : list Holder) (l : Leaf) : option Z * list (option Holder) := (lf_delay l, leaf_holders holders l).

Definition recovery_leaves_are (ctx : LedgerSavingsKeyContext) (claimant : bytes) (guardians : list bytes) (delay : Z) : Prop :=
  let claimants := familyClaimants (has_recovery ctx) in
  map (leaf_spec (pending_holders claimants)) (pending_leaves claimants claimant guardians) =
    (Some delay, [Some (User claimant)]) :: map (fun g => (None, [Some (User g); Some Guardian])) guardians
    ++ [(None, map (fun g => Some (User g)) guardians)] /\
  map (leaf_spec (quarantine_holders guardians)) (quarantine_leaves guardians) =
    [(None, map (fun g => Some (User g)) guardians)].

Lemma guardians_others ctx claimant g : claimant ∈ familyClaimants (has_recovery ctx) ->
  g ∈ quarantineGuardians claimant (has_recovery ctx) <->
  (g = role_phone \/ g = role_hardware \/ has_recovery ctx = true /\ g = role_recovery) /\ g <> claimant.
Proof.
  unfold familyClaimants, quarantineGuardians. destruct (has_recovery ctx); rewrite !elem_of_cons, elem_of_nil; intros Hc;
    repeat (destruct Hc as [->|Hc]; [simpl; rewrite ?elem_of_cons, elem_of_nil; split;
      [intros Hg; repeat (destruct Hg as [->|Hg]; [split; [tauto|done]|]); done
      |intros [[Hg|[Hg|[Hh Hg]]] Hn]; [tauto..|discriminate Hh || tauto]]|]); done.
Qed.

(** The delay in blocks of every role, and the other users of the contract. *)
Lemma recovery_roles ctx claimant : claimant ∈ familyClaimants (has_recovery ctx) ->
  let guardians := quarantineGuardians claimant (has_recovery ctx) in
  (claimant, pendingDelay claimant) ∈ [(role_phone, 144); (role_hardware, 6); (role_recovery, 288)] /\
  NoDup guardians /\
  (forall g, g ∈ guardians <-> (g = role_phone \/ g = role_hardware \/ has_recovery ctx = true /\ g = role_recovery) /\ g <> claimant) /\
  recovery_leaves_are ctx claimant guardians (pendingDelay claimant).
Proof.
  intros Hc guardians. split; [|split; [|split]]; subst guardians; [| |intros g; exact (guardians_others ctx claimant g Hc)|];
    unfold recovery_leaves_are, familyClaimants in *; destruct (has_recovery ctx); rewrite !elem_of_cons, elem_of_nil in Hc;
    repeat (destruct Hc as [->|Hc]; [apply (bool_decide_unpack _); vm_compute; exact I|]); done.
Qed.

(** C29: A recovery is contestable.  For every user who may claim one, the pending
    address is exactly: the claimant alone after the delay of the role; at once,
    another user with the Guardian, or all the other users; and the quarantine
    address needs all the other users.  The delay is 6 blocks for the hardware
    wallet, 144 for the phone and 288 for the recovery key.  The wallet policies
    registered for the two addresses and their scripts are renderings of these
    leaves, and the Spending policy of the family is the one the contract commits
    to. *)
Theorem recovery_family_exact ctx policy f : BuildLedgerNativeFamily ctx policy = Ok f ->
  SpendingPolicyDigestHexFor (lc_Network ctx) policy = Ok (lc_PolicyDigest ctx) /\ nf_SpendingPolicy f = policy /\
  BuildLedgerNativeSavings ctx = Ok (nf_Savings f) /\
  Forall2 (fun claimant (entry : bytes * LedgerRecoveryFamily) => let rf := snd entry in
    let claimants := familyClaimants (has_recovery ctx) in let guardians := quarantineGuardians claimant (has_recovery ctx) in
    fst entry = claimant /\ rf_Claimant rf = claimant /\ rf_Delay rf = pendingDelay claimant /\ rf_Guardians rf = guardians /\
    (claimant ∉ guardians /\ 0 < pendingDelay claimant /\
     Forall (pending_leaf ctx claimant) (pending_leaves claimants claimant guardians) /\
     Forall (fun l => lf_delay l = None /\ leaf_holders (quarantine_holders guardians) l = map (fun g => Some (User g)) guardians)
       (quarantine_leaves guardians)) /\
    ((claimant, rf_Delay rf) ∈ [(role_phone, 144); (role_hardware, 6); (role_recovery, 288)] /\ NoDup (rf_Guardians rf) /\
     (forall g, g ∈ rf_Guardians rf <->
        (g = role_phone \/ g = role_hardware \/ has_recovery ctx = true /\ g = role_recovery) /\ g <> claimant) /\
     recovery_leaves_are ctx claimant (rf_Guardians rf) (rf_Delay rf)) /\
    (exists internal pubss, LedgerRecoveryInternalParent ctx claimant (str "pending") = Ok internal /\
      realizes ctx internal (pending_holders claimants) (pending_leaves claimants claimant guardians) 0 (rf_Pending rf) pubss) /\
    (exists internal pubss, LedgerRecoveryInternalParent ctx claimant (str "quarantine") = Ok internal /\
      realizes ctx internal (quarantine_holders guardians) (quarantine_leaves guardians) 0 (rf_Quarantine rf) pubss))
    (familyClaimants (has_recovery ctx)) (nf_Recovery f).
Proof.
  intros E. unfold BuildLedgerNativeFamily in E. apply bind_Ok in E as (digest & Ed & E). apply bind_Ok in E as ([] & Ef & E).
  apply bind_Ok in E as (? & _ & E). apply bind_Ok in E as (accounts & Ea & E). apply bind_Ok in E as (gp & Eg & E).
  apply bind_Ok in E as (recovery & Er & E). apply bind_Ok in E as (savings & Es & E). apply Ok_inj in E as <-.
  apply fail_if_Ok in Ef. bool_hyps. subst digest. split_and!; [done..|]. cbn [nf_Recovery]. apply collect_Ok in Er.
  apply Forall2_same_length_lookup_2; [by eapply Forall2_length|]. intros i claimant entry Hi He.
  pose proof (Forall2_lookup_lr _ _ _ _ _ _ Er Hi He) as Ec. cbv beta in Ec. unfold recovery_family in Ec.
  apply list_elem_of_lookup_2 in Hi. apply bind_Ok in Ec as (q & Eq & Ec). apply bind_Ok in Ec as (p & Ep & Ec).
  apply Ok_inj in Ec as <-. cbn [fst snd rf_Claimant rf_Delay rf_Guardians rf_Pending rf_Quarantine].
  split; [done|]. split; [done|]. split; [done|]. split; [done|]. split; [by apply pending_leaves_safe|]. split; [by apply recovery_roles|]. split.
  - by apply (pending_tree_Ok ctx accounts Ea gp).
  - by apply (quarantine_tree_Ok ctx accounts Ea).
Qed.
End Contract.

(** The policies of the code never exceed the limits of the hardware wallet. *)
Lemma savings_policies_fit ctx claimant name keys : claimant ∈ familyClaimants (has_recovery ctx) -> (length keys <= 15)%nat ->
  let claimants := familyClaimants (has_recovery ctx) in let guardians := quarantineGuardians claimant (has_recovery ctx) in
  forall leaves, leaves ∈ [savings_leaves ctx; pending_leaves claimants claimant guardians; quarantine_leaves guardians] ->
  exists p, ledgerRecoveryPolicy name (map render_leaf leaves) keys = Ok p.
Proof.
  intros Hc Hk claimants guardians leaves Hl.
  assert (exists tree, policy_tree (map render_leaf leaves) = Some tree /\ (blen (str "tr(@0/**," ++ tree ++ str ")") <=? 512) = true)
    as (tree & Et & Hlen).
  { unfold claimants, guardians, savings_leaves, familyClaimants in *. revert Hl Hc. clear.
    destruct (has_recovery ctx); rewrite !elem_of_cons, !elem_of_nil; intros Hl Hc;
      repeat (destruct Hc as [->|Hc]; [repeat (destruct Hl as [->|Hl]; [eexists; split; vm_compute; reflexivity|]); done|]); done. }
  unfold ledgerRecoveryPolicy. rewrite Et. cbn [wp_DescriptorTemplate].
  replace (15 <? Z.of_nat (length keys)) with false by lia.
  replace (512 <? blen (str "tr(@0/**," ++ tree ++ str ")")) with false by lia. by eexists.
Qed.

(** ** An example *)
(** Both builders succeed on the example. *)
Lemma toy_savings_built :
  match @BuildLedgerNativeSavings (toy_btc []) toy_secp toy_ark toy_addresses toy_hd toy_txscript toy_contract with
  | Ok _ => True | Err _ => False end.
Proof.
  unfold BuildLedgerNativeSavings, LedgerSavingsInternalParent, initiate_leaf, savings_tree, initiate_script,
    LedgerGuardianInitiateChild, LedgerGuardianInitiateBranch, ledgerGuardianChild, LedgerSavingsGuardianParent.
  rewrite toy_digest_ok. vm_compute. exact I.
Qed.

Lemma toy_family_built :
  match @BuildLedgerNativeFamily (toy_btc []) toy_secp toy_ark toy_addresses toy_hd toy_txscript toy_contract DefaultSpendingPolicy with
  | Ok _ => True | Err _ => False end.
Proof.
  unfold BuildLedgerNativeFamily, recovery_family, quarantine_tree, pending_tree, clawback_leaf, LedgerRecoveryInternalParent,
    LedgerGuardianClawbackChild, LedgerGuardianClawbackBranch, BuildLedgerNativeSavings, LedgerSavingsInternalParent, initiate_leaf,
    savings_tree, initiate_script, LedgerGuardianInitiateChild, LedgerGuardianInitiateBranch, ledgerGuardianChild,
    LedgerSavingsGuardianParent.
  rewrite toy_digest_ok. vm_compute. exact I.
Qed.

Lemma savings_descriptor_exact_witness :
  exists s, @BuildLedgerNativeSavings (toy_btc []) toy_secp toy_ark toy_addresses toy_hd toy_txscript toy_contract = Ok s /\
    Forall (two_party toy_contract) (savings_leaves toy_contract).
Proof.
  set (btc := toy_btc []). set (secp := toy_secp). set (ark := toy_ark). set (addresses := toy_addresses).
  set (hd := toy_hd). set (tx := toy_txscript). pose proof toy_savings_built as Hb.
  destruct (@BuildLedgerNativeSavings (toy_btc []) toy_secp toy_ark toy_addresses toy_hd toy_txscript toy_contract) as [s|e] eqn:E; [|destruct Hb].
  exists s. split; [exact E|]. exact (proj1 (savings_descriptor_exact _ _ E)).
Defined.

Lemma recovery_family_exact_witness :
  exists f, @BuildLedgerNativeFamily (toy_btc []) toy_secp toy_ark toy_addresses toy_hd toy_txscript toy_contract DefaultSpendingPolicy = Ok f /\
    nf_SpendingPolicy f = DefaultSpendingPolicy /\ length (nf_Recovery f) = 3%nat.
Proof.
  pose proof toy_family_built as Hb.
  destruct (@BuildLedgerNativeFamily (toy_btc []) toy_secp toy_ark toy_addresses toy_hd toy_txscript toy_contract DefaultSpendingPolicy)
    as [f|e] eqn:E; [|destruct Hb].
  exists f. split; [reflexivity|]. destruct (@recovery_family_exact _ _ _ _ _ _ _ _ _ E) as (_ & Hp & _ & Hf). split; [exact Hp|].
  symmetry. exact (Forall2_length _ _ _ Hf).
Defined.
