(* ===== verification/SavingsTransition.v ===== *)
(** * Recovery transitions ([src/internal/application/ledger_savings_transition.go])

    The Guardian takes part in two kinds of transaction of a Savings contract: a
    recovery that a user initiates (from the receive or change address to the
    claimant's pending address) and its cancellation by another user (from the
    pending to the quarantine address).  [validateLedgerSavingsTransition] decides
    on a submitted PSBT, [authorizeTransition] signs an accepted one.  The other
    fields of a PSBT, wire serializations and HD private keys are the libraries'
    ([Transitions]).  [savings_transition_sound] and [guardian_signature_exact]
    state what is accepted and what is signed. *)
From Stdlib Require Import Strings.Byte.
From S2P Require Import Prelude Sha256 Text P256 Psbt Btcd Program Cosigner Session.
From S2P Require Import VtxoScript VtxoTree SavingsKeys SavingsFamily.

Definition ledgerSavingsMaxMoney : Z := 2100000000000000.

Definition ledgerSavingsFields (fields : list bytes) : bytes := concat (map (fun f => be32 (blen f) ++ f) fields).

(** ** The libraries *)
Class Transitions `{Hd} := {
  (** [tx.SerializeNoWitness] and [wire.WriteTxOut(version, out)]. *)
  tx_SerializeNoWitness : UnsignedTx -> option bytes;
  wire_WriteTxOut : Z -> TxOut -> option bytes;
  (** The control block of a leaf of the tree of scripts, under an internal key. *)
  leaf_ControlBlock : list bytes -> nat -> PubKey -> option bytes;
  VerifyTaprootLeafCommitment : bytes -> bytes -> bytes -> bool;
  (** Sizes of the transaction with this witness on its only input. *)
  tx_SerializeSizeStripped : UnsignedTx -> Z;
  tx_SerializeSize : UnsignedTx -> list bytes -> Z;
  HDPrivateKeyID_TestNet3 : bytes;
  HDPrivateKeyID_MainNet : bytes;
  hd_ChainCode : ExtendedKey -> bytes;
  hd_ECPrivKey : ExtendedKey -> option bytes;
}.

(** [ledgerSavingsTransitionAuthorization]; [kind] is [initiate] or [clawback]. *)
Record ledgerSavingsTransitionAuthorization := {
  st_keyContext : LedgerSavingsKeyContext;
  st_policy : SpendingPolicy;
  st_kind : bytes;
  st_claimant : bytes;
  st_remainingUser : bytes;
  st_change : Z;
  st_retainedPSBT : bytes;
  st_directProof : bytes;
}.

Record ledgerSavingsTransitionPlan := { pl_packet : Packet; pl_leaf : bytes; pl_guardianXOnly : bytes }.

(** Source and destination trees, the index of the leaf, the user who signs and
    the Guardian's key. *)
Definition Trees `{Hd} : Type := LedgerRecoveryTree * LedgerRecoveryTree * nat * bytes * ExtendedKey.

Section Derive.
Context `{Btc} `{Secp}.

Definition deriveLedgerSavingsGuardianRoot (master network vaultID : bytes) : result bytes :=
  _ ← fail_if (scalar_IsZero master) (ErrMsg "Ledger Guardian master required");
  _ ← PinsFor network;
  _ ← or_err (ErrMsg "canonical Ledger vault ID required") (ledgerHex vaultID 16);
  hkdf_loop (hmac_sha256 (str "vaulted/ledger-guardian-savings-v1/guardian-root") master)
    (fun counter => ledgerSavingsFields [network; vaultID; [byte_of_Z counter]])
    (ErrMsg "Ledger Guardian HKDF produced no valid scalar") 256 0.

Definition guardianPublic (keys : fileBackedVaultKeys) (network vaultID : bytes) : result PubKey :=
  withMaster keys (fun master => key ← deriveLedgerSavingsGuardianRoot master network vaultID; Ok (priv_PubKey key)).
End Derive.

Section Transition.
Context `{Btc} `{Secp} `{ArkScript} `{Addresses} `{hd : Hd} `{Txscript} `{PsbtFields} `{!Transitions} `{EcdsaVerify}.

(** [map[string]int{"phone": 1, "hardware": 2, "recovery": 3}[claimant]] *)
Definition initiate_leaf_index (claimant : bytes) : nat :=
  if claimant == role_phone then 1 else if claimant == role_hardware then 2 else if claimant == role_recovery then 3 else 0.

Definition initiate_trees (req : ledgerSavingsTransitionAuthorization) (family : LedgerNativeFamily)
    (recovery : LedgerRecoveryFamily) (parent : ExtendedKey) : result Trees :=
  let source := if st_change req =? 1 then ns_Change (nf_Savings family) else ns_Receive (nf_Savings family) in
  child ← LedgerGuardianInitiateChild (st_keyContext req) (Some parent) (st_claimant req) (st_change req);
  Ok (source, rf_Pending recovery, initiate_leaf_index (st_claimant req), st_claimant req, child).

(** The loop over the guardians, from index [i]. *)
Fixpoint clawback_trees (req : ledgerSavingsTransitionAuthorization) (recovery : LedgerRecoveryFamily) (parent : ExtendedKey)
    (i : nat) (guardians : list bytes) : result Trees :=
  match guardians with
  | [] => Err (ErrMsg "unenrolled Ledger transition operation")
  | remaining :: guardians =>
      if remaining == st_remainingUser req then
        child ← LedgerGuardianClawbackChild (st_keyContext req) (Some parent) (st_claimant req) remaining;
        Ok (rf_Pending recovery, rf_Quarantine recovery, S i, remaining, child)
      else clawback_trees req recovery parent (S i) guardians
  end.

Definition ledgerSavingsTransitionTrees (req : ledgerSavingsTransitionAuthorization) : result Trees :=
  family ← BuildLedgerNativeFamily (st_keyContext req) (st_policy req);
  match role_get (nf_Recovery family) (st_claimant req) with
  | None => Err (ErrMsg "unenrolled Ledger claimant")
  | Some recovery =>
      parent ← LedgerSavingsGuardianParent (st_keyContext req);
      if (st_kind req == str "initiate") && (st_remainingUser req == []) && (st_change req <=? 1) then
        initiate_trees req family recovery parent
      else if (st_kind req == str "clawback") && (st_change req =? 0) then
        clawback_trees req recovery parent 0 (rf_Guardians recovery)
      else Err (ErrMsg "unenrolled Ledger transition operation")
  end.

(** The digest that the phone's direct key approves. *)
Definition LedgerSavingsTransitionDigest (ctx : LedgerSavingsKeyContext) (kind claimant remainingUser : bytes) (change : Z)
    (tx : UnsignedTx) (prevout : TxOut) : result bytes :=
  digest ← LedgerSavingsContextDigest ctx;
  txBytes ← encoded (tx_SerializeNoWitness tx);
  prevBytes ← encoded (wire_WriteTxOut (ut_Version tx) prevout);
  Ok (ledgerTagged "/phone-authorization"
        [ledgerSavingsFields [digest; kind; claimant; remainingUser; be32 change; txBytes; prevBytes]]).

(** ** The checks of a transition *)
Definition reject {A} : result A := Err (ErrMsg "Ledger transition: %s").
Definition reject_if (b : bool) : result unit := if b then reject else Ok tt.

(** One input, one output, and the fixed header.  The input of an unsigned
    transaction has no signature script and no witness. *)
Definition one_in_one_out (packet : Packet) : result (TxIn * TxOut * PInput * bytes) :=
  match ut_TxIn (pk_UnsignedTx packet), pk_Inputs packet, ut_TxOut (pk_UnsignedTx packet), pk_Outputs packet with
  | [txin], [input], [out], [meta] => Ok (txin, out, input, meta)
  | _, _, _, _ => reject
  end.

Definition header_ok (tx : UnsignedTx) (txin : TxIn) : bool :=
  (ut_Version tx =? 2) && (ut_LockTime tx =? 0) && (ti_Sequence txin =? TransitionSequence).

(** The spent output, from the full parent transaction. *)
Definition spent_output (txin : TxIn) (input : PInput) (source : LedgerRecoveryTree) : result TxOut :=
  match if_NonWitnessUtxo (input_fields input), pi_WitnessUtxo input with
  | Some parent, Some witness =>
      let op := ti_PreviousOutPoint txin in
      _ ← reject_if (pt_TxHash parent != op_Hash op);
      match pt_TxOut parent !! Z.to_nat (op_Index op) with
      | None => reject
      | Some prev =>
          _ ← reject_if ((to_Value prev <=? 0) || (ledgerSavingsMaxMoney <? to_Value prev)
                         || negb (to_Value prev =? to_Value witness) || (to_PkScript prev != to_PkScript witness)
                         || (to_PkScript prev != tree_PkScript (rt_Tree source)));
          Ok prev
      end
  | _, _ => reject
  end.

Definition output_ok (prev out : TxOut) (destination : LedgerRecoveryTree) : result unit :=
  reject_if ((to_Value out <? 330) || (to_Value prev <? to_Value out)
             || (to_PkScript out != tree_PkScript (rt_Tree destination))).

(** The leaf of the source tree with its proof; it returns the script and the
    control block. *)
Definition enrolled_leaf (input : PInput) (source : LedgerRecoveryTree) (leafIndex : nat) (prev : TxOut)
  : result (bytes * bytes) :=
  match pi_TaprootLeafScript input with
  | [Some entry] =>
      match rt_Scripts source !! leafIndex with
      | None => Err (ErrMsg "index out of range")
      | Some leaf =>
          control ← encoded (leaf_ControlBlock (rt_Scripts source) leafIndex (rt_Internal source));
          _ ← reject_if (negb (tl_LeafVersion entry =? BaseLeafVersion) || (tl_Script entry != leaf)
                         || (tl_ControlBlock entry != control));
          _ ← fail_if (negb (VerifyTaprootLeafCommitment control (drop 2 (to_PkScript prev)) leaf)) (ErrMsg "taproot commitment");
          Ok (leaf, control)
      end
  | _ => reject
  end.

Definition one_default_signature (input : PInput) : result unit :=
  match pi_TaprootScriptSpendSig input with
  | [Some _] => reject_if (negb (pi_SighashType input =? SigHashDefault))
  | _ => reject
  end.

Definition no_other_fields (packet : Packet) (input : PInput) (meta : bytes) : result unit :=
  let f := input_fields input in let o := output_fields meta in
  _ ← reject_if ((if_FinalScriptSig f != []) || (if_FinalScriptWitness f != []) || (if_TaprootKeySpendSig f != [])
        || (if_PartialSigs f != []) || (if_RedeemScript f != []) || (if_WitnessScript f != [])
        || (if_Bip32Derivation f != []) || (if_Unknowns f != []) || negb (Nat.eqb (length (pk_Unknowns packet)) 0));
  reject_if ((of_RedeemScript o != []) || (of_WitnessScript o != []) || (of_Bip32Derivation o != [])
        || (of_TaprootInternalKey o != []) || (of_TaprootTapTree o != []) || (of_TaprootBip32Derivation o != [])
        || (of_Unknowns o != [])).

(** The root hash of the source tree. *)
Definition tree_root (scripts : list bytes) : bytes :=
  match scripts with [s] => tap_leaf_hash s | _ => taproot_RootHash scripts end.

Definition taproot_metadata_ok (input : PInput) (source : LedgerRecoveryTree) : result unit :=
  let f := input_fields input in
  reject_if (((if_TaprootInternalKey f != []) && (if_TaprootInternalKey f != SerializePubKey (rt_Internal source)))
             || ((if_TaprootMerkleRoot f != []) && (if_TaprootMerkleRoot f != tree_root (rt_Scripts source)))).

(** The origin of the user who signs. *)
Definition user_origin (ctx : LedgerSavingsKeyContext) (role : bytes) : result LedgerAccountOrigin :=
  if role == role_hardware then Ok (lc_Hardware ctx)
  else if role == role_recovery then
    match lc_Recovery ctx with Some r => Ok r | None => Err (ErrMsg "nil pointer dereference") end
  else Ok (lc_Phone ctx).

Definition transition_user_branch (req : ledgerSavingsTransitionAuthorization) (role : bytes) : Z :=
  if role == role_recovery then st_change req else 2 + st_change req.

Definition user_child (req : ledgerSavingsTransitionAuthorization) (role : bytes) (parent : ExtendedKey) : result ExtendedKey :=
  if st_kind req == str "clawback" then LedgerRecoveryChild (Some parent) (str "clawback")
  else LedgerSavingsChild (Some parent) (transition_user_branch req role) 0.

(** Optional key derivations: both keys, once each, with the enrolled paths. *)
Fixpoint derivations_ok (leafHash : bytes) (expected : gmap bytes (Z * list Z)) (l : list (option TaprootBip32Derivation))
  : result unit :=
  match l with
  | [] => Ok tt
  | None :: _ => reject
  | Some d :: l =>
      match expected !! bd_XOnlyPubKey d with
      | None => reject
      | Some (fingerprint, path) =>
          _ ← reject_if ((bd_LeafHashes d != [leafHash]) || negb (bd_MasterKeyFingerprint d =? fingerprint)
                         || (bd_Bip32Path d != path));
          derivations_ok leafHash (delete (bd_XOnlyPubKey d) expected) l
      end
  end.

Definition le_uint32 (b : bytes) : Z := le_value (take 4 b).

Definition expected_derivations (req : ledgerSavingsTransitionAuthorization) (role : bytes) (origin : LedgerAccountOrigin)
    (userPub guardianPub : PubKey) : result (gmap bytes (Z * list Z)) :=
  let ctx := st_keyContext req in
  let clawback := st_kind req == str "clawback" in
  let userBranch := if clawback then 6 else transition_user_branch req role in
  guardianBranch ← (if clawback then LedgerGuardianClawbackBranch ctx (st_claimant req) (st_remainingUser req)
                    else LedgerGuardianInitiateBranch ctx (st_claimant req) (st_change req));
  match hex_decode (lo_Fingerprint origin), hex_decode (lc_VaultCosignerBase ctx) with
  | Some fingerprint, Some base =>
      Ok (<[SerializePubKey guardianPub := (le_uint32 (btcutil_Hash160 base), [guardianBranch; 0])]>
          {[SerializePubKey userPub := (le_uint32 fingerprint, lo_Path origin ++ [userBranch; 0])]})
  | _, _ => Err (ErrMsg "hex")
  end.

Definition key_derivations_ok (req : ledgerSavingsTransitionAuthorization) (role : bytes) (origin : LedgerAccountOrigin)
    (input : PInput) (leaf : bytes) (userPub guardianPub : PubKey) : result unit :=
  let l := if_TaprootBip32Derivation (input_fields input) in
  match l with
  | [] => Ok tt
  | _ =>
      _ ← reject_if (negb (Nat.eqb (length l) 2));
      expected ← expected_derivations req role origin userPub guardianPub;
      derivations_ok (tap_leaf_hash leaf) expected l
  end.

(** The phone approves with its direct key; nobody else may send an approval. *)
Definition phone_approval (req : ledgerSavingsTransitionAuthorization) (role : bytes) (tx : UnsignedTx) (prev : TxOut)
  : result unit :=
  let ctx := st_keyContext req in
  if role == role_phone then
    match hex_decode (lc_PhoneDirectP256 ctx) with
    | None => Err (ErrMsg "hex")
    | Some direct =>
        digest ← LedgerSavingsTransitionDigest ctx (st_kind req) (st_claimant req) (st_remainingUser req) (st_change req) tx prev;
        wrap_err "Ledger phone approval: %w" (verifyDirectAuth direct digest (st_directProof req))
    end
  else reject_if (negb (blen (st_directProof req) =? 0)).

(** The weight of the only final witness: two signatures, leaf, control block. *)
Definition final_vsize (tx : UnsignedTx) (leaf control : bytes) : Z :=
  let weight := tx_SerializeSizeStripped tx * 3
                + tx_SerializeSize tx [replicate 64 Byte.x00; replicate 64 Byte.x00; leaf; control] in
  Z.quot (weight + 3) 4.

Definition fee_ok (policy : SpendingPolicy) (tx : UnsignedTx) (prev out : TxOut) (leaf control : bytes) : result unit :=
  let fee := to_Value prev - to_Value out in
  reject_if ((fee <=? 0) || (sp_AbsoluteFeeCapSats policy <? fee)
             || (wrap_int64 (final_vsize tx leaf control * sp_FeerateCapSatPerV policy) <? fee)).

Definition validateLedgerSavingsTransition (req : ledgerSavingsTransitionAuthorization) : result ledgerSavingsTransitionPlan :=
  '(source, destination, leafIndex, userRole, guardianChild) ← ledgerSavingsTransitionTrees req;
  packet ← parsePSBT (st_retainedPSBT req);
  let tx := pk_UnsignedTx packet in
  '(txin, out, input, meta) ← one_in_one_out packet;
  _ ← reject_if (negb (header_ok tx txin));
  prev ← spent_output txin input source;
  _ ← output_ok prev out destination;
  '(leaf, control) ← enrolled_leaf input source leafIndex prev;
  _ ← one_default_signature input;
  _ ← no_other_fields packet input meta;
  _ ← taproot_metadata_ok input source;
  origin ← user_origin (st_keyContext req) userRole;
  userParent ← LedgerAccountKey origin (lc_Network (st_keyContext req));
  userChild ← user_child req userRole userParent;
  userPub ← ec_pub userChild;
  guardianPub ← ec_pub guardianChild;
  _ ← key_derivations_ok req userRole origin input leaf userPub guardianPub;
  _ ← wrap_err "Ledger user signature: %w" (requirePresentDefaultTaprootSignature packet 0 (SerializePubKey userPub) leaf);
  _ ← phone_approval req userRole tx prev;
  _ ← fee_ok (st_policy req) tx prev out leaf control;
  Ok {| pl_packet := packet; pl_leaf := leaf; pl_guardianXOnly := SerializePubKey guardianPub |}.

(** The slices of the request are copied, which values are anyway. *)
Definition newLedgerSavingsTransitionAuthorization (ctx : LedgerSavingsKeyContext) (policy : SpendingPolicy)
    (kind claimant remainingUser : bytes) (change : Z) (retainedPSBT directProof : bytes)
  : result ledgerSavingsTransitionAuthorization :=
  let req := {| st_keyContext := ctx; st_policy := policy; st_kind := kind; st_claimant := claimant;
                st_remainingUser := remainingUser; st_change := change; st_retainedPSBT := retainedPSBT;
                st_directProof := directProof |} in
  _ ← validateLedgerSavingsTransition req;
  Ok req.

(** ** Signing *)

(** The Guardian's private key of a transition. *)
Definition guardian_private (req : ledgerSavingsTransitionAuthorization) (master : bytes) : result bytes :=
  let ctx := st_keyContext req in
  root ← deriveLedgerSavingsGuardianRoot master (lc_Network ctx) (lc_VaultID ctx);
  _ ← fail_if (hex_encode (priv_PubKey root) != lc_VaultCosignerBase ctx) (ErrMsg "enrolled Ledger Guardian root mismatch");
  public ← LedgerSavingsGuardianParent ctx;
  let version := if lc_Network ctx == str "mainnet" then HDPrivateKeyID_MainNet else HDPrivateKeyID_TestNet3 in
  let parent := hd_NewExtendedKey version root (hd_ChainCode public) (replicate 4 Byte.x00) 0 0 true in
  child ← (if st_kind req == str "initiate" then LedgerGuardianInitiateChild ctx (Some parent) (st_claimant req) (st_change req)
           else LedgerGuardianClawbackChild ctx (Some parent) (st_claimant req) (st_remainingUser req));
  hd_call (hd_ECPrivKey child).

Definition authorizeTransition (keys : fileBackedVaultKeys) (ctx : result unit) (req : ledgerSavingsTransitionAuthorization)
  : result bytes :=
  _ ← ctx;
  plan ← validateLedgerSavingsTransition req;
  withMaster keys (fun master =>
    private ← guardian_private req master;
    _ ← fail_if (SerializePubKey (priv_PubKey private) != pl_guardianXOnly plan) (ErrMsg "Ledger Guardian child mismatch");
    _ ← ctx;
    signature ← signTapLeafAtWithSighash (pl_packet plan) 0 private (pl_leaf plan) SigHashDefault;
    _ ← verifySchnorrOnInputWithSighash (pl_packet plan) 0 (ts_Signature signature) (pl_guardianXOnly plan) (pl_leaf plan)
          SigHashDefault;
    b64Encode (set_inputs (alter (fun i => set_sigs (pi_TaprootScriptSpendSig i ++ [Some signature]) i) 0%nat (pk_Inputs (pl_packet plan)))
                 (pl_packet plan))).
End Transition.

(** ** The leaf of a transition *)
Section Leaves.
Context `{Btc} `{Secp} `{ArkScript} `{Addresses} `{hd : Hd} `{Txscript} `{PsbtFields} `{!Transitions} `{EcdsaVerify}.
Variable ctx : LedgerSavingsKeyContext.

Lemma collect_lookup {A B} (f : A -> result B) l ys i x : collect f l = Ok ys -> l !! i = Some x ->
  exists y, ys !! i = Some y /\ f x = Ok y.
Proof. intros Hc%collect_Ok Hx. destruct (Forall2_lookup_l _ _ _ _ _ Hc Hx) as (y & Hy & E). by exists y. Qed.

Lemma savings_built s : BuildLedgerNativeSavings ctx = Ok s ->
  exists accounts internal guardian, load_accounts ctx = Ok accounts /\ LedgerSavingsGuardianParent ctx = Ok guardian /\
    savings_tree ctx accounts internal guardian (ns_WalletPolicy s) 0 = Ok (ns_Receive s) /\
    savings_tree ctx accounts internal guardian (ns_WalletPolicy s) 1 = Ok (ns_Change s).
Proof.
  unfold BuildLedgerNativeSavings. intros E. apply bind_Ok in E as (internal & _ & E). apply bind_Ok in E as (guardian & Eg & E).
  apply bind_Ok in E as (accounts & Ea & E). apply bind_Ok in E as (? & _ & E). apply bind_Ok in E as (policy & _ & E).
  apply bind_Ok in E as (receive & Er & E). apply bind_Ok in E as (chg & Ec & E). apply Ok_inj in E as <-.
  by exists accounts, internal, guardian.
Qed.

(** A leaf script of the receive or change tree is an initiation of its claimant. *)
Lemma savings_leaf_built accounts internal guardian policy change t i c :
  savings_tree ctx accounts internal guardian policy change = Ok t ->
  familyClaimants (has_recovery ctx) !! i = Some c ->
  exists leaf pubs, rt_Scripts t !! S i = Some leaf /\ initiate_script ctx accounts guardian change c = Ok (leaf, pubs).
Proof.
  unfold savings_tree. intros E Hc. do 4 (apply bind_Ok in E as (? & _ & E)). apply bind_Ok in E as (leaves & El & E).
  apply bind_Ok in E as ([] & _ & E). apply bind_Ok in E as ([a s] & _ & E). apply Ok_inj in E as <-. cbn [rt_Scripts].
  destruct (collect_lookup _ _ _ _ _ El Hc) as ([leaf pubs] & Hl & Hi). exists leaf, pubs. split; [|done].
  simpl. by rewrite list_lookup_fmap, Hl.
Qed.

Lemma pending_leaf_built accounts guardianParent claimant guardians t i g :
  pending_tree ctx accounts guardianParent claimant guardians = Ok t -> guardians !! i = Some g ->
  exists index gi script leaf, rt_Scripts t !! S i = Some script /\
    clawback_leaf ctx accounts guardianParent index gi claimant g = Ok (script, leaf).
Proof.
  unfold pending_tree. intros E Hg. do 3 (apply bind_Ok in E as (? & _ & E)). apply bind_Ok in E as (cs & Ec & E).
  apply bind_Ok in E as (? & _ & E). apply bind_Ok in E as (cancel & _ & E). apply bind_Ok in E as (pol & _ & E).
  apply recovery_tree_Ok in E as (_ & -> & _). destruct (collect_lookup _ _ _ _ _ Ec Hg) as ([script leaf] & Hl & Hc).
  do 4 eexists. split; [|exact Hc]. simpl. rewrite lookup_app_l, list_lookup_fmap, Hl; [done|].
  rewrite length_map. by eapply lookup_lt_Some.
Qed.

Lemma family_built policy family : BuildLedgerNativeFamily ctx policy = Ok family ->
  exists accounts guardianParent, load_accounts ctx = Ok accounts /\ LedgerSavingsGuardianParent ctx = Ok guardianParent /\
    BuildLedgerNativeSavings ctx = Ok (nf_Savings family) /\
    collect (recovery_family ctx accounts guardianParent) (familyClaimants (has_recovery ctx)) = Ok (nf_Recovery family).
Proof.
  unfold BuildLedgerNativeFamily. intros E. do 3 (apply bind_Ok in E as (? & _ & E)). apply bind_Ok in E as (accounts & Ea & E).
  apply bind_Ok in E as (gp & Eg & E). apply bind_Ok in E as (recovery & Er & E). apply bind_Ok in E as (savings & Es & E).
  apply Ok_inj in E as <-. by exists accounts, gp.
Qed.

(** The entry of a claimant. *)
Lemma family_entry accounts guardianParent entries claimant rf :
  collect (recovery_family ctx accounts guardianParent) (familyClaimants (has_recovery ctx)) = Ok entries ->
  role_get entries claimant = Some rf ->
  claimant ∈ familyClaimants (has_recovery ctx) /\ rf_Guardians rf = quarantineGuardians claimant (has_recovery ctx) /\
  pending_tree ctx accounts guardianParent claimant (rf_Guardians rf) = Ok (rf_Pending rf).
Proof.
  unfold role_get. intros Hc Hr. destruct (List.find _ entries) as [[r rf']|] eqn:Ef; [|done]. injection Hr as ->.
  apply List.find_some in Ef as [Hin Er]. apply bool_decide_eq_true in Er. simpl in Er. subst r.
  apply list_elem_of_In in Hin. destruct (collect_elem_inv _ _ _ _ Hc Hin) as (c & Hcl & E).
  unfold recovery_family in E. apply bind_Ok in E as (q & _ & E). apply bind_Ok in E as (p & Ep & E).
  apply Ok_inj, pair_equal_spec in E as [<- <-]. done.
Qed.

(** The account of a user, as the builder and as the validation look it up. *)
Lemma user_account accounts role origin parent : load_accounts ctx = Ok accounts ->
  role ∈ familyClaimants (has_recovery ctx) -> user_origin ctx role = Ok origin ->
  LedgerAccountKey origin (lc_Network ctx) = Ok parent -> account_key accounts role = Some parent.
Proof.
  intros Ha Hr Ho Hk. destruct (load_accounts_get ctx accounts role Ha Hr) as (key & -> & Hh).
  specialize (Hh parent) as [Hkey _]. simpl in Hkey. f_equal. enough (origin_of ctx role = origin) as Eo by congruence.
  revert Hr Ho. unfold familyClaimants, user_origin, origin_of, has_recovery.
  destruct (lc_Recovery ctx) as [r|]; [rewrite bool_decide_eq_true_2 by done|rewrite bool_decide_eq_false_2 by congruence];
    rewrite !elem_of_cons, elem_of_nil; intros Hr; repeat (destruct Hr as [->|Hr]; [by intros Eo%Ok_inj|]); done.
Qed.

Lemma claimant_index claimant : claimant ∈ familyClaimants (has_recovery ctx) ->
  exists i, initiate_leaf_index claimant = S i /\ familyClaimants (has_recovery ctx) !! i = Some claimant.
Proof.
  unfold familyClaimants. destruct (has_recovery ctx); rewrite !elem_of_cons, elem_of_nil; intros Hc.
  - destruct Hc as [->|[->|[->|[]]]]; [by exists 0%nat|by exists 1%nat|by exists 2%nat].
  - destruct Hc as [->|[->|[]]]; [by exists 0%nat|by exists 1%nat].
Qed.
End Leaves.

(** ** What is accepted *)
Section Sound.
Context `{Btc} `{Secp} `{ArkScript} `{Addresses} `{hd : Hd} `{Txscript} `{PsbtFields} `{!Transitions} `{EcdsaVerify}.

(** The two kinds of transition: source, destination, and the user who signs. *)
Inductive enrolled_transition (req : ledgerSavingsTransitionAuthorization) (family : LedgerNativeFamily)
  : LedgerRecoveryTree -> LedgerRecoveryTree -> nat -> bytes -> Prop :=
  | Initiation rf : st_kind req = str "initiate" -> st_remainingUser req = [] -> st_change req <= 1 ->
      role_get (nf_Recovery family) (st_claimant req) = Some rf ->
      enrolled_transition req family
        (if st_change req =? 1 then ns_Change (nf_Savings family) else ns_Receive (nf_Savings family))
        (rf_Pending rf) (initiate_leaf_index (st_claimant req)) (st_claimant req)
  | Cancellation rf i : st_kind req = str "clawback" -> st_change req = 0 ->
      role_get (nf_Recovery family) (st_claimant req) = Some rf -> rf_Guardians rf !! i = Some (st_remainingUser req) ->
      enrolled_transition req family (rf_Pending rf) (rf_Quarantine rf) (S i) (st_remainingUser req).

Definition transition_child (req : ledgerSavingsTransitionAuthorization) (parent : ExtendedKey) : result ExtendedKey :=
  if st_kind req == str "initiate" then
    LedgerGuardianInitiateChild (st_keyContext req) (Some parent) (st_claimant req) (st_change req)
  else LedgerGuardianClawbackChild (st_keyContext req) (Some parent) (st_claimant req) (st_remainingUser req).

Lemma clawback_trees_Ok req recovery parent i guardians s d n role child :
  clawback_trees req recovery parent i guardians = Ok (s, d, n, role, child) ->
  exists j, guardians !! j = Some (st_remainingUser req) /\ n = S (i + j) /\ role = st_remainingUser req /\
    s = rf_Pending recovery /\ d = rf_Quarantine recovery /\
    LedgerGuardianClawbackChild (st_keyContext req) (Some parent) (st_claimant req) (st_remainingUser req) = Ok child.
Proof.
  revert i. induction guardians as [|g guardians IH]; intros i E; [done|]. simpl in E. case_bool_decide as Eg.
  - subst g. apply bind_Ok in E as (c & Ec & E). apply Ok_inj in E. injection E as <- <- <- <- <-.
    exists 0%nat. rewrite Nat.add_0_r. done.
  - destruct (IH (S i) E) as (j & Hj & -> & Hr). exists (S j). split; [done|]. split; [lia|done].
Qed.

Lemma trees_Ok req s d n role child : ledgerSavingsTransitionTrees req = Ok (s, d, n, role, child) ->
  exists family parent, BuildLedgerNativeFamily (st_keyContext req) (st_policy req) = Ok family /\
    LedgerSavingsGuardianParent (st_keyContext req) = Ok parent /\ transition_child req parent = Ok child /\
    enrolled_transition req family s d n role.
Proof.
  unfold ledgerSavingsTransitionTrees. intros E. apply bind_Ok in E as (family & Ef & E).
  destruct (role_get (nf_Recovery family) (st_claimant req)) as [rf|] eqn:Er; [|done].
  apply bind_Ok in E as (parent & Ep & E). exists family, parent. split; [done|]. split; [done|]. unfold transition_child.
  destruct ((st_kind req == str "initiate") && (st_remainingUser req == []) && (st_change req <=? 1)) eqn:Ei.
  - bool_hyps. unfold initiate_trees in E. apply bind_Ok in E as (c & Ec & E). apply Ok_inj in E. injection E as <- <- <- <- <-.
    rewrite bool_decide_eq_true_2 by done. split; [done|]. by apply Initiation; [..|lia|].
  - destruct ((st_kind req == str "clawback") && (st_change req =? 0)) eqn:Ec; [|done]. bool_hyps.
    apply clawback_trees_Ok in E as (j & Hj & -> & -> & -> & -> & Ech).
    match goal with E : st_kind req = _ |- _ => rewrite E end. split; [done|]. by apply Cancellation; [|lia|..].
Qed.

(** The two signers of an enrolled transition are the keys of its leaf. *)
Lemma transition_leaf req family s d n role child parent origin userParent userChild userPub guardianPub leaf :
  0 <= st_change req ->
  BuildLedgerNativeFamily (st_keyContext req) (st_policy req) = Ok family -> enrolled_transition req family s d n role ->
  LedgerSavingsGuardianParent (st_keyContext req) = Ok parent -> transition_child req parent = Ok child ->
  user_origin (st_keyContext req) role = Ok origin -> LedgerAccountKey origin (lc_Network (st_keyContext req)) = Ok userParent ->
  user_child req role userParent = Ok userChild -> ec_pub userChild = Ok userPub -> ec_pub child = Ok guardianPub ->
  rt_Scripts s !! n = Some leaf ->
  closure_Script (MultisigClosure [Some userPub; Some guardianPub]) = Some leaf.
Proof.
  intros Hch Hf Ht Hp Hc Ho Hu Huc Hup Hgp Hl. destruct (family_built _ _ _ Hf) as (accounts & gp & Ha & Hgp' & Hs & Hr).
  rewrite Hp in Hgp'. apply Ok_inj in Hgp' as <-. unfold transition_child, user_child, transition_user_branch in *.
  destruct Ht as [rf Hk Hrem Hle Hrf|rf i Hk Hc0 Hrf Hg].
  - destruct (family_entry _ _ _ _ _ _ Hr Hrf) as (Hcl & _ & _). rewrite Hk in *.
    rewrite bool_decide_eq_true_2 in Hc by done. rewrite bool_decide_eq_false_2 in Huc by done.
    pose proof (user_account _ accounts _ _ _ Ha Hcl Ho Hu) as Hacc.
    destruct (claimant_index _ _ Hcl) as (i & Hi & Hlk). rewrite Hi in Hl.
    destruct (savings_built _ _ Hs) as (accounts' & internal & g' & Ha' & Hg' & Hrec & Hchg). rewrite Ha in Ha'. rewrite Hp in Hg'.
    apply Ok_inj in Ha' as <-. apply Ok_inj in Hg' as <-.
    assert (exists pubs, initiate_script (st_keyContext req) accounts parent (st_change req) (st_claimant req) = Ok (leaf, pubs)) as [pubs Hscript].
    { assert (st_change req = 0 \/ st_change req = 1) as [Ech|Ech] by lia; rewrite Ech in Hl |- *; simpl in Hl.
      - destruct (savings_leaf_built _ _ _ _ _ _ _ _ _ Hrec Hlk) as (l & pubs & Hl' & Hsc). exists pubs. congruence.
      - destruct (savings_leaf_built _ _ _ _ _ _ _ _ _ Hchg Hlk) as (l & pubs & Hl' & Hsc). exists pubs. congruence. }
    unfold initiate_script, savings_pub in Hscript. rewrite Hacc, Huc, Ok_bind, Hup, Ok_bind, Hc, Ok_bind, Hgp, Ok_bind in Hscript.
    apply bind_Ok in Hscript as (l & Hl' & E). apply Ok_inj, pair_equal_spec in E as [-> _]. by apply checksig_Ok in Hl'.
  - destruct (family_entry _ _ _ _ _ _ Hr Hrf) as (Hcl & Hgs & Hpend). rewrite Hk in *.
    rewrite bool_decide_eq_false_2 in Hc by done. rewrite bool_decide_eq_true_2 in Huc by done.
    destruct (pending_leaf_built _ _ _ _ _ _ _ _ Hpend Hg) as (index & gi & script & pleaf & Hsc & Hclaw). rewrite Hl in Hsc.
    injection Hsc as <-. apply list_elem_of_lookup_2 in Hg. rewrite Hgs in Hg.
    destruct (guardians_claimants _ _ _ Hcl Hg) as [Hrole _].
    pose proof (user_account _ accounts _ _ _ Ha Hrole Ho Hu) as Hacc.
    unfold clawback_leaf, recovery_user in Hclaw. rewrite Hacc, Huc, Ok_bind, Hup, Ok_bind, Hc, Ok_bind, Hgp, Ok_bind in Hclaw.
    apply bind_Ok in Hclaw as ([] & _ & Hclaw). apply bind_Ok in Hclaw as (l & Hl' & Hclaw).
    apply bind_Ok in Hclaw as (? & _ & E). apply Ok_inj, pair_equal_spec in E as [-> _]. by apply checksig_Ok in Hl'.
Qed.
End Sound.

(** ** The theorems *)
Section Theorems.
Context `{Btc} `{Secp} `{ArkScript} `{Addresses} `{hd : Hd} `{Txscript} `{PsbtFields} `{!Transitions} `{EcdsaVerify}.

(** What holds of an accepted transition: the trees it moves between, the coin and
    the payment, the two keys of the leaf. *)
Record accepted (req : ledgerSavingsTransitionAuthorization) (plan : ledgerSavingsTransitionPlan) (family : LedgerNativeFamily)
    (source destination : LedgerRecoveryTree) (n : nat) (role : bytes) (txin : TxIn) (input : PInput) (prev out : TxOut)
    (userPub guardianPub : PubKey) : Prop := {
  ac_family : BuildLedgerNativeFamily (st_keyContext req) (st_policy req) = Ok family;
  ac_kind : enrolled_transition req family source destination n role;
  ac_packet : parsePSBT (st_retainedPSBT req) = Ok (pl_packet plan);
  ac_tx : pk_UnsignedTx (pl_packet plan) = {| ut_Version := 2; ut_LockTime := 0; ut_TxIn := [txin]; ut_TxOut := [out] |};
  ac_inputs : pk_Inputs (pl_packet plan) = [input] /\ ti_Sequence txin = TransitionSequence;
  ac_coin : exists parent, if_NonWitnessUtxo (input_fields input) = Some parent /\
    pt_TxHash parent = op_Hash (ti_PreviousOutPoint txin) /\
    pt_TxOut parent !! Z.to_nat (op_Index (ti_PreviousOutPoint txin)) = Some prev;
  ac_witness : pi_WitnessUtxo input = Some prev;
  ac_source : to_PkScript prev = tree_PkScript (rt_Tree source);
  ac_destination : to_PkScript out = tree_PkScript (rt_Tree destination);
  ac_value : 330 <= to_Value out < to_Value prev /\ to_Value prev <= ledgerSavingsMaxMoney;
  ac_fee : 0 < to_Value prev - to_Value out <= sp_AbsoluteFeeCapSats (st_policy req);
  ac_feerate : exists control, leaf_ControlBlock (rt_Scripts source) n (rt_Internal source) = Some control /\
    pi_TaprootLeafScript input = [Some {| tl_ControlBlock := control; tl_Script := pl_leaf plan; tl_LeafVersion := BaseLeafVersion |}] /\
    to_Value prev - to_Value out <= wrap_int64 (final_vsize (pk_UnsignedTx (pl_packet plan)) (pl_leaf plan) control
                                                * sp_FeerateCapSatPerV (st_policy req));
  ac_leaf : rt_Scripts source !! n = Some (pl_leaf plan) /\
    closure_Script (MultisigClosure [Some userPub; Some guardianPub]) = Some (pl_leaf plan);
  ac_guardian : pl_guardianXOnly plan = SerializePubKey guardianPub;
  ac_user : (exists sig, pi_TaprootScriptSpendSig input = [Some sig]) /\
    requirePresentDefaultTaprootSignature (pl_packet plan) 0 (SerializePubKey userPub) (pl_leaf plan) = Ok tt;
  ac_phone : role = role_phone -> exists direct digest, hex_decode (lc_PhoneDirectP256 (st_keyContext req)) = Some direct /\
    LedgerSavingsTransitionDigest (st_keyContext req) (st_kind req) (st_claimant req) (st_remainingUser req) (st_change req)
      (pk_UnsignedTx (pl_packet plan)) prev = Ok digest /\ verifyDirectAuth direct digest (st_directProof req) = Ok tt;
}.

Lemma reject_if_Ok b : reject_if b = Ok tt -> b = false.
Proof. by destruct b. Qed.

Lemma spent_output_Ok txin input source prev : spent_output txin input source = Ok prev ->
  (exists parent, if_NonWitnessUtxo (input_fields input) = Some parent /\
    pt_TxHash parent = op_Hash (ti_PreviousOutPoint txin) /\
    pt_TxOut parent !! Z.to_nat (op_Index (ti_PreviousOutPoint txin)) = Some prev) /\
  pi_WitnessUtxo input = Some prev /\ to_PkScript prev = tree_PkScript (rt_Tree source) /\
  0 < to_Value prev <= ledgerSavingsMaxMoney.
Proof.
  unfold spent_output. destruct (if_NonWitnessUtxo (input_fields input)) as [parent|]; [|done].
  destruct (pi_WitnessUtxo input) as [[wv ws]|]; [|done]. intros E. apply bind_Ok in E as ([] & Eh & E).
  destruct (pt_TxOut parent !! _) as [[v s]|] eqn:Ep; [|done]. apply bind_Ok in E as ([] & Ec & E). apply Ok_inj in E as <-.
  apply reject_if_Ok in Eh, Ec. simpl in *. bool_hyps. split; [by exists parent|].
  assert (v = wv) as -> by lia. subst. split; [done|]. split; [done|lia].
Qed.

Lemma enrolled_leaf_Ok input source n prev leaf control : enrolled_leaf input source n prev = Ok (leaf, control) ->
  rt_Scripts source !! n = Some leaf /\ leaf_ControlBlock (rt_Scripts source) n (rt_Internal source) = Some control /\
  pi_TaprootLeafScript input = [Some {| tl_ControlBlock := control; tl_Script := leaf; tl_LeafVersion := BaseLeafVersion |}].
Proof.
  unfold enrolled_leaf. destruct (pi_TaprootLeafScript input) as [|[[ec es ev]|] []]; try done.
  destruct (rt_Scripts source !! n) as [l|]; [|done]. intros E. apply bind_Ok in E as (c & Ec & E).
  apply bind_Ok in E as ([] & Ee & E). apply bind_Ok in E as ([] & _ & E). apply Ok_inj, pair_equal_spec in E as [<- <-].
  apply reject_if_Ok in Ee. apply encoded_Ok in Ec. simpl in Ee. bool_hyps. split; [done|]. split; [done|].
  assert (ev = BaseLeafVersion) as -> by lia. by subst.
Qed.

Lemma validate_accepted req plan : 0 <= st_change req -> validateLedgerSavingsTransition req = Ok plan ->
  exists family source destination n role txin input prev out userPub guardianPub parent child,
    accepted req plan family source destination n role txin input prev out userPub guardianPub /\
    LedgerSavingsGuardianParent (st_keyContext req) = Ok parent /\ transition_child req parent = Ok child /\
    ec_pub child = Ok guardianPub.
Proof.
  intros Hch E. unfold validateLedgerSavingsTransition in E. apply bind_Ok in E as ([[[[s d] n] role] child] & Et & E).
  apply bind_Ok in E as (packet & Epk & E). apply bind_Ok in E as ([[[txin out] input] meta] & E1 & E).
  apply bind_Ok in E as ([] & Eh & E). apply bind_Ok in E as (prev & Eprev & E). apply bind_Ok in E as ([] & Eo & E).
  apply bind_Ok in E as ([leaf control] & El & E). apply bind_Ok in E as ([] & Es & E). apply bind_Ok in E as ([] & _ & E).
  apply bind_Ok in E as ([] & _ & E). apply bind_Ok in E as (origin & Eor & E). apply bind_Ok in E as (up & Eup & E).
  apply bind_Ok in E as (uc & Euc & E). apply bind_Ok in E as (userPub & Eu & E). apply bind_Ok in E as (gPub & Eg & E).
  apply bind_Ok in E as ([] & _ & E). apply bind_Ok in E as ([] & Esig & E). apply bind_Ok in E as ([] & Eph & E).
  apply bind_Ok in E as ([] & Ef & E). apply Ok_inj in E as <-. apply wrap_err_Ok in Esig.
  apply trees_Ok in Et as (family & parent & Hf & Hp & Hc & Hk). apply spent_output_Ok in Eprev as (Hcoin & Hw & Hsrc & Hv).
  apply reject_if_Ok in Eh, Eo, Ef. apply enrolled_leaf_Ok in El as (El & Econtrol & Eentry). unfold one_in_one_out, header_ok in *. bool_hyps.
  destruct (pk_UnsignedTx packet) as [ver lock ins outs] eqn:Etx. simpl in *.
  destruct ins as [|i [|]], (pk_Inputs packet) as [|pi [|]] eqn:Ein, outs as [|o [|]], (pk_Outputs packet) as [|m [|]]; try done.
  apply Ok_inj in E1. injection E1 as -> -> -> ->.
  exists family, s, d, n, role, txin, input, prev, out, userPub, gPub, parent, child. split; [|done]. split; simpl; try done.
  - rewrite Etx. f_equal; lia.
  - lia.
  - exists control. rewrite Etx. split; [done|]. split; [done|lia].
  - split; [done|]. by eapply (transition_leaf req family s d n role child parent origin up uc).
  - split; [|done]. unfold one_default_signature in Es. destruct (pi_TaprootScriptSpendSig input) as [|[sig|] []]; try done. by exists sig.
  - intros ->. unfold phone_approval in Eph. rewrite bool_decide_eq_true_2 in Eph by done.
    destruct (hex_decode (lc_PhoneDirectP256 (st_keyContext req))) as [direct|]; [|done].
    apply bind_Ok in Eph as (digest & Ed & Ev). apply wrap_err_Ok in Ev. exists direct, digest. by rewrite Etx.
Qed.

(** C26: A recovery transition is accepted only when it is an enrolled one.  It spends
    one coin of the contract (a receive or change coin for an initiation by an
    enrolled claimant, a pending coin for a cancellation by another user), whose
    full parent transaction it shows, and pays all of it, less a positive fee, to
    the one enrolled destination (the claimant's pending address, or its quarantine
    address).  The fee is within both enrolled caps: the absolute one, and, in
    64-bit arithmetic, the fee rate times the virtual size of the transaction with
    its only final witness.  The leaf, with its proof, is the leaf of the user
    who acts and the Guardian, the user has signed it, and when the user is the
    phone its direct key has approved exactly this transaction. *)
Theorem savings_transition_sound req plan : 0 <= st_change req -> validateLedgerSavingsTransition req = Ok plan ->
  exists family source destination n role txin input prev out userPub guardianPub,
    accepted req plan family source destination n role txin input prev out userPub guardianPub.
Proof.
  intros Hch E. destruct (validate_accepted req plan Hch E) as
    (family & s & d & n & role & txin & input & prev & out & userPub & gPub & parent & child & Ha & _).
  by exists family, s, d, n, role, txin, input, prev, out, userPub, gPub.
Qed.

(** C27: The Guardian's key signs nothing else.  A signed transition is an accepted
    one, and the result is the submitted packet with one more signature: by the
    Guardian key of this use, derived from the master scalar, whose public key the
    contract enrolled, on the recovery leaf, and valid for it. *)
Theorem guardian_signature_exact `{!PsbtLaws} keys ctx req signed : 0 <= st_change req ->
  authorizeTransition keys ctx req = Ok signed ->
  ctx = Ok tt /\ exists plan family source destination n role txin input prev out userPub guardianPub master private sig,
    accepted req plan family source destination n role txin input prev out userPub guardianPub /\
    keys = Some master /\ guardian_private req master = Ok private /\
    SerializePubKey (priv_PubKey private) = SerializePubKey guardianPub /\
    psbt_NewFromRawBytes signed =
      Some (set_inputs [set_sigs (pi_TaprootScriptSpendSig input ++ [Some sig]) input] (pl_packet plan)) /\
    ts_XOnlyPubKey sig = SerializePubKey guardianPub /\ ts_LeafHash sig = tap_leaf_hash (pl_leaf plan) /\
    ts_SigHash sig = SigHashDefault /\
    verifySchnorrOnInputWithSighash (pl_packet plan) 0 (ts_Signature sig) (SerializePubKey guardianPub) (pl_leaf plan)
      SigHashDefault = Ok tt.
Proof.
  intros Hch E. unfold authorizeTransition in E. apply bind_Ok in E as ([] & -> & E). split; [done|].
  apply bind_Ok in E as (plan & Ev & E). destruct (validate_accepted req plan Hch Ev) as
    (family & s & d & n & role & txin & input & prev & out & userPub & gPub & parent & child & Ha & _).
  destruct keys as [master|]; [|done]. simpl in E. apply bind_Ok in E as (private & Ep & E).
  apply bind_Ok in E as ([] & Ex & E). apply bind_Ok in E as (sig & Es & E). apply bind_Ok in E as ([] & Evs & E).
  apply fail_if_Ok in Ex. bool_hyps. pose proof (ac_guardian _ _ _ _ _ _ _ _ _ _ _ _ _ Ha) as Hg.
  pose proof (ac_inputs _ _ _ _ _ _ _ _ _ _ _ _ _ Ha) as [Hin _]. rewrite Hin in E. simpl in E.
  apply signTapLeaf_Ok in Es as (Hxo & Hlh & Hsh). rewrite Hg in *. unfold b64Encode in E.
  destruct (psbt_B64Encode _) as [raw|] eqn:Eb; [|done]. apply Ok_inj in E as ->. apply psbt_roundtrip in Eb.
  exists plan, family, s, d, n, role, txin, input, prev, out, userPub, gPub, master, private, sig.
  split_and!; try done; congruence.
Qed.
End Theorems.

(** ** An example: the hardware wallet initiates a recovery *)
Definition toy_user_pub : PubKey := byte_of_Z 2 :: str "tpub-hardware" ++ [byte_of_Z 2; byte_of_Z 0].

Definition toy_guardian_pub : PubKey :=
  byte_of_Z 2 :: (byte_of_Z 2 :: toy_root) ++ ledgerTagged "/guardian" [toy_digest] ++ [byte_of_Z 2; byte_of_Z 0].

(** The scripts of the receive address and of the pending address. *)
Definition toy_source_script : bytes :=
  byte_of_Z 2 :: numsPub ++ ledgerTagged "/internal" [toy_digest] ++ [byte_of_Z 0; byte_of_Z 0].
Definition toy_pending_script : bytes :=
  byte_of_Z 2 :: numsPub ++ ledgerTagged "/recovery-internal" [toy_digest; ledgerFields [role_hardware; str "pending"]]
  ++ [byte_of_Z 0; byte_of_Z 0].

Definition toy_signature (pub : PubKey) : option TaprootScriptSpendSig :=
  Some {| ts_XOnlyPubKey := SerializePubKey pub; ts_LeafHash := str "other"; ts_Signature := replicate 64 Byte.x05; ts_SigHash := 0 |}.

Definition toy_transition (signers : list PubKey) : Packet := {|
  pk_UnsignedTx := {| ut_Version := 2; ut_LockTime := 0;
    ut_TxIn := [{| ti_PreviousOutPoint := {| op_Hash := str "parent"; op_Index := 0 |}; ti_Sequence := TransitionSequence |}];
    ut_TxOut := [{| to_Value := 99500; to_PkScript := toy_pending_script |}] |};
  pk_Inputs := [{| pi_WitnessUtxo := Some {| to_Value := 100000; to_PkScript := toy_source_script |}; pi_SighashType := 0;
    pi_TaprootLeafScript := [Some {| tl_ControlBlock := str "control"; tl_Script := str "other"; tl_LeafVersion := 192 |}];
    pi_TaprootScriptSpendSig := map toy_signature signers; pi_Others := [] |}];
  pk_Outputs := [[]]; pk_Unknowns := [] |}.

Definition toy_transition_table : list (bytes * Packet) :=
  [(str "initiate", toy_transition [toy_user_pub]); (str "signed", toy_transition [toy_user_pub; toy_guardian_pub])].

Definition toy_transition_btc : Btc := {|
  psbt_NewFromRawBytes := @psbt_NewFromRawBytes (toy_btc toy_transition_table);
  psbt_B64Encode := @psbt_B64Encode (toy_btc toy_transition_table);
  tx_TxHash := @tx_TxHash (toy_btc []); tap_leaf_hash := fun s => s; control_RootHash := @control_RootHash (toy_btc []);
  unspendable_output_key := fun root => root; P2TRScript := Some; DecodeClosure := @DecodeClosure (toy_btc []);
  script_TapTree := @script_TapTree (toy_btc []); ANCHOR_PKSCRIPT := str "anchor";
  tapscript_sighash := fun _ _ _ _ _ => Some []; tapscript_sign := fun _ _ _ _ _ _ _ => Some (replicate 64 Byte.x05);
  priv_PubKey := fun k => byte_of_Z 2 :: k; schnorr_Verify := fun _ _ _ => true; intent_Verify := fun _ _ _ => true |}.

Definition toy_fields : PsbtFields := {|
  input_fields := fun _ => {| if_NonWitnessUtxo := Some {| pt_TxHash := str "parent";
      pt_TxOut := [{| to_Value := 100000; to_PkScript := toy_source_script |}] |};
    if_TaprootInternalKey := []; if_TaprootMerkleRoot := []; if_TaprootBip32Derivation := []; if_FinalScriptSig := [];
    if_FinalScriptWitness := []; if_TaprootKeySpendSig := []; if_PartialSigs := []; if_RedeemScript := []; if_WitnessScript := [];
    if_Bip32Derivation := []; if_Unknowns := [] |};
  output_fields := fun _ => {| of_RedeemScript := []; of_WitnessScript := []; of_Bip32Derivation := []; of_TaprootInternalKey := [];
    of_TaprootTapTree := []; of_TaprootBip32Derivation := []; of_Unknowns := [] |} |}.

Definition toy_transitions : @Transitions toy_hd := {|
  tx_SerializeNoWitness := fun _ => Some []; wire_WriteTxOut := fun _ _ => Some [];
  leaf_ControlBlock := fun _ _ _ => Some (str "control"); VerifyTaprootLeafCommitment := fun _ _ _ => true;
  tx_SerializeSizeStripped := fun _ => 100; tx_SerializeSize := fun _ _ => 200;
  HDPrivateKeyID_TestNet3 := []; HDPrivateKeyID_MainNet := [];
  hd_ChainCode := fun k : @ExtendedKey toy_hd => drop 33 (snd k);
  hd_ECPrivKey := fun k : @ExtendedKey toy_hd => if fst k then Some (byte_of_Z 2 :: snd k) else None |}.

Definition toy_initiation : ledgerSavingsTransitionAuthorization := {|
  st_keyContext := toy_contract; st_policy := DefaultSpendingPolicy; st_kind := str "initiate"; st_claimant := role_hardware;
  st_remainingUser := []; st_change := 0; st_retainedPSBT := str "initiate"; st_directProof := [] |}.

Lemma toy_initiation_signed :
  @authorizeTransition toy_transition_btc toy_secp toy_ark toy_addresses toy_hd toy_txscript toy_fields toy_transitions (fun _ _ _ _ => true)
    (Some (replicate 32 Byte.x0b)) (Ok tt) toy_initiation = Ok (str "signed").
Proof.
  unfold authorizeTransition, validateLedgerSavingsTransition, ledgerSavingsTransitionTrees, guardian_private, initiate_trees,
    BuildLedgerNativeFamily, recovery_family, quarantine_tree, pending_tree, clawback_leaf, LedgerRecoveryInternalParent,
    LedgerGuardianClawbackChild, LedgerGuardianClawbackBranch, BuildLedgerNativeSavings, LedgerSavingsInternalParent, initiate_leaf,
    savings_tree, initiate_script, LedgerGuardianInitiateChild, LedgerGuardianInitiateBranch, ledgerGuardianChild,
    LedgerSavingsGuardianParent.
  change (st_keyContext toy_initiation) with toy_contract. rewrite toy_digest_ok. vm_compute. reflexivity.
Qed.

Lemma authorize_validates `{Btc} `{Secp} `{ArkScript} `{Addresses} `{hd : Hd} `{Txscript} `{PsbtFields} `{!Transitions} `{EcdsaVerify} keys ctx req s :
  authorizeTransition keys ctx req = Ok s -> exists plan, validateLedgerSavingsTransition req = Ok plan.
Proof. unfold authorizeTransition. intros E. apply bind_Ok in E as (? & _ & E). apply bind_Ok in E as (plan & Ev & _). by exists plan. Qed.

Lemma toy_transition_laws : @PsbtLaws toy_transition_btc.
Proof.
  assert (NoDup (map fst toy_transition_table)) as Hn by (apply NoDup_ListNoDup; vm_compute; repeat constructor; intros []; try discriminate; done).
  exact (toy_laws toy_transition_table Hn).
Qed.

Lemma guardian_signature_exact_witness :
  exists sig, @psbt_NewFromRawBytes toy_transition_btc (str "signed") =
      Some (set_inputs [set_sigs (map toy_signature [toy_user_pub] ++ [Some sig])
        (set_sigs [] (List.hd (toy_pinput 0 0 []) (pk_Inputs (toy_transition [toy_user_pub]))))] (toy_transition [toy_user_pub])) /\
    ts_LeafHash sig = str "other".
Proof.
  set (btc := toy_transition_btc). set (secp := toy_secp). set (ark := toy_ark). set (addresses := toy_addresses).
  set (hd := toy_hd). set (tx := toy_txscript). set (fields := toy_fields). set (transitions := toy_transitions). set (ecdsa := (fun _ _ _ _ => true) : EcdsaVerify).
  destruct (guardian_signature_exact (H7 := toy_transition_laws) (Some (replicate 32 Byte.x0b)) (Ok tt) toy_initiation (str "signed")
    ltac:(vm_compute; discriminate) toy_initiation_signed) as
    (_ & plan & family & s & d & n & role & txin & input & prev & out & userPub & gPub & master & private & sig & Ha & _ & _ & _ & Hp & _ & Hl & _).
  pose proof (ac_packet _ _ _ _ _ _ _ _ _ _ _ _ _ Ha) as Epk. pose proof (proj1 (ac_inputs _ _ _ _ _ _ _ _ _ _ _ _ _ Ha)) as Ein.
  assert (parsePSBT (st_retainedPSBT toy_initiation) = Ok (toy_transition [toy_user_pub])) as Et by (vm_compute; reflexivity).
  apply (eq_trans (eq_sym Et)), Ok_inj in Epk. rewrite <-Epk in Ein, Hp. injection Ein as Ein.
  exists sig. split; [etransitivity; [exact Hp|rewrite <-Ein; reflexivity]|].
  assert (pl_leaf plan = str "other") as <-; [|exact Hl].
  assert (@closure_Script ark (MultisigClosure [Some userPub; Some gPub]) = Some (str "other")) as E by reflexivity.
  destruct (ac_leaf _ _ _ _ _ _ _ _ _ _ _ _ _ Ha) as [_ Hc]. rewrite Hc in E. injection E as ->. reflexivity.
Defined.

Lemma savings_transition_sound_witness :
  exists prev out : TxOut, to_PkScript prev = toy_source_script /\ to_PkScript out = toy_pending_script /\
    330 <= to_Value out < to_Value prev.
Proof.
  set (btc := toy_transition_btc). set (secp := toy_secp). set (ark := toy_ark). set (addresses := toy_addresses).
  set (hd := toy_hd). set (tx := toy_txscript). set (fields := toy_fields). set (transitions := toy_transitions). set (ecdsa := (fun _ _ _ _ => true) : EcdsaVerify).
  destruct (authorize_validates _ _ _ _ toy_initiation_signed) as [plan Ev].
  destruct (savings_transition_sound toy_initiation plan ltac:(vm_compute; discriminate) Ev) as
    (family & s & d & n & role & txin & input & prev & out & userPub & gPub & Ha).
  pose proof (ac_packet _ _ _ _ _ _ _ _ _ _ _ _ _ Ha) as Epk. pose proof (proj1 (ac_inputs _ _ _ _ _ _ _ _ _ _ _ _ _ Ha)) as Ein.
  pose proof (ac_tx _ _ _ _ _ _ _ _ _ _ _ _ _ Ha) as Etx.
  assert (parsePSBT (st_retainedPSBT toy_initiation) = Ok (toy_transition [toy_user_pub])) as Et by (vm_compute; reflexivity).
  apply (eq_trans (eq_sym Et)), Ok_inj in Epk. rewrite <-Epk in Ein, Etx. injection Ein as Ein. injection Etx as _ Eout.
  exists prev, out. pose proof (ac_witness _ _ _ _ _ _ _ _ _ _ _ _ _ Ha) as Hw. rewrite <-Ein in Hw. injection Hw as <-.
  split; [reflexivity|]. split; [rewrite <-Eout; reflexivity|]. exact (proj1 (ac_value _ _ _ _ _ _ _ _ _ _ _ _ _ Ha)).
Defined.
