(* ===== verification/VtxoRely.v ===== *)
(** * What the payment requests leave alone

    The rows that a payment request may change while others run, and how: the
    relation [payments_kept] on ledgers, which each ledger call satisfies when the
    row it writes comes from one that was read before. *)
From Stdlib Require Import Strings.Byte.
From S2P Require Import Prelude Sha256 Text Program Vtxo Journal Store VtxoLedger Handler Service.

#[local] Arguments sha256 : simpl never.
#[local] Arguments hmac_sha256 : simpl never.
#[local] Arguments vo_encoding : simpl never.

Lemma wrap64_wrap_int64 z : is_uint64 z -> wrap64 (wrap_int64 z) = z.
Proof.
  unfold is_uint64, wrap64, wrap_int64, max_uint64. intros Hz.
  replace ((z + 9223372036854775808) mod 18446744073709551616 - 9223372036854775808)
    with (z + - ((z + 9223372036854775808) / 18446744073709551616) * 18446744073709551616)
    by (pose proof (Z.div_mod (z + 9223372036854775808) 18446744073709551616); lia).
  rewrite Z.mod_add by lia. apply Z.mod_small. lia.
Qed.

(** ** Stages of a payment *)
Definition stage (state : bytes) : nat :=
  if state == vtxoStateReserved then 0 else if state == vtxoStateSigned then 1 else if state == vtxoStateSubmitted then 2 else 3.

Lemma edge_stage a b : transition_edge a b -> (stage a < stage b)%nat.
Proof.
  intros H. apply valid_transition_cases in H.
  repeat match goal with
  | H : _ \/ _ |- _ => destruct H as [H|H]
  | H : _ /\ _ |- _ => destruct H as [-> H]
  end; subst; vm_compute; lia.
Qed.

Lemma path_stage a b : tc transition_edge a b -> (stage a < stage b)%nat.
Proof. induction 1 as [a b H|a b c H _ IH]; [by apply edge_stage|]. apply edge_stage in H. lia. Qed.

(** What a payment pays: every field that is fixed with the reservation. *)
Definition payment_terms (r : VtxoOperation) : VtxoOperation :=
  match r with
  | Build_VtxoOperation i v p b _ a f fd d cs c cv _ _ _ _ _ _ ct _ e _ ld _ =>
      Build_VtxoOperation i v p b [] a f fd d cs c cv [] [] [] [] [] [] ct [] e [] ld []
  end.

(** What the user and the vault have signed. *)
Definition payment_authorization (r : VtxoOperation) : list bytes :=
  [vo_UnsignedPSBT r; vo_AuthorizedPSBT r; vo_PendingProofDigest r; vo_AuthorizedPendingProof r; vo_ArkTxid r].

Definition payment_checkpoints (r : VtxoOperation) : list bytes := [vo_CheckpointPSBTs r; vo_CheckpointRequestPSBTs r].

(** A row and the same payment's row later. *)
Record row_moved (r r' : VtxoOperation) : Prop := {
  rm_path : tc transition_edge (vo_State r) (vo_State r');
  rm_terms : payment_terms r' = payment_terms r;
  rm_authorization : (1 <= stage (vo_State r))%nat -> payment_authorization r' = payment_authorization r;
  rm_checkpoints : (2 <= stage (vo_State r))%nat -> payment_checkpoints r' = payment_checkpoints r;
}.

Definition row_kept (r r' : VtxoOperation) : Prop := r' = r \/ row_moved r r'.

Lemma row_moved_trans r1 r2 r3 : row_moved r1 r2 -> row_moved r2 r3 -> row_moved r1 r3.
Proof.
  intros [Hp1 Ht1 Ha1 Hc1] [Hp2 Ht2 Ha2 Hc2]. pose proof (path_stage _ _ Hp1). split.
  - by etransitivity.
  - congruence.
  - intros. rewrite Ha2 by lia. by apply Ha1.
  - intros. rewrite Hc2 by lia. by apply Hc1.
Qed.

#[export] Instance row_kept_preorder : PreOrder row_kept.
Proof.
  split; [by left|]. intros r1 r2 r3 [->|H1] [->|H2]; [by left|by right..|right]. by eapply row_moved_trans.
Qed.

(** Up to the integrity tag, a row in the same state is the same row. *)
Lemma row_kept_state r r' : row_kept r r' -> vo_State r' = vo_State r -> r' = r.
Proof. intros [->|[Hp _ _ _]] E; [done|]. apply path_stage in Hp. rewrite E in Hp. lia. Qed.

Lemma payment_terms_MAC m r : payment_terms (vo_set_MAC m r) = payment_terms r.
Proof. by destruct r. Qed.

(** ** The ledger *)
Definition coins (d : Db) (id : bytes) : list VtxoOperationInput :=
  List.filter (fun i => vi_OperationID i == id) (t_input (db_vtxo d)).

Definition op_kept (d d' : Db) (id : bytes) : Prop :=
  match find_operation d id with
  | Some r => exists r', find_operation d' id = Some r' /\ row_kept r r' /\ coins d' id = coins d id
  | None => match find_operation d' id with
            | Some r' => rtc transition_edge vtxoStateReserved (vo_State r')
            | None => True
            end
  end.

(** No payment disappears or goes back; its terms and its coins never change;
    what was signed stays signed. *)
Definition payments_kept (d d' : Db) : Prop := ids_unique d -> ids_unique d' /\ forall id, op_kept d d' id.

Lemma op_kept_refl d id : op_kept d d id.
Proof. unfold op_kept. destruct (find_operation d id) as [r|]; [|done]. by exists r. Qed.

Lemma tc_rtc_edge x a b : rtc transition_edge x a -> tc transition_edge a b -> rtc transition_edge x b.
Proof. intros H1 H2. etransitivity; [done|by apply tc_rtc]. Qed.

#[export] Instance payments_kept_preorder : PreOrder payments_kept.
Proof.
  split.
  - intros d Hu. split; [done|]. intros id. apply op_kept_refl.
  - intros d1 d2 d3 H1 H2 Hu. destruct (H1 Hu) as [Hu2 K1]. destruct (H2 Hu2) as [Hu3 K2]. split; [done|].
    intros id. specialize (K1 id). specialize (K2 id). unfold op_kept in *.
    destruct (find_operation d1 id) as [r1|].
    + destruct K1 as (r2 & E2 & Hr & Hc). rewrite E2 in K2. destruct K2 as (r3 & E3 & Hr' & Hc').
      exists r3. split_and!; [done|by etransitivity|congruence].
    + destruct (find_operation d2 id) as [r2|]; [|by destruct (find_operation d3 id)].
      destruct K2 as (r3 & -> & Hr & _). destruct Hr as [->|[Hp _ _ _]]; [done|by eapply tc_rtc_edge].
Qed.

Lemma kept_vtxo_eq d d1 d2 : payments_kept d d1 -> db_vtxo d2 = db_vtxo d1 -> payments_kept d d2.
Proof. unfold payments_kept, ids_unique, op_kept, find_operation, coins. by intros H ->. Qed.

Lemma kept_same d d' : db_vtxo d' = db_vtxo d -> payments_kept d d'.
Proof. by apply kept_vtxo_eq. Qed.

(** A row-wise change that keeps every row. *)
Lemma kept_map d g :
  (forall r, vo_OperationID (g r) = vo_OperationID r) -> (forall r, r ∈ t_operation (db_vtxo d) -> row_kept r (g r)) ->
  payments_kept d (set_operations (map g (t_operation (db_vtxo d))) d).
Proof.
  intros Hid Hg Hu. split.
  - unfold ids_unique in *. cbn. by rewrite map_map, (map_ext _ _ Hid).
  - intros id. unfold op_kept. rewrite find_operation_map, find_operation_id by done.
    destruct (find_operation d id) as [r|] eqn:E; cbn; [|done]. apply find_operation_Some in E as [Hr _]. eauto.
Qed.

Lemma aborted_kept key r : vo_State r = vtxoStateReserved -> row_kept r (aborted_image key r).
Proof.
  intros E. right. unfold aborted_image. generalize (hmac_sha256 key (vo_encoding (vo_set_State vtxoStateAborted r))).
  intros m. destruct r. simpl in E. subst. split; [apply tc_once; by vm_compute|done|vm_compute; lia|vm_compute; lia].
Qed.

Lemma update_kept expected rec l l' n :
  updateVtxoOperation expected rec l = (l', Ok n) ->
  (forall r, r ∈ t_operation (db_vtxo (l_db l)) -> vo_OperationID r = vo_OperationID rec -> vo_State r = expected -> row_kept r rec) ->
  payments_kept (l_db l) (l_db l').
Proof.
  unfold updateVtxoOperation. intros H Hk. apply update_operations_Ok in H as [-> _]. cbn [l_db set_db]. apply kept_map.
  - intros r. case_match eqn:E; [|done]. by bool_hyps.
  - intros r Hr. case_match eqn:E; [|by left]. bool_hyps. by apply Hk.
Qed.

(** The row of a successful reservation. *)
Lemma reserve_found rec inputs cap l l' :
  ids_unique (l_db l) -> ReserveVtxoOperation rec inputs cap l = (l', Ok tt) ->
  exists m, find_operation (l_db l') (vo_OperationID rec) = Some (vo_set_MAC m rec).
Proof.
  intros Hu H. apply reserve_effect_Ok in H as
    [key l1 l2 all t used sealed ins Hk El1 _ _ _ _ _ El2 _ _ _ _ Hseal Hnew _ _ Ho]; [|done].
  apply observe_frame in Ho as (-> & _). apply Seal_encoding in Hseal as [Es _].
  rewrite has_operation_ids in Hnew. exists (hmac_sha256 key (vo_encoding rec)). rewrite <-Es.
  replace (vo_OperationID rec) with (vo_OperationID sealed) in * by (by rewrite Es).
  rewrite El2. cbn [l_db set_db]. apply find_new_row. subst l1. cbn. by rewrite aborted_ids.
Qed.

(** A successful reservation adds one payment, and aborts those that expired. *)
Lemma reserve_kept rec inputs cap l l' :
  vo_State rec = vtxoStateReserved -> reserve_effect rec inputs cap l l' -> payments_kept (l_db l) (l_db l').
Proof.
  intros Hst He Hu. split; [by apply (lifecycle_reserve _ _ _ _ _ Hu Hst He)|]. intros id.
  destruct He as [key l1 l2 all t used sealed ins Hk -> _ _ _ _ _ -> _ _ _ _ Hseal Hnew _ Hins Hobs].
  apply observe_frame in Hobs as [-> _].
  cbn [l_db set_db set_delegation set_operations set_vtxo set_inputs db_vtxo t_operation t_input].
  apply Seal_encoding in Hseal as [Es _]. set (g := fun r => if expiry_due _ _ r then _ else r).
  destruct (kept_map (l_db l) g) as [_ Hg]; [..|done|].
  { unfold g. intros r. by destruct (expiry_due _ _ r). }
  { unfold g. intros r _. destruct (expiry_due _ _ r) eqn:Ed; [|by left]. apply aborted_kept.
    unfold expiry_due in Ed. bool_hyps. by apply expiry_candidate_true in H as (_ & -> & _). }
  specialize (Hg id). unfold op_kept in *.
  assert (forall d ins t, find_operation (set_inputs ins (set_operations (map g (t_operation (db_vtxo (l_db l)))
      ++ [sealed]) (set_delegation t d))) id = find_operation (set_operations (map g (t_operation (db_vtxo (l_db l)))
      ++ [sealed]) (l_db l)) id) as -> by done.
  rewrite find_operation_snoc. destruct (find_operation (l_db l) id) as [r|] eqn:Ef.
  - destruct Hg as (r' & -> & Hr & _). exists r'. split_and!; [done|done|].
    unfold coins. cbn [db_vtxo set_inputs set_vtxo t_input]. rewrite List.filter_app.
    assert (List.filter (fun i => vi_OperationID i == id) ins = []) as ->; [|by rewrite app_nil_r].
    apply find_operation_Some in Ef as [Hr' <-]. rewrite has_operation_ids in Hnew.
    assert (vo_OperationID rec <> vo_OperationID r) as Hne.
    { intros E. assert (vo_OperationID r ∈ map vo_OperationID (t_operation (db_vtxo (l_db l)))) as Hin
        by (apply list_elem_of_fmap; eauto). apply (existsb_none _ _ _ Hnew) in Hin. bool_hyps. by rewrite E in Hin. }
    clear -Hins Hne. induction Hins as [|i s inputs ins Hs _ IH]; [done|]. simpl.
    assert (vi_OperationID s = vo_OperationID rec) as ->.
    { apply Seal_Verify_input in Hs as [_ ->]. done. }
    by rewrite bool_decide_eq_false_2.
  - destruct (find_operation (set_operations _ _) id) as [r'|]; [done|].
    destruct (vo_OperationID sealed == id); [|done]. rewrite Es. simpl. by rewrite Hst.
Qed.

(** ** Rows that were read *)

(** [op] was read from the ledger, or written to it: the row of the same payment
    is [op], but for the tag, or has moved on from it. *)
Definition held (op : VtxoOperation) (d : Db) : Prop :=
  ids_unique d /\ exists m r, find_operation d (vo_OperationID op) = Some r /\ row_kept (vo_set_MAC m op) r.

Lemma held_stable op d d' : payments_kept d d' -> held op d -> held op d'.
Proof.
  intros Hk (Hu & m & r & E & Hr). destruct (Hk Hu) as [Hu' K]. split; [done|].
  specialize (K (vo_OperationID op)). unfold op_kept in K. rewrite E in K. destruct K as (r' & E' & Hr' & _).
  exists m, r'. split; [done|by etransitivity].
Qed.

Lemma MAC_same r : vo_set_MAC (vo_IntegrityMAC r) r = r.
Proof. by destruct r. Qed.

Lemma held_found op d : ids_unique d -> find_operation d (vo_OperationID op) = Some op -> held op d.
Proof. intros Hu E. split; [done|]. exists (vo_IntegrityMAC op), op. split; [done|]. left. by rewrite MAC_same. Qed.

Lemma load_found l id op : loadVtxoOperation l id = Ok op -> find_operation (l_db l) id = Some op /\ vo_OperationID op = id.
Proof.
  unfold loadVtxoOperation. intros E. apply bind_Ok in E as (key & _ & E).
  destruct (find_operation (l_db l) id) as [row|] eqn:Ef; [|done]. apply verified_Ok in E as [-> _].
  split; [done|]. by apply find_operation_Some in Ef as [_ ?].
Qed.

Lemma load_held l id op : ids_unique (l_db l) -> loadVtxoOperation l id = Ok op -> held op (l_db l) /\ vo_OperationID op = id.
Proof.
  intros Hu E. apply load_found in E as [E <-]. split; [|done]. by apply held_found.
Qed.

Lemma held_row op d r : held op d -> find_operation d (vo_OperationID op) = Some r -> exists m, row_kept (vo_set_MAC m op) r.
Proof. intros (_ & m & r' & E & Hr) E'. rewrite E in E'. injection E' as <-. by exists m. Qed.

Lemma kept_terms m op r : row_kept (vo_set_MAC m op) r -> payment_terms r = payment_terms op.
Proof. intros [->|[_ Ht _ _]]; [|rewrite Ht]; apply payment_terms_MAC. Qed.

Lemma held_terms op d r : held op d -> find_operation d (vo_OperationID op) = Some r -> payment_terms r = payment_terms op.
Proof. intros Hh E. destruct (held_row _ _ _ Hh E) as [m Hr]. by apply kept_terms in Hr. Qed.

(** ** What is read *)
Lemma inputs_coins l id inputs : GetVtxoOperationInputs id l = Ok inputs -> inputs = slice_stable input_before (coins (l_db l) id).
Proof.
  unfold GetVtxoOperationInputs, loadVtxoOperationInputs. intros E. apply bind_Ok in E as ([] & _ & E).
  apply bind_Ok in E as (key & _ & E). unfold coins. revert E. generalize (slice_stable input_before
    (List.filter (fun i => vi_OperationID i == id) (t_input (db_vtxo (l_db l))))). clear. intros rows. revert inputs.
  induction rows as [|i rows IH]; intros inputs E; cbn [collect] in E; [by apply Ok_inj in E|]. inv_ok.
  unfold verified_input in *. inv_ok. f_equal. by apply IH.
Qed.

Lemma coins_kept op d d' : held op d -> payments_kept d d' -> coins d' (vo_OperationID op) = coins d (vo_OperationID op).
Proof.
  intros (Hu & m & r & E & _) Hk. destruct (Hk Hu) as [_ K]. specialize (K (vo_OperationID op)). unfold op_kept in K.
  rewrite E in K. by destruct K as (r' & _ & _ & ?).
Qed.

Lemma filter_none {A} (f : A -> bool) l : (forall x, x ∈ l -> f x = false) -> List.filter f l = [].
Proof.
  induction l as [|x l IH]; intros Hl; [done|]. cbn [List.filter]. rewrite Hl by apply list_elem_of_here.
  apply IH. intros y Hy. by apply Hl, list_elem_of_further.
Qed.

(** An update that does not report one row changed none. *)
Lemma selected_once d expected rec : ids_unique d ->
  (length (List.filter (fun r => (vo_OperationID r == vo_OperationID rec) && (vo_VaultID r == vo_VaultID rec)
     && (vo_State r == expected)) (t_operation (db_vtxo d))) <= 1)%nat.
Proof.
  unfold ids_unique. generalize (t_operation (db_vtxo d)). intros rows Hn. induction rows as [|x rows IH]; [simpl; lia|].
  cbn in Hn. apply NoDup_cons in Hn as [Hx Hn]. cbn [List.filter]. case_match eqn:E; [|by apply IH]. simpl.
  enough (List.filter (fun r => (vo_OperationID r == vo_OperationID rec) && (vo_VaultID r == vo_VaultID rec)
     && (vo_State r == expected)) rows = []) as -> by (simpl; lia).
  apply filter_none. intros y Hy. bool_hyps. apply not_true_iff_false. intros Ey. bool_hyps. destruct Hx.
  apply list_elem_of_fmap. exists y. split; [congruence|done].
Qed.

Lemma update_none expected rec l l' n : ids_unique (l_db l) -> updateVtxoOperation expected rec l = (l', Ok n) -> n <> 1 ->
  forall id, find_operation (l_db l') id = find_operation (l_db l) id.
Proof.
  intros Hu H Hn id. pose proof (selected_once (l_db l) expected rec Hu) as Hl. unfold updateVtxoOperation in H.
  apply update_operations_Ok in H as [-> ->]. revert Hl Hn. set (sel := fun r => _ && _). intros Hl Hn.
  destruct (List.filter sel _) as [|x [|y ys]] eqn:Ef; simpl in Hl, Hn; [|done|lia]. cbn [l_db set_db].
  rewrite <-(find_operation_id (l_db l)). f_equal. f_equal. clear -Ef. induction (t_operation (db_vtxo (l_db l))) as [|r rows IH]; [done|].
  cbn [List.filter map] in *. unfold sel in *. destruct (_ && _ : bool); [done|]. f_equal. by apply IH.
Qed.

(** A row that [op] may become: one more step on its way. *)
Definition next_row (op rec : VtxoOperation) : Prop := row_moved op rec /\ vo_OperationID rec = vo_OperationID op.

Lemma row_moved_MAC m m' r r' : row_moved r r' -> row_moved (vo_set_MAC m r) (vo_set_MAC m' r').
Proof. intros [Hp Ht Ha Hc]. destruct r, r'. by split. Qed.

Lemma held_next op rec m d : held op d -> next_row op rec ->
  forall r, r ∈ t_operation (db_vtxo d) -> vo_OperationID r = vo_OperationID rec -> vo_State r = vo_State op ->
  row_kept r (vo_set_MAC m rec).
Proof.
  intros (Hu & m0 & r0 & E & Hr0) [Hm Hid] r Hr Er Hs. pose proof (unique_find _ _ Hu Hr) as E'.
  rewrite Er, Hid, E in E'. injection E' as ->. apply row_kept_state in Hr0; [|by destruct op]. subst r.
  right. by apply row_moved_MAC.
Qed.

(** A transition with a row that comes from one that was read keeps every
    payment; the row it returns was read or written by it. *)
Lemma transition_kept op rec l :
  held op (l_db l) -> next_row op rec ->
  let '(l', r) := TransitionVtxoOperation (vo_State op) rec l in
  payments_kept (l_db l) (l_db l') /\
  forall cur swapped, r = Ok (cur, swapped) ->
    if swapped : bool then held rec (l_db l')
    else held cur (l_db l') /\ vo_OperationID cur = vo_OperationID op /\ payment_terms cur = payment_terms op.
Proof.
  intros Hh Hnext. destruct (TransitionVtxoOperation (vo_State op) rec l) as [l' r] eqn:H.
  pose proof Hh as (Hu & _). unfold TransitionVtxoOperation in H.
  apply guard_bind_inv in H as [[_ H]|[-> ->]]; [|done]. apply guard_bind_inv in H as [[_ H]|[-> ->]]; [|done].
  apply read_bind_inv in H as [(key & _ & H)|[-> (e & ->)]]; [|done].
  apply lift_bind_inv in H as [(sealed & Hs & H)|[-> (e & ->)]]; [|done].
  apply Seal_encoding in Hs as [Es _]. revert Es. generalize (hmac_sha256 key (vo_encoding rec)). intros m Es.
  assert (Hid : vo_OperationID sealed = vo_OperationID rec) by (by rewrite Es).
  assert (forall x, x ∈ t_operation (db_vtxo (l_db l)) -> vo_OperationID x = vo_OperationID sealed ->
    vo_State x = vo_State op -> row_kept x sealed) as Hrow.
  { intros x Hx Ex. rewrite Es. rewrite Hid in Ex. by apply (held_next op rec m (l_db l) Hh Hnext). }
  apply bind_inv in H as [(n & l1 & H1 & H)|(e & H & ->)].
  - apply transaction_Ok in H1 as [H1 _]. pose proof (update_kept _ _ _ _ _ H1 Hrow) as Hk.
    destruct (Z.eqb_spec n 1) as [->|].
    + injection H as <- <-. split; [done|]. intros cur swapped E. apply Ok_inj, pair_equal_spec in E as [<- <-].
      destruct (Hk Hu) as [Hu' _]. split; [done|]. exists m, sealed.
      apply update_one_Ok in H1 as (_ & Hf & _); [|done]. rewrite <-Hid. split; [done|]. left. done.
    + apply read_bind_inv in H as [(cur & Hl & H)|[-> (e & ->)]]; [|done]. injection H as <- <-. split; [done|].
      intros cur' swapped E. apply Ok_inj, pair_equal_spec in E as [<- <-]. destruct (Hk Hu) as [Hu' _].
      destruct Hnext as [_ Eid]. rewrite Eid in Hl. destruct (load_held _ _ _ Hu' Hl) as [? ?]. split; [done|]. split; [done|].
      apply load_found in Hl as [Hl _]. by eapply held_terms; [eapply held_stable|].
  - apply transaction_Err in H as ->. done.
Qed.

(** Committing a signature, likewise. *)
Lemma commit_kept op rec cred n l :
  held op (l_db l) -> next_row op rec -> vo_State op = vtxoStateReserved ->
  payments_kept (l_db l) (l_db (fst (CommitSignedVtxoOperation rec cred n l))).
Proof.
  intros Hh Hnext Hst. destruct (CommitSignedVtxoOperation rec cred n l) as [l' r] eqn:H. cbn [fst].
  apply CommitSigned_cases in H as [->|(key & sealed & l1 & -> & _ & Hs & _ & H1 & H2)]; [done|].
  apply advance_vtxo_frame in H2. eapply kept_vtxo_eq, H2. eapply update_kept; [done|].
  apply Seal_encoding in Hs as [Es _]. revert Es. generalize (hmac_sha256 key (vo_encoding rec)). intros m ->.
  intros x Hx Ex Ex'. apply (held_next op rec m (l_db l) Hh Hnext x Hx); [done|]. by rewrite Hst.
Qed.

Lemma transaction_if_true {A} (body : M (A * bool)) l l' a :
  transaction_if body l = (l', Ok (a, true)) -> body l = (l', Ok (a, true)).
Proof.
  unfold transaction_if. destruct (body l) as [l1 [[b []]|e]]; [destruct (l_commit_ok l1)|..];
    intros H; apply pair_equal_spec in H as [<- H]; first [done | by rewrite H].
Qed.

(** What committing a signature returns is in the ledger. *)
Lemma commit_row rec cred n l l' cur (swapped : bool) :
  ids_unique (l_db l) -> CommitSignedVtxoOperation rec cred n l = (l', Ok (cur, swapped)) ->
  if swapped then exists m, find_operation (l_db l') (vo_OperationID rec) = Some (vo_set_MAC m rec)
  else find_operation (l_db l') (vo_OperationID rec) = Some cur /\ l_db l' = l_db l.
Proof.
  intros Hu H. unfold CommitSignedVtxoOperation in H. inv_M. apply Seal_encoding in E1 as [Es _].
  revert Es. generalize (hmac_sha256 r (vo_encoding rec)). intros m Es.
  assert (Hid : vo_OperationID r0 = vo_OperationID rec) by (by rewrite Es). rewrite <-Hid. destruct swapped.
  - apply transaction_if_true, commit_signed_Ok in H as (-> & l1 & H1 & H2). exists m. apply update_one_Ok in H1 as (_ & Hf & _); [|done].
    apply advance_vtxo_frame in H2. unfold find_operation in *. rewrite H2, Hf. by rewrite Es.
  - apply transaction_if_false in H as (El & l1 & H). split; [|done]. rewrite El. unfold commit_signed_body in H.
    apply bind_Ok_M in H as (k & l2 & H1 & H). destruct (Z.eqb_spec k 1) as [->|Hk]; cbn [negb] in H.
    { inv_M. by apply pair_equal_spec in H as [_ ?]. }
    rewrite <-(update_none _ _ _ _ _ Hu H1 Hk). read_step H c Hc. inv_M. apply pair_equal_spec in H as [-> _]. by apply load_found in Hc as [? _].
Qed.

(** A reservation keeps every payment, whether it succeeds or not. *)
Lemma Reserve_kept rec inputs cap l : payments_kept (l_db l) (l_db (fst (ReserveVtxoOperation rec inputs cap l))).
Proof.
  destruct (ReserveVtxoOperation rec inputs cap l) as [l' [[]|e]] eqn:H; cbn [fst].
  - intros Hu. eapply reserve_kept; [|by apply reserve_effect_Ok|done].
    unfold ReserveVtxoOperation in H. inv_M. by bool_hyps.
  - apply reserve_rollback in H as ->. done.
Qed.

Notation db s := (l_db (st_ledger s)).
Definition kept (s s' : State) : Prop := payments_kept (db s) (db s').

#[export] Instance kept_preorder : PreOrder kept.
Proof. unfold kept. split; [intros s; reflexivity|]. intros s1 s2 s3 H1 H2. by etransitivity. Qed.

(** ** A small logic for handlers *)
Section Logic.
(** [V] is any property of the states that the request meets. *)
Variable V : State -> Prop.

(** A request meets a state: the others have moved, and kept every payment. *)
Definition meets (s s1 : State) : Prop := kept s s1 /\ V s1.

(** [ensures p P s]: from [s], [p] guarantees [kept], and [P] holds of what it
    returns, if it returns no error. *)
Definition ensures {A} (p : Prog State A) (P : A -> State -> Prop) (s : State) : Prop :=
  guarantees meets kept p (fun r s => match r with Ok a => P a s | Err _ => True end) s.

Lemma meets_kept : subrelation meets kept.
Proof. by intros s s1 [? _]. Qed.

Lemma ensures_runs {A} (p : Prog State A) P env s s' a :
  subrelation env meets -> ensures p P s -> runs env p s s' (Ok a) -> P a s'.
Proof. intros Hsub Hp Hr. exact (guarantees_runs meets kept p _ env s s' (Ok a) Hsub Hp Hr). Qed.

Section Ensures.
Context {A : Type}.
Implicit Types (P : A -> State -> Prop) (s : State).

Lemma ensures_bind {X} (p : Prog State X) (f : X -> Prog State A) P s :
  ensures p (fun x s => ensures (f x) P s) s -> ensures (p ≫= f) P s.
Proof. intros H. apply guarantees_bind. eapply guarantees_mono, H. by intros [a|e] s1. Qed.

Lemma ensures_pure (r : result A) P s : (forall a, r = Ok a -> P a s) -> ensures (pure r) P s.
Proof. intros H. destruct r; simpl; [by apply H|done]. Qed.

Lemma ensures_ret (a : A) P s : P a s -> ensures (mret a) P s.
Proof. done. Qed.

Lemma ensures_ask (f : Ledger -> result A) P s :
  (forall s1 a, kept s s1 -> V s1 -> f (st_ledger s1) = Ok a -> P a s1) -> ensures (ask f) P s.
Proof.
  intros H. apply guarantees_call. intros s1 [H1 HV]. cbn [fst snd]. split; [done|].
  destruct (f (st_ledger s1)) eqn:E; [|done]. by apply H.
Qed.

Lemma ensures_index (f : option publishedIndex -> A) P s :
  (forall s1, kept s s1 -> V s1 -> P (f (st_published s1)) s1) -> ensures (on_index f) P s.
Proof. intros H. apply guarantees_call. intros s1 [H1 HV]. cbn [fst snd]. split; [done|]. by apply H. Qed.

Lemma ensures_try (p : Prog State A) (P : result A -> State -> Prop) s :
  (forall s1 e, kept s s1 -> P (Err e) s1) -> ensures p (fun a => P (Ok a)) s -> ensures (try_prog p) P s.
Proof.
  intros He H. apply guarantees_try. apply (guarantees_moved meets kept) in H; [|exact meets_kept]. eapply guarantees_mono, H.
  intros [a|e] s1 [Hk HP]; [done|]. by apply He.
Qed.

Lemma ensures_mono (p : Prog State A) P P' s :
  (forall a s1, kept s s1 -> P a s1 -> P' a s1) -> ensures p P s -> ensures p P' s.
Proof.
  intros HP H. apply (guarantees_moved meets kept) in H; [|exact meets_kept]. eapply guarantees_mono, H.
  intros [a|e] s1 [Hk Hq]; [by apply HP|done].
Qed.

(** A ledger method. *)
Lemma ensures_ledger (m : M A) P s :
  (forall s1, kept s s1 -> let '(l, r) := m (st_ledger s1) in
     payments_kept (db s1) (l_db l) /\ forall a, r = Ok a -> P a (set_ledger l s1)) ->
  ensures (on_ledger m) P s.
Proof.
  intros H. apply guarantees_call. intros s1 [H1 _]. specialize (H s1 H1). destruct (m (st_ledger s1)) as [l r]. cbn [fst snd].
  destruct H as [Hk H]. split; [done|]. destruct r; [by apply H|done].
Qed.
End Ensures.

Lemma ensures_require c e P s : (c = false -> P tt s) -> ensures (require c e) P s.
Proof. intros H. apply ensures_pure. intros [] E. apply H. by apply fail_if_Ok in E. Qed.

(** ** Assertions about payments *)
Definition unique (s : State) : Prop := ids_unique (db s).
Definition holds (op : VtxoOperation) (s : State) : Prop := held op (db s).

(** What no request takes away. *)
Class Stable (P : State -> Prop) := stable s s' : kept s s' -> P s -> P s'.

#[export] Instance unique_stable : Stable unique.
Proof. intros s s' Hk Hu. by apply Hk. Qed.

#[export] Instance holds_stable op : Stable (holds op).
Proof. intros s s'. apply held_stable. Qed.

Lemma holds_unique op s : holds op s -> unique s.
Proof. by intros [? _]. Qed.

Lemma ensures_transition op rec expected P s :
  holds op s -> next_row op rec -> vo_State op = expected ->
  (forall s1 cur swapped, kept s s1 -> (if swapped : bool then holds rec s1
     else holds cur s1 /\ vo_OperationID cur = vo_OperationID op /\ payment_terms cur = payment_terms op) ->
     P (cur, swapped) s1) ->
  ensures (on_ledger (TransitionVtxoOperation expected rec)) P s.
Proof.
  intros Hh Hn <- HP. apply ensures_ledger. intros s1 H1. apply (holds_stable _ _ _ H1) in Hh.
  pose proof (transition_kept op rec (st_ledger s1) Hh Hn) as H. destruct (TransitionVtxoOperation _ _ _) as [l r].
  destruct H as [Hk H]. split; [done|]. intros [cur swapped] E. apply HP; [by transitivity s1|]. by apply H.
Qed.

Lemma ensures_get id P s :
  unique s -> (forall s1 op, kept s s1 -> V s1 -> GetVtxoOperation id (st_ledger s1) = Ok op -> holds op s1 -> vo_OperationID op = id -> P op s1) ->
  ensures (ask (GetVtxoOperation id)) P s.
Proof.
  intros Hu HP. apply ensures_ask. intros s1 op Hk HV E. pose proof E as Eg. unfold GetVtxoOperation in E.
  apply bind_Ok in E as ([] & _ & E). apply load_held in E as [Hh Hid]; [|by eapply unique_stable]. by apply HP.
Qed.
End Logic.

(** Walk through a handler: every call that only reads is passed over, and what
    is known of the ledger is carried along. *)
Ltac carry Hk :=
  repeat match type of Hk with kept ?s ?s1 =>
    match goal with H : ?P s |- _ => apply (stable (P := P) s s1 Hk) in H end
  end; clear Hk.
Ltac walk1 :=
  match goal with
  | |- ensures _ (_ ≫= _) _ _ => apply ensures_bind
  | |- ensures _ (require _ _) _ _ => apply ensures_require; intros ?
  | |- ensures _ (pure _) _ _ => apply ensures_pure; intros ? ?; try discriminate
  | |- ensures _ (mret _) _ _ => apply ensures_ret
  | |- ensures _ (ask (GetVtxoOperation _)) _ _ =>
      let Hk := fresh "Hk" in apply ensures_get; [by eauto using holds_unique|intros ? ? Hk ? ? ? ?; carry Hk]
  | |- ensures _ (ask _) _ _ => let Hk := fresh "Hk" in apply ensures_ask; intros ? ? Hk ? ?; carry Hk
  | |- ensures _ (on_index _) _ _ => let Hk := fresh "Hk" in apply ensures_index; intros ? Hk ?; carry Hk
  | |- ensures _ (try_prog _) _ _ => let Hk := fresh "Hk" in apply ensures_try; [intros ? ? Hk; carry Hk|]
  | |- ensures _ (match ?x with _ => _ end) _ _ => destruct x eqn:?
  | |- True => exact I
  end.
Ltac walk := repeat (walk1; cbv beta zeta).
