(* ===== verification/VtxoService.v ===== *)
(** * The payment handlers ([src/internal/application/vtxo.go], [vtxo_abort.go])

    Reserving, authorizing, finalizing, viewing and aborting a payment, as
    handlers over the shared ledger: trees of atomic calls, between which other
    requests run.  The theorems hold for every such interleaving. *)
From Stdlib Require Import Strings.Byte.
From S2P Require Import Prelude Sha256 Text Base64 GoTime Json P256 WebAuthn Psbt Program Cosigner.
From S2P Require Import Vtxo Tenant Store TenantLedger VtxoLedger Session VtxoSelect VtxoScript VtxoVerify.
From S2P Require Import Handler Service VtxoTree.

#[local] Arguments sha256 : simpl never.
#[local] Arguments hmac_sha256 : simpl never.

(** ** Requests and responses *)
Definition vtxoReserveAuthorizeTimeout : Z := 2 * minute.

Record VtxoReserveRequest := {
  rr_OperationID : bytes;
  rr_VaultID : bytes;
  rr_Purpose : bytes;
  rr_DestAddress : bytes;
  rr_AmountSats : Z; (* uint64 *)
  rr_PhoneSignature : bytes;
}.

Record VtxoInputView := { iv_Txid : bytes; iv_Vout : Z; iv_ValueSats : Z; iv_ScriptHex : bytes }.

Record VtxoReserveResponse := {
  rs_OperationID : bytes;
  rs_BundleDigest : bytes;
  rs_ReservationExpires : bytes;
  rs_Inputs : list VtxoInputView;
  rs_ChangeAddress : bytes;
  rs_ChangeScript : bytes;
  rs_DestScript : bytes;
  rs_FeeSats : Z;
  rs_FeePolicyDigest : bytes;
  rs_ChangeSats : Z;
  rs_ChangeVout : option Z;
  rs_CheckpointTapscript : bytes;
}.

Record VtxoAuthorizeRequest := {
  ra_VaultID : bytes;
  ra_OperationID : bytes;
  ra_BundleDigest : bytes;
  ra_UnsignedArkPsbt : bytes;
  ra_UnsignedCheckpointPsbts : list bytes;
  ra_PendingProof : bytes;
  ra_CredentialID : bytes;
  ra_ClientDataJSON : bytes;
  ra_AuthenticatorData : bytes;
  ra_Signature : bytes;
  ra_DirectSig : bytes;
}.

Record VtxoAuthorizeResponse := {
  ar_OperationID : bytes;
  ar_BundleDigest : bytes;
  ar_AuthorizedPsbt : bytes;
  ar_AuthorizedPendingProof : bytes;
  ar_ArkTxid : bytes;
}.

Record VtxoCheckpointAuthorizeRequest := {
  rc_VaultID : bytes;
  rc_OperationID : bytes;
  rc_BundleDigest : bytes;
  rc_CheckpointPsbts : list bytes;
}.

Record VtxoCheckpointAuthorizeResponse := {
  ck_OperationID : bytes;
  ck_BundleDigest : bytes;
  ck_CheckpointPsbts : list bytes;
  ck_ArkTxid : bytes;
}.

Record VtxoFinalizeRequest := { rf_VaultID : bytes; rf_OperationID : bytes; rf_BundleDigest : bytes; rf_ArkTxid : bytes }.
Record VtxoFinalizeResponse := { fr_OperationID : bytes; fr_BundleDigest : bytes; fr_State : bytes; fr_ArkTxid : bytes }.

Record VtxoOperationView := {
  ov_OperationID : bytes;
  ov_BundleDigest : bytes;
  ov_State : bytes;
  ov_ArkTxid : bytes;
  ov_ExpiresAt : bytes;
  ov_FeeSats : Z;
  ov_FeePolicyDigest : bytes;
  ov_ChangeSats : Z;
  ov_ChangeVout : option Z;
  ov_ChangeScript : bytes;
  ov_AuthorizedPsbt : bytes;
  ov_AuthorizedPendingProof : bytes;
  ov_CheckpointPsbts : list bytes;
}.

Record VtxoAbortRequest := { rb_OperationID : bytes; rb_VaultID : bytes; rb_Purpose : bytes; rb_PhoneSignature : bytes }.
Record VtxoAbortResponse := { br_OperationID : bytes; br_State : bytes }.

(** What the environment of a request decides: whether it is admitted to the fee
    selection and to the verification stage, and what its context answers when
    the fee search and the signer poll it. *)
Record Request := {
  rq_fee_admitted : result unit;
  rq_cancelled : nat -> option Z -> bool;
  rq_admitted : result unit;
  rq_ctx : nat -> result unit;
}.

(** ** Texts *)

(** Lower-casing and case folding on ASCII: no other letter becomes a
    hexadecimal digit. *)
Definition EqualFold (a b : bytes) : bool := to_lower a == to_lower b.

Definition canonicalVtxoOperationID (raw : bytes) : result bytes :=
  let id := trim_space raw in
  match hex_decode id with
  | Some decoded =>
      _ ← fail_if (negb (blen decoded =? 16) || (id != to_lower id))
            (ErrMsg "operationId must be 16 random bytes encoded as lowercase hex");
      Ok id
  | None => Err (ErrMsg "operationId must be 16 random bytes encoded as lowercase hex")
  end.

Definition requireTxid (txid : bytes) : result unit :=
  _ ← fail_if (negb (blen txid =? 64) || (txid != to_lower txid)) (ErrMsg "txid");
  match hex_decode txid with
  | Some raw => fail_if (negb (blen raw =? 32)) (ErrMsg "txid")
  | None => Err (ErrMsg "txid")
  end.

Definition requireBundleDigest (got want : bytes) : result unit :=
  match hex_decode (to_lower (trim_space got)) with
  | Some raw =>
      _ ← fail_if (negb (blen raw =? 32)) (ErrMsg "bundleDigest");
      fail_if (raw != want) (ErrMsg "bundleDigest mismatch")
  | None => Err (ErrMsg "bundleDigest")
  end.

Definition encodeJSONStringSlice (v : list bytes) : bytes :=
  match v with [] => [] | _ => json_print (JArr (map JStr v)) end.

Definition decodeJSONStringSlice (v : bytes) : list bytes :=
  if trim_space v == [] then []
  else match json_parse v with
       | Some (JArr l) => default [] (json_strings l)
       | _ => []
       end.

Definition vtxoCheckpointAuthorizableState (state : bytes) : bool := (state == vtxoStateSigned) || (state == vtxoStateSubmitted).
Definition vtxoFinalizableState (state : bytes) : bool := state == vtxoStateSubmitted.

Definition validStoredVtxoChange (op : VtxoOperation) (wantScript : bytes) : bool :=
  if vo_ChangeSats op =? 0 then bool_decide (vo_ChangeVout op = None) && (blen (vo_ChangeScript op) =? 0)
  else (DustSats <=? vo_ChangeSats op) && bool_decide (vo_ChangeVout op = Some 1) && (vo_ChangeScript op == wantScript).

Definition vtxoReserveResponse (op : VtxoOperation) (inputs : list VtxoOperationInput) (changeAddress : bytes)
  : VtxoReserveResponse := {|
  rs_OperationID := vo_OperationID op; rs_BundleDigest := hex_encode (vo_BundleDigest op);
  rs_ReservationExpires := vo_ExpiresAt op;
  rs_Inputs := map (fun i => {| iv_Txid := hex_encode (vi_Txid i); iv_Vout := wrap32 (vi_Vout i);
                                iv_ValueSats := wrap64 (vi_ValueSats i); iv_ScriptHex := hex_encode (vi_Script i) |}) inputs;
  rs_ChangeAddress := if vo_ChangeSats op =? 0 then [] else changeAddress;
  rs_ChangeScript := hex_encode (vo_ChangeScript op); rs_DestScript := hex_encode (vo_DestScript op);
  rs_FeeSats := wrap64 (vo_FeeSats op); rs_FeePolicyDigest := hex_encode (vo_FeePolicyDigest op);
  rs_ChangeSats := wrap64 (vo_ChangeSats op); rs_ChangeVout := vo_ChangeVout op;
  rs_CheckpointTapscript := hex_encode (vo_CheckpointTapscript op) |}.

Definition mapMissingVtxo (e : error) : error := if errors_Is e ErrNoRows then ErrNotFound else e.

Definition vtxoHasSigningArtifacts (op : VtxoOperation) : bool :=
  (vo_UnsignedPSBT op != []) || (vo_AuthorizedPSBT op != []) || (vo_AuthorizedPendingProof op != [])
  || negb (blen (vo_PendingProofDigest op) =? 0) || (vo_CheckpointPSBTs op != []) || (vo_CheckpointRequestPSBTs op != [])
  || (vo_ArkTxid op != []).

Definition requireAbortableVtxoInputs (inputs : list VtxoOperationInput) : result unit :=
  let bad := ErrMsg "reserved vtxo input state" in
  _ ← fail_if (Nat.eqb (length inputs) 0 || (MaxVtxoOperationInputs <? Z.of_nat (length inputs))) bad;
  each (fun i => fail_if (negb (blen (vi_Txid i) =? 32) || (vi_Vout i <? 0) || (vi_ValueSats i <=? 0)
                          || (blen (vi_Script i) =? 0)) bad) inputs.

Section Handlers.
Context `{Btc} `{Secp} `{ArkScript} `{Addresses} `{ArkFee} `{ContractPacks} `{EcdsaVerify}.
Variable sv : Service.
Variable rq : Request.

(** ** The phone's signature *)
Definition require_phone_signature (digest : result bytes) (phoneSignature : bytes) (phone : option PubKey) : result unit :=
  match phone with
  | None => Err (ErrMsg "enrolled phone key required")
  | Some phone =>
      digest ← digest;
      match hex_decode phoneSignature with
      | None => Err (ErrMsg "phoneSignature must be a lowercase 64-byte Schnorr signature")
      | Some raw =>
          _ ← fail_if (negb (blen raw =? 64) || (phoneSignature != to_lower phoneSignature))
                (ErrMsg "phoneSignature must be a lowercase 64-byte Schnorr signature");
          fail_if (negb (schnorr_Verify raw digest (SerializePubKey phone))) (ErrMsg "phoneSignature invalid")
      end
  end.

Definition verifyVtxoReservePhoneSignature (req : VtxoReserveRequest) (vaultID destScript : bytes) (phone : option PubKey)
  : result unit :=
  require_phone_signature
    (ComputeVtxoReserveDigest (rr_OperationID req) vaultID (trim_space (rr_Purpose req)) destScript (rr_AmountSats req))
    (rr_PhoneSignature req) phone.

Definition verifyVtxoAbortPhoneSignature (req : VtxoAbortRequest) (vaultID : bytes) (phone : option PubKey) : result unit :=
  require_phone_signature (ComputeVtxoAbortDigest (rb_OperationID req) vaultID (trim_space (rb_Purpose req)))
    (rb_PhoneSignature req) phone.

Definition decodeVtxoDest (addr : bytes) : result (bytes * bytes) :=
  let addr := trim_space addr in
  _ ← fail_if (addr == []) (ErrMsg "destAddress required");
  match ark_DecodeAddressV0 addr with
  | None => Err (ErrMsg "destAddress must be a pinned-Operator Arkade address")
  | Some decoded =>
      _ ← fail_if (aa_HRP decoded != vtxoAddrHRP sv) (ErrMsg "destAddress network");
      match btcec_ParsePubKey (operatorSignerPub sv), aa_Signer decoded with
      | Some operator, Some signer =>
          _ ← fail_if (SerializePubKey signer != SerializePubKey operator) (ErrMsg "destAddress Operator");
          match aa_PkScript decoded with
          | Some script => Ok (script, addr)
          | None => Err (ErrMsg "destAddress")
          end
      | _, _ => Err (ErrMsg "destAddress Operator")
      end
  end.

(** [vtxoNow]: the clock of the ledger. *)
Definition vtxoNow : Prog State Z := ask (fun l => Ok (NowUTC l)).

(** ** Expiry *)
Definition expireReservedVtxo (op : VtxoOperation) : Prog State VtxoOperation :=
  if (vo_State op != vtxoStateReserved) || (vo_ExpiresAt op == []) then mret op
  else match parse_rfc3339 (vo_ExpiresAt op) with
  | None => pure (Err (ErrMsg "reservation expiry"))
  | Some exp =>
      now ← vtxoNow;
      if now <? exp then mret op
      else
        let next := vo_set_State vtxoStateAborted op in
        '(current, swapped) ← on_ledger (TransitionVtxoOperation vtxoStateReserved next);
        mret (if swapped : bool then next else current)
  end.

(** ** Reservation *)
Definition replayVtxoReservation (op : VtxoOperation) (vaultID purpose : bytes) (amount : Z) (destScript : bytes)
    (tree : vtxoPolicyTree) : Prog State VtxoReserveResponse :=
  _ ← require ((vo_VaultID op != vaultID) || (vo_Purpose op != purpose) || (vo_AmountSats op <? 0) || (vo_FeeSats op <? 0)
               || (vo_ChangeSats op <? 0) || negb (wrap64 (vo_AmountSats op) =? amount) || (vo_DestScript op != destScript)
               || negb (blen (vo_FeePolicyDigest op) =? 32) || negb (validStoredVtxoChange op (tr_PkScript tree)))
        (ErrMsg "operationId is already bound to a different reserve request");
  _ ← require ((vo_State op == vtxoStateAborted) || (vo_State op == vtxoStateUnresolved))
        (ErrMsg "reservation is no longer usable");
  op ← expireReservedVtxo op;
  _ ← require (vo_State op == vtxoStateAborted) (ErrMsg "reservation expired");
  inputs ← ask (GetVtxoOperationInputs (vo_OperationID op));
  mret (vtxoReserveResponse op inputs (tr_ArkAddress tree)).

Definition bundle_inputs (selected : list reservedCoin) : list VtxoBundleInput :=
  map (fun coin => Build_VtxoBundleInput (co_Txid coin) (co_Vout coin) (co_ValueSats coin)) selected.

(** [int64(coin.ValueSats)] of a coin that the listing bounded by MaxInt64. *)
Definition operation_inputs (selected : list reservedCoin) : list VtxoOperationInput :=
  map (fun coin => {| vi_OperationID := []; vi_Txid := co_Txid coin; vi_Vout := co_Vout coin;
                      vi_ValueSats := wrap_int64 (co_ValueSats coin); vi_Script := co_Script coin; vi_IntegrityMAC := [] |}) selected.

(** The row of a new reservation. *)
Definition reservation_row (opID vaultID purpose digest : bytes) (amount fee change : Z) (feePolicyDigest destScript pkScript
    checkpoint : bytes) (now : Z) : VtxoOperation := {|
  vo_OperationID := opID; vo_VaultID := vaultID; vo_Purpose := purpose; vo_BundleDigest := digest;
  vo_State := vtxoStateReserved; vo_AmountSats := wrap_int64 amount; vo_FeeSats := wrap_int64 fee;
  vo_FeePolicyDigest := feePolicyDigest; vo_DestScript := destScript;
  vo_ChangeScript := if 0 <? change then pkScript else []; vo_ChangeSats := wrap_int64 change;
  vo_ChangeVout := if 0 <? change then Some 1 else None; vo_UnsignedPSBT := []; vo_AuthorizedPSBT := [];
  vo_PendingProofDigest := []; vo_AuthorizedPendingProof := []; vo_CheckpointPSBTs := []; vo_CheckpointRequestPSBTs := [];
  vo_CheckpointTapscript := checkpoint; vo_ArkTxid := []; vo_ExpiresAt := format_rfc3339 (now + vtxoReserveAuthorizeTimeout);
  vo_CreatedAt := format_rfc3339 now; vo_LastDestScript := destScript; vo_IntegrityMAC := [] |}.

(** The part of [ReserveVtxo] after the lookup found no reservation. *)
Definition reserve_new (resolver : ArkResolver) (rec : VaultRecord) (opID vaultID purpose : bytes) (amount feeCap : Z)
    (destScript : bytes) (tree : vtxoPolicyTree) : Prog State VtxoReserveResponse :=
  feePolicy ← pure (or_err (ErrMsg "Operator fee policy unavailable") (ar_IntentFeePolicy resolver));
  '(estimator, feePolicyDigest) ← pure (newVtxoFeeEstimator feePolicy);
  '(selected, feeSats, changeSats) ← pure (selectSpendVtxos (ar_SpendableVtxos resolver (tr_PkScript tree)) (rq_fee_admitted rq)
      (rq_cancelled rq) (tr_PkScript tree) destScript amount feeCap estimator);
  _ ← pure (enforceVtxoAmount amount feeSats (Some rec));
  let checkpoint := ar_CheckpointTapscript resolver in
  _ ← require (blen checkpoint =? 0) (ErrMsg "checkpoint tapscript required");
  now ← vtxoNow;
  digest ← pure (ComputeVtxoBundleDigest purpose vaultID destScript (if 0 <? changeSats then tr_PkScript tree else [])
      amount feeSats changeSats (if 0 <? changeSats then Some 1 else None) feePolicyDigest (bundle_inputs selected)
      (format_rfc3339 now));
  let recRow := reservation_row opID vaultID purpose digest amount feeSats changeSats feePolicyDigest destScript
      (tr_PkScript tree) checkpoint now in
  let opInputs := operation_inputs selected in
  reserved ← try_prog (on_ledger (ReserveVtxoOperation recRow opInputs (periodAllowanceSats (Some rec) None)));
  match reserved with
  | Ok _ => mret (vtxoReserveResponse recRow opInputs (tr_ArkAddress tree))
  | Err e =>
      existing ← try_prog (ask (GetVtxoOperation opID));
      match existing with
      | Ok existing => replayVtxoReservation existing vaultID purpose amount destScript tree
      | Err _ => pure (Err (mapLedgerBusy e))
      end
  end.

Definition ReserveVtxo (req : VtxoReserveRequest) : Prog State VtxoReserveResponse :=
  opID ← pure (canonicalVtxoOperationID (rr_OperationID req));
  _ ← ask (requireLedgerIntegrity (sv_CredentialIntegrityKey sv));
  _ ← pure (requireVaultPolicyV1Exit sv);
  let purpose := trim_space (rr_Purpose req) in
  _ ← require (purpose != vtxoPurposeSpend) (ErrMsg "vtxo purpose must be spend");
  _ ← require (rr_AmountSats req =? 0) (ErrMsg "amount required");
  resolver ← pure (requireArkResolver sv);
  '(vaultID, snap, rec) ← resolveSpendVaultRecord sv (rr_VaultID req);
  tree ← pure (or_err (ErrMsg "vault-policy-v1 dest unavailable") (buildVtxoPolicyTree sv vaultID snap));
  '(destScript, _) ← pure (decodeVtxoDest (rr_DestAddress req));
  _ ← pure (verifyVtxoReservePhoneSignature req vaultID destScript (es_PhoneBIP340 snap));
  _ ← pure (refuseDefaultVtxoChange sv snap destScript);
  feeCap ← pure (vtxoFeeCap (Some rec));
  _ ← pure (enforceVtxoAmount (rr_AmountSats req) 0 (Some rec));
  existing ← try_prog (ask (GetVtxoOperation opID));
  match existing with
  | Ok existing => replayVtxoReservation existing vaultID purpose (rr_AmountSats req) destScript tree
  | Err e =>
      if e != ErrNoRows then pure (Err e)
      else reserve_new resolver rec opID vaultID purpose (rr_AmountSats req) feeCap destScript tree
  end.

(** ** A live operation *)
Definition loadLiveVtxo (vaultID operationID wantPurpose : bytes) : Prog State (VtxoOperation * list VtxoOperationInput) :=
  _ ← require (operationID == []) (ErrMsg "operationId required");
  found ← try_prog (ask (GetVtxoOperation operationID));
  match found with
  | Err e => pure (Err (if e == ErrNoRows then ErrNotFound else e))
  | Ok rec =>
      _ ← require (vo_VaultID rec != vaultID) (ErrMsg "operation does not belong to this vault");
      _ ← require (vo_Purpose rec != wantPurpose) (ErrMsg "vtxo purpose");
      _ ← (if vo_ExpiresAt rec == [] then mret tt
           else match parse_rfc3339 (vo_ExpiresAt rec) with
           | None => pure (Err (ErrMsg "reservation expiry"))
           | Some exp =>
               if vo_State rec == vtxoStateReserved then
                 now ← vtxoNow;
                 if now <? exp then mret tt
                 else
                   _ ← try_prog (on_ledger (TransitionVtxoOperation vtxoStateReserved (vo_set_State vtxoStateAborted rec)));
                   pure (Err (ErrMsg "reservation expired"))
               else mret tt
           end);
      inputs ← ask (GetVtxoOperationInputs operationID);
      mret (rec, inputs)
  end.

Definition requireCurrentVtxoFeePolicy (resolver : ArkResolver) (op : VtxoOperation) : result unit :=
  fee ← or_err (ErrMsg "Operator fee policy unavailable") (ar_IntentFeePolicy resolver);
  '(_, digest) ← newVtxoFeeEstimator fee;
  fail_if (negb (blen (vo_FeePolicyDigest op) =? 32) || (digest != vo_FeePolicyDigest op))
    (ErrMsg "Operator fee policy changed after reservation").

(** ** Reconciliation with the indexer *)
Definition resolved_input (i : VtxoOperationInput) : ResolvedVtxo := {|
  rv_Txid := hex_encode (vi_Txid i); rv_Vout := wrap32 (vi_Vout i); rv_ValueSats := wrap64 (vi_ValueSats i);
  rv_Script := vi_Script i; rv_CreatedAt := 0; rv_ExpiresAt := None; rv_IsSwept := false; rv_CommitmentTxids := [] |}.

Definition vo_set_created (created : bytes) (r : VtxoOperation) : VtxoOperation :=
  match r with
  | Build_VtxoOperation i v p b s a f fd d cs c cv u au pd ap ck cr ct x e _ ld m =>
      Build_VtxoOperation i v p b s a f fd d cs c cv u au pd ap ck cr ct x e created ld m
  end.

(** Close a submitted operation as [final]. *)
Definition settle (op : VtxoOperation) (final : bytes) : Prog State unit :=
  now ← vtxoNow;
  let next := vo_set_created (format_rfc3339 now) (vo_set_State final op) in
  '(current, swapped) ← on_ledger (TransitionVtxoOperation vtxoStateSubmitted next);
  require (negb swapped && (vo_State current != final)) (ErrMsg "vtxo operation changed concurrently").

(** [None]: another request has already settled the operation. *)
Definition mark_submitted (op : VtxoOperation) : Prog State (option VtxoOperation) :=
  let submitted := vo_set_State vtxoStateSubmitted op in
  '(current, swapped) ← on_ledger (TransitionVtxoOperation vtxoStateSigned submitted);
  if swapped : bool then mret (Some submitted)
  else if (vo_State current == vtxoStateFinalized) || (vo_State current == vtxoStateUnresolved) then mret None
  else
    _ ← require (vo_State current != vtxoStateSubmitted) (ErrMsg "vtxo operation changed concurrently");
    mret (Some current).

Definition promoteSubmittedVtxo (resolver : ArkResolver) (op : VtxoOperation) : Prog State unit :=
  if (vo_State op != vtxoStateSigned) && (vo_State op != vtxoStateSubmitted) then mret tt
  else
    inputs ← ask (GetVtxoOperationInputs (vo_OperationID op));
    match inputs with
    | [] => pure (Err (ErrMsg "reserved inputs required"))
    | first :: _ =>
        let pkScript := vi_Script first in
        _ ← require ((0 <? vo_ChangeSats op) && bool_decide (vo_ChangeVout op = None)) (ErrMsg "change vout missing");
        _ ← require ((0 <? vo_ChangeSats op) && (vo_ChangeScript op != pkScript))
              (ErrMsg "change script does not match reserved inputs");
        state ← pure (ar_SubmittedVtxoState resolver pkScript (map resolved_input inputs) (vo_ArkTxid op)
                        (vo_ChangeVout op) (wrap64 (vo_ChangeSats op)));
        if state =? SubmittedVtxoPending then mret tt
        else
          submitted ← (if vo_State op == vtxoStateSigned then mark_submitted op else mret (Some op));
          match submitted with
          | None => mret tt
          | Some op =>
              if state =? SubmittedVtxoConflict then settle op vtxoStateUnresolved
              else
                _ ← require (negb (state =? SubmittedVtxoFinalized)) (ErrMsg "unknown submitted vtxo state");
                settle op vtxoStateFinalized
          end
    end.

(** ** The status of an operation *)
Definition vtxo_view (op : VtxoOperation) : VtxoOperationView :=
  let signed := vo_State op == vtxoStateSigned in
  let submitted := vo_State op == vtxoStateSubmitted in
  {| ov_OperationID := vo_OperationID op; ov_BundleDigest := hex_encode (vo_BundleDigest op); ov_State := vo_State op;
     ov_ArkTxid := vo_ArkTxid op; ov_ExpiresAt := vo_ExpiresAt op; ov_FeeSats := wrap64 (vo_FeeSats op);
     ov_FeePolicyDigest := hex_encode (vo_FeePolicyDigest op); ov_ChangeSats := wrap64 (vo_ChangeSats op);
     ov_ChangeVout := vo_ChangeVout op; ov_ChangeScript := hex_encode (vo_ChangeScript op);
     ov_AuthorizedPsbt := if signed || submitted then vo_AuthorizedPSBT op else [];
     ov_AuthorizedPendingProof := if signed || submitted then vo_AuthorizedPendingProof op else [];
     ov_CheckpointPsbts := if submitted then decodeJSONStringSlice (vo_CheckpointPSBTs op) else [] |}.

(** Reconciliation is best effort: its errors are dropped.  The handler does not
    check for a resolver, without which a call through it panics (the service is
    always started with one, [authorizer/runtime.go]). *)
Definition reconciled (op : VtxoOperation) : Prog State VtxoOperation :=
  if (vo_State op == vtxoStateSigned) || (vo_State op == vtxoStateSubmitted) then
    resolver ← pure (match sv_ArkResolver sv with Some r => Ok r | None => Err (ErrMsg "nil pointer dereference") end);
    promoted ← try_prog (promoteSubmittedVtxo resolver op);
    match promoted with
    | Err _ => mret op
    | Ok _ =>
        current ← try_prog (ask (GetVtxoOperation (vo_OperationID op)));
        mret (match current with Ok current => current | Err _ => op end)
    end
  else mret op.

Definition GetVtxoOperationView (vaultID operationID : bytes) : Prog State VtxoOperationView :=
  _ ← ask (requireLedgerIntegrity (sv_CredentialIntegrityKey sv));
  '(id, _, _) ← resolveSpendVaultRecord sv vaultID;
  found ← try_prog (ask (GetVtxoOperation operationID));
  match found with
  | Err e => pure (Err (if e == ErrNoRows then ErrNotFound else e))
  | Ok op =>
      _ ← require (vo_VaultID op != id) (ErrMsg "operation does not belong to this vault");
      op ← reconciled op;
      op ← expireReservedVtxo op;
      mret (vtxo_view op)
  end.

(** ** Authorization *)
Definition verifyVtxoAuthorization (vaultID digest : bytes) (req : VtxoAuthorizeRequest) : Prog State (bytes * Z) :=
  _ ← pure (rq_admitted rq);
  _ ← require (negb (blen digest =? 32)) (ErrMsg "bundle digest must be 32 bytes");
  assertion ← pure (decodeAssertion (ra_CredentialID req) (ra_ClientDataJSON req) (ra_AuthenticatorData req) (ra_Signature req));
  _ ← pure (rejectPRF (a_ClientDataJSON assertion));
  cred ← ask (loadVerifiedCredentialFor (sv_CredentialIntegrityKey sv) vaultID);
  match cred with
  | None => pure (Err (ErrMsg "not enrolled"))
  | Some cred =>
      mapped ← on_index (rejectCrossVaultCredential vaultID (cr_ID cred));
      _ ← pure mapped;
      challenge ← pure (ChallengeFromClientDataJSON (a_ClientDataJSON assertion));
      verified ← pure (Validate assertion
        {| e_CredentialID := cr_ID cred; e_WebAuthnP256 := cr_WebAuthnP256 cred; e_Challenge := challenge;
           e_Origin := cr_Origin cred; e_RPID := cr_RPID cred |});
      directSig ← pure (or_err (ErrMsg "directSig") (decodeHex (ra_DirectSig req)));
      _ ← pure (verifyDirectAuth (cr_PhoneDirectP256 cred) digest directSig);
      mret (cr_ID cred, v_SignCount verified)
  end.

(** The packets of a request, verified against the reservation: the Ark packet
    and the digest of the pending proof. *)
Definition verified_checkpoint (op : VtxoOperation) (tree : vtxoPolicyTree) (c : bytes * VtxoOperationInput) : result Packet :=
  cp ← or_err (ErrMsg "checkpoint psbt") (parsePSBT (fst c));
  _ ← verifyUnsignedCheckpointPSBT cp (snd c) op tree;
  Ok cp.

Definition verified_bundle (req : VtxoAuthorizeRequest) (op : VtxoOperation) (inputs : list VtxoOperationInput)
    (tree : vtxoPolicyTree) (phone : option PubKey) : result (Packet * bytes) :=
  arkPkt ← parsePSBT (ra_UnsignedArkPsbt req);
  _ ← fail_if (negb (Nat.eqb (length (ra_UnsignedCheckpointPsbts req)) (length inputs))) (ErrMsg "checkpoint count");
  checkpoints ← collect (verified_checkpoint op tree) (zip (ra_UnsignedCheckpointPsbts req) inputs);
  _ ← verifySpendPSBT arkPkt op inputs tree checkpoints;
  _ ← verifyPhonePendingProof (ra_PendingProof req) inputs tree phone;
  pendingDigest ← pendingProofDigest (ra_PendingProof req);
  Ok (arkPkt, pendingDigest).

(** The row of a signed operation. *)
Definition signed_row (op : VtxoOperation) (req : VtxoAuthorizeRequest) (pendingDigest arkTxid signedArk signedProof : bytes)
  : VtxoOperation :=
  match op with
  | Build_VtxoOperation i v p b _ a f fd d cs c cv _ _ _ _ _ cr ct _ e cd ld m =>
      Build_VtxoOperation i v p b vtxoStateSigned a f fd d cs c cv (ra_UnsignedArkPsbt req) signedArk pendingDigest signedProof
        (encodeJSONStringSlice (ra_UnsignedCheckpointPsbts req)) cr ct arkTxid e cd ld m
  end.

(** [op] already carries the authorization of this request. *)
Definition same_authorization (op : VtxoOperation) (req : VtxoAuthorizeRequest) (pendingDigest : bytes) : bool :=
  (vo_UnsignedPSBT op == ra_UnsignedArkPsbt req)
  && (vo_CheckpointPSBTs op == encodeJSONStringSlice (ra_UnsignedCheckpointPsbts req))
  && (vo_PendingProofDigest op == pendingDigest) && (vo_AuthorizedPendingProof op != []).

Definition authorize_response (op : VtxoOperation) (signedArk signedProof arkTxid : bytes) : VtxoAuthorizeResponse := {|
  ar_OperationID := vo_OperationID op; ar_BundleDigest := hex_encode (vo_BundleDigest op); ar_AuthorizedPsbt := signedArk;
  ar_AuthorizedPendingProof := signedProof; ar_ArkTxid := arkTxid |}.

(** The capability signs the two packets, and the signed proof is checked. *)
Definition sign_payment (req : VtxoAuthorizeRequest) (vaultID : bytes) (inputs : list VtxoOperationInput)
    (tree : vtxoPolicyTree) (phone : option PubKey) : result (bytes * bytes) :=
  keyContext ← service_key_context sv vaultID;
  let expected := SerializePubKey (tr_CosignerPub tree) in
  authorization ← newVtxoTransactionAuthorization keyContext (ra_UnsignedArkPsbt req) (ra_PendingProof req)
                    (tr_SpendLeaf tree) expected;
  '(signedArk, signedProof) ← authorizeVtxoTransaction (sv_keys sv) (rq_ctx rq) authorization;
  _ ← requireOnlyVaultSignatureAdded (ra_PendingProof req) signedProof expected;
  _ ← verifyDualSignedPendingProof signedProof inputs tree phone;
  Ok (signedArk, signedProof).

Definition commit_payment (req : VtxoAuthorizeRequest) (op : VtxoOperation) (pendingDigest arkTxid signedArk signedProof : bytes)
    (credentialID : bytes) (signCount : Z) : Prog State VtxoAuthorizeResponse :=
  let row := signed_row op req pendingDigest arkTxid signedArk signedProof in
  '(current, swapped) ← on_ledger (CommitSignedVtxoOperation row credentialID signCount);
  if swapped : bool then mret (authorize_response row signedArk signedProof arkTxid)
  else
    _ ← require ((vo_State current != vtxoStateSigned) || negb (same_authorization current req pendingDigest))
          (ErrMsg "vtxo operation changed concurrently");
    mret (authorize_response current (vo_AuthorizedPSBT current) (vo_AuthorizedPendingProof current) (vo_ArkTxid current)).

Definition AuthorizeVtxoSpend (req : VtxoAuthorizeRequest) : Prog State VtxoAuthorizeResponse :=
  _ ← ask (requireLedgerIntegrity (sv_CredentialIntegrityKey sv));
  _ ← pure (requireVaultPolicyV1Exit sv);
  resolver ← pure (requireArkResolver sv);
  '(vaultID, snap, _) ← resolveSpendVaultRecord sv (ra_VaultID req);
  '(op, inputs) ← loadLiveVtxo vaultID (ra_OperationID req) vtxoPurposeSpend;
  _ ← require ((vo_State op != vtxoStateReserved) && (vo_State op != vtxoStateSigned)) (ErrMsg "vtxo operation state");
  _ ← pure (requireCurrentVtxoFeePolicy resolver op);
  _ ← pure (requireBundleDigest (ra_BundleDigest req) (vo_BundleDigest op));
  tree ← pure (or_err (ErrMsg "vault-policy-v1 spend unavailable") (buildVtxoPolicyTree sv vaultID snap));
  '(arkPkt, pendingDigest) ← pure (verified_bundle req op inputs tree (es_PhoneBIP340 snap));
  let signedReplay := vo_State op == vtxoStateSigned in
  _ ← require (signedReplay && negb (same_authorization op req pendingDigest)) (ErrMsg "changed psbt");
  '(credentialID, signCount) ← verifyVtxoAuthorization vaultID (vo_BundleDigest op) req;
  if signedReplay then
    _ ← ask (VerifySignedVtxoReplay (vo_OperationID op) vaultID credentialID signCount);
    mret (authorize_response op (vo_AuthorizedPSBT op) (vo_AuthorizedPendingProof op) (vo_ArkTxid op))
  else
    '(signedArk, signedProof) ← pure (sign_payment req vaultID inputs tree (es_PhoneBIP340 snap));
    commit_payment req op pendingDigest (tx_TxHash (pk_UnsignedTx arkPkt)) signedArk signedProof credentialID signCount.

(** ** Checkpoints *)

(** A checkpoint with the Operator's signature: the one that was authorized. *)
Definition candidate_checkpoint (op : VtxoOperation) (tree : vtxoPolicyTree) (c : bytes * bytes * VtxoOperationInput)
  : result Packet :=
  let '(raw, storedRaw, input) := c in
  candidate ← or_err (ErrMsg "checkpoint psbt") (parsePSBT raw);
  stored ← or_err (ErrMsg "changed checkpoint") (parsePSBT storedRaw);
  _ ← fail_if (negb (sameUnsignedPSBT stored candidate)) (ErrMsg "changed checkpoint");
  _ ← verifySubmittedCheckpointPSBT candidate input op tree;
  Ok candidate.

Definition sign_checkpoints (req : VtxoCheckpointAuthorizeRequest) (vaultID : bytes) (tree : vtxoPolicyTree)
  : result (list bytes) :=
  keyContext ← service_key_context sv vaultID;
  authorization ← newVtxoCheckpointAuthorization keyContext (rc_CheckpointPsbts req) (tr_SpendLeaf tree)
                    (SerializePubKey (tr_CosignerPub tree));
  authorizeVtxoCheckpoints (sv_keys sv) (rq_ctx rq) authorization.

(** The row of a submitted operation. *)
Definition submitted_row (op : VtxoOperation) (authorized requestBinding : bytes) : VtxoOperation :=
  match op with
  | Build_VtxoOperation i v p b _ a f fd d cs c cv u au pd ap _ _ ct x e cd ld m =>
      Build_VtxoOperation i v p b vtxoStateSubmitted a f fd d cs c cv u au pd ap authorized requestBinding ct x e cd ld m
  end.

Definition checkpoint_response (op : VtxoOperation) (digest : bytes) (checkpoints : list bytes) : VtxoCheckpointAuthorizeResponse := {|
  ck_OperationID := vo_OperationID op; ck_BundleDigest := hex_encode digest; ck_CheckpointPsbts := checkpoints;
  ck_ArkTxid := vo_ArkTxid op |}.

Definition AuthorizeVtxoCheckpoints (req : VtxoCheckpointAuthorizeRequest) : Prog State VtxoCheckpointAuthorizeResponse :=
  _ ← ask (requireLedgerIntegrity (sv_CredentialIntegrityKey sv));
  _ ← pure (requireVaultPolicyV1Exit sv);
  resolver ← pure (requireArkResolver sv);
  '(vaultID, snap, _) ← resolveSpendVaultRecord sv (rc_VaultID req);
  '(op, inputs) ← loadLiveVtxo vaultID (rc_OperationID req) vtxoPurposeSpend;
  _ ← require (negb (vtxoCheckpointAuthorizableState (vo_State op))) (ErrMsg "vtxo operation state");
  _ ← pure (requireCurrentVtxoFeePolicy resolver op);
  _ ← pure (requireBundleDigest (rc_BundleDigest req) (vo_BundleDigest op));
  _ ← require (negb (Nat.eqb (length (rc_CheckpointPsbts req)) (length inputs))) (ErrMsg "checkpoint count");
  tree ← pure (or_err (ErrMsg "vault-policy-v1 spend unavailable") (buildVtxoPolicyTree sv vaultID snap));
  let storedRaw := decodeJSONStringSlice (vo_CheckpointPSBTs op) in
  _ ← require (negb (Nat.eqb (length storedRaw) (length (rc_CheckpointPsbts req)))) (ErrMsg "stored checkpoint count");
  _ ← pure (collect (candidate_checkpoint op tree) (zip (zip (rc_CheckpointPsbts req) storedRaw) inputs));
  let requestBinding := encodeJSONStringSlice (rc_CheckpointPsbts req) in
  if vo_State op == vtxoStateSubmitted then
    _ ← require (vo_CheckpointRequestPSBTs op != requestBinding) (ErrMsg "changed checkpoint");
    mret (checkpoint_response op (vo_BundleDigest op) storedRaw)
  else
    authorized ← pure (sign_checkpoints req vaultID tree);
    let row := submitted_row op (encodeJSONStringSlice authorized) requestBinding in
    '(current, swapped) ← on_ledger (TransitionVtxoOperation vtxoStateSigned row);
    if swapped : bool then mret (checkpoint_response row (vo_BundleDigest op) authorized)
    else
      _ ← require ((vo_State current != vtxoStateSubmitted) || (vo_CheckpointRequestPSBTs current != requestBinding))
            (ErrMsg "vtxo operation changed concurrently");
      mret (checkpoint_response current (vo_BundleDigest op) (decodeJSONStringSlice (vo_CheckpointPSBTs current))).

(** ** Finalization *)
Definition finalize_response (op : VtxoOperation) (digest : bytes) : VtxoFinalizeResponse := {|
  fr_OperationID := vo_OperationID op; fr_BundleDigest := hex_encode digest; fr_State := vo_State op;
  fr_ArkTxid := vo_ArkTxid op |}.

Definition FinalizeVtxo (req : VtxoFinalizeRequest) : Prog State VtxoFinalizeResponse :=
  _ ← ask (requireLedgerIntegrity (sv_CredentialIntegrityKey sv));
  _ ← pure (requireVaultPolicyV1Exit sv);
  let arkTxid := to_lower (trim_space (rf_ArkTxid req)) in
  _ ← pure (or_err (ErrMsg "arkTxid") (requireTxid arkTxid));
  '(vaultID, _, _) ← resolveSpendVaultRecord sv (rf_VaultID req);
  found ← try_prog (ask (GetVtxoOperation (rf_OperationID req)));
  match found with
  | Err e => pure (Err (if e == ErrNoRows then ErrNotFound else e))
  | Ok op =>
      _ ← require (vo_VaultID op != vaultID) (ErrMsg "operation does not belong to this vault");
      _ ← require (vo_Purpose op != vtxoPurposeSpend) (ErrMsg "vtxo purpose must be spend");
      _ ← pure (requireBundleDigest (rf_BundleDigest req) (vo_BundleDigest op));
      if (vo_State op == vtxoStateFinalized) && EqualFold (vo_ArkTxid op) arkTxid then
        mret (finalize_response op (vo_BundleDigest op))
      else
        _ ← require (negb (vtxoFinalizableState (vo_State op))) (ErrMsg "vtxo operation state");
        _ ← require (negb (EqualFold (vo_ArkTxid op) arkTxid)) (ErrMsg "arkTxid mismatch");
        resolver ← pure (requireArkResolver sv);
        _ ← promoteSubmittedVtxo resolver op;
        current ← ask (GetVtxoOperation (rf_OperationID req));
        _ ← require (vo_State current != vtxoStateFinalized) (ErrMsg "reserved outpoint not spent by ark txid");
        mret (finalize_response current (vo_BundleDigest op))
  end.

(** ** Abort *)
Definition AbortVtxo (req : VtxoAbortRequest) : Prog State VtxoAbortResponse :=
  opID ← pure (canonicalVtxoOperationID (rb_OperationID req));
  _ ← ask (requireLedgerIntegrity (sv_CredentialIntegrityKey sv));
  _ ← require (trim_space (rb_Purpose req) != vtxoPurposeSpend) (ErrMsg "vtxo purpose must be spend");
  '(vaultID, snap, _) ← resolveSpendVaultRecord sv (rb_VaultID req);
  _ ← pure (verifyVtxoAbortPhoneSignature req vaultID (es_PhoneBIP340 snap));
  found ← try_prog (ask (GetVtxoOperation opID));
  match found with
  | Err e => pure (Err (mapMissingVtxo e))
  | Ok op =>
      _ ← require (vo_VaultID op != vaultID) (ErrMsg "operation does not belong to this vault");
      _ ← require (vo_Purpose op != vtxoPurposeSpend) (ErrMsg "vtxo purpose");
      op ← expireReservedVtxo op;
      _ ← require (vo_State op != vtxoStateReserved) (ErrMsg "vtxo operation is not abortable");
      _ ← require (vtxoHasSigningArtifacts op) (ErrMsg "vtxo operation is not abortable");
      inputs ← ask (GetVtxoOperationInputs (vo_OperationID op));
      _ ← pure (requireAbortableVtxoInputs inputs);
      let next := vo_set_State vtxoStateAborted op in
      '(_, swapped) ← on_ledger (TransitionVtxoOperation vtxoStateReserved next);
      _ ← require (negb swapped) (ErrMsg "vtxo operation changed concurrently");
      mret {| br_OperationID := vo_OperationID next; br_State := vtxoStateAborted |}
  end.
End Handlers.

(** ** An example: one vault, one reserved payment *)
Definition toy_contract_pack : bytes := jtext (
  "{'programs':{'vault-policy-v1':{'exit':{'delay':'" ++ String.string_of_list_byte (format_uint VaultPolicyV1ExitDelay)
  ++ "','delayUnit':'seconds'},'delegate':{'pinnedPublicDelegate':'" ++ String.string_of_list_byte VaultPolicyV1PinnedDelegate
  ++ "','capability':'multi-presigned-signature'}}}}").

Definition toy_vault_service : Service := {|
  sv_Deployment := sv_Deployment toy_service; sv_CredentialIntegrityKey := demo_vault_key; sv_keys := Some toy_master;
  sv_ArkResolver := Some toy_resolver; sv_contractPackJSON := toy_contract_pack;
  sv_LightDelegationEnabled := true; sv_SpendingDelegation := true; sv_spendingDelegationKeys := true |}.

(** The Operator's fee programs are constant. *)
Definition toy_fees : ArkFee := fun _ => Some flat_fee.

Definition toy_request : Request := {|
  rq_fee_admitted := Ok tt; rq_cancelled := fun _ _ => false; rq_admitted := Ok tt; rq_ctx := fun _ => Ok tt |}.

Definition toy_packs : ContractPacks := Build_ContractPacks [] [].

(** [toy_operation], under the fee policy of [toy_resolver]. *)
Definition toy_vtxo : VtxoOperation := Eval cbv [toy_operation] in {|
  vo_OperationID := vo_OperationID toy_operation; vo_VaultID := vo_VaultID toy_operation; vo_Purpose := vo_Purpose toy_operation;
  vo_BundleDigest := vo_BundleDigest toy_operation; vo_State := vo_State toy_operation; vo_AmountSats := 20000; vo_FeeSats := 100;
  vo_FeePolicyDigest := ComputeIntentFeePolicyDigest [] [] [] []; vo_DestScript := vo_DestScript toy_operation;
  vo_ChangeScript := vo_ChangeScript toy_operation; vo_ChangeSats := 330; vo_ChangeVout := Some 1; vo_UnsignedPSBT := [];
  vo_AuthorizedPSBT := []; vo_PendingProofDigest := []; vo_AuthorizedPendingProof := []; vo_CheckpointPSBTs := [];
  vo_CheckpointRequestPSBTs := []; vo_CheckpointTapscript := vo_CheckpointTapscript toy_operation; vo_ArkTxid := [];
  vo_ExpiresAt := vo_ExpiresAt toy_operation; vo_CreatedAt := vo_CreatedAt toy_operation; vo_LastDestScript := []; vo_IntegrityMAC := [] |}.

Definition toy_enrolled : State := {| st_ledger := session_ledger; st_published := Some (publishSnapshot toy_snapshot None) |}.

Definition toy_reserved : State :=
  set_ledger (fst (ReserveVtxoOperation toy_vtxo [toy_coin] 50000 session_ledger)) toy_enrolled.

(** The same, some seconds later. *)
Definition toy_later (seconds : Z) : State :=
  set_ledger (set_env (1767225660 * second + seconds * second) [] true (st_ledger toy_reserved)) toy_reserved.

Definition toy_proof (signers : list PubKey) : Packet := {|
  pk_UnsignedTx := {| ut_Version := 2; ut_LockTime := 0;
    ut_TxIn := [{| ti_PreviousOutPoint := {| op_Hash := hex_encode (repeat Byte.x00 32); op_Index := 0 |}; ti_Sequence := 4294967295 |};
                {| ti_PreviousOutPoint := {| op_Hash := hex_encode (vi_Txid toy_coin); op_Index := 0 |}; ti_Sequence := 4294967295 |}];
    ut_TxOut := [{| to_Value := 0; to_PkScript := [byte_of_Z OP_RETURN] |}] |};
  pk_Inputs := [toy_pinput 0 SigHashAll signers; toy_pinput 20430 SigHashAll signers]; pk_Outputs := [[]];
  pk_Unknowns := [Some {| un_Key := [byte_of_Z 9]; un_Value := canonicalGetPendingTxMessage |}] |}.

Definition toy_packets : Btc := toy_btc [
  (str "arkAAAAA", toy_payment [toy_user]); (str "arkSSSSS", toy_payment [toy_user; toy_cosigner]);
  (str "cpAAAAAA", toy_checkpoint []); (str "prfAAAAA", toy_proof [toy_user]); (str "prfSSSSS", toy_proof [toy_user; toy_cosigner])].

Definition toy_authorize : VtxoAuthorizeRequest := {|
  ra_VaultID := str "vault-1"; ra_OperationID := vo_OperationID toy_operation; ra_BundleDigest := hex_encode (repeat Byte.x22 32);
  ra_UnsignedArkPsbt := str "arkAAAAA"; ra_UnsignedCheckpointPsbts := [str "cpAAAAAA"]; ra_PendingProof := str "prfAAAAA";
  ra_CredentialID := sr_CredentialID session_request; ra_ClientDataJSON := sr_ClientDataJSON session_request;
  ra_AuthenticatorData := sr_AuthenticatorData session_request; ra_Signature := sr_Signature session_request;
  ra_DirectSig := sr_DirectProof session_request |}.

Definition toy_abort : VtxoAbortRequest := {|
  rb_OperationID := vo_OperationID toy_operation; rb_VaultID := str "vault-1"; rb_Purpose := vtxoPurposeSpend;
  rb_PhoneSignature := hex_encode (replicate 64 Byte.x05) |}.

(** A wallet with one coin, and a request to pay from it. *)
Definition toy_wallet_service : Service := {|
  sv_Deployment := sv_Deployment toy_service; sv_CredentialIntegrityKey := demo_vault_key; sv_keys := Some toy_master;
  sv_ArkResolver := Some {|
    ar_SpendableVtxos := fun script => Ok [{| rv_Txid := hex_encode (repeat Byte.x55 32); rv_Vout := 0; rv_ValueSats := 20530;
      rv_Script := script; rv_CreatedAt := 0; rv_ExpiresAt := None; rv_IsSwept := false; rv_CommitmentTxids := [str "c"] |}];
    ar_IntentFeePolicy := ar_IntentFeePolicy toy_resolver; ar_SubmittedVtxoState := fun _ _ _ _ _ => Ok SubmittedVtxoFinalized;
    ar_CheckpointTapscript := str "unroll"; ar_OperatorSignerPub := toy_operator |};
  sv_contractPackJSON := toy_contract_pack;
  sv_LightDelegationEnabled := true; sv_SpendingDelegation := true; sv_spendingDelegationKeys := true |}.

Definition toy_reserve : VtxoReserveRequest := {|
  rr_OperationID := vo_OperationID toy_operation; rr_VaultID := str "vault-1"; rr_Purpose := vtxoPurposeSpend;
  rr_DestAddress := str "tark1dest"; rr_AmountSats := 20000; rr_PhoneSignature := hex_encode (replicate 64 Byte.x05) |}.

(** The payment, submitted. *)
Definition toy_sent : VtxoOperation := submitted_row (signed_row toy_vtxo toy_authorize (repeat Byte.x66 32)
  (hex_encode (repeat Byte.x77 32)) (str "arkSSSSS") (str "prfSSSSS")) (str "c") (str "c").

Definition toy_submitted : State :=
  set_ledger (fst (TransitionVtxoOperation vtxoStateSigned toy_sent
    (fst (TransitionVtxoOperation vtxoStateReserved (vo_set_State vtxoStateSigned toy_sent) (st_ledger toy_reserved))))) toy_enrolled.

Definition toy_finalize : VtxoFinalizeRequest := {|
  rf_VaultID := str "vault-1"; rf_OperationID := vo_OperationID toy_operation; rf_BundleDigest := hex_encode (repeat Byte.x22 32);
  rf_ArkTxid := hex_encode (repeat Byte.x77 32) |}.
