(* ===== verification/VtxoRequests.v ===== *)
(** * Payment requests together

    Each payment handler, whatever it meets, keeps every payment: it guarantees
    [payments_kept], and relies on nothing more of the others.  So any number of
    them, interleaved in any way with anything else that keeps payments, keeps
    every payment. *)
From Stdlib Require Import Strings.Byte.
From S2P Require Import Prelude Sha256 Text Base64 GoTime Json P256 WebAuthn Psbt Program Cosigner.
From S2P Require Import Vtxo Tenant Store TenantLedger VtxoLedger Session VtxoSelect VtxoScript VtxoVerify.
From S2P Require Import Handler Service VtxoTree VtxoRely VtxoService.

#[local] Arguments sha256 : simpl never.
#[local] Arguments hmac_sha256 : simpl never.

(** ** Rows that follow one another *)
Lemma next_state op st : transition_edge (vo_State op) st -> next_row op (vo_set_State st op).
Proof. intros H. split; [|done]. destruct op; split; try done. by apply tc_once. Qed.

Lemma next_settled op st created : transition_edge (vo_State op) st -> next_row op (vo_set_created created (vo_set_State st op)).
Proof. intros H. split; [|by destruct op]. destruct op; split; try done. by apply tc_once. Qed.

Lemma next_signed op req pd txid ark proof : vo_State op = vtxoStateReserved -> next_row op (signed_row op req pd txid ark proof).
Proof.
  intros H. split; [|by destruct op]. destruct op. simpl in H. subst.
  split; [apply tc_once; by vm_compute|done|vm_compute; lia..].
Qed.

Lemma next_submitted op cps binding : vo_State op = vtxoStateSigned -> next_row op (submitted_row op cps binding).
Proof.
  intros H. split; [|by destruct op]. destruct op. simpl in H. subst.
  split; [apply tc_once; by vm_compute|done|done|vm_compute; lia].
Qed.

Section Requests.
Context `{Btc} `{Secp} `{ArkScript} `{Addresses} `{ArkFee} `{ContractPacks} `{EcdsaVerify}.
Variable sv : Service.
Variable rq : Request.
Variable V : State -> Prop.

(** The vault of a request, as published and as stored, with a policy in force. *)
Definition vault_found (raw : bytes) (x : bytes * enrolledSnapshot * VaultRecord) : Prop :=
  let '(id, snap, rec) := x in
  routeVaultID raw = Ok id /\ (exists s, V s /\ snap = snapshot id (st_published s)) /\
  (exists s key cred, V s /\ credentialIntegrityKey (sv_CredentialIntegrityKey sv) = Ok key /\
     LoadVerifiedVault id key (st_ledger s) = Ok (Some (rec, cred))) /\
  validateRecordSpendingPolicy (cf_Network (sv_Deployment sv)) (Some rec) = Ok tt.

Lemma resolve_ensures vaultID s : ensures V (resolveSpendVaultRecord sv vaultID) (fun x _ => vault_found vaultID x) s.
Proof.
  unfold resolveSpendVaultRecord. walk. unfold vault_found. simplify_eq.
  repeat match goal with x : unit |- _ => destruct x end.
  match goal with E : wrap_err "stored economic policy: %w" _ = _ |- _ => apply wrap_err_Ok in E end. split_and!; eauto 10.
Qed.

Lemma expire_ensures op s : holds op s ->
  ensures V (expireReservedVtxo op)
    (fun op' s1 => vo_OperationID op' = vo_OperationID op /\ holds op' s1 /\ payment_terms op' = payment_terms op) s.
Proof.
  intros Hh. unfold expireReservedVtxo, vtxoNow. case_match eqn:Es; [by apply ensures_ret|].
  apply orb_false_iff in Es as [Es _]. apply negb_false_iff, bool_decide_eq_true in Es.
  walk; [done|]. eapply ensures_transition; [done|by apply next_state; rewrite Es|done|].
  intros ? cur swapped Hk Hc. apply ensures_ret. destruct swapped; [by destruct op|naive_solver].
Qed.

Lemma settle_ensures op final s : holds op s -> transition_edge vtxoStateSubmitted final -> vo_State op = vtxoStateSubmitted ->
  ensures V (settle op final) (fun _ _ => True) s.
Proof.
  intros Hh Hf Es. unfold settle, vtxoNow. walk. eapply ensures_transition; [done|by apply next_settled; rewrite Es|done|].
  intros ? cur swapped Hk Hc. walk.
Qed.

Lemma mark_ensures op s : holds op s -> vo_State op = vtxoStateSigned ->
  ensures V (mark_submitted op) (fun o s1 => match o with Some op' => holds op' s1 /\ vo_State op' = vtxoStateSubmitted | None => True end) s.
Proof.
  intros Hh Es. unfold mark_submitted. cbv zeta. apply ensures_bind.
  eapply ensures_transition; [done|by apply next_state; rewrite Es|done|].
  intros ? cur [] Hk Hc; walk; [by destruct op|]. destruct Hc. split; [done|].
  by apply negb_false_iff, bool_decide_eq_true in H6.
Qed.

Lemma promote_ensures resolver op s : holds op s -> ensures V (promoteSubmittedVtxo resolver op) (fun _ _ => True) s.
Proof.
  intros Hh. unfold promoteSubmittedVtxo. case_match eqn:Es; [by apply ensures_ret|].
  assert (transition_edge vtxoStateSubmitted vtxoStateUnresolved /\ transition_edge vtxoStateSubmitted vtxoStateFinalized)
    as [Hu Hf] by (by split; vm_compute).
  assert (forall op final s, holds op s -> vo_State op = vtxoStateSubmitted -> transition_edge vtxoStateSubmitted final ->
    ensures V (settle op final) (fun _ _ => True) s) as Hsettle by (intros; by apply settle_ensures).
  walk.
  - bool_hyps. eapply ensures_mono; [|by apply mark_ensures]. intros [op'|] s2 Hk Ho; [destruct Ho|]; walk; by apply Hsettle.
  - simpl in Es. bool_hyps. by apply Hsettle.
  - simpl in Es. bool_hyps. by apply Hsettle.
Qed.

Lemma reconciled_ensures op s : holds op s ->
  ensures V (reconciled sv op) (fun op' s1 => vo_OperationID op' = vo_OperationID op /\ holds op' s1) s.
Proof.
  intros Hh. unfold reconciled. case_match; [|by apply ensures_ret]. apply ensures_bind, ensures_pure. intros resolver _.
  apply ensures_bind, ensures_try.
  - intros s1 e Hk. carry Hk. by apply ensures_ret.
  - eapply ensures_mono; [|by apply promote_ensures]. intros _ s1 Hk _. carry Hk. walk; done.
Qed.

(** Every handler guarantees [kept]. *)
Definition keeps_payments {A} (p : Prog State A) : Prop := forall s, unique s -> ensures V p (fun _ _ => True) s.

(** Pass over a part of a handler by its lemma. *)
Ltac pass L :=
  let Hk := fresh "Hk" in
  eapply ensures_mono; [|by apply L]; cbv beta; intros ? ? Hk ?; carry Hk;
  repeat match goal with
  | H : _ /\ _ |- _ => destruct H
  | x : _ * _ |- _ => destruct x
  end.
Ltac pass1 :=
  match goal with
  | |- ensures _ vtxoNow _ _ => unfold vtxoNow
  | |- ensures _ (resolveSpendVaultRecord _ _) _ _ => pass resolve_ensures
  | |- ensures _ (expireReservedVtxo _) _ _ => pass expire_ensures
  | |- ensures _ (promoteSubmittedVtxo _ _) _ _ => pass promote_ensures
  | |- ensures _ (reconciled _ _) _ _ => pass reconciled_ensures
  end.
Ltac go := repeat ((walk1 || pass1); cbv beta zeta).

Lemma view_keeps vaultID id : keeps_payments (GetVtxoOperationView sv vaultID id).
Proof. intros s Hu. unfold GetVtxoOperationView. go. Qed.

(** ** Reservations *)

(** The answer describes a row, by fields that never change. *)
Definition described (resp : VtxoReserveResponse) (r : VtxoOperation) : Prop :=
  rs_BundleDigest resp = hex_encode (vo_BundleDigest r) /\ rs_ReservationExpires resp = vo_ExpiresAt r /\
  rs_DestScript resp = hex_encode (vo_DestScript r) /\ rs_FeeSats resp = wrap64 (vo_FeeSats r) /\
  rs_FeePolicyDigest resp = hex_encode (vo_FeePolicyDigest r) /\ rs_ChangeSats resp = wrap64 (vo_ChangeSats r) /\
  rs_ChangeVout resp = vo_ChangeVout r /\ rs_ChangeScript resp = hex_encode (vo_ChangeScript r) /\
  rs_CheckpointTapscript resp = hex_encode (vo_CheckpointTapscript r).

Lemma described_terms op inputs addr r : payment_terms r = payment_terms op -> described (vtxoReserveResponse op inputs addr) r.
Proof. intros E. destruct r, op. simpl in E. injection E as. subst. by split_and!. Qed.

(** The row is what was asked for, and pays change to the vault only. *)
Definition as_asked (vaultID purpose : bytes) (amount : Z) (destScript : bytes) (tree : vtxoPolicyTree) (r : VtxoOperation) : Prop :=
  vo_VaultID r = vaultID /\ vo_Purpose r = purpose /\ wrap64 (vo_AmountSats r) = amount /\ vo_DestScript r = destScript /\
  (vo_ChangeScript r = [] \/ vo_ChangeScript r = tr_PkScript tree).

Lemma as_asked_terms vaultID purpose amount destScript tree op r :
  payment_terms r = payment_terms op -> as_asked vaultID purpose amount destScript tree op -> as_asked vaultID purpose amount destScript tree r.
Proof. intros E. destruct r, op. simpl in E. injection E as. by subst. Qed.

Definition reserved (opID vaultID purpose : bytes) (amount : Z) (destScript : bytes) (tree : vtxoPolicyTree)
    (resp : VtxoReserveResponse) (s : State) : Prop :=
  exists r, find_operation (db s) opID = Some r /\ rs_OperationID resp = opID /\ described resp r /\
    as_asked vaultID purpose amount destScript tree r.

Lemma held_reserved op inputs addr vaultID purpose amount destScript tree s :
  holds op s -> as_asked vaultID purpose amount destScript tree op ->
  reserved (vo_OperationID op) vaultID purpose amount destScript tree (vtxoReserveResponse op inputs addr) s.
Proof.
  intros Hh Ha. pose proof Hh as (_ & _ & r & E & _). pose proof (held_terms _ _ _ Hh E) as Ht.
  exists r. split_and!; [done..|by apply described_terms|by eapply as_asked_terms].
Qed.

Lemma replay_ensures op vaultID purpose amount destScript tree s : holds op s ->
  ensures V (replayVtxoReservation op vaultID purpose amount destScript tree)
    (reserved (vo_OperationID op) vaultID purpose amount destScript tree) s.
Proof.
  intros Hh. unfold replayVtxoReservation. go.
  match goal with E : vo_OperationID ?op' = vo_OperationID op |- _ => rewrite <-E end. apply held_reserved; [done|].
  eapply as_asked_terms; [done|]. bool_hyps.
  match goal with E : validStoredVtxoChange _ _ = true |- _ => unfold validStoredVtxoChange in E; rename E into Ev end.
  split_and!; [done..|]. destruct (vo_ChangeSats op =? 0); bool_hyps; [left|by right].
  by apply nil_length_inv, Nat2Z.inj.
Qed.

Lemma reserve_ensures rec inputs cap s :
  unique s -> ensures V (on_ledger (ReserveVtxoOperation rec inputs cap)) (fun _ => holds rec) s.
Proof.
  intros Hu. apply ensures_ledger. intros s1 Hm. carry Hm.
  pose proof (Reserve_kept rec inputs cap (st_ledger s1)) as Hk.
  destruct (ReserveVtxoOperation _ _ _ _) as [l [[]|e]] eqn:E; [|done]. split; [done|]. intros [] _.
  apply reserve_found in E as [m Ef]; [|done]. destruct (Hk Hu) as [Hu' _]. split; [done|]. exists m. eexists.
  split; [exact Ef|]. by left.
Qed.

Lemma reserve_new_ensures resolver rec opID vaultID purpose amount feeCap destScript tree s : unique s -> is_uint64 amount ->
  ensures V (reserve_new rq resolver rec opID vaultID purpose amount feeCap destScript tree)
    (reserved opID vaultID purpose amount destScript tree) s.
Proof.
  intros Hu Ha. unfold reserve_new. repeat (go; try pass reserve_ensures; try pass replay_ensures).
  - by match goal with E : vo_OperationID _ = opID |- _ => rewrite E in * end.
  - apply (held_reserved (reservation_row _ _ _ _ _ _ _ _ _ _ _ _)); [done|]. split; [done|]. split; [done|].
    split; [by apply wrap64_wrap_int64|]. split; [done|]. simpl. destruct (0 <? _); auto.
Qed.

(** Everything that an answered reservation has established. *)
Record reservation_held (req : VtxoReserveRequest) (resp : VtxoReserveResponse) (s : State) (opID vaultID : bytes)
    (snap : enrolledSnapshot) (rec : VaultRecord) (tree : vtxoPolicyTree) (destScript addr : bytes) : Prop := {
  rh_id : canonicalVtxoOperationID (rr_OperationID req) = Ok opID;
  rh_vault : vault_found (rr_VaultID req) (vaultID, snap, rec);
  rh_tree : buildVtxoPolicyTree sv vaultID snap = Ok tree;
  rh_dest : decodeVtxoDest sv (rr_DestAddress req) = Ok (destScript, addr);
  rh_phone : verifyVtxoReservePhoneSignature req vaultID destScript (es_PhoneBIP340 snap) = Ok tt;
  rh_change : refuseDefaultVtxoChange sv snap destScript = Ok tt;
  rh_amount : enforceVtxoAmount (rr_AmountSats req) 0 (Some rec) = Ok tt;
  rh_ledger : reserved opID vaultID vtxoPurposeSpend (rr_AmountSats req) destScript tree resp s;
}.

Lemma reserve_request_ensures req s : unique s -> is_uint64 (rr_AmountSats req) ->
  ensures V (ReserveVtxo sv rq req) (fun resp s1 => exists opID vaultID snap rec tree destScript addr,
    reservation_held req resp s1 opID vaultID snap rec tree destScript addr) s.
Proof.
  intros Hu Ha. unfold ReserveVtxo. repeat (go; try pass replay_ensures; try pass reserve_new_ensures).
  all: repeat match goal with x : unit |- _ => destruct x | E : or_err _ _ = Ok _ |- _ => apply or_err_Ok in E end.
  all: bool_hyps; match goal with E : trim_space _ = vtxoPurposeSpend |- _ => rewrite E in * end.
  - do 7 eexists. split; try done.
  - match goal with E : vo_OperationID _ = _ |- _ => rewrite E in * end. do 7 eexists. split; try done.
Qed.

Lemma reserve_keeps req : is_uint64 (rr_AmountSats req) -> keeps_payments (ReserveVtxo sv rq req).
Proof. intros Ha s Hu. by eapply ensures_mono; [|by apply reserve_request_ensures]. Qed.

(** The operation and coins of a request, as they are in the ledger. *)
Definition live_payment (vaultID id purpose : bytes) (x : VtxoOperation * list VtxoOperationInput) (s : State) : Prop :=
  holds (fst x) s /\ vo_OperationID (fst x) = id /\ vo_VaultID (fst x) = vaultID /\ vo_Purpose (fst x) = purpose /\
  snd x = slice_stable input_before (coins (db s) id).

#[local] Instance live_stable vaultID id purpose x : Stable (live_payment vaultID id purpose x).
Proof.
  intros s s' Hk (Hh & <- & Hv & Hp & Hc). split_and!; [by eapply stable|done..|]. rewrite Hc. by rewrite (coins_kept _ _ _ Hh Hk).
Qed.

Lemma load_live_ensures vaultID id purpose s : unique s ->
  ensures V (loadLiveVtxo vaultID id purpose) (live_payment vaultID id purpose) s.
Proof.
  intros Hu. unfold loadLiveVtxo. go.
  1,2,4: match goal with E : GetVtxoOperationInputs _ _ = Ok _ |- _ => apply inputs_coins in E as -> end; bool_hyps; by split_and!.
  bool_hyps. eapply ensures_transition; [done|by apply next_state; simplify_eq; rewrite Heqb0|done|].
  intros. by apply ensures_pure.
Qed.

(** An assertion of the credential, for the challenge that its own client data
    names: it certifies a present and verified user.  The code compares the
    challenge with nothing, so the assertion says nothing about a payment. *)
Definition user_present (cred : Credential) (req : VtxoAuthorizeRequest) (signCount : Z) : Prop :=
  exists assertion challenge cd pub r s,
    decodeAssertion (ra_CredentialID req) (ra_ClientDataJSON req) (ra_AuthenticatorData req) (ra_Signature req) = Ok assertion /\
    ChallengeFromClientDataJSON (a_ClientDataJSON assertion) = Ok challenge /\
    certifies assertion
      {| e_CredentialID := cr_ID cred; e_WebAuthnP256 := cr_WebAuthnP256 cred; e_Challenge := challenge;
         e_Origin := cr_Origin cred; e_RPID := cr_RPID cred |} cd pub r s /\
    signCount = SignCount (a_AuthenticatorData assertion).

(** The direct key of the credential has signed [digest]. *)
Definition digest_signed (cred : Credential) (digest : bytes) (req : VtxoAuthorizeRequest) : Prop :=
  exists directSig, blen digest = 32 /\ decodeHex (ra_DirectSig req) = Ok directSig /\
    verifyDirectAuth (cr_PhoneDirectP256 cred) digest directSig = Ok tt.

(** The vault's credential, as an authenticated row of the ledger: its user is
    present, and its direct key, not the passkey, has approved [digest]. *)
Definition approved (vaultID digest : bytes) (req : VtxoAuthorizeRequest) (credentialID : bytes) (signCount : Z) : Prop :=
  exists s cred, V s /\ loadVerifiedCredentialFor (sv_CredentialIntegrityKey sv) vaultID (st_ledger s) = Ok (Some cred) /\
    cr_ID cred = credentialID /\ user_present cred req signCount /\ digest_signed cred digest req.

Lemma verify_authorization_ensures vaultID digest req s :
  ensures V (verifyVtxoAuthorization sv rq vaultID digest req) (fun x _ => approved vaultID digest req (fst x) (snd x)) s.
Proof.
  unfold verifyVtxoAuthorization. go. unfold approved. bool_hyps. simplify_eq.
  repeat match goal with x : unit |- _ => destruct x | E : or_err _ _ = Ok _ |- _ => apply or_err_Ok in E end.
  match goal with E : loadVerifiedCredentialFor _ _ (st_ledger ?s1) = Ok (Some ?c) |- _ => exists s1, c end.
  match goal with E : Validate _ _ = Ok _ |- _ => apply validate_Ok in E as (cd & pub & r & z & Hc & ->) end.
  split_and!; [done..| |eexists; split_and!; eassumption]. do 6 eexists. split_and!; [eassumption..|done].
Qed.

(** What an answered authorization leaves in the ledger: the payment, with the
    packets of the request and the signed ones of the answer. *)
Definition authorized (op : VtxoOperation) (req : VtxoAuthorizeRequest) (pd : bytes) (resp : VtxoAuthorizeResponse) (s : State) : Prop :=
  exists r, find_operation (db s) (vo_OperationID op) = Some r /\ payment_terms r = payment_terms op /\
    rtc transition_edge vtxoStateSigned (vo_State r) /\
    payment_authorization r = [ra_UnsignedArkPsbt req; ar_AuthorizedPsbt resp; pd; ar_AuthorizedPendingProof resp; ar_ArkTxid resp].

Lemma same_authorization_Ok op req pd : same_authorization op req pd = true ->
  payment_authorization op = [ra_UnsignedArkPsbt req; vo_AuthorizedPSBT op; pd; vo_AuthorizedPendingProof op; vo_ArkTxid op].
Proof. unfold same_authorization, payment_authorization. intros E. bool_hyps. congruence. Qed.

Lemma commit_ensures req op pd txid ark proof cred n s : holds op s -> vo_State op = vtxoStateReserved ->
  ensures V (commit_payment req op pd txid ark proof cred n) (authorized op req pd) s.
Proof.
  intros Hh Es. unfold commit_payment. cbv zeta. apply ensures_bind, ensures_ledger. intros s1 Hk. carry Hk.
  pose proof (commit_kept op (signed_row op req pd txid ark proof) cred n (st_ledger s1) Hh ltac:(by apply next_signed) Es) as Hk.
  destruct (CommitSignedVtxoOperation _ _ _ _) as [l r] eqn:Ec. split; [done|]. intros [cur swapped] ->.
  apply commit_row in Ec; [|by apply Hh]. destruct swapped.
  - destruct Ec as [m Ef]. apply ensures_ret. exists (vo_set_MAC m (signed_row op req pd txid ark proof)).
    destruct op. by split_and!.
  - destruct Ec as [Ef El]. walk. bool_hyps. exists cur. destruct Hh as (_ & m & r0 & E0 & Hr). rewrite <-El in E0.
    assert (Eid : vo_OperationID (signed_row op req pd txid ark proof) = vo_OperationID op) by (by destruct op).
    rewrite Eid, E0 in Ef. injection Ef as ->. split; [cbn [st_ledger set_ledger]; done|].
    split; [|split; [by match goal with E : vo_State cur = _ |- _ => rewrite E end|by apply same_authorization_Ok]].
    destruct Hr as [->|[_ Ht _ _]]; [by rewrite payment_terms_MAC|]. by rewrite Ht, payment_terms_MAC.
Qed.

(** A signed payment that was read is still there, as it was signed. *)
Lemma replay_authorized op req pd s : holds op s -> vo_State op = vtxoStateSigned -> same_authorization op req pd = true ->
  authorized op req pd (authorize_response op (vo_AuthorizedPSBT op) (vo_AuthorizedPendingProof op) (vo_ArkTxid op)) s.
Proof.
  intros (_ & m & r & E & Hr) Es Hs. apply same_authorization_Ok in Hs. exists r. split; [done|].
  assert (stage (vo_State (vo_set_MAC m op)) = 1%nat) as Est by (destruct op; simpl in *; by rewrite Es).
  destruct Hr as [->|[Hp Ht Ha _]].
  - destruct op. simpl in *. subst. by split_and!.
  - rewrite Ht, payment_terms_MAC, Ha by lia. split; [done|]. split; [|by destruct op].
    apply tc_rtc in Hp. by destruct op; simpl in *; subst.
Qed.

(** The packets of the request are the reserved payment: one verified checkpoint
    for every reserved coin, an Ark transaction that spends exactly them, and a
    proof of the coins that the phone has signed. *)
Record bundle_checked (req : VtxoAuthorizeRequest) (op : VtxoOperation) (inputs : list VtxoOperationInput)
    (tree : vtxoPolicyTree) (phone : option PubKey) (ark : Packet) (pd : bytes) : Prop := {
  bc_ark : parsePSBT (ra_UnsignedArkPsbt req) = Ok ark;
  bc_count : length (ra_UnsignedCheckpointPsbts req) = length inputs;
  bc_spend : exists checkpoints,
    Forall2 (fun (c : bytes * VtxoOperationInput) cp =>
      parsePSBT (fst c) = Ok cp /\ verifyUnsignedCheckpointPSBT cp (snd c) op tree = Ok tt)
      (zip (ra_UnsignedCheckpointPsbts req) inputs) checkpoints /\
    verifySpendPSBT ark op inputs tree checkpoints = Ok tt;
  bc_proof : verifyPhonePendingProof (ra_PendingProof req) inputs tree phone = Ok tt;
  bc_digest : pendingProofDigest (ra_PendingProof req) = Ok pd;
}.

Lemma verified_bundle_checked req op inputs tree phone ark pd :
  verified_bundle req op inputs tree phone = Ok (ark, pd) -> bundle_checked req op inputs tree phone ark pd.
Proof.
  unfold verified_bundle. intros E.
  apply bind_Ok in E as (ark' & Ea & E). apply bind_Ok in E as ([] & El & E). apply bind_Ok in E as (cps & Ec & E).
  apply bind_Ok in E as ([] & Es & E). apply bind_Ok in E as ([] & Ep & E). apply bind_Ok in E as (pd' & Ed & E).
  apply Ok_inj, pair_equal_spec in E as [-> ->]. apply fail_if_Ok, negb_false_iff, Nat.eqb_eq in El.
  split; try done. exists cps. split; [|done]. apply collect_Ok in Ec. eapply Forall2_impl; [exact Ec|].
  intros c cp Ev. unfold verified_checkpoint in Ev. apply bind_Ok in Ev as (cp' & Ev & Ev'). apply or_err_Ok in Ev.
  apply bind_Ok in Ev' as ([] & Ev' & E). apply Ok_inj in E as ->. by split.
Qed.

(** Everything that an answered authorization has established, and what it
    leaves in the ledger. *)
Record authorization_held (req : VtxoAuthorizeRequest) (resp : VtxoAuthorizeResponse) (s : State) (op : VtxoOperation)
    (inputs : list VtxoOperationInput) (vaultID : bytes) (snap : enrolledSnapshot) (rec : VaultRecord) (tree : vtxoPolicyTree)
    (ark : Packet) (pd credentialID : bytes) (signCount : Z) : Prop := {
  ah_vault : vault_found (ra_VaultID req) (vaultID, snap, rec);
  ah_tree : buildVtxoPolicyTree sv vaultID snap = Ok tree;
  ah_live : live_payment vaultID (ra_OperationID req) vtxoPurposeSpend (op, inputs) s;
  ah_digest : requireBundleDigest (ra_BundleDigest req) (vo_BundleDigest op) = Ok tt;
  ah_bundle : bundle_checked req op inputs tree (es_PhoneBIP340 snap) ark pd;
  ah_approved : approved vaultID (vo_BundleDigest op) req credentialID signCount;
  ah_ledger : authorized op req pd resp s;
}.

Lemma authorize_ensures req s : unique s ->
  ensures V (AuthorizeVtxoSpend sv rq req) (fun resp s1 => exists op inputs vaultID snap rec tree ark pd credentialID signCount,
    authorization_held req resp s1 op inputs vaultID snap rec tree ark pd credentialID signCount) s.
Proof.
  intros Hu. unfold AuthorizeVtxoSpend. repeat (go; try pass load_live_ensures; try pass verify_authorization_ensures).
  all: repeat match goal with x : unit |- _ => destruct x | E : or_err _ _ = Ok _ |- _ => apply or_err_Ok in E
    | E : verified_bundle _ _ _ _ _ = Ok (_, _) |- _ => apply verified_bundle_checked in E end.
  all: simpl fst in *; simpl snd in *; cbn [andb] in *; simplify_eq; bool_hyps.
  - do 10 eexists. split; try done. match goal with L : live_payment _ _ _ _ _ |- _ => apply replay_authorized; [by apply L|done..] end.
  - match goal with L : live_payment _ _ _ (?op, _) _ |- _ =>
      assert (vo_State op = vtxoStateReserved) by (rewrite andb_true_r in *; by bool_hyps);
      eapply ensures_mono; [|apply (commit_ensures _ op); [by apply L|done]] end.
    cbv beta. intros resp s5 Hk Ha. carry Hk. do 10 eexists. by split.
Qed.

Lemma authorize_keeps req : keeps_payments (AuthorizeVtxoSpend sv rq req).
Proof. intros s Hu. by eapply ensures_mono; [|by apply authorize_ensures]. Qed.

Lemma checkpoints_keep req : keeps_payments (AuthorizeVtxoCheckpoints sv rq req).
Proof.
  intros s Hu. unfold AuthorizeVtxoCheckpoints. repeat (go; try pass load_live_ensures).
  cbn [fst] in *. match goal with E : negb (vtxoCheckpointAuthorizableState _) = false |- _ => rename E into Es end.
  apply negb_false_iff, orb_true_iff in Es as [Es|Es]; [|congruence]. bool_hyps.
  match goal with L : live_payment _ _ _ _ _ |- _ => destruct L as [Hh _] end.
  eapply ensures_transition; [done|by apply next_submitted|done|]. intros ? cur [] _ _; go.
Qed.

(** ** Finalization and abort *)

(** What an answered finalization leaves: the payment, finalized, with the
    transaction of the request. *)
Definition finalized (req : VtxoFinalizeRequest) (resp : VtxoFinalizeResponse) (s : State) : Prop :=
  exists r vaultID, find_operation (db s) (rf_OperationID req) = Some r /\ routeVaultID (rf_VaultID req) = Ok vaultID /\
    vo_VaultID r = vaultID /\ vo_State r = vtxoStateFinalized /\ fr_State resp = vtxoStateFinalized /\
    fr_ArkTxid resp = vo_ArkTxid r /\ EqualFold (vo_ArkTxid r) (to_lower (trim_space (rf_ArkTxid req))) = true /\
    requireBundleDigest (rf_BundleDigest req) (vo_BundleDigest r) = Ok tt /\
    fr_BundleDigest resp = hex_encode (vo_BundleDigest r).

(** A row that is in a final state when it is read stays what it was. *)
Lemma held_final op s : holds op s -> stage (vo_State op) = 3%nat ->
  exists m, find_operation (db s) (vo_OperationID op) = Some (vo_set_MAC m op).
Proof.
  intros (_ & m & r & E & [->|[Hp _ _ _]]) Es; [by exists m|]. exfalso.
  assert (vo_State (vo_set_MAC m op) = vo_State op) as Em by (by destruct op). rewrite Em in Hp.
  assert (stage (vo_State r) <= 3)%nat by (unfold stage; repeat case_match; lia). apply path_stage in Hp. lia.
Qed.

Lemma terms_fields r op : payment_terms r = payment_terms op ->
  vo_VaultID r = vo_VaultID op /\ vo_Purpose r = vo_Purpose op /\ vo_BundleDigest r = vo_BundleDigest op.
Proof. intros E. destruct r, op. simpl in E. injection E as. by subst. Qed.

Lemma read_after op id cur s : holds op s -> vo_OperationID op = id -> GetVtxoOperation id (st_ledger s) = Ok cur ->
  exists m, row_kept (vo_set_MAC m op) cur.
Proof.
  intros Hh <- E. unfold GetVtxoOperation in E. apply bind_Ok in E as ([] & _ & E). apply load_found in E as [E _].
  by eapply held_row.
Qed.

Lemma read_finalized op s req vaultID : holds op s -> vo_OperationID op = rf_OperationID req -> vo_State op = vtxoStateFinalized ->
  routeVaultID (rf_VaultID req) = Ok vaultID -> vo_VaultID op = vaultID ->
  EqualFold (vo_ArkTxid op) (to_lower (trim_space (rf_ArkTxid req))) = true ->
  requireBundleDigest (rf_BundleDigest req) (vo_BundleDigest op) = Ok tt ->
  finalized req (finalize_response op (vo_BundleDigest op)) s.
Proof.
  intros Hh Hid Es Hr Hv Ht Hd. destruct (held_final op s Hh) as [m E]; [by rewrite Es|]. rewrite Hid in E.
  exists (vo_set_MAC m op), vaultID. destruct op. by split_and!.
Qed.

Lemma finalize_ensures req s : unique s -> ensures V (FinalizeVtxo sv req) (finalized req) s.
Proof.
  intros Hu. unfold FinalizeVtxo. go.
  all: repeat match goal with x : unit |- _ => destruct x | L : vault_found _ _ |- _ => destruct L as [Hroute _] end.
  - bool_hyps. by eapply read_finalized.
  - bool_hyps. unfold vtxoFinalizableState in *. bool_hyps.
    match goal with E : GetVtxoOperation _ _ = Ok op0 |- _ => destruct (read_after op _ _ _ ltac:(eassumption) ltac:(eassumption) E) as [m Hrow] end.
    pose proof (kept_terms _ _ _ Hrow) as Ht. apply terms_fields in Ht as (Hv & _ & Hb).
    assert (vo_ArkTxid op0 = vo_ArkTxid op) as Etx.
    { destruct Hrow as [->|[_ _ Ha _]]; [by destruct op|]. unfold payment_authorization in Ha.
      assert (vo_State (vo_set_MAC m op) = vtxoStateSubmitted) as Es by (by destruct op). rewrite Es in Ha.
      specialize (Ha ltac:(vm_compute; lia)). injection Ha as _ _ _ _ Ha. by destruct op. }
    rewrite <-Hb. eapply read_finalized; try done; congruence.
Qed.

Lemma finalize_keeps req : keeps_payments (FinalizeVtxo sv req).
Proof. intros s Hu. by eapply ensures_mono; [|by apply finalize_ensures]. Qed.

(** What an answered abort leaves: the payment, aborted, and never signed. *)
Definition aborted (req : VtxoAbortRequest) (resp : VtxoAbortResponse) (s : State) : Prop :=
  exists r vaultID snap rec, find_operation (db s) (br_OperationID resp) = Some r /\
    canonicalVtxoOperationID (rb_OperationID req) = Ok (br_OperationID resp) /\
    vault_found (rb_VaultID req) (vaultID, snap, rec) /\ vo_VaultID r = vaultID /\
    verifyVtxoAbortPhoneSignature req vaultID (es_PhoneBIP340 snap) = Ok tt /\
    vo_State r = vtxoStateAborted /\ br_State resp = vtxoStateAborted /\
    payment_authorization r = [[]; []; []; []; []] /\ payment_checkpoints r = [[]; []].

Lemma no_artifacts op : vtxoHasSigningArtifacts op = false ->
  payment_authorization op = [[]; []; []; []; []] /\ payment_checkpoints op = [[]; []].
Proof.
  unfold vtxoHasSigningArtifacts, payment_authorization, payment_checkpoints. intros E. bool_hyps.
  assert (vo_PendingProofDigest op = []) as -> by (by apply nil_length_inv, Nat2Z.inj). split; congruence.
Qed.

Lemma abort_ensures req s : unique s -> ensures V (AbortVtxo sv req) (aborted req) s.
Proof.
  intros Hu. unfold AbortVtxo. go. bool_hyps.
  match goal with E : vo_State ?op' = vtxoStateReserved |- _ => rename E into Es; rename op' into cur end.
  eapply ensures_transition; [done|by apply next_state; rewrite Es|done|]. intros ? ? swapped Hk Hc. go. bool_hyps. subst.
  destruct (held_final _ _ Hc) as [m E]; [by destruct cur|].
  repeat match goal with x : unit |- _ => destruct x end.
  match goal with E : payment_terms cur = _ |- _ => apply terms_fields in E as (Hv & _ & _) end.
  match goal with E : vtxoHasSigningArtifacts _ = false |- _ => apply no_artifacts in E as [Ha Hp] end.
  exists (vo_set_MAC m (vo_set_State vtxoStateAborted cur)). do 3 eexists. cbn [br_OperationID br_State].
  split; [exact E|]. split; [by destruct cur; simpl in *; subst|]. split; [eassumption|].
  split; [by destruct cur|]. split; [eassumption|]. destruct cur. by split_and!.
Qed.

Lemma abort_keeps req : keeps_payments (AbortVtxo sv req).
Proof. intros s Hu. by eapply ensures_mono; [|by apply abort_ensures]. Qed.

(** ** What an answer means *)

(** C6: A reservation is answered only when the phone of an enrolled vault asked
    for it, for an amount within the vault's policy and a destination that is a
    pinned-Operator address and not the phone's default script; and the ledger
    ends with the payment of the request (its identifier, vault, amount and
    destination), whose change, if any, goes back to the vault's own script, and
    which the answer describes.  Other requests may run in between, and the same
    request sent again is answered from the same payment. *)
Theorem reservation_sound env req resp s s' :
  (forall s s1, env s s1 -> kept s s1 /\ V s1) -> ids_unique (db s) -> is_uint64 (rr_AmountSats req) ->
  runs env (ReserveVtxo sv rq req) s s' (Ok resp) ->
  exists opID vaultID snap rec tree destScript addr, reservation_held req resp s' opID vaultID snap rec tree destScript addr.
Proof. intros He Hu Ha Hr. exact (ensures_runs V _ _ env s s' resp He (reserve_request_ensures req s Hu Ha) Hr). Qed.

(** C10: A finalization is answered only when the ledger holds the payment of the
    vault finalized, with the transaction and the bundle digest of the request,
    whatever other requests do in between. *)
Theorem finalization_sound env req resp s s' :
  (forall s s1, env s s1 -> kept s s1 /\ V s1) -> ids_unique (db s) ->
  runs env (FinalizeVtxo sv req) s s' (Ok resp) -> finalized req resp s'.
Proof. intros He Hu Hr. exact (ensures_runs V _ _ env s s' resp He (finalize_ensures req s Hu) Hr). Qed.

(** C11: An abort is answered only when the vault's phone signed it, and then the
    payment is in the ledger, aborted and never signed: it holds no packet, no
    proof, no checkpoint and no transaction, whatever other requests did in
    between. *)
Theorem abort_sound env req resp s s' :
  (forall s s1, env s s1 -> kept s s1 /\ V s1) -> ids_unique (db s) ->
  runs env (AbortVtxo sv req) s s' (Ok resp) -> aborted req resp s'.
Proof. intros He Hu Hr. exact (ensures_runs V _ _ env s s' resp He (abort_ensures req s Hu) Hr). Qed.

(** C5: An authorization is answered only for a reservation of this vault that
    is in the ledger, whose coins are those of the answer's packets: the vault is
    enrolled and its policy is in force; the Ark packet, the checkpoints and the
    pending proof of the request are exactly the reserved payment, signed by the
    phone; the vault's direct key has signed the reservation's digest; an assertion
    of the vault's passkey certifies that its user is present and verified (its
    challenge is the client's own, so it does not name the payment); and the ledger
    ends with that payment, of the same terms, holding the packet and proof of the
    answer, signed for good.  Other requests may run in between; [V] is any
    property of the states that the request meets. *)
Theorem authorization_sound env req resp s s' :
  (forall s s1, env s s1 -> kept s s1 /\ V s1) -> ids_unique (db s) ->
  runs env (AuthorizeVtxoSpend sv rq req) s s' (Ok resp) ->
  exists op inputs vaultID snap rec tree ark pd credentialID signCount,
    authorization_held req resp s' op inputs vaultID snap rec tree ark pd credentialID signCount.
Proof. intros He Hu Hr. exact (ensures_runs V _ _ env s s' resp He (authorize_ensures req s Hu) Hr). Qed.
End Requests.

(** ** The claim *)

(** The payment requests that the service takes. *)
Section Together.
Context `{Btc} `{Secp} `{ArkScript} `{Addresses} `{ArkFee} `{ContractPacks} `{EcdsaVerify}.
Variable sv : Service.

Inductive payment_request : Thread -> Prop :=
  | RequestReserve rq req : is_uint64 (rr_AmountSats req) -> payment_request (ThreadOf (ReserveVtxo sv rq req))
  | RequestAuthorize rq req : payment_request (ThreadOf (AuthorizeVtxoSpend sv rq req))
  | RequestCheckpoints rq req : payment_request (ThreadOf (AuthorizeVtxoCheckpoints sv rq req))
  | RequestFinalize req : payment_request (ThreadOf (FinalizeVtxo sv req))
  | RequestAbort req : payment_request (ThreadOf (AbortVtxo sv req))
  | RequestView vaultID id : payment_request (ThreadOf (GetVtxoOperationView sv vaultID id)).

Lemma keeps_thread {A} (p : Prog State A) s : keeps_payments (fun _ => True) p -> unique s -> thread_guarantees kept (ThreadOf p) s.
Proof.
  intros Hp Hu. apply (guarantees_among (meets (fun _ => True))); [by intros ? ?|]. eapply guarantees_mono, Hp, Hu. done.
Qed.

Lemma request_guarantees t s : payment_request t -> unique s -> thread_guarantees kept t s.
Proof.
  intros [] Hu; apply keeps_thread;
    auto using reserve_keeps, authorize_keeps, checkpoints_keep, finalize_keeps, abort_keeps, view_keeps.
Qed.

(** C4: Payments are immutable, whatever runs at the same time.  Start from any
    ledger, with no request or any number of payment requests at their
    beginning; let requests arrive at any time, and let them take their steps in
    any order, between each other and between the steps of anything else that
    keeps payments.  Then no payment disappears; its state moves along the state
    graph only; its vault, amounts, fee, scripts, expiry, bundle digest and coins
    never change; once it is signed its packet, pending proof and transaction id
    never change, and once it is submitted its checkpoints never change. *)
Theorem concurrent_payments_kept others ts s s' ts' id :
  (forall s s', others s s' -> payments_kept (db s) (db s')) -> ids_unique (db s) -> Forall payment_request ts ->
  rtc (pool_step others payment_request) (s, ts) (s', ts') ->
  ids_unique (db s') /\
  match find_operation (db s) id with
  | Some r => exists r', find_operation (db s') id = Some r' /\ coins (db s') id = coins (db s) id /\
      rtc transition_edge (vo_State r) (vo_State r') /\ payment_terms r' = payment_terms r /\
      (vo_State r <> vtxoStateReserved -> payment_authorization r' = payment_authorization r) /\
      (vo_State r <> vtxoStateReserved -> vo_State r <> vtxoStateSigned -> payment_checkpoints r' = payment_checkpoints r) /\
      (vo_State r' = vo_State r -> r' = r)
  | None => forall r', find_operation (db s') id = Some r' -> rtc transition_edge vtxoStateReserved (vo_State r')
  end.
Proof.
  intros Ho Hu Hts Hr.
  assert (kept s s') as Hk.
  { apply (pool_guarantees kept others payment_request unique (s, ts) (s', ts') Ho
      ltac:(intros; by apply request_guarantees) ltac:(intros; by eapply (stable (P := unique))) Hr Hu).
    eapply Forall_impl; [done|]. intros t Ht. by apply request_guarantees. }
  destruct (Hk Hu) as [Hu' K]. split; [done|]. specialize (K id). unfold op_kept in K.
  destruct (find_operation (db s) id) as [r|]; [|intros r' E; by rewrite E in K].
  destruct K as (r' & E & Hrow & Hc). exists r'. split; [done|]. split; [done|].
  pose proof (row_kept_state _ _ Hrow). destruct Hrow as [->|[Hp Ht Ha Hcp]]; [done|]. split_and!; [by apply tc_rtc|done| |..].
  - intros Hne. apply Ha. unfold stage. rewrite bool_decide_eq_false_2 by done. repeat case_match; lia.
  - intros Hne Hne'. apply Hcp. unfold stage. rewrite !bool_decide_eq_false_2 by done. case_match; lia.
  - done.
Qed.
End Together.

(** Two aborts of one reservation race with a look at it. *)
Definition toy_threads : list Thread := [
  ThreadOf (@AbortVtxo (toy_btc []) toy_vault_service toy_abort);
  ThreadOf (GetVtxoOperationView toy_vault_service (str "vault-1") (vo_OperationID toy_operation));
  ThreadOf (@AbortVtxo (toy_btc []) toy_vault_service toy_abort)].

Definition toy_race : State * list Thread := schedule (concat (replicate 12 [0; 1; 2]))%nat toy_reserved toy_threads.

Lemma toy_unique : ids_unique (db toy_reserved).
Proof. apply NoDup_ListNoDup. vm_compute. constructor; [intros []|constructor]. Qed.

Lemma concurrent_payments_kept_witness :
  op_state (db (fst toy_race)) (vo_OperationID toy_operation) = Some vtxoStateAborted /\
  exists r r', find_operation (db toy_reserved) (vo_OperationID toy_operation) = Some r /\
    find_operation (db (fst toy_race)) (vo_OperationID toy_operation) = Some r' /\
    payment_terms r' = payment_terms r /\
    coins (db (fst toy_race)) (vo_OperationID toy_operation) = coins (db toy_reserved) (vo_OperationID toy_operation).
Proof.
  split; [vm_compute; reflexivity|].
  destruct (@concurrent_payments_kept (toy_btc []) toy_secp toy_ark toy_addresses (fun _ => None) (Build_ContractPacks [] [])
    (fun _ _ _ _ => true) toy_vault_service eq toy_threads toy_reserved (fst toy_race) (snd toy_race) (vo_OperationID toy_operation))
    as [_ H].
  - intros s s' ->. reflexivity.
  - exact toy_unique.
  - repeat constructor.
  - unfold toy_race. rewrite <-surjective_pairing. apply schedule_rtc.
  - destruct (find_operation (db toy_reserved) (vo_OperationID toy_operation)) as [r|] eqn:E.
    + destruct H as (r' & Er & Hc & _ & Ht & _). exists r, r'. exact (conj eq_refl (conj Er (conj Ht Hc))).
    + exfalso. apply (f_equal (fun o : option VtxoOperation => match o with Some _ => true | None => false end)) in E. vm_compute in E. discriminate E.
Defined.

Lemma authorization_sound_witness :
  exists s' resp r, find_operation (db s') (vo_OperationID toy_operation) = Some r /\
    vo_AuthorizedPSBT r = ar_AuthorizedPsbt resp /\ rtc transition_edge vtxoStateSigned (vo_State r).
Proof.
  set (btc := toy_packets). set (secp := toy_secp). set (ark := toy_ark). set (addresses := toy_addresses).
  set (fees := toy_fees). set (packs := toy_packs). set (ecdsa := accept_all).
  pose proof (run_runs eq (fun _ s => s) 0 (AuthorizeVtxoSpend toy_vault_service toy_request toy_authorize) toy_reserved
    (fun _ _ => eq_refl)) as Hr.
  destruct (snd (run _ 0 (AuthorizeVtxoSpend toy_vault_service toy_request toy_authorize) toy_reserved)) as [resp|e] eqn:E.
  - apply (authorization_sound toy_vault_service toy_request (fun _ => True) eq toy_authorize resp toy_reserved) in Hr as
      (op & inputs & vaultID & snap & rec & tree & packet & pd & cid & n & Hh).
    + destruct Hh as [_ _ Hl _ _ _ Ha]. destruct Hl as (_ & Hid & _). destruct Ha as (r & Hf & _ & Hp & Hau).
      simpl in Hid. rewrite Hid in Hf. eexists _, resp, r. split; [exact Hf|]. split; [|exact Hp].
      unfold payment_authorization in Hau. injection Hau as _ Hau _ _ _. exact Hau.
    + intros s s1 <-. by split.
    + exact toy_unique.
  - exfalso. revert E. vm_compute. discriminate.
Defined.

Lemma reservation_sound_witness :
  exists s' resp r, find_operation (db s') (vo_OperationID toy_operation) = Some r /\ wrap64 (vo_AmountSats r) = 20000 /\
    described resp r.
Proof.
  set (btc := toy_packets). set (secp := toy_secp). set (ark := toy_ark). set (addresses := toy_addresses).
  set (fees := toy_fees). set (packs := toy_packs).
  pose proof (run_runs eq (fun _ s => s) 0 (ReserveVtxo toy_wallet_service toy_request toy_reserve) toy_enrolled
    (fun _ _ => eq_refl)) as Hr.
  destruct (snd (run _ 0 (ReserveVtxo toy_wallet_service toy_request toy_reserve) toy_enrolled)) as [resp|e] eqn:E.
  - apply (reservation_sound toy_wallet_service toy_request (fun _ => True) eq toy_reserve resp toy_enrolled) in Hr as
      (opID & vaultID & snap & rec & tree & dest & addr & Hh).
    + destruct Hh as [Hid _ _ _ _ _ _ (r & Hf & _ & Hd & _ & _ & Ha & _)]. vm_compute in Hid. injection Hid as <-.
      eexists _, resp, r. split; [exact Hf|]. split; [exact Ha|exact Hd].
    + intros s s1 <-. by split.
    + apply NoDup_nil. exact I.
    + vm_compute. split; discriminate.
  - exfalso. revert E. vm_compute. discriminate.
Defined.

Lemma toy_submitted_unique : ids_unique (db toy_submitted).
Proof. apply NoDup_ListNoDup. vm_compute. constructor; [intros []|constructor]. Qed.

Lemma finalization_sound_witness :
  exists s' resp, finalized toy_finalize resp s' /\ fr_State resp = vtxoStateFinalized.
Proof.
  set (packs := toy_packs).
  pose proof (run_runs eq (fun _ s => s) 0 (FinalizeVtxo toy_wallet_service toy_finalize) toy_submitted (fun _ _ => eq_refl)) as Hr.
  destruct (snd (run _ 0 (FinalizeVtxo toy_wallet_service toy_finalize) toy_submitted)) as [resp|e] eqn:E.
  - apply (finalization_sound toy_wallet_service (fun _ => True) eq toy_finalize resp toy_submitted) in Hr.
    + eexists _, resp. split; [exact Hr|]. destruct Hr as (r & v & _ & _ & _ & _ & Hs & _). exact Hs.
    + intros s s1 <-. by split.
    + exact toy_submitted_unique.
  - exfalso. revert E. vm_compute. discriminate.
Defined.

Lemma abort_sound_witness :
  exists s' resp, aborted toy_vault_service (fun _ => True) (H := toy_packets) toy_abort resp s' /\ br_State resp = vtxoStateAborted.
Proof.
  set (btc := toy_packets).
  pose proof (run_runs eq (fun _ s => s) 0 (AbortVtxo toy_vault_service toy_abort) toy_reserved (fun _ _ => eq_refl)) as Hr.
  destruct (snd (run _ 0 (AbortVtxo toy_vault_service toy_abort) toy_reserved)) as [resp|e] eqn:E.
  - apply (abort_sound toy_vault_service (fun _ => True) eq toy_abort resp toy_reserved) in Hr.
    + eexists _, resp. split; [exact Hr|]. destruct Hr as (r & v & sn & rc & _ & _ & _ & _ & _ & _ & Hs & _). exact Hs.
    + intros s s1 <-. by split.
    + exact toy_unique.
  - exfalso. revert E. vm_compute. discriminate.
Defined.
