(* ===== verification/VtxoExpiry.v ===== *)
(** * Expired reservations are released

    A reservation that has expired does not block its vault: as soon as anyone
    looks at it, it is aborted, whatever other requests do meanwhile, if the
    ledger is in order. *)
From Stdlib Require Import Strings.Byte.
From S2P Require Import Prelude Sha256 Text Base64 GoTime Json P256 WebAuthn Psbt Program Cosigner.
From S2P Require Import Vtxo Tenant Journal Store TenantLedger VtxoLedger Session VtxoSelect VtxoScript VtxoVerify.
From S2P Require Import Handler Service VtxoTree VtxoRely VtxoService VtxoRequests.

#[local] Arguments sha256 : simpl never.
#[local] Arguments hmac_sha256 : simpl never.

(** ** Sealing an aborted row *)
Lemma canonical_aborted op out : canonicalVtxoOperation op = Ok out ->
  exists out', canonicalVtxoOperation (vo_set_State vtxoStateAborted op) = Ok out'.
Proof.
  intros E. pose proof E as Ev. apply canonicalVtxoOperation_Ok in Ev as [_ Ev]. destruct Ev as [Hf _ _ _ _ _ _ _ _].
  unfold canonicalVtxoOperation in E |- *.
  apply bind_Ok in E as ([] & E1 & E). apply bind_Ok in E as ([] & E2 & E). apply bind_Ok in E as ([] & _ & E).
  apply bind_Ok in E as ([] & E4 & E). apply bind_Ok in E as ([] & E5 & E). apply bind_Ok in E as ([] & E6 & E).
  apply bind_Ok in E as ([] & E7 & E). apply bind_Ok in E as ([] & E8 & E). apply bind_Ok in E as ([] & E9 & E).
  apply bind_Ok in E as (o & E10 & E). clear E. eexists.
  apply bind_Ok. exists tt. split; [exact E1|]. apply bind_Ok. exists tt. split; [exact E2|].
  apply bind_Ok. exists tt. split; [reflexivity|]. apply bind_Ok. exists tt. split; [exact E4|].
  apply bind_Ok. exists tt. split; [exact E5|]. apply bind_Ok. exists tt. split; [exact E6|].
  apply bind_Ok. exists tt. split; [exact E7|]. apply bind_Ok. exists tt. split; [exact E8|].
  apply bind_Ok. exists tt. split; [exact E9|]. apply bind_Ok. exists o. split; [exact E10|].
  apply bind_Ok. eexists. split; [|reflexivity]. apply appendCredentialFields_Ok. split; [|reflexivity].
  unfold vo_fields in Hf. destruct op. simpl in *. rewrite !Forall_cons in *. intuition. by vm_compute.
Qed.

Lemma seal_aborted op key key' : VerifyVtxoOperation op key' = Ok tt -> blen key = 32 ->
  exists sealed, SealVtxoOperation (vo_set_State vtxoStateAborted op) key = Ok sealed.
Proof.
  unfold VerifyVtxoOperation, SealVtxoOperation, vtxoOperationMAC. intros E Hk. inv_ok.
  match goal with E : canonicalVtxoOperation op = Ok _ |- _ => apply canonical_aborted in E as [out E]; rewrite E end.
  rewrite Hk. by eexists.
Qed.

Lemma aborted_passes op m : check_operation_row op = true -> blen m = 32 ->
  check_operation_row (vo_set_MAC m (vo_set_State vtxoStateAborted op)) = true.
Proof.
  unfold check_operation_row. intros E Hm. destruct op. simpl in *. repeat rewrite andb_true_iff in *. destruct_and?.
  rewrite Hm. split_and!; done.
Qed.

(** The update of a row that passes the constraints succeeds. *)
Lemma update_total expected rec l : check_operation_row rec = true -> exists l' n, updateVtxoOperation expected rec l = (l', Ok n) /\
  l_commit_ok l' = l_commit_ok l /\ l_integrityKey l' = l_integrityKey l.
Proof.
  intros Hc. unfold updateVtxoOperation, update_operations.
  assert (forall rows : list VtxoOperation, forallb (fun _ => check_operation_row rec) rows = true) as Hall.
  { intros rows. induction rows as [|r rows IH]; [done|]. cbn [forallb]. rewrite IH. by rewrite Hc. }
  unfold mbind, M_bind, guard_M, lift, query, modify_db. rewrite Hall. do 2 eexists. split; [reflexivity|done].
Qed.

(** A row in the expected state is selected. *)
Lemma selected expected rec l l' n r : updateVtxoOperation expected rec l = (l', Ok n) ->
  find_operation (l_db l) (vo_OperationID rec) = Some r -> vo_VaultID r = vo_VaultID rec -> vo_State r = expected -> 0 < n.
Proof.
  unfold updateVtxoOperation. intros H E Hv Hs. apply update_operations_Ok in H as [_ ->].
  apply find_operation_Some in E as [Hin Hid]. set (sel := fun r => _ && _).
  assert (r ∈ List.filter sel (t_operation (db_vtxo (l_db l)))) as Hr.
  { apply list_elem_of_In, List.filter_In. rewrite <-list_elem_of_In. split; [done|]. unfold sel.
    by rewrite Hid, Hv, Hs, !bool_decide_eq_true_2. }
  destruct (List.filter sel _); [by apply elem_of_nil in Hr|]. simpl. lia.
Qed.

(** The transition to aborted returns, if the ledger is in order: the row that
    was read was verified, the row that is there now verifies, and COMMIT
    succeeds. *)
Lemma abort_total op l key' cur :
  held op (l_db l) -> VerifyVtxoOperation op key' = Ok tt -> check_operation_row op = true -> blen (l_integrityKey l) = 32 ->
  l_commit_ok l = true -> vo_State op = vtxoStateReserved -> loadVtxoOperation l (vo_OperationID op) = Ok cur ->
  exists l' c swapped, TransitionVtxoOperation vtxoStateReserved (vo_set_State vtxoStateAborted op) l = (l', Ok (c, swapped)) /\
    (swapped = false -> vo_State c <> vtxoStateReserved).
Proof.
  intros Hh Hv Hc Hk Hok Hst Hl. pose proof Hh as (Hu & _).
  destruct (seal_aborted op (l_integrityKey l) key' Hv Hk) as [sealed Hs].
  assert ((vo_OperationID op == []) || (vo_VaultID op == []) = false) as Hid.
  { unfold VerifyVtxoOperation, vtxoOperationMAC in Hv. inv_ok.
    match goal with E : canonicalVtxoOperation op = Ok _ |- _ => apply canonicalVtxoOperation_Ok in E as [_ [_ Hi Hvv _ _ _ _ _ _]] end.
    by rewrite !bool_decide_eq_false_2. }
  pose proof (Seal_encoding _ _ _ Hs) as [Es _]. revert Es. generalize (hmac_sha256_length (l_integrityKey l) (vo_encoding (vo_set_State vtxoStateAborted op))).
  generalize (hmac_sha256 (l_integrityKey l) (vo_encoding (vo_set_State vtxoStateAborted op))). intros m Hm Es.
  destruct (update_total vtxoStateReserved sealed l) as (l1 & n & Hup & Hok1 & Hk1).
  { rewrite Es. apply aborted_passes; [done|]. unfold blen. lia. }
  assert (TransitionVtxoOperation vtxoStateReserved (vo_set_State vtxoStateAborted op) l =
    if n =? 1 then (l1, Ok (sealed, true))
    else (query (fun l => loadVtxoOperation l (vo_OperationID op)) ≫= fun current => mret (current, false)) l1) as ->.
  { unfold TransitionVtxoOperation. cbn [vo_OperationID vo_VaultID vo_State vo_set_State]. rewrite Hid.
    unfold mbind, M_bind, guard_M, lift, query. cbn [fail_if]. change (negb (validVtxoTransition _ _)) with false.
    cbn [fail_if]. assert (integrityKeyCopy l = Ok (l_integrityKey l)) as -> by (unfold integrityKeyCopy; by rewrite Hk).
    rewrite Hs. unfold transaction. rewrite Hup, Hok1, Hok. by destruct (n =? 1). }
  destruct (Z.eqb_spec n 1) as [->|Hn]; [by exists l1, sealed, true|].
  assert (forall id, find_operation (l_db l1) id = find_operation (l_db l) id) as Hsame by (by eapply update_none).
  assert (loadVtxoOperation l1 (vo_OperationID op) = Ok cur) as Hl1.
  { rewrite <-Hl. unfold loadVtxoOperation, integrityKeyCopy. by rewrite Hk1, Hsame. }
  exists l1, cur, false. unfold query, mbind, M_bind. rewrite Hl1. split; [done|]. intros _ Hcur.
  apply load_found in Hl as [Ef _]. destruct (held_row _ _ _ Hh Ef) as [m' Hrow].
  apply row_kept_state in Hrow; [|by destruct op; simpl in *; rewrite Hcur]. subst cur.
  assert (vo_OperationID sealed = vo_OperationID op /\ vo_VaultID sealed = vo_VaultID op) as [Ei Ev] by (by rewrite Es).
  rewrite <-Ei in Ef. pose proof (selected _ _ _ _ _ _ Hup Ef ltac:(by rewrite Ev) ltac:(by destruct op)) as Hp.
  unfold updateVtxoOperation in Hup. apply update_operations_Ok in Hup as [_ ->].
  pose proof (selected_once (l_db l) vtxoStateReserved sealed Hu). lia.
Qed.

(** ** A look at a payment returns *)
Section Achieves.
Variable V : State -> Prop.

(** As [ensures], and no error is returned. *)
Definition achieves {A} (p : Prog State A) (P : A -> State -> Prop) (s : State) : Prop :=
  guarantees (meets V) kept p (fun r s => match r with Ok a => P a s | Err _ => False end) s.

Lemma achieves_bind {X A} (p : Prog State X) (f : X -> Prog State A) P s :
  achieves p (fun x s => achieves (f x) P s) s -> achieves (p ≫= f) P s.
Proof. intros H. apply guarantees_bind. eapply guarantees_mono, H. by intros [a|e] s1. Qed.

Lemma achieves_pure {A} (r : result A) a P s : r = Ok a -> P a s -> achieves (pure r) P s.
Proof. by intros ->. Qed.

Lemma achieves_ret {A} (a : A) (P : A -> State -> Prop) s : P a s -> achieves (mret a) P s.
Proof. done. Qed.

Lemma achieves_require c e (P : unit -> State -> Prop) s : c = false -> P tt s -> achieves (require c e) P s.
Proof. by intros ->. Qed.

Lemma achieves_ask {A} (f : Ledger -> result A) (P : A -> State -> Prop) s :
  (forall s1, kept s s1 -> V s1 -> exists a, f (st_ledger s1) = Ok a /\ P a s1) -> achieves (ask f) P s.
Proof.
  intros H. apply guarantees_call. intros s1 [H1 HV]. cbn [fst snd]. split; [done|].
  by destruct (H s1 H1 HV) as (a & -> & Ha).
Qed.

Lemma achieves_index {A} (f : option publishedIndex -> A) (P : A -> State -> Prop) s :
  (forall s1, kept s s1 -> V s1 -> P (f (st_published s1)) s1) -> achieves (on_index f) P s.
Proof. intros H. apply guarantees_call. intros s1 [H1 HV]. cbn [fst snd]. split; [done|]. by apply H. Qed.

Lemma achieves_try {A} (p : Prog State A) (P : result A -> State -> Prop) s :
  achieves p (fun a => P (Ok a)) s -> achieves (try_prog p) P s.
Proof. intros H. apply guarantees_try. eapply guarantees_mono, H. by intros [a|e] s1. Qed.

(** An error that the program looks at may be returned too. *)
Lemma achieves_attempt {A} (p : Prog State A) (P : result A -> State -> Prop) s :
  (forall r s1, kept s s1 -> P r s1) -> ensures V p (fun _ _ => True) s -> achieves (try_prog p) P s.
Proof.
  intros HP H. apply guarantees_try. apply (guarantees_moved (meets V) kept) in H; [|by intros ? ? [? _]].
  eapply guarantees_mono, H. intros r s1 [Hk _]. by apply HP.
Qed.

Lemma achieves_mono {A} (p : Prog State A) (P P' : A -> State -> Prop) s :
  (forall a s1, P a s1 -> P' a s1) -> achieves p P s -> achieves p P' s.
Proof. intros HP H. eapply guarantees_mono, H. intros [a|e] s1; [by apply HP|done]. Qed.

Lemma achieves_runs {A} (p : Prog State A) P env s s' r :
  subrelation env (meets V) -> achieves p P s -> runs env p s s' r -> exists a, r = Ok a /\ P a s'.
Proof.
  intros Hsub Hp Hr. pose proof (guarantees_runs (meets V) kept p _ env s s' r Hsub Hp Hr) as H.
  destruct r as [a|e]; [by exists a|done].
Qed.
End Achieves.

(** The ledger is in order for a vault and a payment, at a time when the
    payment's reservation has expired. *)
Record in_order (sv : Service) (raw vaultID : bytes) (id : bytes) (s : State) : Prop := {
  io_route : routeVaultID raw = Ok vaultID;
  io_integrity : requireLedgerIntegrity (sv_CredentialIntegrityKey sv) (st_ledger s) = Ok tt;
  io_enrolled : bool_decide (es_Savings (snapshot vaultID (st_published s)) = None)
    && (es_ProtectionTier (snapshot vaultID (st_published s)) != ProtectionTierLight) = false;
  io_vault : exists rec cred, LoadVerifiedVault vaultID (sv_CredentialIntegrityKey sv) (st_ledger s) = Ok (Some (rec, cred)) /\
    validateRecordSpendingPolicy (cf_Network (sv_Deployment sv)) (Some rec) = Ok tt /\
    ValidateProtectionTierRecovery (vr_ProtectionTier rec) (0 <? blen (vr_RecoveryKey rec)) = Ok tt;
  io_row : exists op exp, GetVtxoOperation id (st_ledger s) = Ok op /\ vo_VaultID op = vaultID /\
    check_operation_row op = true /\ vo_ExpiresAt op <> [] /\ parse_rfc3339 (vo_ExpiresAt op) = Some exp /\
    exp <= NowUTC (st_ledger s);
  io_commit : l_commit_ok (st_ledger s) = true;
}.

Section Expiry.
Context `{Btc} `{Secp} `{ArkScript} `{Addresses} `{ArkFee} `{ContractPacks} `{EcdsaVerify}.
Variable sv : Service.
Variables raw vaultID id : bytes.
Notation V := (in_order sv raw vaultID id).

Lemma integrity_key key l : requireLedgerIntegrity key l = Ok tt ->
  credentialIntegrityKey key = Ok key /\ l_integrityKey l = key /\ blen key = 32.
Proof.
  unfold requireLedgerIntegrity, credentialIntegrityKey, RequireIntegrityKey. intros E.
  destruct (Z.eqb_spec (blen key) sha256_Size) as [Hk|]; [|by destruct (blen key =? 0)]. cbn [mbind result_bind] in E. inv_ok. bool_hyps.
  by split_and!.
Qed.

Lemma resolve_achieves P s : (forall snap rec s1, kept s s1 -> P (vaultID, snap, rec) s1) ->
  (exists s0, V s0) -> achieves V (resolveSpendVaultRecord sv raw) P s.
Proof.
  intros HP [s0 [Hroute Hint _ _ _ _]]. unfold resolveSpendVaultRecord.
  apply achieves_bind. eapply achieves_pure; [exact Hroute|].
  apply achieves_bind, achieves_index. intros s1 Hk1 HV1. apply achieves_bind, achieves_require; [apply HV1|].
  apply integrity_key in Hint as (Hkey & _). apply achieves_bind. eapply achieves_pure; [exact Hkey|].
  apply achieves_bind, achieves_ask. intros s2 Hk2 HV2. destruct (io_vault _ _ _ _ _ HV2) as (rec & cred & El & Ep & Et).
  eexists. split; [exact El|]. cbv beta iota.
  apply achieves_bind. eapply achieves_pure; [by apply wrap_err_Ok|]. apply achieves_bind. eapply achieves_pure; [by apply wrap_err_Ok|].
  eapply achieves_pure; [done|]. apply HP. by transitivity s1.
Qed.

(** A row of the payment, read while the ledger was in order. *)
Definition looked_up (op : VtxoOperation) : Prop := exists s, V s /\ GetVtxoOperation id (st_ledger s) = Ok op.

Lemma get_load op l : GetVtxoOperation id l = Ok op -> loadVtxoOperation l id = Ok op /\ vo_OperationID op = id.
Proof.
  unfold GetVtxoOperation. intros E. apply bind_Ok in E as ([] & _ & E). split; [done|]. by apply load_found in E as [_ ?].
Qed.

Lemma looked_up_row op : looked_up op ->
  vo_OperationID op = id /\ vo_VaultID op = vaultID /\ check_operation_row op = true /\ vo_ExpiresAt op <> [] /\
  (exists key, VerifyVtxoOperation op key = Ok tt) /\ exists exp, parse_rfc3339 (vo_ExpiresAt op) = Some exp.
Proof.
  intros (s & HV & E). destruct (io_row _ _ _ _ _ HV) as (op' & exp & E' & Hv & Hc & Hn & Hp & _). rewrite E in E'. apply Ok_inj in E' as <-.
  apply get_load in E as [E Hid]. split_and!; try done; [|by exists exp].
  unfold loadVtxoOperation in E. apply bind_Ok in E as (key & _ & E). destruct (find_operation _ _); [|done].
  apply verified_Ok in E as [-> E]. by exists key.
Qed.

(** A payment that has left the reserved state has left it in the ledger. *)
Definition left_reserved (s : State) : Prop := exists r, find_operation (db s) id = Some r /\ vo_State r <> vtxoStateReserved.

Lemma held_left op s : holds op s -> vo_OperationID op = id -> vo_State op <> vtxoStateReserved -> left_reserved s.
Proof.
  intros (_ & m & r & E & Hr) Hid Hs. rewrite Hid in E. exists r. split; [done|].
  assert (vo_State (vo_set_MAC m op) = vo_State op) as Em by (by destruct op).
  destruct Hr as [->|[Hp _ _ _]]; [by rewrite Em|]. intros Es. apply path_stage in Hp. rewrite Es in Hp. assert (stage vtxoStateReserved = 0%nat) by done. lia.
Qed.

Lemma expired_at op s exp : holds op s -> V s -> vo_OperationID op = id -> parse_rfc3339 (vo_ExpiresAt op) = Some exp ->
  exp <= NowUTC (st_ledger s).
Proof.
  intros Hh HV Hid Hp. destruct (io_row _ _ _ _ _ HV) as (cur & exp' & E & _ & _ & _ & Hp' & Hn).
  destruct (read_after op id cur s Hh Hid E) as [m Hr]. apply kept_terms in Hr.
  assert (vo_ExpiresAt cur = vo_ExpiresAt op) as Ee by (destruct cur, op; simpl in Hr; by injection Hr as).
  rewrite Ee, Hp in Hp'. by injection Hp' as <-.
Qed.

Lemma expire_achieves op s : holds op s -> looked_up op ->
  achieves V (expireReservedVtxo op) (fun op' s1 => vo_State op' <> vtxoStateReserved /\ left_reserved s1) s.
Proof.
  intros Hh Hl. destruct (looked_up_row op Hl) as (Hid & _ & Hc & Hn & (key & Hv) & (exp & Hp)).
  unfold expireReservedVtxo. rewrite (bool_decide_eq_false_2 _ Hn), orb_false_r.
  destruct (decide (vo_State op = vtxoStateReserved)) as [Es|Es].
  - rewrite (bool_decide_eq_true_2 _ Es), Hp. cbn [negb]. unfold vtxoNow. apply achieves_bind, achieves_ask. intros s1 Hk1 HV1.
    eexists. split; [done|]. cbv beta. apply (stable _ _ Hk1) in Hh.
    assert (NowUTC (st_ledger s1) <? exp = false) as -> by (apply Z.ltb_ge; by apply (expired_at op)).
    cbv zeta. apply achieves_bind. apply guarantees_call. intros s2 [Hk2 HV2]. apply (stable _ _ Hk2) in Hh.
    destruct (io_row _ _ _ _ _ HV2) as (cur & _ & E & _). apply get_load in E as [E _]. rewrite <-Hid in E.
    destruct (integrity_key _ _ (io_integrity _ _ _ _ _ HV2)) as (_ & Ek & Hkey). rewrite <-Ek in Hkey.
    destruct (abort_total op (st_ledger s2) key cur Hh Hv Hc Hkey (io_commit _ _ _ _ _ HV2) Es E) as (l' & c & swapped & Et & Hcur).
    pose proof (transition_kept op (vo_set_State vtxoStateAborted op) (st_ledger s2) Hh
      ltac:(by apply next_state; rewrite Es)) as Hkept.
    rewrite Es, Et in Hkept. rewrite Et. cbn [fst snd]. destruct Hkept as [Hk3 Hkept]. specialize (Hkept c swapped eq_refl).
    split; [done|]. apply achieves_ret. destruct swapped.
    + split; [by destruct op|]. eapply held_left; [exact Hkept|by destruct op|by destruct op].
    + destruct Hkept as (Hh3 & Hid3 & _). split; [by apply Hcur|]. eapply held_left; [exact Hh3|by rewrite Hid3|by apply Hcur].
  - rewrite (bool_decide_eq_false_2 _ Es). cbn [negb]. apply achieves_ret. split; [done|]. by eapply held_left.
Qed.

Lemma reconciled_achieves op s : sv_ArkResolver sv <> None -> holds op s -> looked_up op ->
  achieves V (reconciled sv op) (fun op' s1 => holds op' s1 /\ looked_up op') s.
Proof.
  intros Hres Hh Hl. pose proof (proj1 (looked_up_row op Hl)) as Hid. unfold reconciled.
  destruct (_ || _ : bool); [|by apply achieves_ret]. destruct (sv_ArkResolver sv) as [resolver|]; [|done].
  apply achieves_bind. eapply achieves_pure; [done|].
  apply achieves_bind, achieves_attempt; [|by eapply ensures_mono, promote_ensures].
  intros [u|e] s1 Hk1; apply (stable _ _ Hk1) in Hh; [|by apply achieves_ret].
  apply achieves_bind, achieves_try, achieves_ask. intros s2 Hk2 HV2.
  destruct (io_row _ _ _ _ _ HV2) as (cur & _ & E & _). rewrite Hid. exists cur. split; [done|]. apply achieves_ret.
  split; [|by exists s2]. apply (stable _ _ Hk2) in Hh. apply get_load in E as [E _].
  eapply load_held; [by eapply holds_unique|done].
Qed.

Lemma view_achieves s : unique s -> V s -> sv_ArkResolver sv <> None ->
  achieves V (GetVtxoOperationView sv raw id) (fun view s1 => ov_State view <> vtxoStateReserved /\ left_reserved s1) s.
Proof.
  intros Hu HV Hres. unfold GetVtxoOperationView. apply achieves_bind, achieves_ask. intros s1 Hk1 HV1. apply (stable _ _ Hk1) in Hu.
  exists tt. split; [apply HV1|]. apply achieves_bind, resolve_achieves; [|by exists s]. intros snap rec s2 Hk2. apply (stable _ _ Hk2) in Hu.
  apply achieves_bind, achieves_try, achieves_ask. intros s3 Hk3 HV3. apply (stable _ _ Hk3) in Hu.
  destruct (io_row _ _ _ _ _ HV3) as (op & _ & E & Hv & _). exists op. split; [done|].
  assert (looked_up op) as Hl by (by exists s3). apply get_load in E as [E _]. apply (load_held _ _ _ Hu) in E as [Hh _].
  apply achieves_bind, achieves_require; [by rewrite bool_decide_eq_true_2|].
  apply achieves_bind. eapply achieves_mono, reconciled_achieves; [|exact Hres|exact Hh|exact Hl]. cbv beta. intros op1 s4 [Hh1 Hl1].
  apply achieves_bind. eapply achieves_mono, expire_achieves; [|exact Hh1|exact Hl1]. cbv beta. intros op2 s5 [Hs Hleft].
  by apply achieves_ret.
Qed.

(** C12: An expired reservation is released by the first look at it: whatever
    other requests do meanwhile, if the ledger is in order whenever the look
    meets it (the vault is enrolled, the rows verify, COMMIT succeeds, and the
    clock has passed the reservation's expiry), the status request is answered,
    the answer does not say that the payment is reserved, and in the ledger the
    payment has left the reserved state, which it never enters again. *)
Theorem expired_reservation_released env s s' r :
  (forall s s1, env s s1 -> kept s s1 /\ in_order sv raw vaultID id s1) -> ids_unique (db s) ->
  in_order sv raw vaultID id s -> sv_ArkResolver sv <> None ->
  runs env (GetVtxoOperationView sv raw id) s s' r ->
  exists view, r = Ok view /\ ov_State view <> vtxoStateReserved /\
    exists row, find_operation (db s') id = Some row /\ vo_State row <> vtxoStateReserved.
Proof. intros He Hu HV Hres Hr. exact (achieves_runs V _ _ env s s' r He (view_achieves s Hu HV Hres) Hr). Qed.
End Expiry.

(** ** An example *)
Definition toy_row : VtxoOperation := vo_set_MAC (hmac_sha256 demo_vault_key (vo_encoding toy_vtxo)) toy_vtxo.

Lemma toy_in_order : in_order toy_vault_service (str "vault-1") (str "vault-1") (vo_OperationID toy_operation) (toy_later 3600).
Proof.
  constructor.
  - reflexivity.
  - vm_compute. reflexivity.
  - vm_compute. reflexivity.
  - exists session_vault, (Some session_passkey). split; [vm_compute; reflexivity|]. split; vm_compute; reflexivity.
  - exists toy_row, (default 0 (parse_rfc3339 (str "2026-01-01T00:10:00Z"))). split; [vm_compute; reflexivity|].
    split; [reflexivity|]. split; [vm_compute; reflexivity|]. split; [discriminate|].
    split; [vm_compute; reflexivity|vm_compute; discriminate].
  - reflexivity.
Qed.

Lemma toy_later_unique : ids_unique (db (toy_later 3600)).
Proof. apply NoDup_ListNoDup. vm_compute. constructor; [intros []|constructor]. Qed.

Lemma expired_reservation_released_witness :
  op_state (db (toy_later 3600)) (vo_OperationID toy_operation) = Some vtxoStateReserved /\
  exists s' view row, ov_State view <> vtxoStateReserved /\
    find_operation (db s') (vo_OperationID toy_operation) = Some row /\ vo_State row <> vtxoStateReserved.
Proof.
  split; [vm_compute; reflexivity|].
  set (I := in_order toy_vault_service (str "vault-1") (str "vault-1") (vo_OperationID toy_operation)).
  destruct (runs_visited I (GetVtxoOperationView toy_vault_service (str "vault-1") (vo_OperationID toy_operation)) (toy_later 3600))
    as (s' & r & Hr).
  - assert (visited (GetVtxoOperationView toy_vault_service (str "vault-1") (vo_OperationID toy_operation)) (toy_later 3600)
      = replicate 6 (toy_later 3600)) as -> by (vm_compute; reflexivity).
    apply Forall_replicate. exact toy_in_order.
  - destruct (expired_reservation_released toy_vault_service (str "vault-1") (str "vault-1") (vo_OperationID toy_operation)
      (fun s s1 => s1 = s /\ I s1) (toy_later 3600) s' r) as (view & _ & Hv & row & Hrow & Hs).
    + intros s s1 [-> Hi]. by split.
    + exact toy_later_unique.
    + exact toy_in_order.
    + discriminate.
    + exact Hr.
    + exists s', view, row. exact (conj Hv (conj Hrow Hs)).
Defined.
