(* ===== verification/RenewalContract.v ===== *)
(** * The contract of an enrolled vault ([src/internal/application/spending_renewal_context.go], [renewal_contract.go])

    Everything that is signed for a batch names the enrollment by the digest of
    its public facts, the binding.  Before the scoped key of a vault is used, the
    tree of the vault is compiled again from the enrollment and compared with
    both ([validateTree]).

    [contract_digest_binding]: two valid contracts with the same digest have the
    same binding; [contract_enrolled]: a contract exists only for an enrolled
    vault, with the tree, key scope and policy of its record. *)
From Stdlib Require Import Strings.Byte.
From S2P Require Import Prelude Sha256 Text GoTime Json Psbt Program Deployment Cosigner.
From S2P Require Import Tenant Store TenantLedger Renewal Session VtxoScript VtxoVerify Handler Service VtxoTree.
From S2P Require Import VtxoRely VtxoService VtxoRequests.

(** ** The binding *)
Record spendingRenewalBinding := {
  rb_Program : bytes;
  rb_Network : bytes;
  rb_VaultID : bytes;
  rb_ProtectionTier : bytes;
  rb_OwnerPub : bytes;
  rb_CosignerPub : bytes;
  rb_OperatorPub : bytes;
  rb_ScriptPubKey : bytes;
  rb_SpendingPolicy : SpendingPolicy;
}.

Definition renewal_binding_json (b : spendingRenewalBinding) : json := JObj
  [(str "program", JStr (rb_Program b)); (str "network", JStr (rb_Network b)); (str "vaultId", JStr (rb_VaultID b));
   (str "protectionTier", JStr (rb_ProtectionTier b)); (str "ownerPub", JStr (rb_OwnerPub b));
   (str "cosignerPub", JStr (rb_CosignerPub b)); (str "operatorPub", JStr (rb_OperatorPub b));
   (str "scriptPubKey", JStr (rb_ScriptPubKey b)); (str "spendingPolicy", spending_policy_json (rb_SpendingPolicy b))].

(** [json.Marshal] of a slice of strings that is not nil. *)
Definition strings_json (l : list bytes) : bytes := json_print (JArr (map JStr l)).

Section Binding.
Context `{ArkScript}.

(** A canonical x-only key. *)
Definition renewal_pub (value : bytes) : result unit :=
  raw ← or_err (ErrMsg "renewal public key encoding") (encoded (hex_decode value));
  _ ← fail_if (negb (blen raw =? 32) || (hex_encode raw != value)) (ErrMsg "renewal public key encoding");
  fail_if (bool_decide (schnorr_ParsePubKey raw = None)) (ErrMsg "renewal public key").

(** The method [digest]. *)
Definition binding_digest (b : spendingRenewalBinding) : result bytes :=
  _ ← fail_if (negb (ValidDelegationVaultID (rb_Program b) (rb_VaultID b))) (ErrMsg "renewal vault identity");
  pins ← or_err (ErrMsg "renewal Operator pin") (IdentityFor (rb_Network b));
  _ ← fail_if (rb_OperatorPub b != drop 2 (id_OperatorSignerPubHex pins)) (ErrMsg "renewal Operator pin");
  _ ← each renewal_pub [rb_OwnerPub b; rb_CosignerPub b; rb_OperatorPub b];
  _ ← fail_if ((rb_OwnerPub b == rb_CosignerPub b) || (rb_OwnerPub b == rb_OperatorPub b) || (rb_CosignerPub b == rb_OperatorPub b))
        (ErrMsg "renewal signing identities must be distinct");
  script ← or_err (ErrMsg "renewal output script") (encoded (hex_decode (rb_ScriptPubKey b)));
  _ ← fail_if (negb (blen script =? 34) || (take 2 script != [byte_of_Z 81; byte_of_Z 32])
               || (hex_encode script != rb_ScriptPubKey b)) (ErrMsg "renewal output script");
  _ ← (if rb_Program b == VaultPolicyV1 then
         _ ← fail_if ((rb_ProtectionTier b != ProtectionTierLight) && (rb_ProtectionTier b != str "standard")
                      && (rb_ProtectionTier b != str "advanced")) (ErrMsg "renewal Vault tier");
         ValidateSpendingPolicyFor (rb_Network b) (rb_SpendingPolicy b)
       else Err (ErrMsg "unsupported renewal program"));
  Ok (hex_encode (sha256 (str "vaulted-vtxo/renewal-context/v1:" ++ json_print (renewal_binding_json b)))).
End Binding.

(** ** The context *)
Record spendingRenewalContext := {
  rc_Binding : spendingRenewalBinding;
  rc_DescriptorHash : bytes;
  rc_Tree : option vtxoPolicyTree;
  rc_KeyScope : vtxoKeyContext;
  rc_vaultParams : option VaultPolicyV1Params;
}.

(** [renewalContract] embeds the context and nothing else. *)
Definition renewalContract : Type := spendingRenewalContext.

Definition domain (purpose : bytes) : bytes := str "vaulted-vtxo/" ++ purpose ++ str "/v1:".

Section Context_.
Context `{Btc} `{Secp} `{ArkScript}.

(** A field of [c.Tree]. *)
Definition contract_tree (c : renewalContract) : result vtxoPolicyTree :=
  match rc_Tree c with Some tree => Ok tree | None => Err (ErrMsg "nil pointer") end.

Definition validate_params (b : spendingRenewalBinding) (params : option VaultPolicyV1Params) : result VaultPolicyV1Tree :=
  if rb_Program b == VaultPolicyV1 then
    match params with
    | None => Err (ErrMsg "renewal Vault authority")
    | Some p =>
        _ ← fail_if (xorb (rb_ProtectionTier b == ProtectionTierLight) (vp_ExitMode p == str "device"))
              (ErrMsg "renewal exit mode does not match protection tier");
        _ ← fail_if ((vp_Network p != rb_Network b) || (hex_encode (vp_UserPub p) != rb_OwnerPub b)
                     || (hex_encode (vp_VtxoVaultCosignerPub p) != rb_CosignerPub b)
                     || (hex_encode (vp_ArkdServerPub p) != rb_OperatorPub b)) (ErrMsg "renewal Vault parameters");
        _ ← ValidateProtectionTierRecovery (rb_ProtectionTier b) (0 <? blen (vp_ExitRecoveryPub p));
        BuildVaultPolicyV1Tree p
    end
  else Err (ErrMsg "unsupported renewal authority").

Definition validateTree (c : renewalContract) : result unit :=
  let b := rc_Binding c in
  hash ← or_err (ErrMsg "renewal context binding") (binding_digest b);
  _ ← fail_if (hash != rc_DescriptorHash c) (ErrMsg "renewal context binding");
  match rc_Tree c with
  | None => Err (ErrMsg "renewal context binding")
  | Some t =>
      pins ← IdentityFor (rb_Network b);
      let scope := rc_KeyScope c in
      _ ← fail_if ((kc_vaultID scope != rb_VaultID b) || (kc_network scope != rb_Network b)
                   || (hex_encode (kc_operatorPub scope) != id_OperatorSignerPubHex pins)) (ErrMsg "renewal key context");
      _ ← fail_if ((hex_encode (SerializePubKey (tr_CosignerPub t)) != rb_CosignerPub b)
                   || (hex_encode (SerializePubKey (tr_ArkdPub t)) != rb_OperatorPub b)) (ErrMsg "renewal tree signing identities");
      tree ← validate_params b (rc_vaultParams c);
      fail_if ((hex_encode (vt_PkScript tree) != rb_ScriptPubKey b) || (vt_PkScript tree != tr_PkScript t)
               || (vt_SpendScript tree != tr_SpendLeaf t) || (vt_SpendControlBlock tree != tr_SpendControl t)
               || (strings_json (vt_RevealedScripts tree) != strings_json (tr_RevealedScripts t)))
        (ErrMsg "renewal enrolled tree changed")
  end.

Definition identityHash (c : renewalContract) : result bytes :=
  _ ← validateTree c;
  Ok (rc_DescriptorHash c).
End Context_.

(** [s.spendingRenewalContext] and [s.delegationContract]. *)
Section Enrolled.
Context `{Btc} `{Secp} `{ArkScript} `{Addresses} (sv : Service).

(** The binding of a vault's record and tree. *)
Definition enrolled_binding (id : bytes) (phone : PubKey) (record : VaultRecord) (tree : vtxoPolicyTree) : spendingRenewalBinding := {|
  rb_Program := VaultPolicyV1; rb_Network := cf_Network (sv_Deployment sv); rb_VaultID := id;
  rb_ProtectionTier := vr_ProtectionTier record;
  rb_OwnerPub := hex_encode (SerializePubKey phone); rb_CosignerPub := hex_encode (SerializePubKey (tr_CosignerPub tree));
  rb_OperatorPub := hex_encode (SerializePubKey (tr_ArkdPub tree)); rb_ScriptPubKey := hex_encode (tr_PkScript tree);
  rb_SpendingPolicy := spendingPolicyFromRecord (Some record) |}.

(** The context of a resolved vault. *)
Definition enrolled_context (vaultID id : bytes) (snap : enrolledSnapshot) (record : VaultRecord) : result spendingRenewalContext :=
  match es_PhoneBIP340 snap with
  | None => Err (ErrMsg "enrolled Spending wallet required")
  | Some phone =>
      _ ← fail_if (id != vaultID) (ErrMsg "enrolled Spending wallet required");
      tree ← buildVtxoPolicyTree sv id snap;
      scope ← service_key_context sv id;
      let binding := enrolled_binding id phone record tree in
      digest ← binding_digest binding;
      let out := {| rc_Binding := binding; rc_DescriptorHash := digest; rc_Tree := Some tree; rc_KeyScope := scope;
                    rc_vaultParams := Some (tr_params tree) |} in
      _ ← validateTree out;
      Ok out
  end.

(** [s.spendingRenewalContext] *)
Definition contract_of (vaultID : bytes) : Prog State spendingRenewalContext :=
  _ ← ask (requireLedgerIntegrity (sv_CredentialIntegrityKey sv));
  _ ← pure (requireArkResolver sv);
  r ← try_prog (resolveSpendVaultRecord sv vaultID);
  match r with
  | Err _ => pure (Err (ErrMsg "enrolled Spending wallet required"))
  | Ok (id, snap, record) => pure (enrolled_context vaultID id snap record)
  end.

Definition delegationContract (vault : bytes) : Prog State renewalContract :=
  _ ← require (negb (sv_LightDelegationEnabled sv) || negb (sv_SpendingDelegation sv) || negb (sv_spendingDelegationKeys sv))
        (ErrMsg "Spending delegation disabled");
  contract_of vault.
End Enrolled.

(** ** The digest determines the binding *)
Lemma json_print_inj v w : json_wf v -> json_wf w -> json_height v <= max_nesting -> json_height w <= max_nesting ->
  json_print v = json_print w -> v = w.
Proof.
  intros Hv Hw Hhv Hhw E. pose proof (json_parse_print v Hv Hhv) as E1. rewrite E, json_parse_print in E1 by done.
  congruence.
Qed.

Section Digest.
Context `{ArkScript}.

(** What an accepted binding satisfies. *)
Record binding_ok (b : spendingRenewalBinding) : Prop := {
  bo_program : rb_Program b = VaultPolicyV1;
  bo_vault : utf8_valid (rb_VaultID b) = true /\ rb_VaultID b <> [];
  bo_pins : exists pins, IdentityFor (rb_Network b) = Ok pins /\ rb_OperatorPub b = drop 2 (id_OperatorSignerPubHex pins);
  bo_keys : Forall (fun k => exists raw pub, k = hex_encode raw /\ blen raw = 32 /\ schnorr_ParsePubKey raw = Some pub)
              [rb_OwnerPub b; rb_CosignerPub b; rb_OperatorPub b];
  bo_distinct : NoDup [rb_OwnerPub b; rb_CosignerPub b; rb_OperatorPub b];
  bo_script : exists key, rb_ScriptPubKey b = hex_encode (byte_of_Z 81 :: byte_of_Z 32 :: key) /\ blen key = 32;
  bo_tier : rb_ProtectionTier b ∈ [ProtectionTierLight; str "standard"; str "advanced"];
  bo_policy : policy_in_bounds (rb_Network b) (rb_SpendingPolicy b);
}.

Lemma renewal_pub_Ok value : renewal_pub value = Ok tt ->
  exists raw pub, value = hex_encode raw /\ blen raw = 32 /\ schnorr_ParsePubKey raw = Some pub.
Proof.
  unfold renewal_pub. intros E. apply bind_Ok in E as (raw & _ & E). apply bind_Ok in E as ([] & Ef & E).
  apply fail_if_Ok in Ef, E. bool_hyps. destruct (schnorr_ParsePubKey raw) as [pub|] eqn:Ep; [|done].
  exists raw, pub. by split_and!.
Qed.

Lemma binding_digest_Ok b hash : binding_digest b = Ok hash -> binding_ok b /\
  hash = hex_encode (sha256 (str "vaulted-vtxo/renewal-context/v1:" ++ json_print (renewal_binding_json b))).
Proof.
  unfold binding_digest. intros E. apply bind_Ok in E as ([] & Ev & E). apply bind_Ok in E as (pins & Ep & E).
  apply bind_Ok in E as ([] & Eo & E). apply bind_Ok in E as ([] & Ek & E). apply bind_Ok in E as ([] & Ed & E).
  apply bind_Ok in E as (script & Es & E). apply bind_Ok in E as ([] & Esc & E). apply bind_Ok in E as ([] & Et & E).
  apply Ok_inj in E as <-. split; [|done].
  apply fail_if_Ok, negb_false_iff in Ev. unfold ValidDelegationVaultID in Ev. apply or_err_Ok in Ep, Es. apply encoded_Ok in Es.
  apply fail_if_Ok in Eo, Ed, Esc. apply each_Ok in Ek. bool_hyps.
  destruct (decide (rb_Program b = VaultPolicyV1)) as [Hp|Hp];
    [rewrite (bool_decide_eq_true_2 _ Hp) in Et|by rewrite (bool_decide_eq_false_2 _ Hp) in Et].
  apply bind_Ok in Et as ([] & Et & Epol). apply fail_if_Ok in Et. apply ValidateSpendingPolicyFor_Ok in Epol.
  constructor; try done.
  - by exists pins.
  - eapply Forall_impl; [exact Ek|]. intros k. apply renewal_pub_Ok.
  - rewrite !NoDup_cons, !not_elem_of_cons. split_and!; try done; try apply not_elem_of_nil. apply NoDup_nil_2.
  - destruct script as [|x [|y key]]; try done.
    match goal with H : take 2 _ = _ |- _ => injection H as -> -> end. exists key. split; [done|].
    unfold blen in *. simpl length in *. lia.
  - rewrite !elem_of_cons. destruct (decide (rb_ProtectionTier b = ProtectionTierLight)); [by left|].
    destruct (decide (rb_ProtectionTier b = str "standard")); [by right; left|].
    destruct (decide (rb_ProtectionTier b = str "advanced")); [by right; right; left|].
    by rewrite !bool_decide_eq_false_2 in Et.
Qed.

Lemma utf8_hex b : utf8_valid (hex_encode b) = true.
Proof. apply utf8_ascii, ascii_hex_encode. Qed.

Lemma binding_wf b : binding_ok b -> json_wf (renewal_binding_json b) /\ json_height (renewal_binding_json b) <= max_nesting.
Proof.
  intros []. destruct bo_pins0 as (pins & Hn & Ho). apply IdentityFor_Ok in Hn as (Hnet & _).
  destruct bo_script0 as (key & Hs & _). rewrite !Forall_cons in bo_keys0. pose proof (policy_in_bounds_wf _ _ bo_policy0) as Hpol.
  destruct bo_keys0 as ((r1 & _ & E1 & _) & (r2 & _ & E2 & _) & (r3 & _ & E3 & _) & _).
  split; [|vm_compute; discriminate].
  unfold renewal_binding_json. revert Hpol. generalize (spending_policy_json (rb_SpendingPolicy b)). intros j Hj. simpl.
  rewrite bo_program0, Hs, E1, E2, E3. change (byte_of_Z 81 :: byte_of_Z 32 :: key) with
    ([byte_of_Z 81; byte_of_Z 32] ++ key).
  assert (utf8_valid (rb_ProtectionTier b) = true) as Ht by
    (rewrite !elem_of_cons in bo_tier0; destruct bo_tier0 as [->|[->|[->|[]%elem_of_nil]]]; reflexivity).
  assert (utf8_valid (rb_Network b) = true) as Hw by (by destruct Hnet as [->| ->]).
  pose proof (proj1 bo_vault0). split_and!; try done; try apply utf8_hex.
Qed.

Lemma binding_json_inj b b' : binding_ok b -> binding_ok b' -> renewal_binding_json b = renewal_binding_json b' -> b = b'.
Proof.
  intros Hb Hb' E. unfold renewal_binding_json in E. apply (f_equal (fun j => match j with JObj l => map snd l | _ => [] end)) in E.
  cbn [map snd] in E.
  assert (rb_SpendingPolicy b = rb_SpendingPolicy b') as Ep.
  { assert (spending_policy_json (rb_SpendingPolicy b) = spending_policy_json (rb_SpendingPolicy b')) as Ej by
      (apply (f_equal (fun l => nth 8 l JNull)) in E; exact E).
    pose proof (spending_policy_unmarshal_print _ _ (bo_policy _ Hb)) as E1.
    rewrite Ej, (spending_policy_unmarshal_print _ _ (bo_policy _ Hb')) in E1. by injection E1. }
  pose proof (fun n => f_equal (fun l => nth n l JNull) E) as En.
  pose proof (fun n => f_equal (fun j => match j with JStr s => s | _ => [] end) (En n)) as Es.
  pose proof (Es 0%nat). pose proof (Es 1%nat). pose proof (Es 2%nat). pose proof (Es 3%nat). pose proof (Es 4%nat).
  pose proof (Es 5%nat). pose proof (Es 6%nat). pose proof (Es 7%nat). clear E En Es. cbn [nth] in *. destruct b, b'. simpl in *. by subst.
Qed.
End Digest.

(** ** Valid contracts *)
Section Valid.
Context `{Btc} `{Secp} `{ArkScript}.

(** The message of the descriptor hash. *)
Definition binding_message (b : spendingRenewalBinding) : bytes :=
  str "vaulted-vtxo/renewal-context/v1:" ++ json_print (renewal_binding_json b).

(** The tree [t] of the contract is the one that the parameters compile to, and
    the parameters, the tree and the key scope are the binding's. *)
Record contract_valid (c : renewalContract) (t : vtxoPolicyTree) (p : VaultPolicyV1Params) (enc : VaultPolicyV1Tree) : Prop := {
  cv_binding : binding_ok (rc_Binding c);
  cv_hash : rc_DescriptorHash c = hex_encode (sha256 (binding_message (rc_Binding c)));
  cv_tree : rc_Tree c = Some t /\ rc_vaultParams c = Some p;
  cv_scope : kc_vaultID (rc_KeyScope c) = rb_VaultID (rc_Binding c) /\ kc_network (rc_KeyScope c) = rb_Network (rc_Binding c);
  cv_scope_operator : exists pins, IdentityFor (rb_Network (rc_Binding c)) = Ok pins /\
    hex_encode (kc_operatorPub (rc_KeyScope c)) = id_OperatorSignerPubHex pins;
  cv_build : BuildVaultPolicyV1Tree p = Ok enc /\ vp_Network p = rb_Network (rc_Binding c);
  cv_owner : rb_OwnerPub (rc_Binding c) = hex_encode (vp_UserPub p);
  cv_cosigner : rb_CosignerPub (rc_Binding c) = hex_encode (vp_VtxoVaultCosignerPub p) /\
    SerializePubKey (tr_CosignerPub t) = vp_VtxoVaultCosignerPub p;
  cv_operator : rb_OperatorPub (rc_Binding c) = hex_encode (vp_ArkdServerPub p) /\
    SerializePubKey (tr_ArkdPub t) = vp_ArkdServerPub p;
  cv_script : rb_ScriptPubKey (rc_Binding c) = hex_encode (tr_PkScript t) /\ tr_PkScript t = vt_PkScript enc;
  cv_spend : tr_SpendLeaf t = vt_SpendScript enc /\ tr_SpendControl t = vt_SpendControlBlock enc;
  cv_exit : rb_ProtectionTier (rc_Binding c) = ProtectionTierLight <-> vp_ExitMode p = str "device";
}.

Lemma validateTree_Ok c : validateTree c = Ok tt -> exists t p enc, contract_valid c t p enc.
Proof.
  unfold validateTree. intros E. apply bind_Ok in E as (hash & Eh & E). apply bind_Ok in E as ([] & Ee & E).
  destruct (rc_Tree c) as [t|] eqn:Et; [|done]. apply bind_Ok in E as (pins & Ep & E). apply bind_Ok in E as ([] & Es & E).
  apply bind_Ok in E as ([] & Ek & E). apply bind_Ok in E as (enc & Ev & E). apply fail_if_Ok in Ee, Es, Ek, E.
  apply or_err_Ok, binding_digest_Ok in Eh as [Hb Eh]. unfold validate_params in Ev.
  rewrite (bool_decide_eq_true_2 _ (bo_program _ Hb)) in Ev. destruct (rc_vaultParams c) as [p|] eqn:Epa; [|done].
  apply bind_Ok in Ev as ([] & Ex & Ev). apply bind_Ok in Ev as ([] & En & Ev). apply bind_Ok in Ev as ([] & _ & Ev).
  apply fail_if_Ok in Ex, En. bool_hyps. exists t, p, enc.
  constructor; try done; try (split; [congruence|]); try congruence; try (apply (inj hex_encode); congruence).
  - unfold binding_message. congruence.
  - by exists pins.
  - revert Ex. repeat case_bool_decide; simpl; intros; done || tauto.
Qed.

Lemma contract_tree_Ok c t p enc : contract_valid c t p enc -> contract_tree c = Ok t.
Proof. intros Hv. unfold contract_tree. by rewrite (proj1 (cv_tree _ _ _ _ Hv)). Qed.

(** A contract is named by its descriptor hash: two valid contracts with the
    same hash have the same binding (network, vault, tier, the three keys, the
    script and the spending policy), and their trees the same script, or the
    messages of their bindings are a collision of SHA-256. *)
Theorem contract_digest_binding c c' : validateTree c = Ok tt -> validateTree c' = Ok tt ->
  rc_DescriptorHash c = rc_DescriptorHash c' ->
  (rc_Binding c = rc_Binding c' /\ exists t t', rc_Tree c = Some t /\ rc_Tree c' = Some t' /\ tr_PkScript t = tr_PkScript t') \/
  (binding_message (rc_Binding c) <> binding_message (rc_Binding c') /\
   sha256 (binding_message (rc_Binding c)) = sha256 (binding_message (rc_Binding c'))).
Proof.
  intros (t & p & enc & Hv)%validateTree_Ok (t' & p' & enc' & Hv')%validateTree_Ok E.
  rewrite (cv_hash _ _ _ _ Hv), (cv_hash _ _ _ _ Hv') in E. apply (inj hex_encode) in E.
  destruct (decide (binding_message (rc_Binding c) = binding_message (rc_Binding c'))) as [Em|Em]; [left|by right].
  assert (rc_Binding c = rc_Binding c') as Eb.
  { unfold binding_message in Em. apply app_inv_head in Em. destruct (binding_wf _ (cv_binding _ _ _ _ Hv)) as [Hw Hh].
    destruct (binding_wf _ (cv_binding _ _ _ _ Hv')) as [Hw' Hh']. apply json_print_inj in Em; [|done..].
    by apply binding_json_inj; [apply (cv_binding _ _ _ _ Hv)|apply (cv_binding _ _ _ _ Hv')|]. }
  split; [done|]. exists t, t'. split; [apply (cv_tree _ _ _ _ Hv)|]. split; [apply (cv_tree _ _ _ _ Hv')|].
  destruct (cv_script _ _ _ _ Hv) as [Es _], (cv_script _ _ _ _ Hv') as [Es' _]. rewrite <-Eb in Es'.
  apply (inj hex_encode). congruence.
Qed.
End Valid.

(** ** Contracts of enrolled vaults *)
Section Enrollment_.
Context `{Btc} `{Secp} `{ArkScript} `{Addresses}.
Variable sv : Service.
Variable V : State -> Prop.

(** The program of an enrollment: its keys are the phone's, the derived cosigner,
    the Operator's and the pinned delegate's; its exit is the phone of a light
    vault, and otherwise the hardware and recovery keys of the snapshot; the tree is
    what it compiles to. *)
Record enrolled_program (snap : enrolledSnapshot) (phone : PubKey) (t : vtxoPolicyTree) (p : VaultPolicyV1Params)
    (enc : VaultPolicyV1Tree) : Prop := {
  ep_network : vp_Network p = cf_Network (sv_Deployment sv);
  ep_phone : vp_UserPub p = SerializePubKey phone /\ vp_ExitDevicePub p = SerializePubKey phone;
  ep_cosigner : vp_VtxoVaultCosignerPub p = SerializePubKey (tr_CosignerPub t);
  ep_operator : btcec_ParsePubKey (operatorSignerPub sv) = Some (tr_ArkdPub t) /\ vp_ArkdServerPub p = SerializePubKey (tr_ArkdPub t);
  ep_delegate : exists pins, PinsFor (cf_Network (sv_Deployment sv)) = Ok pins /\
    btcec_ParsePubKey (mustDecodeCompressed (np_DelegatePub pins)) = Some (tr_DelegatePub t) /\
    vp_DelegatePub p = SerializePubKey (tr_DelegatePub t);
  ep_exit : if es_ProtectionTier snap == ProtectionTierLight then vp_ExitMode p = str "device" /\ vp_ExitHardwarePub p = []
    else vp_ExitMode p = [] /\ exists wallet, es_ExternalOwnerWallet snap = Some wallet /\ vp_ExitHardwarePub p = SerializePubKey wallet;
  ep_recovery : vp_ExitRecoveryPub p = match es_RecoveryKey snap with Some key => SerializePubKey key | None => [] end;
  ep_tree : BuildVaultPolicyV1Tree p = Ok enc /\ tr_PkScript t = vt_PkScript enc /\ tr_SpendLeaf t = vt_SpendScript enc /\
    tr_SpendControl t = vt_SpendControlBlock enc /\ tr_DelegateLeaf t = vt_DelegateScript enc /\
    tr_DelegateControl t = vt_DelegateControlBlock enc /\ tr_RevealedScripts t = vt_RevealedScripts enc;
}.

Lemma parsed_Ok raw e pub : parsed raw e = Ok pub -> btcec_ParsePubKey raw = Some pub.
Proof. unfold parsed. destruct (btcec_ParsePubKey raw); [|done]. by intros ->%Ok_inj. Qed.

Lemma policy_tree_program vaultID snap phone t : buildVtxoPolicyTree sv vaultID snap = Ok t -> es_PhoneBIP340 snap = Some phone ->
  exists enc, enrolled_program snap phone t (tr_params t) enc.
Proof.
  unfold buildVtxoPolicyTree. intros E Hp. rewrite Hp in E. apply bind_Ok in E as ([] & Ek & E). apply bind_Ok in E as (key & _ & E).
  apply bind_Ok in E as (cosigner & _ & E). apply bind_Ok in E as (arkd & Ea & E). apply bind_Ok in E as (pins & Epi & E).
  apply bind_Ok in E as (delegate & Ed & E). apply bind_Ok in E as (enc & Ee & E). do 4 (apply bind_Ok in E as (? & _ & E)).
  apply Ok_inj in E as <-. apply parsed_Ok in Ea, Ed. apply fail_if_Ok in Ek. exists enc. constructor; simpl; try done.
  - by exists pins.
  - destruct (es_ProtectionTier snap == ProtectionTierLight) eqn:El; [done|]. split; [done|]. simpl in Ek.
    destruct (es_ExternalOwnerWallet snap) as [wallet|] eqn:Ew; [by exists wallet|]. by rewrite bool_decide_eq_true_2 in Ek.
Qed.

Lemma enrolled_context_Ok vaultID id snap record c : enrolled_context sv vaultID id snap record = Ok c ->
  id = vaultID /\ validateTree c = Ok tt /\ exists phone tree, es_PhoneBIP340 snap = Some phone /\ rc_Tree c = Some tree /\
    rc_vaultParams c = Some (tr_params tree) /\ buildVtxoPolicyTree sv id snap = Ok tree /\ rc_Binding c = enrolled_binding sv id phone record tree /\
    vtxoVaultCosignerPublic (sv_keys sv) (rc_KeyScope c) = Ok (tr_CosignerPub tree).
Proof.
  unfold enrolled_context. intros E. destruct (es_PhoneBIP340 snap) as [phone|]; [|done].
  apply bind_Ok in E as ([] & Ei & E). apply bind_Ok in E as (tree & Et & E). apply bind_Ok in E as (scope & Es & E).
  apply bind_Ok in E as (digest & _ & E). apply bind_Ok in E as ([] & Ev & E). apply Ok_inj in E as <-. apply fail_if_Ok in Ei.
  bool_hyps. split; [done|]. split; [exact Ev|]. exists phone, tree. simpl. split_and!; try done.
  destruct (policy_tree_key _ _ _ _ Et) as (key & Ek & Ec). rewrite Es in Ek. apply Ok_inj in Ek as <-. exact Ec.
Qed.

(** A contract of a vault: it is enrolled and stored, and the contract is the one
    of its snapshot and record. *)
Definition contract_enrolled (vaultID : bytes) (c : renewalContract) : Prop :=
  exists snap record, vault_found sv V vaultID (vaultID, snap, record) /\ enrolled_context sv vaultID vaultID snap record = Ok c.

Lemma contract_of_ensures vaultID s : ensures V (contract_of sv vaultID) (fun c _ => contract_enrolled vaultID c) s.
Proof.
  unfold contract_of. apply ensures_bind, ensures_ask. intros s1 [] _ _ _. cbv beta.
  apply ensures_bind, ensures_pure. intros r _. cbv beta. apply ensures_bind, ensures_try; [done|].
  eapply ensures_mono, resolve_ensures. intros [[id snap] record] s2 _ Hf. apply ensures_pure. intros c E.
  destruct (enrolled_context_Ok _ _ _ _ _ E) as (-> & _). by exists snap, record.
Qed.

(** C21: Among any other requests, a delegation contract is handed out only for a
    vault that is enrolled and stored with a valid record; its binding is the
    record's; its parameters are the keys of the enrollment (phone, exit hardware
    and recovery), the pinned Operator and delegate and the derived cosigner, its
    tree the one that they compile to, and the cosigner of that tree is the key
    that the scope of the vault, its network and the pinned Operator derives. *)
Theorem delegation_contract_sound vault env s s' c : subrelation env (meets V) ->
  runs env (delegationContract sv vault) s s' (Ok c) ->
  sv_LightDelegationEnabled sv = true /\ exists snap record phone t p enc,
    vault_found sv V vault (vault, snap, record) /\ es_PhoneBIP340 snap = Some phone /\
    rc_Binding c = enrolled_binding sv vault phone record t /\ contract_valid c t p enc /\
    enrolled_program snap phone t p enc /\ buildVtxoPolicyTree sv vault snap = Ok t /\
    vtxoVaultCosignerPublic (sv_keys sv) (rc_KeyScope c) = Ok (tr_CosignerPub t).
Proof.
  intros Hsub Hr. unfold delegationContract in Hr. apply runs_bind in Hr as [([] & s1 & (-> & Ef) & Hr)|(e & _ & Hr)]; [|done].
  symmetry in Ef. apply fail_if_Ok in Ef. bool_hyps. split; [done|].
  destruct (ensures_runs V _ _ env s s' c Hsub (contract_of_ensures vault s) Hr) as (snap & record & Hf & E).
  apply enrolled_context_Ok in E as (_ & Hv & phone & tree & Hp & Ht & Hpa & Hbt & Hb & Hc).
  apply validateTree_Ok in Hv as (t & p & enc & Hv). destruct (cv_tree _ _ _ _ Hv) as [Et Ep]. rewrite Ht in Et. rewrite Hpa in Ep.
  assert (tree = t) as -> by congruence. assert (p = tr_params t) as -> by congruence.
  destruct (policy_tree_program _ _ _ _ Hbt Hp) as (enc' & He). assert (enc' = enc) as ->.
  { apply Ok_inj. rewrite <-(proj1 (ep_tree _ _ _ _ _ He)). apply (cv_build _ _ _ _ Hv). }
  by exists snap, record, phone, t, (tr_params t), enc.
Qed.
End Enrollment_.

(** ** An example *)

(** As [toy_btc], with the scripts and keys of the right shape. *)
Definition toy_tap : PubKey := byte_of_Z 2 :: replicate 32 Byte.x0a.
Definition toy_chain (table : list (bytes * Packet)) : Btc := {|
  psbt_NewFromRawBytes := @psbt_NewFromRawBytes (toy_btc table); psbt_B64Encode := @psbt_B64Encode (toy_btc table);
  tx_TxHash := @tx_TxHash (toy_btc table); tap_leaf_hash := fun s => s;
  control_RootHash := fun control leaf => Some (control ++ leaf); unspendable_output_key := fun _ => toy_tap;
  P2TRScript := fun key => Some (byte_of_Z 81 :: byte_of_Z 32 :: drop 1 key);
  DecodeClosure := @DecodeClosure (toy_btc table);
  script_TapTree := fun _ => Some {| tt_TapKey := toy_tap; tt_ControlBlock := fun _ => Some toy_control |};
  ANCHOR_PKSCRIPT := str "anchor"; tapscript_sighash := fun _ _ _ _ _ => Some [];
  tapscript_sign := fun _ _ _ _ _ _ _ => Some (replicate 64 Byte.x05); priv_PubKey := fun _ => toy_cosigner;
  schnorr_Verify := fun _ _ _ => true; intent_Verify := fun _ _ _ => true |}.

Definition toy_pinned_operator : PubKey := default [] (hex_decode MutinynetOperatorSignerPubHex).

Definition toy_spending_service : Service := {|
  sv_Deployment := sv_Deployment toy_service; sv_CredentialIntegrityKey := demo_vault_key; sv_keys := Some toy_master;
  sv_ArkResolver := Some {|
    ar_SpendableVtxos := fun _ => Ok []; ar_IntentFeePolicy := ar_IntentFeePolicy toy_resolver;
    ar_SubmittedVtxoState := fun _ _ _ _ _ => Ok SubmittedVtxoPending; ar_CheckpointTapscript := [];
    ar_OperatorSignerPub := toy_pinned_operator |};
  sv_contractPackJSON := []; sv_LightDelegationEnabled := true; sv_SpendingDelegation := true;
  sv_spendingDelegationKeys := true |}.

Definition toy_hardware : PubKey := byte_of_Z 2 :: replicate 32 Byte.x0b.
Definition toy_standard_snapshot : enrolledSnapshot := {|
  es_ProtectionTier := ProtectionTierStandard; es_VaultID := str "vault-1"; es_CredentialID := str "cred";
  es_PhoneBIP340 := Some toy_user; es_ExternalOwnerWallet := Some toy_hardware; es_RecoveryKey := None;
  es_VaultCosignerBase := None; es_ArkadeCosignerBase := None;
  es_Savings := Some {| ss_Address := []; ss_PkScript := []; ss_ExternalOwnerWallet := Some toy_hardware; ss_RecoveryKey := None;
                        ss_VaultCosignerBase := None; ss_ArkadeCosignerBase := None |};
  es_Board := None |}.

Definition toy_standard : State :=
  {| st_ledger := session_ledger; st_published := Some (publishSnapshot toy_standard_snapshot None) |}.

Notation toy_delegation_contract := (@delegationContract (toy_chain []) toy_secp toy_ark toy_addresses toy_spending_service (str "vault-1")).

Definition toy_no_contract : renewalContract := {|
  rc_Binding := enrolled_binding toy_spending_service [] [] demo_vault toy_tree; rc_DescriptorHash := []; rc_Tree := None;
  rc_KeyScope := toy_key; rc_vaultParams := None |}.

(** The contract that the request gets when it runs alone. *)
Definition toy_contract : renewalContract := Eval vm_compute in
  match snd (run (fun _ s => s) 0 toy_delegation_contract toy_standard) with Ok c => c | Err _ => toy_no_contract end.

Lemma toy_contract_valid : @validateTree (toy_chain []) toy_secp toy_ark toy_contract = Ok tt.
Proof. vm_compute. reflexivity. Qed.

(** The same contract, in a scope that expects a signer. *)
Definition toy_contract' : renewalContract := {|
  rc_Binding := rc_Binding toy_contract; rc_DescriptorHash := rc_DescriptorHash toy_contract; rc_Tree := rc_Tree toy_contract;
  rc_KeyScope := with_expected (str "signer") (rc_KeyScope toy_contract); rc_vaultParams := rc_vaultParams toy_contract |}.

Lemma toy_contract'_valid : @validateTree (toy_chain []) toy_secp toy_ark toy_contract' = Ok tt.
Proof. vm_compute. reflexivity. Qed.

Lemma contract_digest_binding_witness : rc_KeyScope toy_contract <> rc_KeyScope toy_contract' /\
  ((rc_Binding toy_contract = rc_Binding toy_contract' /\ exists t t', rc_Tree toy_contract = Some t /\
      rc_Tree toy_contract' = Some t' /\ tr_PkScript t = tr_PkScript t') \/
   (binding_message (rc_Binding toy_contract) <> binding_message (rc_Binding toy_contract') /\
    sha256 (binding_message (rc_Binding toy_contract)) = sha256 (binding_message (rc_Binding toy_contract')))).
Proof.
  split; [intros E; apply (f_equal kc_expectedXOnly) in E; discriminate E|].
  exact (@contract_digest_binding (toy_chain []) toy_secp toy_ark toy_contract toy_contract' toy_contract_valid toy_contract'_valid eq_refl).
Defined.

Lemma toy_contract_runs : exists s s',
  runs (meets (fun _ => True)) toy_delegation_contract s s' (Ok toy_contract).
Proof.
  exists toy_standard. eexists.
  assert (snd (run (fun _ s => s) 0 toy_delegation_contract toy_standard) = Ok toy_contract) as <- by (vm_compute; reflexivity).
  apply run_runs. intros _ s. split; [reflexivity|exact I].
Qed.

Lemma delegation_contract_sound_witness : exists s s', runs (meets (fun _ => True)) toy_delegation_contract s s' (Ok toy_contract) /\
  exists t p enc, @contract_valid (toy_chain []) toy_secp toy_ark toy_contract t p enc.
Proof.
  destruct toy_contract_runs as (s & s' & Hr). exists s, s'. split; [exact Hr|].
  destruct (@delegation_contract_sound (toy_chain []) toy_secp toy_ark toy_addresses toy_spending_service (fun _ => True) _ _ s s' _
    (fun x y H => H) Hr) as (_ & snap & record & phone & t & p & enc & _ & _ & _ & Hv & _).
  exists t, p, enc. exact Hv.
Defined.
