(* ===== verification/BatchTree.v ===== *)
(** * Batch trees ([src/internal/application/vault_board_finalize.go], [spending_renewal_final.go])

    An Operator's batch pays all its participants from one commitment
    transaction: a tree of presigned transactions leads from its first output to
    the participants' coins.  The Operator streams the tree node by node.  Before
    the protocol library traverses it, the service bounds its shape
    ([canonicalVaultBoardTree], [canonicalSpendingRenewalTree]); then it looks for
    the one output it expects ([findExactVaultBoardReceiver]) and checks that the
    commitment pays to the tree under the pinned sweep policy
    ([verifyVaultBoardBatchOutput]).

    [renewal_graph_tree]: an accepted graph is a rooted tree; the traversal
    terminates ([walk_graph_terminates]). *)
From Stdlib Require Import Strings.Byte.
From S2P Require Import Prelude Sha256 Text Base64 Psbt Btcd Cosigner VtxoScript VtxoVerify VtxoTree VtxoService.

Definition maxVaultBoardProofBytes : Z := 256 * 1024.
Definition maxJSONBody : Z := 1048576.
Definition maxVaultBoardTreeNodes : Z := 512.
Definition maxVaultBoardTreeBytes : Z := maxJSONBody.

(** ** Data of the Ark tree library *)

(** [arktree.TxTreeNode]: a transaction with the children of its outputs. *)
Record TxTreeNode := { tn_Txid : bytes; tn_Tx : bytes; tn_Children : gmap Z bytes }.
Definition FlatTxTree : Type := list TxTreeNode.

(** [arktree.TxTree]; the order of the children is the map's. *)
Inductive TxTree := TxTreeOf (root : Packet) (children : list TxTree).
Definition tree_Root (t : TxTree) : Packet := match t with TxTreeOf root _ => root end.

Class ArkTree := {
  arktree_NewTxTree : FlatTxTree -> option TxTree;
  arktree_ValidateVtxoTree : TxTree -> Packet -> PubKey -> RelativeLocktime -> bool;
  arktree_ValidateTreeSigs : bytes -> Z -> TxTree -> bool;
  (** [AggregateKeys(keys, root)] and its [FinalKey]. *)
  arktree_AggregateKeys : list PubKey -> bytes -> option PubKey;
  tree_Validate : TxTree -> bool;
  tree_Leaves : TxTree -> list Packet;
  tree_Find : TxTree -> bytes -> option TxTree;
  ParseCosignerKeysFromArkPsbt : Packet -> nat -> option (list PubKey);
  (** [GetArkPsbtFields(packet, i, VtxoTaprootTreeField)] *)
  GetVtxoTaprootTree : Packet -> nat -> option (list (list bytes));
}.

Section Trees.
Context `{Btc} `{Secp} `{ArkScript} `{Txscript} `{ArkTree}.

Definition parseCanonicalVaultBoardPSBT (raw : bytes) (max : Z) : result Packet :=
  _ ← fail_if ((blen raw =? 0) || (max <? blen raw)) (ErrMsg "vault-board-v1 PSBT size");
  packet ← parsePSBT raw;
  _ ← match b64Encode packet with
      | Ok canonical => fail_if (canonical != raw) (ErrMsg "vault-board-v1 PSBT must use canonical base64 encoding")
      | Err _ => Err (ErrMsg "vault-board-v1 PSBT must use canonical base64 encoding")
      end;
  _ ← fail_if (negb (Nat.eqb (length (pk_Outputs packet)) (length (ut_TxOut (pk_UnsignedTx packet)))))
        (ErrMsg "vault-board-v1 PSBT output count");
  Ok packet.

(** ** The nodes of a supplied tree *)

(** The children of a node, in the order of the iteration over its map. *)
Definition children (node : TxTreeNode) : list (Z * bytes) := map_to_list (tn_Children node).

(** One node: its transaction has the declared id. *)
Definition tree_node (node : TxTreeNode) : result unit :=
  let bad := ErrMsg "vault-board-v1 VTXO tree node" in
  _ ← or_err bad (requireTxid (tn_Txid node));
  _ ← fail_if ((blen (tn_Tx node) =? 0) || (maxVaultBoardProofBytes <? blen (tn_Tx node))) bad;
  match parseCanonicalVaultBoardPSBT (tn_Tx node) maxVaultBoardProofBytes with
  | Ok packet => fail_if (tx_TxHash (pk_UnsignedTx packet) != tn_Txid node) (ErrMsg "vault-board-v1 VTXO tree node txid")
  | Err _ => Err (ErrMsg "vault-board-v1 VTXO tree node txid")
  end.

Fixpoint tree_nodes (seen : list bytes) (total : Z) (flat : FlatTxTree) : result unit :=
  match flat with
  | [] => Ok tt
  | node :: flat =>
      _ ← tree_node node;
      _ ← fail_if (bool_decide (tn_Txid node ∈ seen)) (ErrMsg "vault-board-v1 duplicate VTXO tree node");
      let total := total + (blen (tn_Tx node) + blen (tn_Txid node) + Z.of_nat (size (tn_Children node)) * 72) in
      _ ← fail_if (maxVaultBoardTreeBytes <? total) (ErrMsg "vault-board-v1 VTXO tree size");
      _ ← each (fun child => or_err (ErrMsg "vault-board-v1 VTXO tree child") (requireTxid (snd child))) (children node);
      tree_nodes (tn_Txid node :: seen) total flat
  end.

(** The transaction ids are distinct, so that the sort is determined. *)
Definition canonicalVaultBoardTreeNodes (flat : FlatTxTree) : result FlatTxTree :=
  _ ← fail_if (Nat.eqb (length flat) 0 || (maxVaultBoardTreeNodes <? Z.of_nat (length flat))) (ErrMsg "vault-board-v1 VTXO tree size");
  _ ← tree_nodes [] 0 flat;
  Ok (slice_stable (fun a b => bytes_ltb (tn_Txid a) (tn_Txid b)) flat).

Definition ids (flat : FlatTxTree) : list bytes := map tn_Txid flat.

(** The boarding form: every child is supplied. *)
Definition canonicalVaultBoardTree (flat : FlatTxTree) : result FlatTxTree :=
  out ← canonicalVaultBoardTreeNodes flat;
  _ ← each (fun node => each (fun child => fail_if (negb (bool_decide (snd child ∈ ids out)))
                                              (ErrMsg "vault-board-v1 VTXO tree child missing")) (children node)) out;
  Ok out.

(** ** The graph of a renewal *)
Definition max_money : Z := 21000000 * 100000000.

(** The outputs of a node, with their running total. *)
Definition output_bounds (total : Z) (out : TxOut) : result Z :=
  _ ← fail_if ((to_Value out <? 0) || (max_money <? to_Value out) || (max_money - to_Value out <? total)
               || (10000 <? blen (to_PkScript out))) (ErrMsg "Light renewal graph output bounds");
  Ok (total + to_Value out).

(** One edge; [parents] are the children that have a parent already. *)
Definition graph_edge (txid : bytes) (outs : list TxOut) (parents : list bytes) (edge : Z * bytes) : result (list bytes) :=
  let '(index, child) := edge in
  _ ← fail_if ((Z.of_nat (length outs) <=? index) || (child == txid)) (ErrMsg "Light renewal graph edge");
  match outs !! Z.to_nat index with
  | None => Err (ErrMsg "index out of range")
  | Some out =>
      _ ← fail_if (negb (IsPayToTaproot (to_PkScript out))) (ErrMsg "Light renewal graph child output script");
      _ ← fail_if (bool_decide (child ∈ parents)) (ErrMsg "Light renewal graph repeated child");
      Ok (child :: parents)
  end.

Definition graph_node (parents : list bytes) (node : TxTreeNode) : result (list bytes) :=
  let shape := ErrMsg "Light renewal graph transaction shape" in
  p ← or_err shape (parseCanonicalVaultBoardPSBT (tn_Tx node) maxVaultBoardProofBytes);
  let outs := ut_TxOut (pk_UnsignedTx p) in
  _ ← fail_if (negb (Nat.eqb (length (pk_Inputs p)) 1) || negb (Nat.eqb (length (ut_TxIn (pk_UnsignedTx p))) 1)
               || Nat.eqb (length outs) 0 || (512 <? Z.of_nat (length outs))) shape;
  _ ← fold_res output_bounds 0 outs;
  _ ← fail_if (Z.of_nat (length outs) - 1 <? Z.of_nat (size (tn_Children node))) (ErrMsg "Light renewal graph child count");
  fold_res (graph_edge (tn_Txid node) outs) parents (children node).

Definition by_id (flat : FlatTxTree) : gmap bytes TxTreeNode := list_to_map (map (fun n => (tn_Txid n, n)) flat).

Definition no_node : TxTreeNode := {| tn_Txid := []; tn_Tx := []; tn_Children := ∅ |}.

(** The supplied children of a node. *)
Definition provided (byID : gmap bytes TxTreeNode) (node : TxTreeNode) : list bytes :=
  List.filter (fun child => bool_decide (is_Some (byID !! child))) (map snd (children node)).

(** The traversal; [queue] is the stack with its top first, [fuel] bounds the
    number of visits. *)
Fixpoint walk_graph (fuel : nat) (byID : gmap bytes TxTreeNode) (queue seen : list bytes) : result (list bytes) :=
  match queue with
  | [] => Ok seen
  | id :: queue =>
      match fuel with
      | O => Err (ErrMsg "out of fuel")
      | S fuel =>
          _ ← fail_if (bool_decide (id ∈ seen)) (ErrMsg "Light renewal graph cycle");
          let node := default no_node (byID !! id) in
          _ ← fail_if (negb (Nat.eqb (size (tn_Children node)) 0) && Nat.eqb (length (provided byID node)) 0)
                (ErrMsg "Light renewal graph missing descendant path");
          walk_graph fuel byID (provided byID node ++ queue) (id :: seen)
      end
  end.

Definition canonicalSpendingRenewalTree (supplied : FlatTxTree) : result (FlatTxTree * TxTree) :=
  flat ← canonicalVaultBoardTreeNodes supplied;
  parents ← fold_res graph_node [] flat;
  match List.filter (fun id => negb (bool_decide (id ∈ parents))) (ids flat) with
  | [root] =>
      seen ← walk_graph (S (length flat)) (by_id flat) [root] [];
      _ ← fail_if (negb (Nat.eqb (length seen) (length flat))) (ErrMsg "Light renewal graph disconnected");
      graph ← encoded (arktree_NewTxTree flat);
      Ok (flat, graph)
  | _ => Err (ErrMsg "Light renewal graph root")
  end.

(** ** The receiver and the batch output *)

(** The outputs of the leaves with this script: the leaf's id, the index, the
    output. *)
Definition receivers (t : TxTree) (script : bytes) : list (bytes * Z * TxOut) :=
  List.filter (fun r => to_PkScript (snd r) == script)
    (concat (map (fun leaf => imap (fun i out => (tx_TxHash (pk_UnsignedTx leaf), Z.of_nat i, out)) (ut_TxOut (pk_UnsignedTx leaf)))
       (tree_Leaves t))).

Definition findExactVaultBoardReceiver (t : TxTree) (script : bytes) (amount : Z) : result (bytes * Z) :=
  _ ← fail_if ((blen script =? 0) || (amount <=? 0)) (ErrMsg "vault-board-v1 receiver policy");
  _ ← each (fun r => fail_if (negb (to_Value (snd r) =? amount)) (ErrMsg "vault-board-v1 receiver amount conflict")) (receivers t script);
  match receivers t script with
  | [(txid, vout, _)] => Ok (txid, vout)
  | _ => Err (ErrMsg "vault-board-v1 receiver must appear exactly once")
  end.

(** The root of the sweep policy: the Operator's forfeit key after the expiry. *)
Definition sweep_root (forfeit : PubKey) (expiry : RelativeLocktime) : result bytes :=
  script ← encoded (closure_Script (CSVMultisigClosure [Some forfeit] expiry));
  Ok (tap_leaf_hash script).

(** The keys without x-only repetitions. *)
Fixpoint unique_keys (seen : list bytes) (keys : list PubKey) : list PubKey :=
  match keys with
  | [] => []
  | key :: keys =>
      if bool_decide (SerializePubKey key ∈ seen) then unique_keys seen keys
      else key :: unique_keys (SerializePubKey key :: seen) keys
  end.

Definition verifyVaultBoardBatchOutput (t : TxTree) (commitment : Packet) (forfeit : PubKey) (expiry : RelativeLocktime)
  : result unit :=
  match ParseCosignerKeysFromArkPsbt (tree_Root t) 0 with
  | Some (key :: keys) =>
      root ← sweep_root forfeit expiry;
      aggregate ← encoded (arktree_AggregateKeys (unique_keys [] (key :: keys)) root);
      expected ← encoded (PayToTaprootScript aggregate);
      match ut_TxOut (pk_UnsignedTx commitment) with
      | [] => Err (ErrMsg "index out of range")
      | out :: _ => fail_if (to_PkScript out != expected) (ErrMsg "batch output does not commit to the pinned sweep policy")
      end
  | _ => Err (ErrMsg "batch root cosigners required")
  end.
End Trees.

(** ** An accepted graph is a rooted tree *)
Section Graph.
Context `{Btc} `{Secp} `{ArkScript} `{Txscript} `{ArkTree}.

(** An edge of the supplied nodes; the child may be a transaction that was not
    supplied. *)
Definition edge (flat : FlatTxTree) (a b : bytes) : Prop :=
  exists node i, node ∈ flat /\ tn_Txid node = a /\ tn_Children node !! i = Some b.

Record rooted_tree (flat : FlatTxTree) (root : bytes) : Prop := {
  gt_ids : NoDup (ids flat);
  gt_root : root ∈ ids flat /\ forall a, ~ edge flat a root;
  gt_parent : forall a b c, edge flat a c -> edge flat b c -> a = b;
  gt_reach : forall id, id ∈ ids flat -> rtc (edge flat) root id;
  gt_acyclic : forall id, ~ tc (edge flat) id id;
  gt_leaf : forall a b, edge flat a b -> exists c, edge flat a c /\ c ∈ ids flat;
}.

(** What is checked of one node. *)
Record graph_node_ok (node : TxTreeNode) (p : Packet) : Prop := {
  gn_packet : parseCanonicalVaultBoardPSBT (tn_Tx node) maxVaultBoardProofBytes = Ok p;
  gn_txid : tx_TxHash (pk_UnsignedTx p) = tn_Txid node;
  gn_input : length (ut_TxIn (pk_UnsignedTx p)) = 1%nat;
  gn_outputs : Forall (fun out => 0 <= to_Value out) (ut_TxOut (pk_UnsignedTx p)) /\
    sumZ to_Value (ut_TxOut (pk_UnsignedTx p)) <= max_money;
  gn_edges : forall i child, tn_Children node !! i = Some child -> child <> tn_Txid node /\
    exists out, ut_TxOut (pk_UnsignedTx p) !! Z.to_nat i = Some out /\ i < Z.of_nat (length (ut_TxOut (pk_UnsignedTx p))) /\
      IsPayToTaproot (to_PkScript out) = true;
}.

Lemma children_elem node i child : (i, child) ∈ children node <-> tn_Children node !! i = Some child.
Proof. apply elem_of_map_to_list. Qed.

Lemma children_snd node child : child ∈ map snd (children node) <-> exists i, tn_Children node !! i = Some child.
Proof.
  rewrite list_elem_of_fmap. setoid_rewrite <-children_elem. split.
  - intros ([i c] & -> & Hc). by exists i.
  - intros [i Hc]. by exists (i, child).
Qed.

Lemma tree_nodes_Ok seen total flat u : tree_nodes seen total flat = Ok u ->
  NoDup (ids flat) /\ Forall (fun n => tn_Txid n ∉ seen) flat /\ Forall (fun n => tree_node n = Ok tt) flat.
Proof.
  revert seen total. induction flat as [|n flat IH]; intros seen total E; simpl in E; [split_and!; constructor|].
  apply bind_Ok in E as ([] & En & E). apply bind_Ok in E as ([] & Es & E). apply bind_Ok in E as ([] & _ & E).
  apply bind_Ok in E as ([] & _ & E). apply IH in E as (Hd & Hs & Hn). apply fail_if_Ok, bool_decide_eq_false in Es.
  split_and!; [constructor; [|done]| |by constructor].
  - intros (m & Em & Hm)%list_elem_of_fmap. rewrite Forall_forall in Hs. apply (Hs m Hm). rewrite <-Em. by left.
  - constructor; [done|]. eapply Forall_impl; [exact Hs|]. intros m Hm Hin. apply Hm. by right.
Qed.

Lemma canonical_nodes_Ok supplied flat : canonicalVaultBoardTreeNodes supplied = Ok flat ->
  flat ≡ₚ supplied /\ NoDup (ids flat) /\ Forall (fun n => tree_node n = Ok tt) flat.
Proof.
  unfold canonicalVaultBoardTreeNodes. intros E. apply bind_Ok in E as ([] & _ & E). apply bind_Ok in E as ([] & Et & E).
  apply Ok_inj in E as <-. apply tree_nodes_Ok in Et as (Hd & _ & Hn).
  pose proof (slice_stable_perm (fun a b => bytes_ltb (tn_Txid a) (tn_Txid b)) supplied) as Hp.
  split; [done|]. unfold ids. by rewrite Hp.
Qed.

Lemma output_bounds_Ok outs total total' : fold_res output_bounds total outs = Ok total' -> total <= max_money ->
  Forall (fun out => 0 <= to_Value out) outs /\ total' = total + sumZ to_Value outs /\ total' <= max_money.
Proof.
  revert total. induction outs as [|out outs IH]; intros total E Ht; simpl in E.
  { apply Ok_inj in E as <-. split; [constructor|]. simpl. lia. }
  apply bind_Ok in E as (t & Eo & E). unfold output_bounds in Eo. apply bind_Ok in Eo as ([] & Eb & Eo). apply Ok_inj in Eo as <-.
  apply fail_if_Ok in Eb. bool_hyps. apply IH in E as (Hf & -> & Hm); [|lia].
  split; [constructor; [lia|done]|]. simpl. lia.
Qed.

Lemma graph_edges_Ok txid outs parents l parents' : fold_res (graph_edge txid outs) parents l = Ok parents' ->
  parents' ≡ₚ map snd l ++ parents /\ (NoDup parents -> NoDup parents') /\
  Forall (fun e => snd e <> txid /\ exists out, outs !! Z.to_nat (fst e) = Some out /\ fst e < Z.of_nat (length outs) /\
    IsPayToTaproot (to_PkScript out) = true) l.
Proof.
  revert parents. induction l as [|[i child] l IH]; intros parents E; simpl in E.
  { apply Ok_inj in E as <-. split_and!; [done|done|constructor]. }
  apply bind_Ok in E as (ps & Ee & E). apply bind_Ok in Ee as ([] & Ei & Ee).
  destruct (outs !! Z.to_nat i) as [out|] eqn:Eo; [|done]. apply bind_Ok in Ee as ([] & Ep & Ee).
  apply bind_Ok in Ee as ([] & Er & Ee). apply Ok_inj in Ee as <-. apply IH in E as (Hp & Hd & Hf).
  apply fail_if_Ok in Ei, Ep, Er. bool_hyps. split_and!.
  - rewrite Hp. simpl. by rewrite Permutation_middle.
  - intros Hn. apply Hd. by constructor.
  - constructor; [|done]. simpl. split; [done|]. exists out. by split_and!.
Qed.

Lemma graph_node_Ok parents node parents' : tree_node node = Ok tt -> graph_node parents node = Ok parents' ->
  (exists p, graph_node_ok node p) /\ parents' ≡ₚ map snd (children node) ++ parents /\ (NoDup parents -> NoDup parents').
Proof.
  unfold tree_node, graph_node. intros Et E. apply bind_Ok in Et as ([] & _ & Et). apply bind_Ok in Et as ([] & _ & Et).
  apply bind_Ok in E as (p & Ep & E). apply or_err_Ok in Ep. rewrite Ep in Et. apply fail_if_Ok in Et.
  apply bind_Ok in E as ([] & Es & E). apply bind_Ok in E as (t & Eb & E). apply bind_Ok in E as ([] & _ & E).
  apply fail_if_Ok in Es. bool_hyps. apply output_bounds_Ok in Eb as (Hf & -> & Hm); [|unfold max_money; lia].
  apply graph_edges_Ok in E as (Hp & Hd & He). split; [|done]. exists p. constructor; [done|done| | |].
  - by apply Nat.eqb_eq.
  - split; [done|lia].
  - intros i child Hc. apply children_elem in Hc. rewrite Forall_forall in He. apply (He _ Hc).
Qed.

Lemma graph_nodes_Ok flat parents parents' : Forall (fun n => tree_node n = Ok tt) flat ->
  fold_res graph_node parents flat = Ok parents' ->
  Forall (fun n => exists p, graph_node_ok n p) flat /\
  parents' ≡ₚ concat (map (fun n => map snd (children n)) flat) ++ parents /\ (NoDup parents -> NoDup parents').
Proof.
  intros Ht. revert parents. induction Ht as [|n flat Hn _ IH]; intros parents E; simpl in E.
  { apply Ok_inj in E as <-. by split. }
  apply bind_Ok in E as (ps & En & E). apply graph_node_Ok in En as (Hp & Hpp & Hd); [|done].
  apply IH in E as (Hf & Hpp' & Hd'). split_and!; [by constructor| |auto].
  rewrite Hpp', Hpp. simpl. rewrite !app_assoc. by rewrite (Permutation_app_comm (concat _)).
Qed.

Lemma NoDup_concat_unique {A B} (f : A -> list B) l x y c :
  NoDup (concat (map f l)) -> x ∈ l -> y ∈ l -> c ∈ f x -> c ∈ f y -> x = y.
Proof.
  induction l as [|a l IH]; intros Hd Hx Hy Hcx Hcy; [by apply elem_of_nil in Hx|].
  simpl in Hd. apply NoDup_app in Hd as (_ & Hd & Hl).
  assert (forall z, z ∈ l -> c ∈ f z -> c ∈ concat (map f l)) as Hin.
  { intros z Hz Hc. apply list_elem_of_In, in_concat. exists (f z). split; [|by apply list_elem_of_In].
    apply in_map. by apply list_elem_of_In. }
  apply elem_of_cons in Hx as [->|Hx], Hy as [->|Hy]; [done| | |by apply IH].
  - exfalso. eapply Hd; [exact Hcx|by eapply Hin].
  - exfalso. eapply Hd; [exact Hcy|by eapply Hin].
Qed.

Lemma edge_source flat a b : edge flat a b -> a ∈ ids flat.
Proof. intros (n & i & Hn & <- & _). unfold ids. apply list_elem_of_fmap. by exists n. Qed.

Lemma tc_edge_source flat a b : tc (edge flat) a b -> a ∈ ids flat.
Proof. by intros [? ? He|? ? ? He _]; apply edge_source in He. Qed.

(** *** The traversal *)
Section Walk.
Variable flat : FlatTxTree.
Hypothesis flat_ids : NoDup (ids flat).

Lemma by_id_Some id node : by_id flat !! id = Some node <-> node ∈ flat /\ tn_Txid node = id.
Proof.
  unfold by_id. rewrite <-elem_of_list_to_map, list_elem_of_fmap.
  - split; [intros (n & [= -> ->] & Hn)|intros [Hn <-]; exists node]; done.
  - rewrite map_map. exact flat_ids.
Qed.

Lemma by_id_is_Some id : is_Some (by_id flat !! id) <-> id ∈ ids flat.
Proof.
  unfold ids. rewrite list_elem_of_fmap. split.
  - intros [n [Hn <-]%by_id_Some]. by exists n.
  - intros (n & -> & Hn). exists n. by apply by_id_Some.
Qed.

Lemma size_by_id : size (by_id flat) = length flat.
Proof.
  unfold by_id. rewrite map_size_list_to_map, length_map; [done|]. rewrite map_map. exact flat_ids.
Qed.

Lemma provided_elem id child : child ∈ provided (by_id flat) (default no_node (by_id flat !! id)) <->
  edge flat id child /\ child ∈ ids flat.
Proof.
  unfold provided. rewrite list_elem_of_In, filter_In, <-list_elem_of_In, bool_decide_eq_true, by_id_is_Some, children_snd.
  split; intros [He Hc]; (split; [|done]).
  - destruct He as [i He]. destruct (by_id flat !! id) as [n|] eqn:En; simpl in He.
    + apply by_id_Some in En as [Hn <-]. by exists n, i.
    + by rewrite lookup_empty in He.
  - destruct He as (n & i & Hn & <- & He). assert (by_id flat !! tn_Txid n = Some n) as -> by (by apply by_id_Some). by exists i.
Qed.

Lemma walk_graph_Ok root fuel queue seen out : walk_graph fuel (by_id flat) queue seen = Ok out ->
  Forall (fun id => id ∈ ids flat /\ rtc (edge flat) root id) (queue ++ seen) -> NoDup seen ->
  (forall a b, a ∈ seen -> edge flat a b -> exists c, edge flat a c /\ c ∈ ids flat) ->
  NoDup out /\ Forall (fun id => id ∈ ids flat /\ rtc (edge flat) root id) out /\
  (forall a b, a ∈ out -> edge flat a b -> exists c, edge flat a c /\ c ∈ ids flat).
Proof.
  revert queue seen. induction fuel as [|fuel IH]; intros [|id queue] seen E Hr Hd Hl; simpl in E;
    try done; try (apply Ok_inj in E as <-; done).
  apply bind_Ok in E as ([] & Es & E). apply bind_Ok in E as ([] & El & E).
  apply fail_if_Ok, bool_decide_eq_false in Es. apply fail_if_Ok in El.
  simpl in Hr. apply Forall_cons in Hr as [[Hin Hid] Hr]. apply Forall_app in Hr as [Hq Hs].
  apply IH in E; [done| |by constructor|].
  - rewrite <-app_assoc. apply Forall_app. split; [|apply Forall_app; split; [done|by constructor]].
    apply Forall_forall. intros c [He Hc]%provided_elem. split; [done|]. by eapply rtc_r.
  - intros a b [->|Ha]%elem_of_cons He; [|by apply (Hl a b)].
    apply andb_false_iff in El as [El|El]; apply negb_false_iff in El || apply Nat.eqb_neq in El.
    + apply Nat.eqb_eq in El. destruct He as (n & i & Hn & <- & He).
      assert (by_id flat !! tn_Txid n = Some n) as Hb by (by apply by_id_Some). rewrite Hb in El. simpl in El.
      apply map_size_empty_inv in El. by rewrite El, lookup_empty in He.
    + destruct (provided (by_id flat) (default no_node (by_id flat !! id))) as [|c l] eqn:Ep; [done|].
      exists c. apply provided_elem. rewrite Ep. by left.
Qed.

(** Every visit adds a new supplied node, so the fuel of the code is enough. *)
Lemma walk_graph_fuel fuel queue seen : NoDup seen -> Forall (.∈ ids flat) (queue ++ seen) ->
  (length flat < fuel + length seen)%nat -> walk_graph fuel (by_id flat) queue seen <> Err (ErrMsg "out of fuel").
Proof.
  revert queue seen. induction fuel as [|fuel IH]; intros [|id queue] seen Hd Hf Hl; simpl; try done.
  - simpl in Hl. exfalso. apply Forall_cons in Hf as [_ [_ Hs]%Forall_app].
    assert (length seen <= length (ids flat))%nat as Hle.
    { apply NoDup_incl_length; [by apply NoDup_ListNoDup|]. intros x Hx. rewrite Forall_forall in Hs.
      apply list_elem_of_In, Hs, list_elem_of_In, Hx. }
    unfold ids in Hle. rewrite length_map in Hle. lia.
  - simpl in Hf. apply Forall_cons in Hf as [Hin [Hq Hs]%Forall_app].
    unfold fail_if. case_bool_decide as Hn; simpl; [done|].
    destruct (_ && _); simpl; [done|]. apply IH; [by constructor| |simpl; lia].
    rewrite <-app_assoc. apply Forall_app. split; [|apply Forall_app; split; [done|by constructor]].
    apply Forall_forall. by intros c [_ Hc]%provided_elem.
Qed.
End Walk.

(** A finite graph with unique parents in which a node without parent reaches
    everything has no cycle. *)
Lemma tc_last_step {A} (R : A -> A -> Prop) x y : tc R x y -> exists w, rtc R x w /\ R w y.
Proof.
  induction 1 as [x y Hxy|x y z Hxy _ (w & Hw & Hwz)]; [by exists x; split; [apply rtc_refl|]|].
  exists w. split; [by eapply rtc_l|done].
Qed.

Lemma unique_parents_acyclic {A} (R : A -> A -> Prop) root x :
  (forall a, ~ R a root) -> (forall a b c, R a c -> R b c -> a = b) -> rtc R root x -> ~ tc R x x.
Proof.
  intros Hroot Hpar Hx. revert x Hx. apply (rtc_ind_r (fun x => ~ tc R x x)).
  - intros (w & _ & Hw)%tc_last_step. by eapply Hroot.
  - intros y z _ Hyz IH (w & Hzw & Hwz)%tc_last_step. rewrite (Hpar _ _ _ Hwz Hyz) in Hzw.
    apply IH. eapply tc_rtc_r; [by eapply tc_once|done].
Qed.

(** C22: The graph of a renewal that is accepted is a rooted tree over the supplied
    transactions: their ids are distinct and are the ids of their canonical
    packets, one transaction has no parent and leads to every other, no
    transaction has two parents or is its own ancestor, every branch leads to a
    supplied transaction, the edges leave from existing taproot outputs and the
    outputs of a transaction never exceed the money supply. *)
Theorem renewal_graph_tree supplied flat graph : canonicalSpendingRenewalTree supplied = Ok (flat, graph) ->
  flat ≡ₚ supplied /\ arktree_NewTxTree flat = Some graph /\
  Forall (fun node => exists p, graph_node_ok node p) flat /\ exists root, rooted_tree flat root.
Proof.
  unfold canonicalSpendingRenewalTree. intros E. apply bind_Ok in E as (fl & Ec & E). apply bind_Ok in E as (ps & Ep & E).
  destruct (List.filter _ (ids fl)) as [|root [|]] eqn:Er; try done. apply bind_Ok in E as (seen & Ew & E).
  apply bind_Ok in E as ([] & El & E). apply bind_Ok in E as (g & Eg & E). apply Ok_inj, pair_equal_spec in E as [-> ->].
  apply encoded_Ok in Eg. apply canonical_nodes_Ok in Ec as (Hp & Hd & Ht). apply graph_nodes_Ok in Ep as (Hn & Hps & Hnd); [|done].
  rewrite app_nil_r in Hps. split_and!; [done|done|done|]. exists root.
  assert (forall id, id ∈ ids flat /\ id ∉ ps <-> id = root) as Hroot.
  { intros id. rewrite <-(list_elem_of_singleton id root), <-Er, (list_elem_of_In (List.filter _ _)), filter_In, <-list_elem_of_In.
    by rewrite negb_true_iff, bool_decide_eq_false. }
  assert (forall a b, edge flat a b -> b ∈ ps) as Hps'.
  { intros a b (n & i & Hin & <- & Hi). rewrite Hps. apply list_elem_of_In, in_concat. exists (map snd (children n)).
    split; [apply (in_map (fun n => map snd (children n))); by apply list_elem_of_In|]. apply list_elem_of_In, children_snd. by exists i. }
  destruct (proj2 (Hroot root) eq_refl) as [Hrin Hrps].
  apply (walk_graph_Ok flat Hd root) in Ew as (Hsd & Hsr & Hsl);
    [|constructor; [split; [done|apply rtc_refl]|constructor]|constructor|by intros a b ?%elem_of_nil].
  apply fail_if_Ok, negb_false_iff, Nat.eqb_eq in El.
  assert (forall id, id ∈ ids flat -> id ∈ seen) as Hall.
  { intros id Hid. assert (incl (ids flat) seen) as Hincl.
    - apply NoDup_length_incl; [by apply NoDup_ListNoDup|unfold ids; rewrite length_map; lia|].
      intros x Hx. apply list_elem_of_In in Hx. rewrite Forall_forall in Hsr. apply list_elem_of_In, Hsr, Hx.
    - apply list_elem_of_In, Hincl, list_elem_of_In, Hid. }
  assert (forall a b c, edge flat a c -> edge flat b c -> a = b) as Hpar.
  { intros a b c (n & i & Hin & <- & Hi) (m & j & Hm & <- & Hj). f_equal.
    apply (NoDup_concat_unique (fun n => map snd (children n)) flat n m c); [|done|done|apply children_snd; by exists i|apply children_snd; by exists j].
    rewrite <-Hps. apply Hnd. constructor. }
  assert (forall a, ~ edge flat a root) as Hno by (intros a Ha; by apply Hrps, (Hps' a)).
  rewrite Forall_forall in Hsr.
  constructor; [done|done|done| | |].
  - intros id Hid. by apply Hsr, Hall.
  - intros id Hc. pose proof (tc_edge_source _ _ _ Hc) as Hid.
    revert Hc. apply (unique_parents_acyclic _ root); [done|done|]. by apply Hsr, Hall.
  - intros a b He. apply (Hsl a b); [|done]. apply Hall. by apply edge_source in He.
Qed.

(** C23: The traversal of a renewal graph terminates: on any nodes that passed the
    first check, and from any of them, the bound on the visits is never reached,
    so that the answer is the one of the unbounded loop. *)
Theorem renewal_walk_terminates supplied flat root : canonicalVaultBoardTreeNodes supplied = Ok flat -> root ∈ ids flat ->
  walk_graph (S (length flat)) (by_id flat) [root] [] <> Err (ErrMsg "out of fuel").
Proof.
  intros (_ & Hd & _)%canonical_nodes_Ok Hr. apply walk_graph_fuel; [done|constructor|by repeat constructor|simpl; lia].
Qed.

(** *** The other checks *)
Lemma receiver_exact t script amount txid vout : findExactVaultBoardReceiver t script amount = Ok (txid, vout) ->
  exists out, receivers t script = [(txid, vout, out)] /\ to_Value out = amount /\ to_PkScript out = script /\ 0 < amount.
Proof.
  unfold findExactVaultBoardReceiver. intros E. apply bind_Ok in E as ([] & Ep & E). apply bind_Ok in E as ([] & Ea & E).
  apply fail_if_Ok in Ep. bool_hyps. destruct (receivers t script) as [|[[i v] out] [|]] eqn:Er; try done.
  apply Ok_inj, pair_equal_spec in E as [-> ->]. exists out. split; [done|].
  apply each_Ok, Forall_cons in Ea as [Ea _]. apply fail_if_Ok in Ea. simpl in Ea. bool_hyps.
  assert ((txid, vout, out) ∈ receivers t script) as Hin by (rewrite Er; by left).
  unfold receivers in Hin. rewrite list_elem_of_In, filter_In in Hin. destruct Hin as [_ Hs]. simpl in Hs. bool_hyps. by split_and!; [|done|lia].
Qed.

(** The batch output pays to the root's cosigners under the sweep policy. *)
Definition batch_output (t : TxTree) (commitment : Packet) (forfeit : PubKey) (expiry : RelativeLocktime) : Prop :=
  exists keys root aggregate out outs, ParseCosignerKeysFromArkPsbt (tree_Root t) 0 = Some keys /\ keys <> [] /\
    sweep_root forfeit expiry = Ok root /\ arktree_AggregateKeys (unique_keys [] keys) root = Some aggregate /\
    ut_TxOut (pk_UnsignedTx commitment) = out :: outs /\ PayToTaprootScript aggregate = Some (to_PkScript out).

Lemma batch_output_Ok t commitment forfeit expiry : verifyVaultBoardBatchOutput t commitment forfeit expiry = Ok tt ->
  batch_output t commitment forfeit expiry.
Proof.
  unfold verifyVaultBoardBatchOutput. intros E. destruct (ParseCosignerKeysFromArkPsbt (tree_Root t) 0) as [[|key keys]|] eqn:Ek; try done.
  apply bind_Ok in E as (root & Er & E). apply bind_Ok in E as (agg & Ea & E). apply bind_Ok in E as (ex & Ee & E).
  destruct (ut_TxOut (pk_UnsignedTx commitment)) as [|out outs] eqn:Eo; [done|]. apply fail_if_Ok in E. bool_hyps. subst ex.
  apply encoded_Ok in Ea, Ee. by exists (key :: keys), root, agg, out, outs.
Qed.

Lemma canonical_psbt_Ok raw max p : parseCanonicalVaultBoardPSBT raw max = Ok p ->
  parsePSBT raw = Ok p /\ psbt_B64Encode p = Some raw /\ 0 < blen raw <= max /\
  length (pk_Outputs p) = length (ut_TxOut (pk_UnsignedTx p)).
Proof.
  unfold parseCanonicalVaultBoardPSBT. intros E. apply bind_Ok in E as ([] & Es & E). apply bind_Ok in E as (q & Ep & E).
  apply bind_Ok in E as ([] & Ec & E). apply bind_Ok in E as ([] & Eo & E). apply Ok_inj in E as ->.
  apply fail_if_Ok in Es, Eo. bool_hyps. unfold b64Encode in Ec. destruct (psbt_B64Encode p); [|done].
  apply fail_if_Ok in Ec. bool_hyps. subst. pose proof (blen_nonneg raw). split_and!; [done|done|lia|lia|by apply Nat.eqb_eq].
Qed.
End Graph.

(** ** Signed inputs *)
(** The inputs with their indexes. *)
Definition indexed_inputs (packet : Packet) : list (nat * (TxIn * PInput)) := imap pair (packet_inputs packet).

(** The only proprietary field is the message. *)
Definition carries_message (packet : Packet) (message : bytes) : bool :=
  match pk_Unknowns packet with
  | [Some u] => (un_Key u == [byte_of_Z 9]) && (un_Value u == message)
  | _ => false
  end.

Section Signed.
Context `{Btc}.

(** Input [i] spends an output of this value and script by this leaf, and carries
    one valid signature of [signer] and nothing else. *)
Definition signed_input (packet : Packet) (i : nat) (txin : TxIn) (value : Z) (script leaf control signer : bytes) (sigHash : Z) : Prop :=
  exists input, ut_TxIn (pk_UnsignedTx packet) !! i = Some txin /\ pk_Inputs packet !! i = Some input /\
    pi_WitnessUtxo input = Some {| to_Value := value; to_PkScript := script |} /\
    spends_leaf input script leaf control sigHash /\ signed_by packet i [signer] leaf sigHash.

Lemma indexed_inputs_two packet : length (ut_TxIn (pk_UnsignedTx packet)) = 2%nat -> length (pk_Inputs packet) = 2%nat ->
  exists t0 t1 i0 i1, ut_TxIn (pk_UnsignedTx packet) = [t0; t1] /\ pk_Inputs packet = [i0; i1] /\
    indexed_inputs packet = [(0%nat, (t0, i0)); (1%nat, (t1, i1))].
Proof.
  unfold indexed_inputs, packet_inputs. intros Ht Hi. destruct (ut_TxIn (pk_UnsignedTx packet)) as [|t0 [|t1 [|]]]; try discriminate.
  destruct (pk_Inputs packet) as [|i0 [|i1 [|]]]; try discriminate. by exists t0, t1, i0, i1.
Qed.

Lemma witness_eta (w : TxOut) : w = {| to_Value := to_Value w; to_PkScript := to_PkScript w |}.
Proof. by destruct w. Qed.

Lemma signed_input_Ok packet i txin input w value script leaf control signer sigHash :
  ut_TxIn (pk_UnsignedTx packet) !! i = Some txin -> pk_Inputs packet !! i = Some input ->
  pi_WitnessUtxo input = Some w -> to_Value w = value -> to_PkScript w = script ->
  requireExactLeafWithSighash input script leaf control [signer] sigHash = Ok tt ->
  requireVerifiedSignersWithSighash packet i [signer] leaf sigHash = Ok tt ->
  signed_input packet i txin value script leaf control signer sigHash.
Proof.
  intros Ht Hi Hw <- <- El Es. apply requireExactLeaf_Ok in El. apply requireVerifiedSigners_Ok in Es.
  exists input. split_and!; [done|done| |done|done]. rewrite Hw. f_equal. apply witness_eta.
Qed.
End Signed.

(** ** An example *)

(** A library that takes any nodes for the tree with these packets. *)
Definition toy_arktree (root : Packet) (leaves : list Packet) (keys : list PubKey) (revealed : list bytes) : ArkTree := {|
  arktree_NewTxTree := fun _ => Some (TxTreeOf root []); arktree_ValidateVtxoTree := fun _ _ _ _ => true;
  arktree_ValidateTreeSigs := fun _ _ _ => true; arktree_AggregateKeys := fun keys _ => head keys;
  tree_Validate := fun _ => true; tree_Leaves := fun _ => leaves; tree_Find := fun t _ => Some t;
  ParseCosignerKeysFromArkPsbt := fun _ _ => Some keys;
  GetVtxoTaprootTree := fun _ i => Some (match i with O => [] | S _ => [revealed] end) |}.

(** A root with one connector output and a leaf. *)
Definition toy_node_tx (outs : list TxOut) : Packet := {|
  pk_UnsignedTx := {| ut_Version := 3; ut_LockTime := 0; ut_TxOut := outs;
    ut_TxIn := [{| ti_PreviousOutPoint := {| op_Hash := str "commitment"; op_Index := 0 |}; ti_Sequence := MaxTxInSequenceNum |}] |};
  pk_Inputs := [toy_pinput 0 SigHashDefault []]; pk_Outputs := map (fun _ => []) outs; pk_Unknowns := [] |}.

Definition toy_out (value : Z) : TxOut := {| to_Value := value; to_PkScript := toy_script |}.
Definition toy_root_tx : Packet := toy_node_tx [toy_out 1000; toy_out 0].
Definition toy_leaf_tx : Packet := toy_node_tx [toy_out 1000].
Definition toy_txid (n : Z) : bytes := hex_encode (be_bytes 32 n).

Definition toy_nodes : FlatTxTree :=
  [{| tn_Txid := toy_txid 2; tn_Tx := str "root"; tn_Children := {[0 := toy_txid 1]} |};
   {| tn_Txid := toy_txid 1; tn_Tx := str "leaf"; tn_Children := ∅ |}].

Definition toy_tree_table : list (bytes * Packet) := [(str "root", toy_root_tx); (str "leaf", toy_leaf_tx)].

Notation toy_canonical := (@canonicalSpendingRenewalTree (toy_btc toy_tree_table) toy_txscript
  (toy_arktree toy_root_tx [toy_leaf_tx] [] [])).

Lemma toy_graph : exists flat, toy_canonical toy_nodes = Ok (flat, TxTreeOf toy_root_tx []).
Proof. eexists. vm_compute. reflexivity. Qed.

Lemma renewal_graph_tree_witness : exists flat root, toy_canonical toy_nodes = Ok (flat, TxTreeOf toy_root_tx []) /\
  rooted_tree flat root /\ flat ≡ₚ toy_nodes.
Proof.
  destruct toy_graph as [flat E].
  destruct (@renewal_graph_tree (toy_btc toy_tree_table) toy_txscript (toy_arktree toy_root_tx [toy_leaf_tx] [] []) _ _ _ E)
    as (Hp & _ & _ & root & Hr).
  exists flat, root. split; [exact E|]. split; [exact Hr|exact Hp].
Defined.

Lemma toy_flat : exists flat, @canonicalVaultBoardTreeNodes (toy_btc toy_tree_table) toy_nodes = Ok flat /\
  bool_decide (toy_txid 1 ∈ ids flat) = true.
Proof. eexists. split; vm_compute; reflexivity. Qed.

Lemma renewal_walk_terminates_witness : exists flat root,
  @canonicalVaultBoardTreeNodes (toy_btc toy_tree_table) toy_nodes = Ok flat /\
  walk_graph (S (length flat)) (by_id flat) [root] [] <> Err (ErrMsg "out of fuel").
Proof.
  destruct toy_flat as (flat & E & Hin). exists flat, (toy_txid 1). split; [exact E|].
  exact (@renewal_walk_terminates (toy_btc toy_tree_table) _ _ _ E (bool_decide_eq_true_1 _ Hin)).
Defined.
