(* ===== verification/BoardVerify.v ===== *)
(** * Verification of boarding deposits ([src/internal/application/vault_board_verify.go], [vault_board_finalize.go])

    A boarding deposit leaves the vault's boarding address in two steps: a BIP-322
    proof registers an intent with the Operator (or deletes it), and the batch
    commitment spends the deposit into one output of the batch tree.  The service
    signs either only after it verified it: [board_register_sound],
    [board_final_sound]. *)
From Stdlib Require Import Strings.Byte.
From S2P Require Import Prelude Sha256 Text Base64 Board Psbt Btcd Program Deployment Cosigner.
From S2P Require Import VtxoScript VtxoVerify VtxoTree BatchTree.

(** ** Intent messages *)

(** [intent.RegisterMessage] and [intent.DeleteMessage]; a nil slice is [None]. *)
Record RegisterMessage := {
  rm_OnchainOutputIndexes : option (list Z);
  rm_ValidAt : Z;
  rm_ExpireAt : Z;
  rm_CosignersPublicKeys : list bytes;
}.

Record DeleteMessage := { dm_ExpireAt : Z }.

Class ArkIntent := {
  RegisterMessage_Decode : bytes -> option RegisterMessage;
  RegisterMessage_Encode : RegisterMessage -> option bytes;
  DeleteMessage_Decode : bytes -> option DeleteMessage;
  DeleteMessage_Encode : DeleteMessage -> option bytes;
}.

Definition vaultBoardIntentDigestDomain : bytes := str "arkade-vault/vault-board-v1-intent-request/v1".
Definition vaultBoardFinalDigestDomain : bytes := str "arkade-vault/vault-board-v1-final-request/v1".
Definition maxVaultBoardBatchIDBytes : Z := 256.

Record verifiedVaultBoardIntentProof := {
  bp_CanonicalPSBT : bytes;
  bp_Message : bytes;
  bp_RequestDigest : bytes;
  bp_InputIndexes : list nat;
  bp_ExpireAt : Z;
  bp_TreeSession : bytes;
  bp_ReceiverSats : Z;
  bp_FeeSats : Z;
}.

Section Intent.
Context `{Btc} `{Secp} `{ArkTree} `{ArkIntent}.

(** *** The proof *)
Definition vaultBoardOutpointMatches (operation : VaultBoardOperation) (outpoint : OutPoint) : bool :=
  (blen (vbo_Txid operation) =? 32) && (hex_encode (vbo_Txid operation) == op_Hash outpoint)
  && (vbo_Vout operation =? op_Index outpoint).

(** The revealed tree: none on the synthetic input, the coin's own on the other. *)
Definition revealed_tree (packet : Packet) (scripts : list bytes) (i : nat) : bool :=
  match GetVtxoTaprootTree packet i, i with
  | Some [], O => true
  | Some [field], S _ => field == scripts
  | _, _ => false
  end.

Definition board_proof_input (packet : Packet) (operation : VaultBoardOperation) (tree : vtxoBoardTree)
    (ip : nat * (TxIn * PInput)) : result unit :=
  let '(i, (txin, input)) := ip in
  let boardingXOnly := SerializePubKey (bt_BoardingPub tree) in
  _ ← fail_if (negb (ti_Sequence txin =? MaxTxInSequenceNum)) (ErrMsg "vault-board-v1 proof sequence");
  let wantValue := if Nat.eqb i 1 then vbo_ValueSats operation else 0 in
  match pi_WitnessUtxo input with
  | None => Err (ErrMsg "vault-board-v1 proof input %d prevout")
  | Some witness =>
      _ ← fail_if (negb (to_Value witness =? wantValue) || (to_PkScript witness != vbo_BoardingScript operation)
                   || (to_PkScript witness != bt_PkScript tree)) (ErrMsg "vault-board-v1 proof input %d prevout");
      _ ← wrap_err "vault-board-v1 proof input %d: %w" (requireExactLeafWithSighash input (bt_PkScript tree) (bt_Collaborative tree)
            (bt_ControlBlock tree) [boardingXOnly] SigHashAll);
      _ ← wrap_err "vault-board-v1 proof input %d: %w" (requireVerifiedSignersWithSighash packet i [boardingXOnly]
            (bt_Collaborative tree) SigHashAll);
      fail_if (negb (revealed_tree packet (bt_RevealedScripts tree) i)) (ErrMsg "vault-board-v1 proof input %d revealed tree")
  end.

Definition verifyVaultBoardIntentProofShape (raw message : bytes) (operation : VaultBoardOperation) (tree : vtxoBoardTree)
    (register : bool) : result Packet :=
  _ ← fail_if ((blen raw =? 0) || (maxVaultBoardProofBytes <? blen raw) || negb (blen (bt_PkScript tree) =? 34)
               || (blen (bt_Collaborative tree) =? 0) || (blen (bt_ControlBlock tree) =? 0)
               || Nat.eqb (length (bt_RevealedScripts tree)) 0) (ErrMsg "vault-board-v1 proof policy required");
  packet ← parsePSBT raw;
  _ ← match b64Encode packet with
      | Ok canonical => fail_if (canonical != raw) (ErrMsg "vault-board-v1 proof must use canonical base64 PSBT encoding")
      | Err _ => Err (ErrMsg "vault-board-v1 proof must use canonical base64 PSBT encoding")
      end;
  _ ← fail_if (negb (carries_message packet message)) (ErrMsg "vault-board-v1 proof canonical message required");
  let tx := pk_UnsignedTx packet in
  _ ← fail_if (negb (ut_Version tx =? 2) || negb (ut_LockTime tx =? 0) || negb (Nat.eqb (length (ut_TxIn tx)) 2)
               || negb (Nat.eqb (length (pk_Inputs packet)) 2)) (ErrMsg "vault-board-v1 proof transaction shape");
  _ ← match ut_TxOut tx, pk_Outputs packet with
      | [out], [_] =>
          fail_if (negb register && (negb (to_Value out =? 0) || (to_PkScript out != [byte_of_Z OP_RETURN])))
            (ErrMsg "vault-board-v1 delete outputs")
      | _, _ => Err (ErrMsg "vault-board-v1 register output count")
      end;
  _ ← match ut_TxIn tx with
      | [_; txin] => fail_if (negb (vaultBoardOutpointMatches operation (ti_PreviousOutPoint txin))) (ErrMsg "vault-board-v1 proof outpoint")
      | _ => Err (ErrMsg "index out of range")
      end;
  _ ← each (board_proof_input packet operation tree) (indexed_inputs packet);
  _ ← fail_if (negb (intent_Verify raw message [bt_CosignerPub tree; bt_OperatorPub tree])) (ErrMsg "vault-board-v1 proof invalid: %w");
  Ok packet.

(** *** The request digest *)
Definition writeVaultBoardDigestField (h value : bytes) : bytes := h ++ enc_field value.

Definition vaultBoardIntentRequestDigest (phase : bytes) (packet : Packet) (message : bytes) (inputIndexes : list nat)
  : result bytes :=
  match inputIndexes with
  | [0%nat; 1%nat] =>
      unsigned ← clonePacket packet;
      raw ← or_err (ErrMsg "vault-board-v1 proof encoding") (b64Encode (strip_signatures unsigned));
      match base64_decode raw with
      | None => Err (ErrMsg "vault-board-v1 proof encoding")
      | Some decoded =>
          _ ← fail_if (maxVaultBoardProofBytes <? blen decoded) (ErrMsg "vault-board-v1 proof encoding");
          let h := fold_left writeVaultBoardDigestField [vaultBoardIntentDigestDomain; phase; decoded; message] [] in
          Ok (sha256 (h ++ concat (map (fun i => le32 (Z.of_nat i)) inputIndexes)))
      end
  | _ => Err (ErrMsg "vault-board-v1 proof input indexes")
  end.

(** *** Registration and deletion *)
Definition verifyVaultBoardRegisterProof (raw message : bytes) (operation : VaultBoardOperation) (tree : vtxoBoardTree)
    (expectedExpireAt : Z) : result verifiedVaultBoardIntentProof :=
  register ← or_err (ErrMsg "vault-board-v1 register message") (encoded (RegisterMessage_Decode message));
  _ ← fail_if (bool_decide (RegisterMessage_Encode register <> Some message)
               || bool_decide (rm_OnchainOutputIndexes register <> Some [])
               || negb (rm_ValidAt register =? 0) || negb (rm_ExpireAt register =? expectedExpireAt) || (expectedExpireAt <=? 0)
               || negb (Nat.eqb (length (rm_CosignersPublicKeys register)) 1)) (ErrMsg "vault-board-v1 canonical register message");
  let session := nth 0 (rm_CosignersPublicKeys register) [] in
  treeSession ← or_err (ErrMsg "vault-board-v1 tree session key") (encoded (hex_decode session));
  _ ← fail_if (negb (blen treeSession =? 33) || (hex_encode treeSession != session)) (ErrMsg "vault-board-v1 tree session key");
  _ ← parsed treeSession (ErrMsg "vault-board-v1 tree session key");
  packet ← verifyVaultBoardIntentProofShape raw message operation tree true;
  match ut_TxOut (pk_UnsignedTx packet) with
  | [] => Err (ErrMsg "index out of range")
  | receiver :: _ =>
      _ ← fail_if ((to_Value receiver <=? 0) || (vbo_ValueSats operation <? to_Value receiver)
                   || (to_PkScript receiver != vbo_ReceiverScript operation)) (ErrMsg "vault-board-v1 register receiver");
      let fee := vbo_ValueSats operation - to_Value receiver in
      digest ← vaultBoardIntentRequestDigest VaultBoardPhaseRegister packet message [0%nat; 1%nat];
      Ok {| bp_CanonicalPSBT := raw; bp_Message := message; bp_RequestDigest := digest; bp_InputIndexes := [0%nat; 1%nat];
            bp_ExpireAt := expectedExpireAt; bp_TreeSession := treeSession; bp_ReceiverSats := to_Value receiver;
            bp_FeeSats := fee |}
  end.

Definition verifyVaultBoardDeleteProof (raw message : bytes) (operation : VaultBoardOperation) (tree : vtxoBoardTree)
    (expectedExpireAt : Z) : result verifiedVaultBoardIntentProof :=
  deletion ← or_err (ErrMsg "vault-board-v1 delete message") (encoded (DeleteMessage_Decode message));
  _ ← fail_if (bool_decide (DeleteMessage_Encode deletion <> Some message) || negb (dm_ExpireAt deletion =? expectedExpireAt)
               || (expectedExpireAt <=? 0)) (ErrMsg "vault-board-v1 canonical delete message");
  packet ← verifyVaultBoardIntentProofShape raw message operation tree false;
  digest ← vaultBoardIntentRequestDigest VaultBoardPhaseDelete packet message [0%nat; 1%nat];
  Ok {| bp_CanonicalPSBT := raw; bp_Message := message; bp_RequestDigest := digest; bp_InputIndexes := [0%nat; 1%nat];
        bp_ExpireAt := expectedExpireAt; bp_TreeSession := []; bp_ReceiverSats := 0; bp_FeeSats := 0 |}.
End Intent.

(** ** The batch that finalizes a deposit *)
Record vaultBoardRecipientEvidence := { br_Script : bytes; br_AmountSats : Z; br_HasAssets : bool }.

Record vaultBoardFinalEvidence := {
  be_BatchID : bytes;
  be_BatchExpiry : Z;   (* uint32 *)
  be_SignedCommitmentPSBT : bytes;
  be_UnsignedCommitmentPSBT : bytes;
  be_VtxoTree : FlatTxTree;
  be_Recipients : list vaultBoardRecipientEvidence;
  be_InputIndexes : list Z;
}.

Record verifiedVaultBoardFinal := {
  bf_CanonicalPSBT : bytes;
  bf_RequestDigest : bytes;
  bf_InputIndex : Z;
  bf_CommitmentTxid : bytes;
  bf_ReceiverTxid : bytes;
  bf_ReceiverVout : Z;
}.

(** [sort.Slice] by the index, on the distinct keys of a map. *)
Definition sorted_children (node : TxTreeNode) : list (Z * bytes) :=
  slice_stable (fun a b => fst a <? fst b) (children node).

Definition node_digest (node : TxTreeNode) : bytes :=
  enc_field (tn_Txid node) ++ enc_field (tn_Tx node) ++ le32 (Z.of_nat (size (tn_Children node)))
  ++ concat (map (fun child : Z * bytes => le32 (fst child) ++ enc_field (snd child)) (sorted_children node)).

Definition vaultBoardFinalRequestDigest (evidence : vaultBoardFinalEvidence) (flat : FlatTxTree) : result bytes :=
  match be_Recipients evidence, be_InputIndexes evidence with
  | [recipient], [index] =>
      Ok (sha256 (enc_field vaultBoardFinalDigestDomain ++ enc_field (be_BatchID evidence)
            ++ enc_field (be_SignedCommitmentPSBT evidence) ++ enc_field (be_UnsignedCommitmentPSBT evidence)
            ++ le32 (Z.of_nat (length flat)) ++ le32 (be_BatchExpiry evidence) ++ le32 index
            ++ concat (map node_digest flat) ++ enc_field (br_Script recipient) ++ le64 (br_AmountSats recipient)))
  | _, _ => Err (ErrMsg "vault-board-v1 final digest evidence")
  end.

Section Final.
Context `{Btc} `{Secp} `{ArkScript} `{Txscript} `{ArkTree}.

(** The one receiver is the registered one. *)
Definition receiver_evidence (evidence : vaultBoardFinalEvidence) (operation : VaultBoardOperation)
    (register : VaultBoardAuthorization) : result vaultBoardRecipientEvidence :=
  match be_Recipients evidence with
  | [r] =>
      _ ← fail_if (br_HasAssets r || (br_AmountSats r <=? 0) || (vba_Phase register != VaultBoardPhaseRegister)
                   || (vba_OperationID register != vbo_OperationID operation) || (vba_FeeSats register <? 0)
                   || (max_int64 - vba_FeeSats register <? vba_ReceiverSats register)
                   || negb (vba_ReceiverSats register =? br_AmountSats r)
                   || negb (vba_ReceiverSats register + vba_FeeSats register =? vbo_ValueSats operation)
                   || (br_Script r != vbo_ReceiverScript operation)) (ErrMsg "vault-board-v1 exact receiver evidence required");
      Ok r
  | _ => Err (ErrMsg "vault-board-v1 exact receiver evidence required")
  end.

Definition pinned_forfeit (network : bytes) (expectedExpiry : RelativeLocktime) : result PubKey :=
  match IdentityFor network with
  | Err _ => Err (ErrMsg "vault-board-v1 final deployment policy")
  | Ok id =>
      _ ← fail_if (negb (rl_Value expectedExpiry =? id_VtxoTreeExpirySeconds id)) (ErrMsg "vault-board-v1 final deployment policy");
      raw ← or_err (ErrMsg "vault-board-v1 pinned forfeit key") (encoded (hex_decode (id_CheckpointForfeitPubHex id)));
      _ ← fail_if (negb (blen raw =? 33)) (ErrMsg "vault-board-v1 pinned forfeit key");
      parsed raw (ErrMsg "vault-board-v1 pinned forfeit key")
  end.

(** Every input shows its prevout, and only input [idx] is a boarding deposit. *)
Definition single_boarding_input (boardingScript : bytes) (idx : nat) (ii : nat * PInput) : result unit :=
  let '(i, input) := ii in
  match pi_WitnessUtxo input with
  | None => Err (ErrMsg "vault-board-v1 final input %d prevout required")
  | Some witness =>
      fail_if ((to_PkScript witness == boardingScript) && negb (Nat.eqb i idx))
        (ErrMsg "vault-board-v1 final contains another enrolled boarding input")
  end.

Definition final_input (packet : Packet) (operation : VaultBoardOperation) (tree : vtxoBoardTree) (idx : nat) : result unit :=
  match ut_TxIn (pk_UnsignedTx packet) !! idx, pk_Inputs packet !! idx with
  | Some txin, Some input =>
      _ ← fail_if (negb (vaultBoardOutpointMatches operation (ti_PreviousOutPoint txin))) (ErrMsg "vault-board-v1 final outpoint");
      _ ← each (single_boarding_input (vbo_BoardingScript operation) idx) (imap pair (pk_Inputs packet));
      match pi_WitnessUtxo input with
      | None => Err (ErrMsg "vault-board-v1 final prevout")
      | Some witness =>
          _ ← fail_if (negb (to_Value witness =? vbo_ValueSats operation) || (to_PkScript witness != vbo_BoardingScript operation))
                (ErrMsg "vault-board-v1 final prevout");
          let boardingXOnly := SerializePubKey (bt_BoardingPub tree) in
          _ ← wrap_err "vault-board-v1 final leaf: %w" (requireExactLeafWithSighash input (bt_PkScript tree) (bt_Collaborative tree)
                (bt_ControlBlock tree) [boardingXOnly] SigHashDefault);
          wrap_err "vault-board-v1 final boarding signature: %w" (requireVerifiedSignersWithSighash packet idx [boardingXOnly]
            (bt_Collaborative tree) SigHashDefault)
      end
  | _, _ => Err (ErrMsg "vault-board-v1 final input index")
  end.

(** The tree of the batch: it hangs on the commitment under the pinned sweep
    policy and every transaction of it is signed. *)
Definition final_tree (evidence : vaultBoardFinalEvidence) (commitment : Packet) (forfeit : PubKey) (expiry : RelativeLocktime)
  : result (FlatTxTree * TxTree) :=
  flat ← canonicalVaultBoardTree (be_VtxoTree evidence);
  txTree ← wrap_err "vault-board-v1 VTXO tree: %w" (encoded (arktree_NewTxTree flat));
  _ ← fail_if (negb (arktree_ValidateVtxoTree txTree commitment forfeit expiry)) (ErrMsg "vault-board-v1 VTXO tree policy: %w");
  _ ← wrap_err "vault-board-v1 VTXO tree policy: %w" (verifyVaultBoardBatchOutput txTree commitment forfeit expiry);
  root ← sweep_root forfeit expiry;
  match ut_TxOut (pk_UnsignedTx commitment) with
  | [] => Err (ErrMsg "index out of range")
  | out :: _ =>
      _ ← fail_if (negb (arktree_ValidateTreeSigs root (to_Value out) txTree)) (ErrMsg "vault-board-v1 signed recovery path required: %w");
      Ok (flat, txTree)
  end.

Definition verifyVaultBoardFinal (evidence : vaultBoardFinalEvidence) (operation : VaultBoardOperation)
    (register : VaultBoardAuthorization) (boardTree : vtxoBoardTree) (expectedExpiry : RelativeLocktime) (network : bytes)
  : result verifiedVaultBoardFinal :=
  match be_InputIndexes evidence with
  | [idx] =>
      _ ← fail_if ((be_BatchID evidence == []) || (maxVaultBoardBatchIDBytes <? blen (be_BatchID evidence)) || (idx <? 0)
                   || match rl_Type expectedExpiry with LocktimeTypeSecond => false | LocktimeTypeBlock => true end
                   || (rl_Value expectedExpiry =? 0)) (ErrMsg "vault-board-v1 final batch policy");
      _ ← fail_if (negb (be_BatchExpiry evidence =? rl_Value expectedExpiry))
            (ErrMsg "vault-board-v1 final batch policy: expiry got=%d want=%d");
      recipient ← receiver_evidence evidence operation register;
      _ ← fail_if (negb (blen (bt_PkScript boardTree) =? 34) || (bt_PkScript boardTree != vbo_BoardingScript operation))
            (ErrMsg "vault-board-v1 final boarding policy");
      forfeit ← pinned_forfeit network expectedExpiry;
      finalPacket ← parseCanonicalVaultBoardPSBT (be_SignedCommitmentPSBT evidence) maxVaultBoardProofBytes;
      unsignedPacket ← parseCanonicalVaultBoardPSBT (be_UnsignedCommitmentPSBT evidence) maxVaultBoardProofBytes;
      let tx := pk_UnsignedTx finalPacket in
      _ ← fail_if (tx_TxHash tx != tx_TxHash (pk_UnsignedTx unsignedPacket)) (ErrMsg "vault-board-v1 final commitment txid changed");
      _ ← fail_if (negb (ut_Version tx =? 2)) (ErrMsg "vault-board-v1 final commitment version got=%d want=2");
      _ ← fail_if (negb (ut_LockTime tx =? 0)) (ErrMsg "vault-board-v1 final commitment locktime got=%d want=0");
      _ ← final_input finalPacket operation boardTree (Z.to_nat idx);
      '(flat, txTree) ← final_tree evidence unsignedPacket forfeit expectedExpiry;
      '(receiverTxid, receiverVout) ← findExactVaultBoardReceiver txTree (vbo_ReceiverScript operation) (br_AmountSats recipient);
      digest ← vaultBoardFinalRequestDigest evidence flat;
      Ok {| bf_CanonicalPSBT := be_SignedCommitmentPSBT evidence; bf_RequestDigest := digest; bf_InputIndex := idx;
            bf_CommitmentTxid := tx_TxHash tx; bf_ReceiverTxid := receiverTxid; bf_ReceiverVout := receiverVout |}
  | _ => Err (ErrMsg "vault-board-v1 final batch policy")
  end.
End Final.

(** ** What is accepted *)
Section Sound.
Context `{Btc} `{Secp} `{ArkScript} `{Txscript} `{ArkTree} `{ArkIntent}.

Definition board_input (packet : Packet) (operation : VaultBoardOperation) (tree : vtxoBoardTree) (i : nat) (txin : TxIn)
    (value : Z) : Prop :=
  signed_input packet i txin value (vbo_BoardingScript operation) (bt_Collaborative tree) (bt_ControlBlock tree)
    (SerializePubKey (bt_BoardingPub tree)) SigHashAll.

Lemma board_proof_input_Ok packet operation tree i txin input :
  board_proof_input packet operation tree (i, (txin, input)) = Ok tt ->
  ut_TxIn (pk_UnsignedTx packet) !! i = Some txin -> pk_Inputs packet !! i = Some input ->
  board_input packet operation tree i txin (if Nat.eqb i 1 then vbo_ValueSats operation else 0) /\
  revealed_tree packet (bt_RevealedScripts tree) i = true /\ bt_PkScript tree = vbo_BoardingScript operation.
Proof.
  unfold board_proof_input. intros E Ht Hi. apply bind_Ok in E as ([] & _ & E).
  destruct (pi_WitnessUtxo input) as [w|] eqn:Ew; [|done]. apply bind_Ok in E as ([] & Ep & E).
  apply bind_Ok in E as ([] & El & E). apply bind_Ok in E as ([] & Es & E).
  apply wrap_err_Ok in El, Es. apply requireExactLeaf_Ok in El. apply requireVerifiedSigners_Ok in Es.
  apply fail_if_Ok in E. apply fail_if_Ok in Ep. bool_hyps.
  assert (bt_PkScript tree = vbo_BoardingScript operation) as Eb by congruence.
  split_and!; [|done|done]. exists input. rewrite <-Eb. split_and!; [done|done| |done|done].
  rewrite Ew, (witness_eta w). f_equal. f_equal; congruence.
Qed.

(** What the proof of either kind shows. *)
Record board_proof (raw message : bytes) (operation : VaultBoardOperation) (tree : vtxoBoardTree) (packet : Packet) : Prop := {
  bpr_canonical : parsePSBT raw = Ok packet /\ psbt_B64Encode packet = Some raw;
  bpr_message : exists u, pk_Unknowns packet = [Some u] /\ un_Value u = message;
  bpr_bip322 : intent_Verify raw message [bt_CosignerPub tree; bt_OperatorPub tree] = true;
  bpr_inputs : exists t0 t1, ut_TxIn (pk_UnsignedTx packet) = [t0; t1] /\ length (pk_Inputs packet) = 2%nat /\
    vaultBoardOutpointMatches operation (ti_PreviousOutPoint t1) = true /\
    board_input packet operation tree 0 t0 0 /\ board_input packet operation tree 1 t1 (vbo_ValueSats operation);
  bpr_output : exists out, ut_TxOut (pk_UnsignedTx packet) = [out];
}.

Lemma proof_shape_Ok raw message operation tree register packet :
  verifyVaultBoardIntentProofShape raw message operation tree register = Ok packet ->
  board_proof raw message operation tree packet /\
  (register = false -> exists out, ut_TxOut (pk_UnsignedTx packet) = [out] /\ to_Value out = 0 /\ to_PkScript out = [byte_of_Z OP_RETURN]).
Proof.
  unfold verifyVaultBoardIntentProofShape. intros E. apply bind_Ok in E as ([] & _ & E). apply bind_Ok in E as (p & Ep & E).
  apply bind_Ok in E as ([] & Ec & E). apply bind_Ok in E as ([] & Eu & E). apply bind_Ok in E as ([] & Es & E).
  apply bind_Ok in E as ([] & Eo & E). apply bind_Ok in E as ([] & Eop & E). apply bind_Ok in E as ([] & Ei & E).
  apply bind_Ok in E as ([] & Ev & E). apply Ok_inj in E as <-. apply fail_if_Ok in Eu, Es, Ev. bool_hyps.
  destruct (indexed_inputs_two p) as (t0 & t1 & i0 & i1 & Et & Epi & Ex); [by apply Nat.eqb_eq..|].
  rewrite Ex in Ei. rewrite Et in Eop. apply each_Ok, Forall_cons in Ei as [E0 [E1 _]%Forall_cons].
  apply fail_if_Ok, negb_false_iff in Eop.
  apply board_proof_input_Ok in E0 as (H0' & _ & _); [|by rewrite Et|by rewrite Epi].
  apply board_proof_input_Ok in E1 as (H1' & _ & _); [|by rewrite Et|by rewrite Epi].
  destruct (ut_TxOut (pk_UnsignedTx p)) as [|out []] eqn:Eout; [done| |by destruct (pk_Outputs p)].
  destruct (pk_Outputs p) as [|? []]; try discriminate. apply fail_if_Ok in Eo.
  split; [constructor; [| |done| |by exists out]|].
  - split; [done|]. unfold b64Encode in Ec. destruct (psbt_B64Encode p); [|done]. apply fail_if_Ok in Ec. bool_hyps. by subst.
  - unfold carries_message in *. destruct (pk_Unknowns p) as [|[u|] []]; try discriminate. bool_hyps. by exists u.
  - exists t0, t1. rewrite Epi. by split_and!.
  - intros ->. simpl in Eo. bool_hyps. by exists out.
Qed.

(** C16: A boarding registration is signed only over the deposit and the vault.  An
    accepted proof is a canonical packet that carries the message and verifies as
    BIP-322; both its inputs have the boarding key's own valid signature, the
    second one spends exactly the operation's deposit; its only output pays the
    vault's receiver script, and what it pays and the fee that is recorded add up
    to the deposit. *)
Theorem board_register_sound raw message operation tree expireAt v :
  verifyVaultBoardRegisterProof raw message operation tree expireAt = Ok v ->
  bp_CanonicalPSBT v = raw /\ exists packet receiver, board_proof raw message operation tree packet /\
    ut_TxOut (pk_UnsignedTx packet) = [receiver] /\ to_PkScript receiver = vbo_ReceiverScript operation /\
    to_Value receiver = bp_ReceiverSats v /\ 0 < bp_ReceiverSats v /\ 0 <= bp_FeeSats v /\
    bp_ReceiverSats v + bp_FeeSats v = vbo_ValueSats operation /\
    vaultBoardIntentRequestDigest VaultBoardPhaseRegister packet message (bp_InputIndexes v) = Ok (bp_RequestDigest v).
Proof.
  unfold verifyVaultBoardRegisterProof. intros E. apply bind_Ok in E as (register & _ & E). apply bind_Ok in E as ([] & _ & E).
  apply bind_Ok in E as (session & _ & E). apply bind_Ok in E as ([] & _ & E). apply bind_Ok in E as (? & _ & E).
  apply bind_Ok in E as (p & Ep & E). apply proof_shape_Ok in Ep as [Hp _].
  destruct (bpr_output _ _ _ _ _ Hp) as [out Eo]. rewrite Eo in E. apply bind_Ok in E as ([] & Er & E).
  apply bind_Ok in E as (digest & Ed & E). apply Ok_inj in E as <-. apply fail_if_Ok in Er. bool_hyps. simpl.
  split; [done|]. exists p, out. split_and!; try done; lia.
Qed.

(** A deletion has no monetary destination. *)
Lemma board_delete_sound raw message operation tree expireAt v :
  verifyVaultBoardDeleteProof raw message operation tree expireAt = Ok v ->
  exists packet out, board_proof raw message operation tree packet /\ ut_TxOut (pk_UnsignedTx packet) = [out] /\
    to_Value out = 0 /\ to_PkScript out = [byte_of_Z OP_RETURN].
Proof.
  unfold verifyVaultBoardDeleteProof. intros E. apply bind_Ok in E as (deletion & _ & E). apply bind_Ok in E as ([] & _ & E).
  apply bind_Ok in E as (p & Ep & _). apply proof_shape_Ok in Ep as [Hp Hd]. destruct (Hd eq_refl) as (out & Ho & Hv & Hs).
  by exists p, out.
Qed.

(** A retry that only re-signs the proof has the same request digest. *)
Lemma board_digest_unsigned `{!PsbtLaws} phase p q message indexes : strip_signatures p = strip_signatures q ->
  is_ok (clonePacket p) = true -> is_ok (clonePacket q) = true ->
  vaultBoardIntentRequestDigest phase p message indexes = vaultBoardIntentRequestDigest phase q message indexes.
Proof.
  intros Es (p' & Ep)%is_ok_true (q' & Eq)%is_ok_true. unfold vaultBoardIntentRequestDigest. rewrite Ep, Eq.
  pose proof (clonePacket_Ok _ _ Ep) as ->. pose proof (clonePacket_Ok _ _ Eq) as ->.
  destruct indexes as [|[|[|]] [|[|[|]] []]]; try done. simpl. by rewrite Es.
Qed.

(** What the batch tree of an accepted final shows. *)
Record batch_tree (supplied flat : FlatTxTree) (t : TxTree) (commitment : Packet) (forfeit : PubKey) (expiry : RelativeLocktime) : Prop := {
  btr_nodes : flat ≡ₚ supplied /\ NoDup (ids flat) /\ arktree_NewTxTree flat = Some t;
  btr_children : forall node i child, node ∈ flat -> tn_Children node !! i = Some child -> child ∈ ids flat;
  btr_policy : arktree_ValidateVtxoTree t commitment forfeit expiry = true;
  btr_output : batch_output t commitment forfeit expiry;
  btr_signed : exists root out outs, sweep_root forfeit expiry = Ok root /\ ut_TxOut (pk_UnsignedTx commitment) = out :: outs /\
    arktree_ValidateTreeSigs root (to_Value out) t = true;
}.

Lemma canonical_tree_Ok supplied flat : canonicalVaultBoardTree supplied = Ok flat ->
  flat ≡ₚ supplied /\ NoDup (ids flat) /\
  forall node i child, node ∈ flat -> tn_Children node !! i = Some child -> child ∈ ids flat.
Proof.
  unfold canonicalVaultBoardTree. intros E. apply bind_Ok in E as (fl & Ec & E). apply bind_Ok in E as ([] & Ee & E).
  apply Ok_inj in E as ->. apply canonical_nodes_Ok in Ec as (Hp & Hd & _). split_and!; [done|done|].
  intros node i child Hn Hc. apply each_Ok in Ee. rewrite Forall_forall in Ee. specialize (Ee _ Hn).
  apply each_Ok in Ee. rewrite Forall_forall in Ee. apply children_elem in Hc. specialize (Ee _ Hc).
  apply fail_if_Ok, negb_false_iff, bool_decide_eq_true in Ee. done.
Qed.

Lemma final_tree_Ok evidence commitment forfeit expiry flat t : final_tree evidence commitment forfeit expiry = Ok (flat, t) ->
  batch_tree (be_VtxoTree evidence) flat t commitment forfeit expiry.
Proof.
  unfold final_tree. intros E. apply bind_Ok in E as (fl & Ec & E). apply bind_Ok in E as (t' & Et & E).
  apply bind_Ok in E as ([] & Ev & E). apply bind_Ok in E as ([] & Eb & E). apply bind_Ok in E as (root & Er & E).
  destruct (ut_TxOut (pk_UnsignedTx commitment)) as [|out outs] eqn:Eo; [done|]. apply bind_Ok in E as ([] & Es & E).
  apply Ok_inj, pair_equal_spec in E as [-> ->]. apply wrap_err_Ok in Et, Eb. apply encoded_Ok in Et. apply fail_if_Ok in Ev, Es.
  apply canonical_tree_Ok in Ec as (Hp & Hd & Hc). apply batch_output_Ok in Eb. bool_hyps.
  constructor; [done|done|done|done|by exists root, out, outs].
Qed.

Lemma pinned_forfeit_Ok network expiry forfeit : pinned_forfeit network expiry = Ok forfeit ->
  exists id raw, IdentityFor network = Ok id /\ rl_Value expiry = id_VtxoTreeExpirySeconds id /\
    hex_decode (id_CheckpointForfeitPubHex id) = Some raw /\ btcec_ParsePubKey raw = Some forfeit.
Proof.
  unfold pinned_forfeit. intros E. destruct (IdentityFor network) as [id|]; [|done]. apply bind_Ok in E as ([] & Ev & E).
  apply bind_Ok in E as (raw & Er & E). apply bind_Ok in E as ([] & _ & E). apply fail_if_Ok in Ev.
  apply or_err_Ok, encoded_Ok in Er. unfold parsed in E. destruct (btcec_ParsePubKey raw) as [pub|] eqn:Ek; [|done]. apply Ok_inj in E as <-.
  bool_hyps. by exists id, raw.
Qed.

(** Only input [idx] spends the boarding script. *)
Definition only_boarding_input (packet : Packet) (script : bytes) (idx : nat) : Prop :=
  forall i input, pk_Inputs packet !! i = Some input ->
    exists witness, pi_WitnessUtxo input = Some witness /\ (to_PkScript witness = script -> i = idx).

Lemma final_input_Ok packet operation tree idx : final_input packet operation tree idx = Ok tt ->
  bt_PkScript tree = vbo_BoardingScript operation ->
  only_boarding_input packet (vbo_BoardingScript operation) idx /\
  exists txin, vaultBoardOutpointMatches operation (ti_PreviousOutPoint txin) = true /\
    signed_input packet idx txin (vbo_ValueSats operation) (vbo_BoardingScript operation) (bt_Collaborative tree)
      (bt_ControlBlock tree) (SerializePubKey (bt_BoardingPub tree)) SigHashDefault.
Proof.
  unfold final_input. intros E Hs. destruct (ut_TxIn (pk_UnsignedTx packet) !! idx) as [txin|] eqn:Et; [|done].
  destruct (pk_Inputs packet !! idx) as [input|] eqn:Ei; [|done]. apply bind_Ok in E as ([] & Eo & E).
  apply bind_Ok in E as ([] & Ea & E). destruct (pi_WitnessUtxo input) as [w|] eqn:Ew; [|done].
  apply bind_Ok in E as ([] & Ep & E). apply bind_Ok in E as ([] & El & E).
  apply wrap_err_Ok in El, E. apply requireExactLeaf_Ok in El. apply requireVerifiedSigners_Ok in E.
  apply fail_if_Ok, negb_false_iff in Eo. apply fail_if_Ok in Ep. bool_hyps. split.
  - intros i input' Hi. apply each_Ok in Ea. rewrite Forall_forall in Ea.
    assert ((i, input') ∈ imap pair (pk_Inputs packet)) as Hin by (apply elem_of_lookup_imap; by exists i, input').
    specialize (Ea _ Hin). simpl in Ea. destruct (pi_WitnessUtxo input') as [w'|]; [|done]. exists w'. split; [done|].
    intros Hw'. apply fail_if_Ok in Ea. rewrite (bool_decide_eq_true_2 _ Hw') in Ea. simpl in Ea. by apply negb_false_iff, Nat.eqb_eq in Ea.
  - exists txin. split; [done|]. exists input. rewrite <-Hs. split_and!; [done|done| |done|done].
    rewrite Ew, (witness_eta w). f_equal. f_equal; congruence.
Qed.

Lemma receiver_evidence_Ok evidence operation register r : receiver_evidence evidence operation register = Ok r ->
  be_Recipients evidence = [r] /\ br_AmountSats r = vba_ReceiverSats register /\ 0 <= vba_FeeSats register /\
  vba_ReceiverSats register + vba_FeeSats register = vbo_ValueSats operation /\ vba_OperationID register = vbo_OperationID operation.
Proof.
  unfold receiver_evidence. intros E. destruct (be_Recipients evidence) as [|r' []]; try discriminate.
  apply bind_Ok in E as ([] & Ef & E). apply Ok_inj in E as ->. apply fail_if_Ok in Ef. bool_hyps. by split_and!; try done; lia.
Qed.

(** C15: A boarding deposit is finalized only into the vault.  The commitment that is
    accepted spends the deposit and no other boarding output, in an input with the
    boarding key's valid signature; the tree that it funds is the supplied one,
    closed under children, valid and completely signed under the sweep policy that
    is pinned for the network, its forfeit key and its expiry; among its leaves
    exactly one output pays the vault's receiver script, with exactly the
    registered amount, and the registered fee is the rest of the deposit. *)
Theorem board_final_sound evidence operation register tree expiry network v :
  verifyVaultBoardFinal evidence operation register tree expiry network = Ok v ->
  exists packet unsigned id raw forfeit flat t out,
    IdentityFor network = Ok id /\ be_BatchExpiry evidence = id_VtxoTreeExpirySeconds id /\
    expiry = {| rl_Type := LocktimeTypeSecond; rl_Value := id_VtxoTreeExpirySeconds id |} /\
    hex_decode (id_CheckpointForfeitPubHex id) = Some raw /\ btcec_ParsePubKey raw = Some forfeit /\
    be_InputIndexes evidence = [bf_InputIndex v] /\ bf_CanonicalPSBT v = be_SignedCommitmentPSBT evidence /\
    parsePSBT (be_SignedCommitmentPSBT evidence) = Ok packet /\ bf_CommitmentTxid v = tx_TxHash (pk_UnsignedTx packet) /\
    parsePSBT (be_UnsignedCommitmentPSBT evidence) = Ok unsigned /\
    tx_TxHash (pk_UnsignedTx unsigned) = bf_CommitmentTxid v /\
    only_boarding_input packet (vbo_BoardingScript operation) (Z.to_nat (bf_InputIndex v)) /\
    (exists txin, vaultBoardOutpointMatches operation (ti_PreviousOutPoint txin) = true /\
      signed_input packet (Z.to_nat (bf_InputIndex v)) txin (vbo_ValueSats operation) (vbo_BoardingScript operation)
        (bt_Collaborative tree) (bt_ControlBlock tree) (SerializePubKey (bt_BoardingPub tree)) SigHashDefault) /\
    batch_tree (be_VtxoTree evidence) flat t unsigned forfeit expiry /\
    receivers t (vbo_ReceiverScript operation) = [(bf_ReceiverTxid v, bf_ReceiverVout v, out)] /\
    to_Value out = vba_ReceiverSats register /\ 0 <= vba_FeeSats register /\
    vba_ReceiverSats register + vba_FeeSats register = vbo_ValueSats operation.
Proof.
  unfold verifyVaultBoardFinal. intros E. destruct (be_InputIndexes evidence) as [|idx []] eqn:Ex; try discriminate.
  apply bind_Ok in E as ([] & Epol & E). apply bind_Ok in E as ([] & Ee & E). apply bind_Ok in E as (r & Er & E).
  apply bind_Ok in E as ([] & Eb & E). apply bind_Ok in E as (forfeit & Ef & E). apply bind_Ok in E as (packet & Ep & E).
  apply bind_Ok in E as (unsigned & Eu & E). apply bind_Ok in E as ([] & Et & E). apply bind_Ok in E as ([] & _ & E).
  apply bind_Ok in E as ([] & _ & E). apply bind_Ok in E as ([] & Ei & E). apply bind_Ok in E as ([flat t] & Etr & E).
  apply bind_Ok in E as ([txid vout] & Erx & E). apply bind_Ok in E as (digest & _ & E). apply Ok_inj in E as <-. simpl.
  apply fail_if_Ok in Ee, Eb, Et. bool_hyps. apply canonical_psbt_Ok in Ep as (Ep & _), Eu as (Eu & _).
  apply final_input_Ok in Ei as [Ho Hi]; [|done]. apply pinned_forfeit_Ok in Ef as (id & raw & Hid & Hv & Hraw & Hkey).
  assert (expiry = {| rl_Type := LocktimeTypeSecond; rl_Value := id_VtxoTreeExpirySeconds id |}) as Hexp.
  { apply fail_if_Ok, orb_false_iff in Epol as [Epol _]. apply orb_false_iff in Epol as [_ Epol].
    destruct expiry as [ty value]. simpl in *. destruct ty; [by rewrite Hv|done]. }
  apply final_tree_Ok in Etr. apply receiver_exact in Erx as (out & Hr & Hval & _).
  apply receiver_evidence_Ok in Er as (_ & Ha & Hfee & Hsum & _).
  exists packet, unsigned, id, raw, forfeit, flat, t, out. split_and!; try done; congruence.
Qed.
End Sound.

(** ** Examples *)
Definition toy_board_leaf : bytes := replicate 31 Byte.x07.
Definition toy_board_script : bytes := toy_control ++ toy_board_leaf.

Definition toy_board_tree : vtxoBoardTree := {|
  bt_BoardingPub := toy_user; bt_CosignerPub := toy_cosigner; bt_OperatorPub := toy_operator; bt_PkScript := toy_board_script;
  bt_Collaborative := toy_board_leaf; bt_ControlBlock := toy_control; bt_RevealedScripts := [toy_board_leaf];
  bt_OnchainAddress := [] |}.

Definition toy_board_operation : VaultBoardOperation := {|
  vbo_OperationID := str "op"; vbo_VaultID := str "vault"; vbo_Txid := be_bytes 32 9; vbo_Vout := 4; vbo_ValueSats := 1000;
  vbo_BoardingScript := toy_board_script; vbo_ReceiverScript := toy_script; vbo_SequenceAnchorMTP := 0; vbo_CreatedAt := [];
  vbo_IntegrityMAC := [] |}.

(** An input of the deposit's script, signed by the boarding key. *)
Definition toy_board_input (value sigHash : Z) : PInput := {|
  pi_WitnessUtxo := Some {| to_Value := value; to_PkScript := toy_board_script |}; pi_SighashType := sigHash;
  pi_TaprootLeafScript := [Some {| tl_ControlBlock := toy_control; tl_Script := toy_board_leaf; tl_LeafVersion := 192 |}];
  pi_TaprootScriptSpendSig := [Some {| ts_XOnlyPubKey := SerializePubKey toy_user; ts_LeafHash := toy_board_leaf;
    ts_Signature := replicate 64 Byte.x05; ts_SigHash := sigHash |}]; pi_Others := [] |}.

Definition toy_txin (id : Z) (index : Z) : TxIn :=
  {| ti_PreviousOutPoint := {| op_Hash := toy_txid id; op_Index := index |}; ti_Sequence := MaxTxInSequenceNum |}.

Definition toy_message : bytes := str "register".
Definition toy_proof : Packet := {|
  pk_UnsignedTx := {| ut_Version := 2; ut_LockTime := 0; ut_TxIn := [toy_txin 8 0; toy_txin 9 4]; ut_TxOut := [toy_out 900] |};
  pk_Inputs := [toy_board_input 0 SigHashAll; toy_board_input 1000 SigHashAll]; pk_Outputs := [[]];
  pk_Unknowns := [Some {| un_Key := [byte_of_Z 9]; un_Value := toy_message |}] |}.

Definition toy_session : bytes := hex_encode toy_user.
Definition toy_intent : ArkIntent := {|
  RegisterMessage_Decode := fun _ => Some {| rm_OnchainOutputIndexes := Some []; rm_ValidAt := 0; rm_ExpireAt := 500;
    rm_CosignersPublicKeys := [toy_session] |};
  RegisterMessage_Encode := fun _ => Some toy_message;
  DeleteMessage_Decode := fun _ => Some {| dm_ExpireAt := 500 |}; DeleteMessage_Encode := fun _ => Some toy_message |}.

Notation toy_register_proof := (@verifyVaultBoardRegisterProof
  (toy_btc [(str "proof", toy_proof); (str "AAAA", strip_signatures toy_proof)]) toy_secp
  (toy_arktree toy_root_tx [toy_leaf_tx] [toy_user] [toy_board_leaf]) toy_intent (str "proof") toy_message
  toy_board_operation toy_board_tree 500).

Lemma toy_registered : exists v, toy_register_proof = Ok v /\ bp_FeeSats v = 100.
Proof. eexists. split; vm_compute; reflexivity. Qed.

Lemma board_register_sound_witness : exists v, toy_register_proof = Ok v /\ bp_FeeSats v = 100 /\
  bp_ReceiverSats v + bp_FeeSats v = 1000.
Proof.
  destruct toy_registered as (v & E & Ef). exists v. split; [exact E|]. split; [exact Ef|].
  destruct (@board_register_sound (toy_btc [(str "proof", toy_proof); (str "AAAA", strip_signatures toy_proof)]) toy_secp
    (toy_arktree toy_root_tx [toy_leaf_tx] [toy_user] [toy_board_leaf]) toy_intent _ _ _ _ _ _ E)
    as (_ & p & r & _ & _ & _ & _ & _ & _ & Hs & _).
  exact Hs.
Defined.

(** The commitment pays 1000 to the batch, whose one leaf pays 1000 to the vault. *)
Definition toy_commitment : Packet := {|
  pk_UnsignedTx := {| ut_Version := 2; ut_LockTime := 0; ut_TxIn := [toy_txin 9 4];
    ut_TxOut := [{| to_Value := 1000; to_PkScript := toy_user |}] |};
  pk_Inputs := [toy_board_input 1000 SigHashDefault]; pk_Outputs := [[]]; pk_Unknowns := [] |}.

Definition toy_final_evidence : vaultBoardFinalEvidence := {|
  be_BatchID := str "batch"; be_BatchExpiry := MutinynetVtxoTreeExpirySeconds; be_SignedCommitmentPSBT := str "commitment";
  be_UnsignedCommitmentPSBT := str "commitment"; be_VtxoTree := toy_nodes;
  be_Recipients := [{| br_Script := toy_script; br_AmountSats := 1000; br_HasAssets := false |}]; be_InputIndexes := [0] |}.

Definition toy_register : VaultBoardAuthorization := {|
  vba_OperationID := str "op"; vba_Attempt := 1; vba_Phase := VaultBoardPhaseRegister; vba_RequestDigest := [];
  vba_TreeSessionPub := []; vba_ReceiverSats := 1000; vba_FeeSats := 0; vba_ExpireAt := 0; vba_CommitmentTxid := [];
  vba_ReceiverTxid := []; vba_ReceiverVout := 0; vba_CreatedAt := []; vba_IntegrityMAC := [] |}.

Definition toy_expiry : RelativeLocktime := {| rl_Type := LocktimeTypeSecond; rl_Value := MutinynetVtxoTreeExpirySeconds |}.

Notation toy_board_final := (@verifyVaultBoardFinal (toy_btc ((str "commitment", toy_commitment) :: toy_tree_table)) toy_secp toy_ark
  toy_txscript (toy_arktree toy_root_tx [toy_leaf_tx] [toy_user] []) toy_final_evidence toy_board_operation toy_register
  toy_board_tree toy_expiry NetworkMutinynet).

Lemma toy_finalized : exists v, toy_board_final = Ok v /\ bf_InputIndex v = 0.
Proof. eexists. split; vm_compute; reflexivity. Qed.

Lemma board_final_sound_witness : exists v, toy_board_final = Ok v /\ bf_InputIndex v = 0 /\
  exists t out, @receivers (toy_btc ((str "commitment", toy_commitment) :: toy_tree_table))
    (toy_arktree toy_root_tx [toy_leaf_tx] [toy_user] []) t toy_script = [(bf_ReceiverTxid v, bf_ReceiverVout v, out)] /\
    to_Value out = 1000.
Proof.
  destruct toy_finalized as (v & E & Ei). exists v. split; [exact E|]. split; [exact Ei|].
  destruct (@board_final_sound (toy_btc ((str "commitment", toy_commitment) :: toy_tree_table)) toy_secp toy_ark
    toy_txscript (toy_arktree toy_root_tx [toy_leaf_tx] [toy_user] []) _ _ _ _ _ _ _ E)
    as (p & u & id & raw & f & flat & t & out & _ & _ & _ & _ & _ & _ & _ & _ & _ & _ & _ & _ & _ & _ & Hr & Hv & _).
  exists t, out. split; [exact Hr|exact Hv].
Defined.
