(* ===== verification/BatchVerify.v ===== *)
(** * Verification of a batch ([src/internal/application/spending_renewal_verify.go], [spending_renewal_final.go], [spending_bitcoin.go], [spending_bitcoin_verify.go], [spending_bitcoin_keys.go])

    A vault takes part in an Operator's batch with one coin: it registers a
    BIP-322 proof with the outputs it expects, and later forfeits the coin against
    a connector of the commitment that pays them.  A renewal expects the same
    coin again, a Bitcoin payment one protected change output and one or two
    outputs of the commitment.  The service signs only after it verified both.

    [batch_final_sound]: a forfeit is accepted only with a batch that pays the
    vault; [bitcoin_payment_signed]: the key of a payment signs verified stages
    of its own plan only. *)
From Stdlib Require Import Strings.Byte.
From S2P Require Import Prelude Sha256 Text Base64 GoTime Json Psbt Btcd Program Deployment Cosigner.
From S2P Require Import Renewal VtxoScript VtxoVerify VtxoTree VtxoService BatchTree BoardVerify RenewalContract.

(** [mustDecodeRenewalHex]: what was decoded before the first error. *)
Fixpoint mustDecodeRenewalHex (encoded : bytes) : bytes :=
  match encoded with
  | a :: b :: rest =>
      match from_hex_char a, from_hex_char b with
      | Some h, Some l => byte_of_Z (h * 16 + l) :: mustDecodeRenewalHex rest
      | _, _ => []
      end
  | _ => []
  end.

(** [arktree] marshals a tree, and [txutils] has the anchor output. *)
Class BatchLib := { FlatTxTree_json : FlatTxTree -> json; AnchorOutput : TxOut }.

Definition max_safe_integer : Z := 9007199254740991.   (* (1<<53)-1 *)

(** ** The plan of a renewal *)
Record spendingRenewalPlan := {
  pl_bitcoinPayment : bool;   (* not marshalled *)
  pl_OperationID : bytes;
  pl_VaultID : bytes;
  pl_DescriptorHash : bytes;
  pl_Txid : bytes;
  pl_Vout : Z;                (* uint32 *)
  pl_ValueSats : Z;
  pl_ReceiverSats : Z;
  pl_FeeSats : Z;
  pl_FeePolicyDigest : bytes;
  pl_RegisterExpireAt : Z;
}.

Definition renewal_plan_json (p : spendingRenewalPlan) : json := JObj
  [(str "operationId", JStr (pl_OperationID p)); (str "vaultId", JStr (pl_VaultID p));
   (str "descriptorHash", JStr (pl_DescriptorHash p)); (str "txid", JStr (pl_Txid p)); (str "vout", jint (pl_Vout p));
   (str "valueSats", jint (pl_ValueSats p)); (str "receiverSats", jint (pl_ReceiverSats p)); (str "feeSats", jint (pl_FeeSats p));
   (str "feePolicyDigest", JStr (pl_FeePolicyDigest p)); (str "registerExpireAt", jint (pl_RegisterExpireAt p))].

Record verifiedSpendingRenewalRegistration := {
  rg_PlanDigest : bytes;
  rg_RequestDigest : bytes;
  rg_TreeSession : bytes;
  rg_CanonicalPSBT : bytes;
  rg_Message : bytes;
}.

Record spendingRenewalFinalEvidence := {
  fe_BatchID : bytes;
  fe_BatchExpiry : Z;   (* uint32 *)
  fe_CommitmentPSBT : bytes;
  fe_VtxoTree : FlatTxTree;
  fe_Connectors : FlatTxTree;
  fe_OwnerForfeitPSBT : bytes;
}.

Record verifiedSpendingRenewalFinal := {
  fv_RequestDigest : bytes;
  fv_CanonicalForfeitPSBT : bytes;
  fv_CommitmentTxid : bytes;
  fv_ReceiverTxid : bytes;
  fv_ReceiverVout : Z;
}.

Section Batch.
Context `{Btc} `{Secp} `{ArkScript} `{Txscript} `{ArkTree} `{ArkIntent} `{PsbtFields} `{BatchLib}.

Definition digestForContract (p : spendingRenewalPlan) (c : renewalContract) : result bytes :=
  let d := rc_Binding c in
  hash ← or_err (ErrMsg "Light renewal identity mismatch") (identityHash c);
  _ ← fail_if ((hash != pl_DescriptorHash p) || (pl_VaultID p != rb_VaultID d) || negb (is_ok (requireTxid (pl_Txid p)))
               || negb (is_ok (requireTxid (pl_FeePolicyDigest p)))) (ErrMsg "Light renewal identity mismatch");
  op ← or_err (ErrMsg "Light renewal amounts or operation mismatch") (encoded (hex_decode (pl_OperationID p)));
  _ ← fail_if (negb (blen op =? 16) || (hex_encode op != pl_OperationID p) || (pl_ValueSats p <=? 0) || (max_money <? pl_ValueSats p)
               || (pl_ReceiverSats p <? 330) || (pl_ValueSats p <? pl_ReceiverSats p) || (pl_FeeSats p <? 0)
               || negb (pl_ValueSats p - pl_ReceiverSats p =? pl_FeeSats p)
               || (sp_AbsoluteFeeCapSats (rb_SpendingPolicy d) <? pl_FeeSats p) || (pl_RegisterExpireAt p <=? 0)
               || (max_safe_integer <? pl_RegisterExpireAt p)) (ErrMsg "Light renewal amounts or operation mismatch");
  Ok (sha256 (domain (str "renewal-plan") ++ json_print (renewal_plan_json p))).

(** ** The proof of a registration or a deletion *)

(** The outputs are the requested ones, in order. *)
Definition same_outputs (outputs outs : list TxOut) : bool :=
  forallb (fun oo : TxOut * TxOut => (to_Value (snd oo) =? to_Value (fst oo)) && (to_PkScript (snd oo) == to_PkScript (fst oo)))
    (zip outputs outs).

(** No revealed tree on the synthetic input, the vault's own on the coin. *)
Definition revealed_fields (packet : Packet) (scripts : list bytes) (i : nat) : result unit :=
  fields ← encoded (GetVtxoTaprootTree packet i);
  match i with
  | O => fail_if (negb (Nat.eqb (length fields) 0)) (ErrMsg "Light renewal synthetic tree")
  | S _ =>
      match fields with
      | [field] => fail_if (field != scripts) (ErrMsg "Light renewal revealed tree changed")
      | _ => Err (ErrMsg "Light renewal revealed tree")
      end
  end.

Definition batch_proof_input (packet : Packet) (plan : spendingRenewalPlan) (tree : vtxoPolicyTree) (owner : bytes)
    (ip : nat * (TxIn * PInput)) : result unit :=
  let '(i, (txin, input)) := ip in
  let value := if Nat.eqb i 1 then pl_ValueSats plan else 0 in
  match pi_WitnessUtxo input with
  | None => Err (ErrMsg "Light renewal prevout %d")
  | Some witness =>
      _ ← fail_if (negb (ti_Sequence txin =? MaxTxInSequenceNum) || negb (to_Value witness =? value)
                   || (to_PkScript witness != tr_PkScript tree)) (ErrMsg "Light renewal prevout %d");
      _ ← wrap_err "Light renewal leaf: %w" (requireExactLeafWithSighash input (tr_PkScript tree) (tr_SpendLeaf tree)
            (tr_SpendControl tree) [owner] SigHashAll);
      _ ← wrap_err "Light renewal owner proof: %w" (requireVerifiedSignersWithSighash packet i [owner] (tr_SpendLeaf tree) SigHashAll);
      revealed_fields packet (tr_RevealedScripts tree) i
  end.

Definition verifySpendingBatchIntentProof (raw message : bytes) (plan : spendingRenewalPlan) (c : renewalContract)
    (outputs : list TxOut) : result unit :=
  _ ← validateTree c;
  tree ← contract_tree c;
  packet ← parseCanonicalVaultBoardPSBT raw maxVaultBoardProofBytes;
  let tx := pk_UnsignedTx packet in
  _ ← fail_if (negb (ut_Version tx =? 2) || negb (ut_LockTime tx =? 0) || negb (Nat.eqb (length (pk_Inputs packet)) 2)
               || negb (Nat.eqb (length (ut_TxIn tx)) 2) || Nat.eqb (length outputs) 0 || Nat.ltb 3 (length outputs)
               || negb (Nat.eqb (length (pk_Outputs packet)) (length outputs))
               || negb (Nat.eqb (length (ut_TxOut tx)) (length outputs)) || negb (carries_message packet message))
        (ErrMsg "Light renewal proof shape");
  _ ← match ut_TxIn tx with
      | [_; txin] => fail_if ((op_Hash (ti_PreviousOutPoint txin) != pl_Txid plan)
                              || negb (op_Index (ti_PreviousOutPoint txin) =? pl_Vout plan))
                       (ErrMsg "Light renewal exact input and receiver required")
      | _ => Err (ErrMsg "index out of range")
      end;
  _ ← fail_if (negb (same_outputs outputs (ut_TxOut tx))) (ErrMsg "batch receiver changed");
  owner ← encoded (hex_decode (rb_OwnerPub (rc_Binding c)));
  _ ← each (batch_proof_input packet plan tree owner) (indexed_inputs packet);
  fail_if (negb (intent_Verify raw message [tr_CosignerPub tree; tr_ArkdPub tree])) (ErrMsg "Light renewal BIP-322 proof: %w").

Definition verifyRenewalIntentProof (raw message : bytes) (plan : spendingRenewalPlan) (c : renewalContract) (receiver : TxOut)
  : result unit :=
  verifySpendingBatchIntentProof raw message plan c [receiver].

(** The key of the tree session: canonical, and a point. *)
Definition tree_session (encoded_key : bytes) (expectedSession : bytes) (e not_a_point : error) : result bytes :=
  session ← or_err e (encoded (hex_decode encoded_key));
  _ ← fail_if (negb (blen session =? 33) || (hex_encode session != encoded_key)) e;
  _ ← fail_if ((0 <? blen expectedSession) && (session != expectedSession)) (ErrMsg "Light delegated tree signer changed");
  _ ← parsed session not_a_point;
  Ok session.

Definition verifyRenewalRegistration (raw message : bytes) (plan : spendingRenewalPlan) (c : renewalContract)
    (validAt expireAt : Z) (expectedSession : bytes) : result verifiedSpendingRenewalRegistration :=
  digest ← digestForContract plan c;
  _ ← or_err (ErrMsg "Light renewal script required") (validateTree c);
  register ← or_err (ErrMsg "Light renewal register message") (encoded (RegisterMessage_Decode message));
  _ ← fail_if (bool_decide (RegisterMessage_Encode register <> Some message) || negb (rm_ExpireAt register =? expireAt)
               || negb (rm_ValidAt register =? validAt) || bool_decide (rm_OnchainOutputIndexes register <> Some [])
               || negb (Nat.eqb (length (rm_CosignersPublicKeys register)) 1)) (ErrMsg "Light renewal registration conditions");
  session ← tree_session (nth 0 (rm_CosignersPublicKeys register) []) expectedSession
               (ErrMsg "Light renewal tree session") (ErrMsg "Light renewal tree session");
  tree ← contract_tree c;
  _ ← verifyRenewalIntentProof raw message plan c {| to_Value := pl_ReceiverSats plan; to_PkScript := tr_PkScript tree |};
  let encoded := json_print (JObj [(str "plan", JStr (hex_encode digest)); (str "psbt", JStr raw); (str "message", JStr message)]) in
  Ok {| rg_PlanDigest := digest; rg_RequestDigest := sha256 (domain (str "renewal-register") ++ encoded);
        rg_TreeSession := session; rg_CanonicalPSBT := raw; rg_Message := message |}.

(** ** The batch *)

(** The first output from index 2 that is not used and is the required one. *)
Definition find_output (outs : list TxOut) (used : list nat) (required : TxOut) : option nat :=
  fst <$> List.find (fun io : nat * TxOut => negb (Nat.ltb (fst io) 2) && negb (bool_decide (fst io ∈ used))
                        && (to_Value (snd io) =? to_Value required) && (to_PkScript (snd io) == to_PkScript required))
            (imap pair outs).

Fixpoint match_outputs (outs : list TxOut) (used : list nat) (onchain : list TxOut) : result (list nat) :=
  match onchain with
  | [] => Ok used
  | required :: onchain =>
      match find_output outs used required with
      | Some i => match_outputs outs (i :: used) onchain
      | None => Err (ErrMsg "batch approval output missing or changed")
      end
  end.

(** A leaf of the receiver: its two cosigners are distinct and one of them is the
    registered session. *)
Definition receiver_session (session receiverTxid : bytes) (leaf : Packet) : result unit :=
  if tx_TxHash (pk_UnsignedTx leaf) != receiverTxid then Ok tt
  else match ParseCosignerKeysFromArkPsbt leaf 0 with
       | Some [k0; k1] => fail_if (negb ((k0 == session) || (k1 == session)) || (drop 1 k0 == drop 1 k1))
                            (ErrMsg "Light renewal receiver session changed")
       | _ => Err (ErrMsg "Light renewal receiver session changed")
       end.

(** The tree that pays the vault. *)
Definition replacement_tree (e : spendingRenewalFinalEvidence) (vtxos : TxTree) (commitment : Packet) (forfeit : PubKey)
    (session script : bytes) (receiverSats : Z) : result (bytes * Z) :=
  let expiry := {| rl_Type := LocktimeTypeSecond; rl_Value := fe_BatchExpiry e |} in
  _ ← fail_if (negb (arktree_ValidateVtxoTree vtxos commitment forfeit expiry)) (ErrMsg "Light renewal replacement tree: %w");
  _ ← verifyVaultBoardBatchOutput vtxos commitment forfeit expiry;
  root ← sweep_root forfeit expiry;
  match ut_TxOut (pk_UnsignedTx commitment) with
  | [] => Err (ErrMsg "index out of range")
  | out :: _ =>
      _ ← fail_if (negb (arktree_ValidateTreeSigs root (to_Value out) vtxos)) (ErrMsg "Light renewal requires signed recovery paths: %w");
      '(txid, vout) ← findExactVaultBoardReceiver vtxos script receiverSats;
      _ ← each (receiver_session session txid) (tree_Leaves vtxos);
      Ok (txid, vout)
  end.

(** The connectors hang on the second output of the commitment. *)
Definition connector_tree (e : spendingRenewalFinalEvidence) (commitment : Packet) : result (FlatTxTree * TxTree) :=
  '(flat, connectors) ← canonicalSpendingRenewalTree (fe_Connectors e);
  _ ← fail_if (negb (tree_Validate connectors)) (ErrMsg "Light renewal connector graph: %w");
  let root := pk_UnsignedTx (tree_Root connectors) in
  match ut_TxIn root, ut_TxOut (pk_UnsignedTx commitment) with
  | rootInput :: _, _ :: funding :: _ =>
      _ ← fail_if ((op_Hash (ti_PreviousOutPoint rootInput) != tx_TxHash (pk_UnsignedTx commitment))
                   || negb (op_Index (ti_PreviousOutPoint rootInput) =? 1)) (ErrMsg "Light renewal connector commitment changed");
      _ ← fail_if (negb (fold_left (fun total out => wrap_int64 (total + to_Value out)) (ut_TxOut root) 0 =? to_Value funding))
            (ErrMsg "Light renewal connector amount changed");
      Ok (flat, connectors)
  | _, _ => Err (ErrMsg "index out of range")
  end.

(** The first output of the connector leaf with this id; of several, the last. *)
Definition find_connector (funding : OutPoint) (connector : option TxOut) (leaf : Packet) : result (option TxOut) :=
  if (op_Hash funding == tx_TxHash (pk_UnsignedTx leaf)) && (op_Index funding =? 0) then
    match ut_TxOut (pk_UnsignedTx leaf) with
    | out :: _ => Ok (Some out)
    | [] => Err (ErrMsg "index out of range")
    end
  else Ok connector.

(** Input [i] of the forfeit spends [want]. *)
Definition forfeit_prevout (packet : Packet) (iw : nat * TxOut) : result unit :=
  let '(i, want) := iw in
  match ut_TxIn (pk_UnsignedTx packet) !! i, pk_Inputs packet !! i with
  | Some txin, Some input =>
      match pi_WitnessUtxo input with
      | None => Err (ErrMsg "Light renewal forfeit prevout %d")
      | Some utxo => fail_if (negb (ti_Sequence txin =? MaxTxInSequenceNum) || negb (to_Value utxo =? to_Value want)
                              || (to_PkScript utxo != to_PkScript want)) (ErrMsg "Light renewal forfeit prevout %d")
      end
  | _, _ => Err (ErrMsg "index out of range")
  end.

Definition connector_unsigned (input : PInput) : bool :=
  let f := input_fields input in
  Nat.eqb (length (pi_TaprootScriptSpendSig input)) 0 && (blen (if_TaprootKeySpendSig f) =? 0)
  && Nat.eqb (length (if_PartialSigs f)) 0 && (blen (if_FinalScriptWitness f) =? 0)
  && Nat.eqb (length (pi_TaprootLeafScript input)) 0.

(** [OP_0] and the 20-byte hash of the forfeit key. *)
Definition forfeit_script (forfeit : bytes) : bytes := [byte_of_Z 0; byte_of_Z 20] ++ btcutil_Hash160 forfeit.

(** The owner's forfeit of the coin. *)
Definition verify_forfeit (e : spendingRenewalFinalEvidence) (plan : spendingRenewalPlan) (c : renewalContract) (tree : vtxoPolicyTree)
    (connectors : TxTree) (forfeit : PubKey) (ownerSighash : Z) : result unit :=
  p ← parseCanonicalVaultBoardPSBT (fe_OwnerForfeitPSBT e) maxVaultBoardProofBytes;
  let tx := pk_UnsignedTx p in
  _ ← fail_if (negb (ut_Version tx =? 3) || negb (ut_LockTime tx =? 0) || negb (Nat.eqb (length (pk_Inputs p)) 2)
               || negb (Nat.eqb (length (ut_TxIn tx)) 2) || negb (Nat.eqb (length (pk_Outputs p)) 2)
               || negb (Nat.eqb (length (ut_TxOut tx)) 2) || negb (Nat.eqb (length (pk_Unknowns p)) 0))
        (ErrMsg "Light renewal forfeit shape");
  match ut_TxIn tx, pk_Inputs p, ut_TxOut tx with
  | [old; funding], [input0; input1], [forfeited; anchor] =>
      _ ← fail_if ((op_Hash (ti_PreviousOutPoint old) != pl_Txid plan) || negb (op_Index (ti_PreviousOutPoint old) =? pl_Vout plan))
            (ErrMsg "Light renewal forfeit input changed");
      found ← fold_res (find_connector (ti_PreviousOutPoint funding)) None (tree_Leaves connectors);
      match found with
      | None => Err (ErrMsg "Light renewal connector leaf")
      | Some connector =>
          _ ← fail_if ((to_Value connector <? 330) || (max_money - pl_ValueSats plan <? to_Value connector))
                (ErrMsg "Light renewal connector leaf");
          _ ← each (forfeit_prevout p)
                [(0%nat, {| to_Value := pl_ValueSats plan; to_PkScript := tr_PkScript tree |}); (1%nat, connector)];
          let owner := mustDecodeRenewalHex (rb_OwnerPub (rc_Binding c)) in
          _ ← requireExactLeafWithSighash input0 (tr_PkScript tree) (tr_SpendLeaf tree) (tr_SpendControl tree) [owner] ownerSighash;
          _ ← requireVerifiedSignersWithSighash p 0 [owner] (tr_SpendLeaf tree) ownerSighash;
          _ ← fail_if (negb (connector_unsigned input1)) (ErrMsg "Light renewal connector must remain unsigned");
          fail_if (negb (to_Value forfeited =? pl_ValueSats plan + to_Value connector - to_Value AnchorOutput)
                   || (to_PkScript forfeited != forfeit_script forfeit) || negb (to_Value anchor =? to_Value AnchorOutput)
                   || (to_PkScript anchor != to_PkScript AnchorOutput)) (ErrMsg "Light renewal forfeit destination or amount")
      end
  | _, _, _ => Err (ErrMsg "index out of range")
  end.

Definition final_evidence_json (e : spendingRenewalFinalEvidence) (flat connectors : FlatTxTree) : json := JObj
  [(str "batchId", JStr (fe_BatchID e)); (str "batchExpiry", jint (fe_BatchExpiry e));
   (str "commitmentPsbt", JStr (fe_CommitmentPSBT e)); (str "vtxoTree", FlatTxTree_json flat);
   (str "connectors", FlatTxTree_json connectors); (str "ownerForfeitPsbt", JStr (fe_OwnerForfeitPSBT e))].

Definition verifySpendingBatchFinal (e : spendingRenewalFinalEvidence) (plan : spendingRenewalPlan) (c : renewalContract)
    (registration : verifiedSpendingRenewalRegistration) (ownerSighash : Z) (digest dom : bytes) (onchain : list TxOut)
  : result verifiedSpendingRenewalFinal :=
  let d := rc_Binding c in
  _ ← validateTree c;
  _ ← fail_if (negb (blen digest =? 32) || (digest != rg_PlanDigest registration) || negb (blen (rg_TreeSession registration) =? 33))
        (ErrMsg "batch registration binding");
  tree ← or_err (ErrMsg "Light renewal batch identity") (contract_tree c);
  _ ← fail_if ((hex_encode (tr_PkScript tree) != rb_ScriptPubKey d) || (blen (fe_BatchID e) =? 0) || (256 <? blen (fe_BatchID e)))
        (ErrMsg "Light renewal batch identity");
  pins ← or_err (ErrMsg "Light renewal batch expiry") (IdentityFor (rb_Network d));
  _ ← fail_if (negb (fe_BatchExpiry e =? id_VtxoTreeExpirySeconds pins)) (ErrMsg "Light renewal batch expiry");
  commitment ← or_err (ErrMsg "Light renewal commitment") (parseCanonicalVaultBoardPSBT (fe_CommitmentPSBT e) maxVaultBoardProofBytes);
  let tx := pk_UnsignedTx commitment in
  _ ← fail_if (negb (ut_Version tx =? 2) || negb (ut_LockTime tx =? 0) || Nat.ltb (length (ut_TxOut tx)) 2)
        (ErrMsg "Light renewal commitment");
  _ ← match_outputs (ut_TxOut tx) [] onchain;
  '(flat, vtxos) ← canonicalSpendingRenewalTree (fe_VtxoTree e);
  forfeit ← parsed (mustDecodeRenewalHex (id_CheckpointForfeitPubHex pins)) (ErrMsg "forfeit key");
  receiver ← replacement_tree e vtxos commitment forfeit (rg_TreeSession registration) (tr_PkScript tree) (pl_ReceiverSats plan);
  '(connectorFlat, connectors) ← connector_tree e commitment;
  _ ← verify_forfeit e plan c tree connectors forfeit ownerSighash;
  let raw := json_print (JObj [(str "plan", JStr (hex_encode digest)); (str "evidence", final_evidence_json e flat connectorFlat)]) in
  Ok {| fv_RequestDigest := sha256 (dom ++ raw); fv_CanonicalForfeitPSBT := fe_OwnerForfeitPSBT e;
        fv_CommitmentTxid := tx_TxHash tx; fv_ReceiverTxid := fst receiver; fv_ReceiverVout := snd receiver |}.

Definition verifyRenewalFinal (e : spendingRenewalFinalEvidence) (plan : spendingRenewalPlan) (c : renewalContract)
    (registration : verifiedSpendingRenewalRegistration) (ownerSighash : Z) : result verifiedSpendingRenewalFinal :=
  digest ← digestForContract plan c;
  verifySpendingBatchFinal e plan c registration ownerSighash digest (domain (str "renewal-final")) [].

(** ** Bitcoin payments *)
Definition bitcoinPaymentDomain : bytes := str "vaulted-vtxo/savings-setup/".

Record bitcoinPaymentOutput := { bo_Script : bytes; bo_AmountSats : Z }.

Record bitcoinPaymentPlan := {
  bp_OperationID : bytes;
  bp_VaultID : bytes;
  bp_DescriptorHash : bytes;
  bp_EnrollmentDigest : bytes;
  bp_Txid : bytes;
  bp_Vout : Z;           (* uint32 *)
  bp_ValueSats : Z;
  bp_ChangeSats : Z;
  bp_ReserveScript : bytes;
  bp_ReserveSats : Z;
  bp_ReserveCount : Z;
  bp_FeeSats : Z;
  bp_FeePolicyDigest : bytes;
  bp_RegisterExpireAt : Z;
  bp_Outputs : list bitcoinPaymentOutput;
}.

Definition bitcoin_output_json (o : bitcoinPaymentOutput) : json := JObj
  [(str "script", JStr (bo_Script o)); (str "amountSats", jint (bo_AmountSats o))].

Definition bitcoin_plan_json (p : bitcoinPaymentPlan) : json := JObj
  ([(str "operationId", JStr (bp_OperationID p)); (str "vaultId", JStr (bp_VaultID p));
    (str "descriptorHash", JStr (bp_DescriptorHash p)); (str "enrollmentDigest", JStr (bp_EnrollmentDigest p));
    (str "txid", JStr (bp_Txid p)); (str "vout", jint (bp_Vout p)); (str "valueSats", jint (bp_ValueSats p));
    (str "changeSats", jint (bp_ChangeSats p)); (str "reserveScript", JStr (bp_ReserveScript p));
    (str "reserveSats", jint (bp_ReserveSats p)); (str "reserveCount", jint (bp_ReserveCount p));
    (str "feeSats", jint (bp_FeeSats p)); (str "feePolicyDigest", JStr (bp_FeePolicyDigest p));
    (str "registerExpireAt", jint (bp_RegisterExpireAt p))]
   ++ match bp_Outputs p with [] => [] | _ => [(str "outputs", JArr (map bitcoin_output_json (bp_Outputs p)))] end).

(** [bitcoinPaymentContext] has the contract as its only field. *)
Definition bitcoinPaymentDigest (phase : bytes) (body : json) : bytes :=
  sha256 (bitcoinPaymentDomain ++ phase ++ str "/v1:" ++ json_print body).

(** The dust limit of a standard script. *)
Definition script_dust (script : bytes) : result Z :=
  match GetScriptClass script with
  | PubKeyHashTy => Ok 546
  | ScriptHashTy => Ok 540
  | WitnessV0PubKeyHashTy | WitnessV0ScriptHashTy | WitnessV1TaprootTy => Ok 330
  | OtherTy => Err (ErrMsg "Bitcoin destination must be a standard payment address")
  end.

(** One output; [amount] is the running total. *)
Definition bitcoin_output (amount : Z) (o : bitcoinPaymentOutput) : result Z :=
  script ← or_err (ErrMsg "Bitcoin destination script is invalid") (encoded (hex_decode (bo_Script o)));
  _ ← fail_if (hex_encode script != bo_Script o) (ErrMsg "Bitcoin destination script is invalid");
  dust ← script_dust script;
  _ ← fail_if ((bo_AmountSats o <? dust) || (max_money <? bo_AmountSats o)) (ErrMsg "Bitcoin payment amount is invalid or below dust");
  Ok (amount + bo_AmountSats o).

Definition validateBitcoinOutputs (outputs : list bitcoinPaymentOutput) : result Z :=
  _ ← fail_if (Nat.eqb (length outputs) 0 || Nat.ltb 2 (length outputs)) (ErrMsg "Bitcoin payment requires one or two outputs");
  amount ← fold_res bitcoin_output 0 outputs;
  _ ← fail_if (max_money <? amount) (ErrMsg "Bitcoin payment amount is too large");
  Ok amount.

Definition principal (p : bitcoinPaymentPlan) : Z :=
  fold_left (fun amount o => wrap_int64 (amount + bo_AmountSats o)) (bp_Outputs p) 0.

(** The method [digest] of the plan. *)
Definition bitcoin_digest (p : bitcoinPaymentPlan) (c : renewalContract) : result bytes :=
  _ ← validateTree c;
  let b := rc_Binding c in
  amount ← validateBitcoinOutputs (bp_Outputs p);
  _ ← canonicalVtxoOperationID (bp_OperationID p);
  _ ← fail_if ((bp_VaultID p != rb_VaultID b) || (bp_DescriptorHash p != rc_DescriptorHash c)
               || (bp_EnrollmentDigest p != []) || (bp_ReserveScript p != []) || negb (bp_ReserveSats p =? 0)
               || negb (bp_ReserveCount p =? 0) || negb (is_ok (requireTxid (bp_Txid p)))
               || negb (is_ok (requireTxid (bp_FeePolicyDigest p))) || (bp_ValueSats p <? 330) || (max_money <? bp_ValueSats p)
               || (bp_ChangeSats p <? 330) || (bp_ValueSats p <? bp_ChangeSats p) || (bp_FeeSats p <? 0) || (5000 <? bp_FeeSats p)
               || (sp_AbsoluteFeeCapSats (rb_SpendingPolicy b) <? bp_FeeSats p)
               || (sp_TxRecipientCapSats (rb_SpendingPolicy b) <? amount)
               || negb (bp_ChangeSats p + amount + bp_FeeSats p =? bp_ValueSats p) || (bp_RegisterExpireAt p <=? 0)
               || (max_safe_integer <? bp_RegisterExpireAt p)) (ErrMsg "Bitcoin payment plan changed or exceeds policy");
  Ok (bitcoinPaymentDigest (str "bitcoin-plan") (bitcoin_plan_json p)).

Definition batchInput (p : bitcoinPaymentPlan) : spendingRenewalPlan := {|
  pl_bitcoinPayment := true; pl_OperationID := []; pl_VaultID := []; pl_DescriptorHash := []; pl_Txid := bp_Txid p;
  pl_Vout := bp_Vout p; pl_ValueSats := bp_ValueSats p; pl_ReceiverSats := bp_ChangeSats p; pl_FeeSats := 0;
  pl_FeePolicyDigest := []; pl_RegisterExpireAt := 0 |}.

(** The change, then the outputs of the plan. *)
Definition bitcoin_outputs (p : bitcoinPaymentPlan) (tree : vtxoPolicyTree) : list TxOut :=
  {| to_Value := bp_ChangeSats p; to_PkScript := tr_PkScript tree |}
  :: map (fun o => {| to_Value := bo_AmountSats o; to_PkScript := mustDecodeRenewalHex (bo_Script o) |}) (bp_Outputs p).

Definition verifyBitcoinPaymentRegistration (raw message : bytes) (p : bitcoinPaymentPlan) (c : renewalContract)
  : result verifiedSpendingRenewalRegistration :=
  digest ← bitcoin_digest p c;
  registration ← encoded (RegisterMessage_Decode message);
  let indexes := default [] (rm_OnchainOutputIndexes registration) in
  _ ← fail_if (bool_decide (RegisterMessage_Encode registration <> Some message) || negb (rm_ValidAt registration =? 0)
               || negb (rm_ExpireAt registration =? bp_RegisterExpireAt p)
               || negb (Nat.eqb (length (rm_CosignersPublicKeys registration)) 1)
               || negb (Nat.eqb (length indexes) (length (bp_Outputs p)))) (ErrMsg "Bitcoin payment register conditions");
  _ ← each (fun ii : nat * Z => fail_if (negb (snd ii =? Z.of_nat (fst ii) + 1)) (ErrMsg "Bitcoin payment onchain output indexes"))
        (imap pair indexes);
  session ← tree_session (nth 0 (rm_CosignersPublicKeys registration) []) [] (ErrMsg "Bitcoin payment tree session") (ErrMsg "pubkey");
  tree ← contract_tree c;
  _ ← verifySpendingBatchIntentProof raw message (batchInput p) c (bitcoin_outputs p tree);
  let request := bitcoinPaymentDigest (str "register") (JObj [(str "psbt", JStr raw); (str "message", JStr message)]) in
  Ok {| rg_PlanDigest := digest; rg_RequestDigest := request; rg_TreeSession := session; rg_CanonicalPSBT := raw;
        rg_Message := message |}.

Definition verifyBitcoinPaymentFinal (e : spendingRenewalFinalEvidence) (p : bitcoinPaymentPlan) (c : renewalContract)
    (r : verifiedSpendingRenewalRegistration) : result verifiedSpendingRenewalFinal :=
  digest ← bitcoin_digest p c;
  tree ← contract_tree c;
  verifySpendingBatchFinal e (batchInput p) c r SigHashDefault digest (bitcoinPaymentDomain ++ str "final/v1:")
    (drop 1 (bitcoin_outputs p tree)).

(** ** Signing *)
Record spendingDelegateIntent := { di_Proof : bytes; di_Message : bytes }.

(** A deletion pays nobody, and never expires. *)
Definition verifyRenewalDelete (r : spendingDelegateIntent) (p : spendingRenewalPlan) (c : renewalContract) : result unit :=
  message ← encoded (DeleteMessage_Decode (di_Message r));
  _ ← fail_if (bool_decide (DeleteMessage_Encode message <> Some (di_Message r)) || negb (dm_ExpireAt message =? 0))
        (ErrMsg "Light delegation delete message");
  verifyRenewalIntentProof (di_Proof r) (di_Message r) p c {| to_Value := 0; to_PkScript := [byte_of_Z OP_RETURN] |}.

(** The key of the contract's scope, with an even public key; [ctx] is
    [ctx.Err()]. *)
Definition withRenewalKey {A} (k : fileBackedVaultKeys) (ctx : result unit) (c : renewalContract) (run : bytes -> result A) : result A :=
  _ ← ctx;
  _ ← validateTree c;
  withMaster k (fun master =>
    key ← deriveVtxoKey master (rc_KeyScope c);
    _ ← fail_if (hex_encode (SerializePubKey (priv_PubKey key)) != rb_CosignerPub (rc_Binding c))
          (ErrMsg "Light delegation scoped key mismatch");
    run (evenYPrivateKey key)).

Record bitcoinPaymentAuthorization := {
  ba_context : renewalContract;
  ba_plan : bitcoinPaymentPlan;
  ba_registrationPSBT : bytes;
  ba_registrationMessage : bytes;
  ba_final : option spendingRenewalFinalEvidence;
  ba_deletion : option spendingDelegateIntent;
}.

(** What is signed: the packet, the inputs and the hash type. *)
Definition payment_stage (r : bitcoinPaymentAuthorization) (registration : verifiedSpendingRenewalRegistration)
  : result (bytes * list nat * Z) :=
  match ba_final r, ba_deletion r with
  | Some final, _ =>
      final ← verifyBitcoinPaymentFinal final (ba_plan r) (ba_context r) registration;
      Ok (fv_CanonicalForfeitPSBT final, [0%nat], SigHashDefault)
  | None, Some deletion =>
      _ ← verifyRenewalDelete deletion (batchInput (ba_plan r)) (ba_context r);
      Ok (di_Proof deletion, [0%nat; 1%nat], SigHashAll)
  | None, None => Ok (rg_CanonicalPSBT registration, [0%nat; 1%nat], SigHashAll)
  end.

(** [ctx] is asked twice: before the key is derived and before it signs. *)
Definition authorizeBitcoinPayment (k : fileBackedVaultKeys) (ctx : nat -> result unit) (r : bitcoinPaymentAuthorization)
  : result bytes :=
  _ ← fail_if (bool_decide (is_Some (ba_final r)) && bool_decide (is_Some (ba_deletion r))) (ErrMsg "Bitcoin payment signing phase conflict");
  registration ← verifyBitcoinPaymentRegistration (ba_registrationPSBT r) (ba_registrationMessage r) (ba_plan r) (ba_context r);
  '(raw, indexes, sighash) ← payment_stage r registration;
  withRenewalKey k (ctx 0%nat) (ba_context r) (fun key =>
    tree ← contract_tree (ba_context r);
    signExactVaultBoardStage (ctx 1%nat) raw key (mustDecodeRenewalHex (rb_CosignerPub (rc_Binding (ba_context r))))
      (tr_SpendLeaf tree) indexes sighash).

(** [bitcoinPaymentAuthorization] of the capabilities. *)
Definition bitcoin_payment_capability (k : option fileBackedVaultKeys) (ctx : nat -> result unit) (r : bitcoinPaymentAuthorization)
  : result bytes :=
  match k with
  | None => Err (ErrMsg "Bitcoin payment capability unavailable")
  | Some k => authorizeBitcoinPayment k ctx r
  end.
End Batch.

(** ** What is accepted *)
Lemma mustDecode_Some encoded raw : hex_decode encoded = Some raw -> mustDecodeRenewalHex encoded = raw.
Proof.
  revert raw. remember (length encoded) as n eqn:En. revert encoded En. induction n as [n IH] using lt_wf_ind.
  intros [|a [|b rest]] -> raw E; try done; [by injection E as <-|]. cbn [hex_decode mustDecodeRenewalHex] in *.
  destruct (from_hex_char a); [|done]. destruct (from_hex_char b); [|done]. destruct (hex_decode rest) as [r|] eqn:Er; [|done].
  injection E as <-. f_equal. apply (IH (length rest)); [simpl; lia|done|done].
Qed.

Lemma same_outputs_eq outputs outs : same_outputs outputs outs = true -> length outs = length outputs -> outs = outputs.
Proof.
  revert outs. induction outputs as [|o outputs IH]; intros [|o' outs] E Hl; try done. unfold same_outputs in E. simpl in E.
  apply andb_prop in E as [E Et]. apply andb_prop in E as [Ev Es]. rewrite (IH outs); [|done|simpl in Hl; lia].
  apply Z.eqb_eq in Ev. apply bool_decide_eq_true in Es. destruct o, o'. simpl in *. by subst.
Qed.

Section Accepted.
Context `{Btc} `{Secp} `{ArkScript} `{Txscript} `{ArkTree} `{ArkIntent} `{PsbtFields} `{BatchLib}.

(** An accepted proof: the canonical packet carries the message and verifies as
    BIP-322, spends exactly the coin of the plan, pays exactly the outputs, and
    the owner signed both inputs. *)
Record batch_proof (raw message : bytes) (plan : spendingRenewalPlan) (c : renewalContract) (t : vtxoPolicyTree)
    (outputs : list TxOut) (packet : Packet) : Prop := {
  bq_packet : parsePSBT raw = Ok packet /\ psbt_B64Encode packet = Some raw;
  bq_message : carries_message packet message = true;
  bq_bip322 : intent_Verify raw message [tr_CosignerPub t; tr_ArkdPub t] = true;
  bq_outputs : ut_TxOut (pk_UnsignedTx packet) = outputs;
  bq_inputs : exists t0 t1 owner, ut_TxIn (pk_UnsignedTx packet) = [t0; t1] /\ length (pk_Inputs packet) = 2%nat /\
    ti_PreviousOutPoint t1 = {| op_Hash := pl_Txid plan; op_Index := pl_Vout plan |} /\
    hex_decode (rb_OwnerPub (rc_Binding c)) = Some owner /\
    signed_input packet 0 t0 0 (tr_PkScript t) (tr_SpendLeaf t) (tr_SpendControl t) owner SigHashAll /\
    signed_input packet 1 t1 (pl_ValueSats plan) (tr_PkScript t) (tr_SpendLeaf t) (tr_SpendControl t) owner SigHashAll;
}.

Lemma batch_proof_input_Ok packet plan t owner i txin input :
  batch_proof_input packet plan t owner (i, (txin, input)) = Ok tt ->
  ut_TxIn (pk_UnsignedTx packet) !! i = Some txin -> pk_Inputs packet !! i = Some input ->
  signed_input packet i txin (if Nat.eqb i 1 then pl_ValueSats plan else 0) (tr_PkScript t) (tr_SpendLeaf t) (tr_SpendControl t)
    owner SigHashAll.
Proof.
  unfold batch_proof_input. intros E Ht Hi. destruct (pi_WitnessUtxo input) as [w|] eqn:Ew; [|done].
  apply bind_Ok in E as ([] & Ef & E). apply bind_Ok in E as ([] & El & E). apply bind_Ok in E as ([] & Es & _).
  apply wrap_err_Ok in El, Es. apply fail_if_Ok in Ef. bool_hyps. by eapply signed_input_Ok.
Qed.

Lemma outpoint_eta (o : OutPoint) : o = {| op_Hash := op_Hash o; op_Index := op_Index o |}.
Proof. by destruct o. Qed.

Lemma batch_intent_Ok raw message plan c outputs : verifySpendingBatchIntentProof raw message plan c outputs = Ok tt ->
  validateTree c = Ok tt /\ exists t packet, contract_tree c = Ok t /\ batch_proof raw message plan c t outputs packet.
Proof.
  unfold verifySpendingBatchIntentProof. intros E. apply bind_Ok in E as ([] & Ev & E). apply bind_Ok in E as (t & Et & E).
  apply bind_Ok in E as (p & Ep & E). apply bind_Ok in E as ([] & Es & E). apply bind_Ok in E as ([] & Eo & E).
  apply bind_Ok in E as ([] & Eout & E). apply bind_Ok in E as (owner & Eow & E). apply bind_Ok in E as ([] & Ei & E).
  split; [done|]. exists t, p. split; [done|]. apply fail_if_Ok in Es, Eout, E. bool_hyps. apply encoded_Ok in Eow.
  apply canonical_psbt_Ok in Ep as (Hp & Hc & _).
  destruct (indexed_inputs_two p) as (t0 & t1 & i0 & i1 & Et2 & Epi & Ex); [by apply Nat.eqb_eq..|].
  rewrite Ex in Ei. rewrite Et2 in Eo. apply fail_if_Ok in Eo. bool_hyps. apply each_Ok, Forall_cons in Ei as [E0 [E1 _]%Forall_cons].
  apply batch_proof_input_Ok in E0; [|by rewrite Et2|by rewrite Epi].
  apply batch_proof_input_Ok in E1; [|by rewrite Et2|by rewrite Epi].
  constructor; try done.
  - apply same_outputs_eq; [done|by apply Nat.eqb_eq].
  - exists t0, t1, owner. rewrite Epi. split_and!; try done. rewrite (outpoint_eta (ti_PreviousOutPoint t1)). by f_equal.
Qed.

(** *** Outputs of the commitment *)
Lemma find_output_Some outs used required i : find_output outs used required = Some i ->
  (2 <= i)%nat /\ i ∉ used /\ outs !! i = Some required.
Proof.
  unfold find_output. intros E. destruct (List.find _ _) as [[j out]|] eqn:Ef; [|done]. injection E as <-.
  apply find_some in Ef as [Hin Hc]. apply list_elem_of_In, elem_of_lookup_imap in Hin as (k & o & [= -> ->] & Ho).
  simpl in Hc. bool_hyps. split; [by apply Nat.ltb_ge|]. split; [done|]. rewrite Ho. f_equal. destruct o, required. simpl in *. by subst.
Qed.

Lemma match_outputs_Ok outs used onchain used' : match_outputs outs used onchain = Ok used' -> NoDup used ->
  exists places, used' = rev places ++ used /\ NoDup used' /\ Forall2 (fun required i => (2 <= i)%nat /\ outs !! i = Some required) onchain places.
Proof.
  revert used. induction onchain as [|required onchain IH]; intros used E Hd; simpl in E.
  { apply Ok_inj in E as <-. exists []. split; [done|]. split; [done|constructor]. }
  destruct (find_output outs used required) as [i|] eqn:Ef; [|done]. apply find_output_Some in Ef as (Hi & Hu & Ho).
  apply IH in E as (places & -> & Hn & Hf); [|by constructor]. exists (i :: places). simpl. rewrite <-app_assoc. split; [done|].
  split; [done|]. by constructor.
Qed.

(** The outputs are in the commitment, at distinct places after the first two. *)
Definition pays_onchain (commitment : Packet) (onchain : list TxOut) : Prop :=
  exists places, NoDup places /\ Forall2 (fun required i => (2 <= i)%nat /\ ut_TxOut (pk_UnsignedTx commitment) !! i = Some required) onchain places.

Lemma match_outputs_pays commitment onchain used :
  match_outputs (ut_TxOut (pk_UnsignedTx commitment)) [] onchain = Ok used -> pays_onchain commitment onchain.
Proof.
  intros E. apply match_outputs_Ok in E as (places & -> & Hn & Hf); [|constructor]. exists places. split; [|done].
  rewrite app_nil_r in Hn. by rewrite <-(Permutation_rev places) in Hn.
Qed.

(** *** The forfeit *)
Record forfeit_ok (e : spendingRenewalFinalEvidence) (plan : spendingRenewalPlan) (c : renewalContract) (t : vtxoPolicyTree)
    (connectors : TxTree) (forfeit : PubKey) (ownerSighash : Z) (p : Packet) (connector : TxOut) : Prop := {
  fo_packet : parsePSBT (fe_OwnerForfeitPSBT e) = Ok p /\ psbt_B64Encode p = Some (fe_OwnerForfeitPSBT e);
  fo_inputs : exists old funding, ut_TxIn (pk_UnsignedTx p) = [old; funding] /\
    ti_PreviousOutPoint old = {| op_Hash := pl_Txid plan; op_Index := pl_Vout plan |} /\
    signed_input p 0 old (pl_ValueSats plan) (tr_PkScript t) (tr_SpendLeaf t) (tr_SpendControl t)
      (mustDecodeRenewalHex (rb_OwnerPub (rc_Binding c))) ownerSighash /\
    exists leaf, leaf ∈ tree_Leaves connectors /\ head (ut_TxOut (pk_UnsignedTx leaf)) = Some connector /\
      ti_PreviousOutPoint funding = {| op_Hash := tx_TxHash (pk_UnsignedTx leaf); op_Index := 0 |};
  fo_outputs : ut_TxOut (pk_UnsignedTx p) =
    [{| to_Value := pl_ValueSats plan + to_Value connector - to_Value AnchorOutput; to_PkScript := forfeit_script forfeit |}; AnchorOutput];
  fo_connector : 330 <= to_Value connector <= max_money - pl_ValueSats plan;
}.

Lemma find_connector_Ok funding found leaves connector : fold_res (find_connector funding) found leaves = Ok (Some connector) ->
  found = Some connector \/ exists leaf, leaf ∈ leaves /\ head (ut_TxOut (pk_UnsignedTx leaf)) = Some connector /\
    funding = {| op_Hash := tx_TxHash (pk_UnsignedTx leaf); op_Index := 0 |}.
Proof.
  revert found. induction leaves as [|leaf leaves IH]; intros found E; simpl in E; [apply Ok_inj in E as ->; by left|].
  apply bind_Ok in E as (found' & Ef & E). apply IH in E as [->|(leaf' & Hin & Hrest)]; [|right; exists leaf'; split; [by right|done]].
  unfold find_connector in Ef. destruct (_ && _) eqn:Ec; [|apply Ok_inj in Ef as ->; by left].
  destruct (ut_TxOut (pk_UnsignedTx leaf)) as [|out outs] eqn:Eo; [done|]. apply Ok_inj in Ef as [= ->]. bool_hyps.
  right. exists leaf. split; [by left|]. rewrite Eo. split; [done|]. rewrite (outpoint_eta funding). by f_equal.
Qed.

Lemma verify_forfeit_Ok e plan c t connectors forfeit ownerSighash :
  verify_forfeit e plan c t connectors forfeit ownerSighash = Ok tt ->
  exists p connector, forfeit_ok e plan c t connectors forfeit ownerSighash p connector.
Proof.
  unfold verify_forfeit. intros E. apply bind_Ok in E as (p & Ep & E). apply bind_Ok in E as ([] & _ & E).
  destruct (ut_TxIn (pk_UnsignedTx p)) as [|old [|funding [|]]] eqn:Et; try done.
  destruct (pk_Inputs p) as [|input0 [|input1 [|]]] eqn:Ei; try done.
  destruct (ut_TxOut (pk_UnsignedTx p)) as [|forfeited [|anchor [|]]] eqn:Eo; try done.
  apply bind_Ok in E as ([] & Eold & E). apply bind_Ok in E as ([connector|] & Ec & E); [|done].
  apply bind_Ok in E as ([] & Ev & E). apply bind_Ok in E as ([] & Epr & E). apply bind_Ok in E as ([] & El & E).
  apply bind_Ok in E as ([] & Es & E). apply bind_Ok in E as ([] & _ & E).
  apply canonical_psbt_Ok in Ep as (Hp & Hc & _). apply find_connector_Ok in Ec as [|Hleaf]; [done|].
  apply fail_if_Ok in Eold, Ev, E. bool_hyps. apply each_Ok, Forall_cons in Epr as [E0 _]. unfold forfeit_prevout in E0.
  rewrite Et, Ei in E0. cbn [lookup list_lookup] in E0. destruct (pi_WitnessUtxo input0) as [w|] eqn:Ew; [|done].
  apply fail_if_Ok in E0. bool_hyps. exists p, connector. constructor; try done; try lia.
  - exists old, funding. split; [done|]. split; [rewrite (outpoint_eta (ti_PreviousOutPoint old)); by f_equal|]. split; [|done].
    eapply signed_input_Ok; [by rewrite Et|by rewrite Ei|exact Ew|done|done|done|done].
  - rewrite Eo. destruct forfeited, anchor. destruct AnchorOutput as [av asc]. simpl in *. by subst.
Qed.
(** *** The batch *)
Definition batch_expiry (e : spendingRenewalFinalEvidence) : RelativeLocktime :=
  {| rl_Type := LocktimeTypeSecond; rl_Value := fe_BatchExpiry e |}.

(** Every leaf of the receiver has two distinct cosigners, one of them the
    registered session. *)
Definition session_kept (session : bytes) (vtxos : TxTree) (receiverTxid : bytes) : Prop :=
  forall leaf, leaf ∈ tree_Leaves vtxos -> tx_TxHash (pk_UnsignedTx leaf) = receiverTxid ->
    exists k0 k1, ParseCosignerKeysFromArkPsbt leaf 0 = Some [k0; k1] /\ (k0 = session \/ k1 = session) /\
      SerializePubKey k0 <> SerializePubKey k1.

(** The tree is valid under the sweep policy of [forfeit], signed, and pays the
    script once, with the amount, in a leaf of the session. *)
Record tree_pays (e : spendingRenewalFinalEvidence) (vtxos : TxTree) (commitment : Packet) (forfeit : PubKey)
    (session script : bytes) (amount : Z) (txid : bytes) (vout : Z) : Prop := {
  tp_policy : arktree_ValidateVtxoTree vtxos commitment forfeit (batch_expiry e) = true /\
    batch_output vtxos commitment forfeit (batch_expiry e);
  tp_signed : exists root out, sweep_root forfeit (batch_expiry e) = Ok root /\
    head (ut_TxOut (pk_UnsignedTx commitment)) = Some out /\ arktree_ValidateTreeSigs root (to_Value out) vtxos = true;
  tp_receiver : exists out, receivers vtxos script = [(txid, vout, out)] /\ to_Value out = amount;
  tp_session : session_kept session vtxos txid;
}.

Lemma receiver_session_Ok session txid leaf : receiver_session session txid leaf = Ok tt ->
  tx_TxHash (pk_UnsignedTx leaf) = txid ->
  exists k0 k1, ParseCosignerKeysFromArkPsbt leaf 0 = Some [k0; k1] /\ (k0 = session \/ k1 = session) /\
    SerializePubKey k0 <> SerializePubKey k1.
Proof.
  unfold receiver_session. intros E Ht. rewrite (bool_decide_eq_true_2 _ Ht) in E. simpl in E.
  destruct (ParseCosignerKeysFromArkPsbt leaf 0) as [[|k0 [|k1 []]]|]; try done. apply fail_if_Ok, orb_false_iff in E as [Eo Ed].
  exists k0, k1. split; [done|]. apply negb_false_iff, orb_prop in Eo. bool_hyps. split; [|done].
  destruct Eo as [Eo|Eo]; apply bool_decide_eq_true in Eo; auto.
Qed.

Lemma replacement_tree_Ok e vtxos commitment forfeit session script amount txid vout :
  replacement_tree e vtxos commitment forfeit session script amount = Ok (txid, vout) ->
  tree_pays e vtxos commitment forfeit session script amount txid vout.
Proof.
  unfold replacement_tree. intros E. apply bind_Ok in E as ([] & Ev & E). apply bind_Ok in E as ([] & Eb & E).
  apply bind_Ok in E as (root & Er & E). destruct (ut_TxOut (pk_UnsignedTx commitment)) as [|out outs] eqn:Eo; [done|].
  apply bind_Ok in E as ([] & Es & E). apply bind_Ok in E as ([txid' vout'] & Ex & E). apply bind_Ok in E as ([] & El & E).
  apply Ok_inj, pair_equal_spec in E as [-> ->]. apply fail_if_Ok in Ev, Es. bool_hyps. apply batch_output_Ok in Eb.
  apply receiver_exact in Ex as (o & Hr & Hv & _). apply each_Ok in El. rewrite Forall_forall in El. constructor.
  - done.
  - exists root, out. by rewrite Eo.
  - by exists o.
  - intros leaf Hl. by apply receiver_session_Ok, El.
Qed.

(** The connectors hang on the second output of the commitment. *)
Definition connectors_funded (e : spendingRenewalFinalEvidence) (commitment : Packet) (connectors : TxTree) : Prop :=
  tree_Validate connectors = true /\ exists rootInput, head (ut_TxIn (pk_UnsignedTx (tree_Root connectors))) = Some rootInput /\
    ti_PreviousOutPoint rootInput = {| op_Hash := tx_TxHash (pk_UnsignedTx commitment); op_Index := 1 |}.

Lemma connector_tree_Ok e commitment flat connectors : connector_tree e commitment = Ok (flat, connectors) ->
  canonicalSpendingRenewalTree (fe_Connectors e) = Ok (flat, connectors) /\ connectors_funded e commitment connectors.
Proof.
  unfold connector_tree. intros E. apply bind_Ok in E as ([fl cs] & Ec & E). apply bind_Ok in E as ([] & Ev & E).
  destruct (ut_TxIn (pk_UnsignedTx (tree_Root cs))) as [|ri ris] eqn:Er; [done|].
  destruct (ut_TxOut (pk_UnsignedTx commitment)) as [|? [|? ?]]; try done. apply bind_Ok in E as ([] & Eh & E).
  apply bind_Ok in E as ([] & _ & E). apply Ok_inj, pair_equal_spec in E as [-> ->]. apply fail_if_Ok in Ev, Eh. bool_hyps.
  split; [done|]. split; [done|]. exists ri. rewrite Er. split; [done|]. rewrite (outpoint_eta (ti_PreviousOutPoint ri)). by f_equal.
Qed.

Record batch_final (e : spendingRenewalFinalEvidence) (plan : spendingRenewalPlan) (c : renewalContract) (t : vtxoPolicyTree)
    (session : bytes) (ownerSighash : Z) (onchain : list TxOut) (v : verifiedSpendingRenewalFinal) : Prop := {
  bn_batch : exists commitment pins forfeit flat vtxos,
    parsePSBT (fe_CommitmentPSBT e) = Ok commitment /\ fv_CommitmentTxid v = tx_TxHash (pk_UnsignedTx commitment) /\
    IdentityFor (rb_Network (rc_Binding c)) = Ok pins /\ fe_BatchExpiry e = id_VtxoTreeExpirySeconds pins /\
    btcec_ParsePubKey (mustDecodeRenewalHex (id_CheckpointForfeitPubHex pins)) = Some forfeit /\
    pays_onchain commitment onchain /\ canonicalSpendingRenewalTree (fe_VtxoTree e) = Ok (flat, vtxos) /\
    tree_pays e vtxos commitment forfeit session (tr_PkScript t) (pl_ReceiverSats plan) (fv_ReceiverTxid v) (fv_ReceiverVout v) /\
    exists connectors p connector, connectors_funded e commitment connectors /\
      forfeit_ok e plan c t connectors forfeit ownerSighash p connector;
  bn_forfeit : fv_CanonicalForfeitPSBT v = fe_OwnerForfeitPSBT e;
}.

(** What an accepted final shows, for the proofs of its users. *)
Lemma batch_final_Ok e plan c r ownerSighash digest dom onchain v :
  verifySpendingBatchFinal e plan c r ownerSighash digest dom onchain = Ok v ->
  validateTree c = Ok tt /\ digest = rg_PlanDigest r /\ exists t, contract_tree c = Ok t /\
    batch_final e plan c t (rg_TreeSession r) ownerSighash onchain v.
Proof.
  unfold verifySpendingBatchFinal. intros E. apply bind_Ok in E as ([] & Ev & E). apply bind_Ok in E as ([] & Ed & E).
  apply bind_Ok in E as (t & Et & E). apply bind_Ok in E as ([] & _ & E). apply bind_Ok in E as (pins & Ep & E).
  apply bind_Ok in E as ([] & Ex & E). apply bind_Ok in E as (commitment & Ec & E). apply bind_Ok in E as ([] & _ & E).
  apply bind_Ok in E as (used & Em & E). apply bind_Ok in E as ([flat vtxos] & Etr & E). apply bind_Ok in E as (forfeit & Ef & E).
  apply bind_Ok in E as ([txid vout] & Er & E). apply bind_Ok in E as ([cflat connectors] & Eco & E).
  apply bind_Ok in E as ([] & Efo & E). apply Ok_inj in E as <-. apply or_err_Ok in Et, Ep, Ec. apply fail_if_Ok in Ed, Ex. bool_hyps.
  apply canonical_psbt_Ok in Ec as (Hc & _). apply match_outputs_pays in Em. apply replacement_tree_Ok in Er.
  apply connector_tree_Ok in Eco as [_ Hco]. apply verify_forfeit_Ok in Efo as (p & connector & Hfo).
  split; [done|]. split; [done|]. exists t. split; [done|]. constructor; [|done]. simpl.
  unfold parsed in Ef. destruct (btcec_ParsePubKey _) as [pub|] eqn:Ek; [|done]. apply Ok_inj in Ef as ->.
  exists commitment, pins, forfeit, flat, vtxos. split_and!; try done. by exists connectors, p, connector.
Qed.

(** C13: A coin is forfeited only against a batch that pays for it.  When a final is
    accepted, the commitment has the expected outputs at distinct places after
    its first two; it funds a valid, completely signed tree under the pinned
    sweep policy, in which exactly one leaf output pays the vault's script, with
    exactly the planned amount, in a leaf whose two cosigners are distinct and
    include the registered session; the forfeit spends the planned coin with the
    owner's signature, and a connector of this commitment, and pays their sum less
    the anchor to the pinned forfeit key. *)
Theorem batch_final_sound e plan c r ownerSighash digest dom onchain v :
  verifySpendingBatchFinal e plan c r ownerSighash digest dom onchain = Ok v ->
  digest = rg_PlanDigest r /\ exists t p enc, contract_valid c t p enc /\
    batch_final e plan c t (rg_TreeSession r) ownerSighash onchain v.
Proof.
  intros (Hv & Hd & t & Ht & Hb)%batch_final_Ok. split; [done|]. apply validateTree_Ok in Hv as (t' & p & enc & Hv).
  rewrite (contract_tree_Ok _ _ _ _ Hv) in Ht. apply Ok_inj in Ht as ->. by exists t, p, enc.
Qed.

(** *** Bitcoin payments *)
Record bitcoin_plan_ok (p : bitcoinPaymentPlan) (c : renewalContract) : Prop := {
  bk_vault : bp_VaultID p = rb_VaultID (rc_Binding c) /\ bp_DescriptorHash p = rc_DescriptorHash c;
  bk_count : (1 <= length (bp_Outputs p) <= 2)%nat;
  bk_dust : Forall (fun o => 330 <= bo_AmountSats o <= max_money) (bp_Outputs p);
  bk_fee : 0 <= bp_FeeSats p <= 5000 /\ bp_FeeSats p <= sp_AbsoluteFeeCapSats (rb_SpendingPolicy (rc_Binding c));
  bk_cap : sumZ bo_AmountSats (bp_Outputs p) <= sp_TxRecipientCapSats (rb_SpendingPolicy (rc_Binding c));
  bk_sum : bp_ChangeSats p + sumZ bo_AmountSats (bp_Outputs p) + bp_FeeSats p = bp_ValueSats p /\ 330 <= bp_ChangeSats p;
}.

Lemma bitcoin_outputs_Ok outputs amount total : fold_res bitcoin_output amount outputs = Ok total ->
  total = amount + sumZ bo_AmountSats outputs /\ Forall (fun o => 330 <= bo_AmountSats o <= max_money) outputs.
Proof.
  revert amount. induction outputs as [|o outputs IH]; intros amount E; simpl in E.
  { apply Ok_inj in E as <-. split; [simpl; lia|constructor]. }
  apply bind_Ok in E as (a & Eo & E). unfold bitcoin_output in Eo. apply bind_Ok in Eo as (script & _ & Eo).
  apply bind_Ok in Eo as ([] & _ & Eo). apply bind_Ok in Eo as (dust & Ed & Eo). apply bind_Ok in Eo as ([] & Ef & Eo).
  apply Ok_inj in Eo as <-. apply fail_if_Ok in Ef. bool_hyps. apply IH in E as [-> Hf]. split; [simpl; lia|].
  constructor; [|done]. unfold script_dust in Ed. destruct (GetScriptClass script); try discriminate; apply Ok_inj in Ed as <-; lia.
Qed.

Lemma bitcoin_digest_Ok p c digest : bitcoin_digest p c = Ok digest -> validateTree c = Ok tt /\ bitcoin_plan_ok p c /\
  digest = bitcoinPaymentDigest (str "bitcoin-plan") (bitcoin_plan_json p).
Proof.
  unfold bitcoin_digest. intros E. apply bind_Ok in E as ([] & Ev & E). apply bind_Ok in E as (amount & Ea & E).
  apply bind_Ok in E as (id & _ & E). apply bind_Ok in E as ([] & Ef & E). apply Ok_inj in E as <-. apply fail_if_Ok in Ef.
  unfold validateBitcoinOutputs in Ea. apply bind_Ok in Ea as ([] & El & Ea). apply bind_Ok in Ea as (a & Es & Ea).
  apply bind_Ok in Ea as ([] & _ & Ea). apply Ok_inj in Ea as ->. apply bitcoin_outputs_Ok in Es as [-> Hd].
  apply fail_if_Ok in El. bool_hyps. split; [done|]. split; [|done].
  constructor; try done; try lia; split; (done || lia || (apply Nat.ltb_ge; done) || (destruct (bp_Outputs p); [done|simpl; lia])).
Qed.

Lemma registration_Ok raw message p c r : verifyBitcoinPaymentRegistration raw message p c = Ok r ->
  rg_CanonicalPSBT r = raw /\ bitcoin_digest p c = Ok (rg_PlanDigest r) /\
  exists t packet, contract_tree c = Ok t /\ batch_proof raw message (batchInput p) c t (bitcoin_outputs p t) packet.
Proof.
  unfold verifyBitcoinPaymentRegistration. intros E. apply bind_Ok in E as (digest & Ed & E).
  apply bind_Ok in E as (registration & _ & E). apply bind_Ok in E as ([] & _ & E). apply bind_Ok in E as ([] & _ & E).
  apply bind_Ok in E as (session & _ & E). apply bind_Ok in E as (t & Et & E). apply bind_Ok in E as ([] & Ep & E).
  apply Ok_inj in E as <-. apply batch_intent_Ok in Ep as (_ & t' & packet & Et' & Hp). rewrite Et in Et'. apply Ok_inj in Et' as <-.
  split; [done|]. split; [done|]. by exists t, packet.
Qed.

(** What the key of a payment signs: the registration, the deletion of its coin's
    intent, or the forfeit of its coin. *)
Inductive payment_signs (r : bitcoinPaymentAuthorization) (t : vtxoPolicyTree) : bytes -> list nat -> Z -> Prop :=
  | SignsRegistration packet : ba_final r = None -> ba_deletion r = None ->
      batch_proof (ba_registrationPSBT r) (ba_registrationMessage r) (batchInput (ba_plan r)) (ba_context r) t
        (bitcoin_outputs (ba_plan r) t) packet ->
      payment_signs r t (ba_registrationPSBT r) [0%nat; 1%nat] SigHashAll
  | SignsDeletion d packet : ba_final r = None -> ba_deletion r = Some d ->
      batch_proof (di_Proof d) (di_Message d) (batchInput (ba_plan r)) (ba_context r) t
        [{| to_Value := 0; to_PkScript := [byte_of_Z OP_RETURN] |}] packet ->
      payment_signs r t (di_Proof d) [0%nat; 1%nat] SigHashAll
  | SignsForfeit e session v : ba_final r = Some e -> ba_deletion r = None ->
      batch_final e (batchInput (ba_plan r)) (ba_context r) t session SigHashDefault (drop 1 (bitcoin_outputs (ba_plan r) t)) v ->
      payment_signs r t (fe_OwnerForfeitPSBT e) [0%nat] SigHashDefault.

Lemma with_renewal_key_Ok {A} k ctx c (run : bytes -> result A) a : withRenewalKey k ctx c run = Ok a ->
  exists master key, k = Some master /\ deriveVtxoKey master (rc_KeyScope c) = Ok key /\
    rb_CosignerPub (rc_Binding c) = hex_encode (SerializePubKey (priv_PubKey key)) /\ run (evenYPrivateKey key) = Ok a.
Proof.
  unfold withRenewalKey. intros E. apply bind_Ok in E as ([] & _ & E). apply bind_Ok in E as ([] & _ & E).
  destruct k as [master|]; [|done]. simpl in E. apply bind_Ok in E as (key & Ek & E). apply bind_Ok in E as ([] & Ef & E).
  apply fail_if_Ok in Ef. bool_hyps. by exists master, key.
Qed.

Lemma payment_stage_Ok r registration t raw indexes sighash :
  verifyBitcoinPaymentRegistration (ba_registrationPSBT r) (ba_registrationMessage r) (ba_plan r) (ba_context r) = Ok registration ->
  bool_decide (is_Some (ba_final r)) && bool_decide (is_Some (ba_deletion r)) = false ->
  contract_tree (ba_context r) = Ok t -> payment_stage r registration = Ok (raw, indexes, sighash) ->
  payment_signs r t raw indexes sighash.
Proof.
  intros Er Hc Et E. apply registration_Ok in Er as (Hraw & Hd & t' & packet & Et' & Hp). rewrite Et in Et'. apply Ok_inj in Et' as <-.
  unfold payment_stage in E. destruct (ba_final r) as [e|] eqn:Ee.
  - rewrite bool_decide_eq_true_2 in Hc by (by eexists). simpl in Hc. apply bool_decide_eq_false, eq_None_not_Some in Hc.
    apply bind_Ok in E as (v & Ev & E). apply Ok_inj, pair_equal_spec in E as [[<- <-]%pair_equal_spec <-].
    unfold verifyBitcoinPaymentFinal in Ev. apply bind_Ok in Ev as (digest & _ & Ev). apply bind_Ok in Ev as (t' & Et' & Ev).
    rewrite Et in Et'. apply Ok_inj in Et' as <-. apply batch_final_Ok in Ev as (_ & _ & t' & Et' & Hb).
    rewrite Et in Et'. apply Ok_inj in Et' as <-. rewrite (bn_forfeit _ _ _ _ _ _ _ _ Hb). by eapply SignsForfeit.
  - destruct (ba_deletion r) as [d|] eqn:Ede.
    + apply bind_Ok in E as ([] & Ev & E). apply Ok_inj, pair_equal_spec in E as [[<- <-]%pair_equal_spec <-].
      unfold verifyRenewalDelete in Ev. apply bind_Ok in Ev as (message & _ & Ev). apply bind_Ok in Ev as ([] & _ & Ev).
      apply batch_intent_Ok in Ev as (_ & t' & packet' & Et' & Hb). rewrite Et in Et'. apply Ok_inj in Et' as <-.
      by eapply SignsDeletion.
    + apply Ok_inj, pair_equal_spec in E as [[<- <-]%pair_equal_spec <-]. rewrite Hraw. by eapply SignsRegistration.
Qed.

(** C14: The Guardian's key signs a Bitcoin payment only inside the owner's plan.
    Whatever the capability signs, the plan is of the contract's vault, its change,
    outputs and fee add up to its coin, its outputs respect the per-payment cap
    and its fee both fee caps; the packet is the verified registration, a verified
    deletion of the same coin, or the forfeit of the same coin against a batch
    that pays the change and all outputs; the signatures are by the key of the
    contract's scope, on the listed inputs and nothing else. *)
Theorem bitcoin_payment_signed `{!PsbtLaws} k ctx r s : authorizeBitcoinPayment k ctx r = Ok s ->
  bitcoin_plan_ok (ba_plan r) (ba_context r) /\
  exists t p enc master key raw indexes sighash,
    contract_valid (ba_context r) t p enc /\ k = Some master /\ deriveVtxoKey master (rc_KeyScope (ba_context r)) = Ok key /\
    SerializePubKey (priv_PubKey key) = SerializePubKey (tr_CosignerPub t) /\
    payment_signs r t raw indexes sighash /\
    inputs_signed raw s (SerializePubKey (tr_CosignerPub t)) (tr_SpendLeaf t) indexes sighash.
Proof.
  unfold authorizeBitcoinPayment. intros E. apply bind_Ok in E as ([] & Ec & E). apply bind_Ok in E as (registration & Er & E).
  apply bind_Ok in E as ([[raw indexes] sighash] & Es & E). apply fail_if_Ok in Ec.
  apply with_renewal_key_Ok in E as (master & key & -> & Ek & Eh & E). apply bind_Ok in E as (t & Et & E).
  destruct (registration_Ok _ _ _ _ _ Er) as (_ & Hd & _). apply bitcoin_digest_Ok in Hd as (Hv & Hp & _). split; [done|].
  apply validateTree_Ok in Hv as (t' & p & enc & Hv). rewrite (contract_tree_Ok _ _ _ _ Hv) in Et. apply Ok_inj in Et as ->.
  pose proof (cv_cosigner _ _ _ _ Hv) as [Hc1 Hc2]. rewrite Eh in Hc1. apply (inj hex_encode) in Hc1.
  assert (mustDecodeRenewalHex (rb_CosignerPub (rc_Binding (ba_context r))) = SerializePubKey (tr_CosignerPub t)) as Hm.
  { apply mustDecode_Some. rewrite Eh, hex_decode_encode. congruence. }
  rewrite Hm in E. apply sign_board_stage_spec in E as [_ Hs].
  exists t, p, enc, master, key, raw, indexes, sighash. split_and!; try done; [congruence|].
  eapply payment_stage_Ok; [done|done|by eapply contract_tree_Ok|done].
Qed.
End Accepted.

(** ** Examples *)
Definition toy_vault_script : bytes := byte_of_Z 81 :: byte_of_Z 32 :: drop 1 toy_tap.
Definition toy_leaf_input (value sigHash : Z) (signers : list PubKey) : PInput := {|
  pi_WitnessUtxo := Some {| to_Value := value; to_PkScript := toy_vault_script |}; pi_SighashType := sigHash;
  pi_TaprootLeafScript := [Some {| tl_ControlBlock := toy_control; tl_Script := toy_leaf; tl_LeafVersion := 192 |}];
  pi_TaprootScriptSpendSig := map (fun pub => toy_sig pub sigHash) signers; pi_Others := [] |}.
Definition toy_plain_input (value : Z) (script : bytes) : PInput := {|
  pi_WitnessUtxo := Some {| to_Value := value; to_PkScript := script |}; pi_SighashType := 0; pi_TaprootLeafScript := [];
  pi_TaprootScriptSpendSig := []; pi_Others := [] |}.

(** One coin of 20000: 18000 of change, a payment of 1500, a fee of 500. *)
Definition toy_bitcoin_plan : bitcoinPaymentPlan := {|
  bp_OperationID := hex_encode (be_bytes 16 7); bp_VaultID := str "vault-1"; bp_DescriptorHash := rc_DescriptorHash toy_contract;
  bp_EnrollmentDigest := []; bp_Txid := toy_txid 9; bp_Vout := 4; bp_ValueSats := 20000; bp_ChangeSats := 18000;
  bp_ReserveScript := []; bp_ReserveSats := 0; bp_ReserveCount := 0; bp_FeeSats := 500; bp_FeePolicyDigest := toy_txid 5;
  bp_RegisterExpireAt := 1767225700; bp_Outputs := [{| bo_Script := hex_encode (str "shop"); bo_AmountSats := 1500 |}] |}.

Definition toy_payment_message : bytes := str "message".
Definition toy_registration : Packet := {|
  pk_UnsignedTx := {| ut_Version := 2; ut_LockTime := 0; ut_TxIn := [toy_txin 8 0; toy_txin 9 4];
    ut_TxOut := [{| to_Value := 18000; to_PkScript := toy_vault_script |}; {| to_Value := 1500; to_PkScript := str "shop" |}] |};
  pk_Inputs := [toy_leaf_input 0 SigHashAll [toy_user]; toy_leaf_input 20000 SigHashAll [toy_user]]; pk_Outputs := [[]; []];
  pk_Unknowns := [Some {| un_Key := [byte_of_Z 9]; un_Value := toy_payment_message |}] |}.

(** The batch: the commitment pays the tree, the connector and the shop. *)
Definition toy_batch_commitment : Packet := {|
  pk_UnsignedTx := {| ut_Version := 2; ut_LockTime := 0; ut_TxIn := [toy_txin 7 0];
    ut_TxOut := [{| to_Value := 18000; to_PkScript := toy_user |}; {| to_Value := 330; to_PkScript := str "connector" |};
                 {| to_Value := 1500; to_PkScript := str "shop" |}] |};
  pk_Inputs := [toy_plain_input 20000 []]; pk_Outputs := [[]; []; []]; pk_Unknowns := [] |}.

(** A tree of one node. *)
Definition toy_node (vout : Z) (outs : list TxOut) : Packet := {|
  pk_UnsignedTx := {| ut_Version := 3; ut_LockTime := 0; ut_TxOut := outs;
    ut_TxIn := [{| ti_PreviousOutPoint := {| op_Hash := toy_txid 3; op_Index := vout |}; ti_Sequence := MaxTxInSequenceNum |}] |};
  pk_Inputs := [toy_plain_input 0 []]; pk_Outputs := map (fun _ => []) outs; pk_Unknowns := [] |}.
Definition toy_receiver : Packet := toy_node 0 [{| to_Value := 18000; to_PkScript := toy_vault_script |}].
Definition toy_connector : Packet :=
  toy_node 1 [{| to_Value := 330; to_PkScript := str "connector" |}; {| to_Value := 0; to_PkScript := str "anchor" |}].

Definition toy_forfeit_pub : PubKey := default [] (hex_decode MutinynetCheckpointForfeitPubHex).
Definition toy_forfeit (sigHash : Z) (signers : list PubKey) : Packet := {|
  pk_UnsignedTx := {| ut_Version := 3; ut_LockTime := 0; ut_TxIn := [toy_txin 9 4; toy_txin 2 0];
    ut_TxOut := [{| to_Value := 20330; to_PkScript := [byte_of_Z 0; byte_of_Z 20] ++ take 20 toy_forfeit_pub |};
                 {| to_Value := 0; to_PkScript := str "anchor" |}] |};
  pk_Inputs := [toy_leaf_input 20000 sigHash signers; toy_plain_input 330 (str "connector")]; pk_Outputs := [[]; []];
  pk_Unknowns := [] |}.

Definition toy_batch_table : list (bytes * Packet) :=
  [(str "registration", toy_registration); (str "commitment", toy_batch_commitment); (str "vtxo", toy_receiver);
   (str "connector", toy_connector); (str "forfeit", toy_forfeit SigHashDefault [toy_user]);
   (str "signed", toy_forfeit SigHashDefault [toy_user; toy_cosigner])].

(** The library knows two trees, of one node each. *)
Definition toy_batch_trees : ArkTree := {|
  arktree_NewTxTree := fun flat => match flat with
    | [node] => Some (TxTreeOf (if tn_Tx node == str "connector" then toy_connector else toy_receiver) [])
    | _ => None end;
  arktree_ValidateVtxoTree := fun _ _ _ _ => true; arktree_ValidateTreeSigs := fun _ _ _ => true;
  arktree_AggregateKeys := fun keys _ => head keys; tree_Validate := fun _ => true; tree_Leaves := fun t => [tree_Root t];
  tree_Find := fun t _ => Some t; ParseCosignerKeysFromArkPsbt := fun _ _ => Some [toy_user; toy_operator];
  GetVtxoTaprootTree := fun _ i => Some (match i with O => [] | S _ => [[]] end) |}.

Definition toy_payment_intent : ArkIntent := {|
  RegisterMessage_Decode := fun _ => Some {| rm_OnchainOutputIndexes := Some [1]; rm_ValidAt := 0; rm_ExpireAt := 1767225700;
    rm_CosignersPublicKeys := [toy_session] |};
  RegisterMessage_Encode := fun _ => Some toy_payment_message;
  DeleteMessage_Decode := fun _ => Some {| dm_ExpireAt := 0 |}; DeleteMessage_Encode := fun _ => Some toy_payment_message |}.

Definition toy_no_fields : InputFields := {|
  if_NonWitnessUtxo := None; if_TaprootInternalKey := []; if_TaprootMerkleRoot := []; if_TaprootBip32Derivation := [];
  if_FinalScriptSig := []; if_FinalScriptWitness := []; if_TaprootKeySpendSig := []; if_PartialSigs := [];
  if_RedeemScript := []; if_WitnessScript := []; if_Bip32Derivation := []; if_Unknowns := [] |}.
Definition toy_no_output_fields : OutputFields := {|
  of_RedeemScript := []; of_WitnessScript := []; of_Bip32Derivation := []; of_TaprootInternalKey := [];
  of_TaprootTapTree := []; of_TaprootBip32Derivation := []; of_Unknowns := [] |}.
Definition toy_plain_fields : PsbtFields := {| input_fields := fun _ => toy_no_fields; output_fields := fun _ => toy_no_output_fields |}.

Definition toy_batch_lib : BatchLib := {|
  FlatTxTree_json := fun flat => JArr (map (fun n => JStr (tn_Txid n)) flat);
  AnchorOutput := {| to_Value := 0; to_PkScript := str "anchor" |} |}.

Definition toy_batch_evidence : spendingRenewalFinalEvidence := {|
  fe_BatchID := str "batch"; fe_BatchExpiry := MutinynetVtxoTreeExpirySeconds; fe_CommitmentPSBT := str "commitment";
  fe_VtxoTree := [{| tn_Txid := toy_txid 1; tn_Tx := str "vtxo"; tn_Children := ∅ |}];
  fe_Connectors := [{| tn_Txid := toy_txid 2; tn_Tx := str "connector"; tn_Children := ∅ |}];
  fe_OwnerForfeitPSBT := str "forfeit" |}.

Definition toy_payment_authorization : bitcoinPaymentAuthorization := {|
  ba_context := toy_contract; ba_plan := toy_bitcoin_plan; ba_registrationPSBT := str "registration";
  ba_registrationMessage := toy_payment_message; ba_final := Some toy_batch_evidence; ba_deletion := None |}.

Notation toy_final r := (@verifySpendingBatchFinal (toy_chain toy_batch_table) toy_secp toy_ark toy_txscript toy_batch_trees
  toy_plain_fields toy_batch_lib toy_batch_evidence (batchInput toy_bitcoin_plan) toy_contract r SigHashDefault (rg_PlanDigest r)
  bitcoinPaymentDomain [{| to_Value := 1500; to_PkScript := str "shop" |}]).

Definition toy_registered_payment : verifiedSpendingRenewalRegistration := {|
  rg_PlanDigest := repeat Byte.x01 32; rg_RequestDigest := []; rg_TreeSession := toy_user; rg_CanonicalPSBT := str "registration";
  rg_Message := toy_payment_message |}.

Lemma toy_final_accepted : is_ok (toy_final toy_registered_payment) = true.
Proof. vm_compute. reflexivity. Qed.

Lemma batch_final_sound_witness : exists v, toy_final toy_registered_payment = Ok v /\
  exists t, @batch_final (toy_chain toy_batch_table) toy_secp toy_ark toy_txscript toy_batch_trees toy_batch_lib
    toy_batch_evidence (batchInput toy_bitcoin_plan) toy_contract t toy_user SigHashDefault
    [{| to_Value := 1500; to_PkScript := str "shop" |}] v.
Proof.
  destruct (proj1 (is_ok_true _) toy_final_accepted) as (v & E). exists v. split; [exact E|].
  destruct (@batch_final_sound (toy_chain toy_batch_table) toy_secp toy_ark toy_txscript toy_batch_trees toy_plain_fields toy_batch_lib
    _ _ _ _ _ _ _ _ _ E) as (_ & t & p & enc & _ & Hb).
  exists t. exact Hb.
Defined.

Notation toy_payment_signed := (@authorizeBitcoinPayment (toy_chain toy_batch_table) toy_secp toy_ark toy_txscript toy_batch_trees
  toy_payment_intent toy_plain_fields toy_batch_lib (Some toy_master) (fun _ => Ok tt) toy_payment_authorization).

Lemma toy_signs : toy_payment_signed = Ok (str "signed").
Proof. vm_compute. reflexivity. Qed.

Lemma toy_batch_laws : @PsbtLaws (toy_chain toy_batch_table).
Proof. apply (toy_laws toy_batch_table). apply (bool_decide_eq_true_1 (NoDup (map fst toy_batch_table))). vm_compute. reflexivity. Qed.

Lemma bitcoin_payment_signed_witness : toy_payment_signed = Ok (str "signed") /\
  bp_ChangeSats toy_bitcoin_plan + sumZ bo_AmountSats (bp_Outputs toy_bitcoin_plan) + bp_FeeSats toy_bitcoin_plan = 20000.
Proof.
  split; [exact toy_signs|].
  destruct (@bitcoin_payment_signed (toy_chain toy_batch_table) toy_secp toy_ark toy_txscript toy_batch_trees
    toy_payment_intent toy_plain_fields toy_batch_lib toy_batch_laws _ _ _ _ toy_signs) as (Hp & _).
  exact (proj1 (bk_sum _ _ Hp)).
Defined.
