(* ===== verification/DelegationPlan.v ===== *)
(** * Renewal delegations: requests and plans ([src/internal/application/spending_delegation_request.go], [spending_delegation_verify.go], [spending_delegation_plan.go])

    The owner of a vault authorizes the Guardian to renew its coins later: a set
    of plans, each with a registration proof, a forfeit that leaves the connector
    open, and a deletion proof, all signed by the owner.  The Guardian checks
    every packet before it stores a plan, and a stored plan again before it uses
    it.

    [delegation_request_sound]: an accepted request spends one coin of the vault
    back to the vault; [delegation_set_owner]: every plan of an accepted set, and
    the set, has the owner's signature; [stored_plan_bound]: a stored plan is the
    one that the owner signed and the ledger accounts for. *)
From Stdlib Require Import Strings.Byte.
From S2P Require Import Prelude Sha256 Text Base64 GoTime Json Psbt Btcd Program Deployment Cosigner.
From S2P Require Import Renewal Delegation VtxoScript VtxoVerify VtxoTree VtxoService BatchTree BoardVerify RenewalContract BatchVerify.

Definition SigHashAnyOneCanPay : Z := 128.
(** [txscript.SigHashAll | txscript.SigHashAnyOneCanPay] *)
Definition delegatedOwnerSighash : Z := Z.lor SigHashAll SigHashAnyOneCanPay.
Definition maxSpendingRenewalPlans : Z := 50.

(** ** Requests *)
Record spendingDelegationRequest := {
  dr_VaultID : bytes;
  dr_OperationID : bytes;
  dr_Intent : spendingDelegateIntent;
  dr_ForfeitTxs : option (list bytes);
  dr_DeleteIntent : spendingDelegateIntent;
  dr_ExpiresAt : Z;
  dr_OwnerSignature : bytes;
  dr_Program : bytes;
  dr_DescriptorHash : bytes;
}.

Record spendingDelegationPlan := {
  dp_Request : spendingDelegationRequest;
  dp_Renewal : spendingRenewalPlan;
  dp_ValidAt : Z;
  dp_InputExpiresAt : Z;
}.

Record spendingDelegationInput := {
  dn_OperationID : bytes;
  dn_Intent : spendingDelegateIntent;
  dn_ForfeitTxs : option (list bytes);
  dn_DeleteIntent : spendingDelegateIntent;
  dn_ExpiresAt : Z;
  dn_OwnerSignature : bytes;
}.

Record spendingDelegationAuthorization := {
  dz_CredentialID : bytes;
  dz_ClientDataJSON : bytes;
  dz_AuthenticatorData : bytes;
  dz_Signature : bytes;
  dz_DirectSig : bytes;
}.

Record spendingDelegationSetRequest := {
  dq_Program : bytes;
  dq_DescriptorHash : bytes;
  dq_VaultID : bytes;
  dq_SetID : bytes;
  dq_Plans : list spendingDelegationInput;
  dq_OwnerSignature : bytes;
  dq_Authorization : option spendingDelegationAuthorization;
}.

(** *** JSON *)
Definition strings_value (l : option (list bytes)) : json := match l with Some l => JArr (map JStr l) | None => JNull end.
Definition intent_json (i : spendingDelegateIntent) : json :=
  JObj [(str "proof", JStr (di_Proof i)); (str "message", JStr (di_Message i))].

(** A member that [omitempty] leaves out. *)
Definition nonempty_member (name : string) (s : bytes) : list (bytes * json) :=
  match s with [] => [] | _ => [(str name, JStr s)] end.

Definition delegation_request_json (r : spendingDelegationRequest) : json := JObj
  ([(str "vaultId", JStr (dr_VaultID r)); (str "operationId", JStr (dr_OperationID r)); (str "intent", intent_json (dr_Intent r));
    (str "forfeitTxs", strings_value (dr_ForfeitTxs r)); (str "deleteIntent", intent_json (dr_DeleteIntent r));
    (str "expiresAt", jint (dr_ExpiresAt r)); (str "ownerSignature", JStr (dr_OwnerSignature r))]
   ++ nonempty_member "program" (dr_Program r) ++ nonempty_member "descriptorHash" (dr_DescriptorHash r)).

Definition delegation_plan_json (p : spendingDelegationPlan) : json := JObj
  [(str "request", delegation_request_json (dp_Request p)); (str "renewal", renewal_plan_json (dp_Renewal p));
   (str "validAt", jint (dp_ValidAt p)); (str "inputExpiresAt", jint (dp_InputExpiresAt p))].

Definition delegation_input_json (p : spendingDelegationInput) : json := JObj
  [(str "operationId", JStr (dn_OperationID p)); (str "intent", intent_json (dn_Intent p));
   (str "forfeitTxs", strings_value (dn_ForfeitTxs p)); (str "deleteIntent", intent_json (dn_DeleteIntent p));
   (str "expiresAt", jint (dn_ExpiresAt p)); (str "ownerSignature", JStr (dn_OwnerSignature p))].

(** *** Digests *)
Definition spendingDelegationDigest (purpose : bytes) (body : json) : bytes :=
  sha256 (str "vaulted-vtxo/delegate-" ++ purpose ++ str "/v1:" ++ json_print body).

(** The method [digest] of a set. *)
Definition set_digest (r : spendingDelegationSetRequest) : bytes :=
  spendingDelegationDigest (str "schedule-set") (JObj
    [(str "program", JStr (dq_Program r)); (str "descriptorHash", JStr (dq_DescriptorHash r)); (str "vaultId", JStr (dq_VaultID r));
     (str "setId", JStr (dq_SetID r)); (str "plans", JArr (map delegation_input_json (dq_Plans r)))]).

Definition planDigest (r : spendingDelegationSetRequest) (p : spendingDelegationInput) : bytes :=
  spendingDelegationDigest (str "schedule") (JObj
    [(str "program", JStr (dq_Program r)); (str "descriptorHash", JStr (dq_DescriptorHash r)); (str "vaultId", JStr (dq_VaultID r));
     (str "operationId", JStr (dn_OperationID p)); (str "intent", intent_json (dn_Intent p));
     (str "forfeitTxs", strings_value (dn_ForfeitTxs p)); (str "deleteIntent", intent_json (dn_DeleteIntent p));
     (str "expiresAt", jint (dn_ExpiresAt p))]).

Definition spendingDelegationRequestDigest (r : spendingDelegationRequest) : bytes :=
  let shared := {| dq_Program := dr_Program r; dq_DescriptorHash := dr_DescriptorHash r; dq_VaultID := dr_VaultID r; dq_SetID := [];
                   dq_Plans := []; dq_OwnerSignature := []; dq_Authorization := None |} in
  planDigest shared {| dn_OperationID := dr_OperationID r; dn_Intent := dr_Intent r; dn_ForfeitTxs := dr_ForfeitTxs r;
    dn_DeleteIntent := dr_DeleteIntent r; dn_ExpiresAt := dr_ExpiresAt r; dn_OwnerSignature := dr_OwnerSignature r |}.

(** [json.Unmarshal] of a stored plan. *)
Definition set_nested {T U} (fs : list (field U)) (get : T -> U) (put : U -> T -> T) (v : json) (x : T) : option T :=
  match set_struct fs v (get x) with Some y => Some (put y x) | None => None end.

Definition set_strings {T} (put : option (list bytes) -> T -> T) (v : json) (x : T) : option T :=
  match v with
  | JNull => Some (put None x)
  | JArr l => match json_strings l with Some l => Some (put (Some l) x) | None => None end
  | _ => None
  end.

Definition zero_intent : spendingDelegateIntent := {| di_Proof := []; di_Message := [] |}.
Definition zero_plan : spendingRenewalPlan := {|
  pl_bitcoinPayment := false; pl_OperationID := []; pl_VaultID := []; pl_DescriptorHash := []; pl_Txid := []; pl_Vout := 0;
  pl_ValueSats := 0; pl_ReceiverSats := 0; pl_FeeSats := 0; pl_FeePolicyDigest := []; pl_RegisterExpireAt := 0 |}.
Definition zero_request : spendingDelegationRequest := {|
  dr_VaultID := []; dr_OperationID := []; dr_Intent := zero_intent; dr_ForfeitTxs := None; dr_DeleteIntent := zero_intent;
  dr_ExpiresAt := 0; dr_OwnerSignature := []; dr_Program := []; dr_DescriptorHash := [] |}.
Definition zero_delegation_plan : spendingDelegationPlan := {|
  dp_Request := zero_request; dp_Renewal := zero_plan; dp_ValidAt := 0; dp_InputExpiresAt := 0 |}.

Definition intent_fields : list (field spendingDelegateIntent) :=
  [(str "proof", set_string (fun s i => {| di_Proof := s; di_Message := di_Message i |}));
   (str "message", set_string (fun s i => {| di_Proof := di_Proof i; di_Message := s |}))].

(** One field of a request replaced. *)
Definition dr_with (r : spendingDelegationRequest) (vault op : option bytes) (intent : option spendingDelegateIntent)
    (forfeits : option (option (list bytes))) (delete : option spendingDelegateIntent) (expires : option Z)
    (signature program hash : option bytes) : spendingDelegationRequest := {|
  dr_VaultID := default (dr_VaultID r) vault; dr_OperationID := default (dr_OperationID r) op;
  dr_Intent := default (dr_Intent r) intent; dr_ForfeitTxs := default (dr_ForfeitTxs r) forfeits;
  dr_DeleteIntent := default (dr_DeleteIntent r) delete; dr_ExpiresAt := default (dr_ExpiresAt r) expires;
  dr_OwnerSignature := default (dr_OwnerSignature r) signature; dr_Program := default (dr_Program r) program;
  dr_DescriptorHash := default (dr_DescriptorHash r) hash |}.

Definition request_fields : list (field spendingDelegationRequest) :=
  [(str "vaultId", set_string (fun s r => dr_with r (Some s) None None None None None None None None));
   (str "operationId", set_string (fun s r => dr_with r None (Some s) None None None None None None None));
   (str "intent", set_nested intent_fields dr_Intent (fun i r => dr_with r None None (Some i) None None None None None None));
   (str "forfeitTxs", set_strings (fun l r => dr_with r None None None (Some l) None None None None None));
   (str "deleteIntent", set_nested intent_fields dr_DeleteIntent (fun i r => dr_with r None None None None (Some i) None None None None));
   (str "expiresAt", set_int64 (fun z r => dr_with r None None None None None (Some z) None None None));
   (str "ownerSignature", set_string (fun s r => dr_with r None None None None None None (Some s) None None));
   (str "program", set_string (fun s r => dr_with r None None None None None None None (Some s) None));
   (str "descriptorHash", set_string (fun s r => dr_with r None None None None None None None None (Some s)))].

(** One field of a renewal plan replaced. *)
Definition pl_with (p : spendingRenewalPlan) (op vault hash txid : option bytes) (vout value receiver fee : option Z)
    (policy : option bytes) (expire : option Z) : spendingRenewalPlan := {|
  pl_bitcoinPayment := pl_bitcoinPayment p; pl_OperationID := default (pl_OperationID p) op;
  pl_VaultID := default (pl_VaultID p) vault; pl_DescriptorHash := default (pl_DescriptorHash p) hash;
  pl_Txid := default (pl_Txid p) txid; pl_Vout := default (pl_Vout p) vout; pl_ValueSats := default (pl_ValueSats p) value;
  pl_ReceiverSats := default (pl_ReceiverSats p) receiver; pl_FeeSats := default (pl_FeeSats p) fee;
  pl_FeePolicyDigest := default (pl_FeePolicyDigest p) policy; pl_RegisterExpireAt := default (pl_RegisterExpireAt p) expire |}.

Definition renewal_plan_fields : list (field spendingRenewalPlan) :=
  [(str "operationId", set_string (fun s p => pl_with p (Some s) None None None None None None None None None));
   (str "vaultId", set_string (fun s p => pl_with p None (Some s) None None None None None None None None));
   (str "descriptorHash", set_string (fun s p => pl_with p None None (Some s) None None None None None None None));
   (str "txid", set_string (fun s p => pl_with p None None None (Some s) None None None None None None));
   (str "vout", set_uint32 (fun z p => pl_with p None None None None (Some z) None None None None None));
   (str "valueSats", set_int64 (fun z p => pl_with p None None None None None (Some z) None None None None));
   (str "receiverSats", set_int64 (fun z p => pl_with p None None None None None None (Some z) None None None));
   (str "feeSats", set_int64 (fun z p => pl_with p None None None None None None None (Some z) None None));
   (str "feePolicyDigest", set_string (fun s p => pl_with p None None None None None None None None (Some s) None));
   (str "registerExpireAt", set_int64 (fun z p => pl_with p None None None None None None None None None (Some z)))].

Definition delegation_plan_fields : list (field spendingDelegationPlan) :=
  [(str "request", set_nested request_fields dp_Request
      (fun r p => Build_spendingDelegationPlan r (dp_Renewal p) (dp_ValidAt p) (dp_InputExpiresAt p)));
   (str "renewal", set_nested renewal_plan_fields dp_Renewal
      (fun r p => Build_spendingDelegationPlan (dp_Request p) r (dp_ValidAt p) (dp_InputExpiresAt p)));
   (str "validAt", set_int64 (fun z p => Build_spendingDelegationPlan (dp_Request p) (dp_Renewal p) z (dp_InputExpiresAt p)));
   (str "inputExpiresAt", set_int64 (fun z p => Build_spendingDelegationPlan (dp_Request p) (dp_Renewal p) (dp_ValidAt p) z))].

Definition unmarshal_delegation_plan (raw : bytes) : option spendingDelegationPlan :=
  json_unmarshal delegation_plan_fields zero_delegation_plan raw.

(** ** Verification *)
Section Verify.
Context `{Btc} `{Secp} `{ArkScript} `{Txscript} `{ArkTree} `{ArkIntent} `{BatchLib}.

Definition verifyRenewalOwner (owner digest signature : bytes) : result unit :=
  raw ← or_err (ErrMsg "renewal owner signature encoding") (encoded (hex_decode signature));
  _ ← fail_if (negb (blen raw =? 64) || (hex_encode raw != signature)) (ErrMsg "renewal owner signature encoding");
  keyBytes ← encoded (hex_decode owner);
  _ ← encoded (schnorr_ParsePubKey keyBytes);
  fail_if (negb (schnorr_Verify raw digest keyBytes)) (ErrMsg "renewal owner authorization required").

(** One plan of a set; [seen] are the earlier operations. *)
Definition verify_set_plan (r : spendingDelegationSetRequest) (owner : bytes) (seen : list bytes) (p : spendingDelegationInput)
  : result (list bytes) :=
  _ ← canonicalVtxoOperationID (dn_OperationID p);
  _ ← fail_if (bool_decide (dn_OperationID p ∈ seen) || negb (Nat.eqb (length (default [] (dn_ForfeitTxs p))) 1)
               || (dn_ExpiresAt p <=? 0) || (max_safe_integer <? dn_ExpiresAt p)) (ErrMsg "renewal plan identity or bounds");
  _ ← verifyRenewalOwner owner (planDigest r p) (dn_OwnerSignature p);
  Ok (dn_OperationID p :: seen).

Definition verifyOwner (r : spendingDelegationSetRequest) (binding : spendingRenewalBinding) : result bytes :=
  hash ← binding_digest binding;
  _ ← fail_if ((dq_Program r != rb_Program binding) || (dq_VaultID r != rb_VaultID binding) || (dq_DescriptorHash r != hash))
        (ErrMsg "renewal set enrollment mismatch");
  _ ← canonicalVtxoOperationID (dq_SetID r);
  _ ← fail_if (Nat.eqb (length (dq_Plans r)) 0 || (maxSpendingRenewalPlans <? Z.of_nat (length (dq_Plans r)))) (ErrMsg "renewal set size");
  _ ← fold_res (verify_set_plan r (rb_OwnerPub binding)) [] (dq_Plans r);
  _ ← verifyRenewalOwner (rb_OwnerPub binding) (set_digest r) (dq_OwnerSignature r);
  Ok (set_digest r).

Definition delegationForfeitScript (network : bytes) : result bytes :=
  pins ← IdentityFor network;
  Ok (forfeit_script (mustDecodeRenewalHex (id_CheckpointForfeitPubHex pins))).

(** The forfeit with the open connector: its input is signed by the owner with
    [SIGHASH_ALL | ANYONECANPAY]. *)
Definition verifyRenewalPartialForfeit (raw : bytes) (p : spendingRenewalPlan) (c : renewalContract) (forfeitScript : bytes)
  : result unit :=
  _ ← validateTree c;
  tree ← contract_tree c;
  tx ← parseCanonicalVaultBoardPSBT raw maxVaultBoardProofBytes;
  let utx := pk_UnsignedTx tx in
  _ ← fail_if (negb (ut_Version utx =? 3) || negb (ut_LockTime utx =? 0) || negb (Nat.eqb (length (pk_Inputs tx)) 1)
               || negb (Nat.eqb (length (ut_TxIn utx)) 1) || negb (Nat.eqb (length (pk_Outputs tx)) 2)
               || negb (Nat.eqb (length (ut_TxOut utx)) 2) || negb (Nat.eqb (length (pk_Unknowns tx)) 0))
        (ErrMsg "Light delegated forfeit shape");
  match ut_TxIn utx, pk_Inputs tx, ut_TxOut utx with
  | [txin], [input], [forfeited; anchor] =>
      _ ← fail_if ((op_Hash (ti_PreviousOutPoint txin) != pl_Txid p) || negb (op_Index (ti_PreviousOutPoint txin) =? pl_Vout p)
                   || negb (ti_Sequence txin =? MaxTxInSequenceNum)
                   || match pi_WitnessUtxo input with
                      | Some utxo => negb (to_Value utxo =? pl_ValueSats p) || (to_PkScript utxo != tr_PkScript tree)
                      | None => true
                      end) (ErrMsg "Light delegated forfeit input");
      _ ← fail_if (negb (to_Value forfeited =? wrap_int64 (pl_ValueSats p + 330 - to_Value AnchorOutput))
                   || (to_PkScript forfeited != forfeitScript) || negb (to_Value anchor =? to_Value AnchorOutput)
                   || (to_PkScript anchor != to_PkScript AnchorOutput)) (ErrMsg "Light delegated forfeit outputs");
      let owner := mustDecodeRenewalHex (rb_OwnerPub (rc_Binding c)) in
      _ ← requireExactLeafWithSighash input (tr_PkScript tree) (tr_SpendLeaf tree) (tr_SpendControl tree) [owner] delegatedOwnerSighash;
      requireVerifiedSignersWithSighash tx 0 [owner] (tr_SpendLeaf tree) delegatedOwnerSighash
  | _, _, _ => Err (ErrMsg "index out of range")
  end.

(** The even lift of the contract's cosigner. *)
Definition even_cosigner (c : renewalContract) : bytes := byte_of_Z 2 :: mustDecodeRenewalHex (rb_CosignerPub (rc_Binding c)).

(** The plan that the registration packet of a request describes. *)
Definition requested_plan (r : spendingDelegationRequest) (hash : bytes) (txin : TxIn) (value receiver : Z) : spendingRenewalPlan := {|
  pl_bitcoinPayment := false; pl_OperationID := dr_OperationID r; pl_VaultID := dr_VaultID r; pl_DescriptorHash := hash;
  pl_Txid := op_Hash (ti_PreviousOutPoint txin); pl_Vout := op_Index (ti_PreviousOutPoint txin); pl_ValueSats := value;
  pl_ReceiverSats := receiver; pl_FeeSats := wrap_int64 (value - receiver); pl_FeePolicyDigest := hex_encode (repeat Byte.x00 32);
  pl_RegisterExpireAt := dr_ExpiresAt r |}.

Definition verifyDelegationRequest (r : spendingDelegationRequest) (c : renewalContract) (forfeitScript : bytes)
  : result spendingDelegationPlan :=
  let d := rc_Binding c in
  _ ← fail_if ((dr_Program r != rb_Program d) || (dr_DescriptorHash r != rc_DescriptorHash c)) (ErrMsg "renewal request context");
  _ ← canonicalVtxoOperationID (dr_OperationID r);
  match dr_ForfeitTxs r with
  | Some [forfeit] =>
      _ ← fail_if ((dr_VaultID r != rb_VaultID d) || (dr_ExpiresAt r <=? 0) || (max_safe_integer <? dr_ExpiresAt r))
            (ErrMsg "Light delegation scope");
      _ ← verifyRenewalOwner (rb_OwnerPub d) (spendingDelegationRequestDigest r) (dr_OwnerSignature r);
      message ← encoded (RegisterMessage_Decode (di_Message (dr_Intent r)));
      _ ← fail_if ((rm_ValidAt message <=? 0) || (max_safe_integer <? rm_ValidAt message) || (dr_ExpiresAt r <=? rm_ValidAt message)
                   || (rm_ValidAt message + 86400 <? dr_ExpiresAt r)) (ErrMsg "Light delegation lifetime");
      p ← parseCanonicalVaultBoardPSBT (di_Proof (dr_Intent r)) maxVaultBoardProofBytes;
      match pk_Inputs p, ut_TxIn (pk_UnsignedTx p), ut_TxOut (pk_UnsignedTx p) with
      | [_; input], [_; txin], [out] =>
          match pi_WitnessUtxo input with
          | None => Err (ErrMsg "Light delegation requires one output")
          | Some utxo =>
              hash ← identityHash c;
              let plan := requested_plan r hash txin (to_Value utxo) (to_Value out) in
              _ ← verifyRenewalRegistration (di_Proof (dr_Intent r)) (di_Message (dr_Intent r)) plan c (rm_ValidAt message)
                    (dr_ExpiresAt r) (even_cosigner c);
              _ ← verifyRenewalPartialForfeit forfeit plan c forfeitScript;
              _ ← verifyRenewalDelete (dr_DeleteIntent r) plan c;
              Ok {| dp_Request := r; dp_Renewal := plan; dp_ValidAt := rm_ValidAt message; dp_InputExpiresAt := 0 |}
          end
      | _, _, _ => Err (ErrMsg "Light delegation requires one output")
      end
  | _ => Err (ErrMsg "Light delegation scope")
  end.

(** A plan read back from the journal. *)
Definition delegationStoredPlanForContract (saved : SpendingDelegationSnapshot) (c : renewalContract) : result spendingDelegationPlan :=
  let o := ds_Operation saved in
  _ ← fail_if ((sd_Program o != rb_Program (rc_Binding c)) || (sd_DescriptorHash o != rc_DescriptorHash c) || (sd_SetID o == []))
        (ErrMsg "renewal journal context");
  p ← encoded (unmarshal_delegation_plan (sd_Plan o));
  let r := dp_Request p in
  _ ← fail_if ((dr_Program r != rb_Program (rc_Binding c)) || (dr_DescriptorHash r != rc_DescriptorHash c))
        (ErrMsg "renewal saved request context");
  let digest := spendingDelegationRequestDigest r in
  _ ← fail_if ((hex_encode digest != sd_PlanDigest o) || (dr_OperationID r != sd_OperationID o) || (dr_VaultID r != sd_VaultID o)
               || negb (dp_ValidAt p =? sd_ValidAt o) || negb (dr_ExpiresAt r =? sd_ExpiresAt o)
               || (pl_Txid (dp_Renewal p) != sd_InputTxid o) || negb (pl_Vout (dp_Renewal p) =? sd_InputVout o)
               || negb (pl_FeeSats (dp_Renewal p) =? sd_FeeSats o)) (ErrMsg "Light delegation journal binding");
  _ ← digestForContract (dp_Renewal p) c;
  _ ← verifyRenewalOwner (rb_OwnerPub (rc_Binding c)) digest (dr_OwnerSignature r);
  Ok p.
End Verify.

(** ** What is accepted *)
Section Accepted.
Context `{Btc} `{Secp} `{ArkScript} `{Txscript} `{ArkTree} `{ArkIntent} `{BatchLib}.

(** [signature] is the owner's over [digest]. *)
Definition owner_signed (owner digest signature : bytes) : Prop :=
  exists raw key pub, signature = hex_encode raw /\ blen raw = 64 /\ hex_decode owner = Some key /\
    schnorr_ParsePubKey key = Some pub /\ schnorr_Verify raw digest key = true.

Lemma verifyRenewalOwner_Ok owner digest signature : verifyRenewalOwner owner digest signature = Ok tt ->
  owner_signed owner digest signature.
Proof.
  unfold verifyRenewalOwner. intros E. apply bind_Ok in E as (raw & _ & E). apply bind_Ok in E as ([] & Ef & E).
  apply bind_Ok in E as (key & Ek & E). apply bind_Ok in E as (pub & Ep & E). apply encoded_Ok in Ek, Ep. apply fail_if_Ok in Ef, E.
  bool_hyps. by exists raw, key, pub.
Qed.

(** A plan within the policy of its contract. *)
Record renewal_plan_ok (p : spendingRenewalPlan) (c : renewalContract) : Prop := {
  rp_vault : pl_VaultID p = rb_VaultID (rc_Binding c) /\ pl_DescriptorHash p = rc_DescriptorHash c;
  rp_value : 0 < pl_ValueSats p <= max_money;
  rp_receiver : 330 <= pl_ReceiverSats p <= pl_ValueSats p;
  rp_fee : pl_FeeSats p = pl_ValueSats p - pl_ReceiverSats p /\
    0 <= pl_FeeSats p <= sp_AbsoluteFeeCapSats (rb_SpendingPolicy (rc_Binding c));
}.

Lemma digestForContract_Ok p c digest : digestForContract p c = Ok digest -> validateTree c = Ok tt /\ renewal_plan_ok p c /\
  digest = sha256 (domain (str "renewal-plan") ++ json_print (renewal_plan_json p)).
Proof.
  unfold digestForContract. intros E. apply bind_Ok in E as (hash & Eh & E). apply bind_Ok in E as ([] & Ei & E).
  apply bind_Ok in E as (op & _ & E). apply bind_Ok in E as ([] & Ef & E). apply Ok_inj in E as <-.
  apply or_err_Ok in Eh. unfold identityHash in Eh. apply bind_Ok in Eh as ([] & Ev & Eh). apply Ok_inj in Eh as <-.
  apply fail_if_Ok in Ei, Ef. bool_hyps. split; [done|]. split; [|done]. constructor; (done || lia || (split; congruence)).
Qed.

Lemma renewal_registration_Ok raw message plan c validAt expireAt session r :
  verifyRenewalRegistration raw message plan c validAt expireAt session = Ok r ->
  rg_CanonicalPSBT r = raw /\ digestForContract plan c = Ok (rg_PlanDigest r) /\
  (0 < blen session -> rg_TreeSession r = session) /\
  exists t packet, contract_tree c = Ok t /\
    batch_proof raw message plan c t [{| to_Value := pl_ReceiverSats plan; to_PkScript := tr_PkScript t |}] packet.
Proof.
  unfold verifyRenewalRegistration. intros E. apply bind_Ok in E as (digest & Ed & E). apply bind_Ok in E as ([] & _ & E).
  apply bind_Ok in E as (register & _ & E). apply bind_Ok in E as ([] & _ & E). apply bind_Ok in E as (session' & Es & E).
  apply bind_Ok in E as (t & Et & E). apply bind_Ok in E as ([] & Ep & E). apply Ok_inj in E as <-.
  apply batch_intent_Ok in Ep as (_ & t' & packet & Et' & Hp). rewrite Et in Et'. apply Ok_inj in Et' as <-.
  split; [done|]. split; [done|]. split; [|by exists t, packet]. intros Hs. simpl. unfold tree_session in Es.
  apply bind_Ok in Es as (s & _ & Es). apply bind_Ok in Es as ([] & _ & Es). apply bind_Ok in Es as ([] & Ex & Es).
  apply bind_Ok in Es as (? & _ & Es). apply Ok_inj in Es as ->. apply fail_if_Ok in Ex.
  rewrite (proj2 (Z.ltb_lt _ _) Hs) in Ex. simpl in Ex. by bool_hyps.
Qed.

Lemma renewal_delete_Ok d plan c : verifyRenewalDelete d plan c = Ok tt ->
  exists t packet, contract_tree c = Ok t /\
    batch_proof (di_Proof d) (di_Message d) plan c t [{| to_Value := 0; to_PkScript := [byte_of_Z OP_RETURN] |}] packet.
Proof.
  unfold verifyRenewalDelete. intros E. apply bind_Ok in E as (message & _ & E). apply bind_Ok in E as ([] & _ & E).
  apply batch_intent_Ok in E as (_ & t & packet & Et & Hp). by exists t, packet.
Qed.

(** The forfeit spends the coin of the plan, with the owner's open signature, to
    the forfeit script, for the coin and a connector of 330 less the anchor. *)
Record partial_forfeit (raw : bytes) (p : spendingRenewalPlan) (c : renewalContract) (t : vtxoPolicyTree) (forfeitScript : bytes)
    (packet : Packet) : Prop := {
  pf_packet : parsePSBT raw = Ok packet;
  pf_input : exists txin, ut_TxIn (pk_UnsignedTx packet) = [txin] /\
    ti_PreviousOutPoint txin = {| op_Hash := pl_Txid p; op_Index := pl_Vout p |} /\
    signed_input packet 0 txin (pl_ValueSats p) (tr_PkScript t) (tr_SpendLeaf t) (tr_SpendControl t)
      (mustDecodeRenewalHex (rb_OwnerPub (rc_Binding c))) delegatedOwnerSighash;
  pf_outputs : ut_TxOut (pk_UnsignedTx packet) =
    [{| to_Value := wrap_int64 (pl_ValueSats p + 330 - to_Value AnchorOutput); to_PkScript := forfeitScript |}; AnchorOutput];
}.

Lemma partial_forfeit_Ok raw p c forfeitScript : verifyRenewalPartialForfeit raw p c forfeitScript = Ok tt ->
  exists t packet, contract_tree c = Ok t /\ partial_forfeit raw p c t forfeitScript packet.
Proof.
  unfold verifyRenewalPartialForfeit. intros E. apply bind_Ok in E as ([] & _ & E). apply bind_Ok in E as (t & Et & E).
  apply bind_Ok in E as (tx & Ep & E). apply bind_Ok in E as ([] & _ & E).
  destruct (ut_TxIn (pk_UnsignedTx tx)) as [|txin []] eqn:Ei; try done.
  destruct (pk_Inputs tx) as [|input []] eqn:Epi; try done.
  destruct (ut_TxOut (pk_UnsignedTx tx)) as [|forfeited [|anchor []]] eqn:Eo; try done.
  apply bind_Ok in E as ([] & Ein & E). apply bind_Ok in E as ([] & Eout & E). apply bind_Ok in E as ([] & El & Es).
  apply canonical_psbt_Ok in Ep as (Hp & _). apply fail_if_Ok in Ein, Eout.
  destruct (pi_WitnessUtxo input) as [utxo|] eqn:Eu; [|by rewrite orb_true_r in Ein]. bool_hyps.
  exists t, tx. split; [done|]. constructor; [done| |].
  - exists txin. split; [done|]. split; [rewrite (outpoint_eta (ti_PreviousOutPoint txin)); by f_equal|].
    eapply signed_input_Ok; [by rewrite Ei|by rewrite Epi|exact Eu|done|done|done|done].
  - rewrite Eo. destruct forfeited, anchor. destruct AnchorOutput as [av asc]. simpl in *. by subst.
Qed.

(** Everything an accepted request was checked for. *)
Record request_ok (r : spendingDelegationRequest) (c : renewalContract) (t : vtxoPolicyTree) (forfeitScript : bytes)
    (p : spendingDelegationPlan) : Prop := {
  rk_plan : renewal_plan_ok (dp_Renewal p) c /\ dp_Request p = r /\ pl_OperationID (dp_Renewal p) = dr_OperationID r;
  rk_owner : owner_signed (rb_OwnerPub (rc_Binding c)) (spendingDelegationRequestDigest r) (dr_OwnerSignature r);
  rk_lifetime : 0 < dp_ValidAt p /\ dp_ValidAt p < dr_ExpiresAt r <= dp_ValidAt p + 86400;
  rk_register : exists packet, batch_proof (di_Proof (dr_Intent r)) (di_Message (dr_Intent r)) (dp_Renewal p) c t
    [{| to_Value := pl_ReceiverSats (dp_Renewal p); to_PkScript := tr_PkScript t |}] packet;
  rk_forfeit : exists raw packet, dr_ForfeitTxs r = Some [raw] /\ partial_forfeit raw (dp_Renewal p) c t forfeitScript packet;
  rk_delete : exists packet, batch_proof (di_Proof (dr_DeleteIntent r)) (di_Message (dr_DeleteIntent r)) (dp_Renewal p) c t
    [{| to_Value := 0; to_PkScript := [byte_of_Z OP_RETURN] |}] packet;
}.

Lemma delegation_request_Ok r c forfeitScript p : verifyDelegationRequest r c forfeitScript = Ok p ->
  exists t, contract_tree c = Ok t /\ validateTree c = Ok tt /\ request_ok r c t forfeitScript p.
Proof.
  unfold verifyDelegationRequest. intros E. apply bind_Ok in E as ([] & _ & E). apply bind_Ok in E as (id & _ & E).
  destruct (dr_ForfeitTxs r) as [[|forfeit []]|] eqn:Ef; try done. apply bind_Ok in E as ([] & _ & E).
  apply bind_Ok in E as ([] & Eow & E). apply bind_Ok in E as (message & _ & E). apply bind_Ok in E as ([] & El & E).
  apply bind_Ok in E as (packet & _ & E). destruct (pk_Inputs packet) as [|? [|input []]]; try done.
  destruct (ut_TxIn (pk_UnsignedTx packet)) as [|synthetic [|txin []]]; try done.
  destruct (ut_TxOut (pk_UnsignedTx packet)) as [|out []]; try done. destruct (pi_WitnessUtxo input) as [utxo|]; [|done].
  apply bind_Ok in E as (hash & _ & E). apply bind_Ok in E as (registration & Er & E). apply bind_Ok in E as ([] & Ep & E).
  apply bind_Ok in E as ([] & Ed & E). apply Ok_inj in E as <-. apply fail_if_Ok in El. bool_hyps.
  apply renewal_registration_Ok in Er as (_ & Hd & _ & t & p1 & Et & Hp). apply digestForContract_Ok in Hd as (Hv & Hplan & _).
  apply partial_forfeit_Ok in Ep as (t' & p2 & Et' & Hf). rewrite Et in Et'. apply Ok_inj in Et' as <-.
  apply renewal_delete_Ok in Ed as (t' & p3 & Et' & Hdel). rewrite Et in Et'. apply Ok_inj in Et' as <-.
  apply verifyRenewalOwner_Ok in Eow. exists t. split; [done|]. split; [done|]. constructor; simpl; try done; try lia.
  - by exists p1.
  - by exists forfeit, p2.
  - by exists p3.
Qed.

(** C17: A renewal that the owner delegates returns the coin to the vault.  The plan
    of an accepted request is of the contract's vault, loses at most the fee cap,
    and is signed by the owner; its registration proof spends exactly the plan's
    coin and pays the rest of it to the vault's own script; its forfeit spends the
    same coin, to the given forfeit script only, with the owner's signature open
    for the connector; its deletion proof spends the same coin and pays nobody. *)
Theorem delegation_request_sound r c forfeitScript p : verifyDelegationRequest r c forfeitScript = Ok p ->
  exists t params enc, contract_valid c t params enc /\ request_ok r c t forfeitScript p.
Proof.
  intros (t & Et & Hv & Hr)%delegation_request_Ok. apply validateTree_Ok in Hv as (t' & params & enc & Hv).
  rewrite (contract_tree_Ok _ _ _ _ Hv) in Et. apply Ok_inj in Et as ->. by exists t, params, enc.
Qed.

Lemma set_plans_Ok r owner seen plans out : fold_res (verify_set_plan r owner) seen plans = Ok out ->
  Forall (fun p => owner_signed owner (planDigest r p) (dn_OwnerSignature p)) plans /\
  (NoDup seen -> NoDup (rev (map dn_OperationID plans) ++ seen)).
Proof.
  revert seen. induction plans as [|p plans IH]; intros seen E; simpl in E; [by split; [constructor|]|].
  apply bind_Ok in E as (seen' & Ep & E). unfold verify_set_plan in Ep. apply bind_Ok in Ep as (id & _ & Ep).
  apply bind_Ok in Ep as ([] & Ef & Ep). apply bind_Ok in Ep as ([] & Eo & Ep). apply Ok_inj in Ep as <-.
  apply IH in E as [Hf Hd]. apply fail_if_Ok in Ef. bool_hyps. apply verifyRenewalOwner_Ok in Eo.
  split; [by constructor|]. intros Hn. simpl. rewrite <-app_assoc. apply Hd. by constructor.
Qed.

(** A set that is accepted: the owner signed it, and every one of its distinct
    plans, for this enrollment. *)
Lemma delegation_set_owner r binding digest : verifyOwner r binding = Ok digest ->
  binding_ok binding /\ dq_VaultID r = rb_VaultID binding /\ binding_digest binding = Ok (dq_DescriptorHash r) /\
  digest = set_digest r /\ owner_signed (rb_OwnerPub binding) digest (dq_OwnerSignature r) /\
  Forall (fun p => owner_signed (rb_OwnerPub binding) (planDigest r p) (dn_OwnerSignature p)) (dq_Plans r) /\
  NoDup (map dn_OperationID (dq_Plans r)) /\ (1 <= length (dq_Plans r) <= 50)%nat.
Proof.
  unfold verifyOwner. intros E. apply bind_Ok in E as (hash & Eh & E). apply bind_Ok in E as ([] & Ef & E).
  apply bind_Ok in E as (id & _ & E). apply bind_Ok in E as ([] & El & E). apply bind_Ok in E as (out & Ep & E).
  apply bind_Ok in E as ([] & Eo & E). apply Ok_inj in E as <-. apply fail_if_Ok in Ef, El. bool_hyps.
  apply verifyRenewalOwner_Ok in Eo. apply set_plans_Ok in Ep as [Hp Hd]. specialize (Hd (NoDup_nil_2)). rewrite app_nil_r in Hd.
  destruct (binding_digest_Ok _ _ Eh) as [Hb _]. unfold maxSpendingRenewalPlans in *.
  split_and!; try done; try lia; [congruence|by rewrite (Permutation_rev (map dn_OperationID (dq_Plans r)))|].
  destruct (dq_Plans r); [done|simpl; lia].
Qed.

(** A plan that is read back is the one that the owner signed, and the one that
    the row accounts for. *)
Lemma stored_plan_bound saved c p : delegationStoredPlanForContract saved c = Ok p ->
  let o := ds_Operation saved in
  validateTree c = Ok tt /\ unmarshal_delegation_plan (sd_Plan o) = Some p /\ renewal_plan_ok (dp_Renewal p) c /\
  dr_OperationID (dp_Request p) = sd_OperationID o /\ dr_VaultID (dp_Request p) = sd_VaultID o /\
  pl_Txid (dp_Renewal p) = sd_InputTxid o /\ pl_Vout (dp_Renewal p) = sd_InputVout o /\ pl_FeeSats (dp_Renewal p) = sd_FeeSats o /\
  sd_PlanDigest o = hex_encode (spendingDelegationRequestDigest (dp_Request p)) /\
  owner_signed (rb_OwnerPub (rc_Binding c)) (spendingDelegationRequestDigest (dp_Request p)) (dr_OwnerSignature (dp_Request p)).
Proof.
  intros E. unfold delegationStoredPlanForContract in E. apply bind_Ok in E as ([] & _ & E). apply bind_Ok in E as (q & Eq & E).
  apply bind_Ok in E as ([] & _ & E). apply bind_Ok in E as ([] & Eb & E). apply bind_Ok in E as (digest & Ed & E).
  apply bind_Ok in E as ([] & Eo & E). apply Ok_inj in E as ->. apply encoded_Ok in Eq. apply fail_if_Ok in Eb. bool_hyps.
  apply digestForContract_Ok in Ed as (Hv & Hp & _). apply verifyRenewalOwner_Ok in Eo. by split_and!.
Qed.
End Accepted.

(** ** Examples *)

(** The owner's packets for one coin of 20000, renewed for 19800. *)
Definition toy_renewal_proof (message : bytes) (outs : list TxOut) : Packet := {|
  pk_UnsignedTx := {| ut_Version := 2; ut_LockTime := 0; ut_TxIn := [toy_txin 8 0; toy_txin 9 4]; ut_TxOut := outs |};
  pk_Inputs := [toy_leaf_input 0 SigHashAll [toy_user]; toy_leaf_input 20000 SigHashAll [toy_user]]; pk_Outputs := map (fun _ => []) outs;
  pk_Unknowns := [Some {| un_Key := [byte_of_Z 9]; un_Value := message |}] |}.

Definition toy_register_proof_packet : Packet :=
  toy_renewal_proof (str "register") [{| to_Value := 19800; to_PkScript := toy_vault_script |}].
Definition toy_delete_proof_packet : Packet :=
  toy_renewal_proof (str "delete") [{| to_Value := 0; to_PkScript := [byte_of_Z OP_RETURN] |}].

Definition toy_partial_forfeit : Packet := {|
  pk_UnsignedTx := {| ut_Version := 3; ut_LockTime := 0; ut_TxIn := [toy_txin 9 4];
    ut_TxOut := [{| to_Value := 20330; to_PkScript := [byte_of_Z 0; byte_of_Z 20] ++ take 20 toy_forfeit_pub |};
                 {| to_Value := 0; to_PkScript := str "anchor" |}] |};
  pk_Inputs := [toy_leaf_input 20000 delegatedOwnerSighash [toy_user]]; pk_Outputs := [[]; []]; pk_Unknowns := [] |}.

Definition toy_delegation_intent : ArkIntent := {|
  RegisterMessage_Decode := fun _ => Some {| rm_OnchainOutputIndexes := Some []; rm_ValidAt := 1767225600; rm_ExpireAt := 1767229200;
    rm_CosignersPublicKeys := [hex_encode toy_cosigner] |};
  RegisterMessage_Encode := fun _ => Some (str "register");
  DeleteMessage_Decode := fun _ => Some {| dm_ExpireAt := 0 |}; DeleteMessage_Encode := fun _ => Some (str "delete") |}.

Definition toy_delegation_request : spendingDelegationRequest := {|
  dr_VaultID := str "vault-1"; dr_OperationID := hex_encode (be_bytes 16 7);
  dr_Intent := {| di_Proof := str "registration"; di_Message := str "register" |}; dr_ForfeitTxs := Some [str "forfeit"];
  dr_DeleteIntent := {| di_Proof := str "deletion"; di_Message := str "delete" |}; dr_ExpiresAt := 1767229200;
  dr_OwnerSignature := hex_encode (repeat Byte.x05 64); dr_Program := VaultPolicyV1;
  dr_DescriptorHash := rc_DescriptorHash toy_contract |}.

Definition toy_delegation_table : list (bytes * Packet) :=
  [(str "registration", toy_register_proof_packet); (str "deletion", toy_delete_proof_packet); (str "forfeit", toy_partial_forfeit)].

Definition toy_forfeit_script : bytes := [byte_of_Z 0; byte_of_Z 20] ++ take 20 toy_forfeit_pub.

Notation toy_delegation_verified := (@verifyDelegationRequest (toy_chain toy_delegation_table) toy_secp toy_ark toy_batch_trees
  toy_delegation_intent toy_batch_lib toy_delegation_request toy_contract toy_forfeit_script).

Lemma toy_delegation_accepted : exists p, toy_delegation_verified = Ok p /\ pl_FeeSats (dp_Renewal p) = 200.
Proof. eexists. split; vm_compute; reflexivity. Qed.

Lemma delegation_request_sound_witness : exists p, toy_delegation_verified = Ok p /\ pl_FeeSats (dp_Renewal p) = 200 /\
  exists packet, @parsePSBT (toy_chain toy_delegation_table) (str "forfeit") = Ok packet.
Proof.
  destruct toy_delegation_accepted as (p & E & Ef). exists p. split; [exact E|]. split; [exact Ef|].
  destruct (@delegation_request_sound (toy_chain toy_delegation_table) toy_secp toy_ark toy_batch_trees
    toy_delegation_intent toy_batch_lib _ _ _ _ E) as (t & params & enc & _ & Hr).
  destruct (rk_forfeit _ _ _ _ _ Hr) as (raw & packet & Eraw & Hp). exists packet.
  change (Some [str "forfeit"] = Some [raw]) in Eraw.
  assert (str "forfeit" = raw) as -> by congruence. exact (pf_packet _ _ _ _ _ _ Hp).
Defined.
