(* ===== verification/DelegationKeys.v ===== *)
(** * The keys of a delegation ([src/internal/application/spending_delegation_keys.go])

    What the Guardian's key does for a delegated renewal: it signs the
    registration, its part of the tree that pays the vault (MuSig2), the forfeit,
    and a deletion after the delegation was abandoned.  A MuSig2 nonce must never
    meet two challenges, so the nonces are sealed in a capsule that names the
    plan and the tree, and the key opens it only for the transcript that the
    ledger has committed.

    [delegation_signed]: registrations and forfeits are signed only for a plan
    that verifies again; [tree_signature_committed]: a tree is signed only for the
    committed transcript; [nonce_single_transcript]: a later signature of the same
    operation has the same transcript. *)
From Stdlib Require Import Strings.Byte.
From S2P Require Import Prelude Sha256 Text Base64 GoTime Json Psbt Btcd Program Deployment Cosigner.
From S2P Require Import Tenant Renewal Delegation Store Journal RenewalLedger DelegationLedger VtxoScript VtxoVerify Handler Service VtxoTree VtxoService BatchTree.
From S2P Require Import BoardVerify RenewalContract BatchVerify DelegationPlan.

(** ** Data *)
Record spendingDelegationTree := {
  dt_BatchID : bytes;
  dt_BatchExpiry : Z;   (* uint32 *)
  dt_CommitmentPSBT : bytes;
  dt_VtxoTree : FlatTxTree;
}.

(** Maps that pass through JSON can be nil. *)
Definition nonce_map : Type := option (gmap bytes bytes).
Definition peer_map : Type := option (gmap bytes nonce_map).

Record spendingDelegationNonceCapsule := {
  dc_Binding : bytes;
  dc_Nonces : nonce_map;
  dc_IV : bytes;
  dc_Ciphertext : bytes;
}.

Record spendingDelegationPreparedTree := {
  dx_Tree : spendingDelegationTree;
  dx_Capsule : spendingDelegationNonceCapsule;
}.

Record spendingDelegationFinal := { dfi_Evidence : spendingRenewalFinalEvidence; dfi_SignedForfeit : bytes }.

(** Libraries: AES-GCM, the nonces that [musig2] draws from an HKDF reader, and
    its aggregation and signature; a secret nonce and a key are bytes. *)
Class MuSig := {
  aead_NonceSize : Z;
  aead_Seal : bytes -> bytes -> bytes -> bytes -> bytes;            (* key, iv, plaintext, data *)
  aead_Open : bytes -> bytes -> bytes -> bytes -> option bytes;     (* key, iv, ciphertext, data *)
  (** [GenNonces(WithPublicKey(pub), WithCustomRand(hkdf.New(sha256, seed, salt, info)))]:
      the secret and the public nonce. *)
  musig_GenNonces : PubKey -> bytes -> bytes -> bytes -> option (bytes * bytes);
  musig_AggregateNonces : list bytes -> option bytes;
  (** [Sign(nonce, key, aggregate, keys, digest, WithSortedKeys, WithTaprootSignTweak(root))],
      encoded. *)
  musig_Sign : bytes -> bytes -> bytes -> list PubKey -> bytes -> bytes -> option bytes;
  (** [CalcTaprootSignatureHash] of input 0 that spends the output. *)
  taproot_sighash : UnsignedTx -> TxOut -> option bytes;
  (** [json.Unmarshal] into an [arktree.FlatTxTree]. *)
  FlatTxTree_set : json -> FlatTxTree -> option FlatTxTree;
}.

(** ** JSON *)

(** A map is marshalled with its keys in order. *)
Definition map_value {A} (f : A -> json) (m : option (gmap bytes A)) : json :=
  match m with
  | None => JNull
  | Some m => JObj (map (fun kv => (fst kv, f (snd kv))) (slice_stable (fun a b => bytes_ltb (fst a) (fst b)) (map_to_list m)))
  end.

Definition nonces_json (m : nonce_map) : json := map_value JStr m.
Definition peers_json (m : peer_map) : json := map_value nonces_json m.

Section Json.
Context `{BatchLib}.

Definition delegation_tree_json (t : spendingDelegationTree) : json := JObj
  [(str "batchId", JStr (dt_BatchID t)); (str "batchExpiry", jint (dt_BatchExpiry t));
   (str "commitmentPsbt", JStr (dt_CommitmentPSBT t)); (str "vtxoTree", FlatTxTree_json (dt_VtxoTree t))].
Definition capsule_json (c : spendingDelegationNonceCapsule) : json := JObj
  [(str "binding", JStr (dc_Binding c)); (str "nonces", nonces_json (dc_Nonces c)); (str "iv", JStr (dc_IV c));
   (str "ciphertext", JStr (dc_Ciphertext c))].
Definition prepared_json (p : spendingDelegationPreparedTree) : json := JObj
  [(str "tree", delegation_tree_json (dx_Tree p)); (str "capsule", capsule_json (dx_Capsule p))].
End Json.

(** [json.Unmarshal] into a map: an element starts from the zero value, and a
    repeated key replaces it. *)
Definition set_map {T A} (element : json -> option A) (get : T -> option (gmap bytes A)) (put : option (gmap bytes A) -> T -> T)
    (v : json) (x : T) : option T :=
  match v with
  | JNull => Some (put None x)
  | JObj l =>
      m ← fold_left (fun m kv => m ← m; a ← element (snd kv); Some (<[fst kv := a]> m)) l (Some (default ∅ (get x)));
      Some (put (Some m) x)
  | _ => None
  end.

Definition string_element (v : json) : option bytes := match v with JStr s => Some s | JNull => Some [] | _ => None end.
Definition set_nonces {T} := @set_map T bytes string_element.
Definition nonces_element (v : json) : option nonce_map := set_nonces (fun m => m) (fun m _ => m) v None.

Definition unmarshal_peers (raw : bytes) : option peer_map :=
  v ← json_parse raw; set_map nonces_element (fun m => m) (fun m _ => m) v None.

Section Unmarshal.
Context `{MuSig}.

Definition tree_fields : list (field spendingDelegationTree) :=
  [(str "batchId", set_string (fun s t => Build_spendingDelegationTree s (dt_BatchExpiry t) (dt_CommitmentPSBT t) (dt_VtxoTree t)));
   (str "batchExpiry", set_uint32 (fun z t => Build_spendingDelegationTree (dt_BatchID t) z (dt_CommitmentPSBT t) (dt_VtxoTree t)));
   (str "commitmentPsbt", set_string (fun s t => Build_spendingDelegationTree (dt_BatchID t) (dt_BatchExpiry t) s (dt_VtxoTree t)));
   (str "vtxoTree", fun v t => flat ← FlatTxTree_set v (dt_VtxoTree t);
      Some (Build_spendingDelegationTree (dt_BatchID t) (dt_BatchExpiry t) (dt_CommitmentPSBT t) flat))].

Definition capsule_fields : list (field spendingDelegationNonceCapsule) :=
  [(str "binding", set_string (fun s c => Build_spendingDelegationNonceCapsule s (dc_Nonces c) (dc_IV c) (dc_Ciphertext c)));
   (str "nonces", set_nonces dc_Nonces (fun m c => Build_spendingDelegationNonceCapsule (dc_Binding c) m (dc_IV c) (dc_Ciphertext c)));
   (str "iv", set_string (fun s c => Build_spendingDelegationNonceCapsule (dc_Binding c) (dc_Nonces c) s (dc_Ciphertext c)));
   (str "ciphertext", set_string (fun s c => Build_spendingDelegationNonceCapsule (dc_Binding c) (dc_Nonces c) (dc_IV c) s))].

Definition zero_delegation_tree : spendingDelegationTree :=
  {| dt_BatchID := []; dt_BatchExpiry := 0; dt_CommitmentPSBT := []; dt_VtxoTree := [] |}.
Definition zero_capsule : spendingDelegationNonceCapsule :=
  {| dc_Binding := []; dc_Nonces := None; dc_IV := []; dc_Ciphertext := [] |}.

Definition unmarshal_prepared (raw : bytes) : option spendingDelegationPreparedTree :=
  json_unmarshal
    [(str "tree", set_nested tree_fields dx_Tree (fun t p => Build_spendingDelegationPreparedTree t (dx_Capsule p)));
     (str "capsule", set_nested capsule_fields dx_Capsule (fun c p => Build_spendingDelegationPreparedTree (dx_Tree p) c))]
    {| dx_Tree := zero_delegation_tree; dx_Capsule := zero_capsule |} raw.
End Unmarshal.

(** ** Signing *)
Section Keys.
Context `{Btc} `{Secp} `{ArkScript} `{Txscript} `{ArkTree} `{ArkIntent} `{PsbtFields} `{BatchLib} `{MuSig}.

(** [sameDelegationBytes] on renewal plans and on delegation plans. *)
Definition same_json (a b : json) : bool := json_print a == json_print b.

Definition validateRenewalDelegationCapability (c : renewalContract) (p : spendingDelegationPlan)
  : result (vtxoPolicyTree * verifiedSpendingRenewalRegistration) :=
  _ ← validateTree c;
  tree ← contract_tree c;
  script ← delegationForfeitScript (rb_Network (rc_Binding c));
  expected ← verifyDelegationRequest (dp_Request p) c script;
  _ ← fail_if (negb (same_json (renewal_plan_json (dp_Renewal expected)) (renewal_plan_json (dp_Renewal p)))
               || negb (dp_ValidAt p =? dp_ValidAt expected)) (ErrMsg "Light delegation plan changed");
  let r := dp_Request p in
  registration ← verifyRenewalRegistration (di_Proof (dr_Intent r)) (di_Message (dr_Intent r)) (dp_Renewal p) c (dp_ValidAt p)
    (dr_ExpiresAt r) (even_cosigner c);
  Ok (tree, registration).

(** [ctx] is [ctx.Err()] before the key is derived and before it signs. *)
Definition sign_stage (k : fileBackedVaultKeys) (ctx : nat -> result unit) (c : renewalContract) (tree : vtxoPolicyTree)
    (raw : bytes) (indexes : list nat) (sighash : Z) : result bytes :=
  withRenewalKey k (ctx 0%nat) c (fun key =>
    signExactVaultBoardStage (ctx 1%nat) raw key (mustDecodeRenewalHex (rb_CosignerPub (rc_Binding c))) (tr_SpendLeaf tree)
      indexes sighash).

(** The forfeit with the hash type that the Guardian signs. *)
Definition set_default_sighash (input : PInput) : PInput := {|
  pi_WitnessUtxo := pi_WitnessUtxo input; pi_SighashType := SigHashDefault; pi_TaprootLeafScript := pi_TaprootLeafScript input;
  pi_TaprootScriptSpendSig := pi_TaprootScriptSpendSig input; pi_Others := pi_Others input |}.

Definition delegated_forfeit (raw : bytes) : result bytes :=
  packet ← parsePSBT raw;
  match pk_Inputs packet with
  | [] => Err (ErrMsg "index out of range")
  | input :: inputs => b64Encode (set_inputs (set_default_sighash input :: inputs) packet)
  end.

Definition authorizeSpendingDelegation (k : fileBackedVaultKeys) (ctx : nat -> result unit) (c : renewalContract)
    (p : spendingDelegationPlan) (final : option spendingRenewalFinalEvidence) : result bytes :=
  '(tree, registration) ← validateRenewalDelegationCapability c p;
  match final with
  | None => sign_stage k ctx c tree (di_Proof (dr_Intent (dp_Request p))) [0%nat; 1%nat] SigHashAll
  | Some final =>
      verified ← verifyRenewalFinal final (dp_Renewal p) c registration delegatedOwnerSighash;
      raw ← delegated_forfeit (fv_CanonicalForfeitPSBT verified);
      sign_stage k ctx c tree raw [0%nat] SigHashDefault
  end.

(** The receiver's leaf: cosigned by the contract's key and one other. *)
Definition receiver_cosigned (c : renewalContract) (leaf : TxTree) : result unit :=
  match ParseCosignerKeysFromArkPsbt (tree_Root leaf) 0 with
  | Some [k0; k1] =>
      let expected := str "02" ++ rb_CosignerPub (rc_Binding c) in
      fail_if (negb ((hex_encode k0 == expected) || (hex_encode k1 == expected)) || (SerializePubKey k0 == SerializePubKey k1))
        (ErrMsg "Light delegation tree identity")
  | _ => Err (ErrMsg "Light delegation tree cosigners")
  end.

Definition verifyRenewalSigningTree (c : renewalContract) (p : spendingDelegationPlan) (e : spendingDelegationTree)
  : result (TxTree * Packet * bytes) :=
  '(tree, _) ← validateRenewalDelegationCapability c p;
  pins ← or_err (ErrMsg "Light delegation batch binding") (IdentityFor (rb_Network (rc_Binding c)));
  _ ← fail_if (negb (dt_BatchExpiry e =? id_VtxoTreeExpirySeconds pins) || (blen (dt_BatchID e) =? 0) || (256 <? blen (dt_BatchID e)))
        (ErrMsg "Light delegation batch binding");
  commitment ← or_err (ErrMsg "Light delegation commitment") (parseCanonicalVaultBoardPSBT (dt_CommitmentPSBT e) maxVaultBoardProofBytes);
  _ ← fail_if (negb (ut_Version (pk_UnsignedTx commitment) =? 2) || Nat.ltb (length (ut_TxOut (pk_UnsignedTx commitment))) 2)
        (ErrMsg "Light delegation commitment");
  '(_, graph) ← canonicalSpendingRenewalTree (dt_VtxoTree e);
  forfeit ← parsed (mustDecodeRenewalHex (id_CheckpointForfeitPubHex pins)) (ErrMsg "forfeit key");
  let expiry := {| rl_Type := LocktimeTypeSecond; rl_Value := dt_BatchExpiry e |} in
  _ ← fail_if (negb (arktree_ValidateVtxoTree graph commitment forfeit expiry)) (ErrMsg "vtxo tree");
  _ ← verifyVaultBoardBatchOutput graph commitment forfeit expiry;
  '(receiver, _) ← findExactVaultBoardReceiver graph (tr_PkScript tree) (pl_ReceiverSats (dp_Renewal p));
  match tree_Find graph receiver with
  | None => Err (ErrMsg "Light delegation receiver missing")
  | Some leaf =>
      _ ← receiver_cosigned c leaf;
      root ← sweep_root forfeit expiry;
      Ok (graph, commitment, root)
  end.

Definition delegationTreeBinding (p : spendingDelegationPlan) (e : spendingDelegationTree) : bytes :=
  hex_encode (sha256 (str "vaulted-light/delegation-tree/v1:"
    ++ json_print (JObj [(str "plan", delegation_plan_json p); (str "tree", delegation_tree_json e)]))).

(** The AES key of the capsules of a signing key. *)
Definition delegationNonceAEAD (key : bytes) : bytes := sha256 (str "vaulted-light/delegation-nonce-key/v1:" ++ key).

Definition delegationNodeNonces (key seed binding txid : bytes) : result (bytes * bytes) :=
  encoded (musig_GenNonces (priv_PubKey key) seed binding (str "vaulted-light/musig-nonce/v1:" ++ txid)).

(** The transactions that the key cosigns, by their ids. *)
Fixpoint delegationSigningNodes (key : PubKey) (t : TxTree) (out : gmap bytes Packet) : result (gmap bytes Packet) :=
  match t with
  | TxTreeOf root children =>
      keys ← encoded (ParseCosignerKeysFromArkPsbt root 0);
      let out := if existsb (fun k => k == key) keys then <[tx_TxHash (pk_UnsignedTx root) := root]> out else out in
      (fix walk (children : list TxTree) (out : gmap bytes Packet) : result (gmap bytes Packet) :=
         match children with
         | [] => Ok out
         | child :: children => out ← delegationSigningNodes key child out; walk children out
         end) children out
  end.

(** [seed] and [iv] are what [rand.Read] fills in. *)
Definition prepareSpendingDelegationTree (k : fileBackedVaultKeys) (ctx : result unit) (seed iv : bytes) (c : renewalContract)
    (p : spendingDelegationPlan) (e : spendingDelegationTree) : result spendingDelegationNonceCapsule :=
  '(graph, _, _) ← verifyRenewalSigningTree c p e;
  let binding := delegationTreeBinding p e in
  withRenewalKey k ctx c (fun key =>
    nodes ← delegationSigningNodes (priv_PubKey key) graph ∅;
    nonces ← fold_res (fun m (kv : bytes * Packet) =>
                 nonce ← delegationNodeNonces key seed binding (fst kv); Ok (<[fst kv := hex_encode (snd nonce)]> m))
               (∅ : gmap bytes bytes) (map_to_list nodes);
    Ok {| dc_Binding := binding; dc_Nonces := Some nonces; dc_IV := hex_encode iv;
          dc_Ciphertext := hex_encode (aead_Seal (delegationNonceAEAD key) iv seed binding) |}).

(** *** The committed transcript *)

(** The evidence of an event; of no event, the empty string. *)
Definition evidence (s : SpendingDelegationSnapshot) (phase : string) : bytes :=
  match ds_Events s !! str phase with Some e => de_Evidence e | None => [] end.

Definition transcript_committed (c : renewalContract) (p : spendingDelegationPlan) (prepared : spendingDelegationPreparedTree)
    (all : peer_map) (snapshot : SpendingDelegationSnapshot) : result unit :=
  _ ← match delegationStoredPlanForContract snapshot c with
      | Ok persisted => fail_if (negb (same_json (delegation_plan_json persisted) (delegation_plan_json p)))
                          (ErrMsg "Light delegation signing plan not committed")
      | Err _ => Err (ErrMsg "Light delegation signing plan not committed")
      end;
  _ ← match unmarshal_prepared (evidence snapshot "tree_prepared"), unmarshal_peers (evidence snapshot "nonces_committed") with
      | Some tree, Some peers =>
          fail_if (negb (same_json (prepared_json tree) (prepared_json prepared)) || negb (same_json (peers_json peers) (peers_json all)))
            (ErrMsg "Light delegation signing transcript not committed")
      | _, _ => Err (ErrMsg "Light delegation signing transcript not committed")
      end;
  let state := delegation_State snapshot in
  fail_if (negb ((state == str "nonces_committed") || (state == str "tree_signed"))) (ErrMsg "Light delegation signing session ended").

(** The first snapshot of the operation decides. *)
Definition verify_transcript (c : renewalContract) (p : spendingDelegationPlan) (prepared : spendingDelegationPreparedTree)
    (all : peer_map) (snapshots : list SpendingDelegationSnapshot) : result unit :=
  match List.find (fun s => sd_OperationID (ds_Operation s) == dr_OperationID (dp_Request p)) snapshots with
  | Some snapshot => transcript_committed c p prepared all snapshot
  | None => Err (ErrMsg "Light delegation signing operation unavailable")
  end.

(** [bound] says whether [bindDelegationJournal] has set the store. *)
Definition verifyRenewalTranscript (bound : bool) (c : renewalContract) (p : spendingDelegationPlan)
    (prepared : spendingDelegationPreparedTree) (all : peer_map) : Prog State unit :=
  _ ← require (negb bound) (ErrMsg "Light delegation signing journal unavailable");
  snapshots ← on_ledger ListSpendingDelegations;
  pure (verify_transcript c p prepared all snapshots).

(** *** The signature of one transaction *)

(** The output that a transaction of the tree spends. *)
Definition signing_prevout (graph : TxTree) (commitment : Packet) (tx : UnsignedTx) : result TxOut :=
  match ut_TxIn tx, ut_TxOut (pk_UnsignedTx commitment) with
  | txin :: _, batch :: _ =>
      let previous := ti_PreviousOutPoint txin in
      if op_Hash previous == tx_TxHash (pk_UnsignedTx commitment) then Ok batch
      else match tree_Find graph (op_Hash previous) with
           | None => Err (ErrMsg "Light delegation signing parent")
           | Some parent =>
               match ut_TxOut (pk_UnsignedTx (tree_Root parent)) !! Z.to_nat (op_Index previous) with
               | Some out => Ok out
               | None => Err (ErrMsg "Light delegation signing parent")
               end
           end
  | _, _ => Err (ErrMsg "index out of range")
  end.

(** The public nonce of a cosigner. *)
Definition peer_nonce (nonces : gmap bytes bytes) (pub : PubKey) : result bytes :=
  raw ← or_err (ErrMsg "Light delegation peer nonce") (encoded (hex_decode (default [] (nonces !! hex_encode (SerializePubKey pub)))));
  _ ← fail_if (negb (blen raw =? 66)) (ErrMsg "Light delegation peer nonce");
  Ok raw.

Definition sign_node (key seed binding root : bytes) (graph : TxTree) (commitment : Packet) (capsule : gmap bytes bytes)
    (all : gmap bytes nonce_map) (kv : bytes * Packet) : result bytes :=
  let '(txid, packet) := kv in
  let nonces := default ∅ (default None (all !! txid)) in
  keys ← or_err (ErrMsg "Light delegation nonce participants") (encoded (ParseCosignerKeysFromArkPsbt packet 0));
  _ ← fail_if (negb (Nat.eqb (length keys) (size nonces))) (ErrMsg "Light delegation nonce participants");
  '(secret, public) ← delegationNodeNonces key seed binding txid;
  let own := hex_encode (SerializePubKey (priv_PubKey key)) in
  let committed := default [] (capsule !! txid) in
  _ ← fail_if ((hex_encode public != committed) || (default [] (nonces !! own) != committed)) (ErrMsg "Light delegation own nonce changed");
  publics ← collect (peer_nonce nonces) keys;
  aggregate ← encoded (musig_AggregateNonces publics);
  prevout ← signing_prevout graph commitment (pk_UnsignedTx packet);
  digest ← encoded (taproot_sighash (pk_UnsignedTx packet) prevout);
  sig ← encoded (musig_Sign secret key aggregate keys digest root);
  Ok (hex_encode sig).

Definition open_capsule (key binding : bytes) (capsule : spendingDelegationNonceCapsule) : result bytes :=
  iv ← or_err (ErrMsg "Light delegation nonce IV") (encoded (hex_decode (dc_IV capsule)));
  _ ← fail_if (negb (blen iv =? aead_NonceSize)) (ErrMsg "Light delegation nonce IV");
  sealed ← encoded (hex_decode (dc_Ciphertext capsule));
  encoded (aead_Open (delegationNonceAEAD key) iv sealed binding).

(** After the transcript was found committed. *)
Definition sign_tree (k : fileBackedVaultKeys) (ctx : result unit) (c : renewalContract) (p : spendingDelegationPlan)
    (prepared : spendingDelegationPreparedTree) (all : peer_map) : result (gmap bytes bytes) :=
  '(graph, commitment, root) ← verifyRenewalSigningTree c p (dx_Tree prepared);
  let binding := delegationTreeBinding p (dx_Tree prepared) in
  _ ← fail_if (binding != dc_Binding (dx_Capsule prepared)) (ErrMsg "Light delegation nonce binding");
  withRenewalKey k ctx c (fun key =>
    seed ← open_capsule key binding (dx_Capsule prepared);
    nodes ← or_err (ErrMsg "Light delegation nonce coverage") (delegationSigningNodes (priv_PubKey key) graph ∅);
    let peers := default ∅ all in
    let capsule := default ∅ (dc_Nonces (dx_Capsule prepared)) in
    _ ← fail_if (negb (Nat.eqb (size nodes) (size peers)) || negb (Nat.eqb (size nodes) (size capsule))) (ErrMsg "Light delegation nonce coverage");
    fold_res (fun m kv => sig ← sign_node key seed binding root graph commitment capsule peers kv; Ok (<[fst kv := sig]> m))
      (∅ : gmap bytes bytes) (map_to_list nodes)).

Definition signSpendingDelegationTree (k : fileBackedVaultKeys) (bound : bool) (ctx : result unit) (c : renewalContract)
    (p : spendingDelegationPlan) (prepared : spendingDelegationPreparedTree) (all : peer_map) : Prog State (gmap bytes bytes) :=
  _ ← verifyRenewalTranscript bound c p prepared all;
  pure (sign_tree k ctx c p prepared all).

(** *** Deletion *)

(** Every snapshot of the operation must be the plan's, and abandoned. *)
Definition abandoned (c : renewalContract) (p : spendingDelegationPlan) (snapshot : SpendingDelegationSnapshot) : result unit :=
  match delegationStoredPlanForContract snapshot c with
  | Ok saved => fail_if (negb (same_json (delegation_plan_json saved) (delegation_plan_json p))
                         || (delegation_State snapshot != str "cleanup_pending")) (ErrMsg "Light delegation abandonment not committed")
  | Err _ => Err (ErrMsg "Light delegation abandonment not committed")
  end.

Definition authorizeSpendingDelegationDelete (k : fileBackedVaultKeys) (bound : bool) (ctx : nat -> result unit) (c : renewalContract)
    (p : spendingDelegationPlan) : Prog State bytes :=
  '(tree, _) ← pure (validateRenewalDelegationCapability c p);
  _ ← require (negb bound) (ErrMsg "Light delegation signing journal unavailable");
  all ← on_ledger ListSpendingDelegations;
  let matched := List.filter (fun s => sd_OperationID (ds_Operation s) == dr_OperationID (dp_Request p)) all in
  _ ← pure (each (abandoned c p) matched);
  _ ← require (Nat.eqb (length matched) 0) (ErrMsg "Light delegation cleanup unavailable");
  pure (sign_stage k ctx c tree (di_Proof (dr_DeleteIntent (dp_Request p))) [0%nat; 1%nat] SigHashAll).
End Keys.

(** ** What is signed *)
Section Signed.
Context `{Btc} `{Secp} `{ArkScript} `{Txscript} `{ArkTree} `{ArkIntent} `{PsbtFields} `{BatchLib} `{MuSig}.

(** A plan whose request verifies again, with the pinned forfeit script, and gives
    the same plan. *)
Definition plan_verified (c : renewalContract) (t : vtxoPolicyTree) (p : spendingDelegationPlan) : Prop :=
  exists script expected, delegationForfeitScript (rb_Network (rc_Binding c)) = Ok script /\
    request_ok (dp_Request p) c t script expected /\ dp_ValidAt expected = dp_ValidAt p /\
    json_print (renewal_plan_json (dp_Renewal expected)) = json_print (renewal_plan_json (dp_Renewal p)) /\
    renewal_plan_ok (dp_Renewal p) c.

Lemma same_json_true a b : same_json a b = true -> json_print a = json_print b.
Proof. apply bool_decide_eq_true_1. Qed.

Lemma capability_Ok c p t registration : validateRenewalDelegationCapability c p = Ok (t, registration) ->
  contract_tree c = Ok t /\ (exists params enc, contract_valid c t params enc) /\ plan_verified c t p /\
  rg_TreeSession registration = even_cosigner c /\
  exists packet, batch_proof (di_Proof (dr_Intent (dp_Request p))) (di_Message (dr_Intent (dp_Request p))) (dp_Renewal p) c t
    [{| to_Value := pl_ReceiverSats (dp_Renewal p); to_PkScript := tr_PkScript t |}] packet.
Proof.
  unfold validateRenewalDelegationCapability. intros E. apply bind_Ok in E as ([] & Ev & E). apply bind_Ok in E as (t' & Et & E).
  apply bind_Ok in E as (script & Es & E). apply bind_Ok in E as (expected & Er & E). apply bind_Ok in E as ([] & Ef & E).
  apply bind_Ok in E as (r & Eg & E). apply Ok_inj, pair_equal_spec in E as [-> ->]. apply fail_if_Ok in Ef. bool_hyps.
  apply delegation_request_Ok in Er as (t' & Et' & _ & Hr). rewrite Et in Et'. apply Ok_inj in Et' as <-.
  apply renewal_registration_Ok in Eg as (_ & Hd & Hs & t' & packet & Et' & Hp). rewrite Et in Et'. apply Ok_inj in Et' as <-.
  apply digestForContract_Ok in Hd as (_ & Hplan & _).
  split; [done|]. split.
  { apply validateTree_Ok in Ev as (t' & params & enc & Hv). rewrite (contract_tree_Ok _ _ _ _ Hv) in Et. apply Ok_inj in Et as ->.
    by exists params, enc. }
  split; [exists script, expected; split_and!; try done; by apply same_json_true|].
  split; [apply Hs; unfold even_cosigner, blen; simpl; lia|by exists packet].
Qed.

(** What the key signs for a delegation: the registration, or the forfeit against
    a batch that pays the renewed coin to the vault. *)
Inductive delegation_signs (c : renewalContract) (p : spendingDelegationPlan) (t : vtxoPolicyTree)
  : option spendingRenewalFinalEvidence -> bytes -> list nat -> Z -> Prop :=
  | DelegatesRegistration packet :
      batch_proof (di_Proof (dr_Intent (dp_Request p))) (di_Message (dr_Intent (dp_Request p))) (dp_Renewal p) c t
        [{| to_Value := pl_ReceiverSats (dp_Renewal p); to_PkScript := tr_PkScript t |}] packet ->
      delegation_signs c p t None (di_Proof (dr_Intent (dp_Request p))) [0%nat; 1%nat] SigHashAll
  | DelegatesForfeit e v packet input inputs raw :
      batch_final e (dp_Renewal p) c t (even_cosigner c) delegatedOwnerSighash [] v ->
      parsePSBT (fe_OwnerForfeitPSBT e) = Ok packet -> pk_Inputs packet = input :: inputs ->
      psbt_B64Encode (set_inputs (set_default_sighash input :: inputs) packet) = Some raw ->
      delegation_signs c p t (Some e) raw [0%nat] SigHashDefault.

Lemma sign_stage_Ok `{!PsbtLaws} k ctx c t params enc raw indexes sighash s : contract_valid c t params enc ->
  sign_stage k ctx c t raw indexes sighash = Ok s ->
  exists master key, k = Some master /\ deriveVtxoKey master (rc_KeyScope c) = Ok key /\
    SerializePubKey (priv_PubKey key) = SerializePubKey (tr_CosignerPub t) /\
    inputs_signed raw s (SerializePubKey (tr_CosignerPub t)) (tr_SpendLeaf t) indexes sighash.
Proof.
  intros Hv E. apply with_renewal_key_Ok in E as (master & key & -> & Ek & Eh & E).
  pose proof (cv_cosigner _ _ _ _ Hv) as [Hc1 Hc2]. rewrite Eh in Hc1. apply (inj hex_encode) in Hc1. rewrite <-Hc2 in Hc1.
  rewrite Eh in E. rewrite (mustDecode_Some _ _ (hex_decode_encode _)), Hc1 in E. apply sign_board_stage_spec in E as [_ Hs].
  by exists master, key.
Qed.

(** C18: The Guardian's key acts for a delegated renewal only as the owner signed it.
    Whatever it signs, the request verifies again with the network's pinned forfeit
    script and describes the same plan; what is signed is the registration, both of
    its inputs, or, for a batch that verifies against the plan and pays the vault,
    the first input of the owner's forfeit, with nothing but that input's hash type
    changed; the key is the one of the contract's scope. *)
Theorem delegation_signed `{!PsbtLaws} k ctx c p final s : authorizeSpendingDelegation k ctx c p final = Ok s ->
  exists t params enc master key raw indexes sighash,
    contract_valid c t params enc /\ plan_verified c t p /\ k = Some master /\ deriveVtxoKey master (rc_KeyScope c) = Ok key /\
    SerializePubKey (priv_PubKey key) = SerializePubKey (tr_CosignerPub t) /\
    delegation_signs c p t final raw indexes sighash /\
    inputs_signed raw s (SerializePubKey (tr_CosignerPub t)) (tr_SpendLeaf t) indexes sighash.
Proof.
  unfold authorizeSpendingDelegation. intros E. apply bind_Ok in E as ([t registration] & Ec & E).
  apply capability_Ok in Ec as (Et & (params & enc & Hv) & Hp & Hs & packet & Hreg). destruct final as [e|].
  - apply bind_Ok in E as (v & Ef & E). apply bind_Ok in E as (raw & Er & E).
    apply (sign_stage_Ok _ _ _ _ _ _ _ _ _ _ Hv) in E as (master & key & Hk & Hd & Hkey & Hsig).
    exists t, params, enc, master, key, raw, [0%nat], SigHashDefault. split_and!; try done.
    unfold verifyRenewalFinal in Ef. apply bind_Ok in Ef as (digest & _ & Ef). apply batch_final_Ok in Ef as (_ & _ & t' & Et' & Hb).
    rewrite Et in Et'. apply Ok_inj in Et' as <-. rewrite Hs in Hb. unfold delegated_forfeit in Er. rewrite (bn_forfeit _ _ _ _ _ _ _ _ Hb) in Er.
    apply bind_Ok in Er as (forfeit & Ep & Er). destruct (pk_Inputs forfeit) as [|input inputs] eqn:Ei; [done|].
    unfold b64Encode in Er. destruct (psbt_B64Encode _) as [raw'|] eqn:Eb; [|done]. apply Ok_inj in Er as ->. by eapply DelegatesForfeit.
  - apply (sign_stage_Ok _ _ _ _ _ _ _ _ _ _ Hv) in E as (master & key & Hk & Hd & Hkey & Hsig).
    exists t, params, enc, master, key, (di_Proof (dr_Intent (dp_Request p))), [0%nat; 1%nat], SigHashAll.
    split_and!; try done. by eapply DelegatesRegistration.
Qed.
End Signed.

(** *** The journal only grows *)

(** A move of the ledger: a call on the delegations, or anything that leaves their
    tables and the integrity key alone. *)
Inductive delegation_move (l l' : Ledger) : Prop :=
  | MoveAdvance e allowance r : devent_storable (l_now l) e -> AdvanceSpendingDelegation e allowance l = (l', r) ->
      delegation_move l l'
  | MoveSchedule plans cred n r : Forall (plan_storable (l_now l)) plans -> ScheduleVtxoDelegationSet plans cred n l = (l', r) ->
      delegation_move l l'
  | MoveOther : db_delegation (l_db l') = db_delegation (l_db l) -> l_integrityKey l' = l_integrityKey l -> delegation_move l l'.

(** Every delegation is still there, and has only gained events. *)
Definition continues (all all' : gmap bytes SpendingDelegationSnapshot) : Prop :=
  forall id s, all !! id = Some s -> exists s', all' !! id = Some s' /\ rtc delegation_step s s'.

#[global] Instance continues_preorder : PreOrder continues.
Proof.
  split; [intros all id s E; by exists s|]. intros a b c Hab Hbc id s E. destruct (Hab _ _ E) as (s1 & E1 & H1).
  destruct (Hbc _ _ E1) as (s2 & E2 & H2). exists s2. split; [done|by etransitivity].
Qed.

Lemma load_same_delegations d d' key : db_delegation d' = db_delegation d ->
  loadSpendingDelegations d' key = loadSpendingDelegations d key.
Proof. unfold loadSpendingDelegations. by intros ->. Qed.

Lemma integrityKeyCopy_same l l' : l_integrityKey l' = l_integrityKey l -> integrityKeyCopy l' = integrityKeyCopy l.
Proof. unfold integrityKeyCopy. by intros ->. Qed.

Lemma stable_each_M {A} (f : A -> M unit) xs : (forall x, stable (f x)) -> stable (each_M f xs).
Proof. intros Hf. induction xs as [|x xs IH]; [apply stable_ret|]. apply stable_bind; [apply Hf|]. by intros _. Qed.
#[local] Hint Resolve stable_each_M : guardian.

Lemma stable_insert_delegation row : stable (insert_delegation_op row).
Proof. unfold insert_delegation_op. solve_stable. Qed.
#[local] Hint Resolve stable_insert_delegation : guardian.

Lemma stable_new_set key all first members cred n : stable (schedule_new_set key all first members cred n).
Proof. unfold schedule_new_set. solve_stable. Qed.
#[local] Hint Resolve stable_new_set : guardian.

Lemma stable_schedule plans cred n : stable (ScheduleVtxoDelegationSet plans cred n).
Proof.
  unfold ScheduleVtxoDelegationSet, withSpendingRenewalTx, schedule_body. solve_stable.
  case_match; [by auto with guardian|]. solve_stable. case_match; solve_stable.
Qed.

Lemma delegation_move_continues key all l l' : integrityKeyCopy l = Ok key -> loadSpendingDelegations (l_db l) key = Ok all ->
  delegation_move l l' ->
  integrityKeyCopy l' = Ok key /\ exists all', loadSpendingDelegations (l_db l') key = Ok all' /\ continues all all'.
Proof.
  intros Hk Hl [e allowance r Hst E|plans cred n r Hst E|Hd Hi].
  - pose proof (stable_advance_delegation e allowance l) as (Hi & _). rewrite E in Hi. simpl in Hi.
    split; [by rewrite (integrityKeyCopy_same _ _ Hi)|]. destruct r as [res|err].
    + destruct (advance_Ok _ _ _ _ _ _ _ Hst Hk Hl E) as (s & Es & [(_ & Hdb)|(-> & Hd & Hv & Hload & _)]).
      { exists all. by rewrite Hdb. }
      eexists. split; [exact Hload|]. intros id s0 E0. destruct (decide (id = de_OperationID e)) as [->|Hne].
      * rewrite Es in E0. injection E0 as <-. eexists. split; [apply lookup_insert_eq|]. apply rtc_once. by eapply DelegationStep.
      * exists s0. by rewrite lookup_insert_ne.
    + exists all. by rewrite (advance_rollback _ _ _ _ _ E).
  - pose proof (stable_schedule plans cred n l) as (Hi & _). rewrite E in Hi. simpl in Hi.
    split; [by rewrite (integrityKeyCopy_same _ _ Hi)|]. destruct r as [res|err].
    + destruct (schedule_Ok _ _ _ _ _ _ _ _ Hst Hk Hl E) as (_ & [(Hdb & _)|(l0 & l1 & _ & Hok & _ & Hload & _)]).
      { exists all. by rewrite Hdb. }
      eexists. split; [exact Hload|]. intros id s0 E0. exists s0. split; [|done]. rewrite add_members_lookup by apply (so_ids _ _ _ _ _ _ Hok).
      destruct (List.find _ _) as [o|] eqn:Ef; [|done]. apply find_some in Ef as [Hin Hid]. apply bool_decide_eq_true in Hid.
      apply list_elem_of_In in Hin. pose proof (so_new _ _ _ _ _ _ Hok) as Hnew. rewrite Forall_forall in Hnew.
      apply Hnew in Hin. congruence.
    + exists all. by rewrite (schedule_rollback _ _ _ _ _ _ E).
  - split; [by rewrite (integrityKeyCopy_same _ _ Hi)|]. exists all. by rewrite (load_same_delegations _ _ _ Hd).
Qed.

Lemma delegation_moves_continue key all l l' : integrityKeyCopy l = Ok key -> loadSpendingDelegations (l_db l) key = Ok all ->
  rtc delegation_move l l' ->
  integrityKeyCopy l' = Ok key /\ exists all', loadSpendingDelegations (l_db l') key = Ok all' /\ continues all all'.
Proof.
  intros Hk Hl Hm. revert all Hk Hl. induction Hm as [l|l l1 l2 H1 _ IH]; intros all Hk Hl; [by split; [|exists all]|].
  destruct (delegation_move_continues _ _ _ _ Hk Hl H1) as (Hk1 & all1 & Hl1 & Hc1).
  destruct (IH _ Hk1 Hl1) as (Hk2 & all2 & Hl2 & Hc2). split; [done|]. exists all2. split; [done|by etransitivity].
Qed.

(** A read of the journal. *)
Lemma list_delegations_Ok l l' snapshots : ListSpendingDelegations l = (l', Ok snapshots) ->
  exists key all, integrityKeyCopy l = Ok key /\ loadSpendingDelegations (l_db l) key = Ok all /\ same_view l l' /\
    forall s, s ∈ snapshots <-> all !! sd_OperationID (ds_Operation s) = Some s.
Proof.
  unfold ListSpendingDelegations. intros H. read_step H key Hk. read_step H m Hl. write_step H l1 Ho. inv_M.
  subst snapshots. apply observe_same_view in Ho. exists key, m. split_and!; try done. intros s. rewrite slice_stable_perm, list_elem_of_fmap. split.
  - intros ([id s'] & -> & Hin%elem_of_map_to_list). simpl. by rewrite (dl_id _ _ (delegations_loaded _ _ _ Hl _ _ Hin)).
  - intros Hs. exists (sd_OperationID (ds_Operation s), s). split; [done|]. by apply elem_of_map_to_list.
Qed.

Lemma delegation_steps_keep s s' : rtc delegation_step s s' -> ds_Operation s' = ds_Operation s /\ ds_Events s ⊆ ds_Events s'.
Proof.
  induction 1 as [s|s s1 s2 [e now Hd _] _ [Ho He]]; [done|]. apply decide_insert in Hd as (Hn & _). simpl in *.
  split; [done|]. etransitivity; [|exact He]. by apply insert_subseteq.
Qed.

(** *** The committed transcript *)
Section Transcript.
Context `{Btc} `{Secp} `{ArkScript} `{Txscript} `{ArkTree} `{ArkIntent} `{PsbtFields} `{BatchLib} `{MuSig}.

(** The snapshot holds the owner's plan, the tree and its nonces, and every
    cosigner's nonces, and the session is still open. *)
Record committed (c : renewalContract) (p : spendingDelegationPlan) (prepared : spendingDelegationPreparedTree) (peers : peer_map)
    (s : SpendingDelegationSnapshot) : Prop := {
  cm_operation : sd_OperationID (ds_Operation s) = dr_OperationID (dp_Request p);
  cm_plan : exists stored, delegationStoredPlanForContract s c = Ok stored /\
    json_print (delegation_plan_json stored) = json_print (delegation_plan_json p);
  cm_tree : exists tree, unmarshal_prepared (evidence s "tree_prepared") = Some tree /\
    json_print (prepared_json tree) = json_print (prepared_json prepared);
  cm_peers : exists stored, unmarshal_peers (evidence s "nonces_committed") = Some stored /\
    json_print (peers_json stored) = json_print (peers_json peers);
  cm_state : delegation_State s = str "nonces_committed" \/ delegation_State s = str "tree_signed";
}.

Lemma verify_transcript_Ok c p prepared peers snapshots : verify_transcript c p prepared peers snapshots = Ok tt ->
  exists s, s ∈ snapshots /\ committed c p prepared peers s.
Proof.
  unfold verify_transcript. intros E. destruct (List.find _ snapshots) as [s|] eqn:Ef; [|done].
  apply find_some in Ef as [Hin%list_elem_of_In Hid%bool_decide_eq_true]. exists s. split; [done|].
  unfold transcript_committed in E. apply bind_Ok in E as ([] & Ep & E). apply bind_Ok in E as ([] & Et & E). apply fail_if_Ok in E.
  destruct (delegationStoredPlanForContract s c) as [stored|] eqn:Es; [|done].
  destruct (unmarshal_prepared _) as [tree|] eqn:Eu; [|done]. destruct (unmarshal_peers _) as [all|] eqn:Ea; [|done].
  apply fail_if_Ok in Ep, Et. apply orb_false_iff in Et as [Et1 Et2]. apply negb_false_iff in Ep, Et1, Et2, E.
  apply same_json_true in Ep, Et1, Et2. constructor; [done|by exists stored|by exists tree|by exists all|].
  apply orb_prop in E as [E|E]; apply bool_decide_eq_true in E; [by left|by right].
Qed.

(** Two commitments of one operation, the second later, are the same. *)
Lemma committed_same c1 p1 x1 a1 c2 p2 x2 a2 s1 s2 : committed c1 p1 x1 a1 s1 -> committed c2 p2 x2 a2 s2 ->
  rtc delegation_step s1 s2 ->
  json_print (delegation_plan_json p1) = json_print (delegation_plan_json p2) /\
  json_print (prepared_json x1) = json_print (prepared_json x2) /\ json_print (peers_json a1) = json_print (peers_json a2).
Proof.
  intros [_ (q1 & Eq1 & Hq1) (t1 & Et1 & Ht1) (m1 & Em1 & Hm1) _] [_ (q2 & Eq2 & Hq2) (t2 & Et2 & Ht2) (m2 & Em2 & Hm2) _] Hs.
  apply delegation_steps_keep in Hs as [Ho He].
  assert (Hkept : forall phase, evidence s1 phase <> [] -> evidence s2 phase = evidence s1 phase).
  { intros phase Hne. unfold evidence in *. destruct (ds_Events s1 !! str phase) as [e|] eqn:Ee; [|done].
    by rewrite (lookup_weaken _ _ _ _ Ee He). }
  assert (evidence s2 "tree_prepared" = evidence s1 "tree_prepared") as E1
    by (apply Hkept; intros E; by rewrite E in Et1).
  assert (evidence s2 "nonces_committed" = evidence s1 "nonces_committed") as E2
    by (apply Hkept; intros E; by rewrite E in Em1).
  rewrite E1, Et1 in Et2. rewrite E2, Em1 in Em2.
  assert (t1 = t2) as -> by congruence. assert (m1 = m2) as -> by congruence.
  apply stored_plan_bound in Eq1 as (_ & Eq1 & _). apply stored_plan_bound in Eq2 as (_ & Eq2 & _). rewrite Ho, Eq1 in Eq2.
  assert (q1 = q2) as -> by congruence. split_and!; congruence.
Qed.

Lemma sign_committed env k bound ctx c p prepared peers w w' sigs :
  runs env (signSpendingDelegationTree k bound ctx c p prepared peers) w w' (Ok sigs) ->
  exists w1 snapshots s, env w w1 /\ ListSpendingDelegations (st_ledger w1) = (st_ledger w', Ok snapshots) /\
    s ∈ snapshots /\ committed c p prepared peers s /\ sign_tree k ctx c p prepared peers = Ok sigs.
Proof.
  unfold signSpendingDelegationTree, verifyRenewalTranscript. intros E. apply runs_bind_Ok in E as ([] & w2 & E & [-> Es]%runs_pure).
  apply runs_bind_Ok in E as ([] & w3 & [-> _]%runs_require & E).
  apply runs_bind_Ok in E as (snapshots & w4 & E & [-> Et]%runs_pure).
  unfold on_ledger in E. apply runs_call in E as (w1 & He & E). destruct (ListSpendingDelegations (st_ledger w1)) as [l r] eqn:El.
  apply pair_equal_spec in E as [<- ->]. symmetry in Et. apply verify_transcript_Ok in Et as (s & Hin & Hc).
  by exists w1, snapshots, s.
Qed.

(** C20: A nonce of the Guardian never meets two challenges.  If a tree of one
    delegation is signed twice, whatever other requests do in between, then both
    times the plan, the prepared tree with its sealed nonces, and all cosigners'
    nonces are the same: the journal keeps the first transcript, and the key signs
    no other.  What the others do to the journal is any sequence of its two
    operations, with rows that read back (strings that are valid UTF-8, and within
    the reader's sizes: [devent_storable], [plan_storable]), and of steps that
    leave the delegation tables alone. *)
Theorem nonce_single_transcript env k1 b1 ctx1 c1 p1 x1 a1 w1 w1' sigs1 k2 b2 ctx2 c2 p2 x2 a2 w2' sigs2 :
  (forall w w', env w w' -> rtc delegation_move (st_ledger w) (st_ledger w')) ->
  runs env (signSpendingDelegationTree k1 b1 ctx1 c1 p1 x1 a1) w1 w1' (Ok sigs1) ->
  runs env (signSpendingDelegationTree k2 b2 ctx2 c2 p2 x2 a2) w1' w2' (Ok sigs2) ->
  dr_OperationID (dp_Request p1) = dr_OperationID (dp_Request p2) ->
  json_print (delegation_plan_json p1) = json_print (delegation_plan_json p2) /\
  json_print (prepared_json x1) = json_print (prepared_json x2) /\ json_print (peers_json a1) = json_print (peers_json a2).
Proof.
  intros Hm (v1 & snaps1 & s1 & _ & El1 & Hin1 & Hc1 & _)%sign_committed (v2 & snaps2 & s2 & He & El2 & Hin2 & Hc2 & _)%sign_committed Hop.
  apply Hm in He. apply list_delegations_Ok in El1 as (key & m1 & Hk1 & Hl1 & (Hd & Hi & _) & Hs1).
  apply list_delegations_Ok in El2 as (key2 & m2 & Hk2 & Hl2 & _ & Hs2).
  rewrite <-Hd in Hl1. rewrite <-(integrityKeyCopy_same _ _ Hi) in Hk1.
  destruct (delegation_moves_continue _ _ _ _ Hk1 Hl1 He) as (Hk & m2' & Hl & Hcont).
  rewrite Hk2 in Hk. apply Ok_inj in Hk as ->. rewrite Hl2 in Hl. apply Ok_inj in Hl as <-.
  apply Hs1 in Hin1. apply Hs2 in Hin2. destruct (Hcont _ _ Hin1) as (s & Es & Hstep).
  rewrite (cm_operation _ _ _ _ _ Hc1), Hop, <-(cm_operation _ _ _ _ _ Hc2), Hin2 in Es. injection Es as <-.
  by apply (committed_same c1 p1 x1 a1 c2 p2 x2 a2 s1 s2).
Qed.
End Transcript.

(** *** The signatures of a tree *)
Inductive in_tree (p : Packet) : TxTree -> Prop :=
  | InRoot children : in_tree p (TxTreeOf p children)
  | InChild root children child : child ∈ children -> in_tree p child -> in_tree p (TxTreeOf root children).

Fixpoint TxTree_nested_ind (P : TxTree -> Prop) (HP : forall root children, Forall P children -> P (TxTreeOf root children))
    (t : TxTree) : P t :=
  match t with
  | TxTreeOf root children => HP root children
      ((fix walk children : Forall P children :=
          match children with
          | [] => Forall_nil_2 P
          | child :: children => Forall_cons_2 P child children (TxTree_nested_ind P HP child) (walk children)
          end) children)
  end.

Section Trees.
Context `{Btc} `{Secp} `{ArkScript} `{Txscript} `{ArkTree} `{ArkIntent} `{PsbtFields} `{BatchLib} `{MuSig}.

(** A transaction that the key cosigns. *)
Definition cosigned (key : PubKey) (p : Packet) : Prop := exists keys, ParseCosignerKeysFromArkPsbt p 0 = Some keys /\ key ∈ keys.

Lemma signing_nodes_Ok key t : forall out nodes, delegationSigningNodes key t out = Ok nodes ->
  (forall txid p, nodes !! txid = Some p ->
     out !! txid = Some p \/ in_tree p t /\ cosigned key p /\ txid = tx_TxHash (pk_UnsignedTx p)) /\
  (forall txid, is_Some (out !! txid) -> is_Some (nodes !! txid)) /\
  (forall p, in_tree p t -> cosigned key p -> is_Some (nodes !! tx_TxHash (pk_UnsignedTx p))).
Proof.
  induction t as [root children IH] using TxTree_nested_ind. intros out nodes E. cbn [delegationSigningNodes] in E.
  apply bind_Ok in E as (keys & Ek & E). apply encoded_Ok in Ek. set (out1 := if existsb _ keys then _ else out) in E.
  assert (K1 : (forall txid p, out1 !! txid = Some p -> out !! txid = Some p \/ in_tree p (TxTreeOf root children) /\ cosigned key p /\
      txid = tx_TxHash (pk_UnsignedTx p)) /\ (forall txid, is_Some (out !! txid) -> is_Some (out1 !! txid)) /\
      (cosigned key root -> is_Some (out1 !! tx_TxHash (pk_UnsignedTx root)))).
  { subst out1. destruct (existsb (fun k => k == key) keys) eqn:Ex.
    - apply existsb_exists in Ex as (k & Hin & ->%bool_decide_eq_true). apply list_elem_of_In in Hin. split_and!.
      + intros txid p. rewrite lookup_insert_Some. intros [[<- <-]|[_ E1]]; [right|by left]. split; [constructor|]. split; [by exists keys|done].
      + intros txid Hs. rewrite lookup_insert_is_Some. by destruct (decide (tx_TxHash (pk_UnsignedTx root) = txid)); [left|right].
      + intros _. rewrite lookup_insert_eq. by eexists.
    - split_and!; [by left|done|]. intros (keys' & Ek' & Hin). rewrite Ek in Ek'. injection Ek' as <-. exfalso.
      apply not_true_iff_false in Ex. apply Ex, existsb_exists. exists key. split; [by apply list_elem_of_In|by apply bool_decide_eq_true]. }
  clearbody out1. destruct K1 as (K1 & K2 & K3).
  cut ((forall txid p, nodes !! txid = Some p -> out1 !! txid = Some p \/ exists child, child ∈ children /\ in_tree p child /\ cosigned key p /\
         txid = tx_TxHash (pk_UnsignedTx p)) /\ (forall txid, is_Some (out1 !! txid) -> is_Some (nodes !! txid)) /\
       (forall child p, child ∈ children -> in_tree p child -> cosigned key p -> is_Some (nodes !! tx_TxHash (pk_UnsignedTx p)))).
  { intros (G1 & G2 & G3). split_and!; [|by auto|].
    - intros txid p [Hp|(child & Hin & Ht & Hc)]%G1; [by apply K1|]. right. split; [by eapply InChild|done].
    - intros p Hp Hc. inversion Hp as [? E1|? ? child Hin Ht E1]; subst; [by apply G2, K3|by eapply G3]. }
  clear K1 K2 K3 Ek. revert out1 E. induction children as [|child children IHc]; intros out1 E.
  { apply Ok_inj in E as <-. split_and!; [by left|done|by intros ? ? ?%elem_of_nil]. }
  apply Forall_cons in IH as [Hchild IH]. apply bind_Ok in E as (out2 & E2 & E).
  destruct (Hchild _ _ E2) as (A1 & A2 & A3). destruct (IHc IH _ E) as (B1 & B2 & B3). split_and!; [|by auto|].
  - intros txid p [[Hp|Hp]%A1|(child' & Hin & Hp)]%B1; [by left|right; exists child; split; [by left|done]|right; exists child'; split; [by right|done]].
  - intros child' p [->|Hin]%elem_of_cons Hp Hc; [by apply B2, A3|by eapply B3].
Qed.

(** The tree that is signed: of a verified delegation, valid under the pinned sweep
    policy, and paying the vault once, with the planned amount, in a leaf that the
    contract's cosigner and another key sign. *)
Record signing_tree (c : renewalContract) (p : spendingDelegationPlan) (e : spendingDelegationTree) (t : vtxoPolicyTree)
    (graph : TxTree) (commitment : Packet) (root : bytes) : Prop := {
  st_plan : plan_verified c t p;
  st_packet : parsePSBT (dt_CommitmentPSBT e) = Ok commitment;
  st_policy : exists pins forfeit, IdentityFor (rb_Network (rc_Binding c)) = Ok pins /\ dt_BatchExpiry e = id_VtxoTreeExpirySeconds pins /\
    btcec_ParsePubKey (mustDecodeRenewalHex (id_CheckpointForfeitPubHex pins)) = Some forfeit /\
    let expiry := {| rl_Type := LocktimeTypeSecond; rl_Value := dt_BatchExpiry e |} in
    arktree_ValidateVtxoTree graph commitment forfeit expiry = true /\ batch_output graph commitment forfeit expiry /\
    sweep_root forfeit expiry = Ok root;
  st_receiver : exists txid vout out leaf, receivers graph (tr_PkScript t) = [(txid, vout, out)] /\
    to_Value out = pl_ReceiverSats (dp_Renewal p) /\ tree_Find graph txid = Some leaf /\
    exists k0 k1, ParseCosignerKeysFromArkPsbt (tree_Root leaf) 0 = Some [k0; k1] /\ SerializePubKey k0 <> SerializePubKey k1 /\
      (hex_encode k0 = str "02" ++ rb_CosignerPub (rc_Binding c) \/ hex_encode k1 = str "02" ++ rb_CosignerPub (rc_Binding c));
}.

Lemma signing_tree_Ok c p e graph commitment root : verifyRenewalSigningTree c p e = Ok (graph, commitment, root) ->
  exists t params enc, contract_valid c t params enc /\ signing_tree c p e t graph commitment root.
Proof.
  unfold verifyRenewalSigningTree. intros E. apply bind_Ok in E as ([t registration] & Ec & E).
  apply capability_Ok in Ec as (_ & (params & enc & Hv) & Hp & _). apply bind_Ok in E as (pins & Epi & E).
  apply bind_Ok in E as ([] & Eb & E). apply bind_Ok in E as (commitment' & Eco & E). apply bind_Ok in E as ([] & _ & E).
  apply bind_Ok in E as ([flat graph'] & _ & E). apply bind_Ok in E as (forfeit & Ef & E). apply bind_Ok in E as ([] & Evt & E).
  apply bind_Ok in E as ([] & Ebo & E). apply bind_Ok in E as ([txid vout] & Er & E). destruct (tree_Find graph' txid) as [leaf|] eqn:El; [|done].
  apply bind_Ok in E as ([] & Ere & E). apply bind_Ok in E as (root' & Ero & E).
  apply Ok_inj, pair_equal_spec in E as [[-> ->]%pair_equal_spec ->]. apply or_err_Ok in Epi, Eco. apply fail_if_Ok in Eb, Evt. bool_hyps.
  apply canonical_psbt_Ok in Eco as (Hc & _). apply batch_output_Ok in Ebo. apply receiver_exact in Er as (out & Hr & Hval & _).
  unfold parsed in Ef. destruct (btcec_ParsePubKey _) as [pub|] eqn:Ek; [|done]. apply Ok_inj in Ef as ->.
  exists t, params, enc. split; [done|]. constructor; [done|done|by exists pins, forfeit|].
  exists txid, vout, out, leaf. split_and!; try done. unfold receiver_cosigned in Ere.
  destruct (ParseCosignerKeysFromArkPsbt _ 0) as [[|k0 [|k1 []]]|] eqn:Epk; try done. apply fail_if_Ok, orb_false_iff in Ere as [Eo Ed].
  apply negb_false_iff, orb_prop in Eo. exists k0, k1. split; [done|]. split; [by bool_hyps|].
  destruct Eo as [Eo|Eo]; apply bool_decide_eq_true in Eo; [by left|by right].
Qed.
End Trees.

Lemma fold_insert_Ok {A B} (f : bytes * A -> result B) l acc out :
  fold_res (fun m kv => b ← f kv; Ok (<[fst kv := b]> m)) (acc : gmap bytes B) l = Ok out ->
  (forall k b, out !! k = Some b -> acc !! k = Some b \/ exists a, (k, a) ∈ l /\ f (k, a) = Ok b) /\
  (forall k, is_Some (acc !! k) \/ (exists a, (k, a) ∈ l) -> is_Some (out !! k)).
Proof.
  revert acc. induction l as [|[k a] l IH]; intros acc E; simpl in E.
  { apply Ok_inj in E as <-. split; [by left|]. by intros k [|(a & ?%elem_of_nil)]. }
  apply bind_Ok in E as (acc' & Ea & E). apply bind_Ok in Ea as (b & Eb & Ea). apply Ok_inj in Ea as <-. apply IH in E as [H1 H2]. split.
  - intros k' b' [[[<- <-]|[_ Hk]]%lookup_insert_Some|(a' & Hin & Ef)]%H1; [right; exists a; split; [by left|done]|by left|].
    right. exists a'. split; [by right|done].
  - intros k' Hk. apply H2. simpl. destruct (decide (k = k')) as [->|Hne]; [left; rewrite lookup_insert_eq; by eexists|].
    rewrite lookup_insert_ne by done. destruct Hk as [Hk|(a' & Hin)]; [by left|right].
    apply elem_of_cons in Hin as [Hin|Hin]; [by apply pair_equal_spec in Hin as [? _]|by exists a'].
Qed.

Section Signatures.
Context `{Btc} `{Secp} `{ArkScript} `{Txscript} `{ArkTree} `{ArkIntent} `{PsbtFields} `{BatchLib} `{MuSig}.

(** A signature of one transaction: the nonce comes from the sealed seed, the
    binding and the transaction; the committed nonces are of exactly its cosigners,
    and the Guardian's is its own. *)
Record node_signed (key seed binding root : bytes) (graph : TxTree) (commitment : Packet) (own : gmap bytes bytes)
    (nonces : gmap bytes bytes) (txid : bytes) (packet : Packet) (sig : bytes) : Prop := {
  ns_nonce : exists secret public keys publics aggregate prevout digest raw,
    musig_GenNonces (priv_PubKey key) seed binding (str "vaulted-light/musig-nonce/v1:" ++ txid) = Some (secret, public) /\
    default [] (own !! txid) = hex_encode public /\
    default [] (nonces !! hex_encode (SerializePubKey (priv_PubKey key))) = hex_encode public /\
    ParseCosignerKeysFromArkPsbt packet 0 = Some keys /\ length keys = size nonces /\
    Forall2 (fun pub raw => hex_decode (default [] (nonces !! hex_encode (SerializePubKey pub))) = Some raw /\ blen raw = 66) keys publics /\
    musig_AggregateNonces publics = Some aggregate /\ signing_prevout graph commitment (pk_UnsignedTx packet) = Ok prevout /\
    taproot_sighash (pk_UnsignedTx packet) prevout = Some digest /\
    musig_Sign secret key aggregate keys digest root = Some raw /\ sig = hex_encode raw;
}.

Lemma sign_node_Ok key seed binding root graph commitment own peers txid packet sig :
  sign_node key seed binding root graph commitment own peers (txid, packet) = Ok sig ->
  node_signed key seed binding root graph commitment own (default ∅ (default None (peers !! txid))) txid packet sig.
Proof.
  unfold sign_node. intros E. apply bind_Ok in E as (keys & Ek & E). apply bind_Ok in E as ([] & El & E).
  apply bind_Ok in E as ([secret public] & En & E). apply bind_Ok in E as ([] & Eo & E). apply bind_Ok in E as (publics & Ep & E).
  apply bind_Ok in E as (aggregate & Ea & E). apply bind_Ok in E as (prevout & Epr & E). apply bind_Ok in E as (digest & Ed & E).
  apply bind_Ok in E as (raw & Es & E). apply Ok_inj in E as <-. apply or_err_Ok, encoded_Ok in Ek. apply encoded_Ok in En, Ea, Ed, Es.
  apply fail_if_Ok in El, Eo. apply negb_false_iff, Nat.eqb_eq in El. apply orb_false_iff in Eo as [Eo1 Eo2].
  apply negb_false_iff, bool_decide_eq_true in Eo1, Eo2. constructor. exists secret, public, keys, publics, aggregate, prevout, digest, raw.
  split_and!; try done; [by rewrite Eo2|]. apply collect_Ok in Ep. eapply Forall2_impl; [exact Ep|]. intros pub raw' Er. unfold peer_nonce in Er.
  apply bind_Ok in Er as (raw'' & Eh & Er). apply bind_Ok in Er as ([] & Elen & Er). apply Ok_inj in Er as ->.
  apply or_err_Ok, encoded_Ok in Eh. apply fail_if_Ok, negb_false_iff, Z.eqb_eq in Elen. done.
Qed.

(** What a signed tree is: the capsule opens for this plan and tree only, and every
    transaction that the key cosigns, and nothing else, is signed. *)
Record tree_signed (k : fileBackedVaultKeys) (c : renewalContract) (p : spendingDelegationPlan) (prepared : spendingDelegationPreparedTree)
    (peers : peer_map) (t : vtxoPolicyTree) (sigs : gmap bytes bytes) : Prop := {
  ts_signed : exists master key seed iv sealed graph commitment root,
    let binding := delegationTreeBinding p (dx_Tree prepared) in let even := evenYPrivateKey key in
    k = Some master /\ deriveVtxoKey master (rc_KeyScope c) = Ok key /\ dc_Binding (dx_Capsule prepared) = binding /\
    SerializePubKey (priv_PubKey key) = SerializePubKey (tr_CosignerPub t) /\
    hex_decode (dc_IV (dx_Capsule prepared)) = Some iv /\ hex_decode (dc_Ciphertext (dx_Capsule prepared)) = Some sealed /\
    aead_Open (delegationNonceAEAD even) iv sealed binding = Some seed /\
    signing_tree c p (dx_Tree prepared) t graph commitment root /\
    (forall txid sig, sigs !! txid = Some sig -> exists packet, in_tree packet graph /\ cosigned (priv_PubKey even) packet /\
       txid = tx_TxHash (pk_UnsignedTx packet) /\
       node_signed even seed binding root graph commitment (default ∅ (dc_Nonces (dx_Capsule prepared)))
         (default ∅ (default None (default ∅ peers !! txid))) txid packet sig) /\
    (forall packet, in_tree packet graph -> cosigned (priv_PubKey even) packet -> is_Some (sigs !! tx_TxHash (pk_UnsignedTx packet)));
}.

Lemma sign_tree_Ok k ctx c p prepared peers sigs : sign_tree k ctx c p prepared peers = Ok sigs ->
  exists t params enc, contract_valid c t params enc /\ tree_signed k c p prepared peers t sigs.
Proof.
  unfold sign_tree. intros E. apply bind_Ok in E as ([[graph commitment] root] & Et & E).
  apply signing_tree_Ok in Et as (t & params & enc & Hv & Ht). apply bind_Ok in E as ([] & Eb & E).
  apply with_renewal_key_Ok in E as (master & key & Ek & Ed & Ec & E). apply bind_Ok in E as (seed & Es & E).
  apply bind_Ok in E as (nodes & En & E). apply bind_Ok in E as ([] & _ & E). apply fail_if_Ok, negb_false_iff, bool_decide_eq_true in Eb.
  apply or_err_Ok in En. apply signing_nodes_Ok in En as (Hn & _ & Hall). apply fold_insert_Ok in E as [Hs Hdom].
  unfold open_capsule in Es. apply bind_Ok in Es as (iv & Ei & Es). apply bind_Ok in Es as ([] & _ & Es). apply bind_Ok in Es as (sealed & Ese & Es).
  apply or_err_Ok, encoded_Ok in Ei. apply encoded_Ok in Ese, Es.
  exists t, params, enc. split; [done|]. constructor. exists master, key, seed, iv, sealed, graph, commitment, root. split_and!; try done.
  - pose proof (cv_cosigner _ _ _ _ Hv) as [Hc1 Hc2]. rewrite Ec in Hc1. apply (inj hex_encode) in Hc1. by rewrite Hc2.
  - intros txid sig [E|(packet & Hin%elem_of_map_to_list & E)]%Hs; [by rewrite lookup_empty in E|].
    apply Hn in Hin as [Hin|(Hin & Hc & Hid)]; [by rewrite lookup_empty in Hin|]. exists packet. split_and!; try done. by apply sign_node_Ok.
  - intros packet Hin Hc. destruct (Hall _ Hin Hc) as [p' Hp']. apply Hdom. right. exists p'. by apply elem_of_map_to_list.
Qed.

(** C19: The Guardian signs a delegated tree only for the transcript that the journal
    has committed.  When it returns signatures, the journal, at the moment it was
    read, held the owner-signed plan, this prepared tree and all cosigners' nonces,
    and the session was open; the tree is valid under the pinned sweep policy and
    pays the vault the planned amount; the capsule opened under the digest of
    exactly this plan and tree; and each transaction of the tree that the key
    cosigns, and no other, has a signature, with the committed nonces of exactly its
    cosigners. *)
Theorem tree_signature_committed env k bound ctx c p prepared peers w w' sigs :
  runs env (signSpendingDelegationTree k bound ctx c p prepared peers) w w' (Ok sigs) ->
  (exists w1 snapshots s, env w w1 /\ ListSpendingDelegations (st_ledger w1) = (st_ledger w', Ok snapshots) /\ s ∈ snapshots /\
     committed c p prepared peers s) /\
  exists t params enc, contract_valid c t params enc /\ tree_signed k c p prepared peers t sigs.
Proof.
  intros (w1 & snapshots & s & He & El & Hin & Hc & Es)%sign_committed. split; [by exists w1, snapshots, s|]. by eapply sign_tree_Ok.
Qed.
End Signatures.

(** ** Examples *)
Definition toy_renewed_receiver : Packet := toy_node 0 [{| to_Value := 19800; to_PkScript := toy_vault_script |}].
Definition toy_renewal_commitment : Packet := {|
  pk_UnsignedTx := {| ut_Version := 2; ut_LockTime := 0; ut_TxIn := [toy_txin 7 0];
    ut_TxOut := [{| to_Value := 19800; to_PkScript := toy_cosigner |}; {| to_Value := 330; to_PkScript := str "connector" |};
                 {| to_Value := 100; to_PkScript := str "server" |}] |};
  pk_Inputs := [toy_plain_input 20000 []]; pk_Outputs := [[]; []; []]; pk_Unknowns := [] |}.

(** The owner's forfeit of the delegation, as signed by the owner, with the hash
    type set, and with the Guardian's signature. *)
Definition toy_final_forfeit : Packet := toy_forfeit delegatedOwnerSighash [toy_user].
Definition toy_first (f : PInput -> PInput) (p : Packet) : Packet :=
  set_inputs (match pk_Inputs p with input :: inputs => f input :: inputs | [] => [] end) p.
Definition toy_default_forfeit : Packet := toy_first set_default_sighash toy_final_forfeit.
Definition toy_signed_forfeit : Packet :=
  toy_first (fun i => set_sigs (pi_TaprootScriptSpendSig i ++ [toy_sig toy_cosigner SigHashDefault]) i) toy_default_forfeit.

Definition toy_delegated_table : list (bytes * Packet) := toy_delegation_table ++
  [(str "commitment", toy_renewal_commitment); (str "vtxo", toy_renewed_receiver); (str "connector", toy_connector);
   (str "final", toy_final_forfeit); (str "default", toy_default_forfeit); (str "signed", toy_signed_forfeit)].

Definition toy_renewal_trees : ArkTree := {|
  arktree_NewTxTree := fun flat => match flat with
    | [node] => Some (TxTreeOf (if tn_Tx node == str "connector" then toy_connector else toy_renewed_receiver) [])
    | _ => None end;
  arktree_ValidateVtxoTree := fun _ _ _ _ => true; arktree_ValidateTreeSigs := fun _ _ _ => true;
  arktree_AggregateKeys := fun keys _ => head keys; tree_Validate := fun _ => true; tree_Leaves := fun t => [tree_Root t];
  tree_Find := fun t _ => Some t; ParseCosignerKeysFromArkPsbt := fun _ _ => Some [toy_cosigner; toy_user];
  GetVtxoTaprootTree := fun _ i => Some (match i with O => [] | S _ => [[]] end) |}.

Definition toy_delegated_plan : spendingDelegationPlan := {|
  dp_Request := toy_delegation_request; dp_ValidAt := 1767225600; dp_InputExpiresAt := 1767229200;
  dp_Renewal := requested_plan toy_delegation_request (rc_DescriptorHash toy_contract) (toy_txin 9 4) 20000 19800 |}.

Definition toy_delegated_evidence : spendingRenewalFinalEvidence := {|
  fe_BatchID := str "batch"; fe_BatchExpiry := MutinynetVtxoTreeExpirySeconds; fe_CommitmentPSBT := str "commitment";
  fe_VtxoTree := [{| tn_Txid := toy_txid 1; tn_Tx := str "vtxo"; tn_Children := ∅ |}];
  fe_Connectors := [{| tn_Txid := toy_txid 2; tn_Tx := str "connector"; tn_Children := ∅ |}];
  fe_OwnerForfeitPSBT := str "final" |}.

Notation toy_delegated final := (@authorizeSpendingDelegation (toy_chain toy_delegated_table) toy_secp toy_ark toy_txscript
  toy_renewal_trees toy_delegation_intent toy_plain_fields toy_batch_lib (Some toy_master) (fun _ => Ok tt) toy_contract
  toy_delegated_plan final).

Lemma toy_delegation_signs : toy_delegated (Some toy_delegated_evidence) = Ok (str "signed").
Proof. vm_compute. reflexivity. Qed.

Lemma toy_delegated_laws : @PsbtLaws (toy_chain toy_delegated_table).
Proof. apply (toy_laws toy_delegated_table). apply (bool_decide_eq_true_1 (NoDup (map fst toy_delegated_table))). vm_compute. reflexivity. Qed.

Lemma delegation_signed_witness : toy_delegated (Some toy_delegated_evidence) = Ok (str "signed") /\
  exists t params enc, @contract_valid (toy_chain toy_delegated_table) toy_secp toy_ark toy_contract t params enc.
Proof.
  split; [exact toy_delegation_signs|].
  destruct (@delegation_signed (toy_chain toy_delegated_table) toy_secp toy_ark toy_txscript toy_renewal_trees toy_delegation_intent
    toy_plain_fields toy_batch_lib toy_delegated_laws _ _ _ _ _ _ toy_delegation_signs) as (t & params & enc & _ & _ & _ & _ & _ & Hv & _).
  exists t, params, enc. exact Hv.
Defined.

(** A library with one tree, and nonces of two cosigners. *)
Definition toy_flat : FlatTxTree := [{| tn_Txid := toy_txid 1; tn_Tx := str "vtxo"; tn_Children := ∅ |}].
Definition toy_musig : MuSig := {|
  aead_NonceSize := 12; aead_Seal := fun _ _ plain _ => plain; aead_Open := fun _ _ sealed _ => Some sealed;
  musig_GenNonces := fun _ seed _ _ => Some (seed, repeat Byte.x02 66); musig_AggregateNonces := fun publics => head publics;
  musig_Sign := fun _ _ _ _ _ _ => Some (repeat Byte.x07 32); taproot_sighash := fun _ _ => Some (repeat Byte.x08 32);
  FlatTxTree_set := fun _ _ => Some toy_flat |}.

Definition toy_signing_tree : spendingDelegationTree := {|
  dt_BatchID := str "batch"; dt_BatchExpiry := MutinynetVtxoTreeExpirySeconds; dt_CommitmentPSBT := str "commitment"; dt_VtxoTree := toy_flat |}.

Notation toy_prepare := (@prepareSpendingDelegationTree (toy_chain toy_delegated_table) toy_secp toy_ark toy_txscript
  toy_renewal_trees toy_delegation_intent toy_batch_lib toy_musig (Some toy_master) (Ok tt) (repeat Byte.x01 32) (repeat Byte.x03 12)
  toy_contract toy_delegated_plan toy_signing_tree).

Definition toy_binding : bytes := Eval vm_compute in @delegationTreeBinding toy_batch_lib toy_delegated_plan toy_signing_tree.
Definition toy_prepared : spendingDelegationPreparedTree := {|
  dx_Tree := toy_signing_tree;
  dx_Capsule := {| dc_Binding := toy_binding; dc_Nonces := Some {[toy_txid 1 := hex_encode (repeat Byte.x02 66)]};
    dc_IV := hex_encode (repeat Byte.x03 12); dc_Ciphertext := hex_encode (repeat Byte.x01 32) |} |}.

(** It is the one that the key prepares. *)
Lemma toy_prepared_by_key : match toy_prepare with
  | Ok capsule => same_json (capsule_json capsule) (capsule_json (dx_Capsule toy_prepared))
  | Err _ => false
  end = true.
Proof. vm_compute. reflexivity. Qed.

Definition toy_peers : peer_map := Some {[toy_txid 1 := Some (
  <[hex_encode (drop 1 toy_cosigner) := hex_encode (repeat Byte.x02 66)]>
    {[hex_encode (drop 1 toy_user) := hex_encode (repeat Byte.x04 66)]})]}.

(** The journal, with the session at its committed nonces. *)
Definition toy_delegated_row : SpendingDelegation := Eval vm_compute in {|
  sd_OperationID := dr_OperationID toy_delegation_request; sd_VaultID := str "vault-1"; sd_InputTxid := toy_txid 9; sd_InputVout := 4;
  sd_ValidAt := 1767225600; sd_ExpiresAt := 1767229200; sd_FeeSats := 200;
  sd_PlanDigest := hex_encode (spendingDelegationRequestDigest toy_delegation_request);
  sd_Plan := json_print (delegation_plan_json toy_delegated_plan); sd_CreatedAt := str "2026-01-01T00:00:00Z";
  sd_Program := delegationSetVaultProgram; sd_DescriptorHash := rc_DescriptorHash toy_contract;
  sd_SetID := demo_hex 16 Byte.x06; sd_SetDigest := demo_hex 32 Byte.x07; sd_SetSize := 1; sd_SetIndex := 0 |}.

Definition toy_session_event (phase : string) (evidence : bytes) : SpendingDelegationEvent := {|
  de_OperationID := dr_OperationID toy_delegation_request; de_Phase := str phase; de_Evidence := evidence;
  de_CreatedAt := str "2026-01-01T00:02:00Z" |}.
Definition toy_event_row (e : SpendingDelegationEvent) : JournalEvent := {|
  je_operation_id := de_OperationID e; je_phase := de_Phase e; je_payload := marshal_delegation_event e;
  je_mac := renewalMAC demo_vault_key delegation_event_domain (marshal_delegation_event e) |}.

Definition toy_session_events : list JournalEvent := Eval vm_compute in
  map (fun phase => toy_event_row (toy_session_event phase (jtext "{}")))
    ["claimed"; "register_authorized"; "register_dispatched"; "register_result"; "batch_started"]%string ++
  [toy_event_row (toy_session_event "tree_prepared" (json_print (@prepared_json toy_batch_lib toy_prepared)));
   toy_event_row (toy_session_event "nonces_committed" (json_print (peers_json toy_peers)))].

Definition toy_session_state : State := {|
  st_ledger := set_db (set_delegation (Build_JournalTables [delegation_row demo_vault_key toy_delegated_row] toy_session_events)
                 (l_db demo_armed_ledger)) demo_armed_ledger;
  st_published := None |}.

Notation toy_sign := (@signSpendingDelegationTree (toy_chain toy_delegated_table) toy_secp toy_ark toy_txscript
  toy_renewal_trees toy_delegation_intent toy_batch_lib toy_musig (Some toy_master) true (Ok tt) toy_contract toy_delegated_plan
  toy_prepared toy_peers).

Lemma toy_tree_signs : is_ok (snd (run (fun _ s => s) 0 toy_sign toy_session_state)) = true.
Proof. vm_compute. reflexivity. Qed.

(** The first run, and another one after it. *)
Definition toy_after_signing : State := fst (run (fun _ s => s) 0 toy_sign toy_session_state).

Lemma toy_signed_run : exists sigs, runs eq toy_sign toy_session_state toy_after_signing (Ok sigs).
Proof.
  destruct (proj1 (is_ok_true _) toy_tree_signs) as (sigs & E). exists sigs. rewrite <-E.
  exact (run_runs eq (fun _ s => s) 0 toy_sign toy_session_state (fun _ _ => eq_refl)).
Qed.

Lemma tree_signature_committed_witness : exists sigs, runs eq toy_sign toy_session_state toy_after_signing (Ok sigs) /\
  exists s, @committed (toy_chain toy_delegated_table) toy_secp toy_ark toy_batch_lib toy_musig toy_contract toy_delegated_plan
    toy_prepared toy_peers s.
Proof.
  destruct toy_signed_run as (sigs & E). exists sigs. split; [exact E|].
  destruct (@tree_signature_committed (toy_chain toy_delegated_table) toy_secp toy_ark toy_txscript toy_renewal_trees
    toy_delegation_intent toy_batch_lib toy_musig _ _ _ _ _ _ _ _ _ _ _ E) as ((w1 & snapshots & s & _ & _ & _ & Hc) & _).
  exists s. exact Hc.
Defined.

(** The session signs again after its first signatures, with the same transcript. *)
Lemma toy_tree_signs_again : is_ok (snd (run (fun _ s => s) 0 toy_sign toy_after_signing)) = true.
Proof. vm_compute. reflexivity. Qed.

Lemma toy_signed_again : exists w sigs, runs eq toy_sign toy_after_signing w (Ok sigs).
Proof.
  destruct (proj1 (is_ok_true _) toy_tree_signs_again) as (sigs & E). exists (fst (run (fun _ s => s) 0 toy_sign toy_after_signing)), sigs.
  rewrite <-E. exact (run_runs eq (fun _ s => s) 0 toy_sign toy_after_signing (fun _ _ => eq_refl)).
Qed.

Lemma nonce_single_transcript_witness : exists w sigs1 sigs2,
  runs eq toy_sign toy_session_state toy_after_signing (Ok sigs1) /\ runs eq toy_sign toy_after_signing w (Ok sigs2) /\
  json_print (peers_json toy_peers) = json_print (peers_json toy_peers).
Proof.
  destruct toy_signed_run as (sigs1 & E1). destruct toy_signed_again as (w & sigs2 & E2). exists w, sigs1, sigs2.
  split; [exact E1|]. split; [exact E2|].
  refine (proj2 (proj2 (@nonce_single_transcript (toy_chain toy_delegated_table) toy_secp toy_ark toy_txscript toy_renewal_trees
    toy_delegation_intent toy_batch_lib toy_musig eq _ _ _ _ _ _ _ _ _ _ _ _ _ _ _ _ _ _ _ _ E1 E2 _))); [|reflexivity].
  intros ? ? ->. reflexivity.
Defined.
